(* ===== verification/_CoqProject ===== *)
-Q . S2P
Prelude.v
Buffers.v
Floats.v
Sorting.v
Cost.v
Observability.v
Rag.v
Sqlite.v
Muninn.v
Memory.v
MemoryMap.v
UtilCodec.v
UtilJson.v
KeyFile.v
Identity.v
UtilClock.v
RateLimiter.v
Approval.v
LoopGuard.v
Ring.v
JobCache.v
RuntimeMonitor.v
Ids.v
Health.v
Instance.v
Security.v
Sandbox.v
SecurityMonitor.v
Auth.v
Skills.v
Service.v
Cron.v
Tools.v
ToolsProcess.v
JobWorker.v
Http.v
ToolsRead.v
ToolsCommand.v
Llama.v
Providers.v
ProviderCalls.v
Regex.v
Dispatcher.v
Agent.v
AgentMemory.v
AgentProviders.v
AgentSession.v
Gateway.v
Config.v
Channels.v
Integrations.v
Tunnel.v
Runtime.v
Daemon.v
Devices.v
Migration.v
SkillForge.v
Log.v
Doctor.v
Onboard.v
Pentest.v
GatewayRun.v
Commands.v
Console.v
DaemonCommand.v
Main.v
