(* ===== verification/Prelude.v ===== *)
(** * Doctor Claw: a verification development

    Doctor Claw is an autonomous assistant written in C.  Requests reach it
    through a gateway; a security monitor and an intrusion detector look at
    them first; they become jobs of a bounded queue; a pool of workers takes
    the jobs, creates an agent from the configuration of the job's instance
    and lets it chat with a model or work on a task; the agent calls tools,
    guarded by an approval manager, a shell policy and a loop guard; a cron
    table puts more jobs into the queue.  The model is reached through one of
    several providers over HTTP or as a local library; a memory in SQLite,
    PostgreSQL or markdown files and an index of text chunks give the agent
    context; channels carry messages from and to messaging services.  Around
    this core are an event log of suspicious activity, health checks, metrics,
    costs, credentials, codecs, and a hash-chained audit log.  A command line
    starts the daemon that runs all this, and a command for each of the other
    tasks: profiles, services, skills, channels, tasks, migrations, set-up and
    diagnosis.

    ** Files

    - [Prelude]: machine integers, C strings and the functions of the C
      library the program uses, arrays with a live count, tactics and hints.
    - [Buffers]: texts assembled with [snprintf] at an offset, the pattern
      behind most buffers of the program and most of its overflows.
    - [KeyFile]: the reader of lines with a key and a value that the profiles,
      skills and services share.
    - [Floats]: [double] and [float] as the executable IEEE 754 model of the
      Standard Library.  [Sorting]: the two sorting loops, by score.
    - [UtilCodec], [UtilJson], [UtilClock], [RateLimiter]: [src/util/util.c].
    - [Cost]: [src/cost/cost.c].  [Observability]:
      [src/observability/observability.c].  [Rag]: [src/rag/rag.c].
    - [Sqlite]: the interface of a SQL database, with no laws of its own.
      [Muninn]: [src/muninn/muninn.c].  [Memory]: [src/memory/memory.c], all
      back ends.  [MemoryMap]: the laws of the statements the memory uses, the
      refinement of a finite map, and a database that satisfies the laws.
    - [Approval]: [src/approval/approval.c]; requests, answers, expiry.
    - [LoopGuard]: [src/loop_guard/loop_guard.c]; the static history of tool
      calls and its two tests.
    - [Ring]: ring buffers, the data structure shared by the job queue and
      the event log.
    - [JobCache]: [src/jobcache/jobcache.c]; the queue, its critical sections
      and the interleavings of the threads that use it.
    - [RuntimeMonitor]: [src/runtime_monitor/runtime_monitor.c].
    - [Ids]: [src/ids/ids.c].  [Health]: [src/health/health.c] and
      [src/heartbeat/heartbeat.c].  [Instance]: [src/instance/instance.c].
    - [Security]: [src/security/security.c]; policies, secrets, the audit
      chain, command lines of the sandboxes.  [Sandbox]: its pairing,
      sandboxes and their detection.
    - [SecurityMonitor]: [src/security/security_monitor.c]; the checks of a
      request and the filter of outgoing URLs.
    - [Auth]: [src/auth/auth.c].  [Cron]: [src/cron/cron.c].
    - [JobWorker]: [src/jobcache/jobworker.c]; what a worker does with a job,
      and the scaling of the pool.  The agent is an interface here: the class
      [AgentOps] with the laws [AgentLaws].
    - [Tools]: the dispatcher of [src/tools/tools.c], its parameter parser
      and guards, the shell tools and the file tools that write.
      [ToolsProcess]: its environment filter, the runner with a time limit,
      the workspace and the registry.  [ToolsRead]: the tools that read files
      and addresses.  [ToolsCommand]: all other tools, and the dispatcher with
      every tool in place.
    - [Providers]: the chat context, request text, reply scanner, router and
      retry wrapper of [src/providers/providers.c].
    - [Http]: the HTTP layer and the request limiter of [providers.c], over
      the class [Curl].  [Llama]: [src/llama/llama.c], over the class
      [LlamaLib].  [ProviderCalls]: every provider of [providers.c], its
      request, its reply, its tool calls.
    - [Regex]: the regular expressions of the C library that [agent.c] uses,
      with the POSIX rule for what they match.  [Dispatcher]: the two parsers
      of tool calls of [agent.c] and the text of a result.
    - [Agent]: [src/agent/agent.c]; a turn with its tool loop under either
      dispatcher, the task loop, the history.  Its instances [agent_ops] and [agent_laws] discharge the
      interface of [JobWorker].  [AgentMemory]: the turn with the memory of
      [agent.c].  [AgentProviders]: the turn's call of a provider with the
      tools of the agent.  [AgentSession]: the prompt, the interactive loop
      and the small operations of [agent.c].
    - [Channels]: [src/channels/channels.c]; the table of channels, its file,
      the senders, replies to webhooks, the polling of Telegram.
    - [Gateway]: [src/gateway/gateway.c]; requests, the checks in front of the
      handlers, the handlers, WebSocket handshake, frames and clients.
      [GatewayRun]: its accepting loop, workers and shutdown as steps.
    - [Config]: [src/config/config.c]; defaults, INI reader, environment,
      writer.
    - [Skills]: [src/skills/skills.c].  [Identity]:
      [src/identity/identity.c].  [Integrations]:
      [src/integrations/integrations.c].  [Tunnel]: [src/tunnel/tunnel.c].
      [Runtime]: [src/runtime/runtime.c].
    - [Service]: [src/service/service.c].  [Daemon]: [src/daemon/daemon.c].
      [Devices]: [src/hardware/hardware.c] and
      [src/peripherals/peripherals.c].  [Migration]:
      [src/migration/migration.c].  [SkillForge]:
      [src/skillforge/skillforge.c].  [Log]: [src/log/log.c].  [Doctor]:
      [src/doctor/doctor.c].  [Onboard]: [src/onboard/onboard.c].  [Pentest]:
      [src/pentest/pentest.c].
    - [Commands], [Console], [DaemonCommand], [Main]: [src/main.c]; the
      commands over tables and files, the reports, the daemon put together
      from its components, and the command line.

    ** How the code is represented

    A C string is the list of its bytes without the NUL; a [const char *]
    that the code compares with NULL is an [option].  A struct is a record, an
    enum an inductive type, a fixed array the list of all its rows with the
    count of live ones next to it.  The static variables of a file are one
    record that its functions take and return.  The workers of the daemon share
    the statics of the tools and of the loop guard: a turn of [Agent] takes as
    an argument ([interference]) what the other workers do to them between its
    steps, and a theorem that needs them left alone says so.  A pointer to a struct is the
    struct by value: the calls [f(NULL)] are not represented, the test for
    them at the head of a function is always passed.  Return codes are
    integers.  The clock, [rand], the environment, processes, files, [malloc]
    and the model behind a provider are arguments of the functions that use
    them.  SQLite, curl and the llama library are classes; what a theorem needs of
    them is a class of laws, each with an instance that satisfies it.
    Undefined behaviour that the code can reach (a store outside an
    array, a division by zero, a size that wraps around and is used as the
    size of a buffer) is the result [None], so that a theorem that gives
    [Some] is a theorem of memory safety.  Log lines and console output are
    left out, except where they are what a function is for (the commands of
    [main.c], the reports).  Integers are bounded where the code depends on it ([u32],
    [s32], ...); counters of messages, calls and events are unbounded.

    Loops are structural recursions over the list they walk, or take as fuel
    the bound the code has itself (fifty iterations of a turn, the configured
    rounds of a task, the retries of a call, the count of recorded calls in
    the ping-pong test).  Locking is modelled in [JobCache]: a step of the
    transition system is a critical section, waiting and signalling are
    explicit, and a timed wait may end at its deadline with or without a signal
    pending.  In [GatewayRun] a step is a result of [accept], the end of a
    worker, whose writes and close of its descriptor are run as the worker
    made them, or a shutdown; a use of a descriptor that is not open is
    recorded.  In [Service] the calls made of the system and the programs that
    end by themselves are a log.

    ** What is proved

    - Queue and workers: the queue is a bounded FIFO and stays one in every
      interleaving; a sleeping thread with something to do is matched by one
      that was woken, unless timed waits gave up with a signal pending; a
      worker answers a job with the configuration of its instance, inside the
      response buffer; the pool stays within its limits.
    - Agent: every turn and every task ends, writes only inside its buffers
      and keeps its history in order; with approval required no system call
      is made as long as no other worker opens the gate, which the end of
      any other turn does; no tool runs five times in a row as long as no
      other worker resets the guard, which the start of any other turn does.
      The history is trimmed to
      the system messages and the twenty newest others, which come out
      reversed.  When its provider fails the turn returns the text of the
      failure as an answer.  The matcher behind the dispatchers is the POSIX
      one; with the XML dispatcher a call is found again and again in the prose
      before it, until the loop guard refuses.
    - Tools: what reaches the shell has passed every guard; risky tools are
      refused without approval, yet [cron_run] hands its command to the shell
      as it is; what the read tool shows lies in the workspace; a run ends at
      its limit and its text fits; the environment filter removes nothing;
      the tools all act on the text of their last parameter.
    - Gateway: only requests that passed every check become jobs; a prompt
      reaches the agent through queue and worker unchanged and its answer
      comes back; WebSocket frames round trip below 65536 bytes, a session
      echoes the messages in order, and a frame of more than 65550 bytes leaves
      its array.
    - Memory: on SQLite the operations behave as those of a finite map from
      keys to items; no operation on an opened memory casts the handle of one
      back end to another; Muninn reads back what it wrote, and an index its
      file; the best chunks of the index come
      first; yet what the agent stores is never recalled.
    - Providers: a call that comes back has code 0 or explains its failure, and
      when nothing answers every call of a conversation that fits comes back;
      a reader of JSON finds the conversation in a request that fits; a tool
      call in a reply of OpenAI runs nothing, and the answers of Gemini are
      lost; the limiter pauses but does not limit.
    - Channels: the saved table comes back behind one blank channel, long
      tokens cut; starting
      the channels fills the table with copies; a Telegram message is handled
      again at every poll.
    - Requests: what the security monitor accepts has an allowed method, none
      of five spellings of a traversal and no known injection; the per-address limit is exact as long
      as addresses do not collide; the URL filter is characterised, with its
      bypasses; the pattern matcher of the detector is a wildcard matcher.
    - Records: the audit log is an intact hash chain of its last thousand
      entries, the event log keeps the last events, the cron file, the
      configuration and the codecs round trip, secrets, policies, profiles and
      instances behave as finite maps within their limits, an identity comes
      back from its file, the table of skills is a list, and the runtime counts
      its time with the pauses.
    - Programs and processes: the service manager signals only processes it
      started and has not waited for, whenever the programs end; the gateway
      loses no descriptor and closes none twice, whatever comes in whatever
      order, and its loop ends after a shutdown; the daemon stops in the second
      of the signal while the queue has room, and takes down what it put up,
      but for the polling thread; [stop] signals exactly the daemon's process.
    - Commands: a command line runs a command exactly when it names one and
      asks for neither help nor version; an exported object is imported pair
      by pair; the log is exported whole; tasks added on the command line are
      listed, and are not those of the daemon; profiles are forgotten between
      commands; an interactive session runs its lines in order.
    - Deviations: theorems that show what the code does where a comment, a
      header or the purpose of the function says otherwise (approvals that
      never grant, signatures that do not depend on the message, profiles
      that are not read back, buffers that overflow); each names the lines in
      its file.

    ** What is not modelled

    The calls beneath a socket, a process or a device file, which are arguments
    or events; freeing memory, and what happens when memory runs out, except
    where the code reports it; pthread objects other than the mutex and the two
    conditions of the queue; the lines that components print about their own
    progress; the workspace of the tools after a job, which the gateway drops;
    fields of structures that no function reads or writes; the test
    programs under [tests/]. *)
From Stdlib Require Export ZArith Ascii String Lia.
From stdpp Require Export base tactics numbers strings pretty list list_numbers.

#[global] Open Scope Z_scope.

(** ** Bytes and machine integers

    A byte is an integer in [0, 256); an [n]-bit unsigned C integer is the
    value modulo [2^n], a signed one is that value moved to the symmetric
    interval. *)

Definition wrap (n x : Z) : Z := x mod 2 ^ n.
Definition swrap (n x : Z) : Z := (x + 2 ^ (n - 1)) mod 2 ^ n - 2 ^ (n - 1).

Abbreviation u8 := (wrap 8).
Abbreviation u16 := (wrap 16).
Abbreviation u32 := (wrap 32).
Abbreviation u64 := (wrap 64).
Abbreviation s32 := (swrap 32).
Abbreviation s64 := (swrap 64).

(** [char] is signed on the supported targets: the value a comparison sees. *)
Definition schar (b : Z) : Z := swrap 8 b.

Definition is_byte (b : Z) : Prop := 0 <= b < 256.

(** ** C strings

    A C string is the list of its bytes up to, and without, the terminating
    NUL.  [lit] turns a Rocq string literal into one. *)

Abbreviation cstr := (list Z).

Definition ch (a : ascii) : Z := Z.of_N (N_of_ascii a).
Arguments ch a%_char.

Fixpoint lit (s : string) : cstr :=
  match s with
  | EmptyString => []
  | String a s' => ch a :: lit s'
  end.
Arguments lit s%_string.

(** JSON and XML texts, with a single quote for the double quote. *)
Definition jlit (s : string) : cstr := map (λ b, if b =? 39 then 34 else b) (lit s).
Arguments jlit s%_string.

(** A value a C string can hold: bytes, none of them NUL. *)
Definition wf_cstr (s : cstr) : Prop := Forall (λ b, 0 < b < 256) s.

(** [snprintf(buf, n, "%s", s)] for [char buf[n]] with [n > 0]. *)
Definition snprintf_s (n : nat) (s : cstr) : cstr := take (n - 1) s.

(** The content of a [char] array as a C string: the bytes before the first
    NUL, or all of them when there is none. *)
Fixpoint until_nul (s : list Z) : cstr :=
  match s with
  | [] => []
  | b :: s' => if b =? 0 then [] else b :: until_nul s'
  end.

Definition streq (a b : cstr) : bool := bool_decide (a = b).
Definition strneq (n : nat) (a b : cstr) : bool := bool_decide (take n a = take n b).

Fixpoint has_prefix (p s : cstr) : bool :=
  match p, s with
  | [], _ => true
  | _, [] => false
  | a :: p', b :: s' => (a =? b) && has_prefix p' s'
  end.

(** [strstr] and [strchr] return the offset of the match. *)
Fixpoint strstr (h p : cstr) : option nat :=
  if has_prefix p h then Some O
  else match h with
       | [] => None
       | _ :: h' => S <$> strstr h' p
       end.

Definition contains (h p : cstr) : bool :=
  match strstr h p with Some _ => true | None => false end.

Fixpoint strchr (s : cstr) (c : Z) : option nat :=
  match s with
  | [] => None
  | b :: s' => if b =? c then Some O else S <$> strchr s' c
  end.

(** The [ctype.h] predicates in the C locale. *)
Definition tolower (c : Z) : Z := if (65 <=? c) && (c <=? 90) then c + 32 else c.
Definition isspace (c : Z) : bool := (c =? 32) || ((9 <=? c) && (c <=? 13)).
Definition isdigit (c : Z) : bool := (48 <=? c) && (c <=? 57).

Definition strcaseeq (a b : cstr) : bool := bool_decide (map tolower a = map tolower b).

(** Leading bytes a scanner skips. *)
Fixpoint skip_while (f : Z → bool) (s : cstr) : cstr :=
  match s with
  | [] => []
  | b :: s' => if f b then skip_while f s' else s
  end.

Fixpoint take_while (f : Z → bool) (s : cstr) : cstr :=
  match s with
  | [] => []
  | b :: s' => if f b then b :: take_while f s' else []
  end.

(** Trailing bytes a trimmer removes. *)
Definition rstrip (f : Z → bool) (s : cstr) : cstr := reverse (skip_while f (reverse s)).

(** ** Number formatting and scanning *)

(** ["%d"], ["%zu"], ["%llu"], ... *)
Definition fmt_dec (z : Z) : cstr := lit (pretty z).

Definition hex_digit (upper : bool) (d : Z) : Z :=
  if d <? 10 then 48 + d else (if upper then 55 else 87) + d.

(** ["%0<n>x"] of a value below [16^n]. *)
Fixpoint fmt_hex (upper : bool) (n : nat) (z : Z) : cstr :=
  match n with
  | O => []
  | S n' => fmt_hex upper n' (z / 16) ++ [hex_digit upper (z mod 16)]
  end.

Fixpoint scan_digits (acc : Z) (s : cstr) : Z :=
  match s with
  | b :: s' => if isdigit b then scan_digits (acc * 10 + (b - 48)) s' else acc
  | [] => acc
  end.

(** [strtol(s, NULL, 10)] with its saturation; [atoi] and [atol] are
    conversions of it, as in the GNU C library. *)
Definition strtol10 (s : cstr) : Z :=
  let s := skip_while isspace s in
  let v := match s with
           | 45 :: s' => - scan_digits 0 s'
           | 43 :: s' => scan_digits 0 s'
           | _ => scan_digits 0 s
           end in
  Z.max (- 2 ^ 63) (Z.min (2 ^ 63 - 1) v).
Definition atoi (s : cstr) : Z := s32 (strtol10 s).
Definition atol (s : cstr) : Z := strtol10 s.

(** [strtok] over a whole buffer: the successive non-empty fields. *)
Fixpoint strtok_all (delim : Z → bool) (cur : cstr) (s : cstr) : list cstr :=
  match s with
  | [] => match cur with [] => [] | _ => [reverse cur] end
  | b :: s' =>
      if delim b
      then match cur with
           | [] => strtok_all delim [] s'
           | _ => reverse cur :: strtok_all delim [] s'
           end
      else strtok_all delim (b :: cur) s'
  end.
Definition strtok_fields (delim : Z → bool) (s : cstr) : list cstr := strtok_all delim [] s.

(** The successive results of [fgets(line, size, f)]: lines with their
    newline, cut into pieces of [size - 1] bytes. *)
Fixpoint fgets_from (size room : nat) (cur : cstr) (s : cstr) : list cstr :=
  match s with
  | [] => match cur with [] => [] | _ => [reverse cur] end
  | b :: s' =>
      if b =? 10 then reverse (b :: cur) :: fgets_from size (size - 1) [] s'
      else
        match room with
        | S (S room') => fgets_from size (S room') (b :: cur) s'
        | _ => reverse (b :: cur) :: fgets_from size (size - 1) [] s'
        end
  end.
Definition fgets_lines (size : nat) (s : cstr) : list cstr := fgets_from size (size - 1) [] s.

(** ** Loops and fixed-size arrays

    [for_ lo hi f s] is [for (i = lo; i < hi; i++) s = f(i, s)].  A C array
    of [cap] slots of which the first [count] are live is the list of all
    its slots together with the count: slots beyond the count keep what was
    last stored in them. *)
Definition for_ {S : Type} (lo hi : nat) (f : nat → S → S) (s : S) : S :=
  foldl (λ s i, f i s) s (seq lo (hi - lo)).

(** [a[j] = a[k]] *)
Definition arr_copy {A} (j k : nat) (a : list A) : list A :=
  match a !! k with Some x => <[j := x]> a | None => a end.

(** [for (j = i; j < n - 1; j++) a[j] = a[j + 1]] *)
Definition shift_left {A} (i n : nat) (a : list A) : list A :=
  for_ i (n - 1) (λ j a, arr_copy j (S j) a) a.

(** [for (i = 0; i < n; i++) if (keep(a[i])) a[w++] = a[i]] *)
Definition compact {A} (keep : A → bool) (n : nat) (a : list A) : list A * nat :=
  for_ 0 n (λ i '(a, w),
    match a !! i with
    | Some x => if keep x then (<[w := x]> a, S w) else (a, w)
    | None => (a, w)
    end) (a, O).

(** The index of the first live slot that satisfies [f]. *)
Fixpoint find_idx {A} (f : A → bool) (l : list A) : option nat :=
  match l with
  | [] => None
  | x :: l' => if f x then Some O else S <$> find_idx f l'
  end.

(** ** Automation *)

Create HintDb claw.
Create Rewrite HintDb claw_len.

(** Case analysis on every boolean test, with the arithmetic it decides. *)
Ltac bsplit :=
  repeat match goal with
  | H : _ && _ = true |- _ => apply andb_true_iff in H as [? ?]
  | H : _ || _ = false |- _ => apply orb_false_iff in H as [? ?]
  | H : negb _ = true |- _ => apply negb_true_iff in H
  | H : negb _ = false |- _ => apply negb_false_iff in H
  | H : (_ =? _) = true |- _ => apply Z.eqb_eq in H
  | H : (_ =? _) = false |- _ => apply Z.eqb_neq in H
  | H : (_ <? _) = true |- _ => apply Z.ltb_lt in H
  | H : (_ <? _) = false |- _ => apply Z.ltb_ge in H
  | H : (_ <=? _) = true |- _ => apply Z.leb_le in H
  | H : (_ <=? _) = false |- _ => apply Z.leb_gt in H
  | H : (_ <? _)%nat = true |- _ => apply Nat.ltb_lt in H
  | H : (_ <? _)%nat = false |- _ => apply Nat.ltb_ge in H
  | H : (_ <=? _)%nat = true |- _ => apply Nat.leb_le in H
  | H : (_ <=? _)%nat = false |- _ => apply Nat.leb_gt in H
  | H : bool_decide _ = true |- _ => apply bool_decide_eq_true in H
  | H : bool_decide _ = false |- _ => apply bool_decide_eq_false in H
  end.

Ltac case_if :=
  match goal with
  | |- context [if ?b then _ else _] => destruct b eqn:?
  end; bsplit.

(** Replace the literals of the goal by their bytes. *)
Ltac eval_lits :=
  repeat match goal with
  | |- context [jlit ?s] => let v := eval vm_compute in (jlit s) in change (jlit s) with v
  | |- context [lit ?s] => is_ground s; let v := eval vm_compute in (lit s) in change (lit s) with v
  end.

(** Evaluate a closed goal. *)
Ltac by_eval := vm_compute; reflexivity.

(** ** Machine integers *)

Lemma wrap_small n x : 0 <= x < 2 ^ n → wrap n x = x.
Proof. apply Z.mod_small. Qed.

Lemma wrap_range n x : 0 <= n → 0 <= wrap n x < 2 ^ n.
Proof. intros. apply Z.mod_pos_bound. lia. Qed.

Lemma wrap_lt n x m : 0 <= n → 2 ^ n <= m → wrap n x < m.
Proof. intros. pose proof (wrap_range n x). lia. Qed.

Lemma swrap_small n x : 0 < n → - 2 ^ (n - 1) <= x < 2 ^ (n - 1) → swrap n x = x.
Proof.
  intros Hn Hx. unfold swrap.
  assert (2 ^ n = 2 * 2 ^ (n - 1)) by (rewrite <- Z.pow_succ_r by lia; f_equal; lia).
  rewrite Z.mod_small; lia.
Qed.

(** A decidable statement about every byte is checked by evaluation. *)
Lemma byte_forall (f : Z → bool) :
  forallb f (seqZ 0 256) = true → ∀ b, is_byte b → f b = true.
Proof.
  intros H b Hb. rewrite forallb_forall in H. apply H, list_elem_of_In, elem_of_seqZ.
  unfold is_byte in Hb. lia.
Qed.

(** The value of a hexadecimal digit character, as [strtol] reads it. *)
Definition hex_value (c : Z) : option Z :=
  if isdigit c then Some (c - 48)
  else if (97 <=? c) && (c <=? 102) then Some (c - 87)
  else if (65 <=? c) && (c <=? 70) then Some (c - 55)
  else None.

(** ** Strings *)

Lemma streq_true a b : streq a b = true ↔ a = b.
Proof. apply bool_decide_eq_true. Qed.
Lemma streq_false a b : streq a b = false ↔ a ≠ b.
Proof. apply bool_decide_eq_false. Qed.
Lemma streq_refl a : streq a a = true.
Proof. by apply streq_true. Qed.

Lemma has_prefix_spec p s : has_prefix p s = true ↔ ∃ t, s = p ++ t.
Proof.
  revert s. induction p as [|a p IH]; intros s; simpl.
  - split; [by exists s | done].
  - destruct s as [|b s]; [split; [done | by intros [? ?]] |].
    rewrite andb_true_iff, Z.eqb_eq, IH. split.
    + intros [-> [t ->]]. by exists t.
    + intros [t [= -> ->]]. split; [done | by exists t].
Qed.

(** [strchr] finds the first occurrence. *)
Lemma strchr_app a rest c : Forall (λ b, b ≠ c) a → strchr (a ++ c :: rest) c = Some (length a).
Proof.
  induction 1 as [|b a Hb _ IH]; cbn [app strchr length]; [by rewrite Z.eqb_refl|].
  rewrite (proj2 (Z.eqb_neq b c)) by done. by rewrite IH.
Qed.

(** [strstr] finds the needle exactly when the haystack splits around it,
    and it reports the first such split. *)
Lemma strstr_Some h p i :
  strstr h p = Some i →
  ∃ t, h = take i h ++ p ++ t ∧ (i + length p ≤ length h)%nat.
Proof.
  revert i. induction h as [|b h IH]; intros i; simpl.
  - destruct (has_prefix p []) eqn:E; [|done]. intros [= <-].
    apply has_prefix_spec in E as [t Ht]. exists t.
    apply (f_equal length) in Ht as Hl. rewrite length_app in Hl. simpl in *. split; [done|lia].
  - destruct (has_prefix p (b :: h)) eqn:E.
    + intros [= <-]. apply has_prefix_spec in E as [t Ht]. exists t.
      apply (f_equal length) in Ht as Hl. rewrite length_app in Hl. simpl in *. split; [done|lia].
    + destruct (strstr h p) as [j|] eqn:Ej; [|done]. simpl. intros [= <-].
      destruct (IH j eq_refl) as (t & Ht & Hl). exists t. simpl.
      split; [by f_equal | lia].
Qed.

Lemma strchr_app_not a b c : Forall (λ x, x ≠ c) a → strchr (a ++ b) c = (λ k, (length a + k)%nat) <$> strchr b c.
Proof.
  induction 1 as [|x a Hx Ha IH]; cbn [app strchr].
  - by destruct (strchr b c).
  - rewrite (proj2 (Z.eqb_neq _ _)) by done. rewrite IH. by destruct (strchr b c).
Qed.

Lemma strchr_none a c : Forall (λ x, x ≠ c) a → strchr a c = None.
Proof. intros H. rewrite <- (app_nil_r a). by rewrite strchr_app_not. Qed.

Lemma skip_while_app_stop f s b r : f b = false → Forall (λ x, f x = true) s → skip_while f (s ++ b :: r) = b :: r.
Proof. intros Hb. induction 1 as [|x s Hx _ IH]; cbn [app skip_while]; [by rewrite Hb | by rewrite Hx]. Qed.

Lemma take_while_app_stop f s b r :
  f b = false → Forall (λ x, f x = true) s → take_while f (s ++ b :: r) = s.
Proof.
  intros Hb. induction 1 as [|x s Hx _ IH]; cbn [app take_while]; [by rewrite Hb|]. by rewrite Hx, IH.
Qed.

Lemma strchr_lt s c k : strchr s c = Some k → (k < length s)%nat.
Proof.
  revert k. induction s as [|b s IH]; intros k; cbn [strchr length]; [done|].
  destruct (b =? c); [intros [= <-]; lia|]. destruct (strchr s c) as [j|]; [|done].
  intros [= <-]. specialize (IH j eq_refl). lia.
Qed.

(** A property of every byte of a literal, by evaluation. *)
Lemma forall_lit (P : Z → Prop) `{∀ b, Decision (P b)} v :
  forallb (λ b, bool_decide (P b)) v = true → Forall P v.
Proof. intros Hf. apply Forall_forall. intros b Hb%list_elem_of_In. rewrite forallb_forall in Hf.
  specialize (Hf b Hb). by apply bool_decide_eq_true in Hf. Qed.

Ltac lit_forall := match goal with |- Forall ?P _ => apply (forall_lit P); reflexivity end.

(** A needle is not found inside text without its first byte. *)
Lemma strstr_skip c v s p :
  Forall (λ b, b ≠ c) v → strstr (v ++ s) (c :: p) = (λ i, (length v + i)%nat) <$> strstr s (c :: p).
Proof.
  induction 1 as [|b v Hb _ IH]; cbn [app length]; [by destruct (strstr s (c :: p))|].
  cbn [strstr has_prefix]. rewrite (proj2 (Z.eqb_neq c b)) by done. cbn [andb].
  rewrite IH. by destruct (strstr s (c :: p)).
Qed.

Lemma strstr_none c v p : Forall (λ b, b ≠ c) v → strstr v (c :: p) = None.
Proof. intros Hv. rewrite <- (app_nil_r v). by rewrite strstr_skip. Qed.

Lemma contains_spec h p : contains h p = true ↔ ∃ a t, h = a ++ p ++ t.
Proof.
  unfold contains. split.
  - destruct (strstr h p) as [i|] eqn:E; [|done].
    apply strstr_Some in E as (t & Ht & _). eauto.
  - intros (a & t & ->). revert p. induction a as [|x a IH]; intros p; simpl.
    + destruct (p ++ t) eqn:E; simpl; rewrite (proj2 (has_prefix_spec p _)); eauto.
    + specialize (IH p). destruct (has_prefix p (x :: a ++ p ++ t)); [done|].
      by destruct (strstr (a ++ p ++ t) p).
Qed.

Lemma contains_refl s : contains s s = true.
Proof. apply contains_spec. exists [], []. by rewrite app_nil_r. Qed.

Lemma contains_nil s : contains s [] = true.
Proof. apply contains_spec. by exists [], s. Qed.

Lemma snprintf_s_length n s : (0 < n)%nat → (length (snprintf_s n s) < n)%nat.
Proof. intros. unfold snprintf_s. rewrite length_take. lia. Qed.

Lemma snprintf_s_id n s : (length s < n)%nat → snprintf_s n s = s.
Proof. intros. apply take_ge. lia. Qed.

Lemma snprintf_s_idemp n s : snprintf_s n (snprintf_s n s) = snprintf_s n s.
Proof. unfold snprintf_s. by rewrite take_take, Nat.min_id. Qed.

Lemma skip_while_none f s : Forall (λ b, f b = false) s → skip_while f s = s.
Proof. destruct 1 as [|b s Hb]; simpl; [done|]. by rewrite Hb. Qed.

Lemma until_nul_le s : (length (until_nul s) ≤ length s)%nat.
Proof. induction s as [|b s IH]; cbn [until_nul]; [done|]. case_if; cbn [length]; lia. Qed.

Lemma until_nul_id s : Forall (λ b, b ≠ 0) s → until_nul s = s.
Proof. induction 1 as [|b s Hb _ IH]; [done|]. cbn [until_nul]. by rewrite (proj2 (Z.eqb_neq b 0) Hb), IH. Qed.

Lemma until_nul_stop s t : Forall (λ b, b ≠ 0) s → until_nul (s ++ 0 :: t) = s.
Proof. induction 1 as [|b s Hb _ IH]; cbn [app until_nul]; [done|]. by rewrite (proj2 (Z.eqb_neq b 0) Hb), IH. Qed.

Lemma until_nul_app s t : wf_cstr s → until_nul (s ++ 0 :: t) = s.
Proof. intros Hs. apply until_nul_stop. eapply Forall_impl; [exact Hs|]. cbn beta. lia. Qed.

(** A line that fits is read in one piece. *)
Lemma fgets_from_line size room cur line rest :
  Forall (λ b, b ≠ 10) line → (length line < room)%nat →
  fgets_from size room cur (line ++ 10 :: rest) =
  (reverse cur ++ line ++ [10]) :: fgets_lines size rest.
Proof.
  intros Hl. revert room cur. induction Hl as [|b line Hb Hl IH]; intros room cur Hroom; cbn [app fgets_from].
  - change (10 =? 10) with true. cbn iota. by rewrite reverse_cons.
  - rewrite (proj2 (Z.eqb_neq _ _)) by done. cbn [length] in Hroom.
    destruct room as [|[|room]]; [lia|lia|]. rewrite IH by lia.
    rewrite reverse_cons, <- app_assoc. done.
Qed.

Lemma fgets_lines_line size line rest :
  Forall (λ b, b ≠ 10) line → (length line < size - 1)%nat →
  fgets_lines size (line ++ 10 :: rest) = (line ++ [10]) :: fgets_lines size rest.
Proof. intros Hl Hs. unfold fgets_lines at 1. by rewrite fgets_from_line. Qed.

(** A file of lines that fit the buffer is read line by line. *)
Lemma fgets_lines_all size ls :
  Forall (λ l, Forall (λ b, b ≠ 10) l ∧ (length l < size - 1)%nat) ls →
  fgets_lines size (concat (map (λ l, l ++ [10]) ls)) = map (λ l, l ++ [10]) ls.
Proof.
  induction 1 as [|l ls [Hn Hl] _ IH]; [done|]. cbn [map concat]. rewrite <- app_assoc. cbn [app].
  rewrite fgets_lines_line by done. by rewrite IH.
Qed.

(** ** Decimal numbers *)

Lemma lit_app s t : lit (s +:+ t) = lit s ++ lit t.
Proof. induction s as [|a s IH]; simpl; [done|]. by rewrite IH. Qed.

Lemma pretty_char_digit d : (d < 10)%N → ch (pretty_N_char d) = 48 + Z.of_N d.
Proof.
  intros Hd. assert (d ∈ [0; 1; 2; 3; 4; 5; 6; 7; 8; 9]%N) as H.
  { rewrite !elem_of_cons, elem_of_nil. lia. }
  by repeat (apply elem_of_cons in H as [->|H]; [done|]); apply elem_of_nil in H.
Qed.

(** Reading the digits of a number, the most significant first. *)
Lemma scan_pretty x : ∀ s t, scan_digits 0 (lit (pretty_N_go x s) ++ t) = scan_digits (Z.of_N x) (lit s ++ t).
Proof.
  induction (N.lt_wf_0 x) as [x _ IH]. intros s t. destruct (decide (x = 0%N)) as [->|Hx].
  { by rewrite pretty_N_go_0. }
  rewrite pretty_N_go_step by lia. rewrite IH by (apply N.div_lt; lia). cbn [lit app scan_digits].
  pose proof (N.mod_lt x 10 ltac:(lia)) as Hm. rewrite pretty_char_digit by done.
  pose proof (N.div_mod x 10 ltac:(lia)) as Hd.
  set (d := (x `mod` 10)%N) in *. set (y := (x `div` 10)%N) in *. clearbody d y.
  assert (isdigit (48 + Z.of_N d) = true) as ->.
  { unfold isdigit. apply andb_true_iff. split; apply Z.leb_le; lia. }
  f_equal. lia.
Qed.

(** The digits as a list: their number, and that they are digits. *)
Lemma pretty_go_digits x s :
  Forall (λ b, 48 <= b <= 57) (lit s) → Forall (λ b, 48 <= b <= 57) (lit (pretty_N_go x s)).
Proof.
  revert s. induction (N.lt_wf_0 x) as [x _ IH]. intros s Hs. destruct (decide (x = 0%N)) as [->|Hx].
  { by rewrite pretty_N_go_0. }
  rewrite pretty_N_go_step by lia. apply IH; [apply N.div_lt; lia|]. cbn [lit]. constructor; [|done].
  pose proof (N.mod_lt x 10 ltac:(lia)) as Hm. rewrite pretty_char_digit by done.
  set (d := (x `mod` 10)%N) in *. clearbody d. lia.
Qed.

Lemma pretty_go_length n x s :
  (x < 10 ^ N.of_nat n)%N → (length (lit (pretty_N_go x s)) ≤ n + length (lit s))%nat.
Proof.
  revert x s. induction n as [|n IH]; intros x s Hx.
  - assert (x = 0%N) as -> by (simpl in Hx; lia). by rewrite pretty_N_go_0.
  - destruct (decide (x = 0%N)) as [->|H0]; [rewrite pretty_N_go_0; lia|].
    rewrite pretty_N_go_step by lia. etrans; [apply IH|].
    + apply N.Div0.div_lt_upper_bound. rewrite Nat2N.inj_succ, N.pow_succ_r' in Hx. lia.
    + cbn [lit length]. lia.
Qed.

Lemma pretty_pos p : pretty (N.pos p) = pretty_N_go (N.pos p) "".
Proof. done. Qed.

Lemma fmt_dec_eq z :
  fmt_dec z = (if z <? 0 then [45] else []) ++
              (if z =? 0 then [48] else lit (pretty_N_go (Z.to_N (Z.abs z)) "")).
Proof. unfold fmt_dec. destruct z as [|p|p]; [done| |]; simpl; by rewrite ?lit_app. Qed.

(** Every byte of a decimal number is a digit or a minus sign. *)
Lemma fmt_dec_bytes z : Forall (λ b, b = 45 ∨ 48 <= b <= 57) (fmt_dec z).
Proof.
  rewrite fmt_dec_eq. apply Forall_app. split; [case_if; repeat constructor; lia|].
  case_if; [repeat constructor; lia|].
  eapply Forall_impl; [apply pretty_go_digits; constructor|]. cbn beta. lia.
Qed.

Lemma fmt_dec_not z c : c ≠ 45 → ¬ 48 <= c <= 57 → Forall (λ b, b ≠ c) (fmt_dec z).
Proof. intros Hc Hd. eapply Forall_impl; [apply fmt_dec_bytes|]. cbn beta. lia. Qed.

Lemma scan_digits_go x t :
  (0 < x)%N → isdigit (hd 0 t) = false → scan_digits 0 (lit (pretty_N_go x "") ++ t) = Z.of_N x.
Proof.
  intros Hx Ht. rewrite scan_pretty. cbn [lit app]. destruct t as [|b t]; [done|]. simpl in *. by rewrite Ht.
Qed.

Lemma pretty_go_head x :
  (0 < x)%N → ∃ b r, lit (pretty_N_go x "") = b :: r ∧ 48 <= b <= 57.
Proof.
  intros Hx. pose proof (pretty_go_digits x "" ltac:(constructor)) as Hd.
  destruct (lit (pretty_N_go x "")) as [|b r] eqn:E.
  - pose proof (scan_pretty x "" []) as H. rewrite E in H. simpl in H. lia.
  - apply Forall_cons in Hd as [Hb _]. eauto.
Qed.

Lemma fmt_dec_nonempty z : fmt_dec z ≠ [].
Proof.
  rewrite fmt_dec_eq. destruct (z <? 0) eqn:E; [done|]. destruct (z =? 0) eqn:E0; [done|]. bsplit.
  destruct (pretty_go_head (Z.to_N (Z.abs z)) ltac:(lia)) as (b & r & -> & _). done.
Qed.

Lemma fmt_dec_length n z : Z.abs z < 10 ^ Z.of_nat n → (0 < n)%nat → (length (fmt_dec z) ≤ S n)%nat.
Proof.
  intros Hz Hn. rewrite fmt_dec_eq, length_app.
  assert (length (if (z =? 0)%Z then [48%Z] else lit (pretty_N_go (Z.to_N (Z.abs z)) "")) ≤ n)%nat.
  { destruct (z =? 0); [simpl; lia|]. etrans; [apply (pretty_go_length n)|simpl; lia].
    rewrite <- nat_N_Z in Hz. rewrite <- (Z2N.id (Z.abs z)) in Hz by lia.
    change 10 with (Z.of_N 10) in Hz. rewrite <- N2Z.inj_pow in Hz. lia. }
  destruct (z <? 0); simpl; lia.
Qed.

(** Printing and reading back, whatever non-digit follows. *)
Lemma strtol10_fmt_dec z t :
  - 2 ^ 63 <= z < 2 ^ 63 → isdigit (hd 0 t) = false → strtol10 (fmt_dec z ++ t) = z.
Proof.
  intros Hz Ht. unfold strtol10. rewrite fmt_dec_eq, <- app_assoc.
  destruct (z <? 0) eqn:Eneg; bsplit.
  - rewrite (proj2 (Z.eqb_neq z 0)) by lia. cbn [app skip_while].
    change (isspace 45) with false. cbn iota. rewrite scan_digits_go by (done || lia). lia.
  - destruct (z =? 0) eqn:E0; bsplit.
    + subst. cbn [app skip_while]. change (isspace 48) with false. cbn iota.
      cbn [scan_digits]. change (isdigit 48) with true. cbn iota.
      destruct t as [|b t]; [done|]. simpl in Ht |- *. rewrite Ht. lia.
    + cbn [app]. destruct (pretty_go_head (Z.to_N z)) as (b & r & Hbr & Hb); [lia|].
      pose proof (scan_digits_go (Z.to_N z) t ltac:(lia) Ht) as Hs.
      rewrite Z.abs_eq by lia. rewrite Hbr in *. cbn [app skip_while].
      assert (isspace b = false) as ->.
      { unfold isspace. apply orb_false_iff. split; [apply Z.eqb_neq; lia|].
        apply andb_false_iff. right. apply Z.leb_gt. lia. }
      cbn [app] in Hs.
      assert (b ∈ seqZ 48 10) as Hin by (apply elem_of_seqZ; lia). clear Hb Hbr.
      assert ((match b :: r ++ t with
               | 45 :: s' => - scan_digits 0 s' | 43 :: s' => scan_digits 0 s'
               | _ => scan_digits 0 (b :: r ++ t) end) = scan_digits 0 (b :: r ++ t)) as ->.
      { change (seqZ 48 10) with [48; 49; 50; 51; 52; 53; 54; 55; 56; 57] in Hin.
        by repeat (apply elem_of_cons in Hin as [->|Hin]; [done|]); apply elem_of_nil in Hin. }
      rewrite Hs. lia.
Qed.

Lemma atoi_fmt_dec z t :
  - 2 ^ 31 <= z < 2 ^ 31 → isdigit (hd 0 t) = false → atoi (fmt_dec z ++ t) = z.
Proof. intros. unfold atoi. rewrite strtol10_fmt_dec by (done || lia). apply swrap_small; lia. Qed.

(** ** Arrays *)

Section arrays.
Context {A : Type}.
Implicit Types (a l : list A) (x : A).

Lemma for_nil {S} n (f : nat → S → S) s : for_ n n f s = s.
Proof. unfold for_. by rewrite Nat.sub_diag. Qed.

Lemma for_snoc {S} lo hi (f : nat → S → S) s :
  (lo ≤ hi)%nat → for_ lo (Datatypes.S hi) f s = f hi (for_ lo hi f s).
Proof.
  intros. unfold for_.
  replace (Datatypes.S hi - lo)%nat with ((hi - lo) + 1)%nat by lia.
  rewrite seq_app, foldl_app. simpl. do 2 f_equal. lia.
Qed.

(** Storing at the first free slot appends to the live prefix. *)
Lemma take_insert_push a n x :
  (n < length a)%nat → take (S n) (<[n := x]> a) = take n a ++ [x].
Proof.
  intros. rewrite (take_S_r _ _ x) by (by apply list_lookup_insert_eq).
  by rewrite take_insert_ge.
Qed.

Lemma find_idx_Some f l i :
  find_idx f l = Some i ↔
  (∃ x, l !! i = Some x ∧ f x = true) ∧
  (∀ j y, (j < i)%nat → l !! j = Some y → f y = false).
Proof.
  revert i. induction l as [|y l IH]; intros i; simpl.
  { split; [done|]. intros [(x & ? & ?) _]. by destruct i. }
  destruct (f y) eqn:E.
  - split.
    + intros [= <-]. split; [by exists y | lia].
    + intros [_ H]. destruct i as [|i]; [done|].
      rewrite (H O y) in E; [done|lia|done].
  - rewrite fmap_Some. split.
    + intros (k & Hk & ->). apply IH in Hk as [Hx Hj]. split; [done|].
      intros [|j] z ?; simpl; [by intros [= <-]|]. apply Hj. lia.
    + intros [(x & Hx & Hf) Hj]. destruct i as [|i]; simpl in *; [congruence|].
      exists i. split; [|done]. apply IH. split; [by exists x|].
      intros j z ? ?. apply (Hj (S j) z); [lia|done].
Qed.

Lemma find_idx_None f l : find_idx f l = None ↔ Forall (λ x, f x = false) l.
Proof.
  induction l as [|y l IH]; simpl; [by split|].
  destruct (f y) eqn:E.
  - split; [done|]. intros H%Forall_cons. destruct H. congruence.
  - rewrite Forall_cons. destruct (find_idx f l); simpl; naive_solver.
Qed.

Lemma find_idx_lt f l i : find_idx f l = Some i → (i < length l)%nat.
Proof. intros [(x & Hx & _) _]%find_idx_Some. by eapply lookup_lt_Some. Qed.

Lemma arr_copy_length j k a : length (arr_copy j k a) = length a.
Proof. unfold arr_copy. destruct (a !! k); [apply length_insert | done]. Qed.

Lemma shift_left_length i n a : length (shift_left i n a) = length a.
Proof.
  unfold shift_left. induction (n - 1)%nat as [|m IH].
  - done.
  - destruct (decide (i ≤ m)%nat).
    + rewrite for_snoc by done. by rewrite arr_copy_length.
    + unfold for_ in *. by replace (S m - i)%nat with (m - i)%nat by lia.
Qed.

(** Shifting the tail one slot down removes the element at [i] from the live
    prefix. *)
Lemma shift_left_prefix i m a :
  (i ≤ m)%nat → (m < length a)%nat →
  take m (for_ i m (λ j a, arr_copy j (S j) a) a) = delete i (take (S m) a) ∧
  drop m (for_ i m (λ j a, arr_copy j (S j) a) a) = drop m a.
Proof.
  intros Him. induction m as [|m IH]; intros Hm.
  - assert (i = O) as -> by lia. rewrite for_nil.
    destruct a; [done|]. done.
  - destruct (decide (i = S m)) as [->|].
    + rewrite for_nil. split; [|done].
      destruct (lookup_lt_is_Some_2 a (S m) Hm) as [x Hx].
      rewrite (take_S_r _ _ _ Hx).
      rewrite delete_take_drop.
      rewrite take_app_le, take_take, Nat.min_id by (rewrite length_take; lia).
      rewrite drop_ge, app_nil_r by (rewrite length_app, length_take; cbn [length]; lia). done.
    + rewrite for_snoc by lia. destruct IH as [IHt IHd]; [lia..|].
      set (b := for_ i m _ a) in *.
      assert (length b = length a) as Hlb.
      { subst b. clear. pose proof (shift_left_length i (S m) a) as H.
        unfold shift_left in H. by replace (S m - 1)%nat with m in H by lia. }
      destruct (lookup_lt_is_Some_2 a (S m) Hm) as [x Hx].
      assert (b !! S m = Some x) as Hbx.
      { rewrite <- Hx. replace (S m) with (m + 1)%nat by lia.
        by rewrite <- !lookup_drop, IHd. }
      unfold arr_copy. rewrite Hbx. split.
      * rewrite take_insert_push by lia. rewrite IHt.
        rewrite (take_S_r a (S m) _ Hx).
        rewrite !delete_take_drop.
        rewrite take_app_le by (rewrite length_take; lia).
        rewrite drop_app_le by (rewrite length_take; lia). by rewrite app_assoc.
      * rewrite drop_insert_lt by lia.
        apply (f_equal (drop 1)) in IHd. rewrite !drop_drop in IHd.
        by replace (S m) with (m + 1)%nat by lia.
Qed.

Lemma shift_left_delete i n a :
  (i < n)%nat → (n ≤ length a)%nat →
  take (n - 1) (shift_left i n a) = delete i (take n a).
Proof.
  intros. unfold shift_left. replace n with (S (n - 1)) at 3 by lia.
  apply shift_left_prefix; lia.
Qed.

(** The in-place compaction loop keeps exactly the live elements that pass
    the test, in their order. *)
Lemma compact_inv keep n a :
  (n ≤ length a)%nat →
  let '(b, w) := compact keep n a in
  length b = length a ∧ (w ≤ n)%nat ∧
  take w b = List.filter keep (take n a) ∧ drop n b = drop n a.
Proof.
  induction n as [|n IH]; intros Hn; unfold compact.
  { rewrite for_nil. by rewrite !take_0. }
  rewrite for_snoc by lia. unfold compact in IH.
  destruct (for_ 0 n _ (a, O)) as [b w]. destruct IH as (Hlen & Hw & Ht & Hd); [lia|].
  destruct (lookup_lt_is_Some_2 a n Hn) as [x Hx].
  assert (b !! n = Some x) as Hbx.
  { rewrite <- Hx. replace n with (n + 0)%nat by lia. by rewrite <- !lookup_drop, Hd. }
  assert (drop (S n) b = drop (S n) a) as Hd'.
  { apply (f_equal (drop 1)) in Hd. rewrite !drop_drop in Hd.
    by replace (S n) with (n + 1)%nat by lia. }
  rewrite Hbx, (take_S_r _ _ _ Hx), List.filter_app. simpl.
  destruct (keep x).
  - split_and!; [by rewrite length_insert | lia | | by rewrite drop_insert_lt by lia].
    rewrite take_insert_push by lia. by rewrite Ht.
  - rewrite app_nil_r. split_and!; [done|lia|done|done].
Qed.

Lemma compact_filter keep n a :
  (n ≤ length a)%nat →
  take (compact keep n a).2 (compact keep n a).1 = List.filter keep (take n a).
Proof. intros H%(compact_inv keep). destruct (compact keep n a). by destruct H as (_ & _ & ? & _). Qed.

Lemma compact_length keep n a :
  (n ≤ length a)%nat → length (compact keep n a).1 = length a.
Proof. intros H%(compact_inv keep). destruct (compact keep n a). by destruct H as (? & _ & _ & _). Qed.

Lemma compact_count keep n a :
  (n ≤ length a)%nat → ((compact keep n a).2 ≤ n)%nat.
Proof. intros H%(compact_inv keep). destruct (compact keep n a). by destruct H as (_ & ? & _ & _). Qed.

(** ** Bounded logs

    Appending to an array that drops its oldest element when it is full:
    [memmove(&a[0], &a[1], ...)] of all slots but one, then a store at the
    end.  The live part is the list of the last [length a] elements. *)

Definition last_n (n : nat) l : list A := drop (length l - n) l.

Definition memmove_down a : list A := take (length a - 1) (drop 1 a) ++ drop (length a - 1) a.

Definition make_room (cap n : nat) a : list A * nat :=
  if (cap <=? n)%nat then (memmove_down a, (cap - 1)%nat) else (a, n).

Lemma memmove_down_length a : length (memmove_down a) = length a.
Proof.
  unfold memmove_down. rewrite length_app, length_take, !length_drop. lia.
Qed.

Lemma make_room_spec cap n a :
  (0 < cap)%nat → length a = cap → (n ≤ cap)%nat →
  let '(b, m) := make_room cap n a in
  length b = cap ∧ (m < cap)%nat ∧ take m b = last_n (cap - 1) (take n a).
Proof.
  intros H0 Ha Hn. unfold make_room, last_n. destruct (cap <=? n)%nat eqn:E; bsplit.
  - assert (n = cap) as -> by lia. rewrite memmove_down_length, (take_ge a) by lia.
    split_and!; [done|lia|]. unfold memmove_down. rewrite Ha.
    replace (cap - (cap - 1))%nat with 1%nat by lia.
    rewrite take_app_le by (rewrite length_take, length_drop; lia). rewrite take_take, Nat.min_id.
    rewrite take_ge by (rewrite length_drop; lia). done.
  - rewrite length_take. replace (n `min` length a - (cap - 1))%nat with 0%nat by lia. done.
Qed.

Lemma push_bounded cap n a x :
  (0 < cap)%nat → length a = cap → (n ≤ cap)%nat →
  let '(b, m) := make_room cap n a in
  length (<[m := x]> b) = cap ∧ (S m ≤ cap)%nat ∧
  take (S m) (<[m := x]> b) = last_n cap (take n a ++ [x]).
Proof.
  intros H0 Ha Hn. pose proof (make_room_spec cap n a H0 Ha Hn) as H.
  destruct (make_room cap n a) as [b m]. destruct H as (Hb & Hm & Ht).
  split_and!; [by rewrite length_insert | lia |].
  rewrite take_insert_push, Ht by lia. unfold last_n. rewrite length_app. cbn [length].
  rewrite <- drop_app_le by lia. f_equal. lia.
Qed.

Lemma last_n_app n l l' : last_n n (last_n n l ++ l') = last_n n (l ++ l').
Proof.
  unfold last_n. rewrite <- (drop_app_le l) by lia. rewrite drop_drop. f_equal.
  rewrite length_drop, !length_app. lia.
Qed.

Lemma last_n_id n l : (length l ≤ n)%nat → last_n n l = l.
Proof. intros. unfold last_n. by replace (length l - n)%nat with 0%nat by lia. Qed.

Lemma reverse_last_n n l : reverse (last_n n l) = take n (reverse l).
Proof. symmetry. apply take_reverse. Qed.

Lemma Forall_last_n P n l : Forall P l → Forall P (last_n n l).
Proof. apply Forall_drop. Qed.

End arrays.

#[export] Hint Resolve streq_refl contains_refl contains_nil : claw.
#[export] Hint Rewrite @length_insert @length_take @length_app @arr_copy_length
  @shift_left_length : claw_len.

(** Lengths of updated arrays. *)
Ltac len := autorewrite with claw_len in *; simpl in *; try lia.

(** ** Sets of numbers as lists

    The descriptors or process numbers in use, in no particular order. *)

Definition without (x : Z) : list Z → list Z := List.filter (λ y, negb (y =? x)).

Lemma elem_of_without x y l : y ∈ without x l ↔ y ∈ l ∧ y ≠ x.
Proof. unfold without. rewrite !list_elem_of_In, List.filter_In, negb_true_iff, Z.eqb_neq. done. Qed.

Lemma NoDup_without x l : NoDup l → NoDup (without x l).
Proof. rewrite !NoDup_ListNoDup. apply List.NoDup_filter. Qed.

Lemma without_id x l : x ∉ l → without x l = l.
Proof.
  induction l as [|y l IH]; [done|]. rewrite not_elem_of_cons. intros [Hy Hl]. cbn.
  rewrite (proj2 (Z.eqb_neq y x)) by done. cbn [negb]. f_equal. by apply IH.
Qed.

Lemma without_perm x l l' : NoDup l → l ≡ₚ x :: l' → without x l ≡ₚ l'.
Proof.
  intros Hn Hp. assert (without x l ≡ₚ without x (x :: l')) as ->.
  { clear Hn. induction Hp; cbn; repeat case_match; try constructor; try done; by etrans. }
  rewrite Hp in Hn. apply NoDup_cons in Hn as [Hn _]. cbn. rewrite Z.eqb_refl. cbn [negb]. by rewrite without_id.
Qed.

(** ** Text in columns *)

(** [%-ns] *)
Definition pad (n : nat) (s : cstr) : cstr := s ++ replicate (n - length s) 32.
