(* ===== verification/Buffers.v ===== *)
(** * Bounded text buffers

    The idiom [offset += snprintf(buf + offset, size - offset, ...)] that the
    exporters, formatters and request builders of the program share, and the
    loops [strncat]-ing lines into a buffer.  An append at an offset beyond
    the size makes [size - offset] wrap around: that is [None]. *)
From S2P Require Import Prelude.

(** The text that stands in the buffer, and the offset, which counts what
    would have been written. *)
Record sbuf := mk_sbuf { sb_text : cstr; sb_off : nat }.

Definition sb_empty : sbuf := mk_sbuf [] 0.

Definition sn_append (size : nat) (s : cstr) (b : sbuf) : option sbuf :=
  if (sb_off b <=? size)%nat
  then Some (mk_sbuf (sb_text b ++ take (size - sb_off b - 1) s) (sb_off b + length s))
  else None.

(** The same for a list of pieces written one after the other. *)
Fixpoint sn_appends (size : nat) (l : list cstr) (b : sbuf) : option sbuf :=
  match l with
  | [] => Some b
  | s :: l' => b ← sn_append size s b; sn_appends size l' b
  end.

(** Offset and text agree, with room for the terminating NUL. *)
Definition sb_ok (size : nat) (b : sbuf) : Prop :=
  sb_off b = length (sb_text b) ∧ (sb_off b < size)%nat.

Lemma sb_empty_ok size : (0 < size)%nat → sb_ok size sb_empty.
Proof. by split. Qed.

Lemma sn_append_fits size s b :
  sb_ok size b → (sb_off b + length s < size)%nat →
  sn_append size s b = Some (mk_sbuf (sb_text b ++ s) (length (sb_text b ++ s))).
Proof.
  intros [Ho Hlt] Hs. unfold sn_append. rewrite (proj2 (Nat.leb_le _ _)) by lia.
  rewrite take_ge, length_app by lia. do 2 f_equal. lia.
Qed.

Lemma sn_append_ok size s b :
  sb_ok size b → (sb_off b + length s < size)%nat →
  ∃ b', sn_append size s b = Some b' ∧ sb_ok size b' ∧ sb_text b' = sb_text b ++ s.
Proof.
  intros Hb Hs. eexists. split; [by apply sn_append_fits|]. destruct Hb as [Ho ?].
  unfold sb_ok. cbn [sb_text sb_off]. rewrite length_app in *. split_and!; [done|lia|done].
Qed.

Lemma sn_appends_fits size l b :
  sb_ok size b → (sb_off b + length (concat l) < size)%nat →
  ∃ b', sn_appends size l b = Some b' ∧ sb_ok size b' ∧ sb_text b' = sb_text b ++ concat l.
Proof.
  revert b. induction l as [|s l IH]; intros b Hb Hl; simpl.
  { exists b. by rewrite app_nil_r. }
  simpl in Hl. rewrite length_app in Hl.
  destruct (sn_append_ok size s b Hb) as (b1 & -> & Hb1 & Ht1); [lia|]. simpl.
  destruct (IH b1 Hb1) as (b2 & -> & Hb2 & Ht2).
  { destruct Hb1 as [Ho1 _], Hb as [Ho _]. rewrite Ho1, Ht1, length_app. lia. }
  exists b2. split_and!; [done..|]. by rewrite Ht2, Ht1, app_assoc.
Qed.

(** What an append can at most leave behind: the text always fits. *)
Lemma sn_append_text_bound size s b b' :
  (length (sb_text b) < size)%nat → (length (sb_text b) ≤ sb_off b)%nat →
  sn_append size s b = Some b' →
  (length (sb_text b') < size)%nat ∧ (length (sb_text b') ≤ sb_off b')%nat.
Proof.
  intros H1 H2. unfold sn_append. case_if; [|done]. intros [= <-]. cbn [sb_text sb_off].
  rewrite length_app, length_take. lia.
Qed.

(** [strncat(dst, s, size - strlen(dst) - 1)] on [char dst[size]]. *)
Definition strncat_fit (size : nat) (dst s : cstr) : cstr := dst ++ take (size - length dst - 1) s.

Lemma strncat_fit_bound size dst s :
  (length dst < size)%nat → (length (strncat_fit size dst s) < size)%nat.
Proof. unfold strncat_fit. rewrite length_app, length_take. lia. Qed.

Lemma strncat_fit_exact size dst s :
  (length dst + length s < size)%nat → strncat_fit size dst s = dst ++ s.
Proof. intros. unfold strncat_fit. by rewrite take_ge by lia. Qed.

(** Lines collected in a [char] array of [size] bytes; those that no longer fit
    are left out. *)
Fixpoint collect_lines (size : nat) (lines : list cstr) (out : cstr) : cstr :=
  match lines with
  | [] => out
  | l :: lines' =>
      if (length out <? size - 1)%nat
      then collect_lines size lines' (if (length out + length l <? size)%nat then out ++ l else out)
      else out
  end.

#[export] Hint Resolve sb_empty_ok strncat_fit_bound : claw.
