(* ===== verification/Floats.v ===== *)
(** * Double-precision numbers

    The [double] values of the program as the executable IEEE 754 model of
    the Standard Library at precision 53 and exponent bound 1024, rounding to
    nearest even.  The functions of the C mathematics library that are exactly
    specified are defined here; the transcendental ones ([sin], [cos], [exp])
    are arguments of the definitions that use them. *)
From Stdlib Require Export SpecFloat.
From S2P Require Import Prelude.

Abbreviation f64 := spec_float.

Definition f64_add : f64 → f64 → f64 := SFadd 53 1024.
Definition f64_sub : f64 → f64 → f64 := SFsub 53 1024.
Definition f64_mul : f64 → f64 → f64 := SFmul 53 1024.
Definition f64_div : f64 → f64 → f64 := SFdiv 53 1024.
Definition f64_sqrt : f64 → f64 := SFsqrt 53 1024.
Definition f64_ltb : f64 → f64 → bool := SFltb.
Definition f64_eqb : f64 → f64 → bool := SFeqb.

Definition f64_zero : f64 := S754_zero false.

(** [(double)z] for an integer [z]. *)
Definition f64_of_Z (z : Z) : f64 := binary_normalize 53 1024 z 0 false.

(** The decimal constant [p / q], for [p] and [q] that are exact doubles. *)
Definition f64_const (p q : Z) : f64 := f64_div (f64_of_Z p) (f64_of_Z q).

(** [(float)x] widened again, at precision 24 and exponent bound 128. *)
Definition f64_to_float (x : f64) : f64 :=
  match x with
  | S754_finite s m e =>
      match binary_round 24 128 s m e with
      | S754_finite s' m' e' => binary_round 53 1024 s' m' e'
      | y => y
      end
  | _ => x
  end.

(** [fmod]: exact, with the sign of the dividend. *)
Definition f64_fmod (x y : f64) : f64 :=
  match x, y with
  | S754_nan, _ | _, S754_nan | S754_infinity _, _ | _, S754_zero _ => S754_nan
  | S754_zero s, _ => S754_zero s
  | _, S754_infinity _ => x
  | S754_finite sx mx ex, S754_finite _ my ey =>
      let e := Z.min ex ey in
      let r := (Z.pos mx * 2 ^ (ex - e)) mod (Z.pos my * 2 ^ (ey - e)) in
      binary_normalize 53 1024 (if sx then - r else r) e sx
  end.

(** ["%.<n>f"]: the exact value, rounded to [n] decimals, ties to even. *)
Fixpoint fmt_pad (n : nat) (z : Z) : cstr :=
  match n with
  | O => []
  | S n' => fmt_pad n' (z / 10) ++ [48 + z mod 10]
  end.

Definition round_half_even (num den : Z) : Z :=
  let q := num / den in
  let r := num mod den in
  if 2 * r <? den then q else if den <? 2 * r then q + 1 else if Z.even q then q else q + 1.

Definition scaled (n : nat) (m : positive) (e : Z) : Z :=
  if 0 <=? e then Z.pos m * 2 ^ e * 10 ^ Z.of_nat n
  else round_half_even (Z.pos m * 10 ^ Z.of_nat n) (2 ^ (- e)).

Definition fmt_abs (n : nat) (v : Z) : cstr :=
  fmt_dec (v / 10 ^ Z.of_nat n) ++
  match n with O => [] | _ => [46] ++ fmt_pad n (v mod 10 ^ Z.of_nat n) end.

Definition fmt_fixed (n : nat) (x : f64) : cstr :=
  match x with
  | S754_nan => lit "nan"
  | S754_infinity s => (if s then [45] else []) ++ lit "inf"
  | S754_zero s => (if s then [45] else []) ++ fmt_abs n 0
  | S754_finite s m e => (if s then [45] else []) ++ fmt_abs n (scaled n m e)
  end.

Definition is_nan (x : f64) : bool := match x with S754_nan => true | _ => false end.

(** ** Order *)

Lemma SFcompare_swap x y : SFcompare y x = CompOpp <$> SFcompare x y.
Proof.
  destruct x as [sx|sx| |sx mx ex], y as [sy|sy| |sy my ey]; try done; try (by destruct sx);
    try (by destruct sy); try (by destruct sx, sy).
  unfold SFcompare; destruct sx, sy; cbn [fmap option_fmap option_map]; try done;
    rewrite (Z.compare_antisym ex ey); destruct (ex ?= ey) eqn:E; cbn [CompOpp]; try done;
    change (PosDef.Pos.compare_cont Eq) with Pos.compare; by rewrite (Pos.compare_antisym mx my).
Qed.

Lemma f64_ltb_asym x y : f64_ltb x y = true → f64_ltb y x = false.
Proof.
  unfold f64_ltb, SFltb. rewrite (SFcompare_swap x y). by destruct (SFcompare x y) as [[]|].
Qed.

Lemma f64_ltb_irrefl x : f64_ltb x x = false.
Proof. destruct (f64_ltb x x) eqn:E; [|done]. pose proof (f64_ltb_asym _ _ E). congruence. Qed.

(** A value that can be compared with another one is not a NaN, and a number
    is comparable with every other number. *)
Lemma SFcompare_total x y : is_nan x = false → is_nan y = false → is_Some (SFcompare x y).
Proof. destruct x, y; simpl; eauto; done. Qed.

(** The order of numbers as an order of integers: a finite value [m * 2^e] in
    canonical form is smaller when its exponent, then its mantissa is. *)
Definition rank (x : f64) : Z * Z * Z :=
  match x with
  | S754_nan => (0, 0, 0)
  | S754_zero _ => (0, 0, 0)
  | S754_infinity s => (if s then -2 else 2, 0, 0)
  | S754_finite s m e => if s then (-1, - e, - Z.pos m) else (1, e, Z.pos m)
  end.

Definition lex_lt (a b : Z * Z * Z) : Prop :=
  let '(a1, a2, a3) := a in let '(b1, b2, b3) := b in
  a1 < b1 ∨ a1 = b1 ∧ (a2 < b2 ∨ a2 = b2 ∧ a3 < b3).

Lemma lex_lt_trans a b c : lex_lt a b → lex_lt b c → lex_lt a c.
Proof. destruct a as [[??]?], b as [[??]?], c as [[??]?]. unfold lex_lt. lia. Qed.

Lemma lex_not_lt_trans a b c : ¬ lex_lt a b → ¬ lex_lt b c → ¬ lex_lt a c.
Proof. destruct a as [[??]?], b as [[??]?], c as [[??]?]. unfold lex_lt. lia. Qed.

Lemma f64_ltb_rank x y :
  is_nan x = false → is_nan y = false → f64_ltb x y = true ↔ lex_lt (rank x) (rank y).
Proof.
  unfold f64_ltb, SFltb, SFcompare, rank, lex_lt.
  destruct x as [sx|sx| |sx mx ex], y as [sy|sy| |sy my ey]; intros Hx Hy; try done;
    try destruct sx; try destruct sy; cbn; try (split; [done|lia]); try (split; [lia|done]).
  all: change (PosDef.Pos.compare_cont Eq) with Pos.compare.
  all: destruct (Z.compare_spec ex ey); cbn [CompOpp]; try (split; [done|lia]); try (split; [lia|done]).
  all: destruct (Pos.compare_spec mx my); cbn [CompOpp]; split; (done || lia).
Qed.

(** Among numbers "not smaller" is transitive. *)
Lemma f64_nlt_trans x y z :
  is_nan x = false → is_nan y = false → is_nan z = false →
  f64_ltb x y = false → f64_ltb y z = false → f64_ltb x z = false.
Proof.
  intros Hx Hy Hz. rewrite <- !not_true_iff_false, !f64_ltb_rank by done. apply lex_not_lt_trans.
Qed.

(** ** Formatting *)

Lemma fmt_pad_length n z : length (fmt_pad n z) = n.
Proof. revert z. induction n as [|n IH]; intros z; simpl; [done|]. rewrite length_app, IH. simpl. lia. Qed.

(** ** Rounding stays finite

    The result of rounding [m * 2^e] is a zero or a finite number with the
    same sign as long as the exponents stay below the overflow threshold. *)

Lemma digits2_pos_bound p : 2 ^ (Z.pos (digits2_pos p) - 1) <= Z.pos p < 2 ^ Z.pos (digits2_pos p).
Proof.
  induction p as [p IH|p IH|]; cbn [digits2_pos].
  - rewrite Pos2Z.inj_succ. replace (Z.succ _ - 1) with (Z.succ (Z.pos (digits2_pos p) - 1)) by lia.
    rewrite !Z.pow_succ_r by lia. lia.
  - rewrite Pos2Z.inj_succ. replace (Z.succ _ - 1) with (Z.succ (Z.pos (digits2_pos p) - 1)) by lia.
    rewrite !Z.pow_succ_r by lia. lia.
  - done.
Qed.

Lemma Zdigits2_le m d : 0 <= d → 0 <= m < 2 ^ d → 0 <= Zdigits2 m <= d.
Proof.
  intros Hd [H0 Hm]. destruct m as [|p|p]; simpl; [lia| |lia]. split; [lia|].
  pose proof (digits2_pos_bound p) as [Hp _].
  assert (Z.pos (digits2_pos p) - 1 < d); [|lia]. apply (Z.pow_lt_mono_r_iff 2); lia.
Qed.

Lemma shr_1_bound r : 0 <= shr_m r → 0 <= shr_m (shr_1 r) <= shr_m r.
Proof. destruct r as [[|[p|p|]|p] b s]; simpl; lia. Qed.

Lemma iter_shr_bound p r : 0 <= shr_m r → 0 <= shr_m (SpecFloat.iter_pos shr_1 p r) <= shr_m r.
Proof.
  revert r. induction p as [p IH|p IH|]; intros r Hr; cbn [SpecFloat.iter_pos]; [| |by apply shr_1_bound].
  - pose proof (shr_1_bound r Hr). pose proof (IH (shr_1 r) ltac:(lia)). pose proof (IH (SpecFloat.iter_pos shr_1 p (shr_1 r)) ltac:(lia)). lia.
  - pose proof (IH r Hr). pose proof (IH (SpecFloat.iter_pos shr_1 p r) ltac:(lia)). lia.
Qed.

Lemma shr_fexp_bound m e l d b :
  0 <= d → 0 <= m < 2 ^ d → e <= b → -1074 <= b →
  0 <= shr_m (shr_fexp 53 1024 m e l).1 <= m ∧ (shr_fexp 53 1024 m e l).2 <= b + d.
Proof.
  intros Hd Hm He Hb. pose proof (Zdigits2_le m d Hd Hm) as HD.
  unfold shr_fexp. set (r := shr_record_of_loc m l).
  assert (shr_m r = m) as Hr by (by destruct l as [|[]]).
  assert (fexp 53 1024 (Zdigits2 m + e) - e <= Z.max d (-1074 - e)) as Hf.
  { unfold fexp, SpecFloat.emin. lia. }
  unfold shr. destruct (fexp 53 1024 (Zdigits2 m + e) - e) as [|p|p] eqn:E; cbn [fst snd].
  - lia.
  - pose proof (iter_shr_bound p r). lia.
  - lia.
Qed.

(** A zero, or a finite value with sign [s]. *)
Definition finite_sign (s : bool) (x : f64) : Prop :=
  x = S754_zero s ∨ ∃ m e, x = S754_finite s m e.

Lemma binary_round_aux_finite s m e l d b :
  0 <= d → 0 <= m < 2 ^ d → e <= b → -1074 <= b → b + d + (d + 1) <= 971 →
  binary_round_aux 53 1024 s m e l = S754_zero s ∨
  ∃ m' e', binary_round_aux 53 1024 s m e l = S754_finite s m' e' ∧
    Z.pos m' <= 2 ^ d ∧ e' <= b + d + (d + 1).
Proof.
  intros Hd Hm He Hb Hbd. unfold binary_round_aux.
  pose proof (shr_fexp_bound m e l d b Hd Hm He Hb) as [Hm1 He1].
  destruct (shr_fexp 53 1024 m e l) as [r1 e1]. cbn [fst snd] in *.
  set (m1 := round_nearest_even (shr_m r1) (loc_of_shr_record r1)).
  assert (0 <= m1 <= 2 ^ d) as Hm1'.
  { subst m1. unfold round_nearest_even. destruct (loc_of_shr_record r1) as [|[]]; try lia. case_if; lia. }
  assert (0 <= m1 < 2 ^ (d + 1)) as Hm2 by (rewrite Z.pow_add_r; lia).
  pose proof (shr_fexp_bound m1 e1 loc_Exact (d + 1) (b + d) ltac:(lia) Hm2 He1 ltac:(lia)) as [Hm3 He3].
  destruct (shr_fexp 53 1024 m1 e1 loc_Exact) as [r2 e2]. cbn [fst snd] in *.
  destruct (shr_m r2) as [|p|p]; [by left | | lia]. right.
  rewrite (proj2 (Z.leb_le e2 (1024 - 53))) by lia. exists p, e2. split_and!; [done|lia|lia].
Qed.

Lemma f64_of_Z_finite n :
  0 <= n < 2 ^ 64 →
  f64_of_Z n = S754_zero false ∨
  ∃ m e, f64_of_Z n = S754_finite false m e ∧ Z.pos m <= 2 ^ 64 ∧ e <= 129.
Proof.
  intros [H0 Hn]. unfold f64_of_Z, binary_normalize. destruct n as [|p|p]; [by left| |lia].
  unfold binary_round. pose proof (digits2_pos_bound p) as [Hp1 Hp2].
  assert (1 <= Z.pos (digits2_pos p) <= 64) as HD.
  { split; [lia|]. apply (Zdigits2_le (Z.pos p) 64); lia. }
  rewrite Z.add_0_r. unfold shl_align. rewrite Z.sub_0_r.
  assert (fexp 53 1024 (Z.pos (digits2_pos p)) = Z.pos (digits2_pos p) - 53) as Hf.
  { unfold fexp, SpecFloat.emin. lia. }
  rewrite Hf. destruct (Z.pos (digits2_pos p) - 53) as [|q|q] eqn:E.
  1, 2: apply (binary_round_aux_finite false (Z.pos p) 0 loc_Exact 64 0); lia.
  assert (Z.pos (Pos.iter xO p q) = Z.pos p * 2 ^ Z.pos q) as Hiter.
  { clear. induction q as [|q IH] using Pos.peano_ind; [simpl; lia|].
    rewrite Pos.iter_succ, Pos2Z.inj_succ, Z.pow_succ_r by lia. lia. }
  destruct (binary_round_aux_finite false (Z.pos (Pos.iter xO p q)) (Z.neg q) loc_Exact 53 0)
    as [H|(m' & e' & H & Hm & He)]; try lia; [|by left|].
  - rewrite Hiter. split; [lia|]. replace 53 with (Z.pos (digits2_pos p) + Z.pos q) by lia.
    rewrite Z.pow_add_r by lia. nia.
  - right. exists m', e'. split; [done|]. lia.
Qed.

(** Dividing such a value by a constant of moderate size. *)
Lemma f64_div_finite m1 e1 m2 e2 :
  Z.pos m1 <= 2 ^ 64 → e1 <= 129 → 2 ^ 52 <= Z.pos m2 < 2 ^ 53 → -60 <= e2 <= 60 →
  finite_sign false (f64_div (S754_finite false m1 e1) (S754_finite false m2 e2)).
Proof.
  intros Hm1 He1 Hm2 He2. unfold f64_div, SFdiv, SFdiv_core_binary. cbn [xorb].
  pose proof (Zdigits2_le (Z.pos m1) 65 ltac:(lia) ltac:(lia)) as HD1.
  pose proof (Zdigits2_le (Z.pos m2) 53 ltac:(lia) ltac:(lia)) as HD2.
  set (x := Zdigits2 (Z.pos m1) + e1 - (Zdigits2 (Z.pos m2) + e2)).
  assert (1 <= Zdigits2 (Z.pos m1)) as H1 by (simpl; lia).
  assert (x - 53 <= fexp 53 1024 x) as Hf by (unfold fexp; lia).
  set (e' := Z.min (fexp 53 1024 x) (e1 - e2)).
  set (m' := match e1 - e2 - e' with Z0 => Z.pos m1 | Z.pos _ => Z.shiftl (Z.pos m1) (e1 - e2 - e') | Z.neg _ => 0 end).
  assert (0 <= e1 - e2 - e' <= 106) as Hs by lia.
  assert (0 <= m' < 2 ^ 171) as Hm'.
  { subst m'. destruct (e1 - e2 - e') as [|p|p] eqn:E; [lia| |lia].
    rewrite Z.shiftl_mul_pow2 by lia. split; [lia|].
    assert (2 ^ Z.pos p <= 2 ^ 106) by (apply Z.pow_le_mono_r; lia). nia. }
  pose proof (Z.div_eucl_eq m' (Z.pos m2) ltac:(lia)) as Hq.
  pose proof (Z_div_mod m' (Z.pos m2) ltac:(lia)) as Hr.
  destruct (Z.div_eucl m' (Z.pos m2)) as [q r]. destruct Hr as [_ Hr].
  destruct (binary_round_aux_finite false q e' (new_location (Z.pos m2) r) 171 189)
    as [H|(m & e & H & _)]; try lia; [|by left|right; eauto].
  split; nia.
Qed.

(** ** Storage

    Little-endian bytes of an integer, and the 64 bits of a double. *)

Fixpoint le_bytes (n : nat) (z : Z) : list Z :=
  match n with
  | O => []
  | S n' => z mod 256 :: le_bytes n' (z / 256)
  end.

Fixpoint of_le (l : list Z) : Z :=
  match l with
  | [] => 0
  | b :: l' => b + 256 * of_le l'
  end.

Lemma le_bytes_length n z : length (le_bytes n z) = n.
Proof. revert z. induction n as [|n IH]; intros z; simpl; [done|]. by rewrite IH. Qed.

Lemma of_le_bytes n z : 0 <= z < 256 ^ Z.of_nat n → of_le (le_bytes n z) = z.
Proof.
  revert z. induction n as [|n IH]; intros z Hz; simpl in *; [lia|].
  rewrite Nat2Z.inj_succ, Z.pow_succ_r in Hz by lia.
  rewrite IH by (split; [apply Z.div_pos; lia | apply Z.div_lt_upper_bound; lia]).
  pose proof (Z.div_mod z 256). lia.
Qed.

Definition f64_bits (x : f64) : Z :=
  let sign (s : bool) := if s then 2 ^ 63 else 0 in
  match x with
  | S754_zero s => sign s
  | S754_infinity s => sign s + 2047 * 2 ^ 52
  | S754_nan => 4095 * 2 ^ 51
  | S754_finite s m e =>
      sign s + (if Z.pos m <? 2 ^ 52 then Z.pos m else (e + 1075) * 2 ^ 52 + (Z.pos m - 2 ^ 52))
  end.

Definition f64_of_bits (b : Z) : f64 :=
  let s := 2 ^ 63 <=? b in
  let ex := (b / 2 ^ 52) mod 2048 in
  let ma := b mod 2 ^ 52 in
  if ex =? 2047 then (if ma =? 0 then S754_infinity s else S754_nan)
  else if ex =? 0 then match ma with Z.pos p => S754_finite s p (-1074) | _ => S754_zero s end
  else S754_finite s (Z.to_pos (ma + 2 ^ 52)) (ex - 1075).

Definition f64_valid (x : f64) : Prop := valid_binary 53 1024 x = true.

Lemma valid_finite s m e : f64_valid (S754_finite s m e) →
  (Z.pos m < 2 ^ 52 ∧ e = -1074) ∨ (2 ^ 52 <= Z.pos m < 2 ^ 53 ∧ -1074 <= e <= 971).
Proof.
  unfold f64_valid. cbn [valid_binary]. unfold bounded, canonical_mantissa, fexp, SpecFloat.emin.
  intros H. bsplit. pose proof (digits2_pos_bound m) as [Hlo Hhi].
  destruct (decide (Z.pos (digits2_pos m) = 53)) as [H53|H53].
  - rewrite H53 in *. right. lia.
  - left. assert (Z.pos (digits2_pos m) <= 52) as Hd by lia.
    pose proof (Z.pow_le_mono_r 2 _ _ ltac:(lia) Hd). lia.
Qed.

Lemma bits_parts s ex ma : 0 <= ex < 2048 → 0 <= ma < 2 ^ 52 →
  let b := (if s : bool then 2 ^ 63 else 0) + (ex * 2 ^ 52 + ma) in
  (2 ^ 63 <=? b) = s ∧ (b / 2 ^ 52) mod 2048 = ex ∧ b mod 2 ^ 52 = ma ∧ 0 <= b < 2 ^ 64.
Proof.
  intros Hex Hma b.
  assert (b / 2 ^ 52 = (if s then 2048 else 0) + ex) as Hd.
  { subst b. replace ((if s then 2 ^ 63 else 0) + (ex * 2 ^ 52 + ma)) with
      (((if s then 2048 else 0) + ex) * 2 ^ 52 + ma) by (destruct s; lia).
    rewrite Z.div_add_l, Z.div_small by lia. lia. }
  rewrite Hd. split_and!.
  - subst b. destruct s; [apply Z.leb_le | apply Z.leb_gt]; lia.
  - destruct s; [rewrite <- (Z.mul_1_l 2048) at 1; rewrite Z.add_comm, Z.mod_add by lia|]; apply Z.mod_small; lia.
  - subst b. replace ((if s then 2 ^ 63 else 0) + (ex * 2 ^ 52 + ma)) with
      (ma + ((if s then 2048 else 0) + ex) * 2 ^ 52) by (destruct s; lia).
    rewrite Z.mod_add by lia. apply Z.mod_small; lia.
  - subst b. destruct s; lia.
  - subst b. destruct s; lia.
Qed.

Lemma f64_bits_roundtrip x : f64_valid x → f64_of_bits (f64_bits x) = x ∧ 0 <= f64_bits x < 2 ^ 64.
Proof.
  intros Hv. destruct x as [s|s| |s m e].
  - destruct s; split; [by_eval | vm_compute; split; congruence | by_eval | vm_compute; split; congruence].
  - destruct s; split; [by_eval | vm_compute; split; congruence | by_eval | vm_compute; split; congruence].
  - split; [by_eval | vm_compute; split; congruence].
  - unfold f64_bits. destruct (valid_finite _ _ _ Hv) as [[Hm ->]|[Hm He]].
    + rewrite (proj2 (Z.ltb_lt _ _) Hm).
      destruct (bits_parts s 0 (Z.pos m) ltac:(lia) ltac:(lia)) as (H1 & H2 & H3 & H4).
      rewrite Z.mul_0_l, Z.add_0_l in *. unfold f64_of_bits. by rewrite H1, H2, H3.
    + rewrite (proj2 (Z.ltb_ge _ _)) by lia.
      destruct (bits_parts s (e + 1075) (Z.pos m - 2 ^ 52) ltac:(lia) ltac:(lia)) as (H1 & H2 & H3 & H4).
      split; [|done]. unfold f64_of_bits. rewrite H1, H2, H3.
      rewrite (proj2 (Z.eqb_neq (e + 1075) 2047)), (proj2 (Z.eqb_neq (e + 1075) 0)) by lia.
      f_equal; [|lia]. rewrite Z.sub_add. done.
Qed.
