(* ===== verification/Sorting.v ===== *)
(** * The sorting loops of the program

    Ranked retrieval ([src/rag/rag.c], [src/muninn/muninn.c]) sorts an array of
    scored rows in place by descending score: by exchange in the first file, by
    insertion in the second.  Both loops are given here over rows of any type
    with a score in double precision, with what they guarantee. *)
From S2P Require Import Prelude Floats.
From Stdlib Require Import Sorting.Permutation Sorting.Sorted.

Section sorting.
Context {A : Type} (score : A → f64).

(** [a] may stand before [b]: its score is not smaller. *)
Definition ranked (a b : A) : Prop := f64_ltb (score a) (score b) = false.

Definition no_nan (l : list A) : Prop := Forall (λ a, is_nan (score a) = false) l.

(** ** Exchange *)

(** The inner loop [for (j = i + 1; j < n; j++) if (s[j] > s[i]) swap]: [x] is
    the row at [i], the list are the rows behind it. *)
Fixpoint exchange_pass (x : A) (l : list A) : A * list A :=
  match l with
  | [] => (x, [])
  | y :: l' =>
      if f64_ltb (score x) (score y)
      then let '(m, r) := exchange_pass y l' in (m, x :: r)
      else let '(m, r) := exchange_pass x l' in (m, y :: r)
  end.

(** The outer loop; [n] is the number of rows. *)
Fixpoint exchange_loop (n : nat) (l : list A) : list A :=
  match n, l with
  | S n', x :: l' => let '(m, r) := exchange_pass x l' in m :: exchange_loop n' r
  | _, _ => l
  end.

Definition exchange_sort (l : list A) : list A := exchange_loop (length l) l.

(** ** Insertion *)

(** The rows before [i] are in the list, the last one first: [t] moves down
    past the rows whose score is smaller. *)
Fixpoint insert_down (t : A) (rev : list A) : list A :=
  match rev with
  | [] => [t]
  | y :: rev' => if f64_ltb (score y) (score t) then y :: insert_down t rev' else t :: rev
  end.

Definition insertion_sort (l : list A) : list A := reverse (foldl (λ rev t, insert_down t rev) [] l).

(** ** What the loops keep *)

Lemma exchange_pass_perm x l :
  Permutation (x :: l) ((exchange_pass x l).1 :: (exchange_pass x l).2).
Proof.
  revert x. induction l as [|y l IH]; intros x; simpl; [done|].
  destruct (f64_ltb (score x) (score y)).
  - specialize (IH y). destruct (exchange_pass y l) as [m r]. simpl in *. rewrite IH. apply perm_swap.
  - specialize (IH x). destruct (exchange_pass x l) as [m r]. simpl in *.
    rewrite perm_swap, IH. apply perm_swap.
Qed.

Lemma exchange_pass_length x l : length (exchange_pass x l).2 = length l.
Proof. pose proof (Permutation_length (exchange_pass_perm x l)) as H. simpl in H. lia. Qed.

Lemma exchange_loop_perm n l : Permutation l (exchange_loop n l).
Proof.
  revert l. induction n as [|n IH]; intros [|x l]; simpl; [done..|].
  pose proof (exchange_pass_perm x l) as H. destruct (exchange_pass x l) as [m r]. simpl in H.
  rewrite H. by rewrite <- IH.
Qed.

Lemma exchange_sort_perm l : Permutation l (exchange_sort l).
Proof. apply exchange_loop_perm. Qed.

Lemma insert_down_perm t rev : Permutation (t :: rev) (insert_down t rev).
Proof.
  induction rev as [|y rev IH]; simpl; [done|]. destruct (f64_ltb _ _); [|done].
  rewrite perm_swap. by rewrite IH.
Qed.

Lemma insertion_sort_perm l : Permutation l (insertion_sort l).
Proof.
  unfold insertion_sort. rewrite reverse_Permutation.
  assert (∀ acc, Permutation (acc ++ l) (foldl (λ rev t, insert_down t rev) acc l)) as H; [|exact (H [])].
  induction l as [|t l IH]; intros acc; simpl; [by rewrite app_nil_r|].
  rewrite <- IH, <- insert_down_perm, Permutation_app_comm. simpl.
  constructor. apply Permutation_app_comm.
Qed.

Lemma no_nan_perm l l' : Permutation l l' → no_nan l → no_nan l'.
Proof. intros H. unfold no_nan. by rewrite H. Qed.

(** ** Order *)

Lemma ranked_trans a b c :
  is_nan (score a) = false → is_nan (score b) = false → is_nan (score c) = false →
  ranked a b → ranked b c → ranked a c.
Proof. unfold ranked. apply f64_nlt_trans. Qed.

Lemma exchange_pass_max x l :
  no_nan (x :: l) → Forall (ranked (exchange_pass x l).1) (x :: (exchange_pass x l).2).
Proof.
  revert x. induction l as [|y l IH]; intros x; simpl.
  - intros _. repeat constructor. apply f64_ltb_irrefl.
  - intros [Hx [Hy Hl]%Forall_cons]%Forall_cons. destruct (f64_ltb (score x) (score y)) eqn:E.
    + pose proof (IH y ltac:(by constructor)) as H.
      pose proof (no_nan_perm _ _ (exchange_pass_perm y l) ltac:(by constructor)) as Hn.
      destruct (exchange_pass y l) as [m r]. simpl in *.
      apply Forall_cons in H as [Hmy Hr]. apply Forall_cons in Hn as [Hm _].
      assert (ranked m x) by (eapply (ranked_trans m y x); [done..|by apply f64_ltb_asym]).
      by repeat constructor.
    + pose proof (IH x ltac:(by constructor)) as H.
      pose proof (no_nan_perm _ _ (exchange_pass_perm x l) ltac:(by constructor)) as Hn.
      destruct (exchange_pass x l) as [m r]. simpl in *.
      apply Forall_cons in H as [Hmx Hr]. apply Forall_cons in Hn as [Hm _].
      assert (ranked m y) by (by eapply (ranked_trans m x y)).
      by repeat constructor.
Qed.

Lemma exchange_loop_sorted n l :
  (length l ≤ n)%nat → no_nan l → StronglySorted ranked (exchange_loop n l).
Proof.
  revert l. induction n as [|n IH]; intros [|x l] Hn Hl; simpl in *; [constructor|lia|constructor|].
  pose proof (exchange_pass_max x l Hl) as Hmax.
  pose proof (no_nan_perm _ _ (exchange_pass_perm x l) Hl) as Hnan.
  pose proof (exchange_pass_length x l) as Hlen.
  destruct (exchange_pass x l) as [m r]. simpl in *. apply Forall_cons in Hmax as [_ Hmax], Hnan as [_ Hnan].
  constructor; [apply IH; [lia|done]|]. by rewrite <- exchange_loop_perm.
Qed.

(** Exchange sorts by descending score as soon as no score is a NaN. *)
Lemma exchange_sort_sorted l : no_nan l → StronglySorted ranked (exchange_sort l).
Proof. by apply exchange_loop_sorted. Qed.

(** Insertion never leaves a smaller score directly before a larger one, with
    or without NaNs. *)
Definition rising (a b : A) : Prop := f64_ltb (score b) (score a) = false.

Lemma insert_down_rising t rev : Sorted rising rev → Sorted rising (insert_down t rev).
Proof.
  induction 1 as [|y rev Hs IH Hd]; simpl; [repeat constructor|].
  destruct (f64_ltb (score y) (score t)) eqn:E.
  - constructor; [done|]. destruct rev as [|z rev]; simpl.
    + constructor. by apply f64_ltb_asym.
    + destruct (f64_ltb (score z) (score t)); constructor; [by inversion Hd | by apply f64_ltb_asym].
  - by repeat constructor.
Qed.

Lemma foldl_insert_rising l acc : Sorted rising acc → Sorted rising (foldl (λ rev t, insert_down t rev) acc l).
Proof. revert acc. induction l as [|t l IH]; intros acc H; simpl; [done|]. by apply IH, insert_down_rising. Qed.

Lemma insertion_sort_sorted l i a b :
  insertion_sort l !! i = Some a → insertion_sort l !! S i = Some b → ranked a b.
Proof.
  unfold insertion_sort. pose proof (foldl_insert_rising l [] (Sorted_nil _)) as Hs.
  set (r := foldl _ [] l) in *. clearbody r. intros Ha Hb.
  apply reverse_lookup_Some in Ha as [Ha Hi], Hb as [Hb Hj].
  revert Ha Hb. replace (length r - S i)%nat with (S (length r - S (S i))) by lia.
  generalize (length r - S (S i))%nat as k. clear Hi Hj i. intros k.
  revert k. induction Hs as [|y r Hs IH Hd]; intros [|k] Ha Hb; simplify_eq/=; [|by eapply IH].
  destruct r; simplify_eq/=. by inversion Hd.
Qed.
End sorting.
