(* ===== verification/Cost.v ===== *)
(** * The cost tracker of [src/cost/cost.c]

    A table of 256 calls with their token counts, and the running total in
    double precision. *)
From S2P Require Import Prelude Floats.

Record cost_entry_t := mk_cost_entry {
  ce_provider : cstr;
  ce_model : cstr;
  prompt_tokens : Z;
  completion_tokens : Z;
  prompt_cost_per_1k : f64;
  completion_cost_per_1k : f64;
  ce_timestamp : Z;
}.

Definition COST_ENTRIES : nat := 256.

Record cost_tracker_t := mk_tracker {
  ct_entries : list cost_entry_t;
  ct_entry_count : nat;
  total_cost : f64;
}.

Definition cost_entry_zero : cost_entry_t := mk_cost_entry [] [] 0 0 f64_zero f64_zero 0.

Definition cost_tracker_init : cost_tracker_t :=
  mk_tracker (replicate COST_ENTRIES cost_entry_zero) 0 f64_zero.

(** [(tokens / 1000.0) * per_1k], prompt and completion together. *)
Definition part_cost (tokens : Z) (per_1k : f64) : f64 :=
  f64_mul (f64_div (f64_of_Z tokens) (f64_of_Z 1000)) per_1k.

Definition entry_cost (e : cost_entry_t) : f64 :=
  f64_add (part_cost (prompt_tokens e) (prompt_cost_per_1k e))
          (part_cost (completion_tokens e) (completion_cost_per_1k e)).

(** The prices of the row are the ones it already holds. *)
Definition cost_track (now : Z) (t : cost_tracker_t) (provider model : cstr) (pt ct : Z)
    : cost_tracker_t * Z :=
  if (COST_ENTRIES <=? ct_entry_count t)%nat then (t, -1)
  else
    match ct_entries t !! ct_entry_count t with
    | None => (t, -1)
    | Some old =>
        let e := mk_cost_entry (snprintf_s 64 provider) (snprintf_s 128 model) pt ct
                   (prompt_cost_per_1k old) (completion_cost_per_1k old) (u64 now) in
        (mk_tracker (<[ct_entry_count t := e]> (ct_entries t)) (S (ct_entry_count t))
           (f64_add (total_cost t) (entry_cost e)), 0)
    end.

Definition cost_get_total (t : cost_tracker_t) : f64 := total_cost t.

Definition cost_get_by_provider (t : cost_tracker_t) (provider : cstr) : f64 :=
  foldl (λ acc e, if streq (ce_provider e) provider then f64_add acc (entry_cost e) else acc)
    f64_zero (take (ct_entry_count t) (ct_entries t)).

Definition csv_line (e : cost_entry_t) : cstr :=
  ce_provider e ++ lit "," ++ ce_model e ++ lit "," ++ fmt_dec (prompt_tokens e) ++ lit "," ++
  fmt_dec (completion_tokens e) ++ lit "," ++ fmt_fixed 6 (entry_cost e) ++ lit "," ++
  fmt_dec (ce_timestamp e) ++ [10].

Definition csv_header : cstr := lit "Provider,Model,PromptTokens,CompletionTokens,Cost,Timestamp" ++ [10].

(** The text of the exported file; [opened] tells whether [fopen] succeeded. *)
Definition cost_export (opened : bool) (t : cost_tracker_t) : Z * option cstr :=
  if negb opened then (-1, None)
  else (0, Some (csv_header ++ flat_map csv_line (take (ct_entry_count t) (ct_entries t)) ++
                 [10] ++ lit "Total Cost: $" ++ fmt_fixed 6 (total_cost t) ++ [10])).

Definition cost_tracker_free (t : cost_tracker_t) : cost_tracker_t := cost_tracker_init.

(** ** What is charged *)

Record cost_call := mk_call { cc_now : Z; cc_provider : cstr; cc_model : cstr; cc_pt : Z; cc_ct : Z }.

Definition track_all (l : list cost_call) (t : cost_tracker_t) : cost_tracker_t :=
  foldl (λ t c, (cost_track (cc_now c) t (cc_provider c) (cc_model c) (cc_pt c) (cc_ct c)).1) t l.

(** Prices zero everywhere, and a total that is a positive zero. *)
Record unpriced (t : cost_tracker_t) : Prop := {
  up_slots : length (ct_entries t) = COST_ENTRIES;
  up_prices : Forall (λ e, prompt_cost_per_1k e = f64_zero ∧ completion_cost_per_1k e = f64_zero) (ct_entries t);
  up_tokens : Forall (λ e, 0 <= prompt_tokens e < 2 ^ 64 ∧ 0 <= completion_tokens e < 2 ^ 64)
                (ct_entries t);
  up_total : total_cost t = f64_zero;
}.

Lemma part_cost_zero n : 0 <= n < 2 ^ 64 → part_cost n f64_zero = f64_zero.
Proof.
  intros Hn. unfold part_cost.
  destruct (f64_of_Z_finite n Hn) as [->|(m & e & -> & Hm & He)]; [by_eval|].
  assert (f64_of_Z 1000 = S754_finite false 8796093022208000 (-43)) as -> by by_eval.
  destruct (f64_div_finite m e 8796093022208000 (-43)) as [->|(m' & e' & ->)]; done || lia.
Qed.

Lemma entry_cost_zero e :
  prompt_cost_per_1k e = f64_zero → completion_cost_per_1k e = f64_zero →
  0 <= prompt_tokens e < 2 ^ 64 → 0 <= completion_tokens e < 2 ^ 64 →
  entry_cost e = f64_zero.
Proof. intros H1 H2 Hp Hc. unfold entry_cost. by rewrite H1, H2, !part_cost_zero. Qed.

Lemma init_unpriced : unpriced cost_tracker_init.
Proof. split; [done| | |done]; by apply Forall_replicate; cbn. Qed.

Lemma track_unpriced now t p m pt ct :
  0 <= pt < 2 ^ 64 → 0 <= ct < 2 ^ 64 → unpriced t → unpriced (cost_track now t p m pt ct).1.
Proof.
  intros Hp Hc [Hs Hpr Htk Ht]. unfold cost_track. case_if; [by split|].
  destruct (ct_entries t !! ct_entry_count t) as [old|] eqn:E; [|by split].
  rewrite Forall_lookup in Hpr. pose proof (Hpr _ _ E) as [H1 H2]. rewrite <- Forall_lookup in Hpr.
  split; cbn [ct_entries total_cost fst].
  - by rewrite length_insert.
  - by apply Forall_insert.
  - by apply Forall_insert.
  - by rewrite Ht, entry_cost_zero.
Qed.

Lemma track_all_unpriced l t :
  Forall (λ c, 0 <= cc_pt c < 2 ^ 64 ∧ 0 <= cc_ct c < 2 ^ 64) l → unpriced t → unpriced (track_all l t).
Proof.
  intros Hl. revert t. induction Hl as [|c l [Hp Hc] _ IH]; intros t Ht; [done|].
  simpl. by apply IH, track_unpriced.
Qed.

Lemma by_provider_zero t p : unpriced t → cost_get_by_provider t p = f64_zero.
Proof.
  intros [_ Hpr Htk _]. unfold cost_get_by_provider.
  apply (Forall_take _ (ct_entry_count t)) in Hpr, Htk.
  induction (take _ _) as [|e l IH]; [done|]. simpl.
  apply Forall_cons in Hpr as [[H1 H2] Hpr], Htk as [[H3 H4] Htk].
  rewrite entry_cost_zero by done. destruct (streq _ _); by apply IH.
Qed.

(** The tracker never charges anything: no function stores a price per
    thousand tokens, so that after any calls, with any token counts, the total
    and the sum of every provider are (positive) zero. *)
Theorem cost_total_always_zero l p :
  Forall (λ c, 0 <= cc_pt c < 2 ^ 64 ∧ 0 <= cc_ct c < 2 ^ 64) l →
  cost_get_total (track_all l cost_tracker_init) = f64_zero ∧
  cost_get_by_provider (track_all l cost_tracker_init) p = f64_zero.
Proof.
  intros Hl. pose proof (track_all_unpriced l _ Hl init_unpriced) as H.
  split; [by destruct H | by apply by_provider_zero].
Qed.

Lemma cost_total_always_zero_witness :
  cost_get_total (track_all [mk_call 0 (lit "openai") (lit "gpt-4o") 1000 500] cost_tracker_init) = f64_zero ∧
  cost_get_by_provider (track_all [mk_call 0 (lit "openai") (lit "gpt-4o") 1000 500] cost_tracker_init)
    (lit "openai") = f64_zero.
Proof. apply cost_total_always_zero. repeat constructor; cbn; lia. Defined.

(** ** The table *)

(** The calls are recorded in order until 256 are stored; later ones are
    refused and change nothing. *)
Lemma track_appends now t p m pt ct :
  length (ct_entries t) = COST_ENTRIES → (ct_entry_count t < COST_ENTRIES)%nat →
  ∃ e, (cost_track now t p m pt ct).2 = 0 ∧
    let t' := (cost_track now t p m pt ct).1 in
    take (ct_entry_count t') (ct_entries t') = take (ct_entry_count t) (ct_entries t) ++ [e] ∧
    ce_provider e = snprintf_s 64 p ∧ prompt_tokens e = pt ∧ completion_tokens e = ct.
Proof.
  intros Hl Hc. unfold cost_track. rewrite (proj2 (Nat.leb_gt _ _) Hc).
  destruct (lookup_lt_is_Some_2 (ct_entries t) (ct_entry_count t)) as [old ->]; [lia|].
  eexists. split; [done|]. cbn [fst ct_entries ct_entry_count]. split; [by apply take_insert_push; lia|done].
Qed.

Lemma track_refused now t p m pt ct :
  (COST_ENTRIES ≤ ct_entry_count t)%nat → cost_track now t p m pt ct = (t, -1).
Proof. intros H. unfold cost_track. by rewrite (proj2 (Nat.leb_le _ _) H). Qed.
