(* ===== verification/Observability.v ===== *)
(** * Metrics of [src/observability/observability.c]

    A table of at most 128 recorded values, and the exporters that turn it
    into text.  The mutex makes each call atomic; the console log and the
    server address are not represented beyond the fields they set. *)
From S2P Require Import Prelude Buffers Floats.

Definition MAX_METRICS : nat := 128.
Definition MAX_METRIC_NAME : nat := 128.
Definition MAX_LABELS : nat := 16.

Record metric_t := mk_metric {
  metric_name : cstr;
  value : f64;
  mt_timestamp : Z;
  labels : list cstr;
  label_count : nat;
}.

Record observability_t := mk_obs {
  metrics : list metric_t;
  obs_count : nat;
  prometheus_addr : cstr;
  otlp_endpoint : cstr;
  prometheus_enabled : bool;
  otlp_enabled : bool;
}.

Definition metric_zero : metric_t := mk_metric [] f64_zero 0 (replicate MAX_LABELS []) 0.

Definition observability_init : observability_t :=
  mk_obs (replicate MAX_METRICS metric_zero) 0 [] [] false false.

Definition set_metrics (o : observability_t) (ms : list metric_t) (n : nat) : observability_t :=
  mk_obs ms n (prometheus_addr o) (otlp_endpoint o) (prometheus_enabled o) (otlp_enabled o).

Definition observability_reset (o : observability_t) : observability_t :=
  set_metrics o (replicate MAX_METRICS metric_zero) 0.

(** The loop that copies the labels, with its two bounds. *)
Fixpoint copy_labels (ls : list cstr) (rows : list cstr) (n : nat) : list cstr * nat :=
  match ls with
  | [] => (rows, n)
  | l :: ls' => if (n <? MAX_LABELS)%nat then copy_labels ls' (<[n := snprintf_s 128 l]> rows) (S n) else (rows, n)
  end.

(** [ls = None] is the call without labels. *)
Definition record_metric (now : Z) (o : observability_t) (name : cstr) (v : f64) (ls : option (list cstr))
    : observability_t * Z :=
  if (MAX_METRICS <=? obs_count o)%nat then (o, -1)
  else
    match metrics o !! obs_count o with
    | None => (o, -1)
    | Some old =>
        let '(rows, n) := copy_labels (default [] ls) (labels old) 0 in
        let m := mk_metric (snprintf_s MAX_METRIC_NAME name) v (u64 now) rows n in
        (set_metrics o (<[obs_count o := m]> (metrics o)) (S (obs_count o)), 0)
    end.

Definition observability_record (now : Z) (o : observability_t) (name : cstr) (v : f64) :=
  record_metric now o name v None.

Definition observability_record_with_labels (now : Z) (o : observability_t) (name : cstr) (v : f64)
    (ls : option (list cstr)) :=
  record_metric now o name v ls.

Definition live (o : observability_t) : list metric_t := take (obs_count o) (metrics o).

Definition observability_get (o : observability_t) (name : cstr) : option f64 :=
  i ← find_idx (λ m, streq (metric_name m) name) (live o);
  value <$> live o !! i.

(** The global instance: recording before the initialisation is accepted and
    dropped. *)
Record global_obs := mk_global { g_global_obs : observability_t; g_global_obs_inited : bool }.

Definition observability_global_init (g : global_obs) : global_obs :=
  if g_global_obs_inited g then g else mk_global observability_init true.

Definition observability_record_global (now : Z) (g : global_obs) (name : cstr) (v : f64) : global_obs * Z :=
  if negb (g_global_obs_inited g) then (g, 0)
  else let '(o, r) := observability_record now (g_global_obs g) name v in (mk_global o true, r).

Definition observability_prometheus_init (o : observability_t) (addr : cstr) : observability_t :=
  mk_obs (metrics o) (obs_count o) (snprintf_s 256 addr) (otlp_endpoint o) true (otlp_enabled o).

Definition observability_otlp_init (o : observability_t) (endpoint : cstr) : observability_t :=
  mk_obs (metrics o) (obs_count o) (prometheus_addr o) (snprintf_s 256 endpoint) (prometheus_enabled o) true.

Definition observability_otlp_shutdown (o : observability_t) : observability_t :=
  mk_obs (metrics o) (obs_count o) (prometheus_addr o) (otlp_endpoint o) (prometheus_enabled o) false.

(** ** The Prometheus text *)

(** One round of the summing loop on the pairs [names[j], sum_by_name[j]]. *)
Definition sum_metric (acc : list (cstr * f64)) (m : metric_t) : list (cstr * f64) :=
  match find_idx (λ p, streq p.1 (metric_name m)) acc with
  | Some j => alter (λ p, (p.1, f64_add p.2 (value m))) j acc
  | None => if (length acc <? MAX_METRICS)%nat then acc ++ [(snprintf_s MAX_METRIC_NAME (metric_name m), value m)] else acc
  end.

(** [offset < output_size - 100], in [size_t]. *)
Definition below (size margin off : nat) : bool := Z.of_nat off <? u64 (Z.of_nat size - Z.of_nat margin).

Definition sum_by_name (go : bool) (ms : list metric_t) : list (cstr * f64) :=
  if go then foldl sum_metric [] ms else [].

Definition sum_line (p : cstr * f64) : cstr := lit "doctorclaw_" ++ p.1 ++ lit " " ++ fmt_fixed 6 p.2 ++ [10].

Fixpoint write_sums (size : nat) (l : list (cstr * f64)) (b : sbuf) : option sbuf :=
  match l with
  | [] => Some b
  | p :: l' =>
      if below size 100 (sb_off b) then b ← sn_append size (sum_line p) b; write_sums size l' b else Some b
  end.

Definition help_line : cstr := lit "# HELP doctorclaw_http_requests_total Total HTTP requests" ++ [10].
Definition type_line : cstr := lit "# TYPE doctorclaw_http_requests_total counter" ++ [10].

(** The text left in [output]; [None]: written outside of it. *)
Definition observability_prometheus_export (o : observability_t) (output_size : nat) : option cstr :=
  b ← sn_append output_size help_line sb_empty;
  b ← sn_append output_size type_line b;
  b ← write_sums output_size (sum_by_name (below output_size 100 (sb_off b)) (live o)) b;
  Some (sb_text b).

Definition observability_prometheus_scrape := observability_prometheus_export.

(** ** The OTLP payload *)

Definition OTLP_LEN : nat := Z.to_nat 16384.

Definition dq : Z := 34.
Definition quoted (s : string) : cstr := [dq] ++ lit s ++ [dq].

Definition otlp_open : cstr :=
  lit "{" ++ quoted "resourceMetrics" ++ lit ":[{" ++ quoted "scopeMetrics" ++ lit ":[{" ++
  quoted "metrics" ++ lit ":[".
Definition otlp_close : cstr := lit "]}]}]}".

Definition otlp_piece (m : metric_t) : cstr :=
  lit "{" ++ quoted "name" ++ lit ":" ++ [dq] ++ metric_name m ++ [dq] ++ lit "," ++ quoted "gauge" ++
  lit ":{" ++ quoted "dataPoints" ++ lit ":[{" ++ quoted "asDouble" ++ lit ":" ++ fmt_fixed 6 (value m) ++
  lit "," ++ quoted "timeUnixNano" ++ lit ":" ++ fmt_dec (u64 (mt_timestamp m * 1000000000)) ++ lit "}]}}".

Fixpoint write_otlp (first : bool) (l : list metric_t) (b : sbuf) : option sbuf :=
  match l with
  | [] => Some b
  | m :: l' =>
      if below OTLP_LEN 200 (sb_off b) then
        b ← (if first then Some b else sn_append OTLP_LEN (lit ",") b);
        b ← sn_append OTLP_LEN (otlp_piece m) b;
        write_otlp false l' b
      else Some b
  end.

Definition otlp_payload (o : observability_t) : option cstr :=
  b ← sn_append OTLP_LEN otlp_open sb_empty;
  b ← write_otlp true (live o) b;
  b ← sn_append OTLP_LEN otlp_close b;
  Some (sb_text b).

(** [http_post url payload] is the request; its result is the result. *)
Definition observability_otlp_export (http_post : cstr → cstr → Z) (o : observability_t) : option Z :=
  if negb (otlp_enabled o) then Some (-1)
  else
    payload ← otlp_payload o;
    Some (http_post (snprintf_s 512 (otlp_endpoint o ++ lit "/v1/metrics")) payload).

(** ** Messages *)

(** The stream, [true] for the error stream, and the line; [time_str] is the
    formatted time. *)
Definition observability_log (time_str level message : cstr) : bool * cstr :=
  let one_of l := existsb (streq level) (map lit l) in
  let '(err, tag) :=
    if one_of ["error"; "err"]%string then (true, lit "ERROR")
    else if one_of ["warn"; "warning"]%string then (true, lit "WARN")
    else if one_of ["debug"; "dbg"]%string then (false, lit "DEBUG")
    else (false, lit "INFO") in
  (err, lit "[" ++ time_str ++ lit "] " ++ tag ++ lit ": " ++ message ++ [10]).

(** ** The table of metrics *)

Record obs_inv (o : observability_t) : Prop := {
  oi_slots : length (metrics o) = MAX_METRICS;
  oi_count : (obs_count o ≤ MAX_METRICS)%nat;
  oi_names : Forall (λ m, (length (metric_name m) < MAX_METRIC_NAME)%nat) (metrics o);
}.

Lemma init_obs_inv : obs_inv observability_init.
Proof. split; [done | vm_compute; lia | apply Forall_replicate; vm_compute; lia]. Qed.

Lemma record_obs_inv now o name v ls : obs_inv o → obs_inv (record_metric now o name v ls).1.
Proof.
  intros [Hs Hc Hn]. unfold record_metric. case_if; [done|].
  destruct (metrics o !! obs_count o) as [old|] eqn:E; [|done].
  destruct (copy_labels _ _ _) as [rows n]. split; cbn [fst metrics obs_count set_metrics].
  - by rewrite length_insert.
  - lia.
  - apply Forall_insert; [done|]. cbn [metric_name]. apply snprintf_s_length. vm_compute; lia.
Qed.

(** Recording appends while there is room; the 129th value is refused. *)
Lemma record_live now o name v ls : obs_inv o →
  live (record_metric now o name v ls).1 =
    (if (obs_count o <? MAX_METRICS)%nat then
       live o ++ [mk_metric (snprintf_s MAX_METRIC_NAME name) v (u64 now)
                    (copy_labels (default [] ls) (default [] (labels <$> metrics o !! obs_count o)) 0).1
                    (copy_labels (default [] ls) (default [] (labels <$> metrics o !! obs_count o)) 0).2]
     else live o).
Proof.
  intros [Hs Hc _]. unfold record_metric, live. rewrite Nat.leb_antisym.
  destruct (obs_count o <? MAX_METRICS)%nat eqn:E; [|done]. bsplit. cbn [negb].
  destruct (lookup_lt_is_Some_2 (metrics o) (obs_count o)) as [old ->]; [lia|]. cbn [fmap option_fmap option_map default].
  destruct (copy_labels _ _ _) as [rows n]. cbn [fst snd set_metrics metrics obs_count id].
  by apply take_insert_push; lia.
Qed.

(** The value of a name is the first one ever recorded under it. *)
Lemma get_first o name v :
  observability_get o name = Some v ↔
  ∃ i m, live o !! i = Some m ∧ metric_name m = name ∧ value m = v ∧
    ∀ j m', (j < i)%nat → live o !! j = Some m' → metric_name m' ≠ name.
Proof.
  unfold observability_get. split.
  - destruct (find_idx _ _) as [i|] eqn:E; [|done]. cbn [mbind option_bind].
    apply find_idx_Some in E as [(m & Hm & Hn) Hj]. rewrite Hm. intros [= <-].
    apply streq_true in Hn. exists i, m. split_and!; [done..|]. intros j m' Hlt Hm' Heq.
    pose proof (Hj j m' Hlt Hm') as Hf. apply streq_false in Hf. done.
  - intros (i & m & Hm & Hn & <- & Hj).
    assert (find_idx (λ m, streq (metric_name m) name) (live o) = Some i) as ->.
    { apply find_idx_Some. split.
      - exists m. split; [done|]. by apply streq_true.
      - intros j m' Hlt Hm'. apply streq_false. eauto. }
    cbn [mbind option_bind]. by rewrite Hm.
Qed.

(** ** Sums by name *)

Definition names_of (ms : list metric_t) : list cstr :=
  foldl (λ acc m, if bool_decide (metric_name m ∈ acc) then acc else acc ++ [metric_name m]) [] ms.

Definition values_of (n : cstr) (ms : list metric_t) : list f64 :=
  value <$> List.filter (λ m, streq (metric_name m) n) ms.

Definition sum_of (n : cstr) (ms : list metric_t) : f64 :=
  match values_of n ms with [] => f64_zero | v :: vs => foldl f64_add v vs end.

Lemma values_of_snoc n ms m :
  values_of n (ms ++ [m]) = values_of n ms ++ (if streq (metric_name m) n then [value m] else []).
Proof. unfold values_of. rewrite List.filter_app, fmap_app. simpl. by destruct (streq _ _). Qed.

Lemma names_of_snoc ms m :
  names_of (ms ++ [m]) =
  if bool_decide (metric_name m ∈ names_of ms) then names_of ms else names_of ms ++ [metric_name m].
Proof. unfold names_of. by rewrite foldl_app. Qed.

Lemma elem_names_of n ms : n ∈ names_of ms ↔ values_of n ms ≠ [].
Proof.
  induction ms as [|m ms IH] using rev_ind; [by split; [intros ?%elem_of_nil|]|].
  rewrite names_of_snoc, values_of_snoc. case_bool_decide as Hin.
  - rewrite IH. destruct (streq (metric_name m) n) eqn:E.
    + apply streq_true in E. subst. split; [intros _; by destruct (values_of _ _)|]. intros _. by apply IH.
    + by rewrite app_nil_r.
  - rewrite elem_of_app, list_elem_of_singleton, IH. destruct (streq (metric_name m) n) eqn:E.
    + apply streq_true in E. subst. split; [intros _; by destruct (values_of _ _)|by right].
    + apply streq_false in E. rewrite app_nil_r. split; [intros [?|?]; [done|by subst]|by left].
Qed.

Lemma names_of_nodup ms : NoDup (names_of ms).
Proof.
  induction ms as [|m ms IH] using rev_ind; [constructor|].
  rewrite names_of_snoc. case_bool_decide; [done|].
  apply NoDup_app. split_and!; [done| |apply NoDup_singleton].
  intros x Hx Hm%list_elem_of_singleton. by subst.
Qed.

Lemma names_of_length ms : (length (names_of ms) ≤ length ms)%nat.
Proof.
  induction ms as [|m ms IH] using rev_ind; [done|].
  rewrite names_of_snoc, length_app. case_bool_decide; [|rewrite length_app]; simpl; lia.
Qed.

Lemma sum_of_snoc n ms m : metric_name m = n → n ∈ names_of ms →
  sum_of n (ms ++ [m]) = f64_add (sum_of n ms) (value m).
Proof.
  intros Hn Hin%elem_names_of. unfold sum_of. rewrite values_of_snoc, Hn, streq_refl.
  destruct (values_of n ms) as [|v vs]; [done|]. cbn [app]. by rewrite foldl_app.
Qed.

Lemma sum_of_other n ms m : metric_name m ≠ n → sum_of n (ms ++ [m]) = sum_of n ms.
Proof. intros H. unfold sum_of. rewrite values_of_snoc, (proj2 (streq_false _ _)) by done. by rewrite app_nil_r. Qed.

Lemma sum_of_new n ms m : metric_name m = n → n ∉ names_of ms → sum_of n (ms ++ [m]) = value m.
Proof.
  intros Hn Hin. unfold sum_of. rewrite values_of_snoc, Hn, streq_refl. rewrite elem_names_of in Hin.
  destruct (values_of n ms); [done|]. by destruct Hin.
Qed.

Lemma alter_map_names (f : cstr → f64) (v : f64) ns j n :
  NoDup ns → ns !! j = Some n →
  alter (λ p, (p.1, f64_add p.2 v)) j (map (λ x, (x, f x)) ns) =
  map (λ x, (x, if decide (x = n) then f64_add (f x) v else f x)) ns.
Proof.
  intros Hnd. revert j. induction Hnd as [|x ns Hx Hnd IH]; intros [|j] Hj; simplify_eq/=.
  - rewrite decide_True by done. f_equal. apply map_ext_in. intros y Hy%list_elem_of_In.
    rewrite decide_False; [done|]. by intros ->.
  - rewrite decide_False by (intros ->; by eapply Hx, list_elem_of_lookup_2). f_equal. by apply IH.
Qed.

(** The summing loop computes, for every name in the order of its first
    appearance, the sum of the values recorded under it. *)
Lemma sum_by_name_spec ms :
  Forall (λ m, (length (metric_name m) < MAX_METRIC_NAME)%nat) ms → (length ms ≤ MAX_METRICS)%nat →
  foldl sum_metric [] ms = map (λ n, (n, sum_of n ms)) (names_of ms).
Proof.
  induction ms as [|m ms IH] using rev_ind; [done|]. intros [Hn Hm]%Forall_app Hlen.
  rewrite length_app in Hlen. cbn [length] in Hlen. rewrite Forall_singleton in Hm.
  rewrite foldl_app, IH by (done || lia). cbn [foldl]. unfold sum_metric at 1.
  rewrite names_of_snoc. pose proof (names_of_length ms).
  case_bool_decide as Hin.
  - apply list_elem_of_lookup in Hin as [j Hj]. pose proof (list_elem_of_lookup_2 _ _ _ Hj) as Hin.
    assert (find_idx (λ p, streq p.1 (metric_name m)) (map (λ n, (n, sum_of n ms)) (names_of ms)) = Some j) as ->.
    { apply find_idx_Some. setoid_rewrite list_lookup_fmap. split.
      - rewrite Hj. eexists. split; [done|]. apply streq_refl.
      - intros i y Hi. destruct (names_of ms !! i) as [x|] eqn:Hx; [|done]. intros [= <-].
        apply streq_false. simpl. intros ->. pose proof (NoDup_lookup _ _ _ _ (names_of_nodup ms) Hx Hj). lia. }
    rewrite (alter_map_names _ _ _ _ _ (names_of_nodup ms) Hj). apply map_ext. intros x. f_equal.
    destruct (decide (x = metric_name m)) as [->|Hne].
    + by rewrite sum_of_snoc.
    + by rewrite sum_of_other.
  - assert (find_idx (λ p, streq p.1 (metric_name m)) (map (λ n, (n, sum_of n ms)) (names_of ms)) = None) as ->.
    { apply find_idx_None, Forall_forall. intros p Hp%list_elem_of_In%in_map_iff.
      destruct Hp as (x & <- & Hx%list_elem_of_In). apply streq_false. simpl. by intros ->. }
    rewrite length_map, (proj2 (Nat.ltb_lt _ _)) by lia.
    rewrite map_app, snprintf_s_id by exact Hm. cbn [map].
    rewrite sum_of_new by done. f_equal. apply map_ext_in. intros x Hx%list_elem_of_In.
    by rewrite sum_of_other by (intros Heq; by subst x).
Qed.

(** ** The exporters stay in their buffers *)

Lemma below_nat size margin off :
  (margin ≤ size)%nat → Z.of_nat size < 2 ^ 64 → below size margin off = (off <? size - margin)%nat.
Proof.
  intros Hm Hs. unfold below. rewrite wrap_small by lia.
  destruct (off <? size - margin)%nat eqn:E; bsplit; [apply Z.ltb_lt | apply Z.ltb_ge]; lia.
Qed.

(** What is in the buffer never reaches its end, and the offset never passes
    the text. *)
Definition sb_safe (size : nat) (b : sbuf) : Prop :=
  (length (sb_text b) < size ∧ length (sb_text b) ≤ sb_off b)%nat.

Lemma write_sums_safe size l b :
  (100 ≤ size)%nat → Z.of_nat size < 2 ^ 64 → sb_safe size b →
  ∃ b', write_sums size l b = Some b' ∧ sb_safe size b'.
Proof.
  intros Hsz Hw. revert b. induction l as [|p l IH]; intros b Hb; simpl; [eauto|].
  rewrite below_nat by done. case_if; [|eauto].
  destruct (sn_append size (sum_line p) b) as [b1|] eqn:E; cbn [mbind option_bind].
  - apply IH. destruct Hb. by eapply sn_append_text_bound.
  - unfold sn_append in E. rewrite (proj2 (Nat.leb_le _ _)) in E by lia. done.
Qed.

(** With a buffer of at least 100 bytes the Prometheus exporter stores nothing
    outside of it, whatever was recorded. *)
Theorem prometheus_export_in_bounds o size :
  (100 ≤ size)%nat → Z.of_nat size < 2 ^ 64 →
  ∃ text, observability_prometheus_export o size = Some text ∧ (length text < size)%nat.
Proof.
  intros Hsz Hw. unfold observability_prometheus_export.
  rewrite sn_append_fits; [|by apply sb_empty_ok; lia|change (length help_line) with 58%nat; cbn [sb_off sb_empty]; lia].
  cbn [mbind option_bind].
  destruct (sn_append size type_line _) as [b|] eqn:E; cbn [mbind option_bind].
  - destruct (write_sums_safe size (sum_by_name (below size 100 (sb_off b)) (live o)) b) as (b' & -> & Hb' & _);
      [done|done| |by exists (sb_text b')].
    eapply sn_append_text_bound; [..|exact E]; cbn [sb_text sb_off sb_empty app]; [|done].
    change (length help_line) with 58%nat. lia.
  - unfold sn_append in E. cbn [sb_off sb_text sb_empty app] in E. change (length help_line) with 58%nat in E.
    rewrite (proj2 (Nat.leb_le _ _)) in E by lia. done.
Qed.

Lemma prometheus_export_in_bounds_witness :
  ∃ text, observability_prometheus_export observability_init 4096 = Some text ∧ (length text < 4096)%nat.
Proof. apply prometheus_export_in_bounds; lia. Defined.

(** With room for everything the exported text is the two comment lines and
    one line per name, in the order of first appearance, with the sum of the
    values recorded under it. *)
Lemma write_sums_exact size l b :
  (100 ≤ size)%nat → Z.of_nat size < 2 ^ 64 → sb_ok size b →
  (sb_off b + length (flat_map sum_line l) + 100 < size)%nat →
  ∃ b', write_sums size l b = Some b' ∧ sb_text b' = sb_text b ++ flat_map sum_line l.
Proof.
  intros Hsz Hw. revert b. induction l as [|p l IH]; intros b Hb Hlen; cbn [flat_map write_sums] in *.
  { eexists. by rewrite app_nil_r. }
  rewrite length_app in Hlen. rewrite below_nat, (proj2 (Nat.ltb_lt _ _)) by (done || lia).
  destruct (sn_append_ok size (sum_line p) b Hb) as (b1 & -> & Hb1 & Ht1); [lia|]. cbn [mbind option_bind].
  destruct (IH b1 Hb1) as (b2 & -> & Ht2).
  { destruct Hb1 as [-> _], Hb as [Ho _]. rewrite Ht1, length_app. lia. }
  eexists. split; [done|]. by rewrite Ht2, Ht1, app_assoc.
Qed.

Theorem prometheus_export_sums o size :
  obs_inv o → Z.of_nat size < 2 ^ 64 →
  let sums := map (λ n, (n, sum_of n (live o))) (names_of (live o)) in
  (206 + length (flat_map sum_line sums) < size)%nat →
  observability_prometheus_export o size = Some (help_line ++ type_line ++ flat_map sum_line sums).
Proof.
  intros [Hs Hc Hn] Hw sums Hlen. unfold observability_prometheus_export.
  destruct (sn_append_ok size help_line sb_empty) as (b1 & -> & Hb1 & Ht1);
    [by apply sb_empty_ok; lia | change (length help_line) with 58%nat; cbn [sb_off sb_empty]; lia |].
  cbn [mbind option_bind]. pose proof Hb1 as [Ho1 _]. rewrite Ht1 in Ho1. cbn [sb_text sb_empty app] in *.
  change (length help_line) with 58%nat in Ho1.
  destruct (sn_append_ok size type_line b1 Hb1) as (b2 & -> & Hb2 & Ht2);
    [change (length type_line) with 46%nat; lia |].
  cbn [mbind option_bind]. pose proof Hb2 as [Ho2 _]. rewrite Ht2, Ht1, length_app in Ho2.
  change (length help_line) with 58%nat in Ho2. change (length type_line) with 46%nat in Ho2.
  rewrite below_nat, (proj2 (Nat.ltb_lt _ _)) by lia. unfold sum_by_name.
  rewrite sum_by_name_spec.
  - fold sums. destruct (write_sums_exact size sums b2) as (b3 & -> & Ht3); [lia|done|done|lia|].
    cbn [mbind option_bind]. by rewrite Ht3, Ht2, Ht1, <- app_assoc.
  - unfold live. by apply Forall_take.
  - unfold live. rewrite length_take. lia.
Qed.

(** The OTLP exporter keeps a margin of 200 bytes; it stays in its buffer when
    no data point is longer than 193. *)
Lemma write_otlp_safe first l b :
  Forall (λ m, (length (otlp_piece m) ≤ 193)%nat) l → sb_ok OTLP_LEN b → (sb_off b ≤ OTLP_LEN - 6)%nat →
  ∃ b', write_otlp first l b = Some b' ∧ sb_ok OTLP_LEN b' ∧ (sb_off b' ≤ OTLP_LEN - 6)%nat.
Proof.
  intros Hl. revert first b. induction Hl as [|m l Hm _ IH]; intros first b Hb H6; cbn [write_otlp]; [eauto|].
  assert (OTLP_LEN = Z.to_nat 16384) as HL by done.
  rewrite below_nat by lia. case_if; [|eauto].
  assert (∃ b1, (if first then Some b else sn_append OTLP_LEN (lit ",") b) = Some b1 ∧ sb_ok OTLP_LEN b1 ∧
            (sb_off b1 ≤ S (sb_off b))%nat) as (b1 & -> & Hb1 & Hle).
  { destruct first; [eauto 10|].
    destruct (sn_append_ok OTLP_LEN (lit ",") b Hb) as (b1 & H1 & Hb1 & Ht1); [simpl; lia|].
    exists b1. split_and!; [done..|]. destruct Hb1 as [-> _], Hb as [-> _]. rewrite Ht1, length_app. simpl. lia. }
  cbn [mbind option_bind].
  destruct (sn_append_ok OTLP_LEN (otlp_piece m) b1 Hb1) as (b2 & -> & Hb2 & Ht2); [lia|]. cbn [mbind option_bind].
  apply IH; [done|]. pose proof Hb2 as [-> _]. rewrite Ht2, length_app. destruct Hb1 as [<- _]. lia.
Qed.

Theorem otlp_payload_in_bounds o :
  Forall (λ m, (length (otlp_piece m) ≤ 193)%nat) (live o) →
  ∃ text, otlp_payload o = Some text ∧ (length text < OTLP_LEN)%nat.
Proof.
  intros Hl. assert (OTLP_LEN = Z.to_nat 16384) as HL by done. unfold otlp_payload.
  destruct (sn_append_ok OTLP_LEN otlp_open sb_empty) as (b1 & -> & Hb1 & Ht1);
    [by apply sb_empty_ok; lia | change (length otlp_open) with 49%nat; cbn [sb_off sb_empty]; lia |].
  cbn [mbind option_bind].
  destruct (write_otlp_safe true (live o) b1 Hl Hb1) as (b2 & -> & Hb2 & H6).
  { destruct Hb1 as [-> _]. rewrite Ht1. cbn [sb_text sb_empty app]. change (length otlp_open) with 49%nat. lia. }
  cbn [mbind option_bind].
  destruct (sn_append OTLP_LEN otlp_close b2) as [b3|] eqn:E; cbn [mbind option_bind].
  - eexists. split; [done|]. destruct Hb2 as [Ho2 Hlt].
    eapply sn_append_text_bound in E; [apply E|lia|lia].
  - unfold sn_append in E. rewrite (proj2 (Nat.leb_le _ _)) in E by lia. done.
Qed.

(** Names of 127 bytes make the data points longer than the margin: 128 of
    them drive the payload out of its buffer. *)
Definition long_metric : metric_t :=
  mk_metric (replicate 127 120) (f64_of_Z 1) 1700000000 (replicate MAX_LABELS []) 0.

Example otlp_payload_overflow :
  otlp_payload (mk_obs (replicate 128 long_metric) 128 [] [] false true) = None.
Proof. by_eval. Qed.
