(* ===== verification/Rag.v ===== *)
(** * The retrieval index of [src/rag/rag.c]

    Up to 256 documents with an embedding of 384 doubles each; queries rank
    them by cosine similarity.  The index file is a sequence of bytes. *)
From S2P Require Import Prelude Floats Sorting.
From Stdlib Require Import Sorting.Permutation Sorting.Sorted.

Definition RAG_MAX_CHUNKS : nat := 256.
Definition RAG_EMBEDDING_DIM : nat := 384.
Definition RAG_CHUNK_SIZE : nat := 512.
Definition RESULT_ROWS : nat := 10.
Definition DOCUMENT_LEN : nat := Z.to_nat 16384.
Definition SOURCE_LEN : nat := 256.

Record rag_chunk_t := mk_chunk {
  document : cstr;
  source : cstr;
  rc_timestamp : Z;
  embedding : list f64;
  embedding_dim : nat;
  has_embedding : bool;
}.

Record rag_index_t := mk_index {
  chunks : list rag_chunk_t;
  idx_count : nat;
  index_path : cstr;
}.

(** The rows of an answer. *)
Record rag_result_t := mk_result {
  r_chunks : list cstr;
  r_chunk_count : nat;
  r_scores : list f64;
}.

(** ** Embeddings *)

Definition HASH_SEED : Z := 5381.

Definition hash_bytes (data : list Z) : Z := foldl (λ h b, u64 (h * 33 + b)) HASH_SEED data.

(** The bytes of [i], a [size_t], on a little-endian machine. *)
Definition raw_component (text : cstr) (i : nat) : f64 :=
  let h1 := hash_bytes text in
  let h2 := hash_bytes (le_bytes 8 (Z.of_nat i)) in
  let h := hash_bytes (le_bytes 8 h1 ++ le_bytes 8 h2) in
  f64_sub (f64_mul (f64_div (f64_of_Z (h mod 10000)) (f64_of_Z 10000)) (f64_of_Z 2)) (f64_of_Z 1).

Definition squares (v : list f64) : f64 := foldl (λ acc x, f64_add acc (f64_mul x x)) f64_zero v.

Definition rag_compute_embedding (text : cstr) : list f64 :=
  match text with
  | [] => replicate RAG_EMBEDDING_DIM f64_zero
  | _ =>
      let v := raw_component text <$> seq 0 RAG_EMBEDDING_DIM in
      let norm := f64_sqrt (squares v) in
      if f64_ltb f64_zero norm then (λ x, f64_div x norm) <$> v else v
  end.

(** Both vectors have [dim] elements. *)
Definition rag_cosine_similarity (a b : list f64) : f64 :=
  let '(dot, na, nb) :=
    foldl (λ '(dot, na, nb) '(x, y),
      (f64_add dot (f64_mul x y), f64_add na (f64_mul x x), f64_add nb (f64_mul y y)))
      (f64_zero, f64_zero, f64_zero) (zip a b) in
  let denom := f64_mul (f64_sqrt na) (f64_sqrt nb) in
  if f64_eqb denom f64_zero then f64_zero else f64_div dot denom.

(** ** Chunks of a text *)

(** The loop body at position [pos] with [left] more rows; [None]: a chunk that
    does not fit its row of 512 bytes. *)
Fixpoint chunk_loop (text : cstr) (chunk_size left pos : nat) : option (list cstr) :=
  match left with
  | O => Some []
  | S left' =>
      if (pos <? length text)%nat then
        let this_chunk := Nat.min (length text - pos) chunk_size in
        if (RAG_CHUNK_SIZE <=? this_chunk)%nat then None
        else
          let pos' := (pos + this_chunk)%nat in
          let overlap := if (50 <? this_chunk)%nat then 50%nat else O in
          let next := if (pos' <? length text)%nat && (0 <? left')%nat then (pos' - overlap)%nat else pos' in
          rest ← chunk_loop text chunk_size left' next;
          Some (take this_chunk (drop pos text) :: rest)
      else Some []
  end.

(** The rows written; their number is the count. *)
Definition rag_chunk_text (text : cstr) (chunk_size : nat) : option (list cstr) :=
  chunk_loop text chunk_size RESULT_ROWS 0.

(** ** The index *)

Definition chunk_zero : rag_chunk_t := mk_chunk [] [] 0 (replicate RAG_EMBEDDING_DIM f64_zero) 0 false.

Definition rag_index_init : rag_index_t := mk_index (replicate RAG_MAX_CHUNKS chunk_zero) 0 [].

Definition rag_index_free (idx : rag_index_t) : rag_index_t := rag_index_init.

(** [emb = None] is the call that computes the embedding. *)
Definition rag_index_add_with_embedding (now : Z) (idx : rag_index_t) (doc : cstr) (src : option cstr)
    (emb : option (list f64)) : rag_index_t * Z :=
  if (RAG_MAX_CHUNKS <=? idx_count idx)%nat then (idx, -1)
  else
    match chunks idx !! idx_count idx with
    | None => (idx, -1)
    | Some old =>
        let c := mk_chunk (snprintf_s DOCUMENT_LEN doc)
                   (match src with Some s => snprintf_s SOURCE_LEN s | None => source old end) (u64 now)
                   (match emb with Some e => e | None => rag_compute_embedding doc end)
                   RAG_EMBEDDING_DIM true in
        (mk_index (<[idx_count idx := c]> (chunks idx)) (S (idx_count idx)) (index_path idx), 0)
    end.

Definition rag_index_add (now : Z) (idx : rag_index_t) (doc : cstr) (src : option cstr) : rag_index_t * Z :=
  rag_index_add_with_embedding now idx doc src None.

Definition live_chunks (idx : rag_index_t) : list rag_chunk_t := take (idx_count idx) (chunks idx).

(** Index and similarity of every row that has an embedding. *)
Definition scores_of (query : list f64) (idx : rag_index_t) : list (nat * f64) :=
  flat_map (λ '(i, c), if has_embedding c then [(i, rag_cosine_similarity query (embedding c))] else [])
    (zip (seq 0 (idx_count idx)) (live_chunks idx)).

Definition result_text (idx : rag_index_t) (i : nat) : cstr :=
  match chunks idx !! i with Some c => take (RAG_CHUNK_SIZE - 1) (document c) | None => [] end.

(** [None]: more rows than the answer has. *)
Definition rag_index_search (idx : rag_index_t) (query : list f64) (top_k : nat) (result : rag_result_t)
    : option (rag_result_t * Z) :=
  if (idx_count idx =? 0)%nat then Some (mk_result (r_chunks result) 0 (r_scores result), 0)
  else
    let sorted := exchange_sort snd (scores_of query idx) in
    let count := if (top_k <? length sorted)%nat then top_k else length sorted in
    if (RESULT_ROWS <? count)%nat then None
    else
      let top := take count sorted in
      Some (mk_result (map (λ p, result_text idx p.1) top ++ drop count (r_chunks result)) count
              (map snd top ++ drop count (r_scores result)), 0).

Definition rag_index_query (idx : rag_index_t) (query : cstr) (top_k : nat) (result : rag_result_t) :=
  rag_index_search idx (rag_compute_embedding query) top_k result.

(** ** The index file *)

Definition enc_chunk (c : rag_chunk_t) : list Z :=
  le_bytes 8 (Z.of_nat (length (document c) + 1)) ++ document c ++ [0] ++
  le_bytes 8 (Z.of_nat (length (source c) + 1)) ++ source c ++ [0] ++
  le_bytes 8 (rc_timestamp c) ++ [if has_embedding c then 1 else 0] ++
  flat_map (λ x, le_bytes 8 (f64_bits x)) (embedding c).

(** The bytes written; [opened] tells whether [fopen] succeeded. *)
Definition rag_index_save (opened : bool) (idx : rag_index_t) : Z * option (list Z) :=
  if negb opened then (-1, None)
  else (0, Some (le_bytes 8 (Z.of_nat (idx_count idx)) ++ flat_map enc_chunk (live_chunks idx))).

(** [fread] of [n] bytes that are all there. *)
Definition read_n (n : nat) (s : list Z) : option (list Z * list Z) :=
  if (n <=? length s)%nat then Some (take n s, drop n s) else None.

Definition read_u64 (s : list Z) : option (Z * list Z) :=
  '(b, s) ← read_n 8 s; Some (of_le b, s).

(** A string field: its length, then so many bytes into an array of [cap].
    [None] when the array is overrun, and when the bytes do not end the string
    themselves, so that what was in the row before shows through. *)
Definition read_text (cap : nat) (s : list Z) : option (cstr * list Z) :=
  '(n, s) ← read_u64 s;
  if Z.of_nat cap <? n then None
  else
    '(b, s) ← read_n (Z.to_nat n) s;
    if bool_decide (0 ∈ b) then Some (until_nul b, s) else None.

Fixpoint read_doubles (n : nat) (s : list Z) : option (list f64 * list Z) :=
  match n with
  | O => Some ([], s)
  | S n' =>
      '(b, s) ← read_u64 s;
      '(r, s) ← read_doubles n' s;
      Some (f64_of_bits b :: r, s)
  end.

Definition read_chunk (s : list Z) : option (rag_chunk_t * list Z) :=
  '(doc, s) ← read_text DOCUMENT_LEN s;
  '(src, s) ← read_text SOURCE_LEN s;
  '(t, s) ← read_u64 s;
  '(h, s) ← read_n 1 s;
  '(e, s) ← read_doubles RAG_EMBEDDING_DIM s;
  if of_le h <=? 1 then Some (mk_chunk doc src t e RAG_EMBEDDING_DIM (of_le h =? 1), s) else None.

Fixpoint read_chunks (n i : nat) (s : list Z) (rows : list rag_chunk_t) : option (list rag_chunk_t) :=
  match n with
  | O => Some rows
  | S n' => '(c, s) ← read_chunk s; read_chunks n' (S i) s (<[i := c]> rows)
  end.

(** [file = None]: there is none, which is not an error.  The result [None] is
    a file on which the behaviour of the code is not defined. *)
Definition rag_index_load (idx : rag_index_t) (file : option (list Z)) : option (rag_index_t * Z) :=
  match file with
  | None => Some (idx, 0)
  | Some s =>
      match read_u64 s with
      | None => Some (idx, -1)
      | Some (n, s) =>
          if Z.of_nat RAG_MAX_CHUNKS <? n then Some (idx, -1)
          else
            rows ← read_chunks (Z.to_nat n) 0 s (chunks idx);
            Some (mk_index rows (Z.to_nat n) (index_path idx), 0)
      end
  end.

Definition rag_index_init_file (path : cstr) (file : option (list Z)) : option (rag_index_t * Z) :=
  rag_index_load (mk_index (replicate RAG_MAX_CHUNKS chunk_zero) 0 (snprintf_s 512 path)) file.

(** ** Chunking covers the text *)

(** The text the chunks stand for: the first one and, of each later one, what
    follows the overlap. *)
Definition reassemble (ov : nat) (l : list cstr) : cstr :=
  match l with [] => [] | c :: l' => c ++ flat_map (drop ov) l' end.

Lemma reassemble_cons ov c l :
  (∀ c', head l = Some c' → (ov ≤ length c')%nat) → reassemble ov (c :: l) = c ++ drop ov (reassemble ov l).
Proof.
  intros H. destruct l as [|c' l]; simpl; [by rewrite drop_nil|].
  rewrite drop_app_le by (by apply H). done.
Qed.

Definition overlap_of (chunk_size : nat) : nat := if (50 <? chunk_size)%nat then 50%nat else O.

Lemma chunk_loop_S text cs left pos :
  chunk_loop text cs (S left) pos =
    if (pos <? length text)%nat then
      let this_chunk := Nat.min (length text - pos) cs in
      if (RAG_CHUNK_SIZE <=? this_chunk)%nat then None
      else
        let pos' := (pos + this_chunk)%nat in
        let overlap := if (50 <? this_chunk)%nat then 50%nat else O in
        let next := if (pos' <? length text)%nat && (0 <? left)%nat then (pos' - overlap)%nat else pos' in
        rest ← chunk_loop text cs left next;
        Some (take this_chunk (drop pos text) :: rest)
    else Some [].
Proof. done. Qed.

Lemma chunk_loop_end text cs left pos : (length text ≤ pos)%nat → chunk_loop text cs left pos = Some [].
Proof. intros H. destruct left; [done|]. rewrite chunk_loop_S. by rewrite (proj2 (Nat.ltb_ge _ _)). Qed.

Lemma chunk_loop_spec text cs left pos :
  (0 < cs < RAG_CHUNK_SIZE)%nat → (0 < left)%nat → (pos < length text)%nat →
  let ov := overlap_of cs in
  ∃ l, chunk_loop text cs left pos = Some l ∧
    head l = Some (take cs (drop pos text)) ∧ Forall (λ c, (length c ≤ cs)%nat) l ∧
    reassemble ov l = take (left * (cs - ov) + ov) (drop pos text).
Proof.
  intros Hcs Hl Hpos ov. revert pos Hpos. destruct left as [|left]; [lia|]. clear Hl.
  assert (ov < cs)%nat as Hov by (unfold ov, overlap_of; destruct (50 <? cs)%nat eqn:E; bsplit; lia).
  induction left as [|left IH]; intros pos Hpos; rewrite chunk_loop_S;
    rewrite (proj2 (Nat.ltb_lt _ _)) by done; cbv zeta; rewrite (proj2 (Nat.leb_gt _ _)) by lia.
  - cbn [chunk_loop mbind option_bind]. eexists. split; [done|].
    assert (take ((length text - pos) `min` cs) (drop pos text) = take cs (drop pos text)) as ->.
    { rewrite Nat.min_comm, <- take_take. f_equal. rewrite take_ge; [done|]. rewrite length_drop. lia. }
    split; [done|]. split; [constructor; [rewrite length_take; lia|constructor]|].
    unfold reassemble. cbn [flat_map]. rewrite app_nil_r. f_equal. lia.
  - destruct (decide (length text - pos ≤ cs)%nat) as [Hlast|Hmore].
    + rewrite Nat.min_l by done. rewrite (proj2 (Nat.ltb_ge (pos + (length text - pos)) _)) by lia.
      cbn [andb]. rewrite chunk_loop_end by lia.
      cbn [mbind option_bind]. eexists. split; [done|].
      rewrite (take_ge (drop pos text) (length text - pos)) by (rewrite length_drop; lia).
      rewrite (take_ge (drop pos text) cs), (take_ge (drop pos text) (S (S left) * (cs - ov) + ov)) by (rewrite length_drop; nia).
      split; [done|]. split; [constructor; [rewrite length_drop; lia|constructor]|].
      unfold reassemble. cbn [flat_map]. by rewrite app_nil_r.
    + rewrite Nat.min_r by lia. rewrite (proj2 (Nat.ltb_lt (pos + cs) _)) by lia. change (0 <? S left)%nat with true. cbn [andb].
      fold (overlap_of cs). fold ov.
      destruct (IH (pos + cs - ov)%nat) as (l & El & Hhd & Hlen & Hre); [lia|].
      rewrite El. cbn [mbind option_bind].
      eexists. split; [done|]. split; [done|]. split; [constructor; [rewrite length_take; lia|done]|].
      rewrite reassemble_cons; [|rewrite Hhd; intros c' [= <-]; rewrite length_take, length_drop; lia].
      rewrite Hre, skipn_firstn_comm, drop_drop.
      replace (pos + cs - ov + ov)%nat with (pos + cs)%nat by lia.
      rewrite <- (drop_drop text cs pos), take_take_drop. f_equal. lia.
Qed.

(** Cutting a text into chunks of less than 512 bytes gives at most ten rows
    that stay in bounds; put together without their overlaps of 50 bytes they
    are the beginning of the text, [10 * (chunk_size - 50) + 50] bytes of it
    for chunks longer than 50: a longer text is cut off. *)
Theorem rag_chunks_cover text cs :
  (0 < cs < RAG_CHUNK_SIZE)%nat →
  ∃ l, rag_chunk_text text cs = Some l ∧ Forall (λ c, (length c ≤ cs)%nat) l ∧ (length l ≤ RESULT_ROWS)%nat ∧
    reassemble (overlap_of cs) l = take (RESULT_ROWS * (cs - overlap_of cs) + overlap_of cs) text.
Proof.
  intros Hcs. unfold rag_chunk_text.
  assert (∀ left pos l, chunk_loop text cs left pos = Some l → (length l ≤ left)%nat) as Hle.
  { clear. induction left as [|left IH]; intros pos l; cbn [chunk_loop]; [by intros [= <-]|].
    case_if; [|intros [= <-]; simpl; lia]. case_if; [done|]. destruct (chunk_loop _ _ left _) as [r|] eqn:E; [|done].
    cbn [mbind option_bind]. intros [= <-]. apply IH in E. simpl. lia. }
  destruct (decide (text = [])) as [->|Hne].
  { exists []. split; [by_eval|]. split; [constructor|]. split; [simpl; lia|]. by rewrite take_nil. }
  destruct (chunk_loop_spec text cs RESULT_ROWS 0) as (l & El & _ & Hlen & Hre); [done|unfold RESULT_ROWS; lia| |].
  { destruct text; [done|]. simpl. lia. }
  exists l. split_and!; [done..| |]; [by eapply Hle | by rewrite drop_0 in Hre].
Qed.

Lemma rag_chunks_cover_witness :
  ∃ l, rag_chunk_text (replicate 1000 97) 400 = Some l ∧ Forall (λ c, (length c ≤ 400)%nat) l ∧
    (length l ≤ RESULT_ROWS)%nat ∧
    reassemble (overlap_of 400) l = take (RESULT_ROWS * (400 - overlap_of 400) + overlap_of 400) (replicate 1000 97).
Proof. apply rag_chunks_cover. unfold RAG_CHUNK_SIZE. lia. Defined.

(** ** Ranking *)

(** C37: A query returns the best rows: the answer lists the first [top_k] of
    all scored rows in an order by descending similarity, so that no row left
    out is more similar than one returned. The index is not empty, [top_k] is
    at most 10 (above, the result overflows, see the findings) and no score is
    NaN. *)
Theorem rag_search_best idx q k r :
  (0 < idx_count idx)%nat → (k ≤ RESULT_ROWS)%nat → no_nan snd (scores_of q idx) →
  ∃ sorted r', rag_index_search idx q k r = Some (r', 0) ∧
    Permutation (scores_of q idx) sorted ∧ StronglySorted (ranked snd) sorted ∧
    r_chunk_count r' = Nat.min k (length (scores_of q idx)) ∧
    take (r_chunk_count r') (r_chunks r') = map (λ p, result_text idx p.1) (take k sorted) ∧
    take (r_chunk_count r') (r_scores r') = map snd (take k sorted) ∧
    Forall (λ p, Forall (λ p', ranked snd p p') (drop k sorted)) (take k sorted).
Proof.
  intros Hc Hk Hn. exists (exchange_sort snd (scores_of q idx)).
  pose proof (exchange_sort_perm snd (scores_of q idx)) as Hp.
  pose proof (exchange_sort_sorted snd _ Hn) as Hs.
  unfold rag_index_search. rewrite (proj2 (Nat.eqb_neq _ _)) by lia.
  set (s := exchange_sort snd (scores_of q idx)) in *.
  rewrite (Permutation_length Hp).
  assert ((if (k <? length s)%nat then k else length s) = Nat.min k (length s)) as ->.
  { destruct (k <? length s)%nat eqn:E; bsplit; lia. }
  rewrite (proj2 (Nat.ltb_ge RESULT_ROWS _)) by lia.
  assert (take (k `min` length s) s = take k s) as Ht by (by rewrite <- take_take, (take_ge s (length s))).
  eexists. split; [done|]. cbn [r_chunk_count r_chunks r_scores]. rewrite Ht.
  split_and!; [done|done|done| | |].
  - rewrite take_app_length'; [done|]. rewrite length_map, length_take. lia.
  - rewrite take_app_length'; [done|]. rewrite length_map, length_take. lia.
  - clear -Hs. rewrite <- (take_drop k s) in Hs. revert Hs. generalize (drop k s). intros d.
    induction (take k s) as [|x l IH]; simpl; [constructor|]. intros Hs. apply StronglySorted_inv in Hs as [Hs Hx].
    apply Forall_app in Hx as [_ Hx]. constructor; [done|by apply IH].
Qed.

(** An answer has ten rows: asking for more of an index that has them writes
    outside of it. *)
Lemma rag_search_overflow idx q k r :
  (0 < idx_count idx)%nat → (RESULT_ROWS < k)%nat → (RESULT_ROWS < length (scores_of q idx))%nat →
  rag_index_search idx q k r = None.
Proof.
  intros Hc Hk Hs. unfold rag_index_search. rewrite (proj2 (Nat.eqb_neq _ _)) by lia.
  rewrite <- (Permutation_length (exchange_sort_perm snd (scores_of q idx))).
  destruct (k <? length (scores_of q idx))%nat; rewrite (proj2 (Nat.ltb_lt RESULT_ROWS _)) by lia; done.
Qed.

(** ** The file round trip *)

Lemma read_n_app a s : read_n (length a) (a ++ s) = Some (a, s).
Proof.
  unfold read_n. rewrite length_app, (proj2 (Nat.leb_le _ _)) by lia.
  by rewrite take_app_length, drop_app_length.
Qed.

Lemma read_u64_bytes z s : 0 <= z < 2 ^ 64 → read_u64 (le_bytes 8 z ++ s) = Some (z, s).
Proof.
  intros Hz. unfold read_u64. rewrite <- (le_bytes_length 8 z) at 1. rewrite read_n_app. cbn [mbind option_bind].
  by rewrite of_le_bytes by (change (256 ^ Z.of_nat 8) with (2 ^ 64); lia).
Qed.

Lemma read_text_enc cap t s :
  wf_cstr t → (length t < cap)%nat → Z.of_nat cap < 2 ^ 64 →
  read_text cap (le_bytes 8 (Z.of_nat (length t + 1)) ++ t ++ [0] ++ s) = Some (t, s).
Proof.
  intros Ht Hl Hc. unfold read_text. rewrite read_u64_bytes by lia. cbn [mbind option_bind].
  rewrite (proj2 (Z.ltb_ge _ _)) by lia. rewrite Nat2Z.id.
  replace (length t + 1)%nat with (length (t ++ [0])) by (rewrite length_app; done).
  rewrite (app_assoc t [0] s), read_n_app. cbn [mbind option_bind].
  rewrite bool_decide_eq_true_2 by (apply elem_of_app; right; by apply list_elem_of_singleton).
  by rewrite until_nul_app.
Qed.

Lemma read_doubles_enc l s :
  Forall f64_valid l → read_doubles (length l) (flat_map (λ x, le_bytes 8 (f64_bits x)) l ++ s) = Some (l, s).
Proof.
  induction 1 as [|x l Hx _ IH]; cbn [length flat_map read_doubles]; [done|].
  destruct (f64_bits_roundtrip x Hx) as [Hr Hb]. rewrite <- app_assoc, read_u64_bytes by done.
  cbn [mbind option_bind]. rewrite IH. cbn [mbind option_bind]. by rewrite Hr.
Qed.

(** A row the file gives back unchanged. *)
Record chunk_ok (c : rag_chunk_t) : Prop := {
  co_doc : wf_cstr (document c) ∧ (length (document c) < DOCUMENT_LEN)%nat;
  co_src : wf_cstr (source c) ∧ (length (source c) < SOURCE_LEN)%nat;
  co_time : 0 <= rc_timestamp c < 2 ^ 64;
  co_emb : length (embedding c) = RAG_EMBEDDING_DIM ∧ Forall f64_valid (embedding c);
  co_dim : embedding_dim c = RAG_EMBEDDING_DIM;
}.

Lemma read_chunk_enc c s : chunk_ok c → read_chunk (enc_chunk c ++ s) = Some (c, s).
Proof.
  intros [[Hd Hdl] [Hs Hsl] Ht [He Hv] Hdim]. unfold read_chunk, enc_chunk.
  repeat rewrite <- app_assoc. rewrite read_text_enc by (done || vm_compute; done). cbn [mbind option_bind].
  repeat rewrite <- app_assoc. rewrite read_text_enc by (done || vm_compute; done). cbn [mbind option_bind].
  rewrite read_u64_bytes by done. cbn [mbind option_bind].
  change (?x :: ?l) with ([x] ++ l).
  rewrite (read_n_app [if has_embedding c then 1 else 0]). cbn [mbind option_bind].
  rewrite <- He, read_doubles_enc by done. cbn [mbind option_bind].
  destruct c as [d sr t e dim h]. cbn in *. subst dim. by destruct h; rewrite He.
Qed.

Lemma read_chunks_enc l i s rows :
  Forall chunk_ok l → (i + length l ≤ length rows)%nat →
  read_chunks (length l) i (flat_map enc_chunk l ++ s) rows = Some (take i rows ++ l ++ drop (i + length l) rows).
Proof.
  intros Hl. revert i rows. induction Hl as [|c l Hc _ IH]; intros i rows Hi; cbn [length flat_map read_chunks].
  { by rewrite Nat.add_0_r, app_nil_l, take_drop. }
  rewrite <- app_assoc, read_chunk_enc by done. cbn [mbind option_bind]. cbn [length] in Hi.
  rewrite IH by (rewrite length_insert; lia).
  rewrite take_insert_push, drop_insert_lt by lia.
  rewrite <- app_assoc. cbn [app]. by replace (S i + length l)%nat with (i + S (length l))%nat by lia.
Qed.

Record rag_inv (idx : rag_index_t) : Prop := {
  ri_slots : length (chunks idx) = RAG_MAX_CHUNKS;
  ri_count : (idx_count idx ≤ RAG_MAX_CHUNKS)%nat;
  ri_rows : Forall chunk_ok (live_chunks idx);
}.

(** C38: Saving an index of up to 256 chunks to a file that opens, and loading
    it into an index with all its 256 rows, gives back the same documents with
    their sources, times and embeddings, bit by bit. The texts end inside
    their arrays, the times fit 64 bits and the embeddings are full rows of
    doubles. *)
Theorem rag_file_roundtrip idx idx0 :
  rag_inv idx → length (chunks idx0) = RAG_MAX_CHUNKS →
  ∃ bytes idx', rag_index_save true idx = (0, Some bytes) ∧
    rag_index_load idx0 (Some bytes) = Some (idx', 0) ∧ live_chunks idx' = live_chunks idx.
Proof.
  intros [Hs Hc Hr] H0. eexists _, _. split; [done|]. unfold rag_index_load.
  rewrite read_u64_bytes by (unfold RAG_MAX_CHUNKS in *; lia).
  rewrite (proj2 (Z.ltb_ge _ _)) by lia. rewrite Nat2Z.id.
  assert (length (live_chunks idx) = idx_count idx) as Hlen.
  { unfold live_chunks. rewrite length_take. lia. }
  rewrite <- (app_nil_r (flat_map _ _)). rewrite <- Hlen at 1.
  rewrite read_chunks_enc by (done || lia). cbn [mbind option_bind]. split; [done|].
  unfold live_chunks at 1. cbn [chunks idx_count]. rewrite take_0, app_nil_l.
  by rewrite take_app_length' by done.
Qed.

(** An index of three documents. *)
Definition index_ex : rag_index_t :=
  (rag_index_add 3 (rag_index_add 2 (rag_index_add 1 rag_index_init (lit "alpha") (Some (lit "a.txt"))).1
     (lit "beta") None).1 (lit "gamma") (Some (lit "c.txt"))).1.

Definition chunk_okb (c : rag_chunk_t) : bool :=
  forallb (λ b, (0 <? b) && (b <? 256)) (document c) && (length (document c) <? DOCUMENT_LEN)%nat &&
  forallb (λ b, (0 <? b) && (b <? 256)) (source c) && (length (source c) <? SOURCE_LEN)%nat &&
  (0 <=? rc_timestamp c) && (rc_timestamp c <? 2 ^ 64) &&
  (length (embedding c) =? RAG_EMBEDDING_DIM)%nat && forallb (valid_binary 53 1024) (embedding c) &&
  (embedding_dim c =? RAG_EMBEDDING_DIM)%nat.

Lemma wf_cstr_forallb s : forallb (λ b, (0 <? b) && (b <? 256)) s = true → wf_cstr s.
Proof. rewrite forallb_forall. intros H. apply Forall_forall. intros b Hb%list_elem_of_In%H. bsplit. lia. Qed.

Lemma chunk_okb_ok c : chunk_okb c = true → chunk_ok c.
Proof.
  unfold chunk_okb. intros H. bsplit.
  repeat match goal with H : (_ =? _)%nat = true |- _ => apply Nat.eqb_eq in H end.
  split; [split|split|lia|split|]; try done; try (by apply wf_cstr_forallb).
  apply Forall_forall. intros x Hx%list_elem_of_In. unfold f64_valid.
  match goal with H : forallb (valid_binary _ _) _ = true |- _ => rewrite forallb_forall in H; by apply H end.
Qed.

Lemma index_ex_inv : rag_inv index_ex.
Proof.
  split; [by_eval | vm_compute; lia |]. apply Forall_forall. intros c Hc%list_elem_of_In. apply chunk_okb_ok.
  revert c Hc. apply forallb_forall. by_eval.
Qed.

Lemma rag_file_roundtrip_witness :
  ∃ bytes idx', rag_index_save true index_ex = (0, Some bytes) ∧
    rag_index_load rag_index_init (Some bytes) = Some (idx', 0) ∧ live_chunks idx' = live_chunks index_ex.
Proof. apply rag_file_roundtrip; [apply index_ex_inv | reflexivity]. Defined.

Lemma rag_search_best_witness :
  ∃ sorted r', rag_index_search index_ex (rag_compute_embedding (lit "beta")) 2
      (mk_result (replicate 10 []) 0 (replicate 10 f64_zero)) = Some (r', 0) ∧
    Permutation (scores_of (rag_compute_embedding (lit "beta")) index_ex) sorted ∧
    StronglySorted (ranked snd) sorted ∧
    r_chunk_count r' = Nat.min 2 (length (scores_of (rag_compute_embedding (lit "beta")) index_ex)) ∧
    take (r_chunk_count r') (r_chunks r') = map (λ p, result_text index_ex p.1) (take 2 sorted) ∧
    take (r_chunk_count r') (r_scores r') = map snd (take 2 sorted) ∧
    Forall (λ p, Forall (λ p', ranked snd p p') (drop 2 sorted)) (take 2 sorted).
Proof.
  apply rag_search_best; [vm_compute; lia | vm_compute; lia |].
  apply Forall_forall. intros p Hp%list_elem_of_In. apply negb_true_iff. revert p Hp.
  apply (forallb_forall (λ p, negb (is_nan p.2))). vm_compute. reflexivity.
Defined.
