(* ===== verification/Sqlite.v ===== *)
(** * The database interface

    [src/memory/memory.c] and [src/muninn/muninn.c] keep their data in SQLite.
    The library is not part of the repository: it is the class [Sqlite] here,
    with one operation per call pattern of the program.  A database handle is a
    state [D] that every call takes and returns.  A statement is its text and
    the values bound to its parameters; running it gives the rows that
    [sqlite3_step] delivers and whether it ended with [SQLITE_DONE]. *)
From S2P Require Import Prelude Floats.

Inductive sqlval :=
  | SNull
  | SInt (z : Z)
  | SReal (x : f64)
  | SText (s : cstr).

Abbreviation row := (list sqlval).

Class Sqlite (D : Type) := {
  (** [sqlite3_open]; [None] when it fails. *)
  db_open : cstr → option D;
  (** [sqlite3_prepare_v2(...) == SQLITE_OK]. *)
  db_prepare : D → cstr → bool;
  (** [sqlite3_step] until it stops returning [SQLITE_ROW]. *)
  db_step : D → cstr → list sqlval → D * list row * bool;
  (** [sqlite3_exec]; [false] when it reports an error. *)
  db_exec : D → cstr → D * bool;
  db_last_rowid : D → Z;
  (** Conversions of a column that holds another type. *)
  db_real_text : f64 → cstr;
  db_cast_int : sqlval → Z;
  db_cast_real : sqlval → f64;
}.

Section columns.
Context {D : Type} `{Sqlite D}.

Definition column (r : row) (i : nat) : sqlval := nth i r SNull.

(** [sqlite3_column_text]: [None] is NULL. *)
Definition column_text (r : row) (i : nat) : option cstr :=
  match column r i with
  | SNull => None
  | SInt z => Some (fmt_dec z)
  | SReal x => Some (db_real_text x)
  | SText s => Some s
  end.

Definition column_int64 (r : row) (i : nat) : Z :=
  match column r i with SNull => 0 | SInt z => z | v => db_cast_int v end.

Definition column_int (r : row) (i : nat) : Z := s32 (column_int64 r i).

Definition column_double (r : row) (i : nat) : f64 :=
  match column r i with SNull => f64_zero | SReal x => x | SInt z => f64_of_Z z | v => db_cast_real v end.
End columns.
