(* ===== verification/Muninn.v ===== *)
(** * The engram store of [src/muninn/muninn.c]

    Engrams in a table with a full-text index; [muninn_activate] collects
    candidates, ranks them by recency and use, returns the best ones and
    records the access.  The database is the interface of [Sqlite]; [exp] is
    the function of the C library. *)
From stdpp Require Import gmap.
From S2P Require Import Prelude Buffers Floats Sorting Sqlite.
From Stdlib Require Import Sorting.Permutation.

Definition MUNINN_CONCEPT_MAX : nat := 512.
Definition MUNINN_CONTENT_MAX : nat := Z.to_nat 16384.
Definition MUNINN_VAULT_MAX : nat := 128.
Definition MUNINN_ID_MAX : nat := 32.
Definition MUNINN_TAG_MAX : nat := 8.
Definition MUNINN_TAG_LEN : nat := 64.
Definition MUNINN_ACTIVATE_MAX : nat := 64.
Definition MUNINN_DEFAULT_VAULT : cstr := lit "default".
Definition MAX_ACTIVATE_CANDIDATES : nat := 256.

Inductive muninn_state_t :=
  | MUNINN_STATE_ACTIVE | MUNINN_STATE_ARCHIVED | MUNINN_STATE_SOFT_DELETED
  | MUNINN_STATE_PAUSED | MUNINN_STATE_COMPLETED | MUNINN_STATE_CANCELLED.

Definition muninn_state_code (s : muninn_state_t) : Z :=
  match s with
  | MUNINN_STATE_ACTIVE => 0 | MUNINN_STATE_ARCHIVED => 1 | MUNINN_STATE_SOFT_DELETED => 2
  | MUNINN_STATE_PAUSED => 3 | MUNINN_STATE_COMPLETED => 4 | MUNINN_STATE_CANCELLED => 5
  end.

(** State and type are the integers of the row, cast to their enums. *)
Record muninn_engram_t := mk_engram {
  eg_id : cstr;
  eg_vault : cstr;
  eg_concept : cstr;
  eg_content : cstr;
  eg_confidence : f64;
  eg_access_count : Z;
  eg_last_access_sec : Z;
  eg_created_sec : Z;
  eg_state : Z;
  eg_type : Z;
  eg_tags : list cstr;
}.

Record muninn_t {D : Type} := mk_muninn { mu_db : option D; mu_path : cstr; mu_initialized : bool }.
Arguments muninn_t D : clear implicits.
Arguments mk_muninn {D}.

(** ** Statements *)

Definition ENGRAM_COLUMNS : cstr :=
  lit "SELECT id, vault, concept, content, confidence, access_count, last_access_sec, created_sec, state, type, tags FROM muninn_engrams".

Definition SCHEMA_SQL : cstr :=
  lit "CREATE TABLE IF NOT EXISTS muninn_engrams (  id INTEGER PRIMARY KEY AUTOINCREMENT,  vault TEXT NOT NULL,  concept TEXT NOT NULL,  content TEXT NOT NULL,  confidence REAL NOT NULL DEFAULT 0.8,  access_count INTEGER NOT NULL DEFAULT 0,  last_access_sec INTEGER NOT NULL DEFAULT 0,  created_sec INTEGER NOT NULL,  state INTEGER NOT NULL DEFAULT 0,  type INTEGER NOT NULL DEFAULT 0,  tags TEXT);CREATE INDEX IF NOT EXISTS idx_muninn_vault ON muninn_engrams(vault);CREATE INDEX IF NOT EXISTS idx_muninn_last_access ON muninn_engrams(last_access_sec);CREATE VIRTUAL TABLE IF NOT EXISTS muninn_fts USING fts5(concept, content, content='muninn_engrams', content_rowid='id');".
Definition TRIGGER_SQL : cstr :=
  lit "CREATE TRIGGER IF NOT EXISTS muninn_ai AFTER INSERT ON muninn_engrams BEGIN   INSERT INTO muninn_fts(rowid, concept, content) VALUES (new.id, new.concept, new.content); END;CREATE TRIGGER IF NOT EXISTS muninn_ad AFTER DELETE ON muninn_engrams BEGIN   INSERT INTO muninn_fts(muninn_fts, rowid, concept, content) VALUES('delete', old.id, old.concept, old.content); END;CREATE TRIGGER IF NOT EXISTS muninn_au AFTER UPDATE ON muninn_engrams BEGIN   INSERT INTO muninn_fts(muninn_fts, rowid, concept, content) VALUES('delete', old.id, old.concept, old.content);   INSERT INTO muninn_fts(rowid, concept, content) VALUES (new.id, new.concept, new.content); END;".
Definition ASSOC_SQL : cstr :=
  lit "CREATE TABLE IF NOT EXISTS muninn_associations (  from_id INTEGER NOT NULL,  to_id INTEGER NOT NULL,  weight REAL NOT NULL DEFAULT 0.1,  PRIMARY KEY (from_id, to_id),  CHECK (from_id != to_id));".
Definition WRITE_SQL : cstr :=
  lit "INSERT INTO muninn_engrams (vault, concept, content, confidence, access_count, last_access_sec, created_sec, state, type, tags) VALUES (?1,?2,?3,0.8,0,?4,?5,0,0,?6)".
Definition READ_SQL : cstr := ENGRAM_COLUMNS ++ lit " WHERE id = ?1 AND vault = ?2 AND (state = 0 OR state = 4)".
Definition FTS_SQL : cstr := lit "SELECT rowid FROM muninn_fts WHERE muninn_fts MATCH ? LIMIT 256".
Definition FALLBACK_SQL : cstr :=
  lit "SELECT id FROM muninn_engrams WHERE vault = ?1 AND (state = 0 OR state = 4) ORDER BY last_access_sec DESC, access_count DESC LIMIT 256".
Definition ROW_SQL : cstr := ENGRAM_COLUMNS ++ lit " WHERE id = ?1 AND vault = ?2".
Definition LOAD_SQL : cstr := ENGRAM_COLUMNS ++ lit " WHERE id = ?1".
Definition ACCESS_SQL : cstr :=
  lit "UPDATE muninn_engrams SET access_count = access_count + 1, last_access_sec = ?1 WHERE id = ?2".
Definition HEBBIAN_SQL : cstr :=
  lit "INSERT INTO muninn_associations (from_id, to_id, weight) VALUES (?1,?2,0.0200) ON CONFLICT(from_id, to_id) DO UPDATE SET weight = MIN(1.00, weight + 0.0200)".
Definition RECORD_SQL : cstr := ACCESS_SQL ++ lit " AND vault = ?3".
Definition REINFORCE_SQL : cstr := lit "UPDATE muninn_engrams SET confidence = MIN(1.0, confidence + ?1) WHERE id = ?2".
Definition CONTRADICT_SQL : cstr := lit "UPDATE muninn_engrams SET confidence = MAX(0.0, confidence - 0.1) WHERE id = ?1".
Definition SOFT_DELETE_SQL : cstr := lit "UPDATE muninn_engrams SET state = 2 WHERE id = ?1 AND vault = ?2".
Definition VAULTS_SQL : cstr := lit "SELECT DISTINCT vault FROM muninn_engrams ORDER BY vault".

(** ** Tags *)

Definition is_comma (b : Z) : bool := b =? 44.
Definition is_blank (b : Z) : bool := (b =? 32) || (b =? 9).

Definition TAGS_BUF : nat := MUNINN_TAG_MAX * (MUNINN_TAG_LEN + 2).

(** The comma is appended without a test for room: [None]. *)
Fixpoint join_tags (first : bool) (tags : list cstr) (buf : cstr) : option cstr :=
  match tags with
  | [] => Some buf
  | t :: tags' =>
      buf ← (if first then Some buf
             else if (length buf + 1 <? TAGS_BUF)%nat then Some (buf ++ [44]) else None);
      join_tags false tags' (strncat_fit TAGS_BUF buf t)
  end.

Definition tags_text (tags : list cstr) : option cstr := join_tags true (take MUNINN_TAG_MAX tags) [].

Definition split_tags (text : cstr) : list cstr :=
  map (λ t, snprintf_s MUNINN_TAG_LEN (rstrip is_blank t))
    (take MUNINN_TAG_MAX (strtok_fields is_comma (snprintf_s 512 text))).

Section muninn.
Context {D : Type} `{Sqlite D} (exp : f64 → f64).
Implicit Types (d : D) (m : muninn_t D).

(** ** Opening *)

(** The association table is optional when SQLite reports no message. *)
Definition schema_init (silent : bool) (d : D) : D * bool :=
  let '(d, ok) := db_exec d SCHEMA_SQL in
  if negb ok then (d, false)
  else
    let '(d, ok) := db_exec d TRIGGER_SQL in
    if negb ok then (d, false)
    else let '(d, ok) := db_exec d ASSOC_SQL in (d, ok || silent).

Definition muninn_init (silent : bool) (path : cstr) : muninn_t D * Z :=
  match db_open path with
  | None => (mk_muninn None (snprintf_s 512 path) false, -1)
  | Some d =>
      let '(d, ok) := schema_init silent d in
      if ok then (mk_muninn (Some d) (snprintf_s 512 path) true, 0)
      else (mk_muninn None (snprintf_s 512 path) false, -1)
  end.

Definition muninn_free (m : muninn_t D) : muninn_t D := mk_muninn None (mu_path m) false.

Definition engram_from_row (r : row) (rowid : Z) : muninn_engram_t :=
  let text i n := match column_text r i with Some v => snprintf_s n v | None => [] end in
  mk_engram (snprintf_s MUNINN_ID_MAX (fmt_dec rowid)) (text 1%nat MUNINN_VAULT_MAX)
    (text 2%nat MUNINN_CONCEPT_MAX) (text 3%nat MUNINN_CONTENT_MAX) (f64_to_float (column_double r 4))
    (u32 (column_int r 5)) (u64 (column_int64 r 6)) (u64 (column_int64 r 7)) (column_int r 8) (column_int r 9)
    (match column_text r 10 with Some t => split_tags t | None => [] end).

(** ** Single statements *)

(** Prepare, bind, one step, finalize: the result is the test for
    [SQLITE_DONE]. *)
Definition run_update (d : D) (sql : cstr) (args : list sqlval) : D * Z :=
  if negb (db_prepare d sql) then (d, -1)
  else let '(d, _, done) := db_step d sql args in (d, if done then 0 else -1).

Definition with_db (m : muninn_t D) (f : D → D * Z) : muninn_t D * Z :=
  match mu_db m with
  | None => (m, -1)
  | Some d => let '(d, r) := f d in (mk_muninn (Some d) (mu_path m) (mu_initialized m), r)
  end.

(** The identifier of the new engram; outer [None]: the tags overrun their
    buffer. *)
Definition muninn_write (now : Z) (m : muninn_t D) (vault concept content : cstr) (tags : list cstr)
    (id_size : nat) : option (muninn_t D * option cstr) :=
  match mu_db m with
  | None => Some (m, None)
  | Some d =>
      if (id_size =? 0)%nat then Some (m, None)
      else if negb (db_prepare d WRITE_SQL) then Some (m, None)
      else
        t ← tags_text tags;
        let '(d, _, done) :=
          db_step d WRITE_SQL [SText vault; SText concept; SText content; SInt (s64 now); SInt (s64 now); SText t] in
        let m := mk_muninn (Some d) (mu_path m) (mu_initialized m) in
        Some (m, if done then Some (snprintf_s id_size (fmt_dec (db_last_rowid d))) else None)
  end.

Definition muninn_read (m : muninn_t D) (vault id : cstr) : muninn_t D * option muninn_engram_t :=
  match mu_db m with
  | None => (m, None)
  | Some d =>
      if negb (db_prepare d READ_SQL) then (m, None)
      else
        let '(d, rows, _) := db_step d READ_SQL [SText id; SText vault] in
        (mk_muninn (Some d) (mu_path m) (mu_initialized m),
         match rows with r :: _ => Some (engram_from_row r (column_int64 r 0)) | [] => None end)
  end.

Definition muninn_record_access (now : Z) (m : muninn_t D) (vault id : cstr) : muninn_t D * Z :=
  with_db m (λ d, run_update d RECORD_SQL [SInt (s64 now); SText id; SText vault]).

Definition muninn_reinforce (m : muninn_t D) (id : cstr) (delta : f64) : muninn_t D * Z :=
  with_db m (λ d, run_update d REINFORCE_SQL [SReal delta; SText id]).

Definition muninn_contradict (m : muninn_t D) (id : cstr) : muninn_t D * Z :=
  with_db m (λ d, run_update d CONTRADICT_SQL [SText id]).

Definition muninn_soft_delete (m : muninn_t D) (vault id : cstr) : muninn_t D * Z :=
  with_db m (λ d, run_update d SOFT_DELETE_SQL [SText id; SText vault]).

(** A vault that is NULL leaves its row as it was. *)
Definition muninn_list_vaults (m : muninn_t D) (before : list cstr) (max_count : nat)
    : muninn_t D * option (list cstr) :=
  match mu_db m with
  | None => (m, None)
  | Some d =>
      if negb (db_prepare d VAULTS_SQL) then (m, None)
      else
        let '(d, rows, _) := db_step d VAULTS_SQL [] in
        (mk_muninn (Some d) (mu_path m) (mu_initialized m),
         Some (imap (λ i r, match column_text r 0 with
                            | Some v => snprintf_s MUNINN_VAULT_MAX v
                            | None => nth i before []
                            end) (take max_count rows)))
  end.

(** ** Activation *)

Definition temporal_priority (access_count last now : Z) : f64 :=
  let last := if last =? 0 then now else last in
  let days_ago := f64_div (f64_of_Z (u64 (now - last))) (f64_of_Z 86400) in
  let decay := exp (f64_div (f64_mul (f64_const (-693) 1000) days_ago) (f64_of_Z 7)) in
  f64_mul (f64_of_Z (u32 (1 + access_count))) decay.

Definition row_score (now : Z) (r : row) : f64 :=
  f64_mul (temporal_priority (u32 (column_int r 5)) (u64 (column_int64 r 6)) now)
          (f64_to_float (column_double r 4)).

(** One execution of a prepared query per identifier; [f] sees the first row. *)
Fixpoint query_each {A} (sql : cstr) (args : Z → list sqlval) (f : Z → row → A) (ids : list Z) (d : D)
    : D * list A :=
  match ids with
  | [] => (d, [])
  | i :: ids' =>
      let '(d, rows, _) := db_step d sql (args i) in
      let '(d, l) := query_each sql args f ids' d in
      (d, match rows with r :: _ => f i r :: l | [] => l end)
  end.

Fixpoint step_each {A} (sql : cstr) (args : A → list sqlval) (l : list A) (d : D) : D :=
  match l with
  | [] => d
  | x :: l' => step_each sql args l' (db_step d sql (args x)).1.1
  end.

(** The ordered pairs of different identifiers, in the order of the loops. *)
Definition id_pairs (ids : list Z) : list (Z * Z) :=
  flat_map (λ i, flat_map (λ j, if i =? j then [] else [(i, j)]) ids) ids.

(** The identifiers the first query, or the fallback, delivers; [inr]: the
    function returns here, with that value. *)
Definition candidates (d : D) (vault context : cstr) : D * (list Z + Z) :=
  if negb (db_prepare d FTS_SQL) then (d, inr (-1))
  else
    let '(d, rows, _) := db_step d FTS_SQL [SText context] in
    match (λ r, column_int64 r 0) <$> take MAX_ACTIVATE_CANDIDATES rows with
    | [] =>
        if negb (db_prepare d FALLBACK_SQL) then (d, inr 0)
        else
          let '(d, rows, _) := db_step d FALLBACK_SQL [SText vault] in
          (d, inl ((λ r, column_int64 r 0) <$> take MAX_ACTIVATE_CANDIDATES rows))
    | ids => (d, inl ids)
    end.

Definition top_of (top_n : nat) : nat :=
  if (top_n =? 0)%nat || (MUNINN_ACTIVATE_MAX <? top_n)%nat then MUNINN_ACTIVATE_MAX else top_n.

(** Recording the access and strengthening the associations. *)
Definition record_returned (now : Z) (ids : list Z) (d : D) : D :=
  let d := if db_prepare d ACCESS_SQL then step_each ACCESS_SQL (λ i, [SInt (s64 now); SInt i]) ids d else d in
  if (2 <=? length ids)%nat && db_prepare d HEBBIAN_SQL
  then step_each HEBBIAN_SQL (λ '(i, j), [SInt i; SInt j]) (id_pairs ids) d else d.

Definition rank_candidates (now : Z) (vault : cstr) (ids : list Z) (d : D) : D * list (Z * f64) :=
  let '(d, scored) := query_each ROW_SQL (λ i, [SInt i; SText vault]) (λ i r, (i, row_score now r)) ids d in
  (d, insertion_sort snd scored).

(** [cap] is the number of rows of [results].  The outer [None] is a store
    behind them; the result code, and the engrams returned. *)
Definition muninn_activate (now : Z) (m : muninn_t D) (vault context : cstr) (top_n cap : nat)
    : option (muninn_t D * Z * list muninn_engram_t) :=
  match mu_db m with
  | None => Some (m, -1, [])
  | Some d =>
      let m d := mk_muninn (Some d) (mu_path m) (mu_initialized m) in
      match candidates d vault context with
      | (d, inr r) => Some (m d, r, [])
      | (d, inl ids) =>
          if negb (db_prepare d ROW_SQL) then Some (m d, -1, [])
          else
            let '(d, scored) := rank_candidates now vault ids d in
            let n := if (top_of top_n <? length scored)%nat then top_of top_n else length scored in
            if negb (db_prepare d LOAD_SQL) then Some (m d, -1, [])
            else
              let '(d, found) := query_each LOAD_SQL (λ i, [SInt i]) (λ i r, (i, engram_from_row r i))
                                   (fst <$> take n scored) d in
              if (cap <? length found)%nat then None
              else Some (m (record_returned now (fst <$> found) d), 0, snd <$> found)
      end
  end.
End muninn.

(** ** Tags round trip *)

Definition tag_ok (t : cstr) : Prop :=
  t ≠ [] ∧ (length t < MUNINN_TAG_LEN)%nat ∧ Forall (λ b, b ≠ 44) t ∧ rstrip is_blank t = t.

Fixpoint comma_rest (tags : list cstr) : cstr :=
  match tags with
  | [] => []
  | t :: tags' => 44 :: t ++ comma_rest tags'
  end.

Fixpoint comma_join (tags : list cstr) : cstr :=
  match tags with
  | [] => []
  | [t] => t
  | t :: tags' => t ++ [44] ++ comma_join tags'
  end.

Lemma join_tags_fits tags buf :
  (length buf + length (comma_rest tags) < TAGS_BUF)%nat →
  join_tags false tags buf = Some (buf ++ comma_rest tags).
Proof.
  revert buf. induction tags as [|t tags IH]; intros buf Hlen; cbn [join_tags comma_rest] in *.
  { by rewrite app_nil_r. }
  cbn [length] in Hlen. rewrite length_app in Hlen.
  rewrite (proj2 (Nat.ltb_lt _ _)) by lia. cbn [mbind option_bind].
  rewrite strncat_fit_exact by (rewrite length_app; cbn [length]; lia).
  rewrite IH by (rewrite !length_app; cbn [length]; lia). by rewrite <- !app_assoc.
Qed.

Lemma comma_join_cons t tags : comma_join (t :: tags) = t ++ comma_rest tags.
Proof.
  revert t. induction tags as [|u tags IH]; intros t; [by cbn; rewrite app_nil_r|].
  change (comma_join (t :: u :: tags)) with (t ++ [44] ++ comma_join (u :: tags)). by rewrite IH.
Qed.

Lemma tags_text_join tags :
  (length tags ≤ MUNINN_TAG_MAX)%nat → (length (comma_join tags) < TAGS_BUF)%nat →
  tags_text tags = Some (comma_join tags).
Proof.
  intros Hn Hlen. unfold tags_text. rewrite take_ge by done. destruct tags as [|t tags]; [done|].
  rewrite comma_join_cons in *. cbn [join_tags mbind option_bind]. rewrite length_app in Hlen.
  rewrite strncat_fit_exact by (simpl; lia). cbn [app]. by rewrite join_tags_fits by (rewrite ?length_app; lia).
Qed.

Lemma strtok_all_skip delim cur s t :
  Forall (λ b, delim b = false) t → strtok_all delim cur (t ++ s) = strtok_all delim (reverse t ++ cur) s.
Proof.
  intros Ht. revert cur. induction Ht as [|b t Hb _ IH]; intros cur; [done|].
  cbn [app strtok_all]. rewrite Hb, IH. by rewrite reverse_cons, <- app_assoc.
Qed.

Lemma strtok_comma_join tags :
  Forall (λ t, t ≠ [] ∧ Forall (λ b, b ≠ 44) t) tags → strtok_fields is_comma (comma_join tags) = tags.
Proof.
  assert (∀ t, Forall (λ b, b ≠ 44) t → Forall (λ b, is_comma b = false) t) as Hc.
  { intros t Ht. eapply Forall_impl; [exact Ht|]. intros b Hb. by apply Z.eqb_neq. }
  induction 1 as [|t tags [Hne Ht] Hts IH]; [done|]. unfold strtok_fields in *. rewrite comma_join_cons.
  rewrite strtok_all_skip by auto. rewrite app_nil_r.
  destruct (reverse t) as [|b r] eqn:Er.
  { apply (f_equal reverse) in Er. rewrite reverse_involutive in Er. done. }
  destruct tags as [|u tags]; cbn [comma_rest strtok_all app].
  - by rewrite <- Er, reverse_involutive.
  - change (is_comma 44) with true. cbn iota. rewrite <- Er, reverse_involutive. f_equal.
    rewrite comma_join_cons in IH. done.
Qed.

Lemma muninn_tags_text tags :
  Forall tag_ok tags → (length tags ≤ MUNINN_TAG_MAX)%nat → (length (comma_join tags) < 512)%nat →
  tags_text tags = Some (comma_join tags) ∧ split_tags (comma_join tags) = tags.
Proof.
  intros Hok Hn Hlen.
  split; [apply tags_text_join; [done|unfold TAGS_BUF, MUNINN_TAG_MAX, MUNINN_TAG_LEN; lia]|].
  unfold split_tags. rewrite snprintf_s_id by lia. rewrite strtok_comma_join.
  - rewrite take_ge by done. rewrite <- (map_id tags) at 2. apply map_ext_in. intros t Ht%list_elem_of_In.
    rewrite Forall_forall in Hok. destruct (Hok t Ht) as (_ & Hl & _ & ->). by apply snprintf_s_id.
  - eapply Forall_impl; [exact Hok|]. intros t (H1 & _ & H2 & _). done.
Qed.

(** Tags that are short and contain neither commas nor trailing blanks come
    back from the text they are stored as. *)
Theorem muninn_tags_roundtrip tags :
  Forall tag_ok tags → (length tags ≤ MUNINN_TAG_MAX)%nat → (length (comma_join tags) < 512)%nat →
  ∃ text, tags_text tags = Some text ∧ split_tags text = tags.
Proof. intros Hok Hn Hlen. destruct (muninn_tags_text tags Hok Hn Hlen). eauto. Qed.

Lemma muninn_tags_roundtrip_witness :
  ∃ text, tags_text [lit "rust"; lit "open source"] = Some text ∧ split_tags text = [lit "rust"; lit "open source"].
Proof.
  apply muninn_tags_roundtrip; [|vm_compute; lia|vm_compute; lia].
  repeat constructor; vm_compute; try done; lia.
Defined.

(** A first tag that fills the buffer makes the comma after it overrun. *)
Example tags_text_overflow : tags_text [replicate 600 97; lit "b"] = None.
Proof. by_eval. Qed.

(** ** Activation, whatever the database answers *)

Lemma id_pairs_spec ids i j : (i, j) ∈ id_pairs ids ↔ i ∈ ids ∧ j ∈ ids ∧ i ≠ j.
Proof.
  unfold id_pairs. rewrite list_elem_of_In, in_flat_map. setoid_rewrite in_flat_map.
  setoid_rewrite <- list_elem_of_In. split.
  - intros (x & Hx & y & Hy & H). destruct (x =? y) eqn:E; bsplit; [by apply elem_of_nil in H|].
    apply list_elem_of_singleton in H. by simplify_eq.
  - intros (Hi & Hj & Hne). exists i. split; [done|]. exists j. split; [done|].
    rewrite (proj2 (Z.eqb_neq i j)) by done. by apply list_elem_of_singleton.
Qed.

Section activation.
Context {D : Type} `{Sqlite D} (exp : f64 → f64).

Lemma query_each_length {A} sql args (f : Z → row → A) ids d :
  (length (query_each sql args f ids d).2 ≤ length ids)%nat.
Proof.
  revert d. induction ids as [|i ids IH]; intros d; cbn [query_each]; [done|].
  destruct (db_step d sql (args i)) as [[d1 rows] ok]. specialize (IH d1).
  destruct (query_each sql args f ids d1) as [d2 l]. cbn [snd] in *. destruct rows; simpl; lia.
Qed.

(** The answers keep the order of the questions. *)
Lemma query_each_sublist {A} sql args (f : Z → row → A) (key : A → Z) ids d :
  (∀ i r, key (f i r) = i) → key <$> (query_each sql args f ids d).2 `sublist_of` ids.
Proof.
  intros Hk. revert d. induction ids as [|i ids IH]; intros d; cbn [query_each]; [done|].
  destruct (db_step d sql (args i)) as [[d1 rows] ok]. specialize (IH d1).
  destruct (query_each sql args f ids d1) as [d2 l]. cbn [snd] in *.
  destruct rows as [|r rows]; [by apply sublist_cons|]. rewrite fmap_cons, Hk. by apply sublist_skip.
Qed.

Lemma candidates_length (d : D) vault context d' ids :
  candidates d vault context = (d', inl ids) → (length ids ≤ MAX_ACTIVATE_CANDIDATES)%nat.
Proof.
  unfold candidates. case_if; [done|]. destruct (db_step d FTS_SQL _) as [[d1 rows] ok].
  destruct ((λ r : row, column_int64 r 0) <$> take _ rows) as [|i l] eqn:E.
  - case_if; [done|]. destruct (db_step d1 FALLBACK_SQL _) as [[d2 rows2] ok2]. intros [= <- <-].
    rewrite length_fmap, length_take. lia.
  - intros [= <- <-]. rewrite <- E, length_fmap, length_take. lia.
Qed.

Lemma rank_candidates_length now vault ids (d : D) :
  (length (rank_candidates exp now vault ids d).2 ≤ length ids)%nat.
Proof.
  unfold rank_candidates. pose proof (query_each_length ROW_SQL (λ i, [SInt i; SText vault])
    (λ i r, (i, row_score exp now r)) ids d) as Hl.
  destruct (query_each _ _ _ ids d) as [d1 scored]. cbn [snd] in *.
  by rewrite <- (Permutation_length (insertion_sort_perm snd scored)).
Qed.

(** The calls that return early have no engrams. *)
Ltac no_answer :=
  eexists _, _, [], []; split_and!; [reflexivity | simpl; lia | simpl; lia | by rewrite take_nil | by intros [|?]].

Lemma activate_bounded now m vault context top_n cap :
  (top_of top_n ≤ cap)%nat →
  ∃ m' r out scored, muninn_activate exp now m vault context top_n cap = Some (m', r, out) ∧
    (length out ≤ top_of top_n)%nat ∧ (length scored ≤ MAX_ACTIVATE_CANDIDATES)%nat ∧
    (eg_id <$> out) `sublist_of` ((λ p, snprintf_s MUNINN_ID_MAX (fmt_dec p.1)) <$> take (top_of top_n) scored) ∧
    (∀ i a b, scored !! i = Some a → scored !! S i = Some b → ranked snd a b).
Proof.
  intros Hcap. unfold muninn_activate. destruct (mu_db m) as [d|]; [|no_answer].
  destruct (candidates d vault context) as [d1 [ids|r]] eqn:Ec; [|no_answer].
  destruct (db_prepare d1 ROW_SQL); cbn [negb]; [|no_answer].
  pose proof (candidates_length _ _ _ _ _ Ec) as Hids.
  pose proof (rank_candidates_length now vault ids d1) as Hlen.
  assert (∀ i a b, (rank_candidates exp now vault ids d1).2 !! i = Some a →
    (rank_candidates exp now vault ids d1).2 !! S i = Some b → ranked snd a b) as Hs.
  { unfold rank_candidates. destruct (query_each _ _ _ ids d1). cbn [snd]. apply insertion_sort_sorted. }
  destruct (rank_candidates exp now vault ids d1) as [d2 scored]. cbn [snd] in *.
  set (n := if (top_of top_n <? length scored)%nat then _ else _).
  assert (n = Nat.min (top_of top_n) (length scored)) as Hn.
  { subst n. destruct (top_of top_n <? length scored)%nat eqn:E; bsplit; lia. }
  destruct (db_prepare d2 LOAD_SQL); cbn [negb]; [|no_answer].
  pose proof (query_each_length LOAD_SQL (λ i, [SInt i]) (λ i r, (i, engram_from_row r i)) (fst <$> take n scored) d2) as Hl.
  pose proof (query_each_sublist LOAD_SQL (λ i, [SInt i]) (λ i r, (i, engram_from_row r i)) fst
    (fst <$> take n scored) d2 ltac:(done)) as Hsub.
  assert (Forall (λ p, eg_id p.2 = snprintf_s MUNINN_ID_MAX (fmt_dec p.1))
    (query_each LOAD_SQL (λ i, [SInt i]) (λ i r, (i, engram_from_row r i)) (fst <$> take n scored) d2).2) as Hid.
  { clear. revert d2. induction (fst <$> take n scored) as [|i l IH]; intros d2; cbn [query_each]; [constructor|].
    destruct (db_step d2 LOAD_SQL [SInt i]) as [[d3 rows] ok]. specialize (IH d3).
    destruct (query_each _ _ _ l d3) as [d4 l']. cbn [snd] in *. destruct rows; [done|by constructor]. }
  destruct (query_each LOAD_SQL _ _ _ d2) as [d3 found]. cbn [snd] in *.
  rewrite length_fmap, length_take in Hl.
  rewrite (proj2 (Nat.ltb_ge cap _)) by lia.
  eexists _, _, _, scored. split; [done|]. rewrite length_fmap. split; [lia|]. split; [lia|]. split; [|done].
  assert (take n scored = take (top_of top_n) scored) as <-.
  { rewrite Hn, <- take_take. by rewrite (take_ge scored (length scored)). }
  replace (eg_id <$> (snd <$> found)) with ((λ i, snprintf_s MUNINN_ID_MAX (fmt_dec i)) <$> (fst <$> found)).
  - replace ((λ p : Z * f64, snprintf_s MUNINN_ID_MAX (fmt_dec p.1)) <$> take n scored) with
      ((λ i, snprintf_s MUNINN_ID_MAX (fmt_dec i)) <$> (fst <$> take n scored)) by (by rewrite <- list_fmap_compose).
    clear -Hsub. induction Hsub; [constructor | by apply sublist_skip | by apply sublist_cons].
  - rewrite <- !list_fmap_compose. clear -Hid. induction Hid as [|p l Hp _ IH]; [done|].
    rewrite !fmap_cons, IH. f_equal. exact (eq_sym Hp).
Qed.

(** Whatever the database answers, activation stays inside its arrays as long
    as the caller's array has the rows asked for; it returns at most that many
    engrams, in the order of a list of scored candidates in which no score is
    followed by a larger one. *)
Theorem muninn_activate_bounded now m vault context top_n cap :
  (top_of top_n ≤ cap)%nat →
  ∃ m' r out scored, muninn_activate exp now m vault context top_n cap = Some (m', r, out) ∧
    (length out ≤ top_of top_n)%nat ∧ (length scored ≤ MAX_ACTIVATE_CANDIDATES)%nat ∧
    (eg_id <$> out) `sublist_of` ((λ p, snprintf_s MUNINN_ID_MAX (fmt_dec p.1)) <$> take (top_of top_n) scored) ∧
    (∀ i a b, scored !! i = Some a → scored !! S i = Some b → ranked snd a b).
Proof. apply activate_bounded. Qed.
End activation.

(** ** The engram table

    What the statements do, as SQLite documents them: a finite map from row
    identifiers to rows; [AUTOINCREMENT] gives unused identifiers; a text is
    compared with an integer key after conversion; the full-text index holds
    the text columns of every row of the table, whatever its state. *)
Record eng_row := mk_row {
  er_vault : cstr; er_concept : cstr; er_content : cstr; er_confidence : f64; er_access : Z;
  er_last : Z; er_created : Z; er_state : Z; er_type : Z; er_tags : cstr;
}.

Definition row_of (i : Z) (e : eng_row) : row :=
  [SInt i; SText (er_vault e); SText (er_concept e); SText (er_content e); SReal (er_confidence e);
   SInt (er_access e); SInt (er_last e); SInt (er_created e); SInt (er_state e); SInt (er_type e);
   SText (er_tags e)].

Definition readable (e : eng_row) : bool := (er_state e =? 0) || (er_state e =? 4).

Definition deleted (e : eng_row) : eng_row :=
  mk_row (er_vault e) (er_concept e) (er_content e) (er_confidence e) (er_access e) (er_last e)
    (er_created e) 2 (er_type e) (er_tags e).

Definition accessed (now : Z) (e : eng_row) : eng_row :=
  mk_row (er_vault e) (er_concept e) (er_content e) (er_confidence e) (er_access e + 1) now
    (er_created e) (er_state e) (er_type e) (er_tags e).

Definition muninn_statements : list cstr :=
  [WRITE_SQL; READ_SQL; FTS_SQL; FALLBACK_SQL; ROW_SQL; LOAD_SQL; ACCESS_SQL; HEBBIAN_SQL; SOFT_DELETE_SQL].

Class EngramLaws (D : Type) `{Sqlite D} := {
  engrams : D → gmap Z eng_row;
  fts_match : cstr → eng_row → bool;
  fts_text : ∀ c e e', er_concept e = er_concept e' → er_content e = er_content e' → fts_match c e = fts_match c e';
  (** The schema was made, and the file can be used. *)
  has_schema : D → Prop;
  law_schema : ∀ silent p d d', db_open p = Some d → schema_init silent d = (d', true) → has_schema d';
  law_prepare : ∀ d sql, has_schema d → sql ∈ muninn_statements → db_prepare d sql = true;
  (** The table still has an identifier to give. *)
  eng_room : D → Prop;
  law_write : ∀ d v c t now tags, has_schema d → eng_room d → ∃ d',
    db_step d WRITE_SQL [SText v; SText c; SText t; SInt now; SInt now; SText tags] = (d', [], true) ∧
    0 < db_last_rowid d' < 2 ^ 63 ∧ engrams d !! db_last_rowid d' = None ∧
    engrams d' = <[db_last_rowid d' := mk_row v c t (f64_const 8 10) 0 now now 0 0 tags]> (engrams d) ∧ has_schema d';
  law_read : ∀ d i v, has_schema d → - 2 ^ 63 <= i < 2 ^ 63 →
    db_step d READ_SQL [SText (fmt_dec i); SText v] =
    (d, match engrams d !! i with
        | Some e => if streq (er_vault e) v && readable e then [row_of i e] else [] | None => [] end, true);
  law_row : ∀ d i v, has_schema d →
    db_step d ROW_SQL [SInt i; SText v] =
    (d, match engrams d !! i with
        | Some e => if streq (er_vault e) v then [row_of i e] else [] | None => [] end, true);
  law_load : ∀ d i, has_schema d →
    db_step d LOAD_SQL [SInt i] = (d, match engrams d !! i with Some e => [row_of i e] | None => [] end, true);
  law_soft_delete : ∀ d i v, has_schema d → - 2 ^ 63 <= i < 2 ^ 63 → ∃ d',
    db_step d SOFT_DELETE_SQL [SText (fmt_dec i); SText v] = (d', [], true) ∧
    engrams d' = alter (λ e, if streq (er_vault e) v then deleted e else e) i (engrams d) ∧ has_schema d';
  law_fts : ∀ d c, has_schema d → ∃ ids,
    db_step d FTS_SQL [SText c] = (d, (λ i, [SInt i]) <$> ids, true) ∧ NoDup ids ∧
    (∀ i, i ∈ ids → ∃ e, engrams d !! i = Some e ∧ fts_match c e = true) ∧
    ((length ids < MAX_ACTIVATE_CANDIDATES)%nat →
     ∀ i e, engrams d !! i = Some e → fts_match c e = true → i ∈ ids);
  law_access : ∀ d now i, has_schema d →
    engrams (db_step d ACCESS_SQL [SInt now; SInt i]).1.1 = alter (accessed now) i (engrams d);
}.

Section laws.
Context {D : Type} `{EngramLaws D} (exp : f64 → f64).

Lemma prepare_ok (d : D) sql : has_schema d → sql ∈ muninn_statements → db_prepare d sql = true.
Proof. apply law_prepare. Qed.

Ltac prepared := rewrite prepare_ok by (assumption || (unfold muninn_statements; set_solver)); cbn [negb].

(** A store that was opened has its schema. *)
Lemma muninn_init_schema silent path (m : muninn_t D) :
  muninn_init silent path = (m, 0) → ∃ d, mu_db m = Some d ∧ has_schema d.
Proof.
  unfold muninn_init. destruct (db_open path) as [d|] eqn:Eo; [|done].
  destruct (schema_init silent d) as [d' []] eqn:Es; [|done]. intros [= <-]. exists d'. split; [done|]. by eapply law_schema.
Qed.

Lemma fmt_id_fits i : - 2 ^ 63 <= i < 2 ^ 63 → snprintf_s MUNINN_ID_MAX (fmt_dec i) = fmt_dec i.
Proof.
  intros Hi. apply snprintf_s_id. pose proof (fmt_dec_length 19 i ltac:(lia) ltac:(lia)).
  unfold MUNINN_ID_MAX. lia.
Qed.

(** C39: In a store with its schema and room for a row, an engram can be read
    back under the identifier returned, in its vault, with its texts (cut to
    the sizes of the record), its time and its tags. Conditions: at most 8
    tags, together with their commas under 512 bytes, each not empty, under 64
    bytes, without a comma and without blanks at its ends (the tag a,b comes
    back as two, see [comma_tag_splits]); the clock fits 63 bits. *)
Theorem muninn_write_read now (m : muninn_t D) d vault concept content tags :
  mu_db m = Some d → has_schema d → eng_room d → 0 <= now < 2 ^ 63 →
  Forall tag_ok tags → (length tags ≤ MUNINN_TAG_MAX)%nat → (length (comma_join tags) < 512)%nat →
  ∃ m' id m'' e, muninn_write now m vault concept content tags MUNINN_ID_MAX = Some (m', Some id) ∧
    muninn_read m' vault id = (m'', Some e) ∧ eg_id e = id ∧ eg_vault e = snprintf_s MUNINN_VAULT_MAX vault ∧
    eg_concept e = snprintf_s MUNINN_CONCEPT_MAX concept ∧ eg_content e = snprintf_s MUNINN_CONTENT_MAX content ∧
    eg_tags e = tags ∧ eg_access_count e = 0 ∧ eg_created_sec e = now ∧ eg_state e = muninn_state_code MUNINN_STATE_ACTIVE.
Proof.
  intros Hd Hsc Hroom Hnow Hok Hn Hlen. unfold muninn_write. rewrite Hd. change (MUNINN_ID_MAX =? 0)%nat with false. cbn iota.
  prepared. destruct (muninn_tags_text tags Hok Hn Hlen) as [Ht Hs]. rewrite Ht. cbn [mbind option_bind].
  rewrite !(swrap_small 64) by lia.
  destruct (law_write d vault concept content now (comma_join tags) Hsc Hroom) as (d' & -> & Hid & _ & Hrows & Hsc').
  rewrite fmt_id_fits by lia. eexists _, _, _, _. split; [done|].
  unfold muninn_read. cbn [mu_db]. prepared. rewrite law_read by (done || lia). rewrite Hrows, lookup_insert_eq. cbn [er_vault].
  rewrite streq_refl. cbn [readable er_state Z.eqb orb andb]. split; [done|].
  unfold engram_from_row, column_text, column_int, column_int64, column, row_of. cbn [nth eg_id eg_vault
    eg_concept eg_content eg_tags eg_access_count eg_created_sec eg_state er_vault er_concept er_content
    er_tags er_access er_created er_state].
  rewrite fmt_id_fits by lia. split_and!; try done. by rewrite wrap_small by lia.
Qed.

(** A tag with a comma comes back as two. *)
Theorem comma_tag_splits : split_tags <$> tags_text [lit "a,b"] = Some [lit "a"; lit "b"].
Proof. vm_compute. reflexivity. Qed.

(** A soft-deleted engram can no longer be read, but its text still finds it:
    when it is the only engram whose text matches, activation returns it, in
    the state "soft deleted". *)
Theorem muninn_deleted_still_activated now (m : muninn_t D) d vault i e context :
  mu_db m = Some d → has_schema d → - 2 ^ 63 <= i < 2 ^ 63 → engrams d !! i = Some e → er_vault e = vault →
  fts_match context e = true → (∀ j e', engrams d !! j = Some e' → fts_match context e' = true → j = i) →
  ∃ m', muninn_soft_delete m vault (fmt_dec i) = (m', 0) ∧
    (muninn_read m' vault (fmt_dec i)).2 = None ∧
    ∃ m'' out, muninn_activate exp now m' vault context 1 1 = Some (m'', 0, [out]) ∧
      eg_id out = fmt_dec i ∧ eg_state out = muninn_state_code MUNINN_STATE_SOFT_DELETED.
Proof.
  intros Hd Hsc Hi He Hv Hf Honly. unfold muninn_soft_delete, with_db, run_update. rewrite Hd. prepared.
  destruct (law_soft_delete d i vault Hsc Hi) as (d1 & -> & Hrows & Hsc'). eexists. split; [done|].
  assert (engrams d1 !! i = Some (deleted e)) as He1.
  { rewrite Hrows, lookup_alter_eq, He. cbn [fmap option_fmap option_map]. by rewrite Hv, streq_refl. }
  split.
  { unfold muninn_read. cbn [mu_db]. prepared. rewrite law_read, He1 by done. cbn [snd er_vault deleted].
    unfold readable. cbn [er_state deleted]. by rewrite andb_false_r. }
  unfold muninn_activate. cbn [mu_db]. unfold candidates. prepared.
  destruct (law_fts d1 context Hsc') as (ids & -> & Hnd & Hin & Hall).
  assert (∀ j, j ∈ ids → j = i) as Hids.
  { intros j Hj. destruct (Hin j Hj) as (e' & He' & Hm). rewrite Hrows in He'.
    destruct (decide (j = i)) as [->|Hne]; [done|]. rewrite lookup_alter_ne in He' by done. eauto. }
  assert (ids = [i]) as ->.
  { destruct ids as [|a [|b l]].
    - exfalso. assert (i ∈ ([] : list Z)) as Hx; [|by apply elem_of_nil in Hx].
      apply (Hall ltac:(unfold MAX_ACTIVATE_CANDIDATES; simpl; lia) i _ He1).
      rewrite <- Hf. by apply fts_text.
    - f_equal. apply Hids. set_solver.
    - exfalso. apply NoDup_cons in Hnd as [Hnot _]. apply Hnot.
      rewrite (Hids a), (Hids b) by set_solver. set_solver. }
  cbn [fmap list_fmap take MAX_ACTIVATE_CANDIDATES]. change (column_int64 [SInt i] 0) with i. prepared.
  unfold rank_candidates. cbn [query_each]. rewrite law_row, He1 by done. cbn [er_vault deleted].
  rewrite Hv, streq_refl. cbn [insertion_sort foldl insert_down reverse rev_append length].
  change (top_of 1 <? 1)%nat with false. cbn iota. prepared. cbn [take fmap list_fmap fst query_each].
  rewrite law_load, He1 by done. cbn [length]. change (1 <? 1)%nat with false. cbn iota. cbn [fmap list_fmap fst snd].
  eexists _, _. split; [done|]. split; [by apply fmt_id_fits|done].
Qed.
End laws.

(** ** A database that satisfies the laws *)

Module MiniDb.

(** [made]: the schema was made. *)
Record mini := mk_mini { tbl : gmap Z eng_row; last : Z; made : bool }.

Inductive stmt := Write | Read | Fts | Row | Load | Access | SoftDelete.

Definition stmts : list (cstr * stmt) :=
  [(WRITE_SQL, Write); (READ_SQL, Read); (FTS_SQL, Fts); (ROW_SQL, Row); (LOAD_SQL, Load);
   (ACCESS_SQL, Access); (SOFT_DELETE_SQL, SoftDelete)].

Definition stmt_of (sql : cstr) : option stmt := snd <$> List.find (λ p, streq p.1 sql) stmts.

Definition matches (c : cstr) (e : eng_row) : bool := contains (er_content e) c || contains (er_concept e) c.

Definition fts_ids (d : mini) (c : cstr) : list Z :=
  take MAX_ACTIVATE_CANDIDATES (map_to_list (filter (λ p, matches c p.2 = true) (tbl d))).*1.

Definition step (d : mini) (sql : cstr) (args : list sqlval) : mini * list row * bool :=
  match stmt_of sql, args with
  | Some Write, [SText v; SText c; SText t; SInt a; SInt b; SText tags] =>
      (mk_mini (<[last d + 1 := mk_row v c t (f64_const 8 10) 0 a b 0 0 tags]> (tbl d)) (last d + 1) (made d), [], true)
  | Some Read, [SText id; SText v] =>
      (d, match tbl d !! strtol10 id with
          | Some e => if streq (er_vault e) v && readable e then [row_of (strtol10 id) e] else []
          | None => [] end, true)
  | Some Fts, [SText c] => (d, (λ i, [SInt i]) <$> fts_ids d c, true)
  | Some Row, [SInt i; SText v] =>
      (d, match tbl d !! i with Some e => if streq (er_vault e) v then [row_of i e] else [] | None => [] end, true)
  | Some Load, [SInt i] => (d, match tbl d !! i with Some e => [row_of i e] | None => [] end, true)
  | Some Access, [SInt now; SInt i] => (mk_mini (alter (accessed now) i (tbl d)) (last d) (made d), [], true)
  | Some SoftDelete, [SText id; SText v] =>
      (mk_mini (alter (λ e, if streq (er_vault e) v then deleted e else e) (strtol10 id) (tbl d)) (last d) (made d), [], true)
  | _, _ => (d, [], true)
  end.

#[global] Instance mini_sqlite : Sqlite mini := {
  db_open _ := Some (mk_mini ∅ 0 false);
  db_prepare d _ := made d;
  db_step := step;
  db_exec d sql := (mk_mini (tbl d) (last d) (made d || streq sql SCHEMA_SQL), true);
  db_last_rowid := last;
  db_real_text _ := [];
  db_cast_int _ := 0;
  db_cast_real _ := f64_zero;
}.

Definition room (d : mini) : Prop := 0 <= last d < 2 ^ 62 ∧ map_Forall (λ k _, k <= last d) (tbl d).

Lemma step_id sql s : stmt_of sql = Some s → ∀ d args, step d sql args =
  match s, args with
  | Write, [SText v; SText c; SText t; SInt a; SInt b; SText tags] =>
      (mk_mini (<[last d + 1 := mk_row v c t (f64_const 8 10) 0 a b 0 0 tags]> (tbl d)) (last d + 1) (made d), [], true)
  | Read, [SText id; SText v] =>
      (d, match tbl d !! strtol10 id with
          | Some e => if streq (er_vault e) v && readable e then [row_of (strtol10 id) e] else []
          | None => [] end, true)
  | Fts, [SText c] => (d, (λ i, [SInt i]) <$> fts_ids d c, true)
  | Row, [SInt i; SText v] =>
      (d, match tbl d !! i with Some e => if streq (er_vault e) v then [row_of i e] else [] | None => [] end, true)
  | Load, [SInt i] => (d, match tbl d !! i with Some e => [row_of i e] | None => [] end, true)
  | Access, [SInt now; SInt i] => (mk_mini (alter (accessed now) i (tbl d)) (last d) (made d), [], true)
  | SoftDelete, [SText id; SText v] =>
      (mk_mini (alter (λ e, if streq (er_vault e) v then deleted e else e) (strtol10 id) (tbl d)) (last d) (made d), [], true)
  | _, _ => (d, [], true)
  end.
Proof. intros E d args. unfold step. by rewrite E. Qed.

Lemma strtol10_id i : - 2 ^ 63 <= i < 2 ^ 63 → strtol10 (fmt_dec i) = i.
Proof. intros. rewrite <- (app_nil_r (fmt_dec i)). by apply strtol10_fmt_dec. Qed.

Lemma fts_ids_spec d c : NoDup (fts_ids d c) ∧
  (∀ i, i ∈ fts_ids d c → ∃ e, tbl d !! i = Some e ∧ matches c e = true) ∧
  ((length (fts_ids d c) < MAX_ACTIVATE_CANDIDATES)%nat →
   ∀ i e, tbl d !! i = Some e → matches c e = true → i ∈ fts_ids d c).
Proof.
  unfold fts_ids. set (l := map_to_list _).
  assert (∀ i, i ∈ l.*1 ↔ ∃ e, tbl d !! i = Some e ∧ matches c e = true) as Hl.
  { intros i. rewrite list_elem_of_fmap. split.
    - intros ([j e] & -> & Hj%elem_of_map_to_list). apply map_lookup_filter_Some in Hj. eauto.
    - intros (e & He & Hm). exists (i, e). split; [done|]. apply elem_of_map_to_list.
      by apply map_lookup_filter_Some. }
  split_and!.
  - eapply sublist_NoDup; [|apply sublist_take]. apply NoDup_fst_map_to_list.
  - intros i (k & Hk & _)%elem_of_take. apply Hl. by eapply list_elem_of_lookup_2.
  - intros Hlen i e He Hm. rewrite length_take in Hlen. rewrite take_ge by lia. apply Hl. eauto.
Qed.

#[global] Program Instance mini_laws : EngramLaws mini := {
  engrams := tbl;
  fts_match := matches;
  has_schema d := made d = true;
  eng_room := room;
}.
Next Obligation. intros c e e' H1 H2. unfold matches. by rewrite H1, H2. Qed.
Next Obligation. intros silent p d d' [= <-]. vm_compute. by intros [= <-]. Qed.
Next Obligation. done. Qed.
Next Obligation.
  intros d v c t now tags Hm [Hl Hk]. eexists. cbn [db_step mini_sqlite].
  rewrite (step_id WRITE_SQL Write) by by_eval. split; [reflexivity|]. cbn [db_last_rowid mini_sqlite last tbl].
  split; [lia|]. split; [|done]. destruct (tbl d !! (last d + 1)) eqn:E; [|done].
  pose proof (map_Forall_lookup_1 _ _ _ _ Hk E). cbn in *. lia.
Qed.
Next Obligation.
  intros d i v _ Hi. cbn [db_step mini_sqlite]. rewrite (step_id READ_SQL Read) by by_eval. by rewrite strtol10_id.
Qed.
Next Obligation. intros d i v _. cbn [db_step mini_sqlite]. by rewrite (step_id ROW_SQL Row) by by_eval. Qed.
Next Obligation. intros d i _. cbn [db_step mini_sqlite]. by rewrite (step_id LOAD_SQL Load) by by_eval. Qed.
Next Obligation.
  intros d i v Hm Hi. cbn [db_step mini_sqlite]. rewrite (step_id SOFT_DELETE_SQL SoftDelete) by by_eval.
  rewrite strtol10_id by done. eexists. split; [reflexivity|done].
Qed.
Next Obligation.
  intros d c _. exists (fts_ids d c). cbn [db_step mini_sqlite]. rewrite (step_id FTS_SQL Fts) by by_eval.
  split; [done|]. apply fts_ids_spec.
Qed.
Next Obligation.
  intros d now i _. cbn [db_step mini_sqlite]. by rewrite (step_id ACCESS_SQL Access) by by_eval.
Qed.

Definition empty_store : muninn_t mini := mk_muninn (Some (mk_mini ∅ 0 true)) (lit "m.db") true.

Definition note : eng_row := mk_row MUNINN_DEFAULT_VAULT (lit "lunch") (lit "soup on monday") (f64_const 8 10) 0 5 5 0 0 [].

Definition one_note : muninn_t mini := mk_muninn (Some (mk_mini {[1 := note]} 1 true)) (lit "m.db") true.
End MiniDb.

Lemma muninn_write_read_witness :
  ∃ m' id m'' e, muninn_write 1700000000 MiniDb.empty_store (lit "default") (lit "color") (lit "blue")
      [lit "pref"] MUNINN_ID_MAX = Some (m', Some id) ∧
    muninn_read m' (lit "default") id = (m'', Some e) ∧ eg_id e = id ∧
    eg_vault e = snprintf_s MUNINN_VAULT_MAX (lit "default") ∧
    eg_concept e = snprintf_s MUNINN_CONCEPT_MAX (lit "color") ∧
    eg_content e = snprintf_s MUNINN_CONTENT_MAX (lit "blue") ∧
    eg_tags e = [lit "pref"] ∧ eg_access_count e = 0 ∧ eg_created_sec e = 1700000000 ∧
    eg_state e = muninn_state_code MUNINN_STATE_ACTIVE.
Proof.
  apply (muninn_write_read 1700000000 MiniDb.empty_store (MiniDb.mk_mini ∅ 0 true));
    [reflexivity | reflexivity | | lia | | vm_compute; lia | vm_compute; lia].
  - split; [simpl; lia | apply map_Forall_empty].
  - repeat constructor; vm_compute; try done; lia.
Defined.

Lemma muninn_deleted_still_activated_witness :
  ∃ m', muninn_soft_delete MiniDb.one_note MUNINN_DEFAULT_VAULT (fmt_dec 1) = (m', 0) ∧
    (muninn_read m' MUNINN_DEFAULT_VAULT (fmt_dec 1)).2 = None ∧
    ∃ m'' out, muninn_activate (λ x, x) 9 m' MUNINN_DEFAULT_VAULT (lit "soup") 1 1 = Some (m'', 0, [out]) ∧
      eg_id out = fmt_dec 1 ∧ eg_state out = muninn_state_code MUNINN_STATE_SOFT_DELETED.
Proof.
  apply (muninn_deleted_still_activated (λ x, x) 9 MiniDb.one_note (MiniDb.mk_mini {[1 := MiniDb.note]} 1 true)
    MUNINN_DEFAULT_VAULT 1 MiniDb.note (lit "soup")); [reflexivity | reflexivity | lia | reflexivity | reflexivity | reflexivity |].
  intros j e' Hj _. cbn in Hj. apply lookup_singleton_Some in Hj. by destruct Hj.
Defined.

Lemma muninn_activate_bounded_witness :
  ∃ m' r out scored, muninn_activate (λ x, x) 9 MiniDb.one_note MUNINN_DEFAULT_VAULT (lit "soup") 1 1 = Some (m', r, out) ∧
    (length out ≤ top_of 1)%nat ∧ (length scored ≤ MAX_ACTIVATE_CANDIDATES)%nat ∧
    (eg_id <$> out) `sublist_of` ((λ p, snprintf_s MUNINN_ID_MAX (fmt_dec p.1)) <$> take (top_of 1) scored) ∧
    (∀ i a b, scored !! i = Some a → scored !! S i = Some b → ranked snd a b).
Proof. apply muninn_activate_bounded. vm_compute. lia. Defined.
