(* ===== verification/Memory.v ===== *)
(** * The memory of [src/memory/memory.c]

    Items under keys, in one of several back ends.  The SQLite and the Muninn
    back ends share one untyped handle: here it is a sum, and a cast to the
    wrong side is the result [None].  The database is the interface of
    [Sqlite]; files, [psql] and the clock are arguments.  The embedding fields
    of an item, which no function of the file touches, are left out. *)
From stdpp Require Import gmap.
From S2P Require Import Prelude Buffers Floats Sqlite Muninn.

Definition MAX_MEMORY_KEY : nat := 256.
Definition MAX_MEMORY_VALUE : nat := Z.to_nat 16384.
Definition METADATA_LEN : nat := Z.to_nat 1024.
Definition MAX_CHUNK_SIZE : nat := Z.to_nat 2048.

Inductive memory_backend_t :=
  | MEMORY_BACKEND_SQLITE | MEMORY_BACKEND_LUCID | MEMORY_BACKEND_MARKDOWN | MEMORY_BACKEND_POSTGRES
  | MEMORY_BACKEND_MUNINN | MEMORY_BACKEND_NONE | MEMORY_BACKEND_UNKNOWN.

Inductive memory_category_t :=
  | MEMORY_CATEGORY_SHORT_TERM | MEMORY_CATEGORY_LONG_TERM | MEMORY_CATEGORY_CORE | MEMORY_CATEGORY_WORKING.

#[global] Instance memory_backend_eq_dec : EqDecision memory_backend_t.
Proof. solve_decision. Defined.
#[global] Instance memory_category_eq_dec : EqDecision memory_category_t.
Proof. solve_decision. Defined.

Record memory_item_t := mk_item {
  mi_key : cstr;
  mi_value : cstr;
  mi_timestamp : Z;
  mi_metadata : cstr;
  mi_category : memory_category_t;
}.

Definition item_zero : memory_item_t := mk_item [] [] 0 [] MEMORY_CATEGORY_SHORT_TERM.

Inductive db_handle {D : Type} := HNull | HSqlite (d : D) | HMuninn (m : muninn_t D).
Arguments db_handle D : clear implicits.

Record memory_t {D : Type} := mk_memory {
  mem_backend : memory_backend_t;
  mem_handle : db_handle D;
  storage_path : cstr;
  connection_string : cstr;
  mem_name : cstr;
  mem_initialized : bool;
}.
Arguments memory_t D : clear implicits.
Arguments mk_memory {D}.

(** ** Back ends by name *)

Definition backend_names : list (string * string * memory_backend_t) :=
  [("sqlite", "SqliteMemory", MEMORY_BACKEND_SQLITE); ("lucid", "LucidMemory", MEMORY_BACKEND_LUCID);
   ("markdown", "MarkdownMemory", MEMORY_BACKEND_MARKDOWN); ("postgres", "PostgresMemory", MEMORY_BACKEND_POSTGRES);
   ("muninn", "MuninnMemory", MEMORY_BACKEND_MUNINN); ("none", "NoneMemory", MEMORY_BACKEND_NONE)]%string.

Definition memory_classify (name : option cstr) : memory_backend_t :=
  match name with
  | None => MEMORY_BACKEND_UNKNOWN
  | Some n =>
      match List.find (λ '(a, b, _), streq n (lit a) || streq n (lit b)) backend_names with
      | Some (_, k) => k
      | None => MEMORY_BACKEND_UNKNOWN
      end
  end.

Definition memory_get_backend_name (b : memory_backend_t) : cstr :=
  match b with
  | MEMORY_BACKEND_SQLITE => lit "sqlite"
  | MEMORY_BACKEND_LUCID => lit "lucid"
  | MEMORY_BACKEND_MARKDOWN => lit "markdown"
  | MEMORY_BACKEND_POSTGRES => lit "postgres"
  | MEMORY_BACKEND_MUNINN => lit "muninn"
  | MEMORY_BACKEND_NONE => lit "none"
  | MEMORY_BACKEND_UNKNOWN => lit "unknown"
  end.

(** Name, whether it can be selected, kind. *)
Definition memory_get_available_backends : list (cstr * bool * memory_backend_t) :=
  [(lit "sqlite", true, MEMORY_BACKEND_SQLITE); (lit "lucid", true, MEMORY_BACKEND_LUCID);
   (lit "markdown", true, MEMORY_BACKEND_MARKDOWN); (lit "postgres", true, MEMORY_BACKEND_POSTGRES);
   (lit "muninn", true, MEMORY_BACKEND_MUNINN); (lit "none", true, MEMORY_BACKEND_NONE)].

(** ** Statements of the SQLite back end *)

Definition MEM_CREATE_SQL : cstr :=
  lit "CREATE TABLE IF NOT EXISTS memory (  key TEXT PRIMARY KEY,  value TEXT,  timestamp INTEGER,  metadata TEXT);CREATE INDEX IF NOT EXISTS idx_timestamp ON memory(timestamp);CREATE VIRTUAL TABLE IF NOT EXISTS memory_fts USING fts5(key, value, content='memory', content_rowid='rowid');".
Definition MEM_TRIGGER_SQL : cstr :=
  lit "CREATE TRIGGER IF NOT EXISTS memory_ai AFTER INSERT ON memory BEGIN   INSERT INTO memory_fts(rowid, key, value) VALUES (new.rowid, new.key, new.value); END; CREATE TRIGGER IF NOT EXISTS memory_ad AFTER DELETE ON memory BEGIN   INSERT INTO memory_fts(memory_fts, rowid, key, value) VALUES('delete', old.rowid, old.key, old.value); END; CREATE TRIGGER IF NOT EXISTS memory_au AFTER UPDATE ON memory BEGIN   INSERT INTO memory_fts(memory_fts, rowid, key, value) VALUES('delete', old.rowid, old.key, old.value);   INSERT INTO memory_fts(rowid, key, value) VALUES (new.rowid, new.key, new.value); END;".
Definition MEM_INSERT_SQL : cstr := lit "INSERT OR REPLACE INTO memory (key, value, timestamp, metadata) VALUES (?1, ?2, ?3, ?4)".
Definition MEM_SELECT_SQL : cstr := lit "SELECT key, value, timestamp, metadata FROM memory WHERE key = ?1".
Definition MEM_COUNT_SQL : cstr := lit "SELECT COUNT(*) FROM memory".
Definition MEM_SIZE_SQL : cstr := lit "SELECT SUM(LENGTH(value)) FROM memory".
Definition MEM_LIST_SQL : cstr := lit "SELECT key, value, timestamp, metadata FROM memory ORDER BY timestamp DESC LIMIT 100".
Definition MEM_DELETE_SQL : cstr := lit "DELETE FROM memory WHERE key = ?1".
Definition MEM_CLEAR_SQL : cstr := lit "DELETE FROM memory".
Definition MEM_CLEAR_FTS_SQL : cstr := lit "DELETE FROM memory_fts".
Definition MEM_EXPIRE_SQL (cutoff : Z) : cstr := lit "DELETE FROM memory WHERE timestamp < " ++ fmt_dec cutoff.
Definition MEM_RANDOM_SQL : cstr := lit "SELECT key, value, metadata FROM memory ORDER BY RANDOM() LIMIT ?".

Section memory.
Context {D : Type} `{Sqlite D} (exp : f64 → f64).
Implicit Types (m : memory_t D).

Definition set_handle (m : memory_t D) (h : db_handle D) : memory_t D :=
  mk_memory (mem_backend m) h (storage_path m) (connection_string m) (mem_name m) (mem_initialized m).

(** [backend == SQLITE && db_handle], with the cast that follows. *)
Definition sqlite_handle (m : memory_t D) : option (option D) :=
  if bool_decide (mem_backend m = MEMORY_BACKEND_SQLITE) then
    match mem_handle m with HNull => Some None | HSqlite d => Some (Some d) | HMuninn _ => None end
  else Some None.

Definition muninn_handle (m : memory_t D) : option (option (muninn_t D)) :=
  if bool_decide (mem_backend m = MEMORY_BACKEND_MUNINN) then
    match mem_handle m with HNull => Some None | HMuninn u => Some (Some u) | HSqlite _ => None end
  else Some None.

(** ** Opening and closing *)

Definition memory_muninn_init (silent : bool) (m : memory_t D) (path : cstr) : memory_t D * Z :=
  let '(u, r) := muninn_init silent path in
  if r =? 0 then
    (mk_memory (mem_backend m) (HMuninn u) (snprintf_s 512 path) (connection_string m) (lit "muninn") true, 0)
  else (m, -1).

Definition memory_init (silent : bool) (backend : memory_backend_t) (path : option cstr) : memory_t D * Z :=
  let m := mk_memory backend HNull (match path with Some p => snprintf_s 512 p | None => [] end) [] [] false in
  match backend, path with
  | MEMORY_BACKEND_SQLITE, Some p =>
      match db_open p with
      | Some d =>
          let d := (db_exec d MEM_CREATE_SQL).1 in
          let d := (db_exec d MEM_TRIGGER_SQL).1 in
          (set_handle m (HSqlite d), 0)
      | None => (m, 0)
      end
  | MEMORY_BACKEND_MUNINN, Some p => memory_muninn_init silent m p
  | _, _ => (m, 0)
  end.

Definition memory_create (silent : bool) (backend_name workspace_dir : cstr) : memory_t D * Z :=
  let backend := match memory_classify (Some backend_name) with
                 | MEMORY_BACKEND_UNKNOWN => MEMORY_BACKEND_MARKDOWN | b => b end in
  let db_path := snprintf_s 512 (workspace_dir ++
                   match backend with MEMORY_BACKEND_MUNINN => lit "/muninn.db" | _ => lit "/memory.db" end) in
  let '(m, r) := memory_init silent backend (Some db_path) in
  if negb (r =? 0) then (m, r)
  else (mk_memory (mem_backend m) (mem_handle m) (storage_path m) (connection_string m)
          (snprintf_s 32 backend_name) true, 0).

Definition memory_muninn_free (m : memory_t D) : option (memory_t D) :=
  match mem_handle m with
  | HSqlite _ => None
  | _ => Some (mk_memory (mem_backend m) HNull (storage_path m) (connection_string m) (mem_name m) false)
  end.

Definition memory_free (m : memory_t D) : option (memory_t D) :=
  u ← muninn_handle m;
  match u with
  | Some _ => memory_muninn_free m
  | None => match mem_handle m with HMuninn _ => None | _ => Some (set_handle m HNull) end
  end.

(** ** Items *)

Definition memory_muninn_store (now : Z) (m : memory_t D) (item : memory_item_t) : option (memory_t D * Z) :=
  match mem_handle m with
  | HNull => Some (m, -1)
  | HSqlite _ => None
  | HMuninn u =>
      '(u, id) ← muninn_write now u MUNINN_DEFAULT_VAULT (mi_key item) (mi_value item) [] MUNINN_ID_MAX;
      Some (set_handle m (HMuninn u), match id with Some _ => 0 | None => -1 end)
  end.

Definition memory_store (now : Z) (m : memory_t D) (item : memory_item_t) : option (memory_t D * Z) :=
  db ← sqlite_handle m;
  match db with
  | Some d =>
      if negb (db_prepare d MEM_INSERT_SQL) then Some (m, -1)
      else
        let '(d, _, done) := db_step d MEM_INSERT_SQL
          [SText (mi_key item); SText (mi_value item); SInt (s64 (mi_timestamp item)); SText (mi_metadata item)] in
        Some (set_handle m (HSqlite d), if done then 0 else -1)
  | None =>
      u ← muninn_handle m;
      match u with
      | Some _ => memory_muninn_store now m item
      | None => Some (m, -1)
      end
  end.

(** The fields of an item from the columns key, value, timestamp, metadata;
    the category is not stored. *)
Definition item_of_row (r : row) (cat : memory_category_t) : memory_item_t :=
  mk_item (snprintf_s MAX_MEMORY_KEY (default [] (column_text r 0)))
    (snprintf_s MAX_MEMORY_VALUE (default [] (column_text r 1))) (u64 (column_int64 r 2))
    (snprintf_s METADATA_LEN (default [] (column_text r 3))) cat.

(** The result is the code and the item, which stays as it was on failure. *)
Definition memory_muninn_recall (now : Z) (m : memory_t D) (key : cstr) (out : memory_item_t)
    : option (memory_t D * Z * memory_item_t) :=
  match mem_handle m with
  | HNull => Some (m, -1, out)
  | HSqlite _ => None
  | HMuninn u =>
      '(u, rc, es) ← muninn_activate exp now u MUNINN_DEFAULT_VAULT key 1 1;
      let m := set_handle m (HMuninn u) in
      match es with
      | e :: _ =>
          if rc =? 0 then
            Some (m, 0, mk_item (snprintf_s MAX_MEMORY_KEY (eg_concept e)) (snprintf_s MAX_MEMORY_VALUE (eg_content e))
                          (eg_last_access_sec e) [] MEMORY_CATEGORY_SHORT_TERM)
          else Some (m, -1, out)
      | [] => Some (m, -1, out)
      end
  end.

Definition memory_recall (now : Z) (m : memory_t D) (key : cstr) (out : memory_item_t)
    : option (memory_t D * Z * memory_item_t) :=
  db ← sqlite_handle m;
  match db with
  | Some d =>
      if negb (db_prepare d MEM_SELECT_SQL) then Some (m, -1, out)
      else
        let '(d, rows, _) := db_step d MEM_SELECT_SQL [SText key] in
        match rows with
        | r :: _ => Some (set_handle m (HSqlite d), 0, item_of_row r (mi_category out))
        | [] => Some (set_handle m (HSqlite d), -1, out)
        end
  | None =>
      u ← muninn_handle m;
      match u with
      | Some _ => memory_muninn_recall now m key out
      | None => Some (m, -1, out)
      end
  end.

Definition memory_delete (m : memory_t D) (key : cstr) : option (memory_t D * Z) :=
  db ← sqlite_handle m;
  match db with
  | Some d =>
      if negb (db_prepare d MEM_DELETE_SQL) then Some (m, -1)
      else
        let '(d, _, done) := db_step d MEM_DELETE_SQL [SText key] in
        Some (set_handle m (HSqlite d), if done then 0 else -1)
  | None => Some (m, -1)
  end.

Definition memory_clear (m : memory_t D) : option (memory_t D * Z) :=
  db ← sqlite_handle m;
  match db with
  | Some d =>
      let d := (db_exec d MEM_CLEAR_SQL).1 in
      let d := (db_exec d MEM_CLEAR_FTS_SQL).1 in
      Some (set_handle m (HSqlite d), 0)
  | None => Some (m, 0)
  end.

(** Number of items and bytes of their values, zero where a query fails. *)
Definition memory_get_stats (m : memory_t D) : option (memory_t D * Z * Z) :=
  db ← sqlite_handle m;
  match db with
  | Some d =>
      let '(d, n) := (if db_prepare d MEM_COUNT_SQL then
                        let '(d, rows, _) := db_step d MEM_COUNT_SQL [] in
                        (d, match rows with r :: _ => column_int r 0 | [] => 0 end) else (d, 0)) in
      let '(d, s) := (if db_prepare d MEM_SIZE_SQL then
                        let '(d, rows, _) := db_step d MEM_SIZE_SQL [] in
                        (d, match rows with r :: _ => u64 (column_int64 r 0) | [] => 0 end) else (d, 0)) in
      Some (set_handle m (HSqlite d), n, s)
  | None => Some (m, 0, 0)
  end.

(** The items newest first.  Their categories are not set: the rows of the
    first allocation are zeroed, and so is the category given here. *)
Definition memory_list (m : memory_t D) : option (memory_t D * option (list memory_item_t)) :=
  db ← sqlite_handle m;
  match db with
  | Some d =>
      if db_prepare d MEM_LIST_SQL then
        let '(d, rows, _) := db_step d MEM_LIST_SQL [] in
        Some (set_handle m (HSqlite d), Some (map (λ r, item_of_row r MEMORY_CATEGORY_SHORT_TERM) rows))
      else Some (m, None)
  | None => Some (m, None)
  end.

Definition memory_deduplicate (m : memory_t D) : Z := 0.

(** [None] also for a number of days whose seconds overflow an [int]. *)
Definition memory_hygiene_run (now : Z) (m : memory_t D) (max_age_days : Z) : option (memory_t D * Z) :=
  if max_age_days <=? 0 then Some (m, -1)
  else if 2 ^ 31 <=? max_age_days * 86400 then None
  else
    let cutoff := u64 (now - max_age_days * 86400) in
    db ← sqlite_handle m;
    match db with
    | Some d =>
        let '(d, ok) := db_exec d (MEM_EXPIRE_SQL cutoff) in
        let m := set_handle m (HSqlite d) in
        if ok then Some (m, memory_deduplicate m) else Some (m, -1)
    | None => Some (m, memory_deduplicate m)
    end.

(** ** The other back ends *)

Definition memory_lucid_init (workspace_dir : cstr) : memory_t D * Z :=
  (mk_memory MEMORY_BACKEND_LUCID HNull (snprintf_s 512 (workspace_dir ++ lit "/lucid.db")) [] (lit "lucid") false, 0).
Definition memory_lucid_store (now : Z) (m : memory_t D) (item : memory_item_t) := memory_store now m item.
Definition memory_lucid_recall (now : Z) (m : memory_t D) (key : cstr) (out : memory_item_t) := memory_recall now m key out.
Definition memory_search_similar (m : memory_t D) : list memory_item_t * Z := ([], 0).
Definition memory_lucid_search (m : memory_t D) (query : cstr) : list memory_item_t * Z := memory_search_similar m.
Definition memory_lucid_free (m : memory_t D) : option (memory_t D) := memory_free m.

Definition memory_none_init : memory_t D * Z := (mk_memory MEMORY_BACKEND_NONE HNull [] [] (lit "none") true, 0).
Definition memory_none_store (m : memory_t D) (item : memory_item_t) : Z := 0.
Definition memory_none_recall (m : memory_t D) (key : cstr) (out : memory_item_t) : Z * memory_item_t := (-1, item_zero).
Definition memory_none_free (m : memory_t D) : memory_t D := mk_memory MEMORY_BACKEND_SQLITE HNull [] [] [] false.
Definition memory_postgres_free (m : memory_t D) : memory_t D := mk_memory MEMORY_BACKEND_SQLITE HNull [] [] [] false.
End memory.

(** ** Chunks of a text *)

Record chunk_t := mk_mchunk { ch_start : nat; ch_end : nat; ch_text : cstr }.

Definition is_break (b : Z) : bool := (b =? 32) || (b =? 10) || (b =? 9).

(** The loop that looks for a blank among the last [n] bytes of the piece, [i]
    of which were looked at; the piece is given backwards. *)
Fixpoint break_back (n i : nat) (rev : cstr) : option nat :=
  match n, rev with
  | S n', b :: rev' => if is_break b then Some i else break_back n' (S i) rev'
  | _, _ => None
  end.

Definition break_pos (piece : cstr) : nat :=
  match break_back 20 0 (reverse piece) with Some i => (length piece - i)%nat | None => length piece end.

(** [left] more rows; [None]: a piece that does not fit its row. *)
Fixpoint mchunk_loop (text : cstr) (chunk_size left offset : nat) : option (list chunk_t) :=
  match left with
  | O => Some []
  | S left' =>
      if (offset <? length text)%nat then
        let piece := take chunk_size (drop offset text) in
        let n := break_pos piece in
        if (MAX_CHUNK_SIZE <=? n)%nat then None
        else
          rest ← mchunk_loop text chunk_size left' (offset + n);
          Some (mk_mchunk offset (offset + n) (take n piece) :: rest)
      else Some []
  end.

Definition num_chunks (len chunk_size : nat) : nat := ((len + chunk_size - 1) / chunk_size)%nat.

(** [None] also for a chunk size of zero, by which the code divides. *)
Definition memory_chunk_text (text : cstr) (chunk_size : nat) : option (list chunk_t) :=
  match text with
  | [] => Some []
  | _ => if (chunk_size =? 0)%nat then None
         else mchunk_loop text chunk_size (num_chunks (length text) chunk_size) 0
  end.

(** ** Embeddings *)

Section embedding.
Context (sin cos : f64 → f64).

Definition tenth : f64 := f64_const 1 10.

(** One step of the two running hashes for dimension [i] at position [j]. *)
Definition hash_step (i : Z) (acc : f64 * f64 * Z) (c : Z) : f64 * f64 * Z :=
  let '(h1, h2, j) := acc in
  let x := f64_mul (f64_of_Z (u64 ((i + 1) * (j + 1)))) tenth in
  (f64_fmod (f64_add (f64_mul h1 (f64_of_Z 31)) (f64_mul (f64_of_Z c) (sin x))) (f64_of_Z 1000),
   f64_fmod (f64_add (f64_mul h2 (f64_of_Z 17)) (f64_mul (f64_of_Z c) (cos x))) (f64_of_Z 1000), j + 1).

Definition embed_component (text : cstr) (i : Z) : f64 :=
  let '(h1, h2, _) := foldl (hash_step i) (f64_zero, f64_zero, 0) text in
  let v := f64_div (f64_add (f64_div h1 (f64_of_Z 1000)) (f64_div h2 (f64_of_Z 1000))) (f64_of_Z 2) in
  let v := if f64_ltb v f64_zero then f64_add v (f64_of_Z 1) else v in
  if f64_ltb (f64_of_Z 1) v then f64_sub v (f64_of_Z 1) else v.

(** The vector, of [dim] elements: 384, none for an empty text. *)
Definition memory_compute_embedding (text : cstr) : list f64 :=
  match text with [] => [] | _ => embed_component text <$> seqZ 0 384 end.

Definition cosine_similarity (a b : list f64) : f64 :=
  if negb (length a =? length b)%nat then f64_zero
  else
    let '(dot, na, nb) :=
      foldl (λ '(dot, na, nb) '(x, y),
        (f64_add dot (f64_mul x y), f64_add na (f64_mul x x), f64_add nb (f64_mul y y)))
        (f64_zero, f64_zero, f64_zero) (zip a b) in
    if f64_eqb na f64_zero || f64_eqb nb f64_zero then f64_zero
    else f64_div dot (f64_mul (f64_sqrt na) (f64_sqrt nb)).

(** ** Vector search *)

Definition SEARCH_BUF : nat := Z.to_nat 16384.

(** The rows of the query while fewer than [top_k] lines are written; [None]:
    the offset has left the buffer. *)
Fixpoint search_loop (query : list f64) (top_k : Z) (rows : list (option cstr)) (b : sbuf) (count : Z)
    : option (sbuf * Z) :=
  match rows with
  | [] => Some (b, count)
  | k :: rows' =>
      if count <? top_k then
        match k with
        | None => search_loop query top_k rows' b count
        | Some key =>
            let sim := cosine_similarity query (memory_compute_embedding key) in
            if f64_ltb tenth sim then
              b ← sn_append SEARCH_BUF (fmt_fixed 4 sim ++ lit ": " ++ key ++ [10]) b;
              search_loop query top_k rows' b (count + 1)
            else search_loop query top_k rows' b count
        end
      else Some (b, count)
  end.

Section search.
Context {D : Type} `{Sqlite D}.

(** Result code, content, tokens and count. *)
Definition memory_vector_search (m : memory_t D) (query : list f64) (top_k : nat)
    : option (memory_t D * Z * cstr * Z * Z) :=
  db ← sqlite_handle m;
  match db with
  | None => Some (m, 0, lit "Vector search requires SQLite backend", 0, 0)
  | Some d =>
      if negb (db_prepare d MEM_RANDOM_SQL) then Some (m, -1, lit "Failed to prepare query", 0, 0)
      else
        let limit := s32 (if (100 <? top_k)%nat then 100 else Z.of_nat top_k) in
        let '(d, rows, _) := db_step d MEM_RANDOM_SQL [SInt limit] in
        '(b, count) ← search_loop query (s32 (Z.of_nat top_k)) (map (λ r, column_text r 0) rows) sb_empty 0;
        Some (set_handle m (HSqlite d), 0, snprintf_s (Z.to_nat 8192) (sb_text b), u64 (count * 100), count)
  end.
End search.
End embedding.

(** ** Hygiene report *)

Definition NON_ASCII : cstr := lit "Non-ASCII char at ".

(** The loop over the text from position [i]: the report so far and the number
    of issues. *)
Fixpoint hygiene_loop (report_size : nat) (text : cstr) (i : nat) (b : sbuf) (issues : Z) : option (sbuf * Z) :=
  match text with
  | [] => Some (b, issues)
  | c :: text' =>
      if Z.of_nat (sb_off b) <? u64 (Z.of_nat report_size - 50) then
        if 127 <? c then
          b ← sn_append report_size (NON_ASCII ++ fmt_dec (Z.of_nat i) ++ [10]) b;
          hygiene_loop report_size text' (S i) b (issues + 1)
        else hygiene_loop report_size text' (S i) b issues
      else Some (b, issues)
  end.

Definition memory_hygiene_check (text : cstr) (report_size : nat) : option (Z * cstr) :=
  '(_, issues) ← hygiene_loop report_size text 0 sb_empty 0;
  Some (issues, snprintf_s report_size
    (if issues =? 0 then lit "Memory hygiene OK - no issues found"
     else lit "Found " ++ fmt_dec issues ++ lit " issues")).

(** ** Snapshots *)

Definition snapshot_path (dir : cstr) : cstr := snprintf_s 512 (dir ++ lit "/MEMORY_SNAPSHOT.md").

(** [exists_ p] is [stat(p) == 0]. *)
Definition memory_snapshot_should_hydrate (exists_ : cstr → bool) (dir : cstr) : Z :=
  if negb (exists_ (snapshot_path dir)) then 0
  else if exists_ (snprintf_s 512 (dir ++ lit "/memory.db")) then 0 else 1.

(** The file is read into [content], closed, and then read line by line from
    the closed stream, which is undefined. *)
Definition memory_snapshot_hydrate {D} (readable : cstr → bool) (m : memory_t D) (dir : cstr)
    : option (memory_t D * Z) :=
  if negb (readable (snapshot_path dir)) then Some (m, -1) else None.

Definition memory_snapshot_create {D} (m : memory_t D) (path : cstr) : Z := 0.
Definition memory_snapshot_restore {D} (m : memory_t D) (path : cstr) : Z := 0.

(** ** PostgreSQL through [psql] *)

(** [remaining] bytes of the buffer are free. *)
Fixpoint psql_escape (sql : cstr) (remaining : nat) : cstr :=
  match sql, remaining with
  | [], _ | _, O => []
  | c :: sql', _ =>
      if c =? 39 then
        if (2 <=? remaining)%nat then [39; 39] ++ psql_escape sql' (remaining - 2) else psql_escape sql' remaining
      else if c =? 10 then
        if (2 <=? remaining)%nat then [92; 110] ++ psql_escape sql' (remaining - 2) else psql_escape sql' remaining
      else c :: psql_escape sql' (remaining - 1)
  end.

Definition psql_command (connection : cstr) (sql : cstr) : cstr :=
  snprintf_s (Z.to_nat 8192)
    (lit "psql '" ++ connection ++ lit "' -t -c '" ++ psql_escape sql (Z.to_nat 4095) ++ lit "' 2>/dev/null").

(** [run cmd] is [popen]: the text the command prints and its exit status. *)
Definition run_psql_query (run : cstr → option (cstr * Z)) (connection sql : cstr) (output_size : nat) : Z * cstr :=
  match run (psql_command connection sql) with
  | None => (-1, [])
  | Some (text, status) =>
      let out := collect_lines output_size (fgets_lines 256 text) [] in
      (if status =? 0 then 0 else -1, rstrip (λ b, (b =? 10) || (b =? 32)) out)
  end.

Definition PG_SCHEMA : cstr :=
  lit "CREATE SCHEMA IF NOT EXISTS doctorclaw; CREATE TABLE IF NOT EXISTS doctorclaw.memory (id TEXT PRIMARY KEY, key TEXT UNIQUE NOT NULL, content TEXT NOT NULL, category TEXT NOT NULL, created_at TIMESTAMPTZ NOT NULL DEFAULT NOW(), updated_at TIMESTAMPTZ NOT NULL DEFAULT NOW(), session_id TEXT);CREATE INDEX IF NOT EXISTS idx_memories_category ON doctorclaw.memory(category);CREATE INDEX IF NOT EXISTS idx_memories_session_id ON doctorclaw.memory(session_id);CREATE INDEX IF NOT EXISTS idx_memories_updated_at ON doctorclaw.memory(updated_at DESC);".

(** The command that is run, and the memory: its handle stays what it was. *)
Definition memory_postgres_init {D} (m : memory_t D) (connection : cstr) : memory_t D * cstr * Z :=
  (mk_memory MEMORY_BACKEND_POSTGRES (mem_handle m) (storage_path m) (snprintf_s 512 connection) (mem_name m) true,
   psql_command connection (snprintf_s (Z.to_nat 1024) PG_SCHEMA), 0).

Definition category_text (c : memory_category_t) : cstr :=
  match c with
  | MEMORY_CATEGORY_SHORT_TERM => lit "short_term"
  | MEMORY_CATEGORY_LONG_TERM => lit "long_term"
  | MEMORY_CATEGORY_CORE => lit "core"
  | MEMORY_CATEGORY_WORKING => lit "working"
  end.

Definition pg_store_sql (item : memory_item_t) : cstr :=
  snprintf_s (Z.to_nat 4096)
    (lit "INSERT INTO doctorclaw.memory (id, key, content, category, created_at, updated_at) VALUES (gen_random_uuid(), '" ++
     mi_key item ++ lit "', '" ++ mi_value item ++ lit "', '" ++ category_text (mi_category item) ++
     lit "', NOW(), NOW()) ON CONFLICT (key) DO UPDATE SET content = EXCLUDED.content, category = EXCLUDED.category, updated_at = NOW()").

Definition memory_postgres_store {D} (run : cstr → option (cstr * Z)) (m : memory_t D) (item : memory_item_t) : Z :=
  if negb (mem_initialized m) then -1
  else (run_psql_query run (connection_string m) (pg_store_sql item) 256).1.

Definition is_space (b : Z) : bool := b =? 32.

(** A line of the table psql prints: key, content, category, time.  The text
    behind the second bar is compared as a whole. *)
Definition pg_item (now : Z) (line : cstr) : option memory_item_t :=
  i ← strchr line 124;
  let key := rstrip is_space (skip_while is_space (take i line)) in
  let content := skip_while is_space (drop (S i) line) in
  match strchr content 124 with
  | None => Some (mk_item (snprintf_s MAX_MEMORY_KEY key) [] now [] MEMORY_CATEGORY_SHORT_TERM)
  | Some j =>
      let cat := skip_while is_space (drop (S j) content) in
      Some (mk_item (snprintf_s MAX_MEMORY_KEY key) (snprintf_s MAX_MEMORY_VALUE (take j content)) now []
        (if streq cat (lit "short_term") then MEMORY_CATEGORY_SHORT_TERM
         else if streq cat (lit "long_term") then MEMORY_CATEGORY_LONG_TERM
         else if streq cat (lit "core") then MEMORY_CATEGORY_CORE else MEMORY_CATEGORY_WORKING))
  end.

Definition pg_recall_sql (query : cstr) : cstr :=
  snprintf_s (Z.to_nat 4096)
    (lit "SELECT key, content, category, updated_at FROM doctorclaw.memory WHERE content ILIKE '%" ++ query ++
     lit "%' OR key ILIKE '%" ++ query ++ lit "%' ORDER BY updated_at DESC LIMIT 100").

(** [None] is the result code -1. *)
Definition memory_postgres_recall {D} (run : cstr → option (cstr * Z)) (now : Z) (m : memory_t D) (query : cstr)
    : option (list memory_item_t) :=
  if negb (mem_initialized m) then None
  else
    let '(r, out) := run_psql_query run (connection_string m) (pg_recall_sql query) (Z.to_nat 16384) in
    if negb (r =? 0) then None
    else if (length out <? 2)%nat then Some []
    else Some (take 100 (omap (pg_item now) (strtok_fields (λ b, b =? 10) out))).

(** ** Markdown files *)

(** A directory entry: name, content when it can be opened, time. *)
Record dir_entry := mk_dirent { de_name : cstr; de_content : option cstr; de_mtime : Z }.

(** [name_len < 3 || strcmp(name + name_len - 3, ".md") != 0]. *)
Definition is_markdown (name : cstr) : bool :=
  negb (bool_decide (head name = Some 46)) && (3 <=? length name)%nat &&
  streq (drop (length name - 3) name) (lit ".md").

Definition md_path (dir name : cstr) : cstr := snprintf_s (Z.to_nat 1024) (dir ++ lit "/" ++ name).

(** The file as the string it is read into. *)
Definition read_content (size : nat) (file : cstr) : cstr := until_nul (take (size - 1) file).

Definition md_item (dir : cstr) (e : dir_entry) : option memory_item_t :=
  if is_markdown (de_name e) then
    c ← de_content e;
    Some (mk_item (snprintf_s MAX_MEMORY_KEY (de_name e))
            (snprintf_s MAX_MEMORY_VALUE (read_content (Z.to_nat 16384) c)) (u64 (de_mtime e))
            (snprintf_s METADATA_LEN (lit "type=markdown,path=" ++ md_path dir (de_name e)))
            MEMORY_CATEGORY_SHORT_TERM)
  else None.

(** [None]: the directory cannot be opened. *)
Definition memory_markdown_load (dir : cstr) (listing : option (list dir_entry)) : option (list memory_item_t) :=
  option_map (λ l : list dir_entry, omap (md_item dir) l) listing.

(** The file that is written and its text. *)
Definition memory_markdown_save (item : memory_item_t) (dir : cstr) : cstr * cstr :=
  (md_path dir (mi_key item),
   lit "# " ++ mi_key item ++ [10; 10] ++ mi_value item ++ [10] ++
   match mi_metadata item with [] => [] | md => [10] ++ lit "<!-- " ++ md ++ lit " -->" ++ [10] end).

Definition INDEX_LEN : nat := Z.to_nat 16384.

Fixpoint index_loop (names : list cstr) (entries : cstr) (count : nat) : cstr * nat :=
  match names with
  | [] => (entries, count)
  | n :: names' =>
      if (count <? 100)%nat then
        if is_markdown n
        then index_loop names' (entries ++ take (INDEX_LEN - length entries - 1) (n ++ [10])) (S count)
        else index_loop names' entries count
      else (entries, count)
  end.

Definition memory_markdown_index (listing : option (list cstr)) : option (cstr * nat) :=
  option_map (λ l, index_loop l [] 0) listing.

Definition memory_markdown_search (query : cstr) (size : nat) : cstr :=
  snprintf_s size (lit "Markdown search results for: " ++ query).

(** ** The response cache *)

Definition CACHE_SIZE : nat := 100.
Definition PROMPT_LEN : nat := Z.to_nat 2048.
Definition RESPONSE_LEN : nat := Z.to_nat 4096.

Record cache_t := mk_cache_state {
  g_cache_prompts : list cstr;
  g_cache_responses : list cstr;
  g_cache_count : nat;
}.

Definition cache_zero : cache_t := mk_cache_state (replicate CACHE_SIZE []) (replicate CACHE_SIZE []) 0.

Definition holds (prompt : cstr) (p : cstr) : bool := match p with [] => false | _ => streq p prompt end.

Definition memory_response_cache_get (c : cache_t) (prompt : cstr) (size : nat) : option cstr :=
  i ← find_idx (holds prompt) (g_cache_prompts c);
  snprintf_s size <$> g_cache_responses c !! i.

Definition memory_response_cache_set (c : cache_t) (prompt response : cstr) : cache_t :=
  let idx := (g_cache_count c mod CACHE_SIZE)%nat in
  mk_cache_state (<[idx := snprintf_s PROMPT_LEN prompt]> (g_cache_prompts c))
    (<[idx := snprintf_s RESPONSE_LEN response]> (g_cache_responses c)) (S (g_cache_count c)).

(** The settings of the cache and the embedder are kept and not read. *)
Record cache_config_t := mk_cache_config { cc_enabled : bool; cc_ttl_minutes : Z; cc_max_entries : Z }.
Record embedding_config_t := mk_embed_config { ec_provider : cstr; ec_model : cstr; ec_dimensions : nat; ec_enabled : bool }.

Definition memory_response_cache_init (g : cache_config_t) (config : cache_config_t) : cache_config_t * Z := (config, 0).
Definition memory_response_cache_free (g : cache_config_t) : cache_config_t := mk_cache_config false 0 0.
Definition memory_embedder_init (g : embedding_config_t) (config : embedding_config_t) : embedding_config_t * Z := (config, 0).
Definition memory_embedder_free (g : embedding_config_t) : embedding_config_t := mk_embed_config [] [] 0 false.

(** ** JSON export and import *)

Definition jq (s : string) : cstr := [34] ++ lit s ++ [34].
Definition jtext (s : cstr) : cstr := [34] ++ s ++ [34].

(** The members of an item, values as they are. *)
Definition json_item (item : memory_item_t) : cstr :=
  lit "  {" ++ [10] ++
  lit "    " ++ jq "key" ++ lit ": " ++ jtext (mi_key item) ++ lit "," ++ [10] ++
  lit "    " ++ jq "value" ++ lit ": " ++ jtext (mi_value item) ++ lit "," ++ [10] ++
  lit "    " ++ jq "timestamp" ++ lit ": " ++ fmt_dec (mi_timestamp item) ++ lit "," ++ [10] ++
  lit "    " ++ jq "metadata" ++ lit ": " ++ jtext (mi_metadata item) ++ [10] ++ lit "  }".

Fixpoint json_items (items : list memory_item_t) : cstr :=
  match items with
  | [] => []
  | [i] => json_item i ++ [10]
  | i :: items' => json_item i ++ lit "," ++ [10] ++ json_items items'
  end.

Section json.
Context {D : Type} `{Sqlite D} (exp : f64 → f64).

(** The result code, and the text of the file when one is written. *)
Definition memory_export_json (opened : bool) (m : memory_t D) : option (memory_t D * Z * option cstr) :=
  '(m, l) ← memory_list m;
  Some match l with
       | None => (m, -1, None)
       | Some [] => (m, 0, None)
       | Some items => if opened then (m, 0, Some (lit "[" ++ [10] ++ json_items items ++ lit "]" ++ [10])) else (m, -1, None)
       end.

Definition KEY_MARK : cstr := jq "key" ++ lit ":".
Definition VALUE_MARK : cstr := jq "value" ++ lit ":".

(** From a mark: the text between the first quote and the one behind it, and
    the rest. *)
Definition quoted_after (s : cstr) : option (cstr * cstr) :=
  i ← strchr s 34;
  j ← strchr (drop (S i) s) 34;
  Some (take j (drop (S i) s), drop (S (i + S j)) s).

(** The pairs the loop finds; a round consumes text, so that its length bounds
    the rounds. *)
Fixpoint import_pairs (fuel : nat) (p : cstr) : list (cstr * cstr) :=
  match fuel with
  | O => []
  | S fuel' =>
      match strstr p KEY_MARK with
      | None => []
      | Some i =>
          match quoted_after (drop i p) with
          | None => []
          | Some (key, rest) =>
              match strstr rest VALUE_MARK with
              | None => []
              | Some j =>
                  match quoted_after (drop j rest) with
                  | None => []
                  | Some (value, p') => (key, value) :: import_pairs fuel' p'
                  end
              end
          end
      end
  end.

Fixpoint store_pairs (now : Z) (m : memory_t D) (l : list (cstr * cstr)) : option (memory_t D) :=
  match l with
  | [] => Some m
  | (k, v) :: l' =>
      '(m, _) ← memory_store now m (mk_item (snprintf_s MAX_MEMORY_KEY k) (snprintf_s MAX_MEMORY_VALUE v) (u64 now) []
                                  MEMORY_CATEGORY_SHORT_TERM);
      store_pairs now m l'
  end.

(** The number of items; [file = None] is a file that cannot be opened. *)
Definition memory_import_json (now : Z) (m : memory_t D) (file : option cstr) : option (memory_t D * Z) :=
  match file with
  | None => Some (m, -1)
  | Some f =>
      let content := read_content (Z.to_nat 65536) f in
      let pairs := import_pairs (length content) content in
      m ← store_pairs now m pairs;
      Some (m, Z.of_nat (length pairs))
  end.
End json.

(** ** The handle has the type of the back end *)

Section typing.
Context {D : Type} `{Sqlite D} (exp : f64 → f64).

Definition mem_wf (m : memory_t D) : Prop :=
  match mem_handle m with
  | HNull => True
  | HSqlite _ => mem_backend m = MEMORY_BACKEND_SQLITE
  | HMuninn _ => mem_backend m = MEMORY_BACKEND_MUNINN
  end.

(** What can be done with a memory. *)
Inductive mem_op :=
  | OpStore (now : Z) (item : memory_item_t)
  | OpRecall (now : Z) (key : cstr)
  | OpDelete (key : cstr)
  | OpClear
  | OpStats
  | OpList
  | OpHygiene (now : Z) (days : Z)
  | OpImport (now : Z) (file : option cstr)
  | OpExport (opened : bool)
  | OpFree.

Definition run_op (o : mem_op) (m : memory_t D) : option (memory_t D) :=
  match o with
  | OpStore now item => fst <$> memory_store now m item
  | OpRecall now key => fst ∘ fst <$> memory_recall exp now m key item_zero
  | OpDelete key => fst <$> memory_delete m key
  | OpClear => fst <$> memory_clear m
  | OpStats => fst ∘ fst <$> memory_get_stats m
  | OpList => fst <$> memory_list m
  | OpHygiene now days => fst <$> memory_hygiene_run now m days
  | OpImport now file => fst <$> memory_import_json now m file
  | OpExport opened => fst ∘ fst <$> memory_export_json opened m
  | OpFree => memory_free m
  end.

(** An age in days whose seconds fit an [int]. *)
Definition op_ok (o : mem_op) : Prop := match o with OpHygiene _ days => days <= 24855 | _ => True end.

Lemma sqlite_handle_wf m : mem_wf m →
  (∃ d, mem_handle m = HSqlite d ∧ mem_backend m = MEMORY_BACKEND_SQLITE ∧ sqlite_handle m = Some (Some d)) ∨
  sqlite_handle m = Some None.
Proof.
  unfold mem_wf, sqlite_handle. case_bool_decide as Hb; [|by right].
  destruct (mem_handle m) as [|d|u]; intros Hw; [by right | left; eauto | congruence].
Qed.

Lemma muninn_handle_wf m : mem_wf m →
  (∃ u, mem_handle m = HMuninn u ∧ mem_backend m = MEMORY_BACKEND_MUNINN ∧ muninn_handle m = Some (Some u)) ∨
  (muninn_handle m = Some None ∧ match mem_handle m with HMuninn _ => False | _ => True end).
Proof.
  unfold mem_wf, muninn_handle. case_bool_decide as Hb.
  - destruct (mem_handle m) as [|d|u]; intros Hw; [by right | congruence | left; eauto].
  - destruct (mem_handle m) as [|d|u]; intros Hw; [by right..|done].
Qed.

Lemma set_sqlite_wf m d : mem_backend m = MEMORY_BACKEND_SQLITE → mem_wf (set_handle m (HSqlite d)).
Proof. done. Qed.
Lemma set_muninn_wf m u : mem_backend m = MEMORY_BACKEND_MUNINN → mem_wf (set_handle m (HMuninn u)).
Proof. done. Qed.

Lemma muninn_write_some now (u : muninn_t D) v c t n : ∃ u' r, muninn_write now u v c t [] n = Some (u', r).
Proof.
  unfold muninn_write. destruct (mu_db u) as [d|]; [|eauto]. case_if; [eauto|]. case_if; [eauto|].
  change (tags_text []) with (Some ([] : cstr)). cbn [mbind option_bind].
  destruct (db_step d WRITE_SQL _) as [[d1 ?] ?]. eauto.
Qed.

Ltac db_cases Hw :=
  destruct (sqlite_handle_wf _ Hw) as [(d & Hh & Hb & ->)| ->]; cbn [mbind option_bind].

Lemma memory_store_wf now m item : mem_wf m → ∃ m' r, memory_store now m item = Some (m', r) ∧ mem_wf m'.
Proof.
  intros Hw. unfold memory_store. db_cases Hw.
  - destruct (db_prepare d MEM_INSERT_SQL); cbn [negb]; [|eauto].
    destruct (db_step d MEM_INSERT_SQL _) as [[d1 ?] ?]. eexists _, _. split; [done|]. by apply set_sqlite_wf.
  - destruct (muninn_handle_wf _ Hw) as [(u & Hh & Hb & ->)|[-> _]]; cbn [mbind option_bind]; [|eauto].
    unfold memory_muninn_store. rewrite Hh.
    destruct (muninn_write_some now u MUNINN_DEFAULT_VAULT (mi_key item) (mi_value item) MUNINN_ID_MAX) as (u' & r & ->).
    cbn [mbind option_bind]. eexists _, _. split; [done|]. by apply set_muninn_wf.
Qed.

Lemma memory_recall_wf now m key out :
  mem_wf m → ∃ m' r o, memory_recall exp now m key out = Some (m', r, o) ∧ mem_wf m'.
Proof.
  intros Hw. unfold memory_recall. db_cases Hw.
  - destruct (db_prepare d MEM_SELECT_SQL); cbn [negb]; [|eauto 10].
    destruct (db_step d MEM_SELECT_SQL _) as [[d1 rows] ?].
    destruct rows; eexists _, _, _; (split; [done|]); by apply set_sqlite_wf.
  - destruct (muninn_handle_wf _ Hw) as [(u & Hh & Hb & ->)|[-> _]]; cbn [mbind option_bind]; [|eauto 10].
    unfold memory_muninn_recall. rewrite Hh.
    destruct (activate_bounded exp now u MUNINN_DEFAULT_VAULT key 1 1) as (u' & r & es & sc & -> & _);
      [vm_compute; lia|]. cbn [mbind option_bind].
    destruct es; [|case_if]; eexists _, _, _; (split; [done|]); by apply set_muninn_wf.
Qed.

Lemma store_pairs_wf now m l : mem_wf m → ∃ m', store_pairs now m l = Some m' ∧ mem_wf m'.
Proof.
  revert m. induction l as [|[k v] l IH]; intros m Hw; cbn [store_pairs]; [eauto|].
  edestruct (memory_store_wf now m) as (m1 & r & -> & Hw1); [done|]. cbn [mbind option_bind]. by apply IH.
Qed.

Lemma memory_list_wf m : mem_wf m → ∃ m' l, memory_list m = Some (m', l) ∧ mem_wf m'.
Proof.
  intros Hw. unfold memory_list. db_cases Hw; [|eauto]. destruct (db_prepare d MEM_LIST_SQL); [|eauto].
  destruct (db_step d MEM_LIST_SQL _) as [[d1 ?] ?]. eexists _, _. split; [done|]. by apply set_sqlite_wf.
Qed.

(** Every operation on a memory whose handle belongs to its back end returns,
    and leaves it so. *)
Lemma run_op_wf o m : mem_wf m → op_ok o → ∃ m', run_op o m = Some m' ∧ mem_wf m'.
Proof.
  intros Hw Ho. destruct o as [now item|now key|key| | | |now days|now file|opened| ]; cbn [run_op].
  - destruct (memory_store_wf now m item Hw) as (m' & r & -> & ?). cbn. eauto.
  - destruct (memory_recall_wf now m key item_zero Hw) as (m' & r & o & -> & ?). cbn. eauto.
  - unfold memory_delete. db_cases Hw; [|cbn; eauto]. destruct (db_prepare d MEM_DELETE_SQL); cbn [negb]; [|cbn; eauto].
    destruct (db_step d MEM_DELETE_SQL _) as [[d1 ?] ?]. cbn. eexists. split; [done|]. by apply set_sqlite_wf.
  - unfold memory_clear. db_cases Hw; cbn; [|eauto]. eexists. split; [done|]. by apply set_sqlite_wf.
  - unfold memory_get_stats. db_cases Hw; [|cbn; eauto].
    destruct (if db_prepare d MEM_COUNT_SQL then _ else _) as [d1 n].
    destruct (if db_prepare d1 MEM_SIZE_SQL then _ else _) as [d2 s].
    cbn. eexists. split; [done|]. by apply set_sqlite_wf.
  - destruct (memory_list_wf m Hw) as (m' & l & -> & ?). cbn. eauto.
  - unfold memory_hygiene_run. case_if; [cbn; eauto|]. case_if; [unfold op_ok in Ho; lia|].
    db_cases Hw; [|cbn; eauto]. destruct (db_exec d _) as [d1 ok]. case_if; cbn; (eexists; split; [done|]; by apply set_sqlite_wf).
  - unfold memory_import_json. destruct file as [f|]; [|cbn; eauto].
    edestruct (store_pairs_wf now m) as (m' & -> & ?); [done|]. cbn. eauto.
  - unfold memory_export_json. destruct (memory_list_wf m Hw) as (m' & l & -> & ?). cbn.
    destruct l as [[|i l]|]; [|destruct opened|]; eauto.
  - unfold memory_free. destruct (muninn_handle_wf _ Hw) as [(u & Hh & Hb & ->)|[-> Hm]]; cbn [mbind option_bind].
    + unfold memory_muninn_free. rewrite Hh. by eexists.
    + destruct (mem_handle m); [by eexists..|done].
Qed.

(** Every way to open a memory gives one whose handle belongs to its back end. *)
Lemma memory_init_wf silent backend path : mem_wf (memory_init silent backend path).1.
Proof.
  unfold memory_init. destruct backend, path as [p|]; try done.
  - by destruct (db_open p).
  - unfold memory_muninn_init. by destruct (muninn_init silent p) as [u r]; case_if.
Qed.

Lemma memory_create_wf silent name dir : mem_wf (memory_create silent name dir).1.
Proof.
  unfold memory_create. set (b := match memory_classify _ with MEMORY_BACKEND_UNKNOWN => _ | _ => _ end).
  pose proof (memory_init_wf silent b (Some (snprintf_s 512 (dir ++
    match b with MEMORY_BACKEND_MUNINN => lit "/muninn.db" | _ => lit "/memory.db" end)))) as Hw.
  destruct (memory_init silent b _) as [m r]. by case_if.
Qed.

(** The life of a memory: it is opened by one of the opening calls, the one for
    PostgreSQL on a memory without a handle, and used. *)
Inductive mem_reachable : memory_t D → Prop :=
  | mr_init silent backend path : mem_reachable (memory_init silent backend path).1
  | mr_create silent name dir : mem_reachable (memory_create silent name dir).1
  | mr_lucid dir : mem_reachable (memory_lucid_init dir).1
  | mr_none : mem_reachable memory_none_init.1
  | mr_postgres m c : mem_handle m = HNull → mem_reachable (memory_postgres_init m c).1.1
  | mr_op o m m' : mem_reachable m → op_ok o → run_op o m = Some m' → mem_reachable m'.

Lemma mem_reachable_wf m : mem_reachable m → mem_wf m.
Proof.
  induction 1 as [silent b p|silent n d|dir| |m c Hh|o m m' _ IH Ho Hr].
  - apply memory_init_wf.
  - apply memory_create_wf.
  - done.
  - done.
  - unfold memory_postgres_init, mem_wf. cbn. by rewrite Hh.
  - destruct (run_op_wf o m IH Ho) as (m2 & Hm2 & ?). congruence.
Qed.


(** Turning a memory with a Muninn handle into a PostgreSQL one keeps the
    handle: closing it then hands it to SQLite. *)
Lemma postgres_init_breaks (m : memory_t D) u c :
  mem_handle m = HMuninn u → memory_free (memory_postgres_init m c).1.1 = None.
Proof. intros Hh. unfold memory_free, muninn_handle, memory_postgres_init. cbn. by rewrite Hh. Qed.
End typing.

(** ** Chunks *)

Lemma break_back_bound n i rev k : break_back n i rev = Some k → (i ≤ k < i + length rev)%nat.
Proof.
  revert i rev. induction n as [|n IH]; intros i [|b rev]; simpl; try done.
  case_if; [intros [= <-]; lia|]. intros Hk%IH. lia.
Qed.

Lemma break_pos_bound piece : piece ≠ [] → (0 < break_pos piece ≤ length piece)%nat.
Proof.
  intros Hne. unfold break_pos. destruct (break_back 20 0 (reverse piece)) as [i|] eqn:E.
  - apply break_back_bound in E. rewrite length_reverse in E. lia.
  - destruct piece; [done|]. simpl. lia.
Qed.

Lemma mchunk_loop_prefix text cs left off :
  (0 < cs < MAX_CHUNK_SIZE)%nat → (off ≤ length text)%nat →
  ∃ l n, mchunk_loop text cs left off = Some l ∧ (length l ≤ left)%nat ∧
    concat (ch_text <$> l) = take n (drop off text) ∧
    Forall (λ c, ch_text c = take (ch_end c - ch_start c) (drop (ch_start c) text) ∧ ch_text c ≠ []) l.
Proof.
  intros Hcs. revert off. induction left as [|left IH]; intros off Hoff; cbn [mchunk_loop].
  { exists [], 0%nat. by rewrite take_0. }
  destruct (off <? length text)%nat eqn:E; bsplit; [|exists [], 0%nat; rewrite take_0; split_and!; simpl; try done; lia].
  set (piece := take cs (drop off text)).
  assert (length piece = Nat.min cs (length text - off)) as Hpl by (subst piece; rewrite length_take, length_drop; lia).
  pose proof (break_pos_bound piece ltac:(intros Hp; rewrite Hp in Hpl; simpl in Hpl; lia)) as Hb.
  set (n := break_pos piece) in *.
  rewrite (proj2 (Nat.leb_gt _ _)) by lia.
  destruct (IH (off + n)%nat) as (l & k & -> & Hl & Hc & Hf); [lia|]. cbn [mbind option_bind].
  assert (take n piece = take n (drop off text)) as Htn.
  { subst piece. rewrite take_take. f_equal. lia. }
  exists (mk_mchunk off (off + n) (take n piece) :: l), (n + k)%nat. split; [done|]. split; [simpl; lia|].
  split.
  - rewrite fmap_cons. cbn [concat ch_text]. rewrite Hc, Htn.
    rewrite <- (drop_drop text n off), take_take_drop. done.
  - constructor; [|done]. cbn [ch_text ch_start ch_end]. replace (off + n - off)%nat with n by lia.
    split; [done|]. intros Hnil%(f_equal length). rewrite length_take in Hnil. simpl in Hnil. lia.
Qed.

(** Chunks of a text: for a chunk size below 2048 the rows stay in bounds, are
    consecutive non-empty pieces of the text, and put together are a beginning
    of it. *)
Theorem memory_chunks_prefix text cs :
  (0 < cs < MAX_CHUNK_SIZE)%nat →
  ∃ l n, memory_chunk_text text cs = Some l ∧ (length l ≤ num_chunks (length text) cs)%nat ∧
    concat (ch_text <$> l) = take n text ∧
    Forall (λ c, ch_text c = take (ch_end c - ch_start c) (drop (ch_start c) text) ∧ ch_text c ≠ []) l.
Proof.
  intros Hcs. unfold memory_chunk_text. destruct text as [|b text].
  { exists [], 0%nat. split_and!; simpl; try done. lia. }
  rewrite (proj2 (Nat.eqb_neq cs 0)) by lia.
  destruct (mchunk_loop_prefix (b :: text) cs (num_chunks (length (b :: text)) cs) 0 Hcs) as (l & n & H1 & H2 & H3 & H4);
    [lia|]. exists l, n. by rewrite drop_0 in H3.
Qed.

Lemma memory_chunks_prefix_witness :
  ∃ l n, memory_chunk_text (lit "hello world") 8 = Some l ∧ (length l ≤ num_chunks 11 8)%nat ∧
    concat (ch_text <$> l) = take n (lit "hello world") ∧
    Forall (λ c, ch_text c = take (ch_end c - ch_start c) (drop (ch_start c) (lit "hello world")) ∧ ch_text c ≠ []) l.
Proof. apply memory_chunks_prefix. split; [lia|]. apply Nat.ltb_lt. by_eval. Defined.

(** The last piece is cut at a blank as well, and the number of rows counts
    full pieces: the last word of a short text is lost. *)
Example chunk_loses_last_word :
  memory_chunk_text (lit "hello world") 100 = Some [mk_mchunk 0 6 (lit "hello ")].
Proof. by_eval. Qed.

(** ** The response cache *)

Definition cache_ok (c : cache_t) : Prop :=
  length (g_cache_prompts c) = CACHE_SIZE ∧ length (g_cache_responses c) = CACHE_SIZE.

Lemma cache_set_ok c p r : cache_ok c → cache_ok (memory_response_cache_set c p r).
Proof. unfold cache_ok. cbn. by rewrite !length_insert. Qed.

(** The slot a call writes. *)
Definition next_slot (c : cache_t) : nat := (g_cache_count c mod CACHE_SIZE)%nat.

Lemma next_slot_lt c : (next_slot c < CACHE_SIZE)%nat.
Proof. apply Nat.mod_upper_bound. done. Qed.

Lemma holds_true p q : p ≠ [] → holds p q = true ↔ q = p.
Proof. intros Hp. unfold holds. destruct q; [by split; [|intros <-]|]. apply streq_true. Qed.

(** A lookup after a store: the new answer, unless an earlier slot still holds
    the same prompt; then the old answer of that slot. *)
Theorem response_cache_lookup c p r size :
  cache_ok c → p ≠ [] → (length p < PROMPT_LEN)%nat →
  memory_response_cache_get (memory_response_cache_set c p r) p size =
    match find_idx (holds p) (take (next_slot c) (g_cache_prompts c)) with
    | Some j => snprintf_s size <$> g_cache_responses c !! j
    | None => Some (snprintf_s size (snprintf_s RESPONSE_LEN r))
    end.
Proof.
  intros [Hp Hr] Hne Hlen. pose proof (next_slot_lt c) as Hlt.
  unfold memory_response_cache_get, memory_response_cache_set. fold (next_slot c).
  cbn [g_cache_prompts g_cache_responses]. rewrite (snprintf_s_id PROMPT_LEN p) by done.
  destruct (find_idx (holds p) (take (next_slot c) (g_cache_prompts c))) as [j|] eqn:E.
  - pose proof (find_idx_lt _ _ _ E) as Hj. rewrite length_take in Hj.
    apply find_idx_Some in E as [(x & Hx & Hh) Hall].
    assert (find_idx (holds p) (<[next_slot c:=p]> (g_cache_prompts c)) = Some j) as ->.
    { apply find_idx_Some. rewrite list_lookup_insert_ne by lia. split.
      - exists x. split; [|done]. rewrite <- Hx. symmetry. apply lookup_take_lt. lia.
      - intros i y Hi. rewrite list_lookup_insert_ne by lia. intros Hy. apply (Hall i y Hi).
        by rewrite lookup_take_lt by lia. }
    cbn [mbind option_bind]. by rewrite list_lookup_insert_ne by lia.
  - assert (find_idx (holds p) (<[next_slot c:=p]> (g_cache_prompts c)) = Some (next_slot c)) as ->.
    { apply find_idx_Some. rewrite list_lookup_insert_eq by lia. split.
      - exists p. split; [done|]. by apply holds_true.
      - intros i y Hi. rewrite list_lookup_insert_ne by lia. intros Hy.
        apply find_idx_None in E. rewrite Forall_lookup in E. apply (E i). by rewrite lookup_take_lt by lia. }
    cbn [mbind option_bind]. by rewrite list_lookup_insert_eq by lia.
Qed.

Lemma response_cache_lookup_witness :
  memory_response_cache_get (memory_response_cache_set cache_zero (lit "hi") (lit "hello")) (lit "hi") 64 =
    match find_idx (holds (lit "hi")) (take (next_slot cache_zero) (g_cache_prompts cache_zero)) with
    | Some j => snprintf_s 64 <$> g_cache_responses cache_zero !! j
    | None => Some (snprintf_s 64 (snprintf_s RESPONSE_LEN (lit "hello")))
    end.
Proof. apply response_cache_lookup; [done | done | apply Nat.ltb_lt; by_eval]. Defined.

(** Storing a new answer to a cached prompt does not replace the old one. *)
Example response_cache_stale :
  let c := memory_response_cache_set cache_zero (lit "hi") (lit "old") in
  memory_response_cache_get (memory_response_cache_set c (lit "hi") (lit "new")) (lit "hi") 64 = Some (lit "old").
Proof. by_eval. Qed.

(** ** Import *)

Lemma quoted_after_mark (a rest : cstr) :
  Forall (λ c, c ≠ 34) a → quoted_after ([34] ++ a ++ [34] ++ rest) = Some (a, rest).
Proof.
  intros Ha. unfold quoted_after. change (strchr ([34] ++ a ++ [34] ++ rest) 34) with (Some 0%nat).
  cbn [mbind option_bind]. change (drop 1 ([34] ++ a ++ [34] ++ rest)) with (a ++ 34 :: rest).
  rewrite strchr_app by done. cbn [mbind option_bind]. rewrite take_app_length. do 2 f_equal.
  change (drop (S (0 + S (length a))) ([34] ++ a ++ [34] ++ rest)) with (drop (S (length a)) (a ++ [34] ++ rest)).
  replace (S (length a)) with (length (a ++ [34])) by (rewrite length_app; simpl; lia).
  by rewrite app_assoc, drop_app_length.
Qed.

Lemma strstr_split s p i : strstr s p = Some i → ∃ r, drop i s = p ++ r.
Proof.
  intros (r & Hs & Hl)%strstr_Some. exists r. rewrite Hs at 1. apply drop_app_length'.
  rewrite length_take. lia.
Qed.

Lemma import_pairs_placeholder fuel p : Forall (λ q, q = (lit "key", lit "value")) (import_pairs fuel p).
Proof.
  revert p. induction fuel as [|fuel IH]; intros p; cbn [import_pairs]; [constructor|].
  destruct (strstr p KEY_MARK) as [i|] eqn:Ei; [|constructor].
  apply strstr_split in Ei as [r ->]. unfold KEY_MARK, jq. rewrite <- !app_assoc.
  rewrite (quoted_after_mark (lit "key")) by (repeat constructor; done).
  destruct (strstr _ VALUE_MARK) as [j|] eqn:Ej; [|constructor].
  apply strstr_split in Ej as [r' ->]. unfold VALUE_MARK, jq. rewrite <- !app_assoc.
  rewrite (quoted_after_mark (lit "value")) by (repeat constructor; done).
  constructor; [done|apply IH].
Qed.

(** More fuel than the length of the text changes nothing. *)
Lemma import_pairs_fuel p : ∀ n fuel fuel',
  (length p ≤ n)%nat → (n ≤ fuel)%nat → (n ≤ fuel')%nat → import_pairs fuel p = import_pairs fuel' p.
Proof.
  intros n. revert p. induction n as [n IH] using lt_wf_ind. intros p fuel fuel' Hp H1 H2.
  destruct p as [|b p].
  { by destruct fuel, fuel'. }
  destruct fuel as [|fuel], fuel' as [|fuel']; simpl in Hp; try lia. cbn [import_pairs].
  destruct (strstr (b :: p) KEY_MARK) as [i|] eqn:Ei; [|done].
  apply strstr_split in Ei as [r Hr].
  assert (length (KEY_MARK ++ r) ≤ S (length p))%nat as Hl by (rewrite <- Hr, length_drop; simpl; lia).
  rewrite Hr. unfold KEY_MARK, jq. rewrite <- !app_assoc.
  rewrite (quoted_after_mark (lit "key")) by (repeat constructor; done).
  rewrite length_app in Hl. change (length KEY_MARK) with 6%nat in Hl.
  destruct (strstr (lit ":" ++ r) VALUE_MARK) as [j|] eqn:Ej; [|done].
  apply strstr_split in Ej as [r' Hr'].
  assert (length (VALUE_MARK ++ r') ≤ S (length r))%nat as Hl' by (rewrite <- Hr', length_drop; simpl; lia).
  rewrite Hr'. unfold VALUE_MARK, jq. rewrite <- !app_assoc.
  rewrite (quoted_after_mark (lit "value")) by (repeat constructor; done).
  f_equal. rewrite length_app in Hl'. change (length VALUE_MARK) with 8%nat in Hl'.
  apply (IH (n - 1)%nat); try lia. rewrite length_app. change (length (lit ":")) with 1%nat. lia.
Qed.

Section import.
Context {D : Type} `{Sqlite D}.

(** The item every imported pair becomes. *)
Definition placeholder (now : Z) : memory_item_t :=
  mk_item (lit "key") (lit "value") (u64 now) [] MEMORY_CATEGORY_SHORT_TERM.

Fixpoint store_n (n : nat) (now : Z) (m : memory_t D) (item : memory_item_t) : option (memory_t D) :=
  match n with
  | O => Some m
  | S n' => '(m, _) ← memory_store now m item; store_n n' now m item
  end.

(** Importing a file never reads a key or a value from it: the search for the
    opening quote finds the quote of the member name, so that for each pair of
    members the item stored has the key "key" and the value "value". *)
Theorem import_stores_placeholders now (m : memory_t D) file :
  ∃ n, memory_import_json now m (Some file) =
    (m' ← store_n n now m (placeholder now); Some (m', Z.of_nat n)).
Proof.
  unfold memory_import_json. set (c := read_content _ file).
  pose proof (import_pairs_placeholder (length c) c) as Hall. exists (length (import_pairs (length c) c)).
  generalize dependent (import_pairs (length c) c). intros l Hall.
  assert (∀ m, store_pairs now m l = store_n (length l) now m (placeholder now)) as ->; [|done].
  induction Hall as [|q l -> _ IH]; intros m0; cbn [store_pairs store_n length]; [done|].
  assert (mk_item (snprintf_s MAX_MEMORY_KEY (lit "key")) (snprintf_s MAX_MEMORY_VALUE (lit "value")) (u64 now) []
            MEMORY_CATEGORY_SHORT_TERM = placeholder now) as ->.
  { unfold placeholder. by rewrite !snprintf_s_id by (apply Nat.ltb_lt; by_eval). }
  destruct (memory_store now m0 (placeholder now)) as [[m1 r]|]; [|done]. cbn [mbind option_bind]. apply IH.
Qed.
End import.

(** ** The hygiene report *)

Lemma hygiene_loop_spec size text : ∀ i b k,
  (50 ≤ size)%nat → Z.of_nat size < 2 ^ 64 → Z.of_nat (i + length text) < 10 ^ 20 → sb_ok size b →
  ∃ b' k', hygiene_loop size text i b k = Some (b', k') ∧ k <= k' ∧
    ((sb_off b < size - 50)%nat → k' = k ↔ Forall (λ c, c <= 127) text).
Proof.
  induction text as [|c text IH]; intros i b k Hs Hw Hi Hb; cbn [hygiene_loop].
  { exists b, k. split_and!; [done|lia|]. done. }
  cbn [length] in Hi. rewrite wrap_small by lia.
  destruct (Z.of_nat (sb_off b) <? Z.of_nat size - 50) eqn:E; bsplit.
  - destruct (127 <? c) eqn:Ec; bsplit.
    + pose proof (fmt_dec_length 20 (Z.of_nat i) ltac:(lia) ltac:(lia)) as Hd.
      destruct (sn_append_ok size (NON_ASCII ++ fmt_dec (Z.of_nat i) ++ [10]) b Hb) as (b1 & -> & Hb1 & Ht1).
      { rewrite !length_app. change (length NON_ASCII) with 18%nat. cbn [length]. lia. }
      cbn [mbind option_bind]. destruct (IH (S i) b1 (k + 1) Hs Hw ltac:(lia) Hb1) as (b2 & k2 & -> & Hk & _).
      exists b2, k2. split_and!; [done|lia|]. intros _. split; [lia|]. intros [Hc _]%Forall_cons. lia.
    + destruct (IH (S i) b k Hs Hw ltac:(lia) Hb) as (b2 & k2 & -> & Hk & Hiff).
      exists b2, k2. split_and!; [done|lia|]. intros Hoff. rewrite (Hiff Hoff). rewrite Forall_cons. naive_solver.
  - exists b, k. split_and!; [done|lia|]. lia.
Qed.

(** With a report of more than 50 bytes the check stays in bounds and reports
    no issue exactly when the text is ASCII. *)
Theorem hygiene_check_sound text size :
  (50 < size)%nat → Z.of_nat size < 2 ^ 64 → Z.of_nat (length text) < 10 ^ 20 →
  ∃ n report, memory_hygiene_check text size = Some (n, report) ∧ (length report < size)%nat ∧
    (n = 0 ↔ Forall (λ c, c <= 127) text).
Proof.
  intros Hs Hw Ht. unfold memory_hygiene_check.
  destruct (hygiene_loop_spec size text 0 sb_empty 0) as (b & n & -> & Hn & Hiff); [lia|done|done|by apply sb_empty_ok; lia|].
  cbn [mbind option_bind]. eexists _, _. split; [done|]. split; [apply snprintf_s_length; lia|].
  apply Hiff. cbn [sb_off sb_empty]. lia.
Qed.

Lemma hygiene_check_sound_witness :
  ∃ n report, memory_hygiene_check (lit "plain") 64 = Some (n, report) ∧ (length report < 64)%nat ∧
    (n = 0 ↔ Forall (λ c, c <= 127) (lit "plain")).
Proof. apply hygiene_check_sound; [lia | lia | vm_compute; reflexivity]. Defined.

(** ** The command line of [psql] *)

(** A word of the POSIX shell that consists of single-quoted parts only: what
    stands between the quotes is taken literally; [None] when something stands
    outside of them or a quote is left open. *)
Fixpoint sh_quoted (inside : bool) (s : cstr) : option cstr :=
  match s with
  | [] => if inside then None else Some []
  | c :: s' =>
      if c =? 39 then sh_quoted (negb inside) s'
      else if inside then cons c <$> sh_quoted inside s' else None
  end.

Definition psql_plain (s : cstr) : cstr :=
  flat_map (λ c, if c =? 39 then [] else if c =? 10 then [92; 110] else [c]) s.

Lemma sh_quoted_escape sql n rest :
  (2 * length sql ≤ n)%nat →
  sh_quoted true (psql_escape sql n ++ rest) = app (psql_plain sql) <$> sh_quoted true rest.
Proof.
  revert n. induction sql as [|c sql IH]; intros n Hn; cbn [length] in Hn.
  { cbn [psql_escape psql_plain flat_map app]. by destruct (sh_quoted true rest). }
  destruct n as [|[|n]]; [lia..|]. cbn [psql_escape psql_plain flat_map]. fold (psql_plain sql).
  destruct (c =? 39) eqn:E39; [|destruct (c =? 10) eqn:E10].
  - change (2 <=? S (S n))%nat with true. cbn iota. replace (S (S n) - 2)%nat with n by lia.
    cbn [app sh_quoted Z.eqb Pos.eqb negb]. by rewrite IH by lia.
  - change (2 <=? S (S n))%nat with true. cbn iota. replace (S (S n) - 2)%nat with n by lia.
    cbn [app sh_quoted Z.eqb Pos.eqb]. rewrite IH by lia. by destruct (sh_quoted true rest).
  - replace (S (S n) - 1)%nat with (S n) by lia. cbn [app sh_quoted]. rewrite E39, IH by lia.
    by destruct (sh_quoted true rest).
Qed.

(** What psql receives as its command when the statement fits the buffer: one
    word, so that no statement breaks out of the quoting; but the doubled
    quotes are joined by the shell, so that the quotes of the statement are
    gone, and a line break has become a backslash and an n. *)
Theorem psql_statement_word sql :
  (2 * length sql ≤ Z.to_nat 4095)%nat →
  sh_quoted false ([39] ++ psql_escape sql (Z.to_nat 4095) ++ [39]) = Some (psql_plain sql).
Proof.
  intros Hn. cbn [app sh_quoted Z.eqb Pos.eqb negb]. rewrite sh_quoted_escape by done.
  cbn [sh_quoted Z.eqb Pos.eqb negb fmap option_fmap option_map]. by rewrite app_nil_r.
Qed.

Lemma psql_statement_word_witness :
  sh_quoted false ([39] ++ psql_escape (lit "SELECT 'a'") (Z.to_nat 4095) ++ [39]) = Some (psql_plain (lit "SELECT 'a'")).
Proof. apply psql_statement_word. apply Nat.leb_le. by_eval. Defined.

(** The rows that psql prints for the recall query have four columns: the text
    behind the second bar never equals a category. *)
Lemma pg_item_category now line item i j :
  strchr line 124 = Some i → strchr (skip_while is_space (drop (S i) line)) 124 = Some j →
  124 ∈ skip_while is_space (drop (S j) (skip_while is_space (drop (S i) line))) →
  pg_item now line = Some item → mi_category item = MEMORY_CATEGORY_WORKING.
Proof.
  intros Hi Hj Hin. unfold pg_item. rewrite Hi. cbn [mbind option_bind]. rewrite Hj. cbv zeta.
  revert Hin. generalize (skip_while is_space (drop (S j) (skip_while is_space (drop (S i) line)))). intros cat Hin.
  intros Hs. apply (inj Some) in Hs as <-. cbn [mi_category].
  assert (∀ t, 124 ∉ lit t → streq cat (lit t) = false) as Hne.
  { intros t Ht. apply streq_false. intros Heq. apply Ht. by rewrite <- Heq. }
  rewrite (Hne "short_term"%string), (Hne "long_term"%string), (Hne "core"%string); [done| | |];
    apply (bool_decide_unpack _); by_eval.
Qed.

(** A memory on the Muninn back end, over the small store of engrams. *)
Definition muninn_memory_ex : memory_t MiniDb.mini :=
  mk_memory MEMORY_BACKEND_MUNINN (HMuninn MiniDb.empty_store) [] [] (lit "muninn") true.

