(* ===== verification/MemoryMap.v ===== *)
(** * The SQLite memory as a finite map

    What [memory_store], [memory_recall], [memory_delete], [memory_clear] and
    [memory_hygiene_run] promise their callers on the SQLite back end: a map
    from keys to value, time and metadata.  The statements' documented effect
    on the table is the class [MemoryLaws]; a concrete database satisfies it. *)
From stdpp Require Import gmap.
From S2P Require Import Prelude Floats Sqlite Muninn Memory.

Abbreviation entry := (cstr * Z * cstr)%type.

Definition memory_statements : list cstr := [MEM_INSERT_SQL; MEM_SELECT_SQL; MEM_DELETE_SQL].

Definition entry_row (k : cstr) (e : entry) : row :=
  let '(v, t, md) := e in [SText k; SText v; SInt t; SText md].

Class MemoryLaws (D : Type) `{Sqlite D} := {
  mem_rows : D → gmap cstr entry;
  (** The database can be used: its tables were made, its file can be written. *)
  mem_ready : D → Prop;
  mlaw_prepare : ∀ d sql, mem_ready d → sql ∈ memory_statements → db_prepare d sql = true;
  (** [INSERT OR REPLACE] on the primary key. *)
  mlaw_insert : ∀ d k v t md, mem_ready d → ∃ d',
    db_step d MEM_INSERT_SQL [SText k; SText v; SInt t; SText md] = (d', [], true) ∧
    mem_rows d' = <[k := (v, t, md)]> (mem_rows d) ∧ mem_ready d';
  mlaw_select : ∀ d k, mem_ready d →
    db_step d MEM_SELECT_SQL [SText k] =
    (d, match mem_rows d !! k with Some e => [entry_row k e] | None => [] end, true);
  mlaw_delete : ∀ d k, mem_ready d → ∃ d',
    db_step d MEM_DELETE_SQL [SText k] = (d', [], true) ∧ mem_rows d' = delete k (mem_rows d) ∧ mem_ready d';
  mlaw_clear : ∀ d, mem_ready d → mem_rows (db_exec d MEM_CLEAR_SQL).1 = ∅ ∧ mem_ready (db_exec d MEM_CLEAR_SQL).1;
  mlaw_clear_fts : ∀ d, mem_ready d →
    mem_rows (db_exec d MEM_CLEAR_FTS_SQL).1 = mem_rows d ∧ mem_ready (db_exec d MEM_CLEAR_FTS_SQL).1;
  mlaw_expire : ∀ d c, mem_ready d → 0 <= c < 2 ^ 63 → ∃ d',
    db_exec d (MEM_EXPIRE_SQL c) = (d', true) ∧
    mem_rows d' = filter (λ p : cstr * entry, c <= p.2.1.2) (mem_rows d) ∧ mem_ready d';
}.

(** ** The specification *)

Inductive command :=
  | CStore (item : memory_item_t)
  | CRecall (key : cstr)
  | CDelete (key : cstr)
  | CClear
  | CExpire (now days : Z).

Inductive answer := ADone | AItem (e : entry) | AMissing.

Definition spec_command (c : command) (s : gmap cstr entry) : gmap cstr entry * answer :=
  match c with
  | CStore i => (<[mi_key i := (mi_value i, mi_timestamp i, mi_metadata i)]> s, ADone)
  | CRecall k => (s, match s !! k with Some e => AItem e | None => AMissing end)
  | CDelete k => (delete k s, ADone)
  | CClear => (∅, ADone)
  | CExpire now days => (filter (λ p : cstr * entry, now - days * 86400 <= p.2.1.2) s, ADone)
  end.

Fixpoint spec_run (l : list command) (s : gmap cstr entry) : gmap cstr entry * list answer :=
  match l with
  | [] => (s, [])
  | c :: l' => let '(s, a) := spec_command c s in let '(s, r) := spec_run l' s in (s, a :: r)
  end.

(** An item that fits the arrays of its record, with a time before 2^63. *)
Record item_ok (i : memory_item_t) : Prop := {
  ik_key : (length (mi_key i) < MAX_MEMORY_KEY)%nat;
  ik_value : (length (mi_value i) < MAX_MEMORY_VALUE)%nat;
  ik_meta : (length (mi_metadata i) < METADATA_LEN)%nat;
  ik_time : 0 <= mi_timestamp i < 2 ^ 63;
}.

Definition command_ok (c : command) : Prop :=
  match c with
  | CStore i => item_ok i
  | CExpire now days => 0 < days <= 24855 ∧ 0 <= now - days * 86400 < 2 ^ 63
  | _ => True
  end.

(** ** The implementation *)

Section refinement.
Context {D : Type} `{MemoryLaws D} (exp : f64 → f64).

Definition answer_of (rc : Z) (i : memory_item_t) : answer :=
  if rc =? 0 then AItem (mi_value i, mi_timestamp i, mi_metadata i) else AMissing.

Definition impl_command (c : command) (m : memory_t D) : option (memory_t D * answer) :=
  match c with
  | CStore i => '(m, rc) ← memory_store 0 m i; Some (m, if rc =? 0 then ADone else AMissing)
  | CRecall k => '(m, rc, i) ← memory_recall exp 0 m k item_zero; Some (m, answer_of rc i)
  | CDelete k => '(m, rc) ← memory_delete m k; Some (m, if rc =? 0 then ADone else AMissing)
  | CClear => '(m, rc) ← memory_clear m; Some (m, if rc =? 0 then ADone else AMissing)
  | CExpire now days => '(m, rc) ← memory_hygiene_run now m days; Some (m, if rc =? 0 then ADone else AMissing)
  end.

Fixpoint impl_run (l : list command) (m : memory_t D) : option (memory_t D * list answer) :=
  match l with
  | [] => Some (m, [])
  | c :: l' => '(m, a) ← impl_command c m; '(m, r) ← impl_run l' m; Some (m, a :: r)
  end.

Definition entry_ok (k : cstr) (e : entry) : Prop :=
  (length k < MAX_MEMORY_KEY)%nat ∧ (length e.1.1 < MAX_MEMORY_VALUE)%nat ∧
  (length e.2 < METADATA_LEN)%nat ∧ 0 <= e.1.2 < 2 ^ 63.

(** An open SQLite memory, on a usable database, that holds the map [s]. *)
Record represents (m : memory_t D) (s : gmap cstr entry) : Prop := {
  rep_backend : mem_backend m = MEMORY_BACKEND_SQLITE;
  rep_db : ∃ d, mem_handle m = HSqlite d ∧ mem_rows d = s ∧ mem_ready d;
  rep_ok : map_Forall entry_ok s;
}.

Lemma represents_set m d s : mem_backend m = MEMORY_BACKEND_SQLITE → mem_rows d = s → mem_ready d → map_Forall entry_ok s →
  represents (set_handle m (HSqlite d)) s.
Proof. intros. by split; [|exists d|]. Qed.

Lemma represents_handle m s : represents m s →
  ∃ d, sqlite_handle m = Some (Some d) ∧ mem_rows d = s ∧ mem_backend m = MEMORY_BACKEND_SQLITE ∧ mem_ready d.
Proof.
  intros [Hb (d & Hh & Hd & Hr) _]. exists d. unfold sqlite_handle. by rewrite bool_decide_eq_true_2, Hh.
Qed.

Lemma item_of_entry k e : entry_ok k e →
  item_of_row (entry_row k e) MEMORY_CATEGORY_SHORT_TERM = mk_item k e.1.1 e.1.2 e.2 MEMORY_CATEGORY_SHORT_TERM.
Proof.
  destruct e as [[v t] md]. intros (Hk & Hv & Hm & Ht). unfold item_of_row, entry_row, column_text, column_int64, column.
  cbn [nth default id fst snd] in *. rewrite !snprintf_s_id by done. by rewrite wrap_small by lia.
Qed.

Ltac ready := rewrite mlaw_prepare by (done || (unfold memory_statements; set_solver)); cbn [negb].

(** One command: the code answers as the specification and keeps
    representing the map. *)
Lemma command_refines c m s : command_ok c → represents m s →
  ∃ m', impl_command c m = Some (m', (spec_command c s).2) ∧ represents m' (spec_command c s).1.
Proof.
  intros Hc Hr. destruct (represents_handle m s Hr) as (d & Hh & Hd & Hb & Hready). pose proof (rep_ok _ _ Hr) as Hok.
  destruct c as [i|k|k| |now days]; cbn [impl_command spec_command fst snd].
  - destruct Hc as [H1 H2 H3 H4]. unfold memory_store. rewrite Hh. cbn [mbind option_bind]. ready.
    rewrite swrap_small by lia.
    destruct (mlaw_insert d (mi_key i) (mi_value i) (mi_timestamp i) (mi_metadata i) Hready) as (d' & -> & Hd' & Hready').
    cbn [mbind option_bind]. eexists. split; [done|]. apply represents_set; [done|by rewrite Hd', Hd|done|].
    by apply map_Forall_insert_2.
  - unfold memory_recall. rewrite Hh. cbn [mbind option_bind]. ready. rewrite mlaw_select, Hd by done.
    destruct (s !! k) as [e|] eqn:Es; cbn [mbind option_bind].
    + cbn [mi_category item_zero]. rewrite item_of_entry by (by eapply map_Forall_lookup_1 in Es).
      destruct e as [[v t] md]. eexists. split; [done|]. by apply represents_set.
    + eexists. split; [done|]. by apply represents_set.
  - unfold memory_delete. rewrite Hh. cbn [mbind option_bind]. ready.
    destruct (mlaw_delete d k Hready) as (d' & -> & Hd' & Hready'). cbn [mbind option_bind]. eexists. split; [done|].
    apply represents_set; [done|by rewrite Hd', Hd|done|]. by apply map_Forall_delete.
  - unfold memory_clear. rewrite Hh. cbn [mbind option_bind]. eexists. split; [done|].
    destruct (mlaw_clear d Hready) as [Hc1 Hr1]. destruct (mlaw_clear_fts _ Hr1) as [Hc2 Hr2].
    apply represents_set; [done|by rewrite Hc2|done|apply map_Forall_empty].
  - destruct Hc as [Hdays Hcut]. unfold memory_hygiene_run. rewrite (proj2 (Z.leb_gt days 0)) by lia.
    rewrite (proj2 (Z.leb_gt _ _)) by lia. rewrite Hh. cbn [mbind option_bind]. rewrite wrap_small by lia.
    destruct (mlaw_expire d (now - days * 86400) Hready Hcut) as (d' & -> & Hd' & Hready'). cbn [mbind option_bind].
    eexists. split; [done|]. apply represents_set; [done|by rewrite Hd', Hd|done|].
    intros k e [He _]%map_lookup_filter_Some. by eapply map_Forall_lookup_1 in He.
Qed.

(** C14: Any sequence of stores, recalls, deletions, clearings and expiries on the
    SQLite back end, while its database can be used, behaves as the same
    sequence on a finite map: every item comes back with its value, time and
    metadata until it is replaced, deleted or expired. *)
Theorem memory_refines_map l m s : Forall command_ok l → represents m s →
  ∃ m', impl_run l m = Some (m', (spec_run l s).2) ∧ represents m' (spec_run l s).1.
Proof.
  intros Hl. revert m s. induction Hl as [|c l Hc _ IH]; intros m s Hr; cbn [impl_run spec_run].
  { by exists m. }
  destruct (command_refines c m s Hc Hr) as (m1 & -> & Hr1). cbn [mbind option_bind].
  destruct (spec_command c s) as [s1 a]. cbn [fst snd] in *.
  destruct (IH m1 s1 Hr1) as (m2 & -> & Hr2). cbn [mbind option_bind].
  destruct (spec_run l s1) as [s2 r]. by exists m2.
Qed.
End refinement.

(** ** A database that satisfies the laws *)

Module MapDb.

Inductive stmt := Insert | Select | Delete.

Definition stmts : list (cstr * stmt) :=
  [(MEM_INSERT_SQL, Insert); (MEM_SELECT_SQL, Select); (MEM_DELETE_SQL, Delete)].

Definition stmt_of (sql : cstr) : option stmt := snd <$> List.find (λ p, streq p.1 sql) stmts.

Definition step (d : gmap cstr entry) (sql : cstr) (args : list sqlval) : gmap cstr entry * list row * bool :=
  match stmt_of sql, args with
  | Some Insert, [SText k; SText v; SInt t; SText md] => (<[k := (v, t, md)]> d, [], true)
  | Some Select, [SText k] => (d, match d !! k with Some e => [entry_row k e] | None => [] end, true)
  | Some Delete, [SText k] => (delete k d, [], true)
  | _, _ => (d, [], true)
  end.

Definition EXPIRE_PREFIX : cstr := lit "DELETE FROM memory WHERE timestamp < ".

Definition exec (d : gmap cstr entry) (sql : cstr) : gmap cstr entry * bool :=
  if streq sql MEM_CLEAR_SQL then (∅, true)
  else if has_prefix EXPIRE_PREFIX sql
  then (filter (λ p : cstr * entry, strtol10 (drop (length EXPIRE_PREFIX) sql) <= p.2.1.2) d, true)
  else (d, true).

#[global] Instance map_sqlite : Sqlite (gmap cstr entry) := {
  db_open _ := Some ∅;
  db_prepare _ _ := true;
  db_step := step;
  db_exec := exec;
  db_last_rowid _ := 0;
  db_real_text _ := [];
  db_cast_int _ := 0;
  db_cast_real _ := f64_zero;
}.

Lemma step_known d sql s args : stmt_of sql = Some s → step d sql args =
  match s, args with
  | Insert, [SText k; SText v; SInt t; SText md] => (<[k := (v, t, md)]> d, [], true)
  | Select, [SText k] => (d, match d !! k with Some e => [entry_row k e] | None => [] end, true)
  | Delete, [SText k] => (delete k d, [], true)
  | _, _ => (d, [], true)
  end.
Proof. intros E. unfold step. by rewrite E. Qed.

Lemma exec_expire d c : 0 <= c < 2 ^ 63 →
  exec d (MEM_EXPIRE_SQL c) = (filter (λ p : cstr * entry, c <= p.2.1.2) d, true).
Proof.
  intros Hc. unfold exec, MEM_EXPIRE_SQL. fold EXPIRE_PREFIX.
  assert (has_prefix EXPIRE_PREFIX (EXPIRE_PREFIX ++ fmt_dec c) = true) as -> by (apply has_prefix_spec; eauto).
  rewrite (proj2 (streq_false _ _)).
  - rewrite drop_app_length. rewrite <- (app_nil_r (fmt_dec c)), strtol10_fmt_dec by (done || lia). done.
  - intros E%(f_equal length). rewrite length_app in E. change (length EXPIRE_PREFIX) with 37%nat in E.
    change (length MEM_CLEAR_SQL) with 18%nat in E. lia.
Qed.

#[global] Program Instance map_laws : MemoryLaws (gmap cstr entry) := { mem_rows d := d; mem_ready _ := True }.
Next Obligation. done. Qed.
Next Obligation. intros d k v t md _. eexists. cbn [db_step map_sqlite]. by rewrite (step_known _ MEM_INSERT_SQL Insert) by by_eval. Qed.
Next Obligation. intros d k _. cbn [db_step map_sqlite]. by rewrite (step_known _ MEM_SELECT_SQL Select) by by_eval. Qed.
Next Obligation. intros d k _. eexists. cbn [db_step map_sqlite]. by rewrite (step_known _ MEM_DELETE_SQL Delete) by by_eval. Qed.
Next Obligation. done. Qed.
Next Obligation. done. Qed.
Next Obligation. intros d c _ Hc. eexists. cbn [db_exec map_sqlite]. by rewrite exec_expire. Qed.

Definition opened : memory_t (gmap cstr entry) :=
  (memory_init true MEMORY_BACKEND_SQLITE (Some (lit "/tmp/memory.db"))).1.

Lemma opened_represents : represents opened ∅.
Proof. split; [done | by eexists | apply map_Forall_empty]. Qed.
End MapDb.

Definition commands_ex : list command :=
  [CStore (mk_item (lit "city") (lit "Paris") 100 [] MEMORY_CATEGORY_CORE); CRecall (lit "city");
   CExpire 90000 1; CRecall (lit "city")].

Lemma memory_refines_map_witness :
  ∃ m', impl_run (λ x, x) commands_ex MapDb.opened = Some (m', (spec_run commands_ex ∅).2) ∧
    represents m' (spec_run commands_ex ∅).1.
Proof.
  apply memory_refines_map; [|apply MapDb.opened_represents].
  apply Forall_cons; split; [split; [apply Nat.ltb_lt; by_eval | apply Nat.ltb_lt; by_eval
    | apply Nat.ltb_lt; by_eval | simpl; lia]|].
  apply Forall_cons; split; [exact I|]. apply Forall_cons; split; [simpl; lia|].
  apply Forall_cons; split; [exact I | apply Forall_nil; exact I].
Defined.
