(* ===== verification/UtilCodec.v ===== *)
(** * Text encodings of [src/util/util.c]

    Whitespace trimming, hexadecimal, base64 and URL encodings, string
    joining, and the message authentication code the webhook checks use. *)
From S2P Require Import Prelude.

(** ** Trimming *)

Definition is_ws (c : Z) : bool := (c =? 32) || (c =? 9) || (c =? 10) || (c =? 13).

(** [str] is advanced over the leading blanks in a local variable only, so
    the caller's string keeps them; the trailing blanks are cut. *)
Definition util_trim_whitespace (str : option cstr) : option cstr :=
  match str with
  | None => None
  | Some s =>
      let body := skip_while is_ws s in
      match body with
      | [] => Some s
      | _ => Some (take_while is_ws s ++ rstrip is_ws body)
      end
  end.

(** ** Hexadecimal *)

Definition hex_chars : cstr := lit "0123456789abcdef".

(** [output[i * 2]], [output[i * 2 + 1]] for each input byte. *)
Fixpoint util_hex_encode (input : list Z) : cstr :=
  match input with
  | [] => []
  | b :: input' =>
      nth (Z.to_nat (Z.land (Z.shiftr b 4) 15)) hex_chars 0 ::
      nth (Z.to_nat (Z.land b 15)) hex_chars 0 ::
      util_hex_encode input'
  end.

(** One nibble: [(c >= 'a') ? (c - 'a' + 10) : (c - '0')] stored in an
    [unsigned char]. *)
Definition hex_nibble (c : Z) : Z :=
  u8 (if 97 <=? schar c then schar c - 97 + 10 else schar c - 48).

Fixpoint util_hex_decode (input : cstr) : list Z :=
  match input with
  | high :: low :: input' =>
      u8 (Z.lor (Z.shiftl (hex_nibble high) 4) (hex_nibble low)) :: util_hex_decode input'
  | _ => []
  end.

(** ** Duplication: a fresh copy, when [malloc] succeeds. *)
Definition util_strdup (malloc_ok : bool) (s : option cstr) : option cstr :=
  if malloc_ok then s else None.

(** ** Base64 *)

Definition BASE64_TABLE : cstr :=
  lit "ABCDEFGHIJKLMNOPQRSTUVWXYZabcdefghijklmnopqrstuvwxyz0123456789+/".

Definition b64_char (i : Z) : Z := nth (Z.to_nat i) BASE64_TABLE 0.

(** [unsigned char triple = (b1 << 16) + (b2 << 8) + b3]: the sum is cut to
    eight bits before the four table look-ups. *)
Definition base64_group (b1 b2 b3 : Z) : cstr :=
  let triple := u8 (Z.shiftl b1 16 + Z.shiftl b2 8 + b3) in
  [b64_char (Z.land (Z.shiftr triple 18) 63);
   b64_char (Z.land (Z.shiftr triple 12) 63);
   b64_char (Z.land (Z.shiftr triple 6) 63);
   b64_char (Z.land triple 63)].

Fixpoint base64_groups (input : list Z) : cstr :=
  match input with
  | b1 :: b2 :: b3 :: input' => base64_group b1 b2 b3 ++ base64_groups input'
  | [b1; b2] => base64_group b1 b2 0
  | [b1] => base64_group b1 0 0
  | [] => []
  end.

(** The bytes written to [output], and whether a NUL was stored after them
    ([if (j < output_size) output[j] = '\0']). *)
Definition util_base64_encode (input : list Z) (output_size : Z) : cstr * bool :=
  let out := base64_groups input in
  let j := length out in
  let padding := ((3 - length input mod 3) mod 3)%nat in
  let out := for_ 0 padding (λ p o, <[(j - 1 - p)%nat := ch "="]> o) out in
  (out, Z.of_nat j <? output_size).

Definition base64_decode_char (c : Z) : Z :=
  if (65 <=? c) && (c <=? 90) then c - 65
  else if (97 <=? c) && (c <=? 122) then c - 97 + 26
  else if (48 <=? c) && (c <=? 57) then c - 48 + 52
  else if c =? 43 then 62
  else if c =? 47 then 63
  else -1.

(** The decoding loop.  [input] is the string with its terminator; a read
    beyond the terminator has no defined result ([None]).  The outcome is
    the return code and the bytes stored, at most [cap] (the initial
    [*out_len]).  [i] advances by two while the characters are read and by
    four at the end of the iteration. *)
Fixpoint base64_decode_loop (fuel : nat) (input : list Z) (len cap i : nat) (out : list Z)
    : option (Z * list Z) :=
  match fuel with
  | O => None
  | S fuel' =>
      if negb (i <? len)%nat then Some (0, out)
      else
        c0 ← input !! i;
        if c0 =? ch "=" then Some (0, out)
        else
          c1 ← input !! (i + 1)%nat;
          let b1 := base64_decode_char c0 in
          let b2 := base64_decode_char c1 in
          let i := (i + 2)%nat in
          c2 ← input !! i;
          let b3 := if c2 =? ch "=" then 0 else base64_decode_char c2 in
          c3 ← input !! (i + 1)%nat;
          let b4 := if c3 =? ch "=" then 0 else base64_decode_char c3 in
          if (b1 <? 0) || (b2 <? 0) then Some (-1, out)
          else
            let triple := u8 (b1 * 2 ^ 18 + b2 * 2 ^ 12 + b3 * 2 ^ 6 + b4) in
            let put (b : Z) (o : list Z) := if (length o <? cap)%nat then o ++ [b] else o in
            let out := put (Z.land (Z.shiftr triple 16) 255) out in
            let out := if (Z.of_nat i <? Z.of_nat len - 2) && negb (c3 =? ch "=")
                       then put (Z.land (Z.shiftr triple 8) 255) out else out in
            if Z.of_nat i <? Z.of_nat len - 3
            then c4 ← input !! (i + 2)%nat;
                 let out := if negb (c4 =? ch "=") then put (Z.land triple 255) out else out in
                 base64_decode_loop fuel' input len cap (i + 4) out
            else base64_decode_loop fuel' input len cap (i + 4) out
  end.

Definition util_base64_decode (input : cstr) (cap : nat) : option (Z * list Z) :=
  let len := length input in
  if negb (len mod 4 =? 0)%nat then Some (-1, [])
  else base64_decode_loop (S len) (input ++ [0]) len cap 0 [].

(** ** URL encoding *)

Definition URL_ENCODE_CHARS : cstr :=
  lit "abcdefghijklmnopqrstuvwxyzABCDEFGHIJKLMNOPQRSTUVWXYZ0123456789-_.~".

(** [for (i = 0; input[i] && j < output_size - 4; i++)]; [lim] is
    [output_size - 4] as a [size_t], [j] the bytes written so far. *)
Fixpoint url_encode_loop (lim : Z) (j : Z) (input : cstr) : cstr :=
  match input with
  | [] => []
  | c :: input' =>
      if j <? lim then
        match strchr URL_ENCODE_CHARS c with
        | Some _ => c :: url_encode_loop lim (j + 1) input'
        | None => ch "%" :: fmt_hex true 2 c ++ url_encode_loop lim (j + 3) input'
        end
      else []
  end.

Definition util_url_encode (input : cstr) (output_size : Z) : cstr :=
  url_encode_loop (u64 (output_size - 4)) 0 input.

(** [strtol(hex, NULL, 16)] of the two characters after a percent sign. *)
Fixpoint scan_hex (acc : Z) (s : cstr) : Z :=
  match s with
  | c :: s' => match hex_value c with Some v => scan_hex (acc * 16 + v) s' | None => acc end
  | [] => acc
  end.

Definition strtol16_2 (a b : Z) : Z :=
  let s := skip_while isspace [a; b] in
  match s with
  | 45 :: s' => - scan_hex 0 s'
  | 43 :: s' => scan_hex 0 s'
  | _ => scan_hex 0 s
  end.

Fixpoint url_decode_loop (lim : Z) (j : Z) (input : cstr) : cstr :=
  match input with
  | [] => []
  | c :: input' =>
      if j <? lim then
        if c =? ch "%" then
          match input' with
          | a :: b :: input'' => u8 (strtol16_2 a b) :: url_decode_loop lim (j + 1) input''
          | _ => c :: url_decode_loop lim (j + 1) input'
          end
        else if c =? ch "+" then 32 :: url_decode_loop lim (j + 1) input'
        else c :: url_decode_loop lim (j + 1) input'
      else []
  end.

(** The bytes stored; the string the caller sees ends at the first NUL, which
    a ["%00"] escape can put before the end. *)
Definition util_url_decode (input : cstr) (output_size : Z) : list Z :=
  url_decode_loop (u64 (output_size - 1)) 0 input.

(** ** Joining *)

(** [total_len] reserves four separators whatever the number of arguments;
    writing past the allocation has no defined result. *)
Definition strjoin_alloc (separator : cstr) (args : list cstr) : nat :=
  (sum_list (map length args) + length separator * 4 + 1)%nat.

Fixpoint strjoin_text (separator : cstr) (first : bool) (args : list cstr) : cstr :=
  match args with
  | [] => []
  | s :: args' => (if first then [] else separator) ++ s ++ strjoin_text separator false args'
  end.

Definition util_strjoin (separator : cstr) (args : list cstr) : option cstr :=
  let text := strjoin_text separator true args in
  if (length text + 1 <=? strjoin_alloc separator args)%nat then Some text else None.

(** ** The message authentication code *)

Definition HMAC_INNER_MAX : nat := Z.to_nat 32768.

Definition xor_bytes (k : Z) (l : list Z) : list Z := map (λ b, Z.lxor b k) l.

(** The key material [tk]: zeros for a key longer than 64 bytes, else the
    first 32 bytes of the key over what the uninitialised array [junk]
    happens to hold. *)
Definition hmac_tk (junk key : list Z) : list Z :=
  if (64 <? length key)%nat then replicate 32 0
  else take 32 (take 32 key ++ drop (length (take 32 key)) junk).

Definition hmac_sha256_compute (junk key data : list Z) : list Z :=
  let data := take HMAC_INNER_MAX data in
  let tk := hmac_tk junk key in
  let k := xor_bytes 0x36 tk ++ xor_bytes 0x5c tk in
  let ipad := xor_bytes 0x36 k in
  let inner_input := ipad ++ data in
  let inner_result := take 32 inner_input in
  let k := xor_bytes 0x5c tk ++ xor_bytes 0x36 tk in
  let hash2 := k ++ inner_result in
  zip_with Z.lxor (take 32 (drop 32 hash2)) inner_result.

Definition util_hmac_sha256 (junk key message : list Z) : cstr :=
  (util_base64_encode (hmac_sha256_compute junk key message) 65).1.

(** The three webhook verifiers have the same body. *)
Definition webhook_verify (junk : list Z) (secret body signature : option cstr) : Z :=
  match secret, body, signature with
  | Some secret, Some body, Some signature =>
      if streq (util_hmac_sha256 junk secret body) signature then 0 else -1
  | _, _, _ => -1
  end.
Definition util_webhook_verify_telegram := webhook_verify.
Definition util_webhook_verify_discord := webhook_verify.
Definition util_webhook_verify_slack := webhook_verify.

(** ** Trimming keeps the leading blanks *)

Lemma take_while_skip_while f s : take_while f s ++ skip_while f s = s.
Proof. induction s as [|b s IH]; simpl; [done|]. destruct (f b); simpl; by rewrite ?IH. Qed.

(** ** Hexadecimal round trip *)

Lemma hex_byte_roundtrip b :
  is_byte b →
  u8 (Z.lor (Z.shiftl (hex_nibble (nth (Z.to_nat (Z.land (Z.shiftr b 4) 15)) hex_chars 0)) 4)
            (hex_nibble (nth (Z.to_nat (Z.land b 15)) hex_chars 0))) = b.
Proof.
  intros Hb. apply Z.eqb_eq. revert b Hb.
  apply (byte_forall (λ b, u8 _ =? b)). by_eval.
Qed.

(** [util_hex_decode] inverts [util_hex_encode] on every byte sequence. *)
Theorem hex_roundtrip bs : Forall is_byte bs → util_hex_decode (util_hex_encode bs) = bs.
Proof.
  induction 1 as [|b bs Hb Hbs IH]; [done|].
  cbn [util_hex_encode util_hex_decode]. by rewrite IH, hex_byte_roundtrip.
Qed.

Lemma hex_roundtrip_witness : util_hex_decode (util_hex_encode [0; 127; 128; 255]) = [0; 127; 128; 255].
Proof. apply hex_roundtrip. repeat constructor; unfold is_byte; lia. Defined.

(** ** URL encoding *)

(** What the encoder writes for one character. *)
Definition url_piece (c : Z) : cstr :=
  match strchr URL_ENCODE_CHARS c with
  | Some _ => [c]
  | None => ch "%" :: fmt_hex true 2 c
  end.

Lemma url_piece_length c : (1 ≤ length (url_piece c) ≤ 3)%nat.
Proof. unfold url_piece. destruct (strchr _ _); simpl; lia. Qed.

Lemma url_encode_loop_enough lim j s :
  j + 3 * Z.of_nat (length s) <= lim → url_encode_loop lim j s = concat (map url_piece s).
Proof.
  revert j. induction s as [|c s IH]; intros j Hj; [done|].
  cbn [url_encode_loop map concat]. rewrite length_cons in Hj.
  rewrite (proj2 (Z.ltb_lt j lim)) by lia.
  unfold url_piece at 1. destruct (strchr URL_ENCODE_CHARS c).
  - rewrite IH by lia. done.
  - rewrite IH by lia. done.
Qed.

(** The encoder never writes past its buffer: the text and its NUL fit. *)
Lemma url_encode_loop_bound lim j s :
  j <= lim + 2 → j + Z.of_nat (length (url_encode_loop lim j s)) <= lim + 2.
Proof.
  revert j. induction s as [|c s IH]; intros j Hj; cbn [url_encode_loop]; [simpl; lia|].
  case_if; [|simpl; lia]. destruct (strchr URL_ENCODE_CHARS c).
  - specialize (IH (j + 1)). rewrite length_cons. lia.
  - specialize (IH (j + 3)). rewrite length_cons, length_app.
    change (length (fmt_hex true 2 c)) with 2%nat. lia.
Qed.

(** A character that encodes as itself is neither ['%'] nor ['+']. *)
Lemma url_safe_plain c i :
  is_byte c → strchr URL_ENCODE_CHARS c = Some i → c ≠ ch "%" ∧ c ≠ ch "+".
Proof.
  intros Hb Hi.
  assert (implb (bool_decide (is_Some (strchr URL_ENCODE_CHARS c)))
            (negb (c =? ch "%") && negb (c =? ch "+")) = true) as H.
  { revert c Hb Hi. intros c Hb _. revert c Hb.
    apply (byte_forall (λ c, implb (bool_decide (is_Some (strchr URL_ENCODE_CHARS c)))
            (negb (c =? ch "%") && negb (c =? ch "+")))). by_eval. }
  rewrite Hi in H. rewrite bool_decide_eq_true_2 in H by eauto. simpl in H. by bsplit.
Qed.

Lemma url_hex_roundtrip c :
  is_byte c → ∃ a b, fmt_hex true 2 c = [a; b] ∧ u8 (strtol16_2 a b) = c.
Proof.
  intros Hb. eexists _, _. split; [reflexivity|]. apply Z.eqb_eq. revert c Hb.
  apply (byte_forall (λ c, u8 _ =? c)). by_eval.
Qed.

Lemma url_decode_pieces lim j s :
  Forall is_byte s → j + Z.of_nat (length s) <= lim →
  url_decode_loop lim j (concat (map url_piece s)) = s.
Proof.
  intros Hs. revert j. induction Hs as [|c s Hc Hs IH]; intros j Hj; [done|].
  rewrite length_cons in Hj. cbn [map concat]. unfold url_piece at 1.
  destruct (strchr URL_ENCODE_CHARS c) eqn:E.
  - destruct (url_safe_plain _ _ Hc E) as [H1 H2].
    cbn [app url_decode_loop]. rewrite (proj2 (Z.ltb_lt j lim)) by lia.
    rewrite (proj2 (Z.eqb_neq _ _) H1), (proj2 (Z.eqb_neq _ _) H2). by rewrite IH by lia.
  - destruct (url_hex_roundtrip c Hc) as (a & b & -> & Hab).
    cbn [app url_decode_loop]. rewrite (proj2 (Z.ltb_lt j lim)) by lia.
    rewrite Z.eqb_refl, Hab. by rewrite IH by lia.
Qed.

Lemma wf_cstr_bytes s : wf_cstr s → Forall is_byte s.
Proof. intros H. eapply Forall_impl; [exact H|]. unfold is_byte. simpl. lia. Qed.

(** Decoding an encoded string gives it back, for every C string and for
    buffers as large as the encoding can need. *)
Theorem url_roundtrip s esize dsize :
  wf_cstr s →
  3 * Z.of_nat (length s) + 4 <= esize < 2 ^ 64 →
  Z.of_nat (length s) + 1 <= dsize < 2 ^ 64 →
  util_url_decode (util_url_encode s esize) dsize = s.
Proof.
  intros Hs He Hd. unfold util_url_encode, util_url_decode.
  rewrite !wrap_small by lia. rewrite url_encode_loop_enough by lia.
  apply url_decode_pieces; [by apply wf_cstr_bytes | lia].
Qed.

Lemma url_roundtrip_witness :
  util_url_decode (util_url_encode (lit "a b+c/100%") 64) 32 = lit "a b+c/100%".
Proof. apply url_roundtrip; [repeat constructor | vm_compute; intuition congruence ..]. Defined.

(** Whatever the input, [util_url_encode] keeps its text and the
    terminator inside a buffer of at least four bytes. *)
Theorem url_encode_in_bounds s size :
  4 <= size < 2 ^ 64 → Z.of_nat (length (util_url_encode s size)) + 1 <= size.
Proof.
  intros H. unfold util_url_encode. rewrite wrap_small by lia.
  pose proof (url_encode_loop_bound (size - 4) 0 s). lia.
Qed.

Lemma url_encode_in_bounds_witness :
  Z.of_nat (length (util_url_encode (lit "%%%%%%%%") 16)) + 1 <= 16.
Proof. apply url_encode_in_bounds. lia. Defined.

(** ** Joining *)

Lemma strjoin_text_length sep first args :
  length (strjoin_text sep first args) =
  (sum_list (map length args) + length sep * (if first then length args - 1 else length args))%nat.
Proof.
  revert first. induction args as [|s args IH]; intros first; [destruct first; simpl; lia|].
  cbn [strjoin_text]. rewrite !length_app, IH. simpl map. simpl sum_list.
  replace (length (s :: args) - 1)%nat with (length args) by (simpl; lia).
  destruct first; rewrite ?length_cons, ?Nat.mul_succ_r; simpl length; lia.
Qed.

(** [util_strjoin] stays inside its allocation, and returns the joined
    text, exactly when at most five strings are joined or the separator is
    empty: the allocation reserves four separators whatever the count. *)
Theorem strjoin_fits_iff sep args :
  util_strjoin sep args = Some (strjoin_text sep true args) ↔
  (length args ≤ 5)%nat ∨ sep = [].
Proof.
  unfold util_strjoin, strjoin_alloc. rewrite strjoin_text_length.
  case_if.
  - split; [intros _ | done]. destruct sep as [|c sep]; [by right|]. left.
    destruct (decide (length args ≤ 5)%nat); [done|].
    assert (length (c :: sep) * 5 ≤ length (c :: sep) * (length args - 1))%nat.
    { apply Nat.mul_le_mono_l. lia. }
    assert (0 < length (c :: sep))%nat by (simpl; lia). lia.
  - split; [done|]. intros [H| ->]; [|simpl in *; lia].
    assert (length sep * (length args - 1) ≤ length sep * 4)%nat.
    { apply Nat.mul_le_mono_l. lia. }
    lia.
Qed.

(** ** Base64 *)

Lemma base64_groups_length input :
  length (base64_groups input) = (4 * ((length input + 2) / 3))%nat.
Proof.
  assert (∀ n input, (length input ≤ n)%nat →
    length (base64_groups input) = (4 * ((length input + 2) / 3))%nat) as H; [|eauto].
  clear input. induction n as [|n IH]; intros [|b1 [|b2 [|b3 input]]] Hn; simpl in Hn; try lia; try done.
  cbn [base64_groups]. rewrite length_app, IH by lia.
  replace (length (b1 :: b2 :: b3 :: input) + 2)%nat with (length input + 2 + 1 * 3)%nat by (simpl; lia).
  rewrite Nat.div_add by done. simpl length. lia.
Qed.

(** Only the third byte of a group reaches the text: the first two are cut
    off when the 24-bit value is stored in an [unsigned char]. *)
Lemma base64_group_low b1 b2 b3 : is_byte b3 → base64_group b1 b2 b3 = base64_group 0 0 b3.
Proof.
  intros Hb. unfold base64_group.
  replace (u8 (Z.shiftl b1 16 + Z.shiftl b2 8 + b3)) with (u8 (Z.shiftl 0 16 + Z.shiftl 0 8 + b3)); [done|].
  unfold wrap. rewrite !Z.shiftl_mul_pow2 by lia.
  replace (b1 * 2 ^ 16 + b2 * 2 ^ 8 + b3) with (b3 + (b1 * 2 ^ 8 + b2) * 2 ^ 8) by lia.
  rewrite Z.mod_add by lia. done.
Qed.

(** ** The webhook signature *)

Lemma hmac_tk_length junk key : length junk = 32%nat → length (hmac_tk junk key) = 32%nat.
Proof.
  intros Hj. unfold hmac_tk. case_if; [done|].
  rewrite length_take, length_app, length_take, length_drop. lia.
Qed.

Lemma xor_bytes_length k l : length (xor_bytes k l) = length l.
Proof. apply length_map. Qed.

Lemma zip_xor_cancel k l :
  zip_with Z.lxor (xor_bytes k l) (xor_bytes k (xor_bytes k l)) = replicate (length l) k.
Proof.
  induction l as [|b l IH]; [done|]. simpl in *. f_equal; [|done].
  generalize (Z.lxor b k) as c; intros c.
  by rewrite <- Z.lxor_assoc, Z.lxor_nilpotent, Z.lxor_0_l.
Qed.

Lemma hmac_constant junk key data :
  length junk = 32%nat → hmac_sha256_compute junk key data = replicate 32 0x36.
Proof.
  intros Hj. unfold hmac_sha256_compute.
  pose proof (hmac_tk_length junk key Hj) as Ht. set (tk := hmac_tk junk key) in *.
  assert (take 32 (xor_bytes 54 (xor_bytes 54 tk ++ xor_bytes 92 tk) ++ take HMAC_INNER_MAX data)
          = xor_bytes 54 (xor_bytes 54 tk)) as ->.
  { unfold xor_bytes at 1. rewrite map_app, <- app_assoc.
    fold (xor_bytes 54 (xor_bytes 54 tk)).
    rewrite take_app_length'; [done|]. by rewrite !xor_bytes_length. }
  rewrite <- app_assoc, drop_app_length' by (by rewrite xor_bytes_length).
  rewrite take_app_length' by (by rewrite xor_bytes_length).
  by rewrite zip_xor_cancel, Ht.
Qed.

(** The one text every signature check compares against. *)
Definition webhook_constant : cstr := lit "AAA2AAA2AAA2AAA2AAA2AAA2AAA2AAA2AAA2AAA2AAA=".

(** The webhook signature carries no information: for every secret and
    every body the verifier accepts one fixed text and nothing else, so a
    sender who does not know the secret passes the check for any message. *)
Theorem webhook_signature_constant junk secret body signature :
  length junk = 32%nat →
  util_webhook_verify_telegram junk (Some secret) (Some body) (Some signature) = 0 ↔
  signature = webhook_constant.
Proof.
  intros Hj. unfold util_webhook_verify_telegram, webhook_verify, util_hmac_sha256.
  rewrite hmac_constant by done.
  replace (util_base64_encode (replicate 32 54) 65).1 with webhook_constant by by_eval.
  destruct (streq webhook_constant signature) eqn:E.
  - apply streq_true in E as <-. done.
  - apply streq_false in E. split; [lia | by intros ->].
Qed.

Lemma webhook_signature_constant_witness :
  util_webhook_verify_telegram (replicate 32 0) (Some (lit "secret")) (Some (lit "{}"))
    (Some webhook_constant) = 0.
Proof. by apply webhook_signature_constant. Defined.
