(* ===== verification/UtilJson.v ===== *)
(** * The JSON reader of [src/util/util.c]

    A recursive descent reader into a tagged union.  The arrays of member
    values are pointers that no function allocates: after [util_json_init] has
    cleared the root they are NULL.  Reading the first member hands that NULL
    on, gets NULL back as the new position and reads through it: [None]. *)
From S2P Require Import Prelude Floats.

Definition JSON_MAX_STRING_LEN : nat := Z.to_nat 4096.
Definition JSON_MAX_KEYS : nat := 64.

(** The value union with its tag. *)
Inductive json_value_t :=
  | JSON_NULL
  | JSON_BOOL (b : bool)
  | JSON_NUMBER (x : f64)
  | JSON_STRING (s : cstr)
  | JSON_ARRAY (values : list json_value_t)
  | JSON_OBJECT (members : list (cstr * json_value_t)).

Record json_parser_t := mk_parser { root : json_value_t; jp_error : option cstr }.

Definition json_ws (b : Z) : bool := (b =? 32) || (b =? 9) || (b =? 10) || (b =? 13).
Definition json_skip_whitespace (p : cstr) : cstr := skip_while json_ws p.

Definition unescape_char (c : Z) : Z :=
  if c =? 110 then 10 else if c =? 114 then 13 else if c =? 116 then 9 else c.

(** The loop behind the opening quote: [room] more bytes fit. *)
Fixpoint string_loop (room : nat) (p : cstr) : cstr * cstr :=
  match p, room with
  | [], _ => ([], [])
  | _, O => ([], p)
  | c :: p', S room' =>
      if c =? 34 then ([], p)
      else if c =? 92 then
        match p' with
        | [] => let '(s, r) := string_loop room' p' in (c :: s, r)
        | e :: p'' => let '(s, r) := string_loop room' p'' in (unescape_char e :: s, r)
        end
      else let '(s, r) := string_loop room' p' in (c :: s, r)
  end.

(** [None] is NULL: no string starts here. *)
Definition json_parse_string (p : cstr) (out_size : nat) : option (cstr * cstr) :=
  match p with
  | [] => None
  | c :: p' =>
      if negb (c =? 34) then None
      else
        let '(s, r) := string_loop (out_size - 1) p' in
        Some (s, match r with [] => [] | q :: r' => if q =? 34 then r' else r end)
  end.

Section json.
(** [strtod]: the value and the rest of the text. *)
Context (strtod : cstr → f64 * cstr).

(** The position behind the value; [None] is NULL. *)
Abbreviation parsed := (option (json_value_t * option cstr)).

(** An object: behind the brace, either its end, the end of the text (the loop
    is not entered), a key that is no string, or a member. *)
Definition json_parse_object (p : cstr) : parsed :=
  match json_skip_whitespace (drop 1 p) with
  | [] => Some (JSON_OBJECT [], Some [])
  | c :: r =>
      if c =? 125 then Some (JSON_OBJECT [], Some r)
      else match json_parse_string (c :: r) 64 with
           | None => Some (JSON_OBJECT [], None)
           | Some _ => None
           end
  end.

Definition json_parse_array (p : cstr) : parsed :=
  match json_skip_whitespace (drop 1 p) with
  | [] => Some (JSON_ARRAY [], Some [])
  | c :: r => if c =? 93 then Some (JSON_ARRAY [], Some r) else None
  end.

Definition starts_number (c : Z) : bool := (c =? 45) || isdigit c.

(** [before] is what the union holds when no value is recognised. *)
Definition json_parse_value (before : json_value_t) (p : cstr) : parsed :=
  match json_skip_whitespace p with
  | [] => Some (before, None)
  | c :: r =>
      let p := c :: r in
      if c =? 123 then json_parse_object p
      else if c =? 91 then json_parse_array p
      else if c =? 34 then
        match json_parse_string p JSON_MAX_STRING_LEN with
        | Some (s, r) => Some (JSON_STRING s, Some r)
        | None => Some (JSON_STRING [], None)
        end
      else if strneq 4 p (lit "true") then Some (JSON_BOOL true, Some (drop 4 p))
      else if strneq 5 p (lit "false") then Some (JSON_BOOL false, Some (drop 5 p))
      else if strneq 4 p (lit "null") then Some (JSON_NULL, Some (drop 4 p))
      else if starts_number c then let '(x, r) := strtod p in Some (JSON_NUMBER x, Some r)
      else Some (before, None)
  end.

Definition util_json_init (json_str : cstr) : option (json_parser_t * Z) :=
  '(v, p) ← json_parse_value JSON_NULL json_str;
  Some match p with
       | Some _ => (mk_parser v None, 0)
       | None => (mk_parser v (Some (lit "Parse error")), -1)
       end.
End json.

(** The first member of a path, as the key the code compares; [None]: too
    long, and a text that is not cut. *)
Definition path_key (path : cstr) : option (cstr * option cstr) :=
  match strchr path 46 with
  | Some i => if (64 <=? i)%nat then None else Some (take i path, Some (drop (S i) path))
  | None => Some (snprintf_s 64 path, None)
  end.

Fixpoint util_json_get (obj : json_value_t) (path : cstr) : option json_value_t :=
  match obj with
  | JSON_OBJECT members =>
      match path_key path with
      | None => None
      | Some (key, rest) =>
          (fix find (ms : list (cstr * json_value_t)) : option json_value_t :=
             match ms with
             | [] => None
             | (k, v) :: ms' =>
                 if streq k key
                 then match rest with Some r => util_json_get v r | None => Some v end
                 else find ms'
             end) members
      end
  | _ => None
  end.

Definition util_json_get_string (obj : json_value_t) (key default_value : cstr) : cstr :=
  match util_json_get obj key with Some (JSON_STRING s) => s | _ => default_value end.
Definition util_json_get_number (obj : json_value_t) (key : cstr) (default_value : f64) : f64 :=
  match util_json_get obj key with Some (JSON_NUMBER x) => x | _ => default_value end.
Definition util_json_get_bool (obj : json_value_t) (key : cstr) (default_value : bool) : bool :=
  match util_json_get obj key with Some (JSON_BOOL b) => b | _ => default_value end.

Definition util_json_free (p : json_parser_t) : json_parser_t := mk_parser JSON_NULL None.

(** ** Strings round trip *)

Definition escape_json (c : Z) : cstr :=
  if c =? 10 then [92; 110] else if c =? 13 then [92; 114] else if c =? 9 then [92; 116]
  else if c =? 92 then [92; 92] else if c =? 34 then [92; 34] else [c].

Lemma string_loop_escape s room rest :
  (length s ≤ room)%nat →
  string_loop room (flat_map escape_json s ++ 34 :: rest) = (s, 34 :: rest).
Proof.
  revert room. induction s as [|c s IH]; intros room Hl; cbn [flat_map app].
  { by destruct room. }
  cbn [length] in Hl. destruct room as [|room]; [lia|].
  assert (string_loop room (flat_map escape_json s ++ 34 :: rest) = (s, 34 :: rest)) as Hr by (apply IH; lia).
  unfold escape_json at 1.
  repeat match goal with |- context [if ?b then _ else _] => destruct b eqn:? end; bsplit; subst;
    cbn [app string_loop]; try (cbn [Z.eqb Pos.eqb unescape_char]; by rewrite Hr).
  rewrite (proj2 (Z.eqb_neq c 34)), (proj2 (Z.eqb_neq c 92)) by done. by rewrite Hr.
Qed.

(** A string of less than 4096 bytes that was written with its quotes,
    backslashes and control characters escaped is read back unchanged. *)
Theorem json_string_roundtrip strtod s rest :
  (length s < JSON_MAX_STRING_LEN)%nat →
  json_parse_value strtod JSON_NULL ([34] ++ flat_map escape_json s ++ [34] ++ rest) =
  Some (JSON_STRING s, Some rest).
Proof.
  intros Hl. unfold json_parse_value, json_skip_whitespace. cbn [app skip_while json_ws Z.eqb Pos.eqb orb].
  unfold json_parse_string. rewrite string_loop_escape by lia. done.
Qed.

Lemma json_string_roundtrip_witness :
  json_parse_value (λ s, (f64_zero, s)) JSON_NULL ([34] ++ flat_map escape_json (lit "say " ++ [34; 10]) ++ [34] ++ lit "}") =
  Some (JSON_STRING (lit "say " ++ [34; 10]), Some (lit "}")).
Proof. apply json_string_roundtrip. apply Nat.ltb_lt. by_eval. Defined.

(** ** What can be read *)

(** Whatever a text is, reading it gives a scalar, an empty array or an empty
    object, or is undefined; in particular no lookup in a document that was
    read finds anything. *)
Definition memberless (v : json_value_t) : Prop :=
  match v with JSON_ARRAY l => l = [] | JSON_OBJECT l => l = [] | _ => True end.

Theorem json_init_memberless strtod text parser rc path :
  util_json_init strtod text = Some (parser, rc) →
  memberless (root parser) ∧ util_json_get (root parser) path = None.
Proof.
  intros H. assert (memberless (root parser)) as Hm.
  { revert H. unfold util_json_init. destruct (json_parse_value strtod JSON_NULL text) as [[v p]|] eqn:E; [|done].
    cbn [mbind option_bind]. intros [= H]. assert (root parser = v) as -> by (destruct p; by simplify_eq/=).
    revert E. unfold json_parse_value. destruct (json_skip_whitespace text) as [|c r]; [by intros [= <- <-]|].
    cbv zeta. destruct (c =? 123).
    { unfold json_parse_object. destruct (json_skip_whitespace _) as [|b r']; [by intros [= <- <-]|].
      case_if; [by intros [= <- <-]|]. destruct (json_parse_string _ _); [done|]. by intros [= <- <-]. }
    destruct (c =? 91).
    { unfold json_parse_array. destruct (json_skip_whitespace _) as [|b r']; [by intros [= <- <-]|].
      case_if; [by intros [= <- <-]|done]. }
    destruct (c =? 34); [by destruct (json_parse_string _ _) as [[s r']|]; intros [= <- <-]|].
    repeat (case_if; [by intros [= <- <-]|]). case_if; [|by intros [= <- <-]].
    destruct (strtod (c :: r)). by intros [= <- <-]. }
  split; [done|]. destruct (root parser); try done. cbn in Hm. subst. simpl. by destruct (path_key path) as [[??]|].
Qed.

Lemma json_init_memberless_witness :
  ∃ parser, util_json_init (λ s, (f64_zero, s)) (lit " { } ") = Some (parser, 0) ∧
    memberless (root parser) ∧ util_json_get (root parser) (lit "a.b") = None.
Proof.
  exists (mk_parser (JSON_OBJECT []) None). split; [reflexivity|].
  exact (json_init_memberless (λ s, (f64_zero, s)) (lit " { } ") _ 0 (lit "a.b") eq_refl).
Defined.

(** An object with a member, or an array with an element, is not read. *)
Example json_member_undefined strtod : util_json_init strtod (lit "{" ++ [34; 97; 34] ++ lit ": 1}") = None.
Proof. reflexivity. Qed.
Example json_element_undefined strtod : util_json_init strtod (lit "[1]") = None.
Proof. reflexivity. Qed.

(** ** Lookup along a path *)

(** Below a member found under a key without a dot, the lookup goes on with
    the rest of the path. *)
Lemma json_get_path members key v path :
  Forall (λ b, b ≠ 46) key → (length key < 64)%nat →
  (∃ l1 l2, members = l1 ++ (key, v) :: l2 ∧ Forall (λ p, p.1 ≠ key) l1) →
  util_json_get (JSON_OBJECT members) (key ++ [46] ++ path) = util_json_get v path.
Proof.
  intros Hk Hl (l1 & l2 & -> & Hl1). cbn [util_json_get].
  assert (path_key (key ++ [46] ++ path) = Some (key, Some path)) as ->.
  { unfold path_key. assert (strchr (key ++ [46] ++ path) 46 = Some (length key)) as ->.
    { by apply strchr_app. }
    rewrite (proj2 (Nat.leb_gt _ _)) by lia. rewrite take_app_length. do 3 f_equal.
    replace (S (length key)) with (length (key ++ [46])) by (rewrite length_app; simpl; lia).
    by rewrite app_assoc, drop_app_length. }
  induction Hl1 as [|[k w] l1 Hne _ IH]; cbn [app].
  - by rewrite streq_refl.
  - rewrite (proj2 (streq_false k key)) by done. apply IH.
Qed.
