(* ===== verification/KeyFile.v ===== *)
(** * Files of [key = value] lines

    [auth.c], [skills.c] and [service.c] write their tables as lines and read
    them with the same scanner.  This file holds the scanner, the lines that a
    reader passes over, and the reason why the lines those files write are
    among them. *)
From S2P Require Import Prelude.

Definition line (s : cstr) : cstr := s ++ [10].

(** [sscanf(line, "%127[^=] = %511[^\n]", key, val) == 2]. *)
Definition scan_key_value (l : cstr) : option (cstr * cstr) :=
  let key := take 127 (take_while (λ b, negb (b =? ch "=")) l) in
  match key with
  | [] => None
  | _ =>
      match skip_while isspace (drop (length key) l) with
      | 61 :: r =>
          let val := take 511 (take_while (λ b, negb (b =? 10)) (skip_while isspace r)) in
          match val with [] => None | _ => Some (key, val) end
      | _ => None
      end
  end.

(** [while ( *k == ' ') k++] *)
Definition skip_blanks : cstr → cstr := skip_while (λ b, b =? 32).

(** ** Lines that [fgets] reads in one piece *)

Definition no_newline (s : cstr) : Prop := Forall (λ b, b ≠ 10) s.

Definition fits (l : cstr) : Prop := no_newline l ∧ (length l < Z.to_nat 1024 - 1)%nat.

Lemma fits_app_room pre s n :
  bool_decide (Forall (λ b, b ≠ 10) pre) = true → no_newline s → (length s < n)%nat →
  (length pre + n <=? Z.to_nat 1024 - 1)%nat = true → fits (pre ++ s).
Proof. intros Hp Hs Hsl Hl. bsplit. split; [by apply Forall_app|]. rewrite length_app. lia. Qed.

Lemma fits_app pre s :
  bool_decide (Forall (λ b, b ≠ 10) pre) = true → (length pre <? 40)%nat = true →
  no_newline s → (length s < 512)%nat → fits (pre ++ s).
Proof. intros ? Hl ? ?. apply fits_app_room with 512%nat; try done. bsplit. apply Nat.leb_le. lia. Qed.

Lemma fits_lit l : bool_decide (Forall (λ b, b ≠ 10) l) = true → (length l <? 40)%nat = true → fits l.
Proof. intros. rewrite <- (app_nil_r l). apply fits_app; try done; [constructor | cbn; lia]. Qed.

Lemma fgets_saved ls : Forall fits ls → fgets_lines (Z.to_nat 1024) (concat (map line ls)) = map line ls.
Proof. apply fgets_lines_all. Qed.

(** ** Lines without effect *)

(** The scanner takes the blank before the equals sign into the key. *)
Lemma scan_spaced key rest :
  Forall (λ b, b ≠ 61) key → key ≠ [] → (length key < 127)%nat →
  ∃ o, scan_key_value (line (key ++ lit " = " ++ rest)) = o ∧
    match o with Some (k, _) => k = key ++ [32] | None => True end.
Proof.
  intros Hk Hne Hl. eexists. split; [done|].
  assert (take_while (λ b, negb (b =? ch "=")) (line (key ++ lit " = " ++ rest)) = key ++ [32]) as Htw.
  { unfold line. rewrite <- !app_assoc. clear Hl. induction Hk as [|b key Hb Hk IH]; [done|].
    cbn [app take_while]. rewrite (proj2 (Z.eqb_neq b (ch "="))) by done. cbn [negb]. f_equal.
    destruct key; [done | by apply IH]. }
  unfold scan_key_value. rewrite Htw, take_ge by (rewrite length_app; cbn [length]; lia).
  destruct (key ++ [32]) as [|b bs] eqn:E; [by destruct key|]. by repeat case_match; simplify_eq.
Qed.

Section reader.
Context {C : Type} (read : C → cstr → C) (keywords : list cstr).

(** A reader that changes its state only for a keyword. *)
Definition reads_only : Prop :=
  ∀ c l, match scan_key_value l with
         | Some (key, _) => Forall (λ k, skip_blanks key ≠ k) keywords
         | None => True
         end → read c l = c.

(** A line the reader skips, whatever it has read so far. *)
Definition ignored (l : cstr) : Prop := ∀ c, read c (line l) = c.

(** No keyword looks like another one with a blank behind it. *)
Definition spaced_unknown (key : cstr) : Prop :=
  Forall (λ b, b ≠ 61) key ∧ key ≠ [] ∧ (length key < 127)%nat ∧ Forall (λ k, skip_blanks (key ++ [32]) ≠ k) keywords.

Lemma ignored_spaced key rest :
  reads_only → spaced_unknown key → ignored (key ++ lit " = " ++ rest).
Proof.
  intros Hr (H1 & H2 & H3 & H4) c. apply Hr.
  destruct (scan_spaced key rest H1 H2 H3) as (o & -> & Hm). by destruct o as [[k v]|]; [subst k|].
Qed.

(** Reading lines that are all ignored. *)
Lemma loads_nothing ls c :
  Forall fits ls → Forall ignored ls → foldl read c (fgets_lines (Z.to_nat 1024) (concat (map line ls))) = c.
Proof.
  intros Hf Hi. rewrite fgets_saved by done. clear Hf. induction Hi as [|l ls Hl _ IH]; [done|].
  cbn [map foldl]. rewrite Hl. apply IH.
Qed.
End reader.
