(* ===== verification/Identity.v ===== *)
(** * The identity of [src/identity/identity.c]

    A key pair of random bytes in base64, its file, and the signatures made
    with it.  The codec is that of [UtilCodec], with its defects; random bytes
    and the clock are arguments.  [None] is a store outside an array. *)
From S2P Require Import Prelude Buffers UtilCodec.

Definition MAX_IDENTITY_NAME : nat := 128.
Definition MAX_IDENTITY_EMAIL : nat := 256.
Definition IDENTITY_KEY_BYTES : nat := 256.
Definition KEY_LEN : nat := 512.
Definition PEM_LEN : nat := 1024.

Record identity_t := mk_identity {
  id_name : cstr;
  id_email : cstr;
  public_key : cstr;
  secret_key : cstr;
  public_key_pem : cstr;
  secret_key_pem : cstr;
  created_at : Z;
  id_initialized : bool;
}.

Definition identity_init : identity_t := mk_identity [] [] [] [] [] [] 0 false.
Definition identity_free (id : identity_t) : identity_t := identity_init.
Definition identity_is_initialized (id : identity_t) : bool := id_initialized id.

(** ** Keys *)

Definition begin_line (kind : string) : cstr := lit "-----BEGIN " ++ lit kind ++ lit " KEY-----".
Definition end_line (kind : string) : cstr := lit "-----END " ++ lit kind ++ lit " KEY-----".

(** The rows of 64 characters, behind the text written so far. *)
Fixpoint pem_rows (fuel : nat) (key text : cstr) : option cstr :=
  match fuel with
  | O => Some text
  | S fuel' =>
      match key with
      | [] => Some text
      | _ =>
          if (length text <? PEM_LEN - 60)%nat then
            let text := text ++ take 64 key ++ [10] in
            if (length text <=? PEM_LEN)%nat then pem_rows fuel' (drop 64 key) text else None
          else Some text
      end
  end.

Definition pem_text (kind : string) (key : cstr) : option cstr :=
  t ← pem_rows (length key) key (begin_line kind ++ [10]);
  b ← sn_append PEM_LEN (end_line kind ++ [10]) (mk_sbuf t (length t));
  Some (sb_text b).

(** The random bytes with the highest bit of the first one cleared. *)
Definition key_bytes (bytes : list Z) : list Z := alter (λ b, Z.land b 127) O bytes.

Definition key_text (bytes : list Z) : cstr := (util_base64_encode (key_bytes bytes) (Z.of_nat KEY_LEN)).1.

Definition identity_generate (now : Z) (pub priv : list Z) (name : cstr) (email : option cstr) : option identity_t :=
  let public := key_text pub in
  let secret := key_text priv in
  public_pem ← pem_text "PUBLIC" public;
  secret_pem ← pem_text "PRIVATE" secret;
  Some (mk_identity (snprintf_s MAX_IDENTITY_NAME name) (snprintf_s MAX_IDENTITY_EMAIL (default [] email)) public secret
          public_pem secret_pem (u64 now) true).

Definition identity_get_public_key (id : identity_t) : option cstr := if id_initialized id then Some (public_key id) else None.
Definition identity_get_secret_key (id : identity_t) : option cstr := if id_initialized id then Some (secret_key id) else None.

(** ** The file *)

Definition identity_save (id : identity_t) : cstr :=
  lit "name=" ++ id_name id ++ [10] ++ lit "email=" ++ id_email id ++ [10] ++
  lit "created=" ++ fmt_dec (created_at id) ++ [10] ++
  public_key_pem id ++ [10] ++ secret_key_pem id ++ [10].

Record load_state := mk_load_state { ls_id : identity_t; in_public : bool; in_private : bool }.

Definition set_keys (id : identity_t) (public secret : cstr) : identity_t :=
  mk_identity (id_name id) (id_email id) public secret (public_key_pem id) (secret_key_pem id) (created_at id) (id_initialized id).

(** [if (strlen(key) < sizeof(key) - len) strcat(key, line)] where [len] counts
    the line end that has been cut: the difference wraps around for a long
    line. *)
Definition append_key (key line : cstr) (len : nat) : option cstr :=
  if Z.of_nat (length key) <? u64 (Z.of_nat KEY_LEN - Z.of_nat len) then
    if (length (key ++ line) <? KEY_LEN)%nat then Some (key ++ line) else None
  else Some key.

Definition set_name (id : identity_t) (n : cstr) : identity_t :=
  mk_identity (snprintf_s MAX_IDENTITY_NAME n) (id_email id) (public_key id) (secret_key id) (public_key_pem id)
    (secret_key_pem id) (created_at id) (id_initialized id).
Definition set_email (id : identity_t) (e : cstr) : identity_t :=
  mk_identity (id_name id) (snprintf_s MAX_IDENTITY_EMAIL e) (public_key id) (secret_key id) (public_key_pem id)
    (secret_key_pem id) (created_at id) (id_initialized id).
Definition set_created (id : identity_t) (t : Z) : identity_t :=
  mk_identity (id_name id) (id_email id) (public_key id) (secret_key id) (public_key_pem id) (secret_key_pem id) t
    (id_initialized id).

Definition header (id : identity_t) (l : cstr) : identity_t :=
  if has_prefix (lit "name=") l then set_name id (drop 5 l)
  else if has_prefix (lit "email=") l then set_email id (drop 6 l)
  else if has_prefix (lit "created=") l then set_created id (u64 (strtol10 (drop 8 l)))
  else id.

Definition load_row (s : load_state) (l : cstr) : option load_state :=
  let id := ls_id s in
  if streq l (begin_line "PUBLIC" ++ [10]) then Some (mk_load_state (set_keys id [] (secret_key id)) true (in_private s))
  else if streq l (end_line "PUBLIC" ++ [10]) then Some (mk_load_state id false (in_private s))
  else if streq l (begin_line "PRIVATE" ++ [10]) then Some (mk_load_state (set_keys id (public_key id) []) (in_public s) true)
  else if streq l (end_line "PRIVATE" ++ [10]) then Some (mk_load_state id (in_public s) false)
  else
    let row := match last l with Some 10 => take (length l - 1) l | _ => l end in
    public ← (if in_public s then append_key (public_key id) row (length l) else Some (public_key id));
    secret ← (if in_private s then append_key (secret_key id) row (length l) else Some (secret_key id));
    let id := set_keys id public secret in
    Some (mk_load_state (if in_public s || in_private s then id else header id row) (in_public s) (in_private s)).

Fixpoint load_rows (s : load_state) (ls : list cstr) : option load_state :=
  match ls with
  | [] => Some s
  | l :: ls' => s ← load_row s l; load_rows s ls'
  end.

(** The text of a key on one line. *)
Definition short_pem (kind : string) (key : cstr) : cstr :=
  snprintf_s PEM_LEN (begin_line kind ++ [10] ++ key ++ [10] ++ end_line kind ++ [10]).

Definition identity_load (id : identity_t) (file : option cstr) : option (identity_t * Z) :=
  match file with
  | None => Some (id, -1)
  | Some text =>
      s ← load_rows (mk_load_state id false false) (fgets_lines (Z.to_nat 4096) text);
      let id := ls_id s in
      Some (match public_key id, secret_key id with
            | _ :: _, _ :: _ =>
                mk_identity (id_name id) (id_email id) (public_key id) (secret_key id)
                  (short_pem "PUBLIC" (public_key id)) (short_pem "PRIVATE" (secret_key id)) (created_at id) true
            | _, _ => id
            end, 0)
  end.

(** ** Signatures *)

(** [tk] has 32 bytes: a longer key up to 64 bytes is copied past it.  What is
    computed from key and message is not used. *)
Definition hmac_sha256 (key : list Z) (message : list Z) : option (list Z) :=
  if (32 <? length key)%nat && (length key <=? 64)%nat then None else Some (replicate 32 0).

(** The key is decoded into an array whose size is given as 0.  [sig_size] is
    the size of the caller's buffer, which the encoder does not test. *)
Definition identity_sign (id : identity_t) (message : list Z) (sig_size : nat) : option (Z * cstr) :=
  if negb (id_initialized id) then Some (-1, [])
  else
    let len := length (secret_key id) in
    '(_, key) ← (if negb (len mod 4 =? 0)%nat then Some (-1, [])
                 else base64_decode_loop (S len) (secret_key id ++ replicate (KEY_LEN - len) 0) len 0 0 []);
    mac ← hmac_sha256 key message;
    let '(text, closed) := util_base64_encode mac (Z.of_nat sig_size) in
    if closed then Some (0, text) else None.

Definition identity_verify (id : identity_t) (message signature : list Z) : option Z :=
  if negb (id_initialized id) then Some (-1)
  else
    '(rc, computed) ← identity_sign id message 256;
    Some (if negb (rc =? 0) then -1 else if streq signature computed then 0 else -1).

(** ** Every message has the same signature *)

Definition SIGNATURE : cstr := (util_base64_encode (replicate 32 0) 256).1.

(** With no room nothing is stored, and the bytes read are inside the array. *)
Lemma decode_nothing input len fuel : ∀ i,
  (len + 3 ≤ length input)%nat → (len ≤ fuel + i)%nat →
  ∃ rc, base64_decode_loop (S fuel) input len 0 i [] = Some (rc, []).
Proof.
  induction fuel as [|fuel IH]; intros i Hl Hf.
  { cbn [base64_decode_loop]. rewrite (proj2 (Nat.ltb_ge i len)) by lia. by eexists. }
  remember (S fuel) as n eqn:En. cbn [base64_decode_loop].
  destruct (Nat.ltb_spec i len) as [Hi|Hi]; cbn [negb]; [|by eexists].
  assert (∀ j, (j < len + 3)%nat → ∃ c, input !! j = Some c) as Hin.
  { intros j Hj. destruct (lookup_lt_is_Some_2 input j) as [c Hc]; [lia|]. by exists c. }
  destruct (Hin i) as [c0 ->]; [lia|]. cbn [mbind option_bind]. case_if; [by eexists|].
  destruct (Hin (i + 1)%nat) as [c1 ->]; [lia|]. destruct (Hin (i + 2)%nat) as [c2 ->]; [lia|].
  destruct (Hin (i + 2 + 1)%nat) as [c3 ->]; [lia|]. cbn [mbind option_bind]. case_if; [by eexists|].
  cbn zeta. cbn [length Nat.ltb Nat.leb].
  match goal with |- context [base64_decode_loop _ _ _ _ _ (if ?b then [] else [])] =>
    replace (if b then [] else []) with ([] : list Z) by (by destruct b) end.
  destruct (Z.ltb_spec (Z.of_nat (i + 2)) (Z.of_nat len - 3)); [|subst n; apply IH; lia].
  destruct (Hin (i + 2 + 2)%nat) as [c4 ->]; [lia|]. cbn [mbind option_bind].
  match goal with |- context [base64_decode_loop _ _ _ _ _ (if ?b then ?x else ?y)] =>
    replace (if b then x else y) with ([] : list Z) by (by destruct b) end.
  subst n. apply IH; lia.
Qed.

Lemma sign_constant id message n :
  id_initialized id = true → (length (secret_key id) < KEY_LEN - 3)%nat → (44 < n)%nat →
  identity_sign id message n = Some (0, SIGNATURE).
Proof.
  intros Hi Hk Hn. unfold identity_sign. rewrite Hi. cbn [negb].
  assert (∃ rc, (if negb (length (secret_key id) mod 4 =? 0)%nat then Some (-1, [])
                 else base64_decode_loop (S (length (secret_key id)))
                        (secret_key id ++ replicate (KEY_LEN - length (secret_key id)) 0) (length (secret_key id)) 0 0 []) =
                Some (rc, [])) as [rc ->].
  { case_if; [by eexists|]. apply decode_nothing; [|lia]. rewrite length_app, length_replicate. lia. }
  cbn [mbind option_bind hmac_sha256 length Nat.ltb Nat.leb andb]. unfold util_base64_encode.
  change (length (base64_groups (replicate 32 0))) with 44%nat. by rewrite (proj2 (Z.ltb_lt _ _)) by lia.
Qed.

(** One signature fits every message and every identity: it does not depend on
    the key, and whoever knows it can sign anything. *)
Theorem signature_forgeable id message :
  id_initialized id = true → (length (secret_key id) < KEY_LEN - 3)%nat →
  identity_verify id message SIGNATURE = Some 0 ∧
  (∀ s, identity_verify id message s = Some 0 → s = SIGNATURE).
Proof.
  intros Hi Hk. unfold identity_verify. rewrite Hi, sign_constant by (done || lia).
  cbn [negb mbind option_bind Z.eqb]. rewrite streq_refl. split; [done|].
  intros s. case_match eqn:E; [|done]. by apply streq_true in E.
Qed.

(** ** Saving and loading *)

Fixpoint rows (fuel : nat) (key : cstr) : list cstr :=
  match fuel, key with
  | S fuel', _ :: _ => take 64 key :: rows fuel' (drop 64 key)
  | _, _ => []
  end.

Definition lines_text (ls : list cstr) : cstr := concat (map (λ l, l ++ [10]) ls).

Lemma lines_text_app a b : lines_text (a ++ b) = lines_text a ++ lines_text b.
Proof. unfold lines_text. by rewrite map_app, concat_app. Qed.

Lemma lines_text_one l : lines_text [l] = l ++ [10].
Proof. unfold lines_text. cbn [map concat]. by rewrite app_nil_r. Qed.

Lemma rows_concat fuel key : (length key ≤ fuel)%nat → concat (rows fuel key) = key.
Proof.
  revert key. induction fuel as [|fuel IH]; intros [|b key] Hl; try done; [cbn in Hl; lia|].
  cbn [rows concat]. rewrite IH; [apply take_drop|]. rewrite length_drop. cbn [length] in *. lia.
Qed.

Lemma pem_rows_all fuel : ∀ key text,
  (length key ≤ fuel)%nat → (length text + 2 * length key < PEM_LEN - 60)%nat →
  pem_rows fuel key text = Some (text ++ lines_text (rows fuel key)).
Proof.
  induction fuel as [|fuel IH]; intros key text Hk Hl; cbn [pem_rows rows]; [by rewrite app_nil_r|].
  destruct key as [|b key]; [by rewrite app_nil_r|]. rewrite (proj2 (Nat.ltb_lt _ _)) by lia.
  assert (length (text ++ take 64 (b :: key) ++ [10%Z]) + 2 * length (drop 64 (b :: key)) < PEM_LEN - 60)%nat as Hn.
  { rewrite !length_app, length_take, length_drop. cbn [length] in *. lia. }
  rewrite (proj2 (Nat.leb_le _ _)) by lia. rewrite IH; [|rewrite length_drop; cbn [length] in *; lia|done].
  unfold lines_text. cbn [map concat]. by rewrite <- !app_assoc.
Qed.

(** The lines of a key, with its two marks. *)
Definition pem_lines (kind : string) (key : cstr) : list cstr :=
  [begin_line kind] ++ rows (length key) key ++ [end_line kind].

Lemma rows_length fuel key : (length key ≤ fuel)%nat → (length (lines_text (rows fuel key)) ≤ 2 * length key)%nat.
Proof.
  revert key. induction fuel as [|fuel IH]; intros [|b key] Hl; try (cbn; lia).
  unfold lines_text. cbn [rows map concat]. fold (lines_text (rows fuel (drop 64 (b :: key)))).
  rewrite !length_app, length_take. specialize (IH (drop 64 (b :: key))). rewrite length_drop in IH. cbn [length] in *. lia.
Qed.

Lemma pem_text_lines kind key :
  (length (begin_line kind) ≤ 30)%nat → (length (end_line kind) ≤ 30)%nat → (length key ≤ 400)%nat →
  pem_text kind key = Some (lines_text (pem_lines kind key)).
Proof.
  intros Hb He Hk. unfold pem_text. change PEM_LEN with 1024%nat. pose proof (rows_length (length key) key (le_n _)) as Hr.
  rewrite pem_rows_all; [|done|rewrite length_app; change PEM_LEN with 1024%nat; cbn [length]; lia]. cbn [mbind option_bind].
  set (t := (_ ++ _) ++ _). assert (length t + 31 < 1024)%nat as Ht by (subst t; rewrite !length_app; cbn [length]; lia).
  rewrite sn_append_fits; [|split; cbn [sb_text sb_off]; [done|lia]|cbn [sb_off]; rewrite length_app; cbn [length]; lia].
  subst t.
  cbn [mbind option_bind sb_text]. f_equal. unfold pem_lines. by rewrite !lines_text_app, !lines_text_one, <- !app_assoc.
Qed.

(** An identity as [identity_generate] leaves it, with texts of one line. *)
Record saved_ok (id : identity_t) : Prop := {
  ok_name : Forall (λ b, b ≠ 10) (id_name id) ∧ (length (id_name id) < MAX_IDENTITY_NAME)%nat;
  ok_email : Forall (λ b, b ≠ 10) (id_email id) ∧ (length (id_email id) < MAX_IDENTITY_EMAIL)%nat;
  ok_time : 0 <= created_at id < 2 ^ 63;
  ok_public : Forall (λ b, b ≠ 10 ∧ b ≠ 45) (public_key id) ∧ public_key id ≠ [] ∧ (length (public_key id) ≤ 400)%nat;
  ok_secret : Forall (λ b, b ≠ 10 ∧ b ≠ 45) (secret_key id) ∧ secret_key id ≠ [] ∧ (length (secret_key id) ≤ 400)%nat;
  ok_public_pem : pem_text "PUBLIC" (public_key id) = Some (public_key_pem id);
  ok_secret_pem : pem_text "PRIVATE" (secret_key id) = Some (secret_key_pem id);
}.

Definition file_lines (id : identity_t) : list cstr :=
  [lit "name=" ++ id_name id; lit "email=" ++ id_email id; lit "created=" ++ fmt_dec (created_at id)] ++
  pem_lines "PUBLIC" (public_key id) ++ [[]] ++ pem_lines "PRIVATE" (secret_key id) ++ [[]].

Lemma save_as_lines id : saved_ok id → identity_save id = lines_text (file_lines id).
Proof.
  intros H. pose proof (ok_public_pem id H) as Hp. pose proof (ok_secret_pem id H) as Hs.
  destruct (ok_public id H) as (_ & _ & ?), (ok_secret id H) as (_ & _ & ?).
  rewrite pem_text_lines in Hp by (done || (vm_compute; lia)). rewrite pem_text_lines in Hs by (done || (vm_compute; lia)).
  injection Hp as Hp. injection Hs as Hs. unfold identity_save, file_lines.
  rewrite <- Hp, <- Hs, !lines_text_app. unfold lines_text at 3. unfold lines_text at 4. unfold lines_text at 5.
  cbn [map concat]. by rewrite <- !app_assoc.
Qed.

(** A line that is no mark. *)
Definition plain_row (l : cstr) : Prop := match l with b :: _ => b ≠ 45 | [] => True end.

Lemma not_mark l s : plain_row l → head s = Some 45 → streq (l ++ [10]) s = false.
Proof.
  intros Hl Hs. apply streq_false. destruct s as [|c s]; [done|]. cbn in Hs. injection Hs as ->.
  by destruct l as [|b l]; cbn [app]; intros [= ? _].
Qed.

Lemma load_row_text s l : plain_row l →
  load_row s (l ++ [10]) =
  (public ← (if in_public s then append_key (public_key (ls_id s)) l (S (length l)) else Some (public_key (ls_id s)));
   secret ← (if in_private s then append_key (secret_key (ls_id s)) l (S (length l)) else Some (secret_key (ls_id s)));
   let id := set_keys (ls_id s) public secret in
   Some (mk_load_state (if in_public s || in_private s then id else header id l) (in_public s) (in_private s))).
Proof.
  intros Hl. unfold load_row. rewrite !not_mark by done. rewrite last_snoc, length_app. cbn [length].
  replace (length l + 1 - 1)%nat with (length l) by lia. rewrite take_app_length.
  replace (length l + 1)%nat with (S (length l)) by lia. done.
Qed.

Lemma set_keys_same id : set_keys id (public_key id) (secret_key id) = id.
Proof. by destruct id. Qed.

Lemma load_header id l : plain_row l →
  load_row (mk_load_state id false false) (l ++ [10]) = Some (mk_load_state (header id l) false false).
Proof. intros Hl. rewrite load_row_text by done. cbn [in_public in_private ls_id mbind option_bind orb]. by rewrite set_keys_same. Qed.

Definition add_key (pub : bool) (id : identity_t) (row : cstr) : identity_t :=
  if pub then set_keys id (public_key id ++ row) (secret_key id) else set_keys id (public_key id) (secret_key id ++ row).

Definition the_key (pub : bool) (id : identity_t) : cstr := if pub then public_key id else secret_key id.

Lemma load_key_row pub id row : plain_row row → (length (the_key pub id) + length row < KEY_LEN - 2)%nat →
  load_row (mk_load_state id pub (negb pub)) (row ++ [10]) = Some (mk_load_state (add_key pub id row) pub (negb pub)).
Proof.
  intros Hp Hl. rewrite load_row_text by done. cbn [in_public in_private ls_id].
  assert (append_key (the_key pub id) row (S (length row)) = Some (the_key pub id ++ row)) as Ha.
  { unfold append_key. rewrite wrap_small by (change KEY_LEN with 512%nat in *; lia).
    rewrite (proj2 (Z.ltb_lt _ _)) by (change KEY_LEN with 512%nat in *; lia).
    by rewrite (proj2 (Nat.ltb_lt _ _)) by (rewrite length_app; lia). }
  unfold the_key in Ha. destruct pub; cbn [negb orb]; rewrite Ha; done.
Qed.

Lemma load_rows_app s a b : load_rows s (a ++ b) = (s ← load_rows s a; load_rows s b).
Proof. revert s. induction a as [|l a IH]; intros s; [done|]. cbn [app load_rows]. destruct (load_row s l); cbn [mbind option_bind]; [apply IH|done]. Qed.

Lemma load_key_rows pub fuel : ∀ key id,
  Forall (λ b, b ≠ 10 ∧ b ≠ 45) key → (length key ≤ fuel)%nat → (length (the_key pub id) + length key ≤ 400)%nat →
  load_rows (mk_load_state id pub (negb pub)) (map (λ l, l ++ [10]) (rows fuel key)) =
  Some (mk_load_state (add_key pub id key) pub (negb pub)).
Proof.
  assert (∀ id, add_key pub id [] = id) as Hnil by (intros id; unfold add_key; destruct pub; rewrite app_nil_r; apply set_keys_same).
  induction fuel as [|fuel IH]; intros [|b key] id Hk Hf Hl; try (cbn [rows map load_rows]; by rewrite Hnil); [cbn in Hf; lia|].
  cbn [rows map load_rows]. set (k := b :: key) in *. apply (Forall_take _ 64) in Hk as Hk1. apply (Forall_drop _ 64) in Hk as Hk2.
  assert (length (take 64 k) + length (drop 64 k) = length k)%nat as Hlen by (rewrite length_take, length_drop; lia).
  rewrite load_key_row.
  2:{ apply Forall_cons in Hk1 as [[_ ?] _]. done. }
  2:{ change KEY_LEN with 512%nat. lia. }
  cbn [mbind option_bind]. rewrite IH; [|done| |].
  - f_equal. f_equal. unfold add_key. destruct pub; cbn [public_key secret_key set_keys]; by rewrite <- app_assoc, take_drop.
  - subst k. rewrite length_drop. cbn [length] in *. lia.
  - unfold the_key, add_key. unfold the_key in Hl. destruct pub; cbn [public_key secret_key set_keys]; rewrite length_app; lia.
Qed.

(** The lines between the marks of one key. *)
Lemma load_pem (pub : bool) id key :
  let kind := if pub then "PUBLIC"%string else "PRIVATE"%string in
  Forall (λ b, b ≠ 10 ∧ b ≠ 45) key → (length key ≤ 400)%nat →
  load_rows (mk_load_state id false false) (map (λ l, l ++ [10]) (pem_lines kind key)) =
  Some (mk_load_state (if pub then set_keys id key (secret_key id) else set_keys id (public_key id) key) false false).
Proof.
  cbn zeta. intros Hk Hl. set (kind := if pub then "PUBLIC"%string else "PRIVATE"%string). unfold pem_lines. rewrite !map_app, !load_rows_app. cbn [map load_rows].
  set (id0 := if pub then set_keys id [] (secret_key id) else set_keys id (public_key id) []).
  assert (load_row (mk_load_state id false false) (begin_line kind ++ [10]) = Some (mk_load_state id0 pub (negb pub))) as ->
    by (by subst kind id0; destruct pub).
  cbn [mbind option_bind]. rewrite load_rows_app, load_key_rows; [|done|done|by subst id0; destruct pub].
  cbn [mbind option_bind]. subst kind id0. by destruct pub.
Qed.

Lemma lines_fit id : saved_ok id → Forall (λ l, Forall (λ b, b ≠ 10) l ∧ (length l < Z.to_nat 4096 - 1)%nat) (file_lines id).
Proof.
  intros H. destruct (ok_name id H), (ok_email id H), (ok_public id H) as (Hp & _ & Hpl), (ok_secret id H) as (Hs & _ & Hsl).
  assert (∀ k : cstr, Forall (λ b, b ≠ 10 ∧ b ≠ 45) k → (length k ≤ 400)%nat → ∀ fuel,
    Forall (λ l, Forall (λ b, b ≠ 10) l ∧ (length l < Z.to_nat 4096 - 1)%nat) (rows fuel k)) as Hrows.
  { intros k Hk Hkl fuel. revert k Hk Hkl. induction fuel as [|fuel IH]; intros [|b k] Hk Hkl; try constructor.
    - split; [|rewrite length_take; lia]. apply Forall_take. eapply Forall_impl; [exact Hk|]. by intros ? [? _].
    - apply IH; [by apply Forall_drop|]. rewrite length_drop. lia. }
  assert (∀ l : cstr, bool_decide (Forall (λ b, b ≠ 10) l) = true → (length l <? 40)%nat = true →
    Forall (λ b, b ≠ 10) l ∧ (length l < Z.to_nat 4096 - 1)%nat) as Hlit.
  { intros l Hb%bool_decide_eq_true Hn%Nat.ltb_lt. split; [done|lia]. }
  unfold file_lines, pem_lines. rewrite !Forall_app, !Forall_cons.
  assert (length (fmt_dec (created_at id)) ≤ 20)%nat as Hd by (apply fmt_dec_length; [|lia]; pose proof (ok_time id H); lia).
  split_and!; try apply Forall_nil_2; try (by apply Hlit); try (by apply Hrows); try (rewrite length_app; cbn [length lit]);
    try (apply Forall_app; split; [lit_forall|]); try done; try (unfold MAX_IDENTITY_NAME, MAX_IDENTITY_EMAIL in *; lia).
  eapply Forall_impl; [apply (fmt_dec_not (created_at id) 10); lia|]. done.
Qed.

Lemma header_name id n : header id (lit "name=" ++ n) = set_name id n.
Proof. done. Qed.
Lemma header_email id n : header id (lit "email=" ++ n) = set_email id n.
Proof. done. Qed.
Lemma header_created id n : header id (lit "created=" ++ n) = set_created id (u64 (strtol10 n)).
Proof. done. Qed.

(** A saved identity comes back: name, mail address, time and both keys are
    those that were saved; the texts of the keys are on one line afterwards. *)
Theorem identity_file_roundtrip id : saved_ok id →
  identity_load identity_init (Some (identity_save id)) =
  Some (mk_identity (id_name id) (id_email id) (public_key id) (secret_key id)
          (short_pem "PUBLIC" (public_key id)) (short_pem "PRIVATE" (secret_key id)) (created_at id) true, 0).
Proof.
  intros H. unfold identity_load. rewrite (save_as_lines id H). unfold lines_text.
  rewrite fgets_lines_all by (by apply lines_fit).
  destruct (ok_name id H) as [_ Hn], (ok_email id H) as [_ He], (ok_public id H) as (Hp & Hp0 & Hpl),
    (ok_secret id H) as (Hs & Hs0 & Hsl). pose proof (ok_time id H) as Ht.
  unfold file_lines. rewrite map_app, load_rows_app. cbn [map load_rows].
  rewrite load_header, header_name by done. cbn [mbind option_bind]. rewrite load_header, header_email by done.
  cbn [mbind option_bind]. rewrite load_header, header_created by done. cbn [mbind option_bind].
  rewrite <- (app_nil_r (fmt_dec _)), strtol10_fmt_dec, (wrap_small 64) by (done || lia).
  assert (set_created (set_email (set_name identity_init (id_name id)) (id_email id)) (created_at id) =
          mk_identity (id_name id) (id_email id) [] [] [] [] (created_at id) false) as ->.
  { unfold set_created, set_email, set_name. cbn [id_name id_email public_key secret_key public_key_pem secret_key_pem id_initialized identity_init].
    by rewrite !snprintf_s_id. }
  rewrite !map_app, load_rows_app. rewrite (load_pem true) by done. cbn [mbind option_bind set_keys secret_key].
  rewrite load_rows_app. cbn [map load_rows]. rewrite (load_header _ []) by done. cbn [mbind option_bind].
  change (header ?i []) with i. rewrite load_rows_app. rewrite (load_pem false) by done.
  cbn [mbind option_bind map load_rows]. rewrite (load_header _ []) by done. cbn [mbind option_bind ls_id].
  change (header ?i []) with i. cbn [set_keys public_key secret_key id_name id_email created_at].
  by destruct (public_key id), (secret_key id).
Qed.

Definition key_char (b : Z) : Prop := b ≠ 10 ∧ b ≠ 45.

Lemma b64_key_char i : key_char (b64_char i).
Proof.
  assert (Forall key_char BASE64_TABLE) as Ht by (apply (bool_decide_unpack _); by vm_compute).
  unfold b64_char. destruct (nth_in_or_default (Z.to_nat i) BASE64_TABLE 0) as [Hin| ->]; [|done].
  apply list_elem_of_In in Hin. exact (proj1 (Forall_forall _ _) Ht _ Hin).
Qed.

Lemma groups_key_chars input : Forall key_char (base64_groups input).
Proof.
  assert (∀ n input, (length input ≤ n)%nat → Forall key_char (base64_groups input)) as H; [|eauto].
  clear input. assert (∀ a b c, Forall key_char (base64_group a b c)) as Hg
    by (intros; unfold base64_group; repeat constructor; apply b64_key_char).
  induction n as [|n IH]; intros [|b1 [|b2 [|b3 input]]] Hn; cbn [length base64_groups] in *; try lia; try done.
  apply Forall_app. split; [done|]. apply IH. lia.
Qed.

Lemma key_text_ok bytes : length bytes = IDENTITY_KEY_BYTES →
  Forall key_char (key_text bytes) ∧ length (key_text bytes) = 344%nat.
Proof.
  intros Hl. unfold key_text, util_base64_encode. cbn [fst].
  assert (length (key_bytes bytes) = 256%nat) as Hk by (unfold key_bytes; by rewrite length_alter).
  rewrite Hk. change ((3 - 256 mod 3) mod 3)%nat with 2%nat. pose proof (groups_key_chars (key_bytes bytes)) as Hg.
  pose proof (base64_groups_length (key_bytes bytes)) as Hgl. rewrite Hk in Hgl. change (4 * ((256 + 2) / 3))%nat with 344%nat in Hgl.
  unfold for_. cbn [Nat.sub seq foldl]. split; [|by rewrite !length_insert].
  do 2 (apply Forall_insert; [|done]). done.
Qed.

(** What [identity_generate] makes can be saved and comes back: the alphabet of
    the encoder has neither a line end nor a hyphen. *)
Lemma generated_ok now pub priv name email id :
  length pub = IDENTITY_KEY_BYTES → length priv = IDENTITY_KEY_BYTES →
  Forall (λ b, b ≠ 10) name → Forall (λ b, b ≠ 10) (default [] email) → 0 <= now < 2 ^ 63 →
  identity_generate now pub priv name email = Some id → saved_ok id.
Proof.
  intros Hpub Hpriv Hn He Ht. unfold identity_generate.
  destruct (key_text_ok pub Hpub) as [Hp Hpl], (key_text_ok priv Hpriv) as [Hs Hsl].
  destruct (pem_text "PUBLIC" _) as [t1|] eqn:E1; [|done]. destruct (pem_text "PRIVATE" _) as [t2|] eqn:E2; [|done].
  cbn [mbind option_bind]. intros [= <-].
  constructor; cbn [id_name id_email public_key secret_key public_key_pem secret_key_pem created_at]; try done.
  - split; [by apply Forall_take|]. apply snprintf_s_length. vm_compute. lia.
  - split; [by apply Forall_take|]. apply snprintf_s_length. vm_compute. lia.
  - by rewrite wrap_small by lia.
  - split_and!; [done|by intros E; rewrite E in Hpl|lia].
  - split_and!; [done|by intros E; rewrite E in Hsl|lia].
Qed.

Definition identity_ex : option identity_t :=
  identity_generate 1700000000 (replicate 256 200) (replicate 256 7) (lit "ann") (Some (lit "a@b.c")).

Lemma identity_file_roundtrip_witness :
  ∃ id, identity_ex = Some id ∧
    (λ p, secret_key p.1) <$> identity_load identity_init (Some (identity_save id)) = Some (secret_key id).
Proof.
  eexists. split; [reflexivity|]. rewrite identity_file_roundtrip; [reflexivity|].
  apply (generated_ok 1700000000 (replicate 256 200) (replicate 256 7) (lit "ann") (Some (lit "a@b.c")));
    [done|done|by repeat constructor|by repeat constructor|lia|reflexivity].
Defined.

Lemma signature_forgeable_witness :
  ∃ id, identity_ex = Some id ∧ identity_verify id (lit "pay 100") SIGNATURE = Some 0.
Proof.
  eexists. split; [reflexivity|]. apply signature_forgeable; [reflexivity|]. apply Nat.ltb_lt. by_eval.
Defined.
