(* ===== verification/UtilClock.v ===== *)
(** * Time and random bytes of [src/util/util.c]

    The clock in milliseconds, the pause, and the random bytes with their
    fallback on [rand].  The answers of [clock_gettime], of reading
    [/dev/urandom] and of [rand] are arguments. *)
From S2P Require Import Prelude UtilCodec KeyFile Identity.

Record timespec := mk_timespec { tv_sec : Z; tv_nsec : Z }.

Definition util_timestamp_ms (ts : timespec) : Z := u64 (u64 (tv_sec ts) * 1000 + tv_nsec ts / 1000000).

(** What [nanosleep] is asked for. *)
Definition util_sleep_ms (ms : Z) : timespec := mk_timespec (ms / 1000) ((ms mod 1000) * 1000000).

(** [urandom] is what reading [len] bytes gave, [None] when the file cannot be
    opened; [rand i] is the [i]-th result of [rand] from here on.  The bytes,
    the number of calls of [rand], and the code. *)
Definition util_random_bytes (urandom : option (list Z)) (rand : nat → Z) (len : nat) : list Z * nat * Z :=
  let fallback := (map (λ i, Z.land (rand i) 255) (seq 0 len), len, -1) in
  match urandom with
  | None => fallback
  | Some bytes => if (length bytes =? len)%nat then (bytes, O, 0) else fallback
  end.

(** ** Time *)

(** A time the clock can report: not before 1970, nanoseconds below a second. *)
Definition proper (ts : timespec) : Prop :=
  0 <= tv_sec ts /\ tv_sec ts * 1000 + 1000 < 2 ^ 64 /\ 0 <= tv_nsec ts < 1000000000.

Lemma timestamp_exact ts : proper ts → util_timestamp_ms ts = tv_sec ts * 1000 + tv_nsec ts / 1000000.
Proof.
  intros (H0 & H1 & Hn). unfold util_timestamp_ms, wrap.
  assert (0 <= tv_nsec ts / 1000000 < 1000) by (split; [apply Z.div_pos; lia | apply Z.div_lt_upper_bound; lia]).
  rewrite (Z.mod_small (tv_sec ts)) by lia. apply Z.mod_small. lia.
Qed.

(** The clock in milliseconds does not run backwards when the clock of the
    system does not. *)
Theorem timestamp_monotone t1 t2 :
  proper t1 → proper t2 →
  tv_sec t1 < tv_sec t2 ∨ tv_sec t1 = tv_sec t2 ∧ tv_nsec t1 <= tv_nsec t2 →
  util_timestamp_ms t1 <= util_timestamp_ms t2.
Proof.
  intros H1 H2 Hle. rewrite !timestamp_exact by done. destruct H1 as (_ & _ & Hn1), H2 as (_ & _ & Hn2).
  assert (tv_nsec t1 / 1000000 < 1000) by (apply Z.div_lt_upper_bound; lia).
  assert (0 <= tv_nsec t2 / 1000000) by (apply Z.div_pos; lia).
  destruct Hle as [?|[-> Hn]]; [lia|]. pose proof (Z.div_le_mono _ _ 1000000 ltac:(lia) Hn). lia.
Qed.

(** The pause is the one asked for, in the form [nanosleep] accepts: on the
    clock of the program it takes exactly [ms] milliseconds. *)
Theorem sleep_takes ms start :
  0 <= ms < 2 ^ 63 → 0 <= tv_sec start → tv_nsec start = 0 → (tv_sec start + ms / 1000) * 1000 + 1000 < 2 ^ 64 →
  let pause := util_sleep_ms ms in
  0 <= tv_nsec pause < 1000000000 ∧
  util_timestamp_ms (mk_timespec (tv_sec start + tv_sec pause) (tv_nsec pause)) = util_timestamp_ms start + ms.
Proof.
  intros Hms Hs Hn Hmax pause. pose proof (Z.mod_pos_bound ms 1000 ltac:(lia)) as Hb.
  assert (0 <= ms / 1000) by (apply Z.div_pos; lia). unfold pause, util_sleep_ms. cbn [tv_sec tv_nsec]. split; [lia|].
  rewrite !timestamp_exact by (split_and!; cbn [tv_sec tv_nsec]; lia). cbn [tv_sec tv_nsec]. rewrite Hn, Z.div_mul by lia.
  change (0 / 1000000) with 0. pose proof (Z.div_mod ms 1000 ltac:(lia)). lia.
Qed.

(** ** Random bytes *)

(** The buffer is always filled with bytes; the code is 0 exactly when they all
    come from the system. *)
Theorem random_bytes_filled urandom rand len bytes n rc :
  (∀ l, urandom = Some l → Forall is_byte l) →
  util_random_bytes urandom rand len = (bytes, n, rc) →
  length bytes = len ∧ Forall is_byte bytes ∧ (rc = 0 ↔ urandom = Some bytes ∧ n = O).
Proof.
  intros Hu. unfold util_random_bytes.
  assert (Forall is_byte (map (λ i, Z.land (rand i) 255) (seq 0 len))) as Hf.
  { apply Forall_map, Forall_forall. intros i _. change 255 with (Z.ones 8). rewrite Z.land_ones by lia.
    apply Z.mod_pos_bound. lia. }
  destruct urandom as [l|].
  - destruct (Nat.eqb_spec (length l) len) as [Hl|Hl]; intros [= <- <- <-].
    + split_and!; [done | by apply Hu | done].
    + split_and!; [by rewrite length_map, length_seq | done |]. split; [done|]. intros [[= Hl'] _].
      destruct Hl. by rewrite Hl', length_map, length_seq.
  - intros [= <- <- <-]. split_and!; [by rewrite length_map, length_seq | done |]. by split; [|intros [? _]].
Qed.

(** ** The keys of an identity *)

(** [identity_generate] with the bytes it asks for; the codes of the two
    requests are dropped. *)
Definition identity_generate_keys (urandom1 urandom2 : option (list Z)) (rand : nat → Z) (now : Z) (name : cstr)
    (email : option cstr) : option identity_t :=
  let '(pub, n, _) := util_random_bytes urandom1 rand IDENTITY_KEY_BYTES in
  let '(priv, _, _) := util_random_bytes urandom2 (λ i, rand (n + i)%nat) IDENTITY_KEY_BYTES in
  identity_generate now pub priv name email.

(** Where the system gives no random bytes an identity is made all the same,
    and the private key depends on nothing but the generator [rand], which
    the public key shows too: it is a function of the results that follow
    those of the public key. *)
Theorem identity_keys_predictable rand now name email :
  identity_generate_keys None None rand now name email =
  identity_generate now (map (λ i, Z.land (rand i) 255) (seq 0 IDENTITY_KEY_BYTES))
    (map (λ i, Z.land (rand (IDENTITY_KEY_BYTES + i)%nat) 255) (seq 0 IDENTITY_KEY_BYTES)) name email ∧
  ∀ rand', (∀ i, (i < 2 * IDENTITY_KEY_BYTES)%nat → rand' i = rand i) →
  identity_generate_keys None None rand' now name email = identity_generate_keys None None rand now name email.
Proof.
  split; [done|]. intros rand' Hr. unfold identity_generate_keys, util_random_bytes. cbn iota beta.
  f_equal; apply map_ext_in; intros i Hi%in_seq; rewrite Hr by lia; done.
Qed.
