(* ===== verification/RateLimiter.v ===== *)
(** * The per-address rate limiter of [src/util/util.c]

    A table of at most 256 client addresses, each with the number of requests
    seen in its current window. *)
From S2P Require Import Prelude.

Record rate_limit_entry_t := mk_entry {
  ip : cstr;
  request_count : Z;
  first_request_time : Z;
  last_request_time : Z;
}.

Definition entry_zero : rate_limit_entry_t := mk_entry [] 0 0 0.

Definition RATE_ENTRIES : nat := 256.
Definition IP_LEN : nat := 48.

Record rate_limiter_t := mk_limiter {
  entries : list rate_limit_entry_t;
  entry_count : nat;
  window_ms : Z;
  max_requests : Z;
}.

Definition rate_limiter_init (window max : Z) : rate_limiter_t :=
  mk_limiter (replicate RATE_ENTRIES entry_zero) 0 window max.

(** An entry stays while its last request is younger than two windows. *)
Definition entry_fresh (window now : Z) (e : rate_limit_entry_t) : bool :=
  u64 (now - last_request_time e) <? u64 (window * 2).

Definition rate_limiter_cleanup (now : Z) (l : rate_limiter_t) : rate_limiter_t :=
  let '(es, w) := compact (entry_fresh (window_ms l) now) (entry_count l) (entries l) in
  mk_limiter es w (window_ms l) (max_requests l).

Definition rate_limiter_free (l : rate_limiter_t) : rate_limiter_t :=
  mk_limiter (replicate RATE_ENTRIES entry_zero) 0 0 0.

(** The update of the entry of an address that is already known. *)
Definition touch_entry (window now : Z) (e : rate_limit_entry_t) : rate_limit_entry_t :=
  let e := if window <? u64 (now - first_request_time e)
           then mk_entry (ip e) 0 now (last_request_time e) else e in
  mk_entry (ip e) (u64 (request_count e + 1)) (first_request_time e) now.

(** [now] is the time read on entry, [now'] the one the clean-up reads. *)
Definition rate_limiter_check (now now' : Z) (l : rate_limiter_t) (client : option cstr)
    : rate_limiter_t * Z :=
  match client with
  | None => (l, -1)
  | Some client =>
      match find_idx (λ e, streq (ip e) client) (take (entry_count l) (entries l)) with
      | Some i =>
          match entries l !! i with
          | Some e =>
              let e' := touch_entry (window_ms l) now e in
              let l' := mk_limiter (<[i := e']> (entries l)) (entry_count l)
                          (window_ms l) (max_requests l) in
              (l', if max_requests l <? request_count e' then -1 else 0)
          | None => (l, -1)
          end
      | None =>
          let l := if (RATE_ENTRIES <=? entry_count l)%nat then rate_limiter_cleanup now' l else l in
          if (RATE_ENTRIES <=? entry_count l)%nat then (l, 0)
          else
            (mk_limiter
               (<[entry_count l := mk_entry (snprintf_s IP_LEN client) 1 now now]> (entries l))
               (S (entry_count l)) (window_ms l) (max_requests l), 0)
      end
  end.

(** ** The table *)

Definition table (l : rate_limiter_t) : list rate_limit_entry_t := take (entry_count l) (entries l).

(** The table has its 256 slots, the count stays within them, and no address
    has two live entries. *)
Record limiter_inv (l : rate_limiter_t) : Prop := {
  inv_slots : length (entries l) = RATE_ENTRIES;
  inv_count : (entry_count l ≤ RATE_ENTRIES)%nat;
  inv_distinct : NoDup (map ip (table l));
}.

Lemma limiter_init_inv w m : limiter_inv (rate_limiter_init w m).
Proof. split; simpl; [done | unfold RATE_ENTRIES; lia | constructor]. Qed.

(** The clean-up keeps exactly the fresh entries, in their order. *)
Lemma cleanup_table now l :
  (entry_count l ≤ length (entries l))%nat →
  table (rate_limiter_cleanup now l) = List.filter (entry_fresh (window_ms l) now) (table l).
Proof.
  intros H. unfold rate_limiter_cleanup, table.
  pose proof (compact_filter (entry_fresh (window_ms l) now) _ _ H) as Hc.
  by destruct (compact _ _ _) as [es w].
Qed.

Lemma filter_ips_NoDup f es : NoDup (map ip es) → NoDup (map ip (List.filter f es)).
Proof.
  induction es as [|e es IH]; [done|]. simpl. intros [Hn Hd]%NoDup_cons.
  destruct (f e); [|by apply IH]. simpl. apply NoDup_cons. split; [|by apply IH].
  intros Hin. apply Hn. apply list_elem_of_In, in_map_iff.
  apply list_elem_of_In, in_map_iff in Hin as (x & <- & [Hx _]%filter_In). eauto.
Qed.

Lemma cleanup_inv now l : limiter_inv l → limiter_inv (rate_limiter_cleanup now l).
Proof.
  intros [Hs Hc Hd]. split.
  - unfold rate_limiter_cleanup. rewrite <- Hs.
    rewrite <- (compact_length (entry_fresh (window_ms l) now) (entry_count l) (entries l)) by lia.
    by destruct (compact _ _ _).
  - unfold rate_limiter_cleanup.
    pose proof (compact_count (entry_fresh (window_ms l) now) (entry_count l) (entries l)).
    destruct (compact _ _ _) as [es w]. simpl in *. lia.
  - rewrite cleanup_table by lia. by apply filter_ips_NoDup.
Qed.

Lemma touch_ip w now e : ip (touch_entry w now e) = ip e.
Proof. unfold touch_entry. by case_if. Qed.

Lemma lookup_table l i : (i < entry_count l)%nat → entries l !! i = table l !! i.
Proof. intros. unfold table. by rewrite lookup_take_lt. Qed.

Lemma find_table f l i :
  find_idx f (table l) = Some i →
  ∃ e, entries l !! i = Some e ∧ table l !! i = Some e ∧ f e = true ∧ (i < entry_count l)%nat.
Proof.
  intros H. pose proof (find_idx_lt _ _ _ H) as Hlt.
  apply find_idx_Some in H as [(e & He & Hf) _].
  unfold table in Hlt. rewrite length_take in Hlt.
  exists e. rewrite lookup_table by lia. split_and!; [done..|lia].
Qed.

Lemma check_keeps_inv now now' l client :
  limiter_inv l → (length client < IP_LEN)%nat →
  limiter_inv (rate_limiter_check now now' l (Some client)).1.
Proof.
  intros Hinv Hlen. unfold rate_limiter_check. fold (table l).
  destruct (find_idx _ (table l)) as [i|] eqn:Hf.
  - apply find_table in Hf as (e & He & Ht & Hip & Hi). rewrite He.
    destruct Hinv as [Hs Hc Hd]. split; simpl; [by rewrite length_insert | done |].
    unfold table. simpl. rewrite take_insert_lt by done. fold (table l).
    rewrite list_fmap_insert, touch_ip, list_insert_id; [done|].
    by rewrite list_lookup_fmap, Ht.
  - apply find_idx_None in Hf.
    set (l1 := if (RATE_ENTRIES <=? entry_count l)%nat then _ else l).
    assert (limiter_inv l1 ∧ Forall (λ e, streq (ip e) client = false) (table l1)) as [H1 Hn].
    { subst l1. case_if; [|done]. split; [by apply cleanup_inv|].
      rewrite cleanup_table by (destruct Hinv; lia).
      by apply Forall_forall; intros e [? _]%list_elem_of_In%filter_In;
        rewrite Forall_forall in Hf; apply Hf, list_elem_of_In. }
    case_if; [done|]. destruct H1 as [Hs Hc Hd]. split; simpl; [by rewrite length_insert | lia |].
    unfold table. simpl. rewrite take_insert_push by lia. rewrite map_app.
    apply NoDup_app. split_and!; [done | | simpl; apply NoDup_singleton].
    intros x Hx%list_elem_of_In%in_map_iff. destruct Hx as (e & <- & He). simpl.
    rewrite snprintf_s_id by done. intros Heq%list_elem_of_singleton.
    rewrite Forall_forall in Hn. specialize (Hn e). rewrite list_elem_of_In in Hn.
    apply Hn in He. by apply streq_false in He.
Qed.

(** Every check keeps the table well formed: 256 slots, a count within
    them, and one live entry per address (addresses as long as an IP address
    can be), so that the limiter never writes outside its array. *)
Theorem rate_check_inv now now' l client :
  limiter_inv l → (length client < IP_LEN)%nat →
  limiter_inv (rate_limiter_check now now' l (Some client)).1.
Proof. apply check_keeps_inv. Qed.

Lemma rate_check_inv_witness :
  limiter_inv (rate_limiter_check 1000 1000 (rate_limiter_init 60000 3) (Some (lit "10.0.0.1"))).1.
Proof. apply rate_check_inv; [apply limiter_init_inv | vm_compute; lia]. Defined.

(** ** Counting inside a window *)

(** The answers to successive requests of one client at the given times. *)
Fixpoint check_all (l : rate_limiter_t) (client : cstr) (times : list Z) : list Z :=
  match times with
  | [] => []
  | t :: times' =>
      let '(l', r) := rate_limiter_check t t l (Some client) in r :: check_all l' client times'
  end.

Lemma NoDup_ip_unique es i j e e' :
  NoDup (map ip es) → es !! i = Some e → es !! j = Some e' → ip e = ip e' → i = j.
Proof.
  intros Hnd Hi Hj Heq. eapply (NoDup_lookup (map ip es)); [done | |].
  - apply list_lookup_fmap_Some. eauto.
  - apply list_lookup_fmap_Some. eauto.
Qed.

Lemma find_tracked l i e :
  NoDup (map ip (table l)) → table l !! i = Some e →
  find_idx (λ x, streq (ip x) (ip e)) (table l) = Some i.
Proof.
  intros Hnd Hi. apply find_idx_Some. split; [exists e; auto with claw|].
  intros j y Hlt Hj. apply streq_false. intros Heq.
  pose proof (NoDup_ip_unique _ _ _ _ _ Hnd Hj Hi Heq). lia.
Qed.

(** One more request inside the window of a tracked client. *)
Lemma check_tracked t t' l i e :
  limiter_inv l → table l !! i = Some e →
  0 <= t - first_request_time e <= window_ms l → window_ms l < 2 ^ 64 →
  0 <= request_count e → request_count e + 1 < 2 ^ 64 →
  let e' := mk_entry (ip e) (request_count e + 1) (first_request_time e) t in
  rate_limiter_check t t' l (Some (ip e)) =
  (mk_limiter (<[i := e']> (entries l)) (entry_count l) (window_ms l) (max_requests l),
   if max_requests l <? request_count e + 1 then -1 else 0).
Proof.
  intros [Hs Hc Hd] Hi Hw Hw64 Hr Hr64 e'. unfold rate_limiter_check. fold (table l).
  rewrite (find_tracked _ _ _ Hd Hi).
  pose proof (lookup_lt_Some _ _ _ Hi) as Hlt. unfold table in Hlt. rewrite length_take in Hlt.
  rewrite lookup_table, Hi by lia.
  assert (touch_entry (window_ms l) t e = e') as ->; [|done].
  unfold touch_entry. rewrite wrap_small by lia.
  rewrite (proj2 (Z.ltb_ge _ _)) by lia. by rewrite wrap_small by lia.
Qed.

(** C30: while the window of a tracked client is open, its requests are
    answered by counting: with [c] requests already counted the [k]-th further
    one is refused exactly when [c + k] exceeds the limit. The address fits
    its field, and the window and the counts stay below 2^64. *)
Theorem rate_window_limit times l i e :
  limiter_inv l → table l !! i = Some e → (length (ip e) < IP_LEN)%nat →
  0 <= window_ms l < 2 ^ 64 → 0 <= request_count e →
  request_count e + Z.of_nat (length times) < 2 ^ 64 →
  Forall (λ t, first_request_time e <= t <= first_request_time e + window_ms l) times →
  check_all l (ip e) times =
  map (λ k, if max_requests l <? request_count e + k then -1 else 0)
      (seqZ 1 (Z.of_nat (length times))).
Proof.
  revert l e. induction times as [|t times IH]; intros l e Hinv Hi Hlen Hw Hr Hr64 Ht; [done|].
  apply Forall_cons in Ht as [Ht Hts]. rewrite length_cons in *.
  cbn [check_all]. rewrite (check_tracked t t l i e) by (try done; lia).
  pose proof (check_keeps_inv t t l (ip e) Hinv Hlen) as Hinv'.
  rewrite (check_tracked t t l i e) in Hinv' by (try done; lia). simpl in Hinv'.
  set (e' := mk_entry _ _ _ _) in *. set (l' := mk_limiter _ _ _ _) in *.
  assert (table l' !! i = Some e') as Hi'.
  { pose proof (lookup_lt_Some _ _ _ Hi) as Hlt. unfold table in *. rewrite length_take in Hlt.
    simpl. rewrite lookup_take_lt by lia. apply list_lookup_insert_eq. lia. }
  change (ip e) with (ip e'). rewrite IH by (try done; subst e' l'; simpl; lia).
  rewrite Nat2Z.inj_succ, (seqZ_cons 1 (Z.succ _)) by lia. rewrite Z.pred_succ. cbn [map].
  f_equal. replace (Z.succ 1) with (1 + 1) by lia. rewrite <- (fmap_add_seqZ 1 1). rewrite <- list_fmap_compose.
  apply list_fmap_ext. intros k z _. simpl. replace (request_count e + 1 + z) with (request_count e + (1 + z)) by lia. done.
Qed.

(** A limiter of three requests a minute, after its first one. *)
Definition limiter_ex : rate_limiter_t :=
  (rate_limiter_check 1000 1000 (rate_limiter_init 60000 3) (Some (lit "10.0.0.1"))).1.

Lemma rate_window_limit_witness :
  check_all limiter_ex (lit "10.0.0.1") [1500; 2000; 2500; 61000] = [0; 0; -1; -1].
Proof.
  refine (eq_trans (rate_window_limit [1500; 2000; 2500; 61000] limiter_ex 0
            (mk_entry (lit "10.0.0.1") 1 1000 1000) _ _ _ _ _ _ _) _);
    [apply check_keeps_inv; [apply limiter_init_inv | vm_compute; lia]
    | by_eval | vm_compute; lia | by vm_compute | by vm_compute | by vm_compute | | by_eval].
  repeat constructor; by vm_compute.
Defined.

(** When all 256 slots hold fresh clients, an address that is not in the
    table is admitted and leaves no trace, however often it asks: beyond 256
    active clients the limiter does not limit. *)
Theorem rate_full_fails_open now now' l client :
  limiter_inv l → entry_count l = RATE_ENTRIES →
  Forall (λ e, entry_fresh (window_ms l) now' e = true) (table l) →
  client ∉ map ip (table l) →
  (rate_limiter_check now now' l (Some client)).2 = 0 ∧
  table (rate_limiter_check now now' l (Some client)).1 = table l.
Proof.
  intros Hinv Hfull Hfresh Hnew. unfold rate_limiter_check. fold (table l).
  assert (find_idx (λ e, streq (ip e) client) (table l) = None) as ->.
  { apply find_idx_None, Forall_forall. intros e He. apply streq_false. intros <-.
    apply Hnew, list_elem_of_In, in_map. by apply list_elem_of_In. }
  rewrite Hfull, Nat.leb_refl.
  assert (table (rate_limiter_cleanup now' l) = table l) as Ht.
  { rewrite cleanup_table by (destruct Hinv; lia). clear -Hfresh.
    induction Hfresh as [|e es He Hes IH]; [done|]. simpl. by rewrite He, IH. }
  assert (entry_count (rate_limiter_cleanup now' l) = RATE_ENTRIES) as Hc.
  { pose proof (cleanup_inv now' l Hinv) as [Hs1 Hc1 _].
    apply (f_equal length) in Ht. unfold table in Ht. rewrite !length_take in Ht.
    destruct Hinv as [Hs _ _]. lia. }
  by rewrite Hc, Nat.leb_refl.
Qed.

(** A table filled by 256 distinct clients at time 1000. *)
Definition full_limiter : rate_limiter_t :=
  mk_limiter (map (λ n, mk_entry (fmt_dec n) 1 1000 1000) (seqZ 0 256)) 256 60000 3.

Lemma full_limiter_inv : limiter_inv full_limiter.
Proof.
  split; [done | simpl; unfold RATE_ENTRIES; lia |].
  apply (bool_decide_unpack _). vm_compute. exact I.
Qed.

Lemma rate_full_fails_open_witness :
  (rate_limiter_check 2000 2000 full_limiter (Some (lit "10.9.9.9"))).2 = 0 ∧
  table (rate_limiter_check 2000 2000 full_limiter (Some (lit "10.9.9.9"))).1 = table full_limiter.
Proof.
  apply rate_full_fails_open; [apply full_limiter_inv | reflexivity | |];
    apply (bool_decide_unpack _); vm_compute; exact I.
Defined.
