(* ===== verification/Approval.v ===== *)
(** * The approval manager of [src/approval/approval.c]

    A table of up to 32 approval requests and the two settings that
    [approval_check] consults. *)
From S2P Require Import Prelude.

Inductive approval_status_t :=
  | APPROVAL_PENDING | APPROVAL_APPROVED | APPROVAL_DENIED | APPROVAL_TIMEOUT.

#[export] Instance approval_status_eq_dec : EqDecision approval_status_t.
Proof. solve_decision. Defined.

Record approval_request_t := mk_request {
  request_id : cstr;
  action : cstr;
  reason : cstr;
  status : approval_status_t;
  created_at : Z;
  expires_at : Z;
  requires_confirmation : bool;
}.

Definition request_zero : approval_request_t :=
  mk_request [] [] [] APPROVAL_PENDING 0 0 false.

Definition MAX_REQUESTS : nat := 32.

Record approval_manager_t := mk_manager {
  requests : list approval_request_t;
  request_count : nat;
  auto_approve_enabled : bool;
  approved_actions : cstr;
}.

Definition approval_manager_init : approval_manager_t :=
  mk_manager (replicate MAX_REQUESTS request_zero) 0 false [].

(** [snprintf(req->request_id, 64, "%08x%08x", rand(), rand())]. *)
Definition fmt_request_id (r1 r2 : Z) : cstr :=
  snprintf_s 64 (fmt_hex false 8 (u32 r1) ++ fmt_hex false 8 (u32 r2)).

(** The slot is filled in place: without a reason it keeps the text a former
    request left there. *)
Definition approval_request (r1 r2 now : Z) (mgr : approval_manager_t)
    (act : option cstr) (why : option cstr) : approval_manager_t * Z * option approval_request_t :=
  match act with
  | None => (mgr, -1, None)
  | Some act =>
      if (MAX_REQUESTS <=? request_count mgr)%nat then (mgr, -1, None)
      else
        match requests mgr !! request_count mgr with
        | None => (mgr, -1, None)
        | Some old =>
            let req := mk_request (fmt_request_id r1 r2) (snprintf_s 128 act)
                         (match why with Some w => snprintf_s 512 w | None => reason old end)
                         APPROVAL_PENDING now (u64 (now + 300)) true in
            (mk_manager (<[request_count mgr := req]> (requests mgr)) (S (request_count mgr))
               (auto_approve_enabled mgr) (approved_actions mgr), 0, Some req)
        end
  end.

Definition set_status (s : approval_status_t) (r : approval_request_t) : approval_request_t :=
  mk_request (request_id r) (action r) (reason r) s (created_at r) (expires_at r)
    (requires_confirmation r).

Definition approval_respond (mgr : approval_manager_t) (rid : option cstr) (approved : bool)
    : approval_manager_t * Z :=
  match rid with
  | None => (mgr, -1)
  | Some rid =>
      match find_idx (λ r, streq (request_id r) rid) (take (request_count mgr) (requests mgr)) with
      | Some i =>
          match requests mgr !! i with
          | Some r =>
              (mk_manager
                 (<[i := set_status (if approved then APPROVAL_APPROVED else APPROVAL_DENIED) r]>
                    (requests mgr))
                 (request_count mgr) (auto_approve_enabled mgr) (approved_actions mgr), 0)
          | None => (mgr, -1)
          end
      | None => (mgr, -1)
      end
  end.

Definition approval_check (mgr : approval_manager_t) (act : option cstr) : Z :=
  match act with
  | None => -1
  | Some act =>
      if auto_approve_enabled mgr then 1
      else if contains (approved_actions mgr) act then 1
      else 0
  end.

(** The array and the count are handed out as they are, whatever the status
    of the requests. *)
Definition approval_list_pending (mgr : approval_manager_t) : list approval_request_t * nat :=
  (requests mgr, request_count mgr).

Definition approval_clear_expired (now : Z) (mgr : approval_manager_t) : approval_manager_t * Z :=
  let '(rs, n) := compact (λ r, now <? expires_at r) (request_count mgr) (requests mgr) in
  (mk_manager rs n (auto_approve_enabled mgr) (approved_actions mgr), 0).

Definition approval_manager_free (mgr : approval_manager_t) : approval_manager_t :=
  mk_manager (replicate MAX_REQUESTS request_zero) 0 false [].

(** ** The operations as steps *)

Inductive approval_step : approval_manager_t → approval_manager_t → Prop :=
  | step_request r1 r2 now m act why :
      approval_step m (approval_request r1 r2 now m act why).1.1
  | step_respond m rid ok : approval_step m (approval_respond m rid ok).1
  | step_clear now m : approval_step m (approval_clear_expired now m).1
  | step_free m : approval_step m (approval_manager_free m).

Inductive approval_reachable : approval_manager_t → Prop :=
  | reach_init : approval_reachable approval_manager_init
  | reach_step m m' : approval_reachable m → approval_step m m' → approval_reachable m'.

Record manager_inv (m : approval_manager_t) : Prop := {
  inv_slots : length (requests m) = MAX_REQUESTS;
  inv_count : (request_count m ≤ MAX_REQUESTS)%nat;
  inv_auto : auto_approve_enabled m = false;
  inv_actions : approved_actions m = [];
}.

Lemma approval_step_inv m m' : approval_step m m' → manager_inv m → manager_inv m'.
Proof.
  intros Hs Hinv. pose proof Hinv as [Hl Hc Ha Hp]. destruct Hs as [r1 r2 now m act why|m rid ok|now m|m].
  - unfold approval_request. destruct act; [|done]. case_if; [done|].
    destruct (requests m !! request_count m); [|done]. split; simpl; len; done.
  - unfold approval_respond. destruct rid; [|done]. destruct (find_idx _ _); [|done].
    destruct (requests m !! _); [|done]. split; simpl; [by rewrite length_insert | done..].
  - unfold approval_clear_expired.
    pose proof (compact_length (λ r, now <? expires_at r) _ (requests m) (Nat.le_trans _ _ _ Hc (Nat.eq_le_incl _ _ (eq_sym Hl)))).
    pose proof (compact_count (λ r, now <? expires_at r) (request_count m) (requests m)).
    destruct (compact _ _ _); simpl in *. split; simpl; [congruence | lia | done..].
  - split; simpl; [done | unfold MAX_REQUESTS; lia | done..].
Qed.

Lemma approval_reachable_inv m : approval_reachable m → manager_inv m.
Proof.
  induction 1; [|by eapply approval_step_inv].
  split; simpl; [done | unfold MAX_REQUESTS; lia | done..].
Qed.

(** No named action is granted in a reachable state. *)
Lemma check_refused m act : approval_reachable m → act ≠ [] → approval_check m (Some act) = 0.
Proof.
  intros [_ _ Ha Hp]%approval_reachable_inv Hne. unfold approval_check. rewrite Ha, Hp.
  by destruct act.
Qed.

(** In every state the API can produce, [approval_check] grants no
    action: answering a request with "approved" changes the record of that
    request only, and the settings the check reads are never written. *)
Theorem approval_never_granted m act :
  approval_reachable m → approval_check m (Some act) = 1 ↔ act = [].
Proof.
  intros Hr. destruct (decide (act = [])) as [->|Hne].
  - apply approval_reachable_inv in Hr as [_ _ Ha Hp]. unfold approval_check. by rewrite Ha, Hp.
  - by rewrite check_refused.
Qed.

Lemma approval_never_granted_witness :
  let m := (approval_request 1 2 1000 approval_manager_init (Some (lit "shell")) None).1.1 in
  let m := (approval_respond m (Some (fmt_request_id 1 2)) true).1 in
  approval_check m (Some (lit "shell")) = 1 ↔ lit "shell" = [].
Proof.
  intros m0 m1. apply approval_never_granted.
  eapply reach_step; [|apply step_respond]. eapply reach_step; [apply reach_init|apply step_request].
Defined.

Definition live_requests (m : approval_manager_t) : list approval_request_t :=
  take (request_count m) (requests m).

(** Clearing drops exactly the expired requests and keeps the order of
    the others; the in-place loop refines a filter. *)
Theorem clear_expired_filter now m :
  manager_inv m →
  live_requests (approval_clear_expired now m).1 =
  List.filter (λ r, now <? expires_at r) (live_requests m).
Proof.
  intros [Hl Hc _ _]. unfold approval_clear_expired, live_requests.
  pose proof (compact_filter (λ r, now <? expires_at r) (request_count m) (requests m)) as H.
  destruct (compact _ _ _). apply H. lia.
Qed.

Lemma clear_expired_filter_witness :
  let m := (approval_request 1 2 1000 approval_manager_init (Some (lit "rm")) (Some (lit "why"))).1.1 in
  live_requests (approval_clear_expired 1300 m).1 =
  List.filter (λ r, 1300 <? expires_at r) (live_requests m).
Proof.
  intros m. apply clear_expired_filter, approval_reachable_inv.
  eapply reach_step; [apply reach_init|apply step_request].
Defined.

(** The answer to a request is recorded on the first live request with
    that identifier and on no other; an unknown identifier is refused. *)
Theorem respond_spec m rid ok :
  match find_idx (λ r, streq (request_id r) rid) (live_requests m) with
  | Some i =>
      ∃ r, live_requests m !! i = Some r ∧ request_id r = rid ∧
        (approval_respond m (Some rid) ok).2 = 0 ∧
        live_requests (approval_respond m (Some rid) ok).1 =
        <[i := set_status (if ok then APPROVAL_APPROVED else APPROVAL_DENIED) r]> (live_requests m)
  | None => approval_respond m (Some rid) ok = (m, -1)
  end.
Proof.
  unfold approval_respond. fold (live_requests m).
  destruct (find_idx _ _) as [i|] eqn:E; [|done].
  pose proof (find_idx_lt _ _ _ E) as Hlt. unfold live_requests in Hlt. rewrite length_take in Hlt.
  apply find_idx_Some in E as [(r & Hr & Hid) _]. exists r.
  pose proof Hr as Hr'. unfold live_requests in Hr'. rewrite lookup_take_lt in Hr' by lia.
  rewrite Hr'. split_and!; [done | by apply streq_true | done |].
  unfold live_requests. simpl. by rewrite take_insert_lt by lia.
Qed.
