(* ===== verification/LoopGuard.v ===== *)
(** * The tool-call circuit breaker of [src/loop_guard/loop_guard.c]

    The static variables of the file are the record [guard_t]; the sixteen
    rows of [g_history] are kept whole, the first [g_count] of them live. *)
From S2P Require Import Prelude.

Definition LOOP_GUARD_HISTORY_LEN : nat := 16.
Definition LOOP_GUARD_SAME_THRESH : nat := 5.
Definition LOOP_GUARD_PINGPONG_LEN : nat := 6.

Record guard_t := mk_guard {
  g_history : list cstr;
  g_count : nat;
  g_tripped : bool;
  g_reason : cstr;
}.

(** The state at program start. *)
Definition guard_zero : guard_t := mk_guard (replicate LOOP_GUARD_HISTORY_LEN []) 0 false [].

(** The rows of the history survive a reset. *)
Definition loop_guard_reset (g : guard_t) : guard_t := mk_guard (g_history g) 0 false [].

Definition row (g : guard_t) (i : nat) : cstr := nth i (g_history g) [].

(** The loop [for (i = 0; i + 2 <= g_count && g_count - i >= 6; i++)]; the
    fuel [g_count] bounds the number of its rounds. *)
Fixpoint pingpong_loop (g : guard_t) (a b : cstr) (fuel i : nat) : bool :=
  match fuel with
  | O => true
  | S fuel' =>
      if (i + 2 <=? g_count g)%nat && (LOOP_GUARD_PINGPONG_LEN <=? g_count g - i)%nat then
        let idx := (g_count g - 1 - i)%nat in
        if (Nat.even i && negb (streq (row g idx) a))
           || (Nat.odd i && negb (streq (row g idx) b))
        then false
        else pingpong_loop g a b fuel' (S i)
      else true
  end.

Definition is_pingpong (g : guard_t) : bool :=
  if (g_count g <? LOOP_GUARD_PINGPONG_LEN)%nat then false
  else
    let a := row g (g_count g - 1) in
    let b := row g (g_count g - 2) in
    if streq a b then false else pingpong_loop g a b (g_count g) 0.

Definition same_tool_repeated (g : guard_t) : bool :=
  if (g_count g <? LOOP_GUARD_SAME_THRESH)%nat then false
  else
    let last := row g (g_count g - 1) in
    forallb (λ i, streq (row g (g_count g - 1 - i)) last) (seq 1 (LOOP_GUARD_SAME_THRESH - 1)).

(** The history after the call has been recorded: a full history is moved
    down one row first ([memmove] of fifteen rows leaves the last in place). *)
Definition record_call (g : guard_t) (tool_name : cstr) : guard_t :=
  let '(h, n) := make_room LOOP_GUARD_HISTORY_LEN (g_count g) (g_history g) in
  mk_guard (<[n := snprintf_s 64 tool_name]> h) (S n) (g_tripped g) (g_reason g).

Definition trip (g : guard_t) (why : cstr) : guard_t :=
  mk_guard (g_history g) (g_count g) true (snprintf_s 128 why).

Definition loop_guard_check (g : guard_t) (tool_name : option cstr) : guard_t * bool :=
  if g_tripped g then (g, false)
  else
    match tool_name with
    | None => (g, true)
    | Some tool =>
        let g := record_call g tool in
        if same_tool_repeated g then
          (trip g (lit "same tool '" ++ tool ++ lit "' " ++ fmt_dec 5 ++ lit " times in a row"), false)
        else if is_pingpong g then
          (trip g (lit "ping-pong loop between '" ++ row g (g_count g - 2) ++ lit "' and '"
                   ++ row g (g_count g - 1) ++ lit "'"), false)
        else (g, true)
    end.

Definition loop_guard_tripped (g : guard_t) : bool := g_tripped g.

Definition loop_guard_reason (g : guard_t) (buf_size : nat) : cstr := snprintf_s buf_size (g_reason g).

(** ** The history as a list, newest call first *)

Definition calls (g : guard_t) : list cstr := reverse (take (g_count g) (g_history g)).

Record guard_inv (g : guard_t) : Prop := {
  inv_rows : length (g_history g) = LOOP_GUARD_HISTORY_LEN;
  inv_count : (g_count g ≤ LOOP_GUARD_HISTORY_LEN)%nat;
}.

(** The verdict of the code on a list of calls, newest first: five equal
    calls, or, from six calls on, two different last calls [a] and [b] that
    alternate over all but the five oldest calls. *)
Definition five_equal (h : list cstr) : bool :=
  match h with
  | a :: b :: c :: d :: e :: _ => streq b a && streq c a && streq d a && streq e a
  | _ => false
  end.

Fixpoint alternates (a b : cstr) (h : list cstr) : bool :=
  match h with
  | [] => true
  | x :: h' => streq x a && alternates b a h'
  end.

Definition ping_pong (h : list cstr) : bool :=
  match h with
  | a :: b :: _ =>
      (6 <=? length h)%nat && negb (streq a b) && alternates a b (take (length h - 5) h)
  | _ => false
  end.

Definition loops (h : list cstr) : bool := five_equal h || ping_pong h.

(** Successive checks of a list of tool names. *)
Fixpoint check_tools (g : guard_t) (tools : list cstr) : guard_t * list bool :=
  match tools with
  | [] => (g, [])
  | t :: ts =>
      let '(g, r) := loop_guard_check g (Some t) in
      let '(g, rs) := check_tools g ts in (g, r :: rs)
  end.

Lemma guard_zero_inv : guard_inv guard_zero.
Proof. split; [done | simpl; unfold LOOP_GUARD_HISTORY_LEN; lia]. Qed.

Lemma calls_length g : guard_inv g → length (calls g) = g_count g.
Proof. intros [Hr Hc]. unfold calls. rewrite length_reverse, length_take. lia. Qed.

Lemma row_calls g i :
  guard_inv g → (i < g_count g)%nat → row g (g_count g - 1 - i) = nth i (calls g) [].
Proof.
  intros Hinv Hi. pose proof (calls_length g Hinv) as Hl. destruct Hinv as [Hr Hc].
  unfold row. rewrite !nth_lookup. unfold calls in *. rewrite length_reverse in Hl.
  rewrite reverse_lookup, Hl by lia. rewrite lookup_take_lt by lia.
  by replace (g_count g - S i)%nat with (g_count g - 1 - i)%nat by lia.
Qed.

(** Recording a call pushes it in front and forgets the seventeenth. *)
Lemma record_call_spec g t :
  guard_inv g →
  guard_inv (record_call g t) ∧
  calls (record_call g t) = take 16 (snprintf_s 64 t :: calls g) ∧
  g_tripped (record_call g t) = g_tripped g.
Proof.
  intros [Hr Hc]. unfold record_call, calls.
  pose proof (push_bounded LOOP_GUARD_HISTORY_LEN (g_count g) (g_history g) (snprintf_s 64 t)
                ltac:(unfold LOOP_GUARD_HISTORY_LEN; lia) Hr Hc) as H.
  destruct (make_room _ _ _) as [h n]. destruct H as (Hl & Hn & Ht).
  cbn [g_history g_count g_tripped]. rewrite Ht, reverse_last_n, reverse_app. by split.
Qed.

Lemma same_tool_abs g : guard_inv g → same_tool_repeated g = five_equal (calls g).
Proof.
  intros Hinv. pose proof (calls_length g Hinv) as Hl. unfold same_tool_repeated.
  case_if.
  - unfold LOOP_GUARD_SAME_THRESH in *. destruct (calls g) as [|? [|? [|? [|? [|]]]]]; simpl in *; try done; lia.
  - unfold LOOP_GUARD_SAME_THRESH in *.
    assert (∀ i, (i < 5)%nat → row g (g_count g - 1 - i) = nth i (calls g) []) as Hrow
      by (intros; apply row_calls; [done|lia]).
    pose proof (Hrow O) as H0. rewrite Nat.sub_0_r in H0.
    cbn [Nat.sub seq forallb]. rewrite H0, !Hrow by lia.
    destruct (calls g) as [|? [|? [|? [|? [|]]]]]; simpl in *; try lia.
    by rewrite andb_true_r, !andb_assoc.
Qed.

(** The loop looks at the [g_count - 5] newest calls. *)
Lemma pingpong_loop_abs g a b fuel i :
  guard_inv g → (g_count g ≤ fuel + i)%nat → (6 ≤ g_count g)%nat →
  pingpong_loop g a b fuel i =
  alternates (if Nat.even i then a else b) (if Nat.even i then b else a)
    (drop i (take (g_count g - 5) (calls g))).
Proof.
  intros Hinv. pose proof (calls_length g Hinv) as Hl.
  revert i. induction fuel as [|fuel IH]; intros i Hf H6; cbn [pingpong_loop].
  { rewrite drop_ge; [done|]. rewrite length_take. lia. }
  unfold LOOP_GUARD_PINGPONG_LEN in *.
  destruct ((i + 2 <=? g_count g)%nat && (6 <=? g_count g - i)%nat) eqn:E.
  - bsplit. rewrite row_calls by (done || lia).
    assert (i < length (take (g_count g - 5) (calls g)))%nat as Hlt by (rewrite length_take; lia).
    destruct (lookup_lt_is_Some_2 _ _ Hlt) as [x Hx].
    rewrite (drop_S _ _ _ Hx). cbn [alternates].
    rewrite lookup_take_lt in Hx by lia. rewrite nth_lookup, Hx. simpl.
    rewrite IH by lia. rewrite Nat.even_succ, <- Nat.negb_even.
    destruct (Nat.even i); simpl.
    + rewrite orb_false_r. by destruct (streq x a).
    + by destruct (streq x b).
  - apply andb_false_iff in E. rewrite drop_ge; [done|]. rewrite length_take.
    destruct E; bsplit; lia.
Qed.

Lemma is_pingpong_abs g : guard_inv g → is_pingpong g = ping_pong (calls g).
Proof.
  intros Hinv. pose proof (calls_length g Hinv) as Hl. unfold is_pingpong, ping_pong.
  destruct (g_count g <? LOOP_GUARD_PINGPONG_LEN)%nat eqn:E; unfold LOOP_GUARD_PINGPONG_LEN in *; bsplit.
  - destruct (calls g) as [|a [|b h]]; [done..|].
    rewrite (proj2 (Nat.leb_gt _ _)) by (rewrite Hl; lia). done.
  - pose proof (row_calls g 0 Hinv) as H0. rewrite Nat.sub_0_r in H0.
    pose proof (row_calls g 1 Hinv) as H1. rewrite <- Nat.sub_add_distr in H1. simpl Nat.add in H1.
    rewrite H0, H1, pingpong_loop_abs by (done || lia). rewrite drop_0. rewrite <- Hl.
    destruct (calls g) as [|a [|b h]]; simpl in Hl; [lia..|].
    rewrite (proj2 (Nat.leb_le _ _)) by (simpl; lia). simpl nth. simpl Nat.even. cbn iota.
    by destruct (streq a b).
Qed.

Lemma check_refines g t :
  guard_inv g → g_tripped g = false →
  let '(g', ok) := loop_guard_check g (Some t) in
  guard_inv g' ∧ calls g' = take 16 (snprintf_s 64 t :: calls g) ∧
  ok = negb (loops (calls g')) ∧ g_tripped g' = negb ok.
Proof.
  intros Hinv Ht. unfold loop_guard_check. rewrite Ht.
  destruct (record_call_spec g t Hinv) as (Hi' & Hc & Ht'). rewrite Ht in Ht'.
  rewrite same_tool_abs, is_pingpong_abs by done.
  unfold loops.
  destruct (five_equal (calls (record_call g t))) eqn:E5;
    [|destruct (ping_pong (calls (record_call g t))) eqn:Ep];
    (split_and!; [destruct Hi'; by split | exact Hc | | try done]);
    unfold calls in *; simpl; rewrite ?E5, ?Ep; done.
Qed.

(** The two patterns of [loop_guard.h], on a list of calls with the newest
    first: the same tool five times in a row, and [A,B,A,B,A,B]. *)
Definition five_in_a_row (h : list cstr) : Prop := ∃ x rest, h = replicate 5 x ++ rest.
Definition six_alternating (h : list cstr) : Prop := ∃ a b rest, a ≠ b ∧ h = [a; b; a; b; a; b] ++ rest.

Lemma five_equal_spec h : five_equal h = true ↔ five_in_a_row h.
Proof.
  split.
  - destruct h as [|a [|b [|c [|d [|e h]]]]]; try done. cbn [five_equal]. rewrite !andb_true_iff, !streq_true.
    intros [[[-> ->] ->] ->]. by exists a, h.
  - intros (x & rest & ->). cbn [replicate app five_equal]. by rewrite !streq_refl.
Qed.

Lemma six_alternating_caught h : six_alternating h → (length h ≤ 11)%nat → ping_pong h = true.
Proof.
  intros (a & b & rest & Hne & ->) Hl. cbn [app length] in Hl. unfold ping_pong. cbn [app].
  rewrite (proj2 (Nat.leb_le _ _)) by (cbn [length]; lia). rewrite (proj2 (streq_false a b)) by done. cbn [negb andb length].
  replace (S (S (S (S (S (S (length rest)))))) - 5)%nat with (S (length rest)) by lia.
  destruct rest as [|? [|? [|? [|? [|? [|]]]]]]; cbn [length] in *; try lia; cbn [take alternates]; by rewrite !streq_refl.
Qed.

Lemma ping_pong_sound h : ping_pong h = true → (6 ≤ length h)%nat ∧ ∃ a b rest, h = a :: b :: rest ∧ a ≠ b.
Proof.
  destruct h as [|a [|b h]]; try done. cbn [ping_pong]. rewrite !andb_true_iff, negb_true_iff, streq_false.
  intros [[Hl Hne] _]. apply Nat.leb_le in Hl. split; [done|]. by exists a, b, h.
Qed.

(** C15: a check of an untripped guard records the name (its first 63 bytes) in
    front of the last sixteen, and the guard is tripped exactly when it
    refuses.  It refuses whenever the recorded calls are the same tool five
    times in a row, and [A,B,A,B,A,B] as long as at most eleven calls are
    recorded; any other refusal has at least six recorded calls and two
    different last ones.  The header promises the second pattern without a
    bound and no other refusal. *)
Theorem loop_guard_catches_loops g t :
  guard_inv g → g_tripped g = false →
  let '(g', ok) := loop_guard_check g (Some t) in
  guard_inv g' ∧ calls g' = take 16 (snprintf_s 64 t :: calls g) ∧ g_tripped g' = negb ok ∧
  (five_in_a_row (calls g') → ok = false) ∧
  (six_alternating (calls g') → (length (calls g') ≤ 11)%nat → ok = false) ∧
  (ok = false → five_in_a_row (calls g') ∨
     (6 ≤ length (calls g'))%nat ∧ ∃ a b rest, calls g' = a :: b :: rest ∧ a ≠ b).
Proof.
  intros Hi Ht. pose proof (check_refines g t Hi Ht) as H. destruct (loop_guard_check g (Some t)) as [g' ok].
  destruct H as (Hi' & Hc & Hok & Htr). split_and!; try done; rewrite Hok; unfold loops.
  - intros H5%five_equal_spec. by rewrite H5.
  - intros H6 Hl. by rewrite (six_alternating_caught _ H6 Hl), orb_true_r.
  - rewrite negb_false_iff, orb_true_iff. intros [H5%five_equal_spec|Hp%ping_pong_sound]; [by left | by right].
Qed.

Lemma loop_guard_catches_loops_witness :
  let g := (check_tools guard_zero (replicate 4 (lit "shell"))).1 in
  let '(g', ok) := loop_guard_check g (Some (lit "shell")) in g_tripped g' = negb ok ∧ ok = false.
Proof.
  intros g. pose proof (loop_guard_catches_loops g (lit "shell") ltac:(split; vm_compute; lia) ltac:(by_eval)) as H.
  destruct (loop_guard_check g (Some (lit "shell"))) as [g' ok] eqn:E. destruct H as (_ & Hc & Ht & H5 & _).
  split; [exact Ht|]. apply H5. rewrite Hc. exists (lit "shell"), []. by_eval.
Defined.

(** The documented pattern is missed once twelve calls are recorded: seven
    calls that do not trip the guard, then two tools in turn, six times. *)
Theorem late_pingpong_missed :
  let tools := map lit ["p"; "q"; "p"; "q"; "r"; "r"; "r"; "a"; "b"; "a"; "b"; "a"; "b"] in
  (check_tools guard_zero tools).2 = replicate 13 true ∧ six_alternating (calls (check_tools guard_zero tools).1).
Proof.
  intros tools. split; [by_eval|]. exists (lit "b"), (lit "a"), (map lit ["r"; "r"; "r"; "q"; "p"; "q"; "p"]).
  split; [done | by_eval].
Qed.

(** A tripped guard refuses every later call, whatever its name, until
    it is reset; after the reset the first calls are accepted again. *)
Theorem loop_guard_latched g tools :
  g_tripped g = true →
  check_tools g tools = (g, replicate (length tools) false) ∧
  (∀ t, (loop_guard_check (loop_guard_reset g) (Some t)).2 = true).
Proof.
  intros Ht. split.
  - induction tools as [|t ts IH]; simpl; [done|]. unfold loop_guard_check. rewrite Ht. by rewrite IH.
  - intros t. unfold loop_guard_check, loop_guard_reset. simpl.
    unfold record_call. simpl. unfold same_tool_repeated, is_pingpong. done.
Qed.

Lemma loop_guard_latched_witness :
  let g := (check_tools guard_zero (replicate 5 (lit "shell"))).1 in
  check_tools g [lit "file_read"; lit "git"] = (g, [false; false]) ∧
  (∀ t, (loop_guard_check (loop_guard_reset g) (Some t)).2 = true).
Proof. intros g. apply (loop_guard_latched g [lit "file_read"; lit "git"]). by_eval. Defined.

(** The sixth call trips the guard whenever it differs from the fifth,
    even when all six tools are different: for six recorded calls the
    ping-pong test compares the newest call with itself only. *)
Theorem sixth_call_trips g t :
  guard_inv g → g_tripped g = false → g_count g = 5%nat →
  snprintf_s 64 t ≠ row g 4 →
  (loop_guard_check g (Some t)).2 = false.
Proof.
  intros Hinv Ht Hc Hne. pose proof (check_refines g t Hinv Ht) as H.
  destruct (loop_guard_check g (Some t)) as [g' ok]. destruct H as (_ & Hcalls & -> & _).
  pose proof (calls_length g Hinv) as Hl. pose proof (row_calls g 0 Hinv) as H0.
  rewrite Hc in *. specialize (H0 ltac:(lia)). simpl in H0. rewrite H0 in Hne. rewrite Hcalls.
  destruct (calls g) as [|a [|b [|c [|d [|e [|]]]]]]; try done. simpl in Hne.
  unfold loops, ping_pong. simpl. apply streq_false in Hne. rewrite Hne, streq_refl. simpl.
  by rewrite orb_true_r.
Qed.

Lemma sixth_call_trips_witness :
  (check_tools guard_zero (map lit ["a"; "b"; "c"; "d"; "e"])).2 = replicate 5 true ∧
  (loop_guard_check (check_tools guard_zero (map lit ["a"; "b"; "c"; "d"; "e"])).1 (Some (lit "f"))).2
  = false.
Proof.
  split; [by_eval|].
  apply (sixth_call_trips _ (lit "f")); [split; vm_compute; lia | by_eval | by_eval | by vm_compute].
Defined.
