(* ===== verification/Ring.v ===== *)
(** * Circular buffers

    The arithmetic shared by the job queue ([src/jobcache/jobcache.c]) and
    the event log ([src/runtime_monitor/runtime_monitor.c]): an array of
    slots, the index of the oldest element and the number of elements. *)
From S2P Require Import Prelude.

Section ring.
Context {A : Type}.
Implicit Types (slots : list A) (x : A).

(** The elements, oldest first. *)
Definition ring slots (head count : nat) : list A :=
  omap (λ i, slots !! ((head + i) mod length slots)%nat) (seq 0 count).

Lemma omap_seq_S (f : nat → option A) k n :
  omap f (seq k (S n)) = omap f (seq k n) ++ omap f [(k + n)%nat].
Proof. rewrite seq_S. apply omap_app. Qed.

Lemma ring_nil slots head : ring slots head 0 = [].
Proof. done. Qed.

Lemma ring_S slots head n :
  ring slots head (S n) =
  ring slots head n ++ omap (λ i, slots !! ((head + i) mod length slots)%nat) [n].
Proof. unfold ring. by rewrite omap_seq_S. Qed.

Lemma mod_slot slots i : (0 < length slots)%nat → (i mod length slots < length slots)%nat.
Proof. intros. apply Nat.mod_upper_bound. lia. Qed.

Lemma ring_length slots head n :
  (0 < length slots)%nat → length (ring slots head n) = n.
Proof.
  intros Hcap. induction n as [|n IH]; [done|]. rewrite ring_S, length_app, IH. simpl.
  destruct (lookup_lt_is_Some_2 slots ((head + n) mod length slots)) as [x ->];
    [by apply mod_slot|]. simpl. lia.
Qed.

Lemma ring_lookup slots head n i :
  (0 < length slots)%nat → (i < n)%nat →
  ring slots head n !! i = slots !! ((head + i) mod length slots)%nat.
Proof.
  intros Hcap. revert i. induction n as [|n IH]; intros i Hi; [lia|].
  rewrite ring_S. destruct (decide (i = n)) as [->|].
  - rewrite lookup_app_r by (by rewrite ring_length). rewrite ring_length, Nat.sub_diag by done. simpl.
    destruct (lookup_lt_is_Some_2 slots ((head + n) mod length slots)) as [x ->];
      [by apply mod_slot|]. done.
  - rewrite lookup_app_l by (rewrite ring_length by done; lia). apply IH. lia.
Qed.

(** Two positions less than a full turn apart are different slots. *)
Lemma mod_distinct cap h i j :
  (i < j)%nat → (j - i < cap)%nat → ((h + i) mod cap ≠ (h + j) mod cap)%nat.
Proof.
  intros Hij Hc Heq.
  assert (((h + j) - (h + i)) mod cap = 0)%nat as Hm.
  { pose proof (Nat.div_mod_eq (h + j) cap). pose proof (Nat.div_mod_eq (h + i) cap).
    replace ((h + j) - (h + i))%nat with (cap * ((h + j) / cap - (h + i) / cap))%nat by nia.
    rewrite Nat.mul_comm. apply Nat.Div0.mod_mul. }
  rewrite Nat.mod_small in Hm by lia. lia.
Qed.

(** Writing the slot behind the newest element appends. *)
Lemma ring_push slots head n x :
  (n < length slots)%nat →
  ring (<[((head + n) mod length slots)%nat := x]> slots) head (S n) = ring slots head n ++ [x].
Proof.
  intros Hn. apply list_eq. intros i.
  destruct (decide (i < S n)%nat) as [Hi|].
  - rewrite ring_lookup by (rewrite ?length_insert; lia). rewrite length_insert.
    destruct (decide (i = n)) as [->|].
    + rewrite list_lookup_insert_eq by (apply mod_slot; lia).
      rewrite lookup_app_r by (rewrite ring_length; lia).
      by rewrite ring_length, Nat.sub_diag by lia.
    + rewrite list_lookup_insert_ne.
      * rewrite lookup_app_l by (rewrite ring_length; lia). by rewrite ring_lookup by lia.
      * apply not_eq_sym, mod_distinct; lia.
  - rewrite !lookup_ge_None_2; [done | |].
    + rewrite length_app, ring_length by lia. simpl. lia.
    + rewrite ring_length by (rewrite length_insert; lia). lia.
Qed.

(** Advancing the head removes the oldest element. *)
Lemma ring_pop slots head n :
  (head < length slots)%nat →
  ∃ x, slots !! head = Some x ∧
    ring slots head (S n) = x :: ring slots ((head + 1) mod length slots)%nat n.
Proof.
  intros Hh. destruct (lookup_lt_is_Some_2 slots head Hh) as [x Hx]. exists x. split; [done|].
  apply list_eq. intros [|i].
  - rewrite ring_lookup by lia. by rewrite Nat.add_0_r, Nat.mod_small.
  - simpl. destruct (decide (i < n)%nat).
    + rewrite !ring_lookup by lia. rewrite Nat.Div0.add_mod_idemp_l.
      by replace (head + 1 + i)%nat with (head + S i)%nat by lia.
    + rewrite !lookup_ge_None_2; [done | rewrite ring_length; lia | rewrite ring_length; lia].
Qed.

(** In a full buffer the slot of the oldest element is also the slot behind
    the newest. *)
Lemma ring_full_slot cap h : (h < cap)%nat → ((h + cap) mod cap = h)%nat.
Proof.
  intros. replace (h + cap)%nat with (h + 1 * cap)%nat by lia.
  rewrite Nat.Div0.mod_add. by apply Nat.mod_small.
Qed.

(** Overwriting the oldest element of a full buffer drops it and appends. *)
Lemma ring_overwrite slots head x :
  (head < length slots)%nat →
  ring (<[head := x]> slots) ((head + 1) mod length slots)%nat (length slots) =
  drop 1 (ring slots head (length slots)) ++ [x].
Proof.
  intros Hh. set (h' := ((head + 1) mod length slots)%nat).
  destruct (length slots) as [|n] eqn:Hl; [lia|].
  destruct (ring_pop slots head n) as (y & _ & ->); [lia|]. simpl drop. rewrite drop_0.
  fold h'. rewrite Hl. fold h'. rewrite <- ring_push by lia. rewrite Hl. do 2 f_equal.
  subst h'. rewrite Nat.Div0.add_mod_idemp_l.
  replace (head + 1 + n)%nat with (head + S n)%nat by lia.
  symmetry. apply ring_full_slot. lia.
Qed.

End ring.
