(* ===== verification/JobCache.v ===== *)
(** * The shared job queue of [src/jobcache/jobcache.c]

    A bounded circular buffer behind one mutex and two condition variables.
    Every access to the buffer lies between [pthread_mutex_lock] and
    [pthread_mutex_unlock], and [pthread_cond_wait] gives the mutex up while
    it sleeps; the unit of interleaving is therefore the stretch of code that
    a thread runs from taking the mutex (on entry or on waking up) to
    releasing it (on return or on going to sleep).  [push_section] and
    [pop_section] are these stretches; [queue_step] interleaves them among
    any number of threads. *)
From S2P Require Import Prelude Ring.

Inductive job_type_t := JOB_AGENT_CHAT | JOB_CRON_RUN | JOB_WEBHOOK | JOB_PING | JOB_OTHER (n : Z).

Definition JOB_INSTANCE_ID_LEN : nat := 64.
Definition JOB_PAYLOAD_LEN : nat := Z.to_nat 8192.

(** Callback and context are opaque addresses; [None] is NULL. *)
Record job_t := mk_job {
  type : job_type_t;
  instance_id : cstr;
  payload : list Z;
  payload_len : nat;
  response_cb : option Z;
  response_ctx : Z;
}.

Record jobcache_t := mk_cache {
  slots : list job_t;
  capacity : nat;
  head : nat;
  tail : nat;
  count : nat;
}.

(** [mem] is the result of the second [malloc]: an array of [max_size]
    uninitialised jobs, or NULL. *)
Definition jobcache_create (max_size : nat) (mem : option (list job_t)) : option jobcache_t :=
  if (max_size =? 0)%nat then None
  else
    match mem with
    | None => None
    | Some m => Some (mk_cache m max_size 0 0 0)
    end.

(** [memcpy] of the job, and a NUL after its payload when there is room. *)
Definition store_job (job : job_t) : job_t :=
  if (payload_len job <? JOB_PAYLOAD_LEN)%nat
  then mk_job (type job) (instance_id job) (<[payload_len job := 0]> (payload job))
         (payload_len job) (response_cb job) (response_ctx job)
  else job.

(** One turn of [jobcache_push] under the mutex: [None] when it has to sleep
    on [cond_not_full]. *)
Definition push_section (c : jobcache_t) (job : job_t) : option jobcache_t :=
  if (capacity c <=? count c)%nat then None
  else Some (mk_cache (<[tail c := store_job job]> (slots c)) (capacity c) (head c)
               ((tail c + 1) mod capacity c)%nat (S (count c))).

Inductive pop_result :=
  | PopDone (c : jobcache_t) (job : job_t)
  | PopEmpty        (** return -1 *)
  | PopWait.        (** sleep on [cond_not_empty] *)

(** One turn of [jobcache_pop] under the mutex; a negative timeout blocks, a
    positive one sleeps, zero polls. *)
Definition pop_section (c : jobcache_t) (timeout_ms : Z) : pop_result :=
  if (count c =? 0)%nat then
    if timeout_ms =? 0 then PopEmpty else PopWait
  else
    match slots c !! head c with
    | Some job =>
        PopDone (mk_cache (slots c) (capacity c) ((head c + 1) mod capacity c)%nat (tail c)
                   (count c - 1)) job
    | None => PopEmpty
    end.

Definition jobcache_depth (c : option jobcache_t) : nat :=
  match c with Some c => count c | None => 0%nat end.

Definition jobcache_capacity (c : option jobcache_t) : nat :=
  match c with Some c => capacity c | None => 0%nat end.

(** ** Threads

    The callers between their turns: producers and consumers asleep on a
    condition variable, those that have been woken and wait for the mutex,
    the history of completed calls, and the number of consumers that were
    woken and gave up at their deadline all the same.  A consumer is its
    timeout. *)
Record queue_sys := mk_sys {
  q : jobcache_t;
  push_asleep : list job_t;
  push_woken : list job_t;
  pop_asleep : list Z;
  pop_woken : list Z;
  pushed : list job_t;
  popped : list job_t;
  given_up : nat;
}.

Definition sys_init (c : jobcache_t) : queue_sys := mk_sys c [] [] [] [] [] [] 0.

(** The choices [pthread_cond_signal] has: some sleeper is woken, or there is
    none. *)
Inductive signal {A} : list A → list A → list A → list A → Prop :=
  | signal_none woken : signal [] woken [] woken
  | signal_one l r x woken : signal (l ++ x :: r) woken (l ++ r) (x :: woken).

(** Where the running thread comes from: a fresh call, or one that was woken. *)
Inductive enters {A} : A → list A → list A → Prop :=
  | enters_call x woken : enters x woken woken
  | enters_woken x l r : enters x (l ++ x :: r) (l ++ r).

Inductive queue_step : queue_sys → queue_sys → Prop :=
  | step_push c job c' pa pw pw' ca cw ca' cw' ps pp n :
      enters job pw pw' →
      push_section c job = Some c' →
      signal ca cw ca' cw' →
      queue_step (mk_sys c pa pw ca cw ps pp n)
                 (mk_sys c' pa pw' ca' cw' (ps ++ [store_job job]) pp n)
  | step_push_sleep c job pa pw pw' ca cw ps pp n :
      enters job pw pw' →
      push_section c job = None →
      queue_step (mk_sys c pa pw ca cw ps pp n) (mk_sys c (job :: pa) pw' ca cw ps pp n)
  | step_pop c t c' job pa pw pa' pw' ca cw cw' ps pp n :
      enters t cw cw' →
      pop_section c t = PopDone c' job →
      signal pa pw pa' pw' →
      queue_step (mk_sys c pa pw ca cw ps pp n)
                 (mk_sys c' pa' pw' ca cw' ps (pp ++ [job]) n)
  | step_pop_sleep c t pa pw ca cw cw' ps pp n :
      enters t cw cw' →
      pop_section c t = PopWait →
      queue_step (mk_sys c pa pw ca cw ps pp n) (mk_sys c pa pw (t :: ca) cw' ps pp n)
  | step_pop_fail c t pa pw ca cw cw' ps pp n :
      enters t cw cw' →
      pop_section c t = PopEmpty →
      queue_step (mk_sys c pa pw ca cw ps pp n) (mk_sys c pa pw ca cw' ps pp n)
  | step_pop_timeout c t l r pa pw cw ps pp n :
      (** a sleeping consumer with a deadline gives up *)
      0 < t →
      queue_step (mk_sys c pa pw (l ++ t :: r) cw ps pp n) (mk_sys c pa pw (l ++ r) cw ps pp n)
  | step_pop_timeout_woken c t l r pa pw ca ps pp n :
      (** a timed wait may end at its deadline although a signal was directed
          at it; the call returns without looking at [count] again *)
      0 < t →
      queue_step (mk_sys c pa pw ca (l ++ t :: r) ps pp n) (mk_sys c pa pw ca (l ++ r) ps pp (S n))
  | step_spurious_push c job l r pw ca cw ps pp n :
      queue_step (mk_sys c (l ++ job :: r) pw ca cw ps pp n) (mk_sys c (l ++ r) (job :: pw) ca cw ps pp n)
  | step_spurious_pop c t l r pa pw cw ps pp n :
      queue_step (mk_sys c pa pw (l ++ t :: r) cw ps pp n) (mk_sys c pa pw (l ++ r) (t :: cw) ps pp n).

Inductive queue_reachable (c : jobcache_t) : queue_sys → Prop :=
  | queue_reach_init : queue_reachable c (sys_init c)
  | queue_reach_step s s' : queue_reachable c s → queue_step s s' → queue_reachable c s'.

(** ** The buffer as a list *)

Definition contents (c : jobcache_t) : list job_t := ring (slots c) (head c) (count c).

Record cache_inv (c : jobcache_t) : Prop := {
  inv_cap : (0 < capacity c)%nat;
  inv_slots : length (slots c) = capacity c;
  inv_head : (head c < capacity c)%nat;
  inv_count : (count c ≤ capacity c)%nat;
  inv_tail : tail c = ((head c + count c) mod capacity c)%nat;
}.

Lemma create_inv n m c :
  jobcache_create n (Some m) = Some c → length m = n → cache_inv c ∧ contents c = [].
Proof.
  unfold jobcache_create. destruct (n =? 0)%nat eqn:E; [done|]. apply Nat.eqb_neq in E.
  intros [= <-] Hm. split; [|done]. split; simpl; try lia. by rewrite Nat.Div0.mod_0_l.
Qed.

Lemma push_full c job : push_section c job = None ↔ (capacity c ≤ count c)%nat.
Proof. unfold push_section. case_if; split; (done || lia). Qed.

Lemma push_contents c job c' :
  cache_inv c → push_section c job = Some c' →
  cache_inv c' ∧ contents c' = contents c ++ [store_job job] ∧
  capacity c' = capacity c ∧ count c' = S (count c).
Proof.
  intros [H0 Hs Hh Hc Ht]. unfold push_section. case_if; [done|]. intros [= <-].
  split_and!; [split; simpl; try lia | | done | done].
  - by rewrite length_insert.
  - rewrite Ht, Nat.Div0.add_mod_idemp_l. f_equal. lia.
  - unfold contents. simpl. rewrite Ht, <- Hs. apply ring_push. lia.
Qed.

Lemma pop_contents c t c' job :
  cache_inv c → pop_section c t = PopDone c' job →
  cache_inv c' ∧ contents c = job :: contents c' ∧
  capacity c' = capacity c ∧ S (count c') = count c.
Proof.
  intros [H0 Hs Hh Hc Ht]. unfold pop_section.
  destruct (count c =? 0)%nat eqn:E; [by destruct (t =? 0)|]. apply Nat.eqb_neq in E.
  destruct (ring_pop (slots c) (head c) (count c - 1)) as (x & Hx & Hr); [lia|].
  rewrite Hx. intros [= <- <-].
  split_and!; [split; simpl; try lia | | done | simpl; lia].
  - apply Nat.mod_upper_bound. lia.
  - rewrite Ht, Nat.Div0.add_mod_idemp_l. f_equal. lia.
  - unfold contents. simpl. rewrite <- Hs, <- Hr. f_equal. lia.
Qed.

Lemma pop_wait c t : cache_inv c → pop_section c t = PopWait → count c = 0%nat ∧ t ≠ 0.
Proof.
  intros Hinv. unfold pop_section. destruct (count c =? 0)%nat eqn:E.
  - apply Nat.eqb_eq in E. destruct (t =? 0) eqn:Et; [done|]. bsplit. done.
  - destruct (slots c !! head c); done.
Qed.

Lemma pop_fail c t : cache_inv c → pop_section c t = PopEmpty → count c = 0%nat ∧ t = 0.
Proof.
  intros [H0 Hs Hh Hc Ht]. unfold pop_section. destruct (count c =? 0)%nat eqn:E.
  - apply Nat.eqb_eq in E. destruct (t =? 0) eqn:Et; [|done]. bsplit. done.
  - destruct (lookup_lt_is_Some_2 (slots c) (head c)) as [x ->]; [lia | done].
Qed.

#[export] Hint Resolve create_inv push_contents pop_contents : claw.

(** C1: sequential correctness.  The circular buffer refines a bounded FIFO
    list: a push appends the stored job, or has to wait exactly when
    [capacity] jobs are queued (the comment in [jobcache.h] promises -1
    there, the code sleeps); a pop removes the oldest job, and finds none
    exactly when the list is empty. *)
Theorem jobcache_refines_fifo c job t :
  cache_inv c →
  match push_section c job with
  | Some c' => cache_inv c' ∧ contents c' = contents c ++ [store_job job]
  | None => length (contents c) = capacity c
  end ∧
  match pop_section c t with
  | PopDone c' j => cache_inv c' ∧ contents c = j :: contents c'
  | PopEmpty => contents c = [] ∧ t = 0
  | PopWait => contents c = [] ∧ t ≠ 0
  end.
Proof.
  intros Hinv. split.
  - destruct (push_section c job) as [c'|] eqn:E.
    + by destruct (push_contents c job c' Hinv E) as (? & ? & _).
    + apply push_full in E. destruct Hinv. unfold contents. rewrite ring_length by lia. lia.
  - unfold contents. destruct (pop_section c t) as [c' j| |] eqn:E.
    + by destruct (pop_contents c t c' j Hinv E) as (? & ? & _).
    + by destruct (pop_fail c t Hinv E) as [-> ->].
    + by destruct (pop_wait c t Hinv E) as [-> ?].
Qed.

Definition job_ex (n : Z) : job_t := mk_job JOB_PING (lit "default") (replicate 4 65) 2 None n.
Definition cache_ex : jobcache_t := mk_cache [job_ex 1; job_ex 2; job_ex 3] 3 2 1 2.

Lemma cache_ex_inv : cache_inv cache_ex.
Proof. split; vm_compute; (done || lia). Qed.

Lemma jobcache_refines_fifo_witness :
  contents cache_ex = [job_ex 3; job_ex 1] ∧
  match push_section cache_ex (job_ex 4) with
  | Some c' => cache_inv c' ∧ contents c' = contents cache_ex ++ [store_job (job_ex 4)]
  | None => length (contents cache_ex) = capacity cache_ex
  end.
Proof. split; [by_eval|]. exact (proj1 (jobcache_refines_fifo cache_ex (job_ex 4) 0 cache_ex_inv)). Defined.

(** ** All interleavings *)

Lemma signal_length {A} (a w a' w' : list A) :
  signal a w a' w' →
  (a = [] ∧ a' = [] ∧ w' = w) ∨ (length a = S (length a') ∧ length w' = S (length w)).
Proof. destruct 1; [by left|]. right. rewrite !length_app. simpl. lia. Qed.

Lemma enters_length {A} (x : A) w w' :
  enters x w w' → w' = w ∨ length w = S (length w').
Proof. destruct 1; [by left|]. right. rewrite !length_app. simpl. lia. Qed.

(** The conservation law and the wake-up counts: while a consumer sleeps,
    every queued job has a woken consumer on its way or one that gave up, and
    while a producer sleeps, every free slot has a woken producer on its way. *)
Record sys_inv (s : queue_sys) : Prop := {
  inv_cache : cache_inv (q s);
  inv_fifo : pushed s = popped s ++ contents (q s);
  inv_pop_wake : pop_asleep s ≠ [] → (count (q s) ≤ length (pop_woken s) + given_up s)%nat;
  inv_push_wake : push_asleep s ≠ [] → (capacity (q s) - count (q s) ≤ length (push_woken s))%nat;
}.

Lemma app_not_nil {A} (l r : list A) x : l ++ r ≠ [] → l ++ x :: r ≠ [].
Proof. by destruct l. Qed.

Lemma wake_less {A} (l r : list A) x n m :
  (l ++ x :: r ≠ [] → (n ≤ m)%nat) → l ++ r ≠ [] → (n ≤ m)%nat.
Proof. intros H Hne. by apply H, app_not_nil. Qed.

Lemma queue_step_inv s s' : queue_step s s' → sys_inv s → sys_inv s'.
Proof.
  destruct 1 as
    [c job c' pa pw pw' ca cw ca' cw' ps pp n He Hp Hs | c job pa pw pw' ca cw ps pp n He Hp
    |c t c' job pa pw pa' pw' ca cw cw' ps pp n He Hp Hs | c t pa pw ca cw cw' ps pp n He Hp
    |c t pa pw ca cw cw' ps pp n He Hp | c t l r pa pw cw ps pp n Ht | c t l r pa pw ca ps pp n Ht
    |c job l r pw ca cw ps pp n | c t l r pa pw cw ps pp n];
    intros [Hc Hf Hpop Hpush]; simpl in *.
  - destruct (push_contents _ _ _ Hc Hp) as (Hc' & Hcont & Hcap & Hcnt).
    split; simpl; [done | by rewrite Hcont, Hf, app_assoc | |].
    + intros Hne. destruct (signal_length _ _ _ _ Hs) as [(-> & -> & _)|[Ha Hw]]; [done|].
      rewrite Hcnt, Hw. destruct ca; [done|]. specialize (Hpop ltac:(done)). lia.
    + intros Hne. specialize (Hpush Hne). destruct (enters_length _ _ _ He) as [->|Hl]; lia.
  - apply push_full in Hp. split; simpl; [done | done | done |]. lia.
  - destruct (pop_contents _ _ _ _ Hc Hp) as (Hc' & Hcont & Hcap & Hcnt).
    split; simpl; [done | by rewrite <- app_assoc, Hf, Hcont | |].
    + intros Hne. specialize (Hpop Hne). destruct (enters_length _ _ _ He) as [->|Hl]; lia.
    + intros Hne. destruct (signal_length _ _ _ _ Hs) as [(-> & -> & _)|[Ha Hw]]; [done|].
      destruct pa; [done|]. specialize (Hpush ltac:(done)). lia.
  - destruct (pop_wait _ _ Hc Hp) as [H0 _]. split; simpl; [done | done | lia | done].
  - destruct (pop_fail _ _ Hc Hp) as [H0 _]. split; simpl; [done | done | lia | done].
  - split; simpl; [done | done | by apply wake_less with t | done].
  - split; simpl; [done | done | | done]. intros Hne. specialize (Hpop Hne). rewrite length_app in *. simpl in *. lia.
  - split; simpl; [done | done | done |]. intros Hne. specialize (Hpush (app_not_nil _ _ _ Hne)). lia.
  - split; simpl; [done | done | | done]. intros Hne. specialize (Hpop (app_not_nil _ _ _ Hne)). lia.
Qed.

Lemma queue_reachable_inv c s :
  cache_inv c → contents c = [] → queue_reachable c s → sys_inv s.
Proof.
  intros Hc H0. induction 1 as [|s s' _ IH Hs]; [|by eapply queue_step_inv].
  split; simpl; [done | by rewrite H0 | done | done].
Qed.

(** C2: whatever the interleaving of producers and consumers, the jobs
    handed out so far followed by the jobs still queued are the jobs accepted
    so far, in the order of their acceptance: no job is lost, duplicated or
    overtaken, and never more than the capacity is queued. *)
Theorem jobcache_fifo_concurrent n m c s :
  jobcache_create n (Some m) = Some c → length m = n → queue_reachable c s →
  pushed s = popped s ++ contents (q s) ∧ (length (contents (q s)) ≤ capacity (q s))%nat.
Proof.
  intros Hc Hm Hr. destruct (create_inv n m c Hc Hm) as [Hi H0].
  destruct (queue_reachable_inv c s Hi H0 Hr) as [[? ? ? ? ?] Hf _ _]. split; [done|].
  unfold contents. rewrite ring_length by lia. done.
Qed.

(** Two consumers fall asleep, then a producer stores a job and wakes one. *)
Definition fresh_ex : jobcache_t := mk_cache [job_ex 0; job_ex 0] 2 0 0 0.

Definition queue_ex : queue_sys :=
  mk_sys (mk_cache [store_job (job_ex 7); job_ex 0] 2 0 1 1) [] [] [-1] [1000]
    [store_job (job_ex 7)] [] 0.

Lemma queue_ex_reachable : queue_reachable fresh_ex queue_ex.
Proof.
  eapply queue_reach_step; [eapply queue_reach_step; [eapply queue_reach_step; [apply queue_reach_init|]|]|].
  - apply (step_pop_sleep fresh_ex (-1) [] [] [] [] [] [] [] 0); [constructor | reflexivity].
  - apply (step_pop_sleep fresh_ex 1000 [] [] [-1] [] [] [] [] 0); [constructor | reflexivity].
  - apply (step_push fresh_ex (job_ex 7) _ [] [] [] [1000; -1] [] [-1] [1000] [] [] 0);
      [constructor | reflexivity | apply (signal_one [] [-1] 1000 [])].
Qed.

Lemma jobcache_fifo_concurrent_witness :
  pushed queue_ex = popped queue_ex ++ contents (q queue_ex) ∧
  (length (contents (q queue_ex)) ≤ capacity (q queue_ex))%nat.
Proof.
  exact (jobcache_fifo_concurrent 2 [job_ex 0; job_ex 0] fresh_ex queue_ex eq_refl eq_refl
           queue_ex_reachable).
Defined.

(** C3: wake-ups.  When a producer sleeps while there is room, some producer
    has been woken and its next turn stores its job.  When a consumer sleeps
    while jobs are queued, some consumer has been woken and its next turn
    takes a job, unless at least as many woken consumers as there are queued
    jobs have given up at their deadline: only a timed wait that ends with a
    signal pending can lose a wake-up. *)
Theorem jobcache_wakeups n m c s :
  jobcache_create n (Some m) = Some c → length m = n → queue_reachable c s →
  (push_asleep s ≠ [] → (length (contents (q s)) < capacity (q s))%nat →
     ∃ j l r c', push_woken s = l ++ j :: r ∧ push_section (q s) j = Some c') ∧
  (pop_asleep s ≠ [] → contents (q s) ≠ [] →
     (∃ t l r c' j, pop_woken s = l ++ t :: r ∧ pop_section (q s) t = PopDone c' j) ∨
     (length (contents (q s)) ≤ given_up s)%nat).
Proof.
  intros Hc Hm Hr. destruct (create_inv n m c Hc Hm) as [Hi H0].
  destruct (queue_reachable_inv c s Hi H0 Hr) as [Hci Hf Hpop Hpush].
  pose proof Hci as [? ? ? ? ?].
  assert (length (contents (q s)) = count (q s)) as Hlen
    by (unfold contents; by rewrite ring_length by lia).
  split.
  - intros Ha Hlt. specialize (Hpush Ha). destruct (push_woken s) as [|j r]; simpl in Hpush; [lia|].
    exists j, [], r. destruct (push_section (q s) j) as [c'|] eqn:Ep; [eauto|].
    apply push_full in Ep. lia.
  - intros Ha Hne. specialize (Hpop Ha). destruct (contents (q s)) as [|j0 js] eqn:E; [done|]. simpl in Hlen.
    destruct (pop_woken s) as [|t r]; simpl in Hpop; [right; cbn [length]; lia|]. left. exists t, [], r.
    destruct (pop_section (q s) t) as [c' j| |] eqn:Ep; [eauto | |].
    + destruct (pop_fail _ _ Hci Ep). lia.
    + destruct (pop_wait _ _ Hci Ep). lia.
Qed.

Lemma jobcache_wakeups_witness :
  (∃ t l r c' j, pop_woken queue_ex = l ++ t :: r ∧ pop_section (q queue_ex) t = PopDone c' j) ∨
  (length (contents (q queue_ex)) ≤ given_up queue_ex)%nat.
Proof.
  apply (proj2 (jobcache_wakeups 2 [job_ex 0; job_ex 0] fresh_ex queue_ex eq_refl eq_refl
           queue_ex_reachable)); by vm_compute.
Defined.

(** The wake-up of a consumer can be lost: a consumer with a deadline that is
    signalled and gives up at the same moment leaves a queued job and a
    consumer without a deadline asleep, with nobody woken. *)
Theorem consumer_wakeup_lost :
  ∃ s, queue_reachable fresh_ex s ∧ contents (q s) ≠ [] ∧ pop_asleep s = [-1] ∧ pop_woken s = [].
Proof.
  eexists. split; [eapply queue_reach_step; [exact queue_ex_reachable|]|].
  - apply (step_pop_timeout_woken _ 1000 [] [] [] [] [-1] _ _ 0). lia.
  - split_and!; [by vm_compute | done | done].
Qed.
