(* ===== verification/RuntimeMonitor.v ===== *)
(** * The runtime monitor of [src/runtime_monitor/runtime_monitor.c]

    The static variables are the record [monitor_t]: a circular log of the
    last 32 events, the connection buckets of up to 64 addresses and the
    switches.  Alerts for the user leave the monitor through
    [channels_send_alert]; they are collected in the field [alerts], in the
    order in which they are sent.  Log lines are not modelled. *)
From S2P Require Import Prelude Ring.

Inductive runtime_event_type_t :=
  | RUNTIME_EVENT_SECURITY_REJECT | RUNTIME_EVENT_RATE_LIMIT | RUNTIME_EVENT_INJECTION
  | RUNTIME_EVENT_PATH_TRAVERSAL | RUNTIME_EVENT_PORT_PROBE | RUNTIME_EVENT_ERROR
  | RUNTIME_EVENT_OTHER.

#[export] Instance runtime_event_type_eq_dec : EqDecision runtime_event_type_t.
Proof. solve_decision. Defined.

Definition RUNTIME_MONITOR_EVENT_MAX : nat := 32.
Definition RUNTIME_MONITOR_IP_MAX : nat := 64.
Definition RUNTIME_MONITOR_DETAIL_MAX : nat := 256.
Definition CONNECTION_WINDOW_SEC : Z := 60.
Definition CONNECTION_PROBE_THRESHOLD : Z := 25.
Definition CONNECTION_IPS_MAX : nat := 64.

Record runtime_monitor_event_t := mk_event {
  ev_type : runtime_event_type_t;
  ev_source : cstr;
  ev_ip : cstr;
  ev_details : cstr;
  ev_timestamp_sec : Z;
}.

Record connection_bucket_t := mk_bucket {
  bk_ip : cstr;
  bk_last_seen_sec : Z;
  bk_count : Z;
}.

Record monitor_t := mk_monitor {
  g_events : list runtime_monitor_event_t;
  g_event_head : nat;
  g_event_count : nat;
  g_notify_user : bool;
  g_agent_aware : bool;
  g_initialized : bool;
  g_conn_buckets : list connection_bucket_t;
  g_conn_bucket_count : nat;
  alerts : list cstr;
}.

Definition event_zero : runtime_monitor_event_t :=
  mk_event RUNTIME_EVENT_SECURITY_REJECT [] [] [] 0.
Definition bucket_zero : connection_bucket_t := mk_bucket [] 0 0.

(** The state before the first call. *)
Definition monitor_zero : monitor_t :=
  mk_monitor (replicate RUNTIME_MONITOR_EVENT_MAX event_zero) 0 0 true true false
    (replicate CONNECTION_IPS_MAX bucket_zero) 0 [].

Definition event_type_str (t : runtime_event_type_t) : cstr :=
  match t with
  | RUNTIME_EVENT_SECURITY_REJECT => lit "Security reject"
  | RUNTIME_EVENT_RATE_LIMIT => lit "Rate limit"
  | RUNTIME_EVENT_INJECTION => lit "Injection attempt"
  | RUNTIME_EVENT_PATH_TRAVERSAL => lit "Path traversal"
  | RUNTIME_EVENT_PORT_PROBE => lit "Port probe"
  | RUNTIME_EVENT_ERROR => lit "Error"
  | RUNTIME_EVENT_OTHER => lit "Event"
  end.

(** [s ? s : ""] *)
Definition or_empty (s : option cstr) : cstr := default [] s.

Definition push_event (now : Z) (m : monitor_t) (type : runtime_event_type_t)
    (source ip details : option cstr) : monitor_t :=
  let idx := ((g_event_head m + g_event_count m) mod RUNTIME_MONITOR_EVENT_MAX)%nat in
  let '(hd, n) :=
    if (RUNTIME_MONITOR_EVENT_MAX <=? g_event_count m)%nat
    then (((g_event_head m + 1) mod RUNTIME_MONITOR_EVENT_MAX)%nat, (g_event_count m - 1)%nat)
    else (g_event_head m, g_event_count m) in
  let e := mk_event type (snprintf_s 64 (or_empty source))
             (snprintf_s RUNTIME_MONITOR_IP_MAX (or_empty ip))
             (snprintf_s RUNTIME_MONITOR_DETAIL_MAX (or_empty details)) now in
  mk_monitor (<[idx := e]> (g_events m)) hd (S n) (g_notify_user m) (g_agent_aware m)
    (g_initialized m) (g_conn_buckets m) (g_conn_bucket_count m) (alerts m).

Definition runtime_monitor_init (m : monitor_t) : monitor_t * Z :=
  if g_initialized m then (m, 0)
  else (mk_monitor (replicate RUNTIME_MONITOR_EVENT_MAX event_zero) 0 0 true true true
          (replicate CONNECTION_IPS_MAX bucket_zero) 0 (alerts m), 0).

Definition runtime_monitor_shutdown (m : monitor_t) : monitor_t :=
  mk_monitor (g_events m) (g_event_head m) (g_event_count m) (g_notify_user m) (g_agent_aware m)
    false (g_conn_buckets m) (g_conn_bucket_count m) (alerts m).

Definition runtime_monitor_set_notify_user (m : monitor_t) (enable : bool) : monitor_t :=
  mk_monitor (g_events m) (g_event_head m) (g_event_count m) enable (g_agent_aware m)
    (g_initialized m) (g_conn_buckets m) (g_conn_bucket_count m) (alerts m).

Definition runtime_monitor_set_agent_aware (m : monitor_t) (enable : bool) : monitor_t :=
  mk_monitor (g_events m) (g_event_head m) (g_event_count m) (g_notify_user m) enable
    (g_initialized m) (g_conn_buckets m) (g_conn_bucket_count m) (alerts m).

Definition send_alert (m : monitor_t) (a : cstr) : monitor_t :=
  mk_monitor (g_events m) (g_event_head m) (g_event_count m) (g_notify_user m) (g_agent_aware m)
    (g_initialized m) (g_conn_buckets m) (g_conn_bucket_count m) (alerts m ++ [a]).

Definition alert_text (type : runtime_event_type_t) (ip details : option cstr) : cstr :=
  snprintf_s 512
    (lit "⚠️ Doctor Claw: " ++ event_type_str type ++ [10] ++ lit "From: "
     ++ (match ip with Some (c :: s) => c :: s | _ => lit "unknown" end) ++ [10]
     ++ or_empty details).

Definition runtime_monitor_event (now : Z) (m : monitor_t) (type : runtime_event_type_t)
    (source ip details : option cstr) : monitor_t :=
  if negb (g_initialized m) then m
  else
    let m := push_event now m type source ip details in
    if g_notify_user m then send_alert m (alert_text type ip details) else m.

Definition set_buckets (m : monitor_t) (bs : list connection_bucket_t) (n : nat) : monitor_t :=
  mk_monitor (g_events m) (g_event_head m) (g_event_count m) (g_notify_user m) (g_agent_aware m)
    (g_initialized m) bs n (alerts m).

(** The index of the bucket seen longest ago, the first of several. *)
Definition oldest_bucket (bs : list connection_bucket_t) (n : nat) : nat :=
  for_ 1 n (λ j oldest,
    match bs !! j, bs !! oldest with
    | Some b, Some o => if bk_last_seen_sec b <? bk_last_seen_sec o then j else oldest
    | _, _ => oldest
    end) 0%nat.

Definition probe_details : cstr :=
  lit "Many connections in short time (possible port scan or probe)".

(** A known address: [b] is its bucket, at index [i]. *)
Definition touch_bucket (now : Z) (m : monitor_t) (i : nat) (b : connection_bucket_t) (ip : cstr)
    : monitor_t :=
  let cutoff := u64 (now - CONNECTION_WINDOW_SEC) in
  let c := if bk_last_seen_sec b <? cutoff then 0 else bk_count b in
  let c := c + 1 in
  let m := set_buckets m (<[i := mk_bucket (bk_ip b) now c]> (g_conn_buckets m)) (g_conn_bucket_count m) in
  if CONNECTION_PROBE_THRESHOLD <=? c then
    let m := runtime_monitor_event now m RUNTIME_EVENT_PORT_PROBE (Some (lit "gateway")) (Some ip)
               (Some probe_details) in
    set_buckets m (<[i := mk_bucket (bk_ip b) now 0]> (g_conn_buckets m)) (g_conn_bucket_count m)
  else m.

Definition runtime_monitor_connection (now : Z) (m : monitor_t) (ip : option cstr) : monitor_t :=
  match ip with
  | None | Some [] => m
  | Some ip =>
      if negb (g_initialized m) then m
      else
        match find_idx (λ b, streq (bk_ip b) ip) (take (g_conn_bucket_count m) (g_conn_buckets m)) with
        | Some i =>
            match g_conn_buckets m !! i with
            | Some b => touch_bucket now m i b ip
            | None => m
            end
        | None =>
            let b := mk_bucket (snprintf_s RUNTIME_MONITOR_IP_MAX ip) now 1 in
            if (g_conn_bucket_count m <? CONNECTION_IPS_MAX)%nat
            then set_buckets m (<[g_conn_bucket_count m := b]> (g_conn_buckets m))
                   (S (g_conn_bucket_count m))
            else set_buckets m
                   (<[oldest_bucket (g_conn_buckets m) (g_conn_bucket_count m) := b]> (g_conn_buckets m))
                   (g_conn_bucket_count m)
        end
  end.

(** The [i]-th newest event. *)
Definition recent (m : monitor_t) (i : nat) : runtime_monitor_event_t :=
  nth ((g_event_head m + g_event_count m - 1 - i + RUNTIME_MONITOR_EVENT_MAX)
         mod RUNTIME_MONITOR_EVENT_MAX)%nat (g_events m) event_zero.

Definition runtime_monitor_get_recent_events (m : monitor_t) (max_count : nat)
    : list runtime_monitor_event_t :=
  map (recent m) (seq 0 (if (g_event_count m <? max_count)%nat then g_event_count m else max_count)).

(** A buffer being filled by [offset += snprintf(buf + offset, size - offset, ...)]:
    the bytes written, and the offset, which counts what would have been
    written. *)
Record outbuf := mk_out { out_text : cstr; out_offset : nat }.

Definition append (size : nat) (o : outbuf) (s : cstr) : outbuf :=
  mk_out (out_text o ++ take (size - out_offset o - 1) s) (out_offset o + length s).

Definition event_line (fmt_hm : Z → cstr) (e : runtime_monitor_event_t) : cstr :=
  lit "[" ++ fmt_hm (ev_timestamp_sec e) ++ lit "] " ++ event_type_str (ev_type e) ++ lit " from "
  ++ (match ev_ip e with [] => lit "?" | ip => ip end) ++ lit "; ".

Fixpoint write_lines (fmt_hm : Z → cstr) (size : nat) (es : list runtime_monitor_event_t)
    (o : outbuf) : outbuf :=
  match es with
  | [] => o
  | e :: es' =>
      if (out_offset o <? size - 80)%nat
      then write_lines fmt_hm size es' (append size o (event_line fmt_hm e))
      else o
  end.

(** [fmt_hm] is [strftime] with ["%H:%M"] of the local time.  [None] is the
    store [buf[offset] = 0] outside of the buffer. *)
Definition runtime_monitor_get_recent_for_agent (fmt_hm : Z → cstr) (m : monitor_t) (size : nat)
    : option (Z * cstr) :=
  if (size <? 128)%nat || negb (g_agent_aware m) || negb (g_initialized m) then Some (-1, [])
  else if (g_event_count m =? 0)%nat then Some (-1, [])
  else
    let n := if (10 <? g_event_count m)%nat then 10%nat else g_event_count m in
    let o := append size (mk_out [] 0) (lit "System runtime alerts (recent): ") in
    let o := write_lines fmt_hm size (map (recent m) (seq 0 n)) o in
    if (out_offset o <? size)%nat then Some (0, out_text o) else None.

#[local] Arguments Nat.modulo : simpl never.

(** ** The event log *)

Definition events (m : monitor_t) : list runtime_monitor_event_t :=
  ring (g_events m) (g_event_head m) (g_event_count m).

Record monitor_inv (m : monitor_t) : Prop := {
  inv_events : length (g_events m) = RUNTIME_MONITOR_EVENT_MAX;
  inv_head : (g_event_head m < RUNTIME_MONITOR_EVENT_MAX)%nat;
  inv_ecount : (g_event_count m ≤ RUNTIME_MONITOR_EVENT_MAX)%nat;
  inv_buckets : length (g_conn_buckets m) = CONNECTION_IPS_MAX;
  inv_bcount : (g_conn_bucket_count m ≤ CONNECTION_IPS_MAX)%nat;
}.

Definition monitor_init : monitor_t := (runtime_monitor_init monitor_zero).1.

Lemma monitor_init_inv : monitor_inv monitor_init.
Proof. split; vm_compute; (done || lia). Qed.

Definition event_of (now : Z) (type : runtime_event_type_t) (source ip details : option cstr) :=
  mk_event type (snprintf_s 64 (or_empty source)) (snprintf_s RUNTIME_MONITOR_IP_MAX (or_empty ip))
    (snprintf_s RUNTIME_MONITOR_DETAIL_MAX (or_empty details)) now.

Lemma push_event_events now m type source ip details :
  monitor_inv m →
  monitor_inv (push_event now m type source ip details) ∧
  events (push_event now m type source ip details) =
  last_n RUNTIME_MONITOR_EVENT_MAX (events m ++ [event_of now type source ip details]).
Proof.
  intros [He Hh Hc Hb Hbc]. unfold push_event. fold (event_of now type source ip details).
  set (e := event_of now type source ip details).
  assert (length (events m) = g_event_count m) as Hlen
    by (unfold events; apply ring_length; unfold RUNTIME_MONITOR_EVENT_MAX in *; lia).
  destruct (RUNTIME_MONITOR_EVENT_MAX <=? g_event_count m)%nat eqn:E; bsplit.
  - assert (g_event_count m = RUNTIME_MONITOR_EVENT_MAX) as Hfull by lia.
    split; [split; simpl; rewrite ?length_insert; try done; [|lia]|].
    + apply Nat.mod_upper_bound. unfold RUNTIME_MONITOR_EVENT_MAX. lia.
    + unfold events at 1. simpl. rewrite Hfull, ring_full_slot by lia.
      replace (S (RUNTIME_MONITOR_EVENT_MAX - 1)) with (length (g_events m))
        by (rewrite He; unfold RUNTIME_MONITOR_EVENT_MAX; lia).
      rewrite <- He. rewrite ring_overwrite by lia. unfold last_n, events.
      rewrite length_app, ring_length by lia. rewrite Hfull, <- He.
      replace (length (g_events m) + length [e] - length (g_events m))%nat with 1%nat by (simpl; lia).
      rewrite drop_app_le; [done|]. rewrite ring_length; lia.
  - split; [split; simpl; rewrite ?length_insert; done || lia|].
    unfold events at 1. simpl. rewrite <- He. rewrite ring_push by lia.
    unfold last_n. rewrite length_app, Hlen. cbn [length].
    replace (g_event_count m + 1 - length (g_events m))%nat with 0%nat by lia. done.
Qed.

Lemma nth_ring m i :
  monitor_inv m → (i < g_event_count m)%nat →
  reverse (events m) !! i = Some (recent m i).
Proof.
  intros [He Hh Hc _ _] Hi.
  assert (0 < length (g_events m))%nat as Hpos by lia.
  rewrite reverse_lookup by (unfold events; rewrite ring_length; lia).
  unfold events. rewrite ring_length by lia. rewrite ring_lookup by lia.
  unfold recent. rewrite He.
  replace (g_event_head m + g_event_count m - 1 - i + RUNTIME_MONITOR_EVENT_MAX)%nat
    with (g_event_head m + (g_event_count m - S i) + 1 * RUNTIME_MONITOR_EVENT_MAX)%nat by lia.
  rewrite Nat.Div0.mod_add.
  rewrite <- He. set (k := ((_ + _) mod _)%nat).
  assert (k < length (g_events m))%nat as Hk by (apply Nat.mod_upper_bound; lia).
  destruct (lookup_lt_is_Some_2 _ _ Hk) as [x Hx]. rewrite Hx. f_equal.
  symmetry. by apply nth_lookup_Some.
Qed.

(** C32: The event log keeps exactly the last 32 events, oldest first: from
    any state with the indices inside the buffer, which [runtime_monitor_init]
    gives and every event keeps, any number of [push_event] calls leaves the
    last 32 of the events before and the new ones, in order. *)
Theorem event_log_keeps_last m evs :
  monitor_inv m →
  let m' := foldl (λ m '(now, ty, src, ip, det), push_event now m ty src ip det) m evs in
  events m' =
  last_n RUNTIME_MONITOR_EVENT_MAX
    (events m ++ map (λ '(now, ty, src, ip, det), event_of now ty src ip det) evs).
Proof.
  revert m. induction evs as [|[[[[now ty] src] ip] det] evs IH]; intros m Hinv; simpl.
  - rewrite app_nil_r, last_n_id; [done|].
    destruct Hinv as [He Hh Hc _ _]. unfold events. rewrite ring_length; lia.
  - destruct (push_event_events now m ty src ip det Hinv) as [Hi' He'].
    rewrite IH by done. by rewrite He', last_n_app, <- app_assoc.
Qed.

Lemma event_log_keeps_last_witness :
  events (foldl (λ m '(now, ty, src, ip, det), push_event now m ty src ip det) monitor_init
    (map (λ t, (t, RUNTIME_EVENT_ERROR, None, None, None)) (seqZ 0 40))) =
  map (λ t, event_of t RUNTIME_EVENT_ERROR None None None) (seqZ 8 32).
Proof.
  refine (eq_trans (event_log_keeps_last monitor_init
    (map (λ t, (t, RUNTIME_EVENT_ERROR, None, None, None)) (seqZ 0 40)) monitor_init_inv) _).
  by_eval.
Defined.

(** The recent events handed to a caller are the newest ones, newest
    first, at most as many as it asks for. *)
Theorem get_recent_events_spec m max :
  monitor_inv m →
  runtime_monitor_get_recent_events m max = take max (reverse (events m)).
Proof.
  intros Hinv. pose proof Hinv as [He Hh Hc _ _]. unfold runtime_monitor_get_recent_events.
  assert (length (reverse (events m)) = g_event_count m) as Hl.
  { rewrite length_reverse. unfold events. apply ring_length. lia. }
  set (n := if (g_event_count m <? max)%nat then _ else _).
  assert (n = Nat.min max (g_event_count m)) as -> by (subst n; case_if; lia).
  apply list_eq. intros i. destruct (decide (i < Nat.min max (g_event_count m))%nat).
  - rewrite lookup_take_lt, nth_ring by (done || lia).
    rewrite list_lookup_fmap, lookup_seq_lt by lia. done.
  - rewrite !lookup_ge_None_2; [done | rewrite length_take; lia |].
    rewrite length_map, length_seq. lia.
Qed.

Definition monitor_ex : monitor_t :=
  foldl (λ (m : monitor_t) (t : Z), push_event t m RUNTIME_EVENT_ERROR None (Some (lit "10.0.0.1")) None)
    monitor_init (seqZ 0 40).

Lemma monitor_ex_inv : monitor_inv monitor_ex.
Proof. split; vm_compute; (done || lia). Qed.

Lemma get_recent_events_spec_witness :
  map ev_timestamp_sec (runtime_monitor_get_recent_events monitor_ex 3) = [39; 38; 37].
Proof.
  refine (eq_trans (f_equal (map ev_timestamp_sec)
            (get_recent_events_spec monitor_ex 3 monitor_ex_inv)) _). by_eval.
Defined.

(** ** The summary for the agent *)

Lemma event_type_str_length t : (length (event_type_str t) ≤ 17)%nat.
Proof. destruct t; vm_compute; lia. Qed.

Lemma event_line_length fmt_hm e :
  (length (fmt_hm (ev_timestamp_sec e)) ≤ 5)%nat → (length (ev_ip e) ≤ 45)%nat →
  (length (event_line fmt_hm e) ≤ 78)%nat.
Proof.
  intros Ht Hip. pose proof (event_type_str_length (ev_type e)). unfold event_line.
  rewrite !length_app.
  assert (length (match ev_ip e with [] => lit "?" | ip => ip end) ≤ 45)%nat
    by (destruct (ev_ip e); [vm_compute; lia | done]).
  change (length (lit "[")) with 1%nat. change (length (lit "] ")) with 2%nat.
  change (length (lit " from ")) with 6%nat. change (length (lit "; ")) with 2%nat. lia.
Qed.

(** While every piece leaves room for the terminator, the offset is the
    length of the text. *)
Lemma append_fits size o s :
  out_offset o = length (out_text o) → (out_offset o + length s < size)%nat →
  append size o s = mk_out (out_text o ++ s) (length (out_text o ++ s)).
Proof. intros Ho Hs. unfold append. rewrite take_ge, length_app by lia. f_equal. lia. Qed.

Lemma write_lines_bound fmt_hm size es o :
  Forall (λ e, (length (fmt_hm (ev_timestamp_sec e)) ≤ 5 ∧ length (ev_ip e) ≤ 45)%nat) es →
  out_offset o = length (out_text o) → (out_offset o < size)%nat →
  let o' := write_lines fmt_hm size es o in
  out_offset o' = length (out_text o') ∧ (out_offset o' < size)%nat ∧
  (out_offset o' ≤ out_offset o + 78 * length es)%nat.
Proof.
  intros Hes. revert o. induction Hes as [|e es [Ht Hip] _ IH]; intros o Ho Hlt; cbn [write_lines length]; [split_and!; [done|done|lia]|].
  destruct (out_offset o <? size - 80)%nat eqn:E; bsplit; [|split_and!; [done|done|lia]].
  pose proof (event_line_length fmt_hm e Ht Hip).
  rewrite append_fits by lia. pose proof (length_app (out_text o) (event_line fmt_hm e)) as Hl.
  edestruct IH as (H1 & H2 & H3); [| |split_and!; [exact H1|exact H2|]]; cbn [out_offset out_text] in *; [done|lia|lia].
Qed.

Lemma summary_in_bounds fmt_hm m size :
  Forall (λ e, (length (ev_ip e) ≤ 45)%nat) (g_events m) →
  (∀ t, (length (fmt_hm t) ≤ 5)%nat) →
  ∃ r text, runtime_monitor_get_recent_for_agent fmt_hm m size = Some (r, text) ∧
    ((r = 0 ∧ (length text < size)%nat ∧ (length text ≤ 832)%nat) ∨ (r = -1 ∧ text = [])).
Proof.
  intros Hip Hfmt. unfold runtime_monitor_get_recent_for_agent.
  case_if; [eauto 10|]. case_if; [eauto 10|].
  set (n := if (10 <? _)%nat then _ else _). set (o := append _ _ _).
  assert (out_offset o = length (out_text o) ∧ (out_offset o < size)%nat) as [Ho Hlt].
  { subst o. rewrite append_fits; simpl; lia. }
  destruct (write_lines_bound fmt_hm size (map (recent m) (seq 0 n)) o) as (Ho' & Hlt' & Hle'); [|done|done|].
  - apply Forall_forall. intros e (i & <- & _)%list_elem_of_In%in_map_iff. split; [apply Hfmt|].
    unfold recent. destruct (nth_in_or_default ((g_event_head m + g_event_count m - 1 - i +
      RUNTIME_MONITOR_EVENT_MAX) mod RUNTIME_MONITOR_EVENT_MAX)%nat (g_events m) event_zero)
      as [Hin| ->]; [|simpl; lia].
    rewrite Forall_forall in Hip. apply Hip, list_elem_of_In, Hin.
  - rewrite (proj2 (Nat.ltb_lt _ _) Hlt'). eexists _, _. split; [done|]. left.
    rewrite length_map, length_seq in Hle'.
    assert (n ≤ 10)%nat by (subst n; destruct (10 <? g_event_count m)%nat eqn:E; bsplit; lia).
    assert (out_offset o = 32)%nat by (subst o; rewrite append_fits; simpl; lia). split_and!; [done|lia|lia].
Qed.

(** The summary of recent events for the agent stays inside its buffer,
    whatever its size, when the addresses in the log are no longer than an
    IPv6 address (45 characters): the final NUL is stored at the length of
    the text, below the size. *)
Theorem agent_summary_in_bounds fmt_hm m size :
  Forall (λ e, (length (ev_ip e) ≤ 45)%nat) (g_events m) →
  (∀ t, (length (fmt_hm t) ≤ 5)%nat) →
  ∃ r text, runtime_monitor_get_recent_for_agent fmt_hm m size = Some (r, text) ∧
    ((r = 0 ∧ (length text < size)%nat) ∨ (r = -1 ∧ text = [])).
Proof.
  intros Hip Hfmt. destruct (summary_in_bounds fmt_hm m size Hip Hfmt) as (r & text & H & Hb).
  exists r, text. split; [done|]. destruct Hb as [(? & ? & _)|?]; [left|right]; done.
Qed.

Lemma agent_summary_in_bounds_witness :
  ∃ r text, runtime_monitor_get_recent_for_agent (λ _, lit "18:45") monitor_ex 160 = Some (r, text) ∧
    ((r = 0 ∧ (length text < 160)%nat) ∨ (r = -1 ∧ text = [])).
Proof.
  apply agent_summary_in_bounds; [|intros; vm_compute; lia].
  apply (bool_decide_unpack _). vm_compute. exact I.
Defined.

(** ** Port probes *)

Definition buckets (m : monitor_t) : list connection_bucket_t :=
  take (g_conn_bucket_count m) (g_conn_buckets m).

(** The connections of one address at the given times. *)
Definition connect_all (m : monitor_t) (ip : cstr) (times : list Z) : monitor_t :=
  foldl (λ m t, runtime_monitor_connection t m (Some ip)) m times.

(** Each connection follows the one before it within a minute. *)
Fixpoint within_window (last : Z) (times : list Z) : Prop :=
  match times with
  | [] => True
  | t :: ts => last <= t <= last + CONNECTION_WINDOW_SEC ∧ within_window t ts
  end.

(** What the monitor knows of one address: where its bucket is, and that the
    monitor is on and alerts the user. *)
Record tracked (m : monitor_t) (i : nat) (ip : cstr) (last c : Z) : Prop := {
  tr_inv : monitor_inv m;
  tr_on : g_initialized m = true;
  tr_notify : g_notify_user m = true;
  tr_find : find_idx (λ b, streq (bk_ip b) ip) (buckets m) = Some i;
  tr_bucket : g_conn_buckets m !! i = Some (mk_bucket ip last c);
}.

Lemma push_event_buckets now m ty s i d :
  g_conn_buckets (push_event now m ty s i d) = g_conn_buckets m ∧
  g_conn_bucket_count (push_event now m ty s i d) = g_conn_bucket_count m ∧
  g_initialized (push_event now m ty s i d) = g_initialized m ∧
  g_notify_user (push_event now m ty s i d) = g_notify_user m ∧
  alerts (push_event now m ty s i d) = alerts m.
Proof. unfold push_event. by case_if. Qed.

(** Rewriting the bucket of an address keeps the search for it. *)
Lemma find_rewritten ip last c i (bs : list connection_bucket_t) n now c' :
  find_idx (λ b, streq (bk_ip b) ip) (take n bs) = Some i →
  bs !! i = Some (mk_bucket ip last c) →
  find_idx (λ b, streq (bk_ip b) ip) (take n (<[i := mk_bucket ip now c']> bs)) = Some i.
Proof.
  intros Hf Hb. pose proof (find_idx_lt _ _ _ Hf) as Hlt. rewrite length_take in Hlt.
  rewrite take_insert_lt by lia.
  apply find_idx_Some in Hf as [_ Hj]. apply find_idx_Some. split.
  - exists (mk_bucket ip now c'). split; [|apply streq_refl].
    apply list_lookup_insert_eq. rewrite length_take. lia.
  - intros j y Hji. rewrite list_lookup_insert_ne by lia. by apply Hj.
Qed.

Lemma bucket_update m i ip last c now c' m' :
  tracked m i ip last c → monitor_inv m' →
  g_conn_buckets m' = <[i := mk_bucket ip now c']> (g_conn_buckets m) →
  g_conn_bucket_count m' = g_conn_bucket_count m →
  g_initialized m' = true → g_notify_user m' = true →
  tracked m' i ip now c'.
Proof.
  intros [Hinv Hon Hnot Hf Hb] Hinv' Hbs Hn Hon' Hnot'. split; [done..| |].
  - unfold buckets in *. rewrite Hbs, Hn. by eapply find_rewritten.
  - rewrite Hbs. apply list_lookup_insert_eq. by eapply lookup_lt_Some.
Qed.

Lemma set_buckets_inv m bs :
  monitor_inv m → length bs = CONNECTION_IPS_MAX → monitor_inv (set_buckets m bs (g_conn_bucket_count m)).
Proof. intros [] ?. by split. Qed.

Lemma event_inv now m ty s i d : monitor_inv m → monitor_inv (runtime_monitor_event now m ty s i d).
Proof.
  intros Hinv. unfold runtime_monitor_event. destruct (negb _); [done|].
  destruct (push_event_events now m ty s i d Hinv) as [Hi _].
  destruct (g_notify_user _); [|done]. destruct Hi. by split.
Qed.

(** One connection inside the window: below the threshold it is counted, at
    the threshold one alert is sent and the count starts again. *)
Lemma connection_tracked now m i ip last c :
  tracked m i ip last c → ip ≠ [] → 0 <= c < CONNECTION_PROBE_THRESHOLD →
  CONNECTION_WINDOW_SEC <= last → last <= now <= last + CONNECTION_WINDOW_SEC → now < 2 ^ 64 →
  let m' := runtime_monitor_connection now m (Some ip) in
  if c + 1 =? CONNECTION_PROBE_THRESHOLD
  then tracked m' i ip now 0 ∧
       alerts m' = alerts m ++ [alert_text RUNTIME_EVENT_PORT_PROBE (Some ip) (Some probe_details)]
  else tracked m' i ip now (c + 1) ∧ alerts m' = alerts m.
Proof.
  intros Htr Hne Hc H0 Hw H64. pose proof Htr as [Hinv Hon Hnot Hf Hb].
  unfold runtime_monitor_connection. destruct ip as [|x ip']; [done|]. set (ip := x :: ip') in *.
  rewrite Hon. cbn [negb]. fold (buckets m). rewrite Hf, Hb. unfold touch_bucket.
  cbn [bk_last_seen_sec bk_count bk_ip].
  rewrite wrap_small by (unfold CONNECTION_WINDOW_SEC in *; lia).
  rewrite (proj2 (Z.ltb_ge _ _)) by (unfold CONNECTION_WINDOW_SEC in *; lia).
  assert (length (g_conn_buckets m) = CONNECTION_IPS_MAX) as Hlen by apply Hinv.
  assert (∀ b, monitor_inv (set_buckets m (<[i := b]> (g_conn_buckets m)) (g_conn_bucket_count m)))
    as Hset by (intros; apply set_buckets_inv; by rewrite ?length_insert).
  destruct (c + 1 =? CONNECTION_PROBE_THRESHOLD) eqn:E; bsplit.
  - rewrite (proj2 (Z.leb_le _ _)) by lia.
    unfold runtime_monitor_event at 1 2 3 4. cbn [set_buckets g_initialized]. rewrite Hon. cbn [negb].
    set (m1 := set_buckets m _ _).
    pose proof (event_inv now m1 RUNTIME_EVENT_PORT_PROBE (Some (lit "gateway")) (Some ip)
                  (Some probe_details) (Hset _)) as Hinv1.
    unfold runtime_monitor_event in *.
    replace (g_initialized m1) with true in * by (symmetry; exact Hon). cbn [negb] in *.
    destruct (push_event_buckets now m1 RUNTIME_EVENT_PORT_PROBE (Some (lit "gateway")) (Some ip)
                (Some probe_details)) as (Hb1 & Hn1 & Hi1 & Hu1 & Ha1).
    set (m2 := push_event now m1 _ _ _ _) in *.
    assert (g_notify_user m2 = true) as Hu by (rewrite Hu1; exact Hnot). rewrite Hu in *.
    split.
    + eapply bucket_update; [exact Htr | | | | |].
      * apply set_buckets_inv; [done|]. cbn [send_alert g_conn_buckets]. rewrite Hb1. subst m1. cbn.
        by rewrite !length_insert.
      * cbn. rewrite Hb1. subst m1. cbn. by rewrite list_insert_insert_eq.
      * cbn. by rewrite Hn1.
      * cbn. by rewrite Hi1.
      * done.
    + cbn. by rewrite Ha1.
  - rewrite (proj2 (Z.leb_gt _ _)) by lia. split; [|done].
    eapply bucket_update; [exact Htr | apply Hset | done..].
Qed.

(** A known address that keeps connecting, each time within a minute of
    the time before, raises exactly one port-probe alert for every 25
    connections, counted on from the [c] connections already in its bucket. *)
Theorem probe_alerts_every_25 times m i ip last c :
  tracked m i ip last c → ip ≠ [] → 0 <= c < CONNECTION_PROBE_THRESHOLD →
  CONNECTION_WINDOW_SEC <= last → within_window last times → Forall (λ t, t < 2 ^ 64) times →
  alerts (connect_all m ip times) =
  alerts m ++ replicate (Z.to_nat ((c + Z.of_nat (length times)) / CONNECTION_PROBE_THRESHOLD))
                (alert_text RUNTIME_EVENT_PORT_PROBE (Some ip) (Some probe_details)).
Proof.
  revert m last c. induction times as [|t times IH]; intros m last c Htr Hne Hc Hlast Hw H64.
  - simpl. rewrite Z.add_0_r, Z.div_small by done. by rewrite app_nil_r.
  - destruct Hw as [Ht Hw]. apply Forall_cons in H64 as [Ht64 H64].
    pose proof (connection_tracked t m i ip last c Htr Hne Hc Hlast Ht Ht64) as Hstep.
    unfold connect_all. cbn [foldl]. fold (connect_all (runtime_monitor_connection t m (Some ip)) ip times).
    rewrite length_cons, Nat2Z.inj_succ. unfold CONNECTION_PROBE_THRESHOLD in *.
    destruct (c + 1 =? 25) eqn:E; bsplit; destruct Hstep as [Htr' Ha].
    + rewrite (IH _ t 0) by (done || lia). rewrite Ha, <- app_assoc. f_equal.
      replace (c + Z.succ (Z.of_nat (length times)))
        with (0 + Z.of_nat (length times) + 1 * 25) by lia.
      rewrite Z.div_add by lia. rewrite Z.add_1_r, Z2Nat.inj_succ by (apply Z.div_pos; lia). done.
    + rewrite (IH _ t (c + 1)) by (done || lia). rewrite Ha. do 4 f_equal. lia.
Qed.

(** A monitor that has seen one connection of an address at time 1000. *)
Definition probed_ex : monitor_t := runtime_monitor_connection 1000 monitor_init (Some (lit "10.0.0.1")).

Lemma probe_alerts_every_25_witness :
  length (alerts (connect_all probed_ex (lit "10.0.0.1") (seqZ 1001 60))) = 2%nat.
Proof.
  refine (eq_trans (f_equal length (probe_alerts_every_25 (seqZ 1001 60) probed_ex 0 (lit "10.0.0.1")
    1000 1 _ _ _ _ _ _)) _); [| by vm_compute | by vm_compute | by vm_compute | | | by_eval].
  - split; [split; vm_compute; (done || lia) | by_eval..].
  - vm_compute. repeat split; intros [=].
  - repeat constructor; by vm_compute.
Defined.
