(* ===== verification/Ids.v ===== *)
(** * The intrusion detection of [src/ids/ids.c]

    The static configuration, the baseline and the flag are the record
    [ids_t].  A request body is the list of its bytes, which may contain NUL;
    the length passed along with it says how many of them count. *)
From S2P Require Import Prelude.

Definition IDS_SIGNATURE_MAX : nat := 64.
Definition IDS_PATTERN_MAX : nat := 128.

Inductive ids_result_t := IDS_OK | IDS_ALERT_SIGNATURE | IDS_ALERT_ANOMALY.

#[export] Instance ids_result_eq_dec : EqDecision ids_result_t.
Proof. solve_decision. Defined.

Record ids_signature_t := mk_sig {
  sig_name : cstr;
  sig_pattern : cstr;
  sig_case_insensitive : bool;
}.

Record ids_config_t := mk_config {
  signatures : list ids_signature_t;
  signature_count : nat;
  max_body_bytes : Z;
  anomaly_body_size_enabled : bool;
  body_size_baseline : Z;
}.

Record ids_t := mk_ids {
  g_config : ids_config_t;
  g_initialized : bool;
  g_body_baseline : Z;
}.

Definition sig_zero : ids_signature_t := mk_sig [] [] false.

Definition g_builtin : list (cstr * cstr) :=
  [ (lit "sql_comment", lit "--");
    (lit "sql_union", lit "union ");
    (lit "sql_select", lit "select ");
    (lit "sql_drop", lit "drop table");
    (lit "sql_sleep", lit "sleep(");
    (lit "shell_cmd", lit "; /bin/");
    (lit "shell_sh", lit "| sh ");
    (lit "shell_bash", lit "$(bash");
    (lit "xss_script", lit "<script");
    (lit "xss_onerror", lit "onerror=");
    (lit "path_etc", lit "/etc/passwd");
    (lit "path_win", lit "..\");
    (lit "ldap_inject", lit "*)(uid=");
    (lit "null_byte", lit "%00");
    (lit "crlf", [13; 10]) ].

(** The inner loop: the pattern agrees with the bytes that start here. *)
Fixpoint match_here (ci : bool) (pattern h : list Z) : bool :=
  match pattern, h with
  | [], _ => true
  | _, [] => false
  | p :: pattern', a :: h' =>
      ((if ci then tolower a else a) =? (if ci then tolower p else p)) && match_here ci pattern' h'
  end.

(** The outer loop, over the start positions [0 .. len - plen]. *)
Definition match_pattern (haystack : option (list Z)) (len : nat) (pattern : cstr)
    (case_insensitive : bool) : bool :=
  match haystack with
  | None => false
  | Some h =>
      let plen := length pattern in
      if (plen =? 0)%nat || (len <? plen)%nat then false
      else existsb (λ i, match_here case_insensitive pattern (drop i h)) (seq 0 (len - plen + 1))
  end.

Definition ids_config_defaults : ids_config_t :=
  mk_config (replicate IDS_SIGNATURE_MAX sig_zero) 0 0 true 8192.

(** The loop that installs the built-in signatures. *)
Fixpoint install_builtin (b : list (cstr * cstr)) (sigs : list ids_signature_t) (n : nat)
    : list ids_signature_t * nat :=
  match b with
  | [] => (sigs, n)
  | (name, pat) :: b' =>
      if (n <? IDS_SIGNATURE_MAX)%nat
      then install_builtin b'
             (<[n := mk_sig (snprintf_s 64 name) (snprintf_s IDS_PATTERN_MAX pat) true]> sigs) (S n)
      else (sigs, n)
  end.

Definition ids_init (s : ids_t) (cfg : option ids_config_t) : ids_t * Z :=
  if g_initialized s then (s, 0)
  else
    let c := default ids_config_defaults cfg in
    let '(sigs, n) := install_builtin g_builtin (signatures c) 0 in
    (mk_ids (mk_config sigs n (max_body_bytes c) (anomaly_body_size_enabled c) (body_size_baseline c))
       true (body_size_baseline c), 0).

Definition ids_shutdown (s : ids_t) : ids_t := mk_ids (g_config s) false (g_body_baseline s).

Definition live_sigs (s : ids_t) : list ids_signature_t :=
  take (signature_count (g_config s)) (signatures (g_config s)).

(** The first signature that matches, in the order of the table. *)
Definition scan (s : ids_t) (h : option (list Z)) (len : nat) : option ids_signature_t :=
  List.find (λ g, match_pattern h len (sig_pattern g) (sig_case_insensitive g)) (live_sigs s).

Definition threshold (s : ids_t) : Z :=
  if 0 <? g_body_baseline s then u32 (g_body_baseline s * 4) else 65536.

(** The result and the text left in [reason_str], a buffer of [reason_size]
    bytes. *)
Definition ids_check (s : ids_t) (path body : option (list Z)) (body_len : nat) (reason_size : nat)
    : ids_result_t * cstr :=
  if negb (g_initialized s) then (IDS_OK, [])
  else
    match scan s path (length (default [] path)) with
    | Some g =>
        (IDS_ALERT_SIGNATURE,
         snprintf_s reason_size (lit "signature:" ++ sig_name g ++ lit " in path"))
    | None =>
        let scan_len := if (Z.to_nat 8192 <? body_len)%nat then Z.to_nat 8192 else body_len in
        match (if (0 <? body_len)%nat then scan s body scan_len else None) with
        | Some g =>
            (IDS_ALERT_SIGNATURE,
             snprintf_s reason_size (lit "signature:" ++ sig_name g ++ lit " in body"))
        | None =>
            let blen := Z.of_nat body_len in
            if anomaly_body_size_enabled (g_config s) && (0 <? blen) && (threshold s <? blen) then
              (IDS_ALERT_ANOMALY,
               snprintf_s reason_size
                 (lit "anomaly:body_size " ++ fmt_dec blen ++ lit " > " ++ fmt_dec (threshold s)))
            else if (0 <? max_body_bytes (g_config s)) && (max_body_bytes (g_config s) <? blen) then
              (IDS_ALERT_ANOMALY,
               snprintf_s reason_size
                 (lit "body_size " ++ fmt_dec blen ++ lit " exceeds max "
                  ++ fmt_dec (max_body_bytes (g_config s))))
            else (IDS_OK, [])
        end
    end.

Definition ids_add_signature (s : ids_t) (name pattern : option cstr) (ci : bool) : ids_t * Z :=
  match name, pattern with
  | Some name, Some pattern =>
      let c := g_config s in
      if negb (g_initialized s) then (s, -1)
      else if (IDS_SIGNATURE_MAX <=? signature_count c)%nat then (s, -1)
      else
        (mk_ids
           (mk_config
              (<[signature_count c := mk_sig (snprintf_s 64 name) (snprintf_s IDS_PATTERN_MAX pattern) ci]>
                 (signatures c))
              (S (signature_count c)) (max_body_bytes c) (anomaly_body_size_enabled c)
              (body_size_baseline c))
           (g_initialized s) (g_body_baseline s), 0)
  | _, _ => (s, -1)
  end.

Definition ids_update_body_baseline (s : ids_t) (body_len : Z) : ids_t :=
  if body_len =? 0 then s
  else mk_ids (g_config s) (g_initialized s) (u32 (g_body_baseline s + u32 body_len) / 2).

(** ** Matching *)

Definition fold (ci : bool) (c : Z) : Z := if ci then tolower c else c.

(** The pattern occurs in the text, up to letter case when asked. *)
Definition occurs (ci : bool) (pattern text : list Z) : Prop :=
  ∃ a m b, text = a ++ m ++ b ∧ map (fold ci) m = map (fold ci) pattern.

Lemma match_here_spec ci pattern h :
  match_here ci pattern h = true ↔ ∃ m b, h = m ++ b ∧ map (fold ci) m = map (fold ci) pattern.
Proof.
  revert h. induction pattern as [|p pattern IH]; intros h; simpl.
  - split; [by exists [], h | done].
  - destruct h as [|a h].
    + split; [done|]. intros (m & b & Hm & Hf). by destruct m.
    + rewrite andb_true_iff, Z.eqb_eq, IH. split.
      * intros [Ha (m & b & -> & Hf)]. exists (a :: m), b. split; [done|]. simpl. by f_equal.
      * intros ([|x m] & b & Hm & Hf); [done|]. injection Hm as -> ->. injection Hf as Hx Hf. eauto.
Qed.

Lemma fold_length ci (m pattern : list Z) :
  map (fold ci) m = map (fold ci) pattern → length m = length pattern.
Proof. intros H. by rewrite <- (length_map (fold ci) m), H, length_map. Qed.

Lemma match_pattern_iff h len pattern ci :
  (len ≤ length h)%nat →
  match_pattern (Some h) len pattern ci = true ↔ pattern ≠ [] ∧ occurs ci pattern (take len h).
Proof.
  intros Hlen. unfold match_pattern.
  destruct ((length pattern =? 0)%nat || (len <? length pattern)%nat) eqn:E.
  - split; [done|]. intros [Hne (a & m & b & Ht & Hf)]. apply fold_length in Hf.
    apply (f_equal length) in Ht. rewrite !length_app, length_take in Ht.
    apply orb_true_iff in E as [E|E]; bsplit; [|lia]. apply Nat.eqb_eq in E. by destruct pattern.
  - apply orb_false_iff in E as [E1 E2]. apply Nat.eqb_neq in E1. bsplit.
    rewrite existsb_exists. split.
    + intros (i & Hi%in_seq & Hm). split; [by destruct pattern|].
      apply match_here_spec in Hm as (m & b & Hd & Hf). pose proof (fold_length _ _ _ Hf).
      exists (take i h), m, (drop (i + length m) (take len h)). split; [|done].
      rewrite <- (take_drop (i + length m) (take len h)) at 1.
      rewrite app_assoc. f_equal. rewrite take_take, Nat.min_l by lia.
      rewrite <- take_take_drop, Hd. f_equal. by rewrite take_app_length.
    + intros [Hne (a & m & b & Ht & Hf)]. exists (length a).
      pose proof (fold_length _ _ _ Hf) as Hfl. apply (f_equal length) in Ht as Hl.
      rewrite !length_app, length_take in Hl. split; [apply in_seq; lia|].
      apply match_here_spec. exists m, (b ++ drop len h). split; [|done].
      rewrite <- (take_drop len h) at 1. rewrite Ht, <- !app_assoc. by rewrite drop_app_length.
Qed.

(** C40: pattern matching is correct: it succeeds exactly when a non-empty
    pattern occurs in the first [len] bytes, up to letter case when asked;
    every start position is tried and no byte beyond [len] is looked at. *)
Theorem match_pattern_spec h len pattern ci :
  (len ≤ length h)%nat →
  match_pattern (Some h) len pattern ci = true ↔ pattern ≠ [] ∧ occurs ci pattern (take len h).
Proof. apply match_pattern_iff. Qed.

Lemma match_pattern_spec_witness :
  match_pattern (Some (lit "x; DROP Table users")) 19 (lit "drop table") true = true ↔
  lit "drop table" ≠ [] ∧ occurs true (lit "drop table") (take 19 (lit "x; DROP Table users")).
Proof. apply match_pattern_spec. vm_compute. lia. Defined.

Definition ids_zero : ids_t := mk_ids (mk_config (replicate 64 sig_zero) 0 0 false 0) false 4096.

(** The signatures a freshly initialised detector knows. *)
Lemma init_sigs cfg :
  length (signatures (default ids_config_defaults cfg)) = IDS_SIGNATURE_MAX →
  live_sigs (ids_init ids_zero cfg).1 = map (λ '(n, p), mk_sig n p true) g_builtin.
Proof.
  unfold ids_init, ids_zero. cbn [g_initialized].
  set (c := default ids_config_defaults cfg). intros Hl.
  assert (∀ sigs, length sigs = IDS_SIGNATURE_MAX →
    let '(s, n) := install_builtin g_builtin sigs 0 in
    take n s = map (λ '(n, p), mk_sig n p true) g_builtin) as H.
  { intros sigs Hs. unfold IDS_SIGNATURE_MAX in Hs.
    do 16 (destruct sigs as [|? sigs]; [done|]). by vm_compute. }
  specialize (H _ Hl). destruct (install_builtin g_builtin (signatures c) 0) as [s n]. exact H.
Qed.

Lemma scan_None s h len :
  scan s h len = None ↔
  Forall (λ g, match_pattern h len (sig_pattern g) (sig_case_insensitive g) = false) (live_sigs s).
Proof.
  unfold scan. induction (live_sigs s) as [|g gs IH]; simpl; [by split|].
  rewrite Forall_cons. destruct (match_pattern _ _ _ _); naive_solver.
Qed.

Lemma match_false h len pattern ci :
  (len ≤ length h)%nat → pattern ≠ [] →
  match_pattern (Some h) len pattern ci = false ↔ ¬ occurs ci pattern (take len h).
Proof.
  intros Hl Hne. rewrite <- not_true_iff_false, match_pattern_iff by done. naive_solver.
Qed.

Lemma builtin_patterns_nonempty : Forall (λ '(n, p), p ≠ []) g_builtin.
Proof. repeat constructor; done. Qed.

Lemma scan_builtin cfg h len :
  length (signatures (default ids_config_defaults cfg)) = IDS_SIGNATURE_MAX →
  (len ≤ length h)%nat →
  scan (ids_init ids_zero cfg).1 (Some h) len = None ↔
  Forall (λ '(_, p), ¬ occurs true p (take len h)) g_builtin.
Proof.
  intros Hl Hlen. rewrite scan_None, init_sigs by done. rewrite Forall_map.
  pose proof builtin_patterns_nonempty as Hne. split; intros H;
    (apply Forall_forall; intros [n p] Hin; rewrite Forall_forall in H, Hne;
     specialize (H _ Hin); specialize (Hne _ Hin); simpl in *; by apply match_false).
Qed.

(** A freshly initialised detector with the default configuration lets a
    request pass exactly when none of the fifteen built-in signatures occurs
    (in any letter case) in the path or in the first 8192 bytes of the body,
    and the body is no longer than four times the baseline of 8192 bytes. *)
Theorem ids_ok_iff path body reason_size :
  (ids_check (ids_init ids_zero None).1 (Some path) (Some body) (length body) reason_size).1 = IDS_OK ↔
  Forall (λ '(_, p), ¬ occurs true p path) g_builtin ∧
  Forall (λ '(_, p), ¬ occurs true p (take (Z.to_nat 8192) body)) g_builtin ∧
  Z.of_nat (length body) <= 32768.
Proof.
  set (s := (ids_init ids_zero None).1).
  assert (scan s (Some path) (length path) = None ↔
          Forall (λ '(_, p), ¬ occurs true p path) g_builtin) as Hpath.
  { subst s. rewrite scan_builtin by done. by rewrite take_ge by lia. }
  set (n := if (Z.to_nat 8192 <? length body)%nat then Z.to_nat 8192 else length body).
  assert ((n ≤ length body)%nat ∧ take n body = take (Z.to_nat 8192) body) as [Hn Htake].
  { subst n. destruct (Z.to_nat 8192 <? length body)%nat eqn:E; bsplit; split; try done; try lia.
    by rewrite !take_ge by lia. }
  assert ((if (0 <? length body)%nat then scan s (Some body) n else None) = None ↔
          Forall (λ '(_, p), ¬ occurs true p (take (Z.to_nat 8192) body)) g_builtin) as Hbody.
  { rewrite <- Htake. destruct (0 <? length body)%nat eqn:E; bsplit.
    - subst s. by rewrite scan_builtin.
    - split; [|done]. intros _. assert (body = []) as -> by (by apply length_zero_iff_nil; lia).
      rewrite take_nil. pose proof builtin_patterns_nonempty as Hne.
      eapply Forall_impl; [exact Hne|]. intros [nm p] Hp (a & m & b & Ht & Hf).
      destruct a, m; try done. by destruct p. }
  rewrite <- Hpath, <- Hbody. unfold ids_check. fold n.
  replace (g_initialized s) with true by (by vm_compute). cbn [negb].
  change (default [] (Some path)) with path.
  destruct (scan s (Some path) (length path)); [split; [done | by intros [? _]]|].
  destruct (if (0 <? length body)%nat then scan s (Some body) n else None);
    [split; [done | by intros (_ & ? & _)]|].
  replace (threshold s) with 32768 by (by vm_compute).
  replace (anomaly_body_size_enabled (g_config s)) with true by (by vm_compute).
  replace (max_body_bytes (g_config s)) with 0 by (by vm_compute).
  change (0 <? 0) with false. rewrite !andb_true_l, andb_false_l.
  case_if; simpl; [split; [done|]; intros (_ & _ & ?); lia|].
  split; [|done]. intros _. split_and!; [done..|].
  apply andb_false_iff in Heqb as [?|?]; bsplit; lia.
Qed.
