(* ===== verification/Health.v ===== *)
(** * The health monitor of [src/health/health.c] and the heartbeat of
      [src/heartbeat/heartbeat.c]

    A table of up to 32 component checks, and the process-wide list of up to
    16 registered checkers. *)
From S2P Require Import Prelude.

Inductive health_status_t := HEALTH_OK | HEALTH_DEGRADED | HEALTH_FAILED.

#[export] Instance health_status_eq_dec : EqDecision health_status_t.
Proof. solve_decision. Defined.

(** What the checkers look at: the environment and the state that
    [runtime_get_info] reports. *)
Record world := mk_world {
  getenv : cstr → option cstr;
  runtime_running : bool;
}.

Record health_check_t := mk_check {
  component : cstr;
  status : health_status_t;
  message : cstr;
  last_check : Z;
}.

Record health_monitor_t := mk_monitor {
  checks : list health_check_t;
  check_count : nat;
  auto_check : bool;
  check_interval_sec : Z;
}.

Definition MAX_CHECKS : nat := 32.
Definition MAX_CHECKERS : nat := 16.

Record registered_checker_t := mk_checker {
  checker_name : cstr;
  check_fn : world → health_status_t;
}.

Definition check_zero : health_check_t := mk_check [] HEALTH_OK [] 0.

Definition health_init : health_monitor_t := mk_monitor (replicate MAX_CHECKS check_zero) 0 false 60.

Definition nonempty (s : option cstr) : bool :=
  match s with Some (_ :: _) => true | _ => false end.

(** The first of the variables that is set to a non-empty value decides. *)
Definition health_check_provider (w : world) : health_status_t :=
  if existsb (λ v, nonempty (getenv w (lit v)))
       ["OPENROUTER_API_KEY"%string; "OPENAI_API_KEY"%string; "ANTHROPIC_API_KEY"%string; "GEMINI_API_KEY"%string;
        "OLLAMA_HOST"%string; "DOCTORCLAW_LLAMA_MODEL"%string]
  then HEALTH_OK else HEALTH_DEGRADED.
Definition health_check_memory (w : world) : health_status_t := HEALTH_OK.
Definition health_check_channels (w : world) : health_status_t := HEALTH_OK.
Definition health_check_runtime (w : world) : health_status_t :=
  if runtime_running w then HEALTH_OK else HEALTH_DEGRADED.

(** The static list of checkers is the part of [g_checkers] in use. *)
Definition health_register_checker (cs : list registered_checker_t) (name : option cstr)
    (fn : option (world → health_status_t)) : list registered_checker_t * Z :=
  match name, fn with
  | Some name, Some fn =>
      if (MAX_CHECKERS <=? length cs)%nat then (cs, -1) else (cs ++ [mk_checker name fn], 0)
  | _, _ => (cs, -1)
  end.

Definition health_init_auto (cs : list registered_checker_t) (interval_sec : Z)
    : health_monitor_t * list registered_checker_t * Z :=
  let mon := mk_monitor (checks health_init) 0 true (if 0 <? interval_sec then interval_sec else 60) in
  let cs := (health_register_checker cs (Some (lit "providers")) (Some health_check_provider)).1 in
  let cs := (health_register_checker cs (Some (lit "memory")) (Some health_check_memory)).1 in
  let cs := (health_register_checker cs (Some (lit "channels")) (Some health_check_channels)).1 in
  let cs := (health_register_checker cs (Some (lit "runtime")) (Some health_check_runtime)).1 in
  (mon, cs, 0).

Definition health_register (now : Z) (mon : health_monitor_t) (comp : option cstr)
    : health_monitor_t * Z :=
  match comp with
  | None => (mon, -1)
  | Some comp =>
      if (MAX_CHECKS <=? check_count mon)%nat then (mon, -1)
      else
        (mk_monitor (<[check_count mon := mk_check (snprintf_s 64 comp) HEALTH_OK [] now]> (checks mon))
           (S (check_count mon)) (auto_check mon) (check_interval_sec mon), 0)
  end.

Definition live_checks (mon : health_monitor_t) : list health_check_t :=
  take (check_count mon) (checks mon).

Definition health_update (now : Z) (mon : health_monitor_t) (comp : option cstr)
    (st : health_status_t) (msg : option cstr) : health_monitor_t * Z :=
  match comp with
  | None => (mon, -1)
  | Some comp =>
      match find_idx (λ c, streq (component c) comp) (live_checks mon) with
      | Some i =>
          match checks mon !! i with
          | Some c =>
              (mk_monitor
                 (<[i := mk_check (component c) st
                          (match msg with Some m => snprintf_s 256 m | None => message c end) now]>
                    (checks mon))
                 (check_count mon) (auto_check mon) (check_interval_sec mon), 0)
          | None => (mon, -1)
          end
      | None => (mon, -1)
      end
  end.

Definition health_run_checks (now : Z) (w : world) (cs : list registered_checker_t)
    (mon : health_monitor_t) : health_monitor_t * Z :=
  (foldl (λ mon c, (health_update now mon (Some (checker_name c)) (check_fn c w) None).1) mon cs, 0).

Definition health_get (mon : health_monitor_t) (comp : option cstr) : option health_check_t :=
  match comp with
  | None => None
  | Some comp => List.find (λ c, streq (component c) comp) (live_checks mon)
  end.

Definition health_list (mon : health_monitor_t) : list health_check_t * nat :=
  (checks mon, check_count mon).

Definition health_free (mon : health_monitor_t) : health_monitor_t :=
  mk_monitor (replicate MAX_CHECKS check_zero) 0 false 0.

(** ** Heartbeats; [now] is [time(NULL)] *)

Record heartbeat_t := mk_hb { last_beat : Z; interval_ms : Z; active : bool }.

Definition now_ms (now : Z) : Z := u64 (now * 1000).

Definition heartbeat_init (now interval : Z) : heartbeat_t := mk_hb (now_ms now) interval true.

Definition heartbeat_ping (now : Z) (hb : heartbeat_t) : heartbeat_t * Z :=
  if active hb then (mk_hb (now_ms now) (interval_ms hb) true, 0) else (hb, -1).

Definition heartbeat_is_alive (now : Z) (hb : heartbeat_t) : bool :=
  active hb && (u64 (now_ms now - last_beat hb) <=? u64 (interval_ms hb * 2)).

Definition heartbeat_since_last (now : Z) (hb : heartbeat_t) : Z := u64 (now_ms now - last_beat hb).

Definition heartbeat_stop (hb : heartbeat_t) : heartbeat_t :=
  mk_hb (last_beat hb) (interval_ms hb) false.

(** ** The table *)

Record health_inv (mon : health_monitor_t) : Prop := {
  inv_slots : length (checks mon) = MAX_CHECKS;
  inv_count : (check_count mon ≤ MAX_CHECKS)%nat;
}.

Lemma find_find_idx {A} (f : A → bool) l :
  List.find f l = match find_idx f l with Some i => l !! i | None => None end.
Proof.
  induction l as [|x l IH]; simpl; [done|]. destruct (f x); [done|]. rewrite IH.
  by destruct (find_idx f l).
Qed.

Lemma find_insert {A} (g : A → bool) (l : list A) i x y :
  l !! i = Some x → g y = g x →
  List.find g (<[i := y]> l) = match List.find g l with
                               | Some z => if decide (find_idx g l = Some i) then Some y else Some z
                               | None => None
                               end.
Proof.
  revert i. induction l as [|a l IH]; intros i Hx Hg; [done|].
  destruct i as [|i]; simpl in *.
  - injection Hx as ->. rewrite Hg. destruct (g x) eqn:E; [by rewrite decide_True|].
    destruct (List.find g l); [|done]. rewrite decide_False; [done|]. by destruct (find_idx g l).
  - destruct (g a); [by rewrite decide_False|]. rewrite (IH i Hx Hg).
    destruct (List.find g l); [|done].
    assert (find_idx g l = Some i ↔ S <$> find_idx g l = Some (S i)) as Hiff
      by (destruct (find_idx g l); simpl; naive_solver).
    repeat case_decide; naive_solver.
Qed.

Lemma update_inv now mon comp st msg : health_inv mon → health_inv (health_update now mon comp st msg).1.
Proof.
  intros [Hl Hc]. unfold health_update. destruct comp; [|done].
  destruct (find_idx _ _); [|done]. destruct (checks mon !! _); [|done].
  split; simpl; [by rewrite length_insert | done].
Qed.

Lemma find_live mon f i :
  find_idx f (live_checks mon) = Some i →
  (i < check_count mon)%nat ∧ ∃ c, checks mon !! i = Some c ∧ live_checks mon !! i = Some c ∧ f c = true.
Proof.
  intros H. pose proof (find_idx_lt _ _ _ H) as Hlt. unfold live_checks in *. rewrite length_take in Hlt.
  apply find_idx_Some in H as [(c & Hc & Hf) _]. split; [lia|]. exists c.
  split_and!; [|done|done]. rewrite lookup_take_lt in Hc by lia. done.
Qed.

(** Reading a component after an update: the new status if it is the updated
    one and registered, what it was before otherwise. *)
Lemma get_update now mon comp st comp' :
  status <$> health_get (health_update now mon (Some comp) st None).1 (Some comp') =
  (if streq comp comp' then (λ _, st) <$> health_get mon (Some comp')
   else status <$> health_get mon (Some comp')).
Proof.
  unfold health_update. destruct (find_idx _ _) as [i|] eqn:Ef.
  - pose proof Ef as Ef'. apply find_live in Ef as (Hi & c & Hc & Hl & Hf). apply streq_true in Hf. rewrite Hc.
    unfold health_get, live_checks at 1. simpl. rewrite take_insert_lt by done. fold (live_checks mon).
    rewrite (find_insert _ _ _ _ _ Hl) by done.
    destruct (List.find (λ c0, streq (component c0) comp') (live_checks mon)) as [z|] eqn:Ez;
      [|by destruct (streq comp comp')].
    rewrite find_find_idx in Ez. destruct (find_idx _ _) as [k|] eqn:Ek in Ez; [|done]. rewrite Ek.
    pose proof Ek as Ek'. apply find_live in Ek as (Hk & ck & _ & Hlk & Hfk). apply streq_true in Hfk.
    destruct (decide (Some k = Some i)) as [[= ->]|Hne].
    + rewrite Hl in Hlk. injection Hlk as <-. rewrite Hf in Hfk. subst. by rewrite streq_refl.
    + destruct (streq comp comp') eqn:E; [|done]. apply streq_true in E. subst comp'.
      rewrite E in Ef'. congruence.
  - simpl. unfold health_get. destruct (streq comp comp') eqn:E; [|done]. apply streq_true in E. subst.
    rewrite find_find_idx, Ef. done.
Qed.

(** The status a component has after all checkers ran: that of the last
    checker with its name, if there is one. *)
Definition last_verdict (w : world) (cs : list registered_checker_t) (comp : cstr)
    (st : health_status_t) : health_status_t :=
  foldl (λ st c, if streq (checker_name c) comp then check_fn c w else st) st cs.

(** Running the checkers gives every registered component the verdict of
    the last checker that carries its name, leaves components without a
    checker as they are, and adds no component. *)
Theorem run_checks_spec now w cs mon comp :
  status <$> health_get (health_run_checks now w cs mon).1 (Some comp) =
  last_verdict w cs comp ∘ status <$> health_get mon (Some comp).
Proof.
  unfold health_run_checks, last_verdict. cbn [fst]. revert mon.
  induction cs as [|c cs IH]; intros mon.
  { cbn [foldl]. by destruct (health_get mon (Some comp)). }
  cbn [foldl]. rewrite IH. clear IH.
  pose proof (get_update now mon (checker_name c) (check_fn c w) comp) as Hu.
  destruct (health_get (health_update _ _ _ _ _).1 (Some comp)) as [x|];
    destruct (health_get mon (Some comp)) as [y|];
    destruct (streq (checker_name c) comp); cbn in *; try done; injection Hu as Hu; by rewrite Hu.
Qed.

(** Automatic monitoring registers checkers but no components: a monitor
    set up by [health_init_auto] reports no component at all, whatever the
    checkers find, and its run still succeeds. *)
Theorem auto_monitor_reports_nothing now w cs interval comp :
  let '(mon, cs', _) := health_init_auto cs interval in
  health_get (health_run_checks now w cs' mon).1 comp = None ∧
  (health_run_checks now w cs' mon).2 = 0.
Proof.
  unfold health_init_auto. set (mon := mk_monitor _ _ _ _). set (cs' := (health_register_checker _ _ _).1).
  split; [|done].
  assert (∀ cs, check_count (health_run_checks now w cs mon).1 = 0%nat) as H.
  { clear cs'. intros cs'. unfold health_run_checks. simpl.
    assert (∀ m, check_count m = 0%nat → check_count
      (foldl (λ mon c, (health_update now mon (Some (checker_name c)) (check_fn c w) None).1) m cs') = 0%nat)
      as Hg; [|by apply Hg].
    induction cs' as [|c cs' IH]; intros m Hm; [done|]. simpl. apply IH.
    unfold health_update, live_checks. by rewrite Hm, take_0. }
  destruct comp; [|done]. unfold health_get, live_checks. by rewrite H, take_0.
Qed.

(** After a beat at time [t] the heart counts as alive exactly up to two
    intervals later, and as dead at once after it is stopped. *)
Theorem heartbeat_alive_iff hb t now :
  active hb = true → 0 <= t <= now → now * 1000 < 2 ^ 64 → 0 <= interval_ms hb < 2 ^ 63 →
  (heartbeat_is_alive now (heartbeat_ping t hb).1 = true ↔ (now - t) * 1000 <= 2 * interval_ms hb) ∧
  heartbeat_is_alive now (heartbeat_stop (heartbeat_ping t hb).1) = false.
Proof.
  intros Ha Ht Hn Hi. unfold heartbeat_ping. rewrite Ha. split; [|done].
  unfold heartbeat_is_alive, now_ms. simpl. rewrite !(wrap_small 64) by (try lia; rewrite !wrap_small; lia).
  rewrite Z.leb_le. lia.
Qed.

Lemma heartbeat_alive_iff_witness :
  (heartbeat_is_alive 1060 (heartbeat_ping 1000 (heartbeat_init 900 30000)).1 = true ↔
   (1060 - 1000) * 1000 <= 2 * 30000) ∧
  heartbeat_is_alive 1060 (heartbeat_stop (heartbeat_ping 1000 (heartbeat_init 900 30000)).1) = false.
Proof. apply (heartbeat_alive_iff (heartbeat_init 900 30000) 1000 1060); [reflexivity | lia | lia | simpl; lia]. Defined.
