(* ===== verification/Instance.v ===== *)
(** * The instance registry of [src/instance/instance.c]

    Sixteen rows of 64 bytes hold the identifiers, one behind the other in
    memory, and sixteen slots the configurations.  The identifiers are copied
    with [memcpy], so a row need not contain a NUL: comparing it then runs on
    into the next row, and past the last row the comparison is undefined. *)
From S2P Require Import Prelude.

Section instance.
Context {config_t : Type}.

Definition INSTANCE_ID_MAX : nat := 64.
Definition INSTANCE_REGISTRY_MAX : nat := 16.

Record registry_t := mk_registry {
  id : list (list Z);
  config : list config_t;
  count : nat;
}.

Definition instance_init (zero : config_t) : registry_t :=
  mk_registry (replicate INSTANCE_REGISTRY_MAX (replicate INSTANCE_ID_MAX 0))
    (replicate INSTANCE_REGISTRY_MAX zero) 0.

Definition instance_shutdown (zero : config_t) (r : registry_t) : registry_t := instance_init zero.

(** [strcmp(mem, s) == 0]; [None] when the memory ends before the first
    difference or the common NUL. *)
Fixpoint mem_streq (mem : list Z) (s : cstr) : option bool :=
  match mem, s with
  | [], _ => None
  | b :: _, [] => Some (b =? 0)
  | b :: mem', c :: s' => if b =? c then mem_streq mem' s' else Some false
  end.

(** The bytes that start at row [i]. *)
Definition row_mem (r : registry_t) (i : nat) : list Z := concat (drop i (id r)).

(** The search loop, from row [i] on for [n] rows. *)
Fixpoint search (r : registry_t) (s : cstr) (i n : nat) : option (option nat) :=
  match n with
  | O => Some None
  | S n' =>
      match mem_streq (row_mem r i) s with
      | None => None
      | Some true => Some (Some i)
      | Some false => search r s (S i) n'
      end
  end.

(** [memcpy(row, s, k)] of a NUL-terminated string. *)
Definition memcpy_row (row : list Z) (s : cstr) (k : nat) : list Z :=
  take k (s ++ [0]) ++ drop k row.

(** [None] is an undefined comparison. *)
Definition instance_register (r : registry_t) (instance_id : option cstr) (cfg : option config_t)
    : option (registry_t * Z) :=
  match instance_id, cfg with
  | Some s, Some c =>
      match search r s 0 (count r) with
      | None => None
      | Some (Some i) => Some (mk_registry (id r) (<[i := c]> (config r)) (count r), 0)
      | Some None =>
          if (INSTANCE_REGISTRY_MAX <=? count r)%nat then Some (r, -1)
          else
            let len := if (INSTANCE_ID_MAX <=? length s)%nat then (INSTANCE_ID_MAX - 1)%nat
                       else length s in
            match id r !! count r with
            | None => None
            | Some row =>
                Some (mk_registry (<[count r := memcpy_row row s (len + 1)]> (id r))
                        (<[count r := c]> (config r)) (S (count r)), 0)
            end
      end
  | _, _ => Some (r, -1)
  end.

Definition instance_get_config (r : registry_t) (instance_id : option cstr)
    : option (option config_t) :=
  match instance_id with
  | None => Some None
  | Some s =>
      let lookup := match s with [] => lit "default" | _ => s end in
      match search r lookup 0 (count r) with
      | None => None
      | Some (Some i) => Some (config r !! i)
      | Some None => Some None
      end
  end.

(** ** The registry as an association list *)

(** Every used row holds a terminated identifier of at most 63 bytes. *)
Definition good_row (row : list Z) : Prop :=
  ∃ s t, row = s ++ 0 :: t ∧ wf_cstr s ∧ length row = INSTANCE_ID_MAX.

Record registry_inv (r : registry_t) : Prop := {
  inv_rows : length (id r) = INSTANCE_REGISTRY_MAX;
  inv_row_len : Forall (λ row, length row = INSTANCE_ID_MAX) (id r);
  inv_configs : length (config r) = INSTANCE_REGISTRY_MAX;
  inv_count : (count r ≤ INSTANCE_REGISTRY_MAX)%nat;
  inv_good : Forall good_row (take (count r) (id r));
}.

Definition names (r : registry_t) : list cstr := map until_nul (take (count r) (id r)).
Definition configs (r : registry_t) : list config_t := take (count r) (config r).

(** The abstract registry: the configuration of the first entry with the
    name. *)
Definition assoc (s : cstr) (names : list cstr) (cs : list config_t) : option config_t :=
  match find_idx (λ n, streq n s) names with Some i => cs !! i | None => None end.

Lemma mem_streq_spec s t rest : wf_cstr s → ∀ s', wf_cstr s' →
  mem_streq (s ++ 0 :: t ++ rest) s' = Some (streq s s').
Proof.
  induction 1 as [|b s Hb Hs IH]; intros s' Hs'; simpl.
  - destruct Hs' as [|c s' Hc Hs']; [done|]. destruct c as [|c|c]; simpl; try done; lia.
  - destruct Hs' as [|c s' Hc Hs'].
    + destruct (b =? 0) eqn:E; [bsplit; lia|]. done.
    + destruct (b =? c) eqn:E; bsplit.
      * subst c. rewrite IH by done. f_equal. unfold streq. apply bool_decide_ext. naive_solver.
      * f_equal. symmetry. apply streq_false. naive_solver.
Qed.

Lemma row_mem_eq r i row : id r !! i = Some row → row_mem r i = row ++ concat (drop (S i) (id r)).
Proof. intros H. unfold row_mem. by rewrite (drop_S _ _ _ H). Qed.

Lemma until_nul_good row : good_row row → ∃ s t, row = s ++ 0 :: t ∧ wf_cstr s ∧ until_nul row = s.
Proof. intros (s & t & -> & Hs & _). exists s, t. by rewrite until_nul_app. Qed.

Lemma search_spec r s i n :
  registry_inv r → wf_cstr s → (i + n = count r)%nat →
  search r s i n =
  Some ((λ k, (i + k)%nat) <$> find_idx (λ m, streq m s) (drop i (names r))).
Proof.
  intros Hinv Hs. revert i. induction n as [|n IH]; intros i Hi; cbn [search].
  - rewrite drop_ge; [done|]. unfold names. rewrite length_map, length_take. lia.
  - pose proof Hinv as [Hr Hrl Hc Hcnt Hg].
    destruct (lookup_lt_is_Some_2 (id r) i) as [row Hrow]; [lia|].
    rewrite (row_mem_eq _ _ _ Hrow).
    assert (good_row row) as Hgr.
    { rewrite Forall_lookup in Hg. apply (Hg i). by rewrite lookup_take_lt by lia. }
    destruct (until_nul_good _ Hgr) as (s0 & t & -> & Hs0 & Hu).
    rewrite <- app_assoc. cbn [app]. rewrite (mem_streq_spec s0 t) by done.
    assert (names r !! i = Some s0) as Hname.
    { unfold names. rewrite list_lookup_fmap, lookup_take_lt, Hrow by lia. simpl. by rewrite Hu. }
    rewrite (drop_S _ _ _ Hname). cbn [find_idx].
    destruct (streq s0 s); cbn [fmap option_fmap option_map]; [do 2 f_equal; lia|].
    rewrite IH by lia. destruct (find_idx _ (drop (S i) (names r))); simpl; [do 2 f_equal; lia|done].
Qed.

Lemma get_config_assoc r s :
  registry_inv r → wf_cstr s → s ≠ [] →
  instance_get_config r (Some s) = Some (assoc s (names r) (configs r)).
Proof.
  intros Hinv Hs Hne. unfold instance_get_config, assoc. destruct s as [|c s]; [done|].
  rewrite search_spec by (done || lia). rewrite drop_0.
  destruct (find_idx _ _) as [i|] eqn:E; [|done]. cbn.
  apply find_idx_lt in E. unfold names in E. rewrite length_map, length_take in E.
  unfold configs. by rewrite lookup_take_lt by lia.
Qed.

Lemma good_row_copy row s :
  length row = INSTANCE_ID_MAX → wf_cstr s → (length s < INSTANCE_ID_MAX)%nat →
  good_row (memcpy_row row s (length s + 1)) ∧
  until_nul (memcpy_row row s (length s + 1)) = s ∧
  length (memcpy_row row s (length s + 1)) = INSTANCE_ID_MAX.
Proof.
  intros Hr Hs Hl. unfold memcpy_row. rewrite take_ge by (rewrite length_app; simpl; lia).
  rewrite <- app_assoc. cbn [app].
  assert (length (s ++ 0 :: drop (length s + 1) row) = INSTANCE_ID_MAX) as Hlen.
  { rewrite length_app. cbn [length]. rewrite length_drop. lia. }
  split_and!; [|by rewrite until_nul_app | done]. by exists s, (drop (length s + 1) row).
Qed.

Lemma find_idx_snoc {A} f (l : list A) x :
  find_idx f (l ++ [x]) =
  match find_idx f l with Some i => Some i | None => if f x then Some (length l) else None end.
Proof.
  induction l as [|a l IH]; simpl; [by destruct (f x)|].
  destruct (f a); [done|]. rewrite IH. destruct (find_idx f l); [done|]. by destruct (f x).
Qed.

(** What registering does to the names and configurations. *)
Lemma register_abs r s c :
  registry_inv r → wf_cstr s → (length s < INSTANCE_ID_MAX)%nat →
  ∃ r' rc, instance_register r (Some s) (Some c) = Some (r', rc) ∧ registry_inv r' ∧
    match find_idx (λ m, streq m s) (names r) with
    | Some i => rc = 0 ∧ names r' = names r ∧ configs r' = <[i := c]> (configs r)
    | None =>
        if (INSTANCE_REGISTRY_MAX <=? count r)%nat then rc = -1 ∧ r' = r
        else rc = 0 ∧ names r' = names r ++ [s] ∧ configs r' = configs r ++ [c]
    end.
Proof.
  intros Hinv Hs Hl. pose proof Hinv as [Hr Hrl Hc Hcnt Hg]. unfold instance_register.
  rewrite search_spec by (done || lia). rewrite drop_0.
  destruct (find_idx _ (names r)) as [i|] eqn:E; cbn [fmap option_fmap option_map].
  - apply find_idx_lt in E. unfold names in E. rewrite length_map, length_take in E.
    eexists _, _. split; [done|]. split_and!; [|done|done|].
    + split; simpl; try done. by rewrite length_insert.
    + unfold configs. simpl. by rewrite take_insert_lt by lia.
  - case_if; [by eexists _, _|].
    rewrite (proj2 (Nat.leb_gt INSTANCE_ID_MAX (length s))) by done.
    destruct (lookup_lt_is_Some_2 (id r) (count r)) as [row Hrow]; [lia|]. rewrite Hrow.
    assert (length row = INSTANCE_ID_MAX) as Hlen by (rewrite Forall_lookup in Hrl; by apply (Hrl _ _ Hrow)).
    destruct (good_row_copy row s Hlen Hs Hl) as (Hgood & Hun & Hlr).
    eexists _, _. split; [done|]. split_and!; [split; simpl; try (by rewrite length_insert); [|lia|]|done| |].
    + by apply Forall_insert.
    + rewrite take_insert_push by lia. apply Forall_app. by split; [|constructor].
    + unfold names. simpl. rewrite take_insert_push, map_app by lia. simpl. by rewrite Hun.
    + unfold configs. simpl. by rewrite take_insert_push by lia.
Qed.

Lemma configs_length r : registry_inv r → length (configs r) = length (names r).
Proof. intros []. unfold configs, names. rewrite length_map, !length_take. lia. Qed.

(** For identifiers of at most 63 bytes the registry refines a map:
    registering keeps it well formed, the registered configuration is found
    under its identifier, other identifiers keep theirs, and registration is
    refused exactly for a new identifier in a full table. *)
Theorem instance_map_laws r s c :
  registry_inv r → wf_cstr s → s ≠ [] → (length s < INSTANCE_ID_MAX)%nat →
  ∃ r' rc, instance_register r (Some s) (Some c) = Some (r', rc) ∧ registry_inv r' ∧
    (rc = -1 ↔ s ∉ names r ∧ count r = INSTANCE_REGISTRY_MAX) ∧
    (rc = 0 → instance_get_config r' (Some s) = Some (Some c)) ∧
    (∀ s', wf_cstr s' → s' ≠ [] → s' ≠ s →
       instance_get_config r' (Some s') = instance_get_config r (Some s')).
Proof.
  intros Hinv Hs Hne Hl. destruct (register_abs r s c Hinv Hs Hl) as (r' & rc & Hreg & Hinv' & Habs).
  pose proof (configs_length r Hinv) as Hcl.
  exists r', rc. split_and!; [done|done| | |].
  - destruct (find_idx _ _) as [i|] eqn:E.
    + destruct Habs as (-> & _ & _). split; [done|]. intros [Hn _]. exfalso. apply Hn.
      apply find_idx_Some in E as [(x & Hx & Heq) _]. apply streq_true in Heq. subst.
      by eapply list_elem_of_lookup_2.
    + assert (s ∉ names r) as Hnin.
      { intros Hin. apply find_idx_None in E. rewrite Forall_forall in E. apply E in Hin.
        by rewrite streq_refl in Hin. }
      destruct (INSTANCE_REGISTRY_MAX <=? count r)%nat eqn:Ec; bsplit.
      * destruct Habs as [-> _]. destruct Hinv. split; [|done]. intros _. split; [done|lia].
      * destruct Habs as (-> & _ & _). split; [done|]. intros [_ ?]. lia.
  - intros ->. rewrite get_config_assoc by done. unfold assoc.
    destruct (find_idx _ (names r)) as [i|] eqn:E.
    + destruct Habs as (_ & -> & ->). rewrite E. f_equal. apply list_lookup_insert_eq.
      rewrite Hcl. by eapply find_idx_lt.
    + destruct (INSTANCE_REGISTRY_MAX <=? count r)%nat; [by destruct Habs|]. destruct Habs as (_ & -> & ->).
      rewrite find_idx_snoc, E, streq_refl, <- Hcl. by rewrite lookup_app_r, Nat.sub_diag by lia.
  - intros s' Hs' Hne' Hdiff. rewrite !get_config_assoc by done. f_equal. unfold assoc.
    destruct (find_idx (λ n, streq n s) (names r)) as [i|] eqn:E.
    + destruct Habs as (_ & -> & ->). destruct (find_idx (λ n, streq n s') (names r)) as [j|] eqn:Ej; [|done].
      destruct (decide (i = j)) as [->|]; [|by rewrite list_lookup_insert_ne].
      apply find_idx_Some in E as [(x & Hx & Hxs) _], Ej as [(y & Hy & Hys) _].
      apply streq_true in Hxs, Hys. congruence.
    + destruct (INSTANCE_REGISTRY_MAX <=? count r)%nat; [by destruct Habs as [_ ->]|].
      destruct Habs as (_ & -> & ->). rewrite find_idx_snoc.
      destruct (find_idx (λ n, streq n s') (names r)) as [j|] eqn:Ej.
      * apply find_idx_lt in Ej. by rewrite lookup_app_l by lia.
      * by rewrite (proj2 (streq_false s s')) by done.
Qed.

End instance.

Definition registry_ex : registry_t (config_t := Z) :=
  mk_registry
    (memcpy_row (replicate 64 0) (lit "default") 8 :: replicate 15 (replicate 64 0))
    (7 :: replicate 15 0) 1.

Lemma registry_ex_inv : registry_inv registry_ex.
Proof.
  split; [done | by repeat constructor | done | simpl; unfold INSTANCE_REGISTRY_MAX; lia |].
  constructor; [|constructor].
  exists (lit "default"), (replicate 56 0). split_and!; [done | repeat constructor; lia | done].
Qed.

Lemma instance_map_laws_witness :
  ∃ r' rc, instance_register registry_ex (Some (lit "a")) (Some 9) = Some (r', rc) ∧ registry_inv r' ∧
    (rc = -1 ↔ lit "a" ∉ names registry_ex ∧ count registry_ex = INSTANCE_REGISTRY_MAX) ∧
    (rc = 0 → instance_get_config r' (Some (lit "a")) = Some (Some 9)) ∧
    (∀ s', wf_cstr s' → s' ≠ [] → s' ≠ lit "a" →
       instance_get_config r' (Some s') = instance_get_config registry_ex (Some s')).
Proof.
  apply (instance_map_laws registry_ex (lit "a") 9);
    [apply registry_ex_inv | repeat constructor; lia | done | vm_compute; lia].
Defined.

(** An identifier of 64 bytes is copied without its terminator.  It is
    found right after registration, but no longer once another instance has
    been registered in the next row. *)
Theorem long_id_is_lost (c1 c2 : Z) :
  let long := replicate 64 97 in
  ∃ r1 r2, instance_register (instance_init 0) (Some long) (Some c1) = Some (r1, 0) ∧
    instance_get_config r1 (Some long) = Some (Some c1) ∧
    instance_register r1 (Some (lit "b")) (Some c2) = Some (r2, 0) ∧
    instance_get_config r2 (Some long) = Some None.
Proof. eexists _, _. split_and!; by vm_compute. Qed.
