(* ===== verification/Security.v ===== *)
(** * Policies, secrets, the audit chain and the sandbox helpers of
      [src/security/security.c]

    The static tables of the file are explicit states: [secrets_t] for
    [g_secrets], [audit_t] for [g_audit_log].  What a command prints is an
    argument of the functions that run it. *)
From S2P Require Import Prelude.

(** ** Settings and keys *)

Inductive security_level_t :=
  | SECURITY_LEVEL_NONE | SECURITY_LEVEL_BASIC | SECURITY_LEVEL_SANDBOXED | SECURITY_LEVEL_HARDENED.

Record security_t := mk_security {
  encryption_enabled : bool;
  api_key_secure : bool;
  level : security_level_t;
  pairing_required : bool;
  audit_enabled : bool;
}.

Definition security_init : security_t := mk_security false true SECURITY_LEVEL_BASIC false true.

Definition security_encrypt (input : option cstr) (output_size : nat) : option cstr :=
  snprintf_s output_size <$> input.
Definition security_decrypt (input : option cstr) (output_size : nat) : option cstr :=
  snprintf_s output_size <$> input.

Definition security_validate_api_key (key : option cstr) : bool :=
  match key with
  | None => false
  | Some k =>
      if (length k <? 10)%nat then false
      else bool_decide (strstr k (lit "sk-") = Some 0%nat)
  end.

(** ** Policies *)

Definition MAX_POLICY_RULES : nat := 128.

Record policy_rule_t := mk_rule { rule : cstr; allow : bool }.

Record security_policy_t := mk_policy {
  rules : list policy_rule_t;
  rule_count : nat;
  default_allow : bool;
}.

Definition security_policy_init : security_policy_t :=
  mk_policy (replicate MAX_POLICY_RULES (mk_rule [] false)) 0 false.

Definition security_policy_add_rule (p : security_policy_t) (r : option cstr) (a : bool)
    : security_policy_t * Z :=
  match r with
  | None => (p, -1)
  | Some r =>
      if (MAX_POLICY_RULES <=? rule_count p)%nat then (p, -1)
      else (mk_policy (<[rule_count p := mk_rule (snprintf_s 512 r) a]> (rules p))
              (S (rule_count p)) (default_allow p), 0)
  end.

(** The text a rule is looked for in. *)
Definition policy_text (action : cstr) (target : option cstr) : cstr :=
  snprintf_s 512 (action ++ lit ":" ++ default [] target).

Fixpoint first_rule (rs : list policy_rule_t) (check : cstr) : option bool :=
  match rs with
  | [] => None
  | r :: rs' => if contains check (rule r) then Some (allow r) else first_rule rs' check
  end.

Definition security_policy_check (p : security_policy_t) (action target : option cstr) : Z :=
  match action with
  | None => -1
  | Some action =>
      match first_rule (take (rule_count p) (rules p)) (policy_text action target) with
      | Some a => if a then 0 else -1
      | None => if default_allow p then 0 else -1
      end
  end.

(** ** Secrets *)

Definition MAX_SECRETS : nat := 64.
Definition MAX_SECRET_NAME : nat := 64.
Definition MAX_SECRET_VALUE : nat := 512.

Record secret_t := mk_secret { s_name : cstr; s_value : cstr; s_path : cstr }.

Record secrets_t := mk_secrets { g_secrets : list secret_t; g_secret_count : nat }.

Definition secrets_zero : secrets_t := mk_secrets (replicate MAX_SECRETS (mk_secret [] [] [])) 0.

Definition stored (s : secrets_t) : list secret_t := take (g_secret_count s) (g_secrets s).

(** The slot keeps its [path]. *)
Definition security_secrets_store (s : secrets_t) (name value : option cstr) : secrets_t * Z :=
  match name, value with
  | Some name, Some value =>
      if (MAX_SECRETS <=? g_secret_count s)%nat then (s, -1)
      else
        match g_secrets s !! g_secret_count s with
        | None => (s, -1)
        | Some old =>
            (mk_secrets
               (<[g_secret_count s :=
                    mk_secret (snprintf_s MAX_SECRET_NAME name) (snprintf_s MAX_SECRET_VALUE value)
                      (s_path old)]> (g_secrets s))
               (S (g_secret_count s)), 0)
        end
  | _, _ => (s, -1)
  end.

Definition security_secrets_retrieve (s : secrets_t) (name : option cstr) (value_size : nat)
    : option cstr :=
  match name with
  | None => None
  | Some name =>
      (λ x, snprintf_s value_size (s_value x)) <$>
      List.find (λ x, streq (s_name x) name) (stored s)
  end.

Definition security_secrets_delete (s : secrets_t) (name : option cstr) : secrets_t * Z :=
  match name with
  | None => (s, -1)
  | Some name =>
      match find_idx (λ x, streq (s_name x) name) (stored s) with
      | Some i =>
          (mk_secrets (shift_left i (g_secret_count s) (g_secrets s)) (g_secret_count s - 1), 0)
      | None => (s, -1)
      end
  end.

Definition security_secrets_list (s : secrets_t) : list cstr := map s_name (stored s).

(** ** The audit log *)

Definition MAX_AUDIT_ENTRIES : nat := Z.to_nat 1000.
Definition AUDIT_HASH_HEX_LEN : nat := 16.

(** FNV-style and additive halves over the same bytes, in 64-bit arithmetic. *)
Definition chain_hash (data : list Z) : Z :=
  let h := foldl (λ h b, u64 (Z.lxor h b * 16777619)) 2166136261 data in
  let h2 := foldl (λ h2 b, let h2 := u64 (h2 + b) in u64 (u64 (h2 * 31) + Z.shiftr h2 32))
              16777619 data in
  Z.lor (u64 (Z.shiftl h 32)) (Z.land h2 4294967295).

Record audit_entry_t := mk_entry {
  a_action : cstr;
  a_target : cstr;
  a_user : cstr;
  a_timestamp : Z;
  a_allowed : bool;
  previous_hash : cstr;
  current_hash : cstr;
}.

Record audit_t := mk_audit { g_audit_log : list audit_entry_t; g_audit_count : nat }.

Definition entry_zero : audit_entry_t := mk_entry [] [] [] 0 false [] [].
Definition audit_zero : audit_t := mk_audit (replicate MAX_AUDIT_ENTRIES entry_zero) 0.

(** What the hash of an entry covers. *)
Definition audit_payload (prev action target : cstr) (ts : Z) (allowed : bool) : cstr :=
  snprintf_s 512 (prev ++ action ++ target ++ fmt_dec ts ++ fmt_dec (if allowed then 1 else 0)).

Definition audit_hash (prev action target : cstr) (ts : Z) (allowed : bool) : cstr :=
  snprintf_s (AUDIT_HASH_HEX_LEN + 1)
    (fmt_hex false 16 (chain_hash (audit_payload prev action target ts allowed))).

Definition security_audit_log (now : Z) (a : audit_t) (action target : option cstr) (allowed : bool)
    : audit_t * Z :=
  match action with
  | None => (a, -1)
  | Some action =>
      let '(log, idx) := make_room MAX_AUDIT_ENTRIES (g_audit_count a) (g_audit_log a) in
      let act := snprintf_s 64 action in
      let tgt := snprintf_s 256 (default [] target) in
      let prev :=
        match idx with
        | O => lit "0"
        | S i => match log !! i with
                 | Some e => snprintf_s (AUDIT_HASH_HEX_LEN + 1) (current_hash e)
                 | None => []
                 end
        end in
      let e := mk_entry act tgt (snprintf_s 64 (lit "doctorclaw")) now allowed prev
                 (audit_hash prev act tgt now allowed) in
      (mk_audit (<[idx := e]> log) (S idx), 0)
  end.

Definition security_audit_get_entries (a : audit_t) (count : nat) : list audit_entry_t :=
  take (if (g_audit_count a <? count)%nat then g_audit_count a else count) (g_audit_log a).

Definition security_audit_clear (a : audit_t) : audit_t := mk_audit (g_audit_log a) 0.

(** ** Running commands *)

(** The loop that collects the lines [fgets] delivers; [output_size] is
    positive.  A line that does not fit is skipped. *)
Fixpoint collect_output (output_size : nat) (out : cstr) (lines : list cstr) : cstr :=
  match lines with
  | [] => out
  | l :: lines' =>
      if (length out <? output_size - 1)%nat then
        if (length out + length l <? output_size)%nat
        then collect_output output_size (out ++ l) lines'
        else collect_output output_size out lines'
      else out
  end.

(** [popen] is an argument: the lines the command prints, or NULL. *)
Definition security_sandbox_exec (popen : cstr → option (list cstr)) (command : option cstr)
    (output_size : nat) : option cstr :=
  command ≫= λ c, collect_output output_size [] <$> popen c.

Definition security_docker_sandbox_run (popen : cstr → option (list cstr)) (command : option cstr)
    (output_size : nat) : option cstr :=
  command ≫= λ c,
    collect_output output_size [] <$>
      popen (snprintf_s 1024 (lit "docker run --rm doctorclawsandbox " ++ c)).

(** The command line of [security_bubblewrap_run] in its buffer of 4096
    bytes: [p] is the write position, [remaining] the [size_t] that is
    counted down beside it, [text] what a reader of the buffer sees.  [None]
    is a store behind the end of the buffer. *)
Record cmdline := mk_cmd { text : cstr; p : Z; remaining : Z }.

Definition BWRAP_SIZE : Z := 4096.

Definition bwrap_put (c : cmdline) (piece : cstr) : option cmdline :=
  let n := Z.of_nat (length piece) in
  if remaining c =? 0 then Some (mk_cmd (text c) (p c + n) (u64 (remaining c - n)))
  else if BWRAP_SIZE <=? p c then None
  else if BWRAP_SIZE <? p c + Z.min (n + 1) (remaining c) then None
  else Some (mk_cmd (text c ++ take (Z.to_nat (remaining c) - 1) piece) (p c + n)
               (u64 (remaining c - n))).

Definition bwrap_base : cstr :=
  lit "bubblewrap --ro-bind /usr /usr --dev /dev --proc /proc --unshare-all --die-with-parent".

Fixpoint bwrap_args (c : cmdline) (args : list cstr) : option cmdline :=
  match args with
  | [] => Some c
  | a :: args' =>
      if 0 <? remaining c
      then bwrap_put c (lit " --bind " ++ a ++ lit " " ++ a) ≫= λ c, bwrap_args c args'
      else Some c
  end.

Definition bubblewrap_command (command : cstr) (args : list cstr) : option cstr :=
  c ← bwrap_put (mk_cmd [] 0 BWRAP_SIZE) bwrap_base;
  c ← bwrap_args c args;
  c ← bwrap_put c (lit " -- /bin/sh -c '" ++ command ++ lit "'");
  Some (text c).

Definition security_firejail_command (profile command : cstr) : cstr :=
  snprintf_s (Z.to_nat 6144)
    (match profile with
     | [] =>
         lit "firejail --private=home --private-dev --nosound --no3d --novideo --nowheel --notv --quiet "
         ++ command ++ lit " 2>&1"
     | _ =>
         lit "firejail --private=home --private-dev --nosound --no3d --novideo --nowheel --notv --noprofile --quiet "
         ++ profile ++ lit " " ++ command ++ lit " 2>&1"
     end).

(** ** Policies: the first matching rule decides *)

Definition policy_rules (p : security_policy_t) : list policy_rule_t := take (rule_count p) (rules p).

Record policy_inv (p : security_policy_t) : Prop := {
  inv_rules : length (rules p) = MAX_POLICY_RULES;
  inv_rule_count : (rule_count p ≤ MAX_POLICY_RULES)%nat;
}.

Lemma first_rule_snoc rs r check :
  first_rule (rs ++ [r]) check =
  match first_rule rs check with
  | Some a => Some a
  | None => if contains check (rule r) then Some (allow r) else None
  end.
Proof. induction rs as [|r' rs IH]; simpl; [done|]. by destruct (contains check (rule r')). Qed.

(** Rules are consulted in the order of their addition.  A rule added to
    a table with room changes only the decisions that no earlier rule makes,
    and decides those whose text contains it; what remains is denied by an
    initialised policy. *)
Theorem policy_add_rule_decides pol r a action target :
  policy_inv pol → (rule_count pol < MAX_POLICY_RULES)%nat →
  security_policy_check (security_policy_add_rule pol (Some r) a).1 (Some action) target =
  match first_rule (policy_rules pol) (policy_text action target) with
  | Some b => if b then 0 else -1
  | None =>
      if contains (policy_text action target) (snprintf_s 512 r) then (if a then 0 else -1)
      else if default_allow pol then 0 else -1
  end.
Proof.
  intros [Hl Hc] Hlt. unfold security_policy_add_rule.
  rewrite (proj2 (Nat.leb_gt _ _)) by done. unfold security_policy_check. cbn [fst rule_count rules default_allow].
  rewrite take_insert_push, first_rule_snoc by lia. fold (policy_rules pol).
  destruct (first_rule _ _); [done|]. cbn [rule allow]. by destruct (contains _ _).
Qed.

Lemma policy_add_rule_decides_witness :
  security_policy_check
    (security_policy_add_rule (security_policy_add_rule security_policy_init (Some (lit "rm")) false).1
       (Some (lit "shell:")) true).1 (Some (lit "shell")) (Some (lit "ls")) = 0.
Proof.
  refine (eq_trans (policy_add_rule_decides
    (security_policy_add_rule security_policy_init (Some (lit "rm")) false).1
    (lit "shell:") true (lit "shell") (Some (lit "ls")) _ _) _); [split| |]; first [by vm_compute | vm_compute; lia].
Defined.

(** ** Secrets: the first one stored under a name is the one retrieved *)

Record secrets_inv (s : secrets_t) : Prop := {
  inv_secrets : length (g_secrets s) = MAX_SECRETS;
  inv_secret_count : (g_secret_count s ≤ MAX_SECRETS)%nat;
}.

Lemma store_stored s name value :
  secrets_inv s → (g_secret_count s < MAX_SECRETS)%nat →
  ∃ path, stored (security_secrets_store s (Some name) (Some value)).1 =
    stored s ++ [mk_secret (snprintf_s MAX_SECRET_NAME name) (snprintf_s MAX_SECRET_VALUE value) path] ∧
  secrets_inv (security_secrets_store s (Some name) (Some value)).1.
Proof.
  intros [Hl Hc] Hlt. unfold security_secrets_store. rewrite (proj2 (Nat.leb_gt _ _)) by done.
  destruct (lookup_lt_is_Some_2 (g_secrets s) (g_secret_count s)) as [old Hold]; [lia|]. rewrite Hold.
  exists (s_path old). unfold stored. cbn [fst g_secrets g_secret_count].
  rewrite take_insert_push by lia. split; [done|]. split; cbn; [by rewrite length_insert | lia].
Qed.

Lemma find_snoc {A} (f : A → bool) l x :
  List.find f (l ++ [x]) = match List.find f l with Some y => Some y | None => if f x then Some x else None end.
Proof. induction l as [|y l IH]; simpl; [done|]. by destruct (f y). Qed.

(** Storing and retrieving.  The first value stored under a name is the
    one retrieved: a new name gets the stored value, while storing again
    under an existing name leaves the old value in force until it is
    deleted. *)
Theorem secrets_store_retrieve s name value size :
  secrets_inv s → (g_secret_count s < MAX_SECRETS)%nat → (length name < MAX_SECRET_NAME)%nat →
  security_secrets_retrieve (security_secrets_store s (Some name) (Some value)).1 (Some name) size =
  match security_secrets_retrieve s (Some name) size with
  | Some old => Some old
  | None => Some (snprintf_s size (snprintf_s MAX_SECRET_VALUE value))
  end.
Proof.
  intros Hinv Hlt Hn. destruct (store_stored s name value Hinv Hlt) as (path & Hs & _).
  unfold security_secrets_retrieve. rewrite Hs, find_snoc. cbn [s_name s_value].
  rewrite snprintf_s_id, streq_refl by done. by destruct (List.find _ (stored s)).
Qed.

Lemma secrets_store_retrieve_witness :
  let s := (security_secrets_store secrets_zero (Some (lit "k")) (Some (lit "old"))).1 in
  security_secrets_retrieve (security_secrets_store s (Some (lit "k")) (Some (lit "new"))).1
    (Some (lit "k")) 512 = Some (lit "old").
Proof.
  intros s. refine (eq_trans (secrets_store_retrieve s (lit "k") (lit "new") 512 _ _ _) _);
    [split| | |]; first [by vm_compute | vm_compute; lia].
Defined.

(** Deleting removes the first secret with the name and keeps the order
    of the others; an unknown name changes nothing. *)
Theorem secrets_delete_first s name :
  secrets_inv s →
  match find_idx (λ x, streq (s_name x) name) (stored s) with
  | Some i => (security_secrets_delete s (Some name)).2 = 0 ∧
      stored (security_secrets_delete s (Some name)).1 = delete i (stored s) ∧
      secrets_inv (security_secrets_delete s (Some name)).1
  | None => security_secrets_delete s (Some name) = (s, -1)
  end.
Proof.
  intros [Hl Hc]. unfold security_secrets_delete.
  destruct (find_idx _ _) as [i|] eqn:E; [|done]. apply find_idx_lt in E.
  unfold stored in *. rewrite length_take in E. cbn [fst snd g_secrets g_secret_count].
  split_and!; [done | apply shift_left_delete; lia |].
  split; cbn; [by rewrite shift_left_length | lia].
Qed.

Lemma secrets_delete_first_witness :
  let s := (security_secrets_store secrets_zero (Some (lit "k")) (Some (lit "v"))).1 in
  match find_idx (λ x, streq (s_name x) (lit "k")) (stored s) with
  | Some i => (security_secrets_delete s (Some (lit "k"))).2 = 0 ∧
      stored (security_secrets_delete s (Some (lit "k"))).1 = delete i (stored s) ∧
      secrets_inv (security_secrets_delete s (Some (lit "k"))).1
  | None => security_secrets_delete s (Some (lit "k")) = (s, -1)
  end.
Proof. intros s. apply (secrets_delete_first s (lit "k")). split; vm_compute; (done || lia). Defined.

(** ** The audit chain *)

Definition log (a : audit_t) : list audit_entry_t := take (g_audit_count a) (g_audit_log a).

(** Each entry carries the hash of its own fields. *)
Definition entry_ok (e : audit_entry_t) : Prop :=
  current_hash e = audit_hash (previous_hash e) (a_action e) (a_target e) (a_timestamp e) (a_allowed e).

(** Each entry names the hash of the entry before it. *)
Definition linked (l : list audit_entry_t) : Prop :=
  ∀ i e e', l !! i = Some e → l !! S i = Some e' → previous_hash e' = current_hash e.

Record audit_inv (a : audit_t) : Prop := {
  inv_log : length (g_audit_log a) = MAX_AUDIT_ENTRIES;
  inv_audit_count : (g_audit_count a ≤ MAX_AUDIT_ENTRIES)%nat;
  inv_hashes : Forall entry_ok (log a);
  inv_linked : linked (log a);
}.

Lemma fmt_hex_length upper n z : length (fmt_hex upper n z) = n.
Proof. revert z. induction n as [|n IH]; intros z; cbn [fmt_hex]; [done|]. rewrite length_app, IH. simpl. lia. Qed.

Lemma audit_hash_length pr ac tg ts al : length (audit_hash pr ac tg ts al) = AUDIT_HASH_HEX_LEN.
Proof. unfold audit_hash. rewrite snprintf_s_id; rewrite fmt_hex_length; unfold AUDIT_HASH_HEX_LEN; lia. Qed.

Lemma linked_drop n l : linked l → linked (drop n l).
Proof. intros H i e e'. rewrite !lookup_drop. replace (n + S i)%nat with (S (n + i)) by lia. apply H. Qed.

Lemma linked_snoc l e :
  linked l → (∀ e0, last l = Some e0 → previous_hash e = current_hash e0) → linked (l ++ [e]).
Proof.
  intros Hl He i x x' Hx Hx'. apply lookup_app_Some in Hx as [Hx|[Hge Hx]].
  - apply lookup_app_Some in Hx' as [Hx'|[Hge Hx']]; [by apply (Hl i)|].
    apply list_lookup_singleton_Some in Hx' as [Hi <-]. apply He. rewrite last_lookup, <- Hx. f_equal.
    apply lookup_lt_Some in Hx. lia.
  - apply list_lookup_singleton_Some in Hx as [Hi <-].
    apply lookup_lt_Some in Hx'. rewrite length_app in Hx'. simpl in Hx'. lia.
Qed.

Lemma audit_log_step now a action target allowed :
  audit_inv a →
  let a' := (security_audit_log now a (Some action) target allowed).1 in
  audit_inv a' ∧
  ∃ e, log a' = last_n MAX_AUDIT_ENTRIES (log a ++ [e]) ∧
       a_action e = snprintf_s 64 action ∧ a_target e = snprintf_s 256 (default [] target) ∧
       a_timestamp e = now ∧ a_allowed e = allowed ∧
       (log a = [] → previous_hash e = lit "0").
Proof.
  intros [Hl Hc Hh Hk]. unfold security_audit_log.
  assert (0 < MAX_AUDIT_ENTRIES)%nat as H0 by (unfold MAX_AUDIT_ENTRIES; lia).
  pose proof (make_room_spec MAX_AUDIT_ENTRIES (g_audit_count a) (g_audit_log a) H0 Hl Hc) as Hroom.
  pose proof (λ e, push_bounded MAX_AUDIT_ENTRIES (g_audit_count a) (g_audit_log a) e H0 Hl Hc) as Hpush.
  destruct (make_room _ _ _) as [b m]. destruct Hroom as (Hb & Hm & Htake).
  set (prev := match m with O => _ | S i => _ end).
  set (e := mk_entry _ _ _ _ _ _ _). destruct (Hpush e) as (Hlen & HSm & Hlog). fold (log a) in *.
  cbn [fst]. set (a' := mk_audit _ _).
  assert (log a' = last_n MAX_AUDIT_ENTRIES (log a ++ [e])) as Hlog' by exact Hlog.
  assert (take m b ++ [e] = log a') as Hsnoc.
  { subst a'. unfold log. cbn [g_audit_count g_audit_log]. by rewrite take_insert_push by lia. }
  assert (Forall entry_ok (take m b)) as Hok by (rewrite Htake; by apply Forall_last_n).
  assert (linked (take m b)) as Hlk by (rewrite Htake; by apply linked_drop).
  split; [split; [done|done| |]|].
  - rewrite <- Hsnoc. apply Forall_app. split; [done|]. by constructor.
  - rewrite <- Hsnoc. apply linked_snoc; [done|]. intros e0 He0. cbn [e previous_hash].
    pose proof He0 as He0'. rewrite last_lookup, length_take in He0.
    subst prev. destruct m as [|i]; [done|].
    rewrite Nat.min_l in He0 by lia. cbn [Nat.pred] in He0. rewrite lookup_take_lt in He0 by lia.
    rewrite He0. apply snprintf_s_id. apply last_Some_elem_of in He0'.
    rewrite Forall_forall in Hok. rewrite (Hok _ He0'), audit_hash_length. lia.
  - exists e. split_and!; [done..|]. intros Hnil. cbn [e previous_hash]. subst prev.
    apply (f_equal length) in Htake. rewrite Hnil in Htake. rewrite length_take in Htake.
    destruct m; [done|]. unfold last_n in Htake. rewrite drop_nil in Htake. cbn [length] in Htake. lia.
Qed.

Inductive audit_step : audit_t → audit_t → Prop :=
  | audit_step_log now a action target allowed :
      audit_step a (security_audit_log now a action target allowed).1
  | audit_step_clear a : audit_step a (security_audit_clear a).

Inductive audit_reachable : audit_t → Prop :=
  | audit_reach_init : audit_reachable audit_zero
  | audit_reach_step a a' : audit_reachable a → audit_step a a' → audit_reachable a'.

Lemma audit_reachable_inv a : audit_reachable a → audit_inv a.
Proof.
  induction 1 as [|a a' _ IH Hs].
  - split; [apply length_replicate | cbn; lia | constructor | by intros i e e' ?].
  - destruct Hs as [now a action target allowed|a].
    + destruct action; [by apply audit_log_step | done].
    + destruct IH. split; [done | cbn; lia | constructor | by intros i e e' ?].
Qed.

(** C19: the audit log is a hash chain.  In every state that logging and
    clearing can produce, whatever the requests, each entry carries the hash
    of its fields and of its predecessor's hash, consecutive entries are
    linked, and at most 1000 entries are kept. *)
Theorem audit_chain_intact a :
  audit_reachable a →
  Forall entry_ok (log a) ∧ linked (log a) ∧ (length (log a) ≤ MAX_AUDIT_ENTRIES)%nat.
Proof.
  intros [Hl Hc Hh Hk]%audit_reachable_inv. split_and!; [done..|].
  unfold log. rewrite length_take. lia.
Qed.

Definition audit_ex : audit_t :=
  (security_audit_log 1700000001
     (security_audit_log 1700000000 audit_zero (Some (lit "shell")) (Some (lit "ls")) true).1
     (Some (lit "http")) None false).1.

Lemma audit_ex_reachable : audit_reachable audit_ex.
Proof.
  eapply audit_reach_step; [eapply audit_reach_step; [apply audit_reach_init|]|]; apply audit_step_log.
Qed.

Lemma audit_chain_intact_witness :
  Forall entry_ok (log audit_ex) ∧ linked (log audit_ex) ∧
  (length (log audit_ex) ≤ MAX_AUDIT_ENTRIES)%nat.
Proof. apply audit_chain_intact, audit_ex_reachable. Defined.

(** Logging appends: the log afterwards is the last thousand of the log
    before and the new entry, which records the (truncated) action and target
    and the decision; the chain starts with the previous hash "0". *)
Theorem audit_log_appends now a action target allowed :
  audit_inv a →
  ∃ e, log (security_audit_log now a (Some action) target allowed).1 =
         last_n MAX_AUDIT_ENTRIES (log a ++ [e]) ∧
       a_action e = snprintf_s 64 action ∧ a_target e = snprintf_s 256 (default [] target) ∧
       a_timestamp e = now ∧ a_allowed e = allowed ∧ entry_ok e ∧
       (log a = [] → previous_hash e = lit "0").
Proof.
  intros Hinv. destruct (audit_log_step now a action target allowed Hinv) as ([_ _ Hok _] & e & He & H).
  exists e. destruct H as (? & ? & ? & ? & ?). split_and!; try done.
  rewrite He in Hok. unfold last_n in Hok. rewrite length_app, drop_app_le in Hok.
  - apply Forall_app in Hok as [_ Hok]. by rewrite Forall_singleton in Hok.
  - unfold MAX_AUDIT_ENTRIES. simpl. lia.
Qed.

Lemma audit_log_appends_witness :
  ∃ e, log (security_audit_log 1700000002 audit_ex (Some (lit "x")) None true).1 =
         last_n MAX_AUDIT_ENTRIES (log audit_ex ++ [e]) ∧
       a_action e = snprintf_s 64 (lit "x") ∧ a_target e = snprintf_s 256 (default [] None) ∧
       a_timestamp e = 1700000002 ∧ a_allowed e = true ∧ entry_ok e ∧
       (log audit_ex = [] → previous_hash e = lit "0").
Proof. apply audit_log_appends, audit_reachable_inv, audit_ex_reachable. Defined.

(** ** Command output and command lines *)

Lemma collect_bound size lines out :
  (length out < size)%nat → (length (collect_output size out lines) < size)%nat.
Proof.
  revert out. induction lines as [|l lines IH]; intros out Hout; cbn [collect_output]; [done|].
  destruct (length out <? size - 1)%nat; [|done].
  destruct (length out + length l <? size)%nat eqn:E; [|by apply IH].
  bsplit. apply IH. rewrite length_app. lia.
Qed.

Lemma collect_all size lines out :
  (length out + length (concat lines) < size)%nat → collect_output size out lines = out ++ concat lines.
Proof.
  revert out. induction lines as [|l lines IH]; intros out Hout; cbn [collect_output concat].
  - by rewrite app_nil_r.
  - simpl in Hout. rewrite length_app in Hout.
    destruct (length out <? size - 1)%nat eqn:E; bsplit.
    + rewrite (proj2 (Nat.ltb_lt _ _)) by lia. rewrite IH by (rewrite length_app; lia).
      by rewrite app_assoc.
    + assert (l = [] ∧ concat lines = []) as [-> ->] by (split; apply length_zero_iff_nil; lia).
      by rewrite !app_nil_r.
Qed.

(** Whatever a sandboxed command prints, the text collected from it and
    its terminator stay inside the caller's buffer; output that fits is
    returned complete. *)
Theorem sandbox_output_bounded popen command lines size :
  popen command = Some lines → (0 < size)%nat →
  ∃ out, security_sandbox_exec popen (Some command) size = Some out ∧ (length out < size)%nat ∧
    ((length (concat lines) < size)%nat → out = concat lines).
Proof.
  intros Hp Hs. unfold security_sandbox_exec. simpl. rewrite Hp. simpl. eexists. split; [done|].
  split; [by apply collect_bound | intros; by apply collect_all].
Qed.

Lemma sandbox_output_bounded_witness :
  ∃ out, security_sandbox_exec (λ _, Some [lit "one "; lit "two"]) (Some (lit "ls")) 6 = Some out ∧
    (length out < 6)%nat ∧
    ((length (concat [lit "one "; lit "two"]) < 6)%nat → out = concat [lit "one "; lit "two"]).
Proof.
  apply (sandbox_output_bounded (λ _, Some [lit "one "; lit "two"]) (lit "ls")); [done|lia].
Defined.

Definition bind_piece (a : cstr) : cstr := lit " --bind " ++ a ++ lit " " ++ a.
Definition run_piece (command : cstr) : cstr := lit " -- /bin/sh -c '" ++ command ++ lit "'".

Definition cmd_ok (c : cmdline) : Prop :=
  p c = Z.of_nat (length (text c)) ∧ remaining c = BWRAP_SIZE - p c ∧ 0 < remaining c.

Lemma bwrap_put_fits c piece :
  cmd_ok c → Z.of_nat (length (text c)) + Z.of_nat (length piece) < BWRAP_SIZE →
  ∃ c', bwrap_put c piece = Some c' ∧ cmd_ok c' ∧ text c' = text c ++ piece.
Proof.
  intros (Hp & Hr & H0) Hfit. unfold bwrap_put.
  destruct (remaining c =? 0) eqn:E0; bsplit; [lia|]. unfold BWRAP_SIZE in *.
  rewrite (proj2 (Z.leb_gt _ _)) by lia. rewrite (proj2 (Z.ltb_ge _ _)) by lia.
  eexists. split; [done|]. cbn [text p remaining]. rewrite take_ge by lia.
  split; [|done]. unfold cmd_ok. cbn [text p remaining]. rewrite length_app, wrap_small by lia.
  unfold BWRAP_SIZE. lia.
Qed.

Lemma bwrap_args_fit args c :
  cmd_ok c →
  Z.of_nat (length (text c)) + Z.of_nat (length (concat (map bind_piece args))) < BWRAP_SIZE →
  ∃ c', bwrap_args c args = Some c' ∧ cmd_ok c' ∧ text c' = text c ++ concat (map bind_piece args).
Proof.
  revert c. induction args as [|a args IH]; intros c Hok Hfit; cbn [bwrap_args map concat] in *.
  - exists c. by rewrite app_nil_r.
  - rewrite length_app in Hfit. rewrite (proj2 (Z.ltb_lt _ _)) by apply Hok.
    destruct (bwrap_put_fits c (bind_piece a) Hok) as (c1 & H1 & Hok1 & Ht1); [lia|].
    unfold bind_piece in H1. rewrite H1. cbn [mbind option_bind].
    destruct (IH c1 Hok1) as (c2 & H2 & Hok2 & Ht2); [rewrite Ht1, length_app; lia|].
    exists c2. split_and!; [done..|]. by rewrite Ht2, Ht1, app_assoc.
Qed.

(** As long as the pieces of a bubblewrap command line fit into its
    buffer of 4096 bytes together, the line is assembled completely and no
    store leaves the buffer. *)
Theorem bubblewrap_fits command args :
  Z.of_nat (length (bwrap_base ++ concat (map bind_piece args) ++ run_piece command)) < BWRAP_SIZE →
  bubblewrap_command command args =
  Some (bwrap_base ++ concat (map bind_piece args) ++ run_piece command).
Proof.
  rewrite !length_app. intros Hfit. unfold bubblewrap_command.
  destruct (bwrap_put_fits (mk_cmd [] 0 BWRAP_SIZE) bwrap_base) as (c1 & -> & Hok1 & Ht1);
    [split_and!; done | simpl text; cbn [length]; lia |]. cbn [text app] in Ht1. cbn [mbind option_bind].
  destruct (bwrap_args_fit args c1 Hok1) as (c2 & -> & Hok2 & Ht2); [rewrite Ht1; lia|]. cbn [mbind option_bind].
  destruct (bwrap_put_fits c2 (run_piece command) Hok2) as (c3 & H3 & Hok3 & Ht3);
    [rewrite Ht2, Ht1, length_app; lia|]. unfold run_piece in H3. rewrite H3. cbn [mbind option_bind].
  rewrite Ht3, Ht2, Ht1. by rewrite <- app_assoc.
Qed.

Lemma bubblewrap_fits_witness :
  bubblewrap_command (lit "ls") [lit "/tmp"] =
  Some (bwrap_base ++ concat (map bind_piece [lit "/tmp"]) ++ run_piece (lit "ls")).
Proof. apply bubblewrap_fits. by vm_compute. Defined.

(** A bind path of 2048 bytes makes the count of remaining bytes wrap
    around, and the next piece is stored behind the end of the buffer. *)
Theorem bubblewrap_overflows command : bubblewrap_command command [replicate (Z.to_nat 2048) 97] = None.
Proof.
  unfold bubblewrap_command.
  set (c := bwrap_put (mk_cmd [] 0 BWRAP_SIZE) bwrap_base ≫= λ c, bwrap_args c [replicate (Z.to_nat 2048) 97]).
  assert (∃ c2, c = Some c2 ∧ remaining c2 =? 0 = false ∧ BWRAP_SIZE <=? p c2 = true) as (c2 & Hc & Hr & Hp).
  { eexists. split; [subst c; vm_compute; reflexivity | split; by vm_compute]. }
  assert (∀ (k : cmdline → option cstr), (bwrap_put (mk_cmd [] 0 BWRAP_SIZE) bwrap_base ≫=
    λ c, bwrap_args c [replicate (Z.to_nat 2048) 97] ≫= k) = c ≫= k) as Hassoc
    by (intros; subst c; by destruct (bwrap_put _ _)).
  rewrite Hassoc, Hc. cbn [mbind option_bind]. unfold bwrap_put. by rewrite Hr, Hp.
Qed.
