(* ===== verification/Sandbox.v ===== *)
(** * Pairing, sandboxes and their detection: [src/security/security.c]

    What these functions leave behind is only the profile and the flag of
    Firejail; the others print a line.  [popen] gives the lines a command
    prints, [None] when it cannot be run. *)
From S2P Require Import Prelude Security.

Record sandbox_config_t := mk_sandbox {
  sc_enabled : bool;
  sc_workspace_dir : cstr;
  sc_cache_dir : cstr;
  network_allowed : bool;
  subprocess_allowed : bool;
  filesystem_ro : bool;
  filesystem_rw : bool;
}.

(** [g_firejail_profile] and [g_firejail_active] *)
Record sandbox_t := mk_sandbox_t { g_firejail_profile : cstr; g_firejail_active : bool }.

Definition sandbox_zero : sandbox_t := mk_sandbox_t [] false.

Definition code_of (p : option cstr) : Z := match p with Some _ => 0 | None => -1 end.

(** ** Functions that only print *)

Definition security_pairing_init (s : sandbox_t) (device : option cstr) : sandbox_t * Z := (s, 0).
Definition security_pairing_approve (s : sandbox_t) (code : option cstr) : sandbox_t * Z := (s, code_of code).
Definition security_pairing_revoke (s : sandbox_t) (device : option cstr) : sandbox_t * Z := (s, code_of device).
Definition security_pairing_is_paired (s : sandbox_t) : bool := true.

Definition security_sandbox_init (s : sandbox_t) (c : option sandbox_config_t) : sandbox_t * Z :=
  (s, match c with Some _ => 0 | None => -1 end).
Definition security_sandbox_enable (s : sandbox_t) : sandbox_t * Z := (s, 0).
Definition security_sandbox_disable (s : sandbox_t) : sandbox_t * Z := (s, 0).

Definition security_landlock_init (s : sandbox_t) : sandbox_t * Z := (s, 0).
Definition security_landlock_restrict_path (s : sandbox_t) (path : option cstr) (flags : Z) : sandbox_t * Z := (s, code_of path).
Definition security_landlock_apply (s : sandbox_t) : sandbox_t * Z := (s, 0).

Definition security_docker_sandbox_init (s : sandbox_t) (image name : option cstr) : sandbox_t * Z := (s, code_of image).
Definition security_bubblewrap_cleanup (s : sandbox_t) : sandbox_t * Z := (s, 0).
Definition security_firejail_cleanup (s : sandbox_t) : sandbox_t * Z := (s, 0).

(** The commands handed to [system]. *)
Definition security_docker_sandbox_stop : cstr := lit "docker kill doctorclawsandbox 2>/dev/null".
Definition security_docker_sandbox_cleanup : cstr := lit "docker rm -f doctorclawsandbox 2>/dev/null".

(** ** Bubblewrap and Firejail *)

Section run.
Context (system : cstr → Z) (popen : cstr → option (list cstr)).

Definition security_bubblewrap_init (rootfs : option cstr) : Z :=
  match rootfs with
  | None => if system (lit "bubblewrap --version >/dev/null 2>&1") =? 0 then 0 else -1
  | Some r =>
      match popen (snprintf_s (Z.to_nat 2048) (lit "test -d " ++ r ++ lit " && echo 'exists' || echo 'missing'")) with
      | Some (l :: _) => if contains (take 31 l) (lit "missing") then -1 else 0
      | _ => 0
      end
  end.

Definition find_firejail : bool := match popen (lit "which firejail") with Some (_ :: _) => true | _ => false end.

Definition security_firejail_init (s : sandbox_t) (profile : option cstr) : sandbox_t * Z :=
  if negb find_firejail then (s, -1)
  else
    (mk_sandbox_t (match profile with Some p => snprintf_s (Z.to_nat 1024) (lit "--profile=" ++ p) | None => [] end) true, 0).

(** The command line that is run; [None]: the call is refused. *)
Definition security_firejail_run (s : sandbox_t) (command : option cstr) : option cstr :=
  match command with
  | Some c => if g_firejail_active s then Some (security_firejail_command (g_firejail_profile s) c) else None
  | None => None
  end.
End run.

(** ** Detection *)

(** [stat] tells which paths exist; [cgroup] is [/proc/1/cgroup]. *)
Definition security_detect_container (stat : cstr → bool) (cgroup : option cstr) : bool :=
  stat (lit "/.dockerenv") || stat (lit "/run/.containerenv") ||
  match cgroup with
  | Some t => existsb (λ l, contains l (lit "docker") || contains l (lit "containerd")) (fgets_lines 256 t)
  | None => false
  end.

Definition security_detect_sandbox (stat : cstr → bool) (cgroup : option cstr) : Z :=
  if security_detect_container stat cgroup then 1
  else if stat (lit "/proc/self/attr/apparmor") then 2
  else if stat (lit "/sys/kernel/security/lockdown") then 3
  else 0.

(** ** Properties *)

Inductive setting :=
  | PairingInit (d : option cstr) | PairingApprove (c : option cstr) | PairingRevoke (d : option cstr)
  | SandboxInit (c : option sandbox_config_t) | SandboxEnable | SandboxDisable
  | LandlockInit | LandlockRestrict (p : option cstr) (flags : Z) | LandlockApply
  | DockerInit (image name : option cstr) | BubblewrapCleanup | FirejailCleanup.

Definition apply (s : sandbox_t) (x : setting) : sandbox_t :=
  (match x with
   | PairingInit d => security_pairing_init s d
   | PairingApprove c => security_pairing_approve s c
   | PairingRevoke d => security_pairing_revoke s d
   | SandboxInit c => security_sandbox_init s c
   | SandboxEnable => security_sandbox_enable s
   | SandboxDisable => security_sandbox_disable s
   | LandlockInit => security_landlock_init s
   | LandlockRestrict p f => security_landlock_restrict_path s p f
   | LandlockApply => security_landlock_apply s
   | DockerInit i n => security_docker_sandbox_init s i n
   | BubblewrapCleanup => security_bubblewrap_cleanup s
   | FirejailCleanup => security_firejail_cleanup s
   end).1.

Lemma settings_idle l s : foldl apply s l = s.
Proof. revert s. induction l as [|x l IH]; intros s; [done|]. cbn [foldl]. rewrite IH. by destruct x. Qed.

(** No setting confines anything: after any sequence of them the device is
    still paired, Firejail runs what it ran before, its cleanup included, and
    a command of the sandbox goes to the shell as it is. *)
Theorem settings_confine_nothing l s command popen size :
  let s' := foldl apply s l in
  security_pairing_is_paired s' = true ∧ security_firejail_run s' (Some command) = security_firejail_run s (Some command) ∧
  security_sandbox_exec popen (Some command) size = collect_output size [] <$> popen command.
Proof. cbv zeta. by rewrite settings_idle. Qed.

(** Firejail runs a command exactly after an initialisation that found it, with
    the profile of the last one. *)
Theorem firejail_runs_after_init popen s profile command :
  security_firejail_run sandbox_zero (Some command) = None ∧
  (find_firejail popen = false → security_firejail_init popen s profile = (s, -1)) ∧
  (find_firejail popen = true →
   ∃ s', security_firejail_init popen s profile = (s', 0) ∧
     security_firejail_run s' (Some command) = Some (security_firejail_command
       (match profile with Some p => snprintf_s (Z.to_nat 1024) (lit "--profile=" ++ p) | None => [] end) command)).
Proof. unfold security_firejail_init. split_and!; [done|by intros ->|intros ->; by eexists]. Qed.

(** A given profile is switched off in the same command line. *)
Theorem firejail_profile_ignored p command :
  (length p < 1000)%nat → (length command < 4000)%nat →
  contains (security_firejail_command (lit "--profile=" ++ p) command) (lit "--noprofile") = true.
Proof.
  intros Hp Hc. unfold security_firejail_command. change (lit "--profile=" ++ p) with (45 :: lit "-profile=" ++ p). cbn iota.
  apply contains_spec.
  exists (lit "firejail --private=home --private-dev --nosound --no3d --novideo --nowheel --notv "),
         (lit " --quiet " ++ (45 :: lit "-profile=" ++ p) ++ lit " " ++ command ++ lit " 2>&1").
  rewrite snprintf_s_id; [done|]. rewrite !length_app. cbn [length]. rewrite !length_app.
  vm_compute (length (lit _)). lia.
Qed.

(** A container is reported exactly for one of its two marker files or for a
    control group that names one, on one line of the file. *)
Theorem container_detected stat ls :
  Forall (λ l, Forall (λ b, b ≠ 10) l ∧ (length l < 256 - 1)%nat) ls →
  security_detect_container stat (Some (concat (map (λ l, l ++ [10]) ls))) = true ↔
  stat (lit "/.dockerenv") = true ∨ stat (lit "/run/.containerenv") = true ∨
  ∃ l, l ∈ ls ∧ (contains (l ++ [10]) (lit "docker") = true ∨ contains (l ++ [10]) (lit "containerd") = true).
Proof.
  intros Hl. unfold security_detect_container. rewrite fgets_lines_all by done. rewrite !orb_true_iff, existsb_exists.
  split.
  - intros [[?|?]|(x & (l & <- & Hin)%in_map_iff & [H|H]%orb_true_iff)]; [by left|by right; left|..];
      (right; right; exists l; split; [by apply list_elem_of_In|auto]).
  - intros [?|[?|(l & Hin & H)]]; [by left; left|by left; right|]. right. exists (l ++ [10]).
    split; [apply in_map_iff; exists l; split; [done|by apply list_elem_of_In]|]. by apply orb_true_iff.
Qed.

(** ** Witnesses *)

Lemma firejail_profile_ignored_witness :
  contains (security_firejail_command (lit "--profile=/etc/p") (lit "ls")) (lit "--noprofile") = true.
Proof. apply (firejail_profile_ignored (lit "/etc/p") (lit "ls")); vm_compute; lia. Defined.

Lemma container_detected_witness : security_detect_container (λ _, false) (Some (lit "0::/docker/1" ++ [10])) = true.
Proof.
  apply (container_detected (λ _, false) [lit "0::/docker/1"]); [apply (bool_decide_unpack _); by vm_compute|].
  right; right. exists (lit "0::/docker/1"). split; [by left|by left; vm_compute].
Defined.
