(* ===== verification/SecurityMonitor.v ===== *)
(** * The request filter of [src/security/security_monitor.c]

    The static variables are the record [secmon_t].  Metrics recorded through
    [observability_record_global] are collected in [metrics]; rejected
    requests are written to the audit log of [Security]. *)
From S2P Require Import Prelude Security.

Definition SECMON_IP_MAX : nat := 64.
Definition SECMON_RATE_LIMIT_DEFAULT : Z := 120.
Definition SECMON_RATE_WINDOW_SEC : Z := 60.
Definition RATE_BUCKETS : nat := 256.

Inductive security_monitor_result_t :=
  | SECMON_OK | SECMON_RATE_LIMITED | SECMON_INJECTION_SUSPECTED | SECMON_PATH_TRAVERSAL
  | SECMON_BODY_TOO_LARGE | SECMON_METHOD_INVALID | SECMON_REJECT_OTHER.

#[export] Instance secmon_result_eq_dec : EqDecision security_monitor_result_t.
Proof. solve_decision. Defined.

Definition result_code (r : security_monitor_result_t) : Z :=
  match r with
  | SECMON_OK => 0 | SECMON_RATE_LIMITED => 1 | SECMON_INJECTION_SUSPECTED => 2
  | SECMON_PATH_TRAVERSAL => 3 | SECMON_BODY_TOO_LARGE => 4 | SECMON_METHOD_INVALID => 5
  | SECMON_REJECT_OTHER => 6
  end.

Record security_monitor_config_t := mk_config {
  rate_limit_enabled : bool;
  rate_limit_per_window : Z;
  rate_window_sec : Z;
  injection_scan_enabled : bool;
  path_traversal_check : bool;
  max_body_size : Z;
  audit_rejected : bool;
}.

Record rate_bucket_t := mk_bucket { b_ip : cstr; b_count : Z; b_window_end : Z }.

Record secmon_t := mk_secmon {
  g_config : security_monitor_config_t;
  g_rate_buckets : list rate_bucket_t;
  g_rate_limit_hits : Z;
  g_injection_rejects : Z;
  g_initialized : bool;
  metrics : list cstr;
}.

Definition g_injection_patterns : list cstr :=
  map lit
    ["ignore previous"%string; "ignore all previous"%string; "disregard previous"%string;
     "forget everything"%string; "you are now"%string; "new instructions"%string; "system:"%string;
     "system prompt"%string; "override instructions"%string; "ignore above"%string;
     "disregard above"%string; "new identity"%string; "pretend you are"%string; "act as if"%string;
     "from now on you"%string; "your new role"%string; "jailbreak"%string; "developer mode"%string;
     "DAN mode"%string; "do anything now"%string; "bypass"%string; "ignore safety"%string;
     "reveal your prompt"%string; "repeat the above"%string; "output your instructions"%string;
     "what is your system prompt"%string; "show your prompt"%string].

(** [unsigned] arithmetic. *)
Definition hash_ip (ip : option cstr) : nat :=
  match ip with
  | None => 0%nat
  | Some s => Z.to_nat (foldl (λ h c, u32 (31 * h + c)) 0 s mod 256)
  end.

(** The scan of the lower-cased copy stops at its first NUL.  [malloc_ok] is
    the outcome of the allocation of that copy. *)
Definition contains_injection_pattern (malloc_ok : bool) (body : option (list Z)) (len : nat) : bool :=
  match body with
  | None => false
  | Some body =>
      if (len =? 0)%nat then false
      else
        let scan_len := if (Z.to_nat 16384 <? len)%nat then Z.to_nat 16384 else len in
        if negb malloc_ok then false
        else
          let lower := until_nul (map tolower (take scan_len body)) in
          existsb (contains lower) g_injection_patterns
  end.

Definition path_has_traversal (path : option cstr) : bool :=
  match path with
  | None => true
  | Some p =>
      contains p (lit "..") || contains p (lit "%2e%2e") || contains p (lit "%252e%252e")
      || contains p (lit "..%2f") || contains p (lit "%2f..")
  end.

Definition method_allowed (method : option cstr) : bool :=
  match method with
  | None | Some [] => false
  | Some (c :: s) =>
      let m := c :: s in
      if (c =? ch "G") || (c =? ch "g") then streq m (lit "GET") || strcaseeq m (lit "get")
      else if (c =? ch "P") || (c =? ch "p") then
        streq m (lit "POST") || strcaseeq m (lit "post") || streq m (lit "PUT") || strcaseeq m (lit "put")
        || streq m (lit "PATCH") || strcaseeq m (lit "patch")
      else if (c =? ch "H") || (c =? ch "h") then streq m (lit "HEAD") || strcaseeq m (lit "head")
      else if (c =? ch "O") || (c =? ch "o") then streq m (lit "OPTIONS") || strcaseeq m (lit "options")
      else if (c =? ch "D") || (c =? ch "d") then streq m (lit "DELETE") || strcaseeq m (lit "delete")
      else false
  end.

Definition security_monitor_config_defaults : security_monitor_config_t :=
  mk_config true SECMON_RATE_LIMIT_DEFAULT SECMON_RATE_WINDOW_SEC true true 0 true.

Definition security_monitor_init (m : secmon_t) (cfg : option security_monitor_config_t) : secmon_t * Z :=
  if g_initialized m then (m, 0)
  else (mk_secmon (default security_monitor_config_defaults cfg)
          (replicate RATE_BUCKETS (mk_bucket [] 0 0)) 0 0 true (metrics m), 0).

Definition security_monitor_shutdown (m : secmon_t) : secmon_t :=
  mk_secmon (g_config m) (g_rate_buckets m) (g_rate_limit_hits m) (g_injection_rejects m) false (metrics m).

(** The critical section of the rate limiter: the table afterwards and the
    count of this client in its window. *)
Definition rate_step (cfg : security_monitor_config_t) (now : Z) (bs : list rate_bucket_t)
    (client_ip : cstr) : list rate_bucket_t * Z :=
  let idx := hash_ip (Some client_ip) in
  match bs !! idx with
  | None => (bs, 0)
  | Some b =>
      let b := if (b_window_end b <=? now) || negb (strneq (SECMON_IP_MAX - 1) (b_ip b) client_ip)
               then mk_bucket (snprintf_s SECMON_IP_MAX client_ip) 0 (now + rate_window_sec cfg)
               else b in
      let c := u32 (b_count b + 1) in
      (<[idx := mk_bucket (b_ip b) c (b_window_end b)]> bs, c)
  end.

Definition security_monitor_check_request (now : Z) (malloc_ok : bool) (m : secmon_t)
    (client_ip method path : option cstr) (body : option (list Z)) (body_len : nat) (reason_size : nat)
    : secmon_t * security_monitor_result_t * cstr :=
  let ip := default (lit "unknown") client_ip in
  let cfg := g_config m in
  if negb (method_allowed method) then
    (m, SECMON_METHOD_INVALID,
     snprintf_s reason_size (lit "method not allowed: " ++ default (lit "(null)") method))
  else if path_traversal_check cfg && path_has_traversal path then
    (m, SECMON_PATH_TRAVERSAL, snprintf_s reason_size (lit "path traversal detected"))
  else if (0 <? max_body_size cfg) && (max_body_size cfg <? Z.of_nat body_len) then
    (m, SECMON_BODY_TOO_LARGE,
     snprintf_s reason_size (lit "body too large: " ++ fmt_dec (Z.of_nat body_len)))
  else
    let '(bs, count) :=
      if rate_limit_enabled cfg then rate_step cfg now (g_rate_buckets m) ip
      else (g_rate_buckets m, 0) in
    let m := mk_secmon cfg bs (g_rate_limit_hits m) (g_injection_rejects m) (g_initialized m) (metrics m) in
    if rate_limit_enabled cfg && (rate_limit_per_window cfg <? count) then
      (mk_secmon cfg bs (u64 (g_rate_limit_hits m + 1)) (g_injection_rejects m) (g_initialized m)
         (metrics m ++ [lit "security_monitor_rate_limited_total"]),
       SECMON_RATE_LIMITED,
       snprintf_s reason_size (lit "rate limit exceeded for " ++ ip))
    else if injection_scan_enabled cfg && (0 <? body_len)%nat
            && contains_injection_pattern malloc_ok body body_len then
      (mk_secmon cfg bs (g_rate_limit_hits m) (u64 (g_injection_rejects m + 1)) (g_initialized m)
         (metrics m ++ [lit "security_monitor_injection_rejected_total"]),
       SECMON_INJECTION_SUSPECTED,
       snprintf_s reason_size (lit "injection pattern detected in body"))
    else (m, SECMON_OK, []).

Definition security_monitor_record_request (m : secmon_t) (client_ip : option cstr) : secmon_t := m.

Definition security_monitor_audit_reject (now : Z) (a : audit_t) (result : security_monitor_result_t)
    (client_ip method path reason : option cstr) : audit_t :=
  let action := snprintf_s 128 (lit "security_monitor_reject:" ++ fmt_dec (result_code result)) in
  let target := snprintf_s 256
    (lit "ip=" ++ default (lit "unknown") client_ip ++ lit " method=" ++ default [] method
     ++ lit " path=" ++ default [] path ++ lit " reason=" ++ default [] reason) in
  (security_audit_log now a (Some action) (Some target) false).1.

(** [host[i]], with the terminator at the end. *)
Definition at_ (s : cstr) (i : nat) : Z := nth i s 0.

Definition host_is_private_or_metadata (host : cstr) : bool :=
  match host with
  | [] => true
  | _ =>
      streq host (lit "localhost")
      || strneq 4 host (lit "127.")
      || strneq 3 host (lit "10.")
      || strneq 8 host (lit "192.168.")
      || (strneq 7 host (lit "172.16.") || strneq 7 host (lit "172.17.")
          || strneq 7 host (lit "172.18.") || strneq 7 host (lit "172.19.")
          || (strneq 4 host (lit "172.") && (ch "1" <=? at_ host 4) && (at_ host 4 <=? ch "3")
              && (at_ host 5 =? ch ".")))
      || streq host (lit "169.254.169.254")
      || strcaseeq host (lit "metadata.google.internal")
      || (contains host (lit "metadata") && contains host (lit "google"))
      || strcaseeq host (lit "instance-data")
  end.

(** The host part of a URL, as the filter extracts it: up to the first slash
    behind "://", then up to the first colon. *)
Definition url_host (url : cstr) : option cstr :=
  match strstr url (lit "://") with
  | None => None
  | Some i =>
      let authority := drop (i + 3) url in
      let host_len := match strchr authority (ch "/") with Some k => k | None => length authority end in
      if (256 <=? host_len)%nat then None
      else
        let host := take host_len authority in
        Some (match strchr host (ch ":") with Some k => take k host | None => host end)
  end.

Definition security_monitor_url_safe_for_fetch (url : option cstr) : bool :=
  match url with
  | None | Some [] => false
  | Some url =>
      if negb (strneq 7 url (lit "http://")) && negb (strneq 8 url (lit "https://")) then false
      else
        match url_host url with
        | None => false
        | Some host => negb (host_is_private_or_metadata host)
        end
  end.

Definition security_monitor_get_rate_limit_count (m : secmon_t) : Z := g_rate_limit_hits m.
Definition security_monitor_get_injection_reject_count (m : secmon_t) : Z := g_injection_rejects m.

(** ** Methods *)

Definition http_methods : list cstr :=
  map lit ["get"%string; "post"%string; "put"%string; "patch"%string; "head"%string; "options"%string;
           "delete"%string].

Lemma tolower_inv c x : 97 <= x <= 122 → tolower c = x → c = x ∨ c = x - 32.
Proof. unfold tolower. intros Hx. case_if; intros <-; lia. Qed.

Lemma strcaseeq_true a b : strcaseeq a b = true ↔ map tolower a = map tolower b.
Proof. apply bool_decide_eq_true. Qed.

(** The first character selects a case that compares with the right names. *)
Lemma method_case c s x rest :
  97 <= x <= 122 → map tolower (c :: s) = x :: rest → c = x ∨ c = x - 32.
Proof. intros Hx [= Hc _]. by apply tolower_inv. Qed.

Lemma allowed_methods m : method_allowed (Some m) = true ↔ map tolower m ∈ http_methods.
Proof.
  destruct m as [|c s].
  { split; [done|]. intros H. exfalso. by repeat (apply elem_of_cons in H as [H|H]; [done|]); apply elem_of_nil in H. }
  split.
  - cbn [method_allowed]. intros H.
    repeat match type of H with
    | (if ?b then _ else _) = true => destruct b
    | _ || _ = true => apply orb_true_iff in H as [H|H]
    end; try done;
    try (apply streq_true in H; rewrite H; apply (bool_decide_unpack _); by vm_compute);
    apply strcaseeq_true in H; rewrite H; apply (bool_decide_unpack _); by vm_compute.
  - intros H. change http_methods with [lit "get"; lit "post"; lit "put"; lit "patch"; lit "head";
      lit "options"; lit "delete"] in H.
    repeat (apply elem_of_cons in H as [H|H]); [..|by apply elem_of_nil in H];
      match type of H with
      | _ = lit ?n =>
          assert (strcaseeq (c :: s) (lit n) = true) as Hs by (apply strcaseeq_true; by rewrite H);
          let v := eval vm_compute in (lit n) in
          match v with
          | ?x :: ?r => destruct (method_case c s x r ltac:(lia) H) as [-> | ->]
          end
      end; unfold method_allowed; cbn [Pos.sub Z.sub Z.add Z.opp Z.pos_sub] in *;
      repeat match goal with
      | |- (if ?b then _ else _) = true => let v := eval vm_compute in b in change b with v; cbn iota
      end; rewrite Hs; repeat (rewrite orb_true_r || rewrite orb_true_l); done.
Qed.

(** The accepted methods are exactly GET, POST, PUT, PATCH, HEAD, OPTIONS
    and DELETE, in any letter case. *)
Theorem method_allowed_iff m : method_allowed (Some m) = true ↔ map tolower m ∈ http_methods.
Proof. apply allowed_methods. Qed.

(** ** Accepted requests *)

Definition traversal_spellings : list cstr :=
  map lit [".."%string; "%2e%2e"%string; "%252e%252e"%string; "..%2f"%string; "%2f.."%string].

(** The part of a body the scanner reads: the first 16384 bytes, lower-cased,
    up to the first NUL. *)
Definition scanned_text (body : list Z) : cstr :=
  until_nul (map tolower (take (Z.to_nat 16384) body)).

Lemma injection_scan_iff body :
  contains_injection_pattern true (Some body) (length body) = true ↔
  body ≠ [] ∧ Exists (λ p, contains (scanned_text body) p = true) g_injection_patterns.
Proof.
  unfold contains_injection_pattern, scanned_text.
  destruct (length body =? 0)%nat eqn:E.
  - apply Nat.eqb_eq, length_zero_iff_nil in E. subst. split; [done | by intros [? _]].
  - apply Nat.eqb_neq in E. cbn [negb].
    assert (take (if (Z.to_nat 16384 <? length body)%nat then Z.to_nat 16384 else length body) body =
            take (Z.to_nat 16384) body) as ->.
    { case_if; [done|]. by rewrite !take_ge by lia. }
    rewrite existsb_exists, Exists_exists.
    setoid_rewrite list_elem_of_In. split; [|naive_solver].
    intros H. split; [by destruct body | done].
Qed.

Lemma no_traversal p :
  path_has_traversal (Some p) = false ↔ Forall (λ t, contains p t = false) traversal_spellings.
Proof.
  unfold path_has_traversal, traversal_spellings. cbn [map].
  rewrite !orb_false_iff, !Forall_cons, Forall_nil. tauto.
Qed.

Lemma accepted_request now malloc_ok m ip method path body rsize m' why :
  security_monitor_check_request now malloc_ok m ip (Some method) (Some path) (Some body) (length body) rsize
    = (m', SECMON_OK, why) →
  path_traversal_check (g_config m) = true → injection_scan_enabled (g_config m) = true →
  map tolower method ∈ http_methods ∧
  Forall (λ t, contains path t = false) traversal_spellings ∧
  (rate_limit_enabled (g_config m) = true →
   (rate_step (g_config m) now (g_rate_buckets m) (default (lit "unknown") ip)).2
     <= rate_limit_per_window (g_config m)) ∧
  (malloc_ok = true → Forall (λ p, contains (scanned_text body) p = false ∨ body = []) g_injection_patterns).
Proof.
  intros H Hp Hi. unfold security_monitor_check_request in H. rewrite Hp, Hi in H. cbn [andb] in H.
  destruct (method_allowed (Some method)) eqn:Em; [|done]. cbn [negb] in H.
  destruct (path_has_traversal (Some path)) eqn:Et; [done|].
  destruct ((0 <? max_body_size (g_config m)) && _); [done|].
  split_and!; [| by apply no_traversal | |].
  - by apply allowed_methods.
  - intros Hr. rewrite Hr in H. destruct (rate_step _ _ _ _) as [bs c]. cbn [andb] in H.
    destruct (rate_limit_per_window (g_config m) <? c) eqn:Ec; [done|]. bsplit. done.
  - intros ->. destruct (if rate_limit_enabled (g_config m) then _ else _) as [bs c].
    destruct (rate_limit_enabled (g_config m) && _); [done|].
    destruct ((0 <? length body)%nat && contains_injection_pattern true (Some body) (length body)) eqn:E; [done|].
    apply Forall_forall. intros p Hin. destruct body as [|b body]; [by right|]. left.
    rewrite (proj2 (Nat.ltb_lt 0 (length (b :: body)))), andb_true_l in E by (rewrite length_cons; lia).
    destruct (contains (scanned_text (b :: body)) p) eqn:Ep; [|done].
    rewrite (proj2 (injection_scan_iff (b :: body))) in E; [done|]. split; [done|].
    apply Exists_exists. eauto.
Qed.

(** C31: with the path and injection checks on, a request that passes has an
    allowed method, a path without any of the five spellings of "..", a rate
    count within the limit and, when the scan got memory for its copy, a body
    whose scanned text contains none of the injection patterns. *)
Theorem accepted_request_sound now malloc_ok m ip method path body rsize m' why :
  security_monitor_check_request now malloc_ok m ip (Some method) (Some path) (Some body) (length body) rsize
    = (m', SECMON_OK, why) →
  path_traversal_check (g_config m) = true → injection_scan_enabled (g_config m) = true →
  map tolower method ∈ http_methods ∧
  Forall (λ t, contains path t = false) traversal_spellings ∧
  (rate_limit_enabled (g_config m) = true →
   (rate_step (g_config m) now (g_rate_buckets m) (default (lit "unknown") ip)).2
     <= rate_limit_per_window (g_config m)) ∧
  (malloc_ok = true → Forall (λ p, contains (scanned_text body) p = false ∨ body = []) g_injection_patterns).
Proof. apply accepted_request. Qed.

Definition secmon_ex : secmon_t :=
  (security_monitor_init (mk_secmon security_monitor_config_defaults [] 0 0 false []) None).1.

Lemma accepted_request_sound_witness :
  map tolower (lit "POST") ∈ http_methods ∧
  Forall (λ t, contains (lit "/chat") t = false) traversal_spellings ∧
  (rate_limit_enabled (g_config secmon_ex) = true →
   (rate_step (g_config secmon_ex) 1000 (g_rate_buckets secmon_ex) (default (lit "unknown") None)).2
     <= rate_limit_per_window (g_config secmon_ex)) ∧
  (true = true → Forall (λ p, contains (scanned_text (lit "Hello")) p = false ∨ lit "Hello" = []) g_injection_patterns).
Proof.
  eapply (accepted_request_sound 1000 true secmon_ex None (lit "POST") (lit "/chat") (lit "Hello") 128);
    [vm_compute; reflexivity | by_eval | by_eval].
Defined.

(** The scan reads the body as a C string: whatever follows a NUL byte is
    passed through, although the length of the body covers it. *)
Theorem injection_scan_stops_at_nul malloc_ok before after :
  existsb (contains (map tolower before)) g_injection_patterns = false →
  wf_cstr before → (length before < Z.to_nat 16384)%nat →
  contains_injection_pattern malloc_ok (Some (before ++ 0 :: after))
    (length (before ++ 0 :: after)) = false.
Proof.
  intros Hb Hwf Hlen. destruct malloc_ok; [|unfold contains_injection_pattern; by case_if; try case_if].
  apply not_true_iff_false. intros [_ H]%injection_scan_iff.
  rewrite <- not_true_iff_false in Hb. apply Hb. apply existsb_exists. apply Exists_exists in H as (p & Hp & Hc).
  exists p. split; [by apply list_elem_of_In|].
  assert (scanned_text (before ++ 0 :: after) = map tolower before) as <-; [|done].
  unfold scanned_text. rewrite take_app_ge by lia.
  destruct (Z.to_nat 16384 - length before)%nat as [|k] eqn:Ek; [lia|]. cbn [take]. rewrite map_app. cbn [map].
  apply until_nul_app. apply Forall_map. eapply Forall_impl; [exact Hwf|]. intros b Hbyte.
  cbn beta in *. unfold tolower. case_if; lia.
Qed.

Lemma injection_scan_stops_at_nul_witness :
  contains_injection_pattern true (Some (lit "hi" ++ 0 :: lit "ignore previous")) 18 = false.
Proof.
  apply (injection_scan_stops_at_nul true (lit "hi") (lit "ignore previous"));
    [by_eval | repeat constructor; lia | vm_compute; lia].
Defined.

(** ** Rate limiting *)

(** The table after a list of requests, each an address and a time. *)
Definition rate_all (cfg : security_monitor_config_t) (bs : list rate_bucket_t) (rs : list (cstr * Z)) :
    list rate_bucket_t :=
  foldl (λ bs '(ip, now), (rate_step cfg now bs ip).1) bs rs.

Definition own_requests (ip : cstr) (rs : list (cstr * Z)) : nat :=
  length (List.filter (λ r, streq r.1 ip) rs).

Lemma hash_ip_lt ip : (hash_ip ip < RATE_BUCKETS)%nat.
Proof.
  unfold hash_ip, RATE_BUCKETS. destruct ip as [s|]; [|lia].
  pose proof (Z.mod_pos_bound (foldl (λ h c, u32 (31 * h + c)) 0 s) 256). lia.
Qed.

Lemma rate_step_length cfg now bs ip : length (rate_step cfg now bs ip).1 = length bs.
Proof. unfold rate_step. destruct (bs !! _); [|done]. cbn [fst]. by rewrite length_insert. Qed.

(** A request of the tracked client inside its window. *)
Lemma rate_step_own cfg now bs ip c wend :
  bs !! hash_ip (Some ip) = Some (mk_bucket ip c wend) → now < wend → 0 <= c → c + 1 < 2 ^ 32 →
  rate_step cfg now bs ip = (<[hash_ip (Some ip) := mk_bucket ip (c + 1) wend]> bs, c + 1).
Proof.
  intros Hb Hn Hc H32. unfold rate_step. rewrite Hb. cbn [b_window_end b_ip b_count].
  rewrite (proj2 (Z.leb_gt _ _)) by done.
  assert (strneq (SECMON_IP_MAX - 1) ip ip = true) as -> by (by apply bool_decide_eq_true).
  cbn [orb negb b_count b_ip b_window_end]. by rewrite wrap_small by lia.
Qed.

(** A request that hashes elsewhere leaves the client's bucket alone. *)
Lemma rate_step_other cfg now bs ip ip' :
  hash_ip (Some ip') ≠ hash_ip (Some ip) →
  (rate_step cfg now bs ip').1 !! hash_ip (Some ip) = bs !! hash_ip (Some ip).
Proof.
  intros Hne. unfold rate_step. destruct (bs !! hash_ip (Some ip')); [|done]. cbn [fst].
  by rewrite list_lookup_insert_ne.
Qed.

Lemma rate_all_tracked cfg rs bs ip c wend :
  length bs = RATE_BUCKETS → bs !! hash_ip (Some ip) = Some (mk_bucket ip c wend) → 0 <= c →
  Forall (λ '(ip', now), now < wend ∧ (hash_ip (Some ip') = hash_ip (Some ip) → ip' = ip)) rs →
  c + Z.of_nat (length rs) < 2 ^ 32 →
  rate_all cfg bs rs !! hash_ip (Some ip) = Some (mk_bucket ip (c + Z.of_nat (own_requests ip rs)) wend) ∧
  length (rate_all cfg bs rs) = RATE_BUCKETS.
Proof.
  revert bs c. induction rs as [|[ip' now] rs IH]; intros bs c Hl Hb Hc Hrs H32.
  { split; [|done]. cbn. by rewrite Z.add_0_r. }
  apply Forall_cons in Hrs as [[Hn Hcol] Hrs]. rewrite length_cons in H32.
  unfold rate_all. cbn [foldl]. fold (rate_all cfg (rate_step cfg now bs ip').1 rs).
  unfold own_requests. cbn [List.filter fst]. destruct (streq ip' ip) eqn:E.
  - apply streq_true in E. subst ip'. rewrite (rate_step_own cfg now bs ip c wend) by (done || lia). cbn [fst].
    destruct (IH (<[hash_ip (Some ip) := mk_bucket ip (c + 1) wend]> bs) (c + 1)) as [IH1 IH2].
    + by rewrite length_insert.
    + apply list_lookup_insert_eq. rewrite Hl. apply hash_ip_lt.
    + lia.
    + done.
    + lia.
    + split; [|done]. rewrite IH1. unfold own_requests. cbn [length]. do 2 f_equal. lia.
  - apply IH; [by rewrite rate_step_length | | done | done | lia].
    rewrite rate_step_other; [done|]. intros Heq. apply Hcol in Heq. subst. by rewrite streq_refl in E.
Qed.

(** Within a client's window, and as long as no other address shares its
    bucket, the filter counts that client's requests exactly, whatever other
    clients do in between: after [n] further requests the next one is counted
    as number [c + n + 1], so it is refused exactly when that exceeds the
    limit. *)
Theorem rate_limit_counts cfg rs bs ip c wend now :
  length bs = RATE_BUCKETS → bs !! hash_ip (Some ip) = Some (mk_bucket ip c wend) → 0 <= c →
  Forall (λ '(ip', now), now < wend ∧ (hash_ip (Some ip') = hash_ip (Some ip) → ip' = ip)) rs →
  c + Z.of_nat (length rs) + 1 < 2 ^ 32 → now < wend →
  (rate_step cfg now (rate_all cfg bs rs) ip).2 = c + Z.of_nat (own_requests ip rs) + 1.
Proof.
  intros Hl Hb Hc Hrs H32 Hn.
  destruct (rate_all_tracked cfg rs bs ip c wend Hl Hb Hc Hrs ltac:(lia)) as [Hall _].
  assert (own_requests ip rs ≤ length rs)%nat by (apply List.filter_length_le).
  by rewrite (rate_step_own _ _ _ _ _ _ Hall) by (done || lia).
Qed.

Lemma rate_limit_counts_witness :
  let ip := lit "10.0.0.1" in
  let bs := (rate_step security_monitor_config_defaults 1000 (replicate 256 (mk_bucket [] 0 0)) ip).1 in
  (rate_step security_monitor_config_defaults 1030
     (rate_all security_monitor_config_defaults bs [(ip, 1001); (lit "10.0.0.2", 1002); (ip, 1003)]) ip).2
  = 1 + 2 + 1.
Proof.
  intros ip bs.
  refine (eq_trans (rate_limit_counts security_monitor_config_defaults
    [(ip, 1001); (lit "10.0.0.2", 1002); (ip, 1003)] bs ip 1 1060 1030 _ _ _ _ _ _) _);
    [by_eval | by_eval | lia | | by_eval | lia | by_eval].
  repeat constructor; try lia; try done; by vm_compute.
Defined.

(** Two addresses of one bucket displace each other: as long as they
    alternate, each request starts a new count, and neither is ever limited. *)
Theorem colliding_clients_unlimited cfg bs ip1 ip2 times :
  length bs = RATE_BUCKETS → hash_ip (Some ip1) = hash_ip (Some ip2) →
  take 63 ip1 ≠ take 63 ip2 → 
  (∃ b, bs !! hash_ip (Some ip1) = Some b ∧ take 63 (b_ip b) = take 63 ip2) →
  let turn := λ '(bs, seen) now,
    let '(bs, c1) := rate_step cfg now bs ip1 in
    let '(bs, c2) := rate_step cfg now bs ip2 in (bs, seen ++ [c1; c2]) in
  (foldl turn (bs, []) times).2 = concat (replicate (length times) [1; 1]).
Proof.
  intros Hl Hh Hne Hb turn.
  assert (∀ now bs, length bs = RATE_BUCKETS →
    (∃ b, bs !! hash_ip (Some ip1) = Some b ∧ take 63 (b_ip b) = take 63 ip2) →
    ∃ bs', ∀ seen, turn (bs, seen) now = (bs', seen ++ [1; 1]) ∧ length bs' = RATE_BUCKETS ∧
      (∃ b, bs' !! hash_ip (Some ip1) = Some b ∧ take 63 (b_ip b) = take 63 ip2)) as Hturn.
  { clear bs Hl Hb. intros now bs Hl (b & Hb & Hip). unfold turn, rate_step. rewrite Hb.
    replace (strneq (SECMON_IP_MAX - 1) (b_ip b) ip1) with false
      by (symmetry; apply bool_decide_eq_false; change (SECMON_IP_MAX - 1)%nat with 63%nat; congruence).
    rewrite orb_true_r. cbn [b_count b_ip b_window_end]. rewrite <- Hh.
    pose proof (hash_ip_lt (Some ip1)).
    rewrite list_lookup_insert_eq by lia. cbn [b_count b_ip b_window_end].
    assert (strneq (SECMON_IP_MAX - 1) (snprintf_s SECMON_IP_MAX ip1) ip2 = false) as ->.
    { apply bool_decide_eq_false. unfold snprintf_s. change (SECMON_IP_MAX - 1)%nat with 63%nat.
      by rewrite take_take, Nat.min_id. }
    rewrite orb_true_r. cbn [b_count b_ip b_window_end]. eexists. intros seen.
    split; [done|]. rewrite !length_insert. split; [done|].
    eexists. split; [by apply list_lookup_insert_eq; rewrite length_insert; lia|]. cbn [b_ip].
    unfold snprintf_s. change (SECMON_IP_MAX - 1)%nat with 63%nat. by rewrite take_take, Nat.min_id. }
  assert (∀ seen, (foldl turn (bs, seen) times).2 = seen ++ concat (replicate (length times) [1; 1])) as H;
    [|by rewrite H].
  revert bs Hl Hb. induction times as [|t times IH]; intros bs Hl Hb seen.
  { cbn. by rewrite app_nil_r. }
  cbn [foldl length replicate concat]. destruct (Hturn t bs Hl Hb) as (bs' & Hs).
  destruct (Hs seen) as (-> & Hl' & Hb'). rewrite IH by done. by rewrite <- app_assoc.
Qed.

Lemma colliding_clients_unlimited_witness :
  let cfg := security_monitor_config_defaults in
  let bs := (rate_step cfg 999 (replicate 256 (mk_bucket [] 0 0)) (lit "10.0.1.95")).1 in
  let turn := λ '(bs, seen) now,
    let '(bs, c1) := rate_step cfg now bs (lit "10.0.0.1") in
    let '(bs, c2) := rate_step cfg now bs (lit "10.0.1.95") in (bs, seen ++ [c1; c2]) in
  (foldl turn (bs, []) (replicate 200 1000)).2 = concat (replicate 200 [1; 1]).
Proof.
  intros cfg bs.
  apply (colliding_clients_unlimited cfg bs (lit "10.0.0.1") (lit "10.0.1.95") (replicate 200 1000));
    [by_eval | by_eval | by vm_compute |].
  eexists. split; by_eval.
Defined.

(** ** Outbound URLs *)

(** What may follow a host in a URL: an optional port and an optional path. *)
Definition is_port (port : cstr) : Prop :=
  port = [] ∨ ∃ d, port = ch ":" :: d ∧ Forall (λ x, x ≠ ch "/") d.
Definition is_path (path : cstr) : Prop := path = [] ∨ ∃ r, path = ch "/" :: r.

Definition host_chars (host : cstr) : Prop := Forall (λ x, x ≠ ch "/" ∧ x ≠ ch ":") host.

Lemma url_host_extracts scheme host port path :
  scheme ∈ [lit "http"; lit "https"] → host_chars host → is_port port → is_path path →
  (length host + length port < 256)%nat →
  url_host (scheme ++ lit "://" ++ host ++ port ++ path) = Some host.
Proof.
  intros Hsch Hh Hport Hpath Hlen. unfold url_host.
  assert (strstr (scheme ++ lit "://" ++ host ++ port ++ path) (lit "://") = Some (length scheme)) as ->.
  { apply elem_of_cons in Hsch as [->|Hsch]; [done|]. apply elem_of_cons in Hsch as [->|Hsch]; [done|].
    by apply elem_of_nil in Hsch. }
  rewrite drop_app_add, (drop_app_length' (lit "://")) by done.
  assert (Forall (λ x, x ≠ ch "/") (host ++ port)) as Hns.
  { apply Forall_app. split; [eapply Forall_impl; [exact Hh|]; by intros ? []|].
    destruct Hport as [->|(d & -> & Hd)]; [constructor|]. by constructor. }
  assert (match strchr (host ++ port ++ path) (ch "/") with Some k => k | None => length (host ++ port ++ path) end
          = length (host ++ port)) as ->.
  { rewrite app_assoc, strchr_app_not by done.
    destruct Hpath as [->|(r & ->)]; cbn [strchr fmap option_fmap option_map]; [by rewrite app_nil_r|]. rewrite Z.eqb_refl. apply Nat.add_0_r. }
  rewrite (proj2 (Nat.leb_gt 256 (length (host ++ port)))) by (rewrite length_app; lia).
  rewrite app_assoc, take_app_length. f_equal.
  rewrite strchr_app_not by (eapply Forall_impl; [exact Hh|]; by intros ? []).
  destruct Hport as [->|(d & -> & Hd)]; cbn [strchr fmap option_fmap option_map].
  - by rewrite app_nil_r.
  - rewrite Z.eqb_refl. cbn [fmap option_fmap option_map]. by rewrite Nat.add_0_r, take_app_length.
Qed.

Lemma url_scheme scheme rest :
  scheme ∈ [lit "http"; lit "https"] →
  security_monitor_url_safe_for_fetch (Some (scheme ++ lit "://" ++ rest)) =
  match url_host (scheme ++ lit "://" ++ rest) with
  | None => false
  | Some host => negb (host_is_private_or_metadata host)
  end.
Proof.
  intros Hsch. apply elem_of_cons in Hsch as [->|Hsch].
  - unfold security_monitor_url_safe_for_fetch.
    replace (strneq 7 (lit "http" ++ lit "://" ++ rest) (lit "http://")) with true; [done|].
    symmetry. by apply bool_decide_eq_true.
  - apply elem_of_cons in Hsch as [->|Hsch]; [|by apply elem_of_nil in Hsch].
    unfold security_monitor_url_safe_for_fetch.
    replace (strneq 8 (lit "https" ++ lit "://" ++ rest) (lit "https://")) with true;
      [by rewrite andb_false_r|].
    symmetry. by apply bool_decide_eq_true.
Qed.

(** The SSRF filter looks at the right host.  For a URL made of the
    scheme http or https, a host without slash and colon, an optional port
    and an optional path, the answer is that the host is not in the list of
    private and metadata hosts. *)
Theorem url_filter_exact scheme host port path :
  scheme ∈ [lit "http"; lit "https"] → host_chars host → is_port port → is_path path →
  (length host + length port < 256)%nat →
  security_monitor_url_safe_for_fetch (Some (scheme ++ lit "://" ++ host ++ port ++ path)) =
  negb (host_is_private_or_metadata host).
Proof.
  intros Hsch Hh Hport Hpath Hlen. rewrite url_scheme by done. by rewrite url_host_extracts.
Qed.

Lemma url_filter_exact_witness :
  security_monitor_url_safe_for_fetch
    (Some (lit "http" ++ lit "://" ++ lit "10.1.2.3" ++ lit ":8080" ++ lit "/admin")) =
  negb (host_is_private_or_metadata (lit "10.1.2.3")).
Proof.
  apply url_filter_exact;
    [apply (bool_decide_unpack _); by vm_compute | repeat constructor; done | right | right | vm_compute; lia].
  - exists (lit "8080"). split; [done | repeat constructor; done].
  - by exists (lit "admin").
Defined.

(** A user name in front of the host hides it from the filter: with any
    user name that is not itself on the list, a URL to a loopback or metadata
    address counts as safe, although the part after the "@" is the host that
    is contacted.  The private range 172.20.0.0 to 172.31.255.255 counts as
    safe as well. *)
Theorem url_filter_bypassed path :
  is_path path →
  security_monitor_url_safe_for_fetch (Some (lit "http" ++ lit "://" ++ lit "x@127.0.0.1" ++ [] ++ path)) = true ∧
  security_monitor_url_safe_for_fetch (Some (lit "http" ++ lit "://" ++ lit "x@169.254.169.254" ++ [] ++ path)) = true ∧
  Forall (λ n, security_monitor_url_safe_for_fetch
                 (Some (lit "http" ++ lit "://" ++ (lit "172." ++ fmt_dec n ++ lit ".0.1") ++ [] ++ path)) = true)
    (seqZ 20 12).
Proof.
  intros Hpath.
  assert (∀ host, host_chars host → (length host < 256)%nat → host_is_private_or_metadata host = false →
    security_monitor_url_safe_for_fetch (Some (lit "http" ++ lit "://" ++ host ++ [] ++ path)) = true) as H.
  { intros host Hh Hl Hp. rewrite url_scheme by constructor.
    rewrite url_host_extracts; [by rewrite Hp | constructor | done | by left | done | simpl; lia]. }
  split_and!; [apply H; [repeat constructor; done | vm_compute; lia | by_eval]..|].
  apply Forall_forall. intros n Hn. apply H.
  - apply (bool_decide_unpack _). revert n Hn. apply Forall_forall. apply (bool_decide_unpack _). by vm_compute.
  - revert n Hn. apply Forall_forall. apply (bool_decide_unpack _). by vm_compute.
  - revert n Hn. apply Forall_forall. apply (bool_decide_unpack _). by vm_compute.
Qed.

Lemma url_filter_bypassed_witness :
  security_monitor_url_safe_for_fetch
    (Some (lit "http" ++ lit "://" ++ lit "x@127.0.0.1" ++ [] ++ lit "/latest")) = true.
Proof. refine (proj1 (url_filter_bypassed (lit "/latest") _)). right. by exists (lit "latest"). Defined.
