(* ===== verification/Auth.v ===== *)
(** * The authentication profiles of [src/auth/auth.c]

    Up to sixteen named profiles, one of which may be active.  A file is the
    text it contains. *)
From S2P Require Import Prelude KeyFile.

Inductive auth_provider_t :=
  | AUTH_PROVIDER_OPENAI | AUTH_PROVIDER_ANTHROPIC | AUTH_PROVIDER_OPENROUTER
  | AUTH_PROVIDER_GEMINI | AUTH_PROVIDER_GLM | AUTH_PROVIDER_OLLAMA | AUTH_PROVIDER_LLAMACPP
  | AUTH_PROVIDER_NONE.

#[export] Instance auth_provider_eq_dec : EqDecision auth_provider_t.
Proof. solve_decision. Defined.

Definition MAX_AUTH_PROFILES : nat := 16.
Definition MAX_PROFILE_NAME : nat := 64.
Definition MAX_API_KEY : nat := 256.

Record auth_profile_t := mk_profile {
  name : cstr;
  provider : auth_provider_t;
  api_key : cstr;
  endpoint : cstr;
  active : bool;
}.

Record auth_t := mk_auth {
  profiles : list auth_profile_t;
  profile_count : nat;
  active_profile : cstr;
}.

Definition profile_zero : auth_profile_t := mk_profile [] AUTH_PROVIDER_OPENAI [] [] false.
Definition auth_init : auth_t := mk_auth (replicate MAX_AUTH_PROFILES profile_zero) 0 [].
Definition auth_free (a : auth_t) : auth_t := auth_init.

(** The table [provider_names], in the order of the enumeration. *)
Definition provider_names : list (auth_provider_t * cstr) :=
  [ (AUTH_PROVIDER_OPENAI, lit "openai"); (AUTH_PROVIDER_ANTHROPIC, lit "anthropic");
    (AUTH_PROVIDER_OPENROUTER, lit "openrouter"); (AUTH_PROVIDER_GEMINI, lit "gemini");
    (AUTH_PROVIDER_GLM, lit "glm"); (AUTH_PROVIDER_OLLAMA, lit "ollama");
    (AUTH_PROVIDER_LLAMACPP, lit "llamacpp") ].

Definition auth_provider_name (p : auth_provider_t) : cstr :=
  match List.find (λ x, bool_decide (x.1 = p)) provider_names with
  | Some x => x.2
  | None => lit "unknown"
  end.

Definition auth_provider_from_name (n : option cstr) : auth_provider_t :=
  match n with
  | None => AUTH_PROVIDER_NONE
  | Some n =>
      match List.find (λ x, streq n x.2) provider_names with
      | Some x => x.1
      | None => AUTH_PROVIDER_NONE
      end
  end.

Definition auth_add_profile (a : auth_t) (n : option cstr) (p : auth_provider_t) (key : option cstr)
    : auth_t * Z :=
  match n, key with
  | Some n, Some key =>
      if (MAX_AUTH_PROFILES <=? profile_count a)%nat then (a, -1)
      else
        (mk_auth
           (<[profile_count a := mk_profile (snprintf_s MAX_PROFILE_NAME n) p
                                   (snprintf_s MAX_API_KEY key) [] false]> (profiles a))
           (S (profile_count a)) (active_profile a), 0)
  | _, _ => (a, -1)
  end.

Definition listed (a : auth_t) : list auth_profile_t := take (profile_count a) (profiles a).

Definition auth_remove_profile (a : auth_t) (n : option cstr) : auth_t * Z :=
  match n with
  | None => (a, -1)
  | Some n =>
      match find_idx (λ p, streq (name p) n) (listed a) with
      | Some i =>
          (mk_auth (shift_left i (profile_count a) (profiles a)) (profile_count a - 1) (active_profile a), 0)
      | None => (a, -1)
      end
  end.

Definition set_flag (b : bool) (p : auth_profile_t) : auth_profile_t :=
  mk_profile (name p) (provider p) (api_key p) (endpoint p) b.

(** One round of the loop over the live profiles. *)
Definition activate_slot (n : cstr) (i : nat) (a : auth_t) : auth_t :=
  match profiles a !! i with
  | None => a
  | Some p =>
      let hit := streq (name p) n in
      mk_auth (<[i := set_flag hit p]> (profiles a)) (profile_count a)
        (if hit then snprintf_s MAX_PROFILE_NAME n else active_profile a)
  end.

Definition auth_set_active (a : auth_t) (n : option cstr) : auth_t * Z :=
  match n with
  | None => (a, -1)
  | Some n =>
      (for_ 0 (profile_count a) (activate_slot n) a, 0)
  end.

Definition auth_get_active (a : auth_t) : option auth_profile_t := List.find active (listed a).

Definition auth_list_profiles (a : auth_t) : list auth_profile_t * nat := (profiles a, profile_count a).

(** ** Files *)

Definition profile_lines (p : auth_profile_t) : list cstr :=
  [ lit "[profile]"; lit "name = " ++ name p; lit "provider = " ++ auth_provider_name (provider p);
    lit "api_key = " ++ api_key p ]
  ++ (match endpoint p with [] => [] | e => [lit "endpoint = " ++ e] end)
  ++ [ [] ].

Definition save_lines (a : auth_t) : list cstr :=
  [ lit "# DoctorClaw Auth Profiles"; []; lit "active_profile: " ++ active_profile a; [] ]
  ++ concat (map profile_lines (listed a)).

(** The text [auth_save] leaves in the file. *)
Definition auth_save (a : auth_t) : cstr := concat (map line (save_lines a)).

(** The locals of [auth_load]. *)
Record load_t := mk_load {
  l_active : cstr;
  l_name : cstr;
  l_provider : auth_provider_t;
  l_key : cstr;
  l_endpoint : cstr;
}.

Definition load_line (s : load_t) (l : cstr) : load_t :=
  match l with
  | 35 :: _ | 10 :: _ => s
  | _ =>
      match scan_key_value l with
      | None => s
      | Some (key, val) =>
          let k := skip_while (λ b, b =? 32) key in
          if streq k (lit "active_profile") then
            mk_load (snprintf_s MAX_PROFILE_NAME val) (l_name s) (l_provider s) (l_key s) (l_endpoint s)
          else if streq k (lit "name") then
            mk_load (l_active s) (snprintf_s MAX_PROFILE_NAME val) (l_provider s) (l_key s) (l_endpoint s)
          else if streq k (lit "provider") then
            mk_load (l_active s) (l_name s) (auth_provider_from_name (Some val)) (l_key s) (l_endpoint s)
          else if streq k (lit "api_key") then
            mk_load (l_active s) (l_name s) (l_provider s) (snprintf_s MAX_API_KEY val) (l_endpoint s)
          else if streq k (lit "endpoint") then
            mk_load (l_active s) (l_name s) (l_provider s) (l_key s) (snprintf_s 512 val)
          else s
      end
  end.

(** [file] is the text of the file, [None] when it cannot be opened. *)
Definition auth_load (a : auth_t) (file : option cstr) : auth_t * Z :=
  match file with
  | None => (a, -1)
  | Some text =>
      let s := foldl load_line (mk_load (active_profile a) [] AUTH_PROVIDER_NONE [] [])
                 (fgets_lines (Z.to_nat 1024) text) in
      let a := mk_auth (profiles a) (profile_count a) (l_active s) in
      match l_name s, l_key s with
      | _ :: _, _ :: _ =>
          let a := (auth_add_profile a (Some (l_name s)) (l_provider s) (Some (l_key s))).1 in
          let a :=
            match l_endpoint s with
            | [] => a
            | e =>
                match profiles a !! (profile_count a - 1)%nat with
                | None => a
                | Some p =>
                    mk_auth (<[(profile_count a - 1)%nat :=
                                 mk_profile (name p) (provider p) (api_key p) (snprintf_s 512 e) (active p)]>
                               (profiles a)) (profile_count a) (active_profile a)
                end
            end in
          ((auth_set_active a (Some (active_profile a))).1, 0)
      | _, _ => (a, 0)
      end
  end.

(** ** Properties *)

Record auth_inv (a : auth_t) : Prop := {
  inv_profiles : length (profiles a) = MAX_AUTH_PROFILES;
  inv_count : (profile_count a ≤ MAX_AUTH_PROFILES)%nat;
}.

(** Provider names round trip, the missing provider included. *)
Theorem provider_name_roundtrip p : auth_provider_from_name (Some (auth_provider_name p)) = p.
Proof. by destruct p; vm_compute. Qed.

Lemma set_active_loop n a k :
  auth_inv a → (k ≤ profile_count a)%nat →
  let a' := for_ 0 k (activate_slot n) a in
  take k (profiles a') = map (λ p, set_flag (streq (name p) n) p) (take k (profiles a)) ∧
  drop k (profiles a') = drop k (profiles a) ∧
  length (profiles a') = MAX_AUTH_PROFILES ∧ profile_count a' = profile_count a ∧
  active_profile a' =
    (if existsb (λ p, streq (name p) n) (take k (profiles a)) then snprintf_s MAX_PROFILE_NAME n
     else active_profile a).
Proof.
  intros [Hl Hc]. induction k as [|k IH]; intros Hk.
  { rewrite for_nil. by rewrite !take_0. }
  rewrite for_snoc by lia. destruct IH as (Ht & Hd & Hl' & Hc' & Ha'); [lia|].
  set (a' := for_ 0 k _ a) in *. cbv zeta.
  destruct (lookup_lt_is_Some_2 (profiles a) k) as [p Hp]; [lia|].
  assert (profiles a' !! k = Some p) as Hp'.
  { rewrite <- Hp. replace k with (k + 0)%nat by lia. by rewrite <- !lookup_drop, Hd. }
  unfold activate_slot at 1 2 3 4 5. rewrite Hp'. cbn [profiles profile_count active_profile].
  rewrite (take_S_r _ _ _ Hp), map_app, existsb_app. cbn [map existsb].
  split_and!; [| |by rewrite length_insert|done|].
  - rewrite take_insert_push by lia. by rewrite Ht.
  - rewrite drop_insert_lt by lia.
    apply (f_equal (drop 1)) in Hd. rewrite !drop_drop in Hd. by replace (S k) with (k + 1)%nat by lia.
  - rewrite Ha', orb_false_r. destruct (streq (name p) n); [by rewrite orb_true_r|]. by rewrite orb_false_r.
Qed.

(** Activation marks exactly the profiles with the given name; the active
    profile then is the first of them, and there is none when the name is
    unknown. *)
Theorem set_active_exact a n :
  auth_inv a →
  listed (auth_set_active a (Some n)).1 = map (λ p, set_flag (streq (name p) n) p) (listed a) ∧
  auth_get_active (auth_set_active a (Some n)).1 =
    set_flag true <$> List.find (λ p, streq (name p) n) (listed a).
Proof.
  intros Hinv. destruct (set_active_loop n a (profile_count a) Hinv (Nat.le_refl _)) as (Ht & _ & _ & Hc & _).
  assert (listed (auth_set_active a (Some n)).1 = map (λ p, set_flag (streq (name p) n) p) (listed a)) as H.
  { unfold listed at 1, auth_set_active. cbn [fst]. rewrite Hc. exact Ht. }
  split; [done|]. unfold auth_get_active. rewrite H. clear.
  induction (listed a) as [|p ps IH]; [done|]. cbn [map List.find].
  change (active (set_flag (streq (name p) n) p)) with (streq (name p) n).
  destruct (streq (name p) n); [done | exact IH].
Qed.

Definition auth_ex : auth_t :=
  (auth_add_profile (auth_add_profile auth_init (Some (lit "work")) AUTH_PROVIDER_GLM (Some (lit "k1"))).1
     (Some (lit "home")) AUTH_PROVIDER_OPENAI (Some (lit "k2"))).1.

Lemma auth_ex_inv : auth_inv auth_ex.
Proof. split; vm_compute; (done || lia). Qed.

Lemma set_active_exact_witness :
  listed (auth_set_active auth_ex (Some (lit "home"))).1 =
    map (λ p, set_flag (streq (name p) (lit "home")) p) (listed auth_ex) ∧
  auth_get_active (auth_set_active auth_ex (Some (lit "home"))).1 =
    set_flag true <$> List.find (λ p, streq (name p) (lit "home")) (listed auth_ex).
Proof. apply (set_active_exact auth_ex (lit "home") auth_ex_inv). Defined.

(** ** What is saved is not loaded *)

(** The fields of a profile fit their arrays and contain no newline. *)
Definition clean_profile (p : auth_profile_t) : Prop :=
  no_newline (name p) ∧ (length (name p) < 64)%nat ∧
  no_newline (api_key p) ∧ (length (api_key p) < 256)%nat ∧
  no_newline (endpoint p) ∧ (length (endpoint p) < 512)%nat.

Definition clean (a : auth_t) : Prop :=
  no_newline (active_profile a) ∧ (length (active_profile a) < 64)%nat ∧ Forall clean_profile (listed a).

Definition keywords : list cstr :=
  [lit "active_profile"; lit "name"; lit "provider"; lit "api_key"; lit "endpoint"].

Lemma load_line_reads_only : reads_only load_line keywords.
Proof.
  intros s l Hk. unfold load_line. destruct (scan_key_value l) as [[key v]|]; [|by repeat case_match].
  unfold keywords, skip_blanks in Hk. rewrite !Forall_cons in Hk. destruct Hk as (H1 & H2 & H3 & H4 & H5 & _).
  rewrite !(proj2 (streq_false _ _)) by done. by repeat case_match.
Qed.

Lemma skip_while_prefix b s k :
  skip_while (λ c, c =? 32) (b :: s) = k → b ≠ 32 → k = b :: s.
Proof. cbn. intros <- Hb. by rewrite (proj2 (Z.eqb_neq _ _)). Qed.

(** The line with the active profile has a colon where the loader expects the
    end of the key. *)
Lemma ignored_active a : ignored load_line (lit "active_profile: " ++ a).
Proof.
  intros s. apply load_line_reads_only.
  destruct (scan_key_value (line (lit "active_profile: " ++ a))) as [[key v]|] eqn:E; [|done].
  assert (∃ t, key = lit "active_profile: " ++ t) as [t ->].
  { unfold scan_key_value in E.
    assert (take_while (λ b, negb (b =? ch "=")) (line (lit "active_profile: " ++ a)) =
            lit "active_profile: " ++ take_while (λ b, negb (b =? ch "=")) (line a)) as Htw by done.
    rewrite Htw in E. exists (take (127 - 16) (take_while (λ b, negb (b =? ch "=")) (line a))).
    rewrite take_app_ge in E by (vm_compute; lia). change (length (lit "active_profile: ")) with 16%nat in E.
    destruct (lit "active_profile: " ++ take (127 - 16) _) as [|b bs] eqn:Eb; [done|].
    by repeat case_match; simplify_eq. }
  repeat constructor; intros H; apply (f_equal (take 15)) in H; by vm_compute in H.
Qed.

Lemma ignored_field key rest : key ∈ keywords → ignored load_line (key ++ lit " = " ++ rest).
Proof.
  intros Hk. apply (ignored_spaced _ keywords); [apply load_line_reads_only|].
  revert key Hk. apply Forall_forall. apply (bool_decide_unpack _). by vm_compute.
Qed.

Lemma save_lines_ignored a : Forall (ignored load_line) (save_lines a).
Proof.
  unfold save_lines. apply Forall_app. split.
  - repeat apply Forall_cons_2; [by intros s | by intros s | apply ignored_active | by intros s | constructor].
  - apply Forall_concat, Forall_map, Forall_forall. intros p _. unfold profile_lines.
    apply Forall_app. split; [|apply Forall_app; split].
    + repeat apply Forall_cons_2; [by intros s | apply (ignored_field (lit "name")) | apply (ignored_field (lit "provider"))
        | apply (ignored_field (lit "api_key")) | constructor]; apply (bool_decide_unpack _); by vm_compute.
    + destruct (endpoint p); [constructor|]. constructor; [|constructor].
      apply (ignored_field (lit "endpoint")). apply (bool_decide_unpack _). by vm_compute.
    + apply Forall_cons_2; [by intros s | constructor].
Qed.

Lemma provider_name_clean p : no_newline (auth_provider_name p) ∧ (length (auth_provider_name p) < 16)%nat.
Proof. destruct p; split; try (vm_compute; lia); repeat constructor; done. Qed.

Lemma save_lines_fit a : clean a → Forall fits (save_lines a).
Proof.
  intros (Ha & Hal & Hps). unfold save_lines. apply Forall_app. split.
  - repeat apply Forall_cons_2; try (by apply fits_lit); [|constructor]. apply fits_app; (done || lia).
  - apply Forall_concat, Forall_map. eapply Forall_impl; [exact Hps|]. intros p (Hn & Hnl & Hk & Hkl & He & Hel).
    destruct (provider_name_clean (provider p)) as [Hp Hpl]. unfold profile_lines.
    apply Forall_app. split; [|apply Forall_app; split].
    + repeat apply Forall_cons_2; try (by apply fits_lit); try apply fits_app; try done; try lia.
    + destruct (endpoint p) eqn:E; [constructor|]. rewrite <- E in *. constructor; [|constructor].
      by apply fits_app.
    + constructor; [by apply fits_lit | constructor].
Qed.

(** Saving and loading do not round trip.  Whatever the profiles, a file
    written by [auth_save] is read back without error and without effect: the
    keys in it end in a blank or a colon and are never recognised. *)
Theorem saved_profiles_are_not_loaded a b :
  clean a → auth_load b (Some (auth_save a)) = (b, 0).
Proof.
  intros Hc. unfold auth_load, auth_save.
  rewrite loads_nothing by (by apply save_lines_fit || apply save_lines_ignored). cbn. by destruct b.
Qed.

Lemma saved_profiles_are_not_loaded_witness :
  auth_load auth_init (Some (auth_save auth_ex)) = (auth_init, 0).
Proof.
  apply saved_profiles_are_not_loaded.
  split_and!; [constructor | vm_compute; lia |].
  apply (bool_decide_unpack _). by vm_compute.
Defined.
