(* ===== verification/Skills.v ===== *)
(** * The skills of [src/skills/skills.c]

    The table of 64 skills, their execution in a child process and the file
    they are written to and read from, whose scanner has the same format as
    that of [auth.c]. *)
From S2P Require Import Prelude KeyFile.

Inductive skill_type_t := SKILL_TYPE_TOOL | SKILL_TYPE_ACTION | SKILL_TYPE_PIPELINE | SKILL_TYPE_NONE.

Definition MAX_SKILL_NAME : nat := 64.
Definition MAX_SKILL_DESC : nat := 256.
Definition MAX_SKILL_PATH : nat := 512.
Definition MAX_SKILLS : nat := 64.

Record skill_t := mk_skill {
  sk_name : cstr;
  sk_description : cstr;
  sk_path : cstr;
  sk_type : skill_type_t;
  sk_enabled : bool;
  sk_entry_point : cstr;
  sk_args : cstr;
}.

Definition skill_zero : skill_t := mk_skill [] [] [] SKILL_TYPE_TOOL false [] [].

Record skills_manager_t := mk_skills { skills : list skill_t; skill_count : nat }.

Definition skills_manager_init : skills_manager_t := mk_skills (replicate MAX_SKILLS skill_zero) 0.
Definition skills_manager_free (g : skills_manager_t) : skills_manager_t := skills_manager_init.

(** ** Types *)

Definition skill_type_name (t : skill_type_t) : cstr :=
  match t with
  | SKILL_TYPE_TOOL => lit "tool"
  | SKILL_TYPE_ACTION => lit "action"
  | SKILL_TYPE_PIPELINE => lit "pipeline"
  | SKILL_TYPE_NONE => lit "unknown"
  end.

Definition skill_type_from_name (name : option cstr) : skill_type_t :=
  match name with
  | None => SKILL_TYPE_NONE
  | Some n =>
      if streq n (lit "tool") then SKILL_TYPE_TOOL
      else if streq n (lit "action") then SKILL_TYPE_ACTION
      else if streq n (lit "pipeline") then SKILL_TYPE_PIPELINE
      else SKILL_TYPE_NONE
  end.

(** ** The table *)

Definition skills_add (g : skills_manager_t) (name : cstr) (description : option cstr) (type : skill_type_t) (path : cstr)
    : skills_manager_t * Z :=
  if (MAX_SKILLS <=? skill_count g)%nat then (g, -1)
  else
    let old := nth (skill_count g) (skills g) skill_zero in
    let s :=
      mk_skill (snprintf_s MAX_SKILL_NAME name)
        (match description with Some d => snprintf_s MAX_SKILL_DESC d | None => sk_description old end)
        (snprintf_s MAX_SKILL_PATH path) type true [] [] in
    (mk_skills (<[skill_count g := s]> (skills g)) (S (skill_count g)), 0).

Definition skills_list (g : skills_manager_t) : list skill_t := take (skill_count g) (skills g).

Definition is_skill (name : cstr) (s : skill_t) : bool := streq (sk_name s) name.

Definition skills_remove (g : skills_manager_t) (name : cstr) : skills_manager_t * Z :=
  match find_idx (is_skill name) (skills_list g) with
  | Some i => (mk_skills (shift_left i (skill_count g) (skills g)) (skill_count g - 1), 0)
  | None => (g, -1)
  end.

Definition with_enabled (e : bool) (s : skill_t) : skill_t :=
  mk_skill (sk_name s) (sk_description s) (sk_path s) (sk_type s) e (sk_entry_point s) (sk_args s).

Definition set_skill (e : bool) (g : skills_manager_t) (name : cstr) : skills_manager_t * Z :=
  match find_idx (is_skill name) (skills_list g) with
  | Some i => (mk_skills (alter (with_enabled e) i (skills g)) (skill_count g), 0)
  | None => (g, -1)
  end.

Definition skills_enable : skills_manager_t → cstr → skills_manager_t * Z := set_skill true.
Definition skills_disable : skills_manager_t → cstr → skills_manager_t * Z := set_skill false.

Definition skills_get (g : skills_manager_t) (name : cstr) : option skill_t := List.find (is_skill name) (skills_list g).

(** [run path args] is the wait status of the child, [None] when there is
    none.  The result is the code and the text of the answer. *)
Definition skills_execute (run : cstr → option cstr → option Z) (g : skills_manager_t) (name : cstr) (args : option cstr)
    (output_size : nat) : Z * option cstr :=
  match skills_get g name with
  | None => (-1, None)
  | Some s =>
      if negb (sk_enabled s) then (-1, None)
      else
        match run (sk_path s) args with
        | None => (-1, None)
        | Some status =>
            let exit := Z.land (Z.shiftr status 8) 255 in
            (0, Some (snprintf_s output_size
              (if (Z.land status 127 =? 0) && (exit =? 0)
               then lit "Skill '" ++ name ++ lit "' executed successfully"
               else lit "Skill '" ++ name ++ lit "' failed with exit code " ++ fmt_dec exit)))
        end
  end.

(** ** The file *)

Definition skill_lines (s : skill_t) : list cstr :=
  [ lit "[skill]"; lit "name = " ++ sk_name s; lit "description = " ++ sk_description s;
    lit "type = " ++ skill_type_name (sk_type s); lit "path = " ++ sk_path s;
    lit "enabled = " ++ (if sk_enabled s then lit "true" else lit "false"); [] ].

Definition skill_file_lines (g : skills_manager_t) : list cstr :=
  [lit "# DoctorClaw Skills"; []] ++ concat (map skill_lines (skills_list g)).

Definition skills_save (g : skills_manager_t) : cstr := concat (map line (skill_file_lines g)).

(** The locals of [skills_load]. *)
Record current := mk_current {
  c_name : cstr;
  c_desc : cstr;
  c_path : cstr;
  c_type : skill_type_t;
  c_enabled : bool;
}.

Definition current_zero : current := mk_current [] [] [] SKILL_TYPE_TOOL true.

Definition read_setting (c : current) (l : cstr) : current :=
  match l with
  | 35 :: _ | 10 :: _ | 91 :: _ => c
  | _ =>
      match scan_key_value l with
      | None => c
      | Some (key, val) =>
          let k := skip_while (λ b, b =? 32) key in
          if streq k (lit "name") then mk_current (snprintf_s MAX_SKILL_NAME val) (c_desc c) (c_path c) (c_type c) (c_enabled c)
          else if streq k (lit "description") then
            mk_current (c_name c) (snprintf_s MAX_SKILL_DESC val) (c_path c) (c_type c) (c_enabled c)
          else if streq k (lit "type") then
            mk_current (c_name c) (c_desc c) (c_path c) (skill_type_from_name (Some val)) (c_enabled c)
          else if streq k (lit "path") then
            mk_current (c_name c) (c_desc c) (snprintf_s MAX_SKILL_PATH val) (c_type c) (c_enabled c)
          else if streq k (lit "enabled") then
            mk_current (c_name c) (c_desc c) (c_path c) (c_type c) (streq val (lit "true"))
          else c
      end
  end.

Definition skills_load (g : skills_manager_t) (file : option cstr) : skills_manager_t * Z :=
  match file with
  | None => (g, -1)
  | Some text =>
      let c := foldl read_setting current_zero (fgets_lines (Z.to_nat 1024) text) in
      match c_name c, c_path c with
      | _ :: _, _ :: _ =>
          let g := (skills_add g (c_name c) (Some (c_desc c)) (c_type c) (c_path c)).1 in
          (if c_enabled c then g else (skills_disable g (c_name c)).1, 0)
      | _, _ => (g, 0)
      end
  end.

(** ** The table as a list *)

Definition skills_ok (g : skills_manager_t) : Prop :=
  length (skills g) = MAX_SKILLS ∧ (skill_count g ≤ MAX_SKILLS)%nat.

(** On the list of skills the operations are what their names say: a skill is
    added at the end if there is room, the first one of a name is removed or
    switched, and nothing else changes. *)
Theorem skills_table_refines g name description type path e : skills_ok g →
  (let '(g', rc) := skills_add g name description type path in
   skills_ok g' ∧
   (rc = -1 ∧ g' = g ∧ length (skills_list g) = MAX_SKILLS ∨
    rc = 0 ∧ ∃ s, skills_list g' = skills_list g ++ [s] ∧ sk_name s = snprintf_s MAX_SKILL_NAME name ∧
      sk_path s = snprintf_s MAX_SKILL_PATH path ∧ sk_type s = type ∧ sk_enabled s = true)) ∧
  (let '(g', rc) := skills_remove g name in
   skills_ok g' ∧
   match find_idx (is_skill name) (skills_list g) with
   | Some i => rc = 0 ∧ skills_list g' = delete i (skills_list g)
   | None => rc = -1 ∧ g' = g
   end) ∧
  (let '(g', rc) := set_skill e g name in
   skills_ok g' ∧
   match find_idx (is_skill name) (skills_list g) with
   | Some i => rc = 0 ∧ skills_list g' = alter (with_enabled e) i (skills_list g)
   | None => rc = -1 ∧ g' = g
   end).
Proof.
  intros Hok. pose proof Hok as [Hl Hc]. split_and!.
  - unfold skills_add. destruct (Nat.leb_spec MAX_SKILLS (skill_count g)) as [Hf|Hf].
    + split; [done|]. left. split_and!; [done..|]. unfold skills_list. rewrite length_take. lia.
    + split; [split; cbn [skills skill_count]; [by rewrite length_insert|done]|]. right. split; [done|].
      eexists. unfold skills_list. cbn [skills skill_count]. rewrite take_insert_push by lia. by split_and!.
  - unfold skills_remove. destruct (find_idx _ _) as [i|] eqn:Ei; [|done].
    pose proof (find_idx_lt _ _ _ Ei) as Hi. unfold skills_list in *. rewrite length_take in Hi.
    split; [split; cbn [skills skill_count]; [by rewrite shift_left_length|lia]|]. split; [done|].
    cbn [skills skill_count]. by apply shift_left_delete; lia.
  - unfold set_skill. destruct (find_idx _ _) as [i|] eqn:Ei; [|done].
    pose proof (find_idx_lt _ _ _ Ei) as Hi. unfold skills_list in *. rewrite length_take in Hi.
    split; [split; [by etrans; [apply length_alter|]|done]|]. split; [done|].
    cbn [skills skill_count]. apply take_alter_lt. lia.
Qed.

(** A skill that is switched off or unknown runs nothing. *)
Lemma disabled_skill_refused run g name args n :
  match skills_get g name with Some s => sk_enabled s = false | None => True end →
  skills_execute run g name args n = (-1, None).
Proof. unfold skills_execute. destruct (skills_get g name) as [s|]; [intros ->|]; done. Qed.

(** ** The file is written and never read *)

Definition skill_keywords : list cstr := map lit ["name"%string; "description"%string; "type"%string; "path"%string; "enabled"%string].

Lemma read_setting_reads_only : reads_only read_setting skill_keywords.
Proof.
  intros c l Hk. unfold read_setting. destruct (scan_key_value l) as [[key v]|]; [|by repeat case_match].
  unfold skill_keywords, skip_blanks in Hk. cbn [map] in Hk. rewrite !Forall_cons in Hk.
  destruct Hk as (N1 & N2 & N3 & N4 & N5 & _). rewrite !(proj2 (streq_false _ _)) by done. by repeat case_match.
Qed.

Lemma skipped_spaced key rest :
  key ∈ skill_keywords → ignored read_setting (key ++ lit " = " ++ rest).
Proof.
  intros Hk. apply (ignored_spaced _ skill_keywords); [apply read_setting_reads_only|].
  revert key Hk. apply Forall_forall. apply (bool_decide_unpack _). by vm_compute.
Qed.

(** The texts of a skill are single lines. *)
Definition plain_skill (s : skill_t) : Prop :=
  Forall (λ t, no_newline t ∧ (length t < 512)%nat) [sk_name s; sk_description s; sk_path s].

Lemma skill_file_skipped g : Forall (ignored read_setting) (skill_file_lines g).
Proof.
  apply Forall_app. split; [repeat constructor; by intros c|].
  apply Forall_concat, Forall_map, Forall_forall. intros s _. unfold skill_lines.
  repeat apply Forall_cons_2; try (by intros c); try constructor;
    [apply (skipped_spaced (lit "name"))|apply (skipped_spaced (lit "description"))|apply (skipped_spaced (lit "type"))
    |apply (skipped_spaced (lit "path"))|apply (skipped_spaced (lit "enabled"))];
    apply (bool_decide_unpack _); by vm_compute.
Qed.

Lemma skill_file_fits g : Forall plain_skill (skills_list g) → Forall fits (skill_file_lines g).
Proof.
  intros Hp. apply Forall_app. split; [do 2 (apply Forall_cons_2; [by apply fits_lit|]); constructor|].
  apply Forall_concat, Forall_map. eapply Forall_impl; [exact Hp|]. intros s Hs. unfold plain_skill in Hs.
  rewrite !Forall_cons in Hs. destruct Hs as ([? ?] & [? ?] & [? ?] & _). unfold skill_lines.
  repeat apply Forall_cons_2; try apply Forall_nil_2; try (by apply fits_lit); try (by apply fits_app).
  - destruct (sk_type s); by apply fits_lit.
  - destruct (sk_enabled s); by apply fits_lit.
Qed.

(** A file that [skills_save] writes has no effect when it is read: every key
    in it ends in a blank and is not recognised. *)
Theorem saved_skills_not_loaded g h :
  Forall plain_skill (skills_list g) → skills_load h (Some (skills_save g)) = (h, 0).
Proof.
  intros Hp. unfold skills_load, skills_save. by rewrite loads_nothing by (by apply skill_file_fits || apply skill_file_skipped).
Qed.

(** A file without these blanks is read, but only its last skill counts. *)
Example last_skill_loaded :
  (sk_name <$> skills_list (skills_load skills_manager_init (Some (concat (map line
     [lit "name=a"; lit "path=/bin/a"; lit "[skill]"; lit "name=b"; lit "path=/bin/b"])))).1) = [lit "b"].
Proof. by_eval. Qed.

Definition skills_ex : skills_manager_t :=
  (skills_add skills_manager_init (lit "greet") (Some (lit "says hello")) SKILL_TYPE_TOOL (lit "/bin/greet")).1.

Lemma saved_skills_not_loaded_witness :
  skills_load skills_manager_init (Some (skills_save skills_ex)) = (skills_manager_init, 0).
Proof. apply saved_skills_not_loaded. apply (bool_decide_unpack _). by vm_compute. Defined.

Lemma skills_table_refines_witness :
  skills_list (skills_remove skills_ex (lit "greet")).1 = delete 0%nat (skills_list skills_ex).
Proof.
  destruct (skills_table_refines skills_ex (lit "greet") None SKILL_TYPE_TOOL [] true) as (_ & H & _);
    [split; vm_compute; [reflexivity|lia]|]. by destruct H as (_ & _ & H).
Defined.
