(* ===== verification/Service.v ===== *)
(** * The service manager of [src/service/service.c]

    A table of 32 services, each run as one child process, and the file the
    table is written to and read from.  What the manager asks of the system
    is recorded as a list of actions; the result of [fork] and the status that
    [waitpid] delivers are arguments. *)
From S2P Require Import Prelude KeyFile.

Inductive service_state_t :=
  SERVICE_STATE_UNKNOWN | SERVICE_STATE_STOPPED | SERVICE_STATE_STARTING |
  SERVICE_STATE_RUNNING | SERVICE_STATE_STOPPING | SERVICE_STATE_FAILED.

#[global] Instance service_state_eq_dec : EqDecision service_state_t.
Proof. solve_decision. Defined.

Definition MAX_SERVICE_NAME : nat := 64.
Definition MAX_SERVICE_PATH : nat := 512.
Definition SERVICE_ARGS : nat := Z.to_nat 1024.
Definition MAX_SERVICES : nat := 32.

Record service_t := mk_service {
  sv_name : cstr;
  sv_executable : cstr;
  sv_args : cstr;
  sv_enabled : bool;
  sv_state : service_state_t;
  sv_pid : Z;
  sv_started_at : Z;
  sv_last_exit : Z;
  sv_exit_code : Z;
}.

Definition service_zero : service_t := mk_service [] [] [] false SERVICE_STATE_UNKNOWN 0 0 0 0.

Record service_manager_t := mk_services { services : list service_t; service_count : nat }.

Definition service_manager_init : service_manager_t := mk_services (replicate MAX_SERVICES service_zero) 0.

Definition service_state_name (s : service_state_t) : cstr :=
  match s with
  | SERVICE_STATE_UNKNOWN => lit "unknown"
  | SERVICE_STATE_STOPPED => lit "stopped"
  | SERVICE_STATE_STARTING => lit "starting"
  | SERVICE_STATE_RUNNING => lit "running"
  | SERVICE_STATE_STOPPING => lit "stopping"
  | SERVICE_STATE_FAILED => lit "failed"
  end.

(** ** The table *)

Definition service_list (g : service_manager_t) : list service_t := take (service_count g) (services g).

Definition is_service (name : cstr) (s : service_t) : bool := streq (sv_name s) name.
Definition is_running (s : service_t) : bool := bool_decide (sv_state s = SERVICE_STATE_RUNNING).

Definition service_register (g : service_manager_t) (name executable : cstr) (args : option cstr)
    : service_manager_t * Z :=
  if (MAX_SERVICES <=? service_count g)%nat then (g, -1)
  else
    let old := nth (service_count g) (services g) service_zero in
    let s :=
      mk_service (snprintf_s MAX_SERVICE_NAME name) (snprintf_s MAX_SERVICE_PATH executable)
        (match args with Some a => snprintf_s SERVICE_ARGS a | None => sv_args old end)
        false SERVICE_STATE_STOPPED 0 0 0 0 in
    (mk_services (<[service_count g := s]> (services g)) (S (service_count g)), 0).

(** [svc->f = ...] for the service at [i]. *)
Definition update (i : nat) (f : service_t → service_t) (g : service_manager_t) : service_manager_t :=
  mk_services (alter f i (services g)) (service_count g).

Definition with_enabled (e : bool) (s : service_t) : service_t :=
  mk_service (sv_name s) (sv_executable s) (sv_args s) e (sv_state s) (sv_pid s) (sv_started_at s) (sv_last_exit s)
    (sv_exit_code s).

Definition set_service (e : bool) (g : service_manager_t) (name : cstr) : service_manager_t * Z :=
  match find_idx (is_service name) (service_list g) with
  | Some i => (update i (with_enabled e) g, 0)
  | None => (g, -1)
  end.

Definition service_enable : service_manager_t → cstr → service_manager_t * Z := set_service true.
Definition service_disable : service_manager_t → cstr → service_manager_t * Z := set_service false.

Definition service_status (g : service_manager_t) (name : cstr) : option service_t :=
  List.find (is_service name) (service_list g).

(** ** Processes *)

(** What the manager asks of the system, and the end of a program, which comes
    when the program likes, with or without a signal. *)
Inductive act :=
  | Exec (pid : Z) (executable : cstr) (args : option cstr)
  | Kill (pid : Z)
  | Wait (pid : Z)
  | End (pid : Z).

Definition service_unregister (g : service_manager_t) (name : cstr) : service_manager_t * Z * list act :=
  match find_idx (is_service name) (service_list g) with
  | None => (g, -1, [])
  | Some i =>
      let s := nth i (services g) service_zero in
      (mk_services (shift_left i (service_count g) (services g)) (service_count g - 1), 0,
       if is_running s then [Kill (sv_pid s)] else [])
  end.

Definition with_state (st : service_state_t) (s : service_t) : service_t :=
  mk_service (sv_name s) (sv_executable s) (sv_args s) (sv_enabled s) st (sv_pid s) (sv_started_at s) (sv_last_exit s)
    (sv_exit_code s).

Definition started (pid now : Z) (s : service_t) : service_t :=
  mk_service (sv_name s) (sv_executable s) (sv_args s) (sv_enabled s) SERVICE_STATE_RUNNING pid (u64 now)
    (sv_last_exit s) (sv_exit_code s).

(** [fork] is what the parent gets. *)
Definition service_start (fork now : Z) (g : service_manager_t) (name : cstr) : service_manager_t * Z * list act :=
  match find_idx (is_service name) (service_list g) with
  | None => (g, -1, [])
  | Some i =>
      let s := nth i (services g) service_zero in
      if is_running s then (g, 0, [])
      else if fork <? 0 then (update i (with_state SERVICE_STATE_FAILED) g, -1, [])
      else
        (update i (started fork now) g, 0,
         [Exec fork (sv_executable s) (match sv_args s with [] => None | a => Some a end)])
  end.

(** [WIFEXITED(status) ? WEXITSTATUS(status) : -1] *)
Definition exit_code_of (status : Z) : Z :=
  if Z.land status 127 =? 0 then Z.land (Z.shiftr status 8) 255 else -1.

Definition stopped (status now : Z) (s : service_t) : service_t :=
  mk_service (sv_name s) (sv_executable s) (sv_args s) (sv_enabled s) SERVICE_STATE_STOPPED 0 (sv_started_at s)
    (u64 now) (exit_code_of status).

(** [wait] is the status of the child with that number, [None] when [waitpid]
    fails and the code goes on with a status nothing has set. *)
Definition service_stop (wait : Z → option Z) (now : Z) (g : service_manager_t) (name : cstr)
    : option (service_manager_t * Z * list act) :=
  match find_idx (is_service name) (service_list g) with
  | None => Some (g, -1, [])
  | Some i =>
      let s := nth i (services g) service_zero in
      if negb (is_running s) then Some (g, 0, [])
      else
        status ← wait (sv_pid s);
        Some (update i (stopped status now) g, 0, [Kill (sv_pid s); Wait (sv_pid s)])
  end.

Definition service_restart (wait : Z → option Z) (fork now1 now2 : Z) (g : service_manager_t) (name : cstr)
    : option (service_manager_t * Z * list act) :=
  '(g, _, l1) ← service_stop wait now1 g name;
  let '(g, rc, l2) := service_start fork now2 g name in
  Some (g, rc, l1 ++ l2).

Definition service_manager_free (g : service_manager_t) : service_manager_t * list act :=
  (service_manager_init, map (λ s, Kill (sv_pid s)) (List.filter is_running (service_list g))).

(** ** The file *)

Definition service_lines (s : service_t) : list cstr :=
  [ lit "[service]"; lit "name = " ++ sv_name s; lit "executable = " ++ sv_executable s ] ++
  (match sv_args s with [] => [] | a => [lit "args = " ++ a] end) ++
  [ lit "enabled = " ++ (if sv_enabled s then lit "true" else lit "false"); [] ].

Definition service_file_lines (g : service_manager_t) : list cstr :=
  [lit "# DoctorClaw Services"; []] ++ concat (map service_lines (service_list g)).

Definition service_manager_save (g : service_manager_t) : cstr := concat (map line (service_file_lines g)).

(** The locals of [service_manager_load]. *)
Record current := mk_current { c_name : cstr; c_exec : cstr; c_args : cstr; c_enabled : bool }.

Definition current_zero : current := mk_current [] [] [] false.

Definition read_service (c : current) (l : cstr) : current :=
  match l with
  | 35 :: _ | 10 :: _ | 91 :: _ => c
  | _ =>
      match scan_key_value l with
      | None => c
      | Some (key, val) =>
          let k := skip_blanks key in
          if streq k (lit "name") then mk_current (snprintf_s MAX_SERVICE_NAME val) (c_exec c) (c_args c) (c_enabled c)
          else if streq k (lit "executable") then
            mk_current (c_name c) (snprintf_s MAX_SERVICE_PATH val) (c_args c) (c_enabled c)
          else if streq k (lit "args") then mk_current (c_name c) (c_exec c) (snprintf_s SERVICE_ARGS val) (c_enabled c)
          else if streq k (lit "enabled") then mk_current (c_name c) (c_exec c) (c_args c) (streq val (lit "true"))
          else c
      end
  end.

Definition service_manager_load (g : service_manager_t) (file : option cstr) : service_manager_t * Z :=
  match file with
  | None => (g, -1)
  | Some text =>
      let c := foldl read_service current_zero (fgets_lines (Z.to_nat 1024) text) in
      match c_name c, c_exec c with
      | _ :: _, _ :: _ =>
          let g := (service_register g (c_name c) (c_exec c) (match c_args c with [] => None | a => Some a end)).1 in
          (if c_enabled c then (service_enable g (c_name c)).1 else g, 0)
      | _, _ => (g, 0)
      end
  end.

(** ** The file is written and never read *)

Definition service_keywords : list cstr := map lit ["name"%string; "executable"%string; "args"%string; "enabled"%string].

Lemma read_service_reads_only : reads_only read_service service_keywords.
Proof.
  intros c l Hk. unfold read_service. destruct (scan_key_value l) as [[key v]|]; [|by repeat case_match].
  unfold service_keywords in Hk. cbn [map] in Hk. rewrite !Forall_cons in Hk.
  destruct Hk as (N1 & N2 & N3 & N4 & _). rewrite !(proj2 (streq_false _ _)) by done. by repeat case_match.
Qed.

Lemma ignored_service_field key rest :
  key ∈ service_keywords → ignored read_service (key ++ lit " = " ++ rest).
Proof.
  intros Hk. apply (ignored_spaced _ service_keywords); [apply read_service_reads_only|].
  revert key Hk. apply Forall_forall. apply (bool_decide_unpack _). by vm_compute.
Qed.

(** The texts of a service are single lines that are read in one piece. *)
Definition plain_service (s : service_t) : Prop :=
  Forall (λ t, no_newline t ∧ (length t < 512)%nat) [sv_name s; sv_executable s] ∧
  no_newline (sv_args s) ∧ (length (sv_args s) < 1000)%nat.

Lemma service_file_ignored g : Forall (ignored read_service) (service_file_lines g).
Proof.
  apply Forall_app. split; [repeat constructor; by intros c|].
  apply Forall_concat, Forall_map, Forall_forall. intros s _. unfold service_lines. destruct (sv_args s);
  repeat apply Forall_cons_2; try (by intros c); try constructor;
    (apply (ignored_service_field (lit "name")) || apply (ignored_service_field (lit "executable"))
    || apply (ignored_service_field (lit "args")) || apply (ignored_service_field (lit "enabled")));
    apply (bool_decide_unpack _); by vm_compute.
Qed.

Lemma service_file_fits g : Forall plain_service (service_list g) → Forall fits (service_file_lines g).
Proof.
  intros Hp. apply Forall_app. split; [do 2 (apply Forall_cons_2; [by apply fits_lit|]); constructor|].
  apply Forall_concat, Forall_map. eapply Forall_impl; [exact Hp|]. intros s (Hs & Ha & Hl).
  rewrite !Forall_cons in Hs. destruct Hs as ([? ?] & [? ?] & _). unfold service_lines.
  apply Forall_app. split; [|apply Forall_app; split].
  - repeat apply Forall_cons_2; try (by apply fits_lit); try (by apply fits_app). constructor.
  - destruct (sv_args s) eqn:E; [constructor|]. rewrite <- E in *. constructor; [|constructor].
    by apply (fits_app_room _ _ 1000).
  - repeat apply Forall_cons_2; try (by apply fits_lit); [|constructor]. destruct (sv_enabled s); by apply fits_lit.
Qed.

(** A saved table has no effect when it is read. *)
Theorem saved_services_not_loaded g h :
  Forall plain_service (service_list g) → service_manager_load h (Some (service_manager_save g)) = (h, 0).
Proof.
  intros Hp. unfold service_manager_load, service_manager_save.
  by rewrite loads_nothing by (by apply service_file_fits || apply service_file_ignored).
Qed.

(** ** Every child belongs to one service *)

(** Four sets of children, from the log of what happened: those started and not
    signalled since, those told to end and not waited for, those whose process
    number is taken because nobody has waited for them, and those whose program
    runs.  A signal does not end a program; [waitpid] returns after its end. *)
Definition own (l : list Z) (a : act) : list Z :=
  match a with Exec p _ _ => p :: l | Kill p => without p l | Wait _ | End _ => l end.
Definition told (l : list Z) (a : act) : list Z :=
  match a with Kill p => p :: l | Wait p => without p l | Exec _ _ _ | End _ => l end.
Definition taken (l : list Z) (a : act) : list Z :=
  match a with Exec p _ _ => p :: l | Wait p => without p l | Kill _ | End _ => l end.
Definition live (l : list Z) (a : act) : list Z :=
  match a with Exec p _ _ => p :: l | Wait p | End p => without p l | Kill _ => l end.

Definition owned (log : list act) : list Z := foldl own [] log.
Definition signalled (log : list act) : list Z := foldl told [] log.
Definition unreaped (log : list act) : list Z := foldl taken [] log.
Definition alive (log : list act) : list Z := foldl live [] log.

(** Every signal goes to a child that was not signalled before. *)
Fixpoint kills_own (l : list Z) (log : list act) : Prop :=
  match log with
  | [] => True
  | a :: log' => match a with Kill p => p ∈ l | _ => True end ∧ kills_own (own l a) log'
  end.

Record world := mk_world { w_mgr : service_manager_t; w_log : list act }.

Definition world_init : world := mk_world service_manager_init [].

Inductive op :=
  | Register (name executable : cstr) (args : option cstr)
  | Unregister (name : cstr)
  | Start (fork now : Z) (name : cstr)
  | Stop (wait : Z → option Z) (now : Z) (name : cstr)
  | Switch (e : bool) (name : cstr)
  | Load (file : option cstr)
  | Free
  | Ends (pid : Z).

Definition run (o : op) (w : world) : option world :=
  let g := w_mgr w in
  match o with
  | Register n e a => Some (mk_world (service_register g n e a).1 (w_log w))
  | Unregister n => let '(g, _, l) := service_unregister g n in Some (mk_world g (w_log w ++ l))
  | Start fork now n => let '(g, _, l) := service_start fork now g n in Some (mk_world g (w_log w ++ l))
  | Stop wait now n => '(g, _, l) ← service_stop wait now g n; Some (mk_world g (w_log w ++ l))
  | Switch e n => Some (mk_world (set_service e g n).1 (w_log w))
  | Load file => Some (mk_world (service_manager_load g file).1 (w_log w))
  | Free => let '(g, l) := service_manager_free g in Some (mk_world g (w_log w ++ l))
  | Ends p => Some (mk_world g (w_log w ++ [End p]))
  end.

(** What the system guarantees: a new child has a number that is not taken,
    waiting for a child that nobody has waited for succeeds (its program ends
    at last), and only a program that runs can end. *)
Definition os_ok (log : list act) (o : op) : Prop :=
  match o with
  | Start fork _ _ => fork < 0 ∨ 0 < fork ∧ fork ∉ unreaped log
  | Stop wait _ _ => ∀ p, p ∈ unreaped log → is_Some (wait p)
  | Ends p => p ∈ alive log
  | _ => True
  end.

Inductive reachable : world → Prop :=
  | reach_init : reachable world_init
  | reach_step w o w' : reachable w → os_ok (w_log w) o → run o w = Some w' → reachable w'.

(** Restarting is stopping and starting. *)
Lemma restart_steps wait fork now1 now2 g name log w1 w2 :
  run (Stop wait now1 name) (mk_world g log) = Some w1 → run (Start fork now2 name) w1 = Some w2 →
  ∃ rc l, service_restart wait fork now1 now2 g name = Some (w_mgr w2, rc, l) ∧ w_log w2 = log ++ l.
Proof.
  cbn [run w_mgr w_log]. unfold service_restart. destruct (service_stop wait now1 g name) as [[[g1 r1] l1]|]; [|done].
  cbn [mbind option_bind]. intros [= <-]. cbn [w_mgr w_log]. destruct (service_start fork now2 g1 name) as [[g2 r2] l2].
  intros [= <-]. eexists _, _. split; [done|]. cbn. by rewrite app_assoc.
Qed.

Definition pid_of (s : service_t) : list Z := if is_running s then [sv_pid s] else [].
Definition pids (l : list service_t) : list Z := concat (map pid_of l).

Lemma pids_split l i s : l !! i = Some s → pids l ≡ₚ pid_of s ++ pids (delete i l).
Proof.
  intros Hi. unfold pids. rewrite delete_take_drop. rewrite <- (take_drop_middle l i s Hi) at 1.
  rewrite !map_app, !concat_app. cbn [map concat]. rewrite !app_assoc. f_equiv. apply Permutation_app_comm.
Qed.

Lemma pids_alter f l i s : l !! i = Some s → pids (alter f i l) ≡ₚ pid_of (f s) ++ pids (delete i l).
Proof.
  intros Hi. rewrite (pids_split (alter f i l) i (f s)) by (by rewrite list_lookup_alter_eq, Hi).
  by rewrite !delete_take_drop, take_alter_ge, drop_alter_lt by lia.
Qed.

Lemma pids_filter l : map sv_pid (List.filter is_running l) = pids l.
Proof.
  induction l as [|s l IH]; [done|]. unfold pids in *. cbn [List.filter map concat]. rewrite <- IH. unfold pid_of.
  by destruct (is_running s).
Qed.

Lemma owned_app l1 l2 : owned (l1 ++ l2) = foldl own (owned l1) l2.
Proof. apply foldl_app. Qed.
Lemma unreaped_app l1 l2 : unreaped (l1 ++ l2) = foldl taken (unreaped l1) l2.
Proof. apply foldl_app. Qed.

Lemma alive_app l1 l2 : alive (l1 ++ l2) = foldl live (alive l1) l2.
Proof. apply foldl_app. Qed.
Lemma signalled_app l1 l2 : signalled (l1 ++ l2) = foldl told (signalled l1) l2.
Proof. apply foldl_app. Qed.

Lemma kills_own_app l log1 log2 :
  kills_own l (log1 ++ log2) ↔ kills_own l log1 ∧ kills_own (foldl own l log1) log2.
Proof. revert l. induction log1 as [|a log1 IH]; intros l; cbn; [tauto|]. rewrite IH. tauto. Qed.

(** The children of a log that were started and not signalled are those of a
    list; every signal went to one of them; a program that runs is one of them
    or was told to end. *)
Record log_ok (log : list act) (l : list Z) : Prop := {
  log_owned : owned log ≡ₚ l;
  log_nodup : NoDup (owned log);
  log_taken : owned log ⊆ unreaped log;
  log_kills : kills_own [] log;
  log_alive : ∀ p, p ∈ alive log → p ∈ owned log ∨ p ∈ signalled log;
}.

#[global] Instance log_ok_proper log : Proper ((≡ₚ) ==> iff) (log_ok log).
Proof. intros l1 l2 Hl. split; intros []; split; try done; by rewrite Hl || rewrite <- Hl. Qed.

#[local] Ltac log_cases :=
  split; rewrite ?owned_app, ?unreaped_app; [| | | |intros q; rewrite ?alive_app, ?owned_app, ?signalled_app];
  cbn [foldl own taken live told].

Lemma log_ok_kill log p l : log_ok log (p :: l) → log_ok (log ++ [Kill p]) l.
Proof.
  intros [Ho Hn Ht Hk Ha]. log_cases.
  - by apply without_perm.
  - by apply NoDup_without.
  - intros q [Hq _]%elem_of_without. by apply Ht.
  - apply kills_own_app. split; [done|]. split; [|done]. change (foldl own [] log) with (owned log).
    rewrite Ho. by left.
  - intros Hq. rewrite elem_of_without, elem_of_cons. destruct (decide (q = p)); [by auto|].
    destruct (Ha q Hq); auto.
Qed.

Lemma log_ok_wait log p l : log_ok log l → p ∉ l → log_ok (log ++ [Wait p]) l.
Proof.
  intros [Ho Hn Ht Hk Ha] Hp. log_cases; try done.
  - intros q Hq. apply elem_of_without. split; [by apply Ht|]. intros ->. apply Hp. by rewrite <- Ho.
  - apply kills_own_app. by split.
  - rewrite !elem_of_without. intros [Hq Hne]. destruct (Ha q Hq); auto.
Qed.

Lemma log_ok_exec log p e a l : log_ok log l → p ∉ unreaped log → log_ok (log ++ [Exec p e a]) (p :: l).
Proof.
  intros [Ho Hn Ht Hk Ha] Hp. log_cases.
  - by f_equiv.
  - constructor; [|done]. intros Hin. by apply Hp, Ht.
  - intros q. rewrite !elem_of_cons. intros [->|Hq]; [by left|right; by apply Ht].
  - apply kills_own_app. by split.
  - rewrite !elem_of_cons. intros [->|Hq]; [by auto|]. destruct (Ha q Hq); auto.
Qed.

Lemma log_ok_end log p l : log_ok log l → log_ok (log ++ [End p]) l.
Proof.
  intros [Ho Hn Ht Hk Ha]. log_cases; try done.
  - apply kills_own_app. by split.
  - rewrite elem_of_without. intros [Hq _]. by apply Ha.
Qed.

Lemma log_ok_kill_all log l : log_ok log l → log_ok (log ++ map Kill l) [].
Proof.
  revert log. induction l as [|p l IH]; intros log H; cbn [map]; [by rewrite app_nil_r|].
  rewrite cons_middle, app_assoc. by apply IH, log_ok_kill.
Qed.

(** The invariant: the children that were started and not signalled are those
    of the running services, one each. *)
Record inv (w : world) : Prop := {
  inv_rows : length (services (w_mgr w)) = MAX_SERVICES;
  inv_live : (service_count (w_mgr w) ≤ MAX_SERVICES)%nat;
  inv_log : log_ok (w_log w) (pids (service_list (w_mgr w)));
}.

(** A table change that keeps the rows and the pids keeps the invariant. *)
Lemma inv_same_pids w g :
  inv w → length (services g) = MAX_SERVICES → (service_count g ≤ MAX_SERVICES)%nat →
  pids (service_list g) ≡ₚ pids (service_list (w_mgr w)) → inv (mk_world g (w_log w)).
Proof. intros [] ? ? Hp. split; cbn [w_mgr w_log]; try done. by rewrite Hp. Qed.

Lemma update_list i f g :
  (i < service_count g)%nat → service_list (update i f g) = alter f i (service_list g).
Proof. intros Hi. by apply take_alter_lt. Qed.

Lemma found_row g name i :
  find_idx (is_service name) (service_list g) = Some i →
  ∃ s, service_list g !! i = Some s ∧ nth i (services g) service_zero = s ∧ (i < service_count g)%nat.
Proof.
  intros Hi. destruct (proj1 (find_idx_Some _ _ _) Hi) as [(s & Hs & _) _]. exists s.
  unfold service_list in *. apply lookup_take_Some in Hs as [Hs Hc]. split_and!; [|by apply nth_lookup_Some|done].
  by rewrite lookup_take_lt by done.
Qed.

Lemma register_inv w n e a : inv w → inv (mk_world (service_register (w_mgr w) n e a).1 (w_log w)).
Proof.
  intros Hw. pose proof (inv_rows w Hw) as Hl. unfold service_register. case_if; cbn [fst]; [by destruct w|].
  apply inv_same_pids; cbn [services service_count]; [done|by rewrite length_insert|done|].
  unfold service_list. cbn [services service_count]. rewrite take_insert_push by lia.
  unfold pids. rewrite map_app, concat_app. cbn. by rewrite app_nil_r.
Qed.

Lemma service_update_inv w i f s :
  inv w → service_list (w_mgr w) !! i = Some s → (i < service_count (w_mgr w))%nat → pid_of (f s) = pid_of s →
  inv (mk_world (update i f (w_mgr w)) (w_log w)).
Proof.
  intros Hw Hs Hi Hf. apply inv_same_pids; [done|..].
  - cbn. rewrite <- (inv_rows w Hw). apply length_alter.
  - apply (inv_live w Hw).
  - rewrite update_list by done. rewrite (pids_alter _ _ _ _ Hs), (pids_split _ _ _ Hs). by rewrite Hf.
Qed.

Lemma set_service_inv w e n : inv w → inv (mk_world (set_service e (w_mgr w) n).1 (w_log w)).
Proof.
  intros Hw. unfold set_service. destruct (find_idx _ _) as [i|] eqn:Ei; cbn [fst]; [|by destruct w].
  apply found_row in Ei as (s & Hs & _ & Hi). by eapply service_update_inv.
Qed.

(** A change of one row, with what it does to the children. *)
Lemma update_log_inv w i f s l :
  inv w → service_list (w_mgr w) !! i = Some s → (i < service_count (w_mgr w))%nat →
  (∀ rest, log_ok (w_log w) (pid_of s ++ rest) → log_ok (w_log w ++ l) (pid_of (f s) ++ rest)) →
  inv (mk_world (update i f (w_mgr w)) (w_log w ++ l)).
Proof.
  intros [Hr Hc Hl] Hs Hi Hf. split; cbn [w_mgr w_log].
  - rewrite <- Hr. apply length_alter.
  - done.
  - rewrite update_list, (pids_alter _ _ _ _ Hs) by done. apply Hf. by rewrite <- (pids_split _ _ _ Hs).
Qed.

Lemma start_inv w fork now n :
  inv w → (fork < 0 ∨ 0 < fork ∧ fork ∉ unreaped (w_log w)) →
  let '(g, _, l) := service_start fork now (w_mgr w) n in inv (mk_world g (w_log w ++ l)).
Proof.
  intros Hw Hf. unfold service_start. destruct (find_idx _ _) as [i|] eqn:Ei; [|rewrite app_nil_r; by destruct w].
  apply found_row in Ei as (s & Hs & -> & Hi).
  destruct (is_running s) eqn:Er; [rewrite app_nil_r; by destruct w|]. case_if.
  - apply (update_log_inv w i _ s); [done..|]. intros rest. unfold pid_of. rewrite Er, app_nil_r. done.
  - apply (update_log_inv w i _ s); [done..|]. intros rest. unfold pid_of. rewrite Er. intros H.
    apply log_ok_exec; [done|]. destruct Hf; [lia|tauto].
Qed.

Lemma stop_inv w wait now n :
  inv w → (∀ p, p ∈ unreaped (w_log w) → is_Some (wait p)) →
  ∃ g rc l, service_stop wait now (w_mgr w) n = Some (g, rc, l) ∧ inv (mk_world g (w_log w ++ l)).
Proof.
  intros Hw Hwait. unfold service_stop.
  destruct (find_idx _ _) as [i|] eqn:Ei; [|do 3 eexists; split; [done|]; rewrite app_nil_r; by destruct w].
  apply found_row in Ei as (s & Hs & -> & Hi).
  destruct (is_running s) eqn:Er; cbn [negb]; [|do 3 eexists; split; [done|]; rewrite app_nil_r; by destruct w].
  assert (sv_pid s ∈ owned (w_log w)) as Hp.
  { rewrite (log_owned _ _ (inv_log w Hw)), (pids_split _ _ _ Hs). unfold pid_of. rewrite Er. by left. }
  destruct (Hwait (sv_pid s)) as [status ->]; [by apply (log_taken _ _ (inv_log w Hw))|]. do 3 eexists. split; [done|].
  apply (update_log_inv w i _ s); [done..|]. intros rest H. unfold pid_of in H. rewrite Er in H. cbn [app] in H.
  change (pid_of (stopped status now s) ++ rest) with rest.
  change [Kill (sv_pid s); Wait (sv_pid s)] with ([Kill (sv_pid s)] ++ [Wait (sv_pid s)]).
  rewrite app_assoc. apply log_ok_wait; [by apply log_ok_kill|].
  pose proof (log_nodup _ _ H) as Hn. rewrite (log_owned _ _ H) in Hn. by apply NoDup_cons in Hn as [? _].
Qed.

Lemma unregister_inv w n :
  inv w → let '(g, _, l) := service_unregister (w_mgr w) n in inv (mk_world g (w_log w ++ l)).
Proof.
  intros Hw. pose proof Hw as [Hr Hc Hl]. unfold service_unregister.
  destruct (find_idx _ _) as [i|] eqn:Ei; [|rewrite app_nil_r; by destruct w].
  apply found_row in Ei as (s & Hs & -> & Hi). split; cbn [w_mgr w_log services service_count].
  - by rewrite shift_left_length.
  - lia.
  - unfold service_list. cbn [services service_count]. rewrite shift_left_delete by lia.
    change (take (service_count (w_mgr w)) (services (w_mgr w))) with (service_list (w_mgr w)).
    rewrite (pids_split _ _ _ Hs) in Hl. unfold pid_of in Hl.
    destruct (is_running s); [by apply log_ok_kill|]. by rewrite app_nil_r.
Qed.

Lemma load_inv w file : inv w → inv (mk_world (service_manager_load (w_mgr w) file).1 (w_log w)).
Proof.
  intros Hw. unfold service_manager_load. destruct file as [text|]; cbn [fst]; [|by destruct w].
  destruct (c_name _) eqn:En; [by destruct w|]. destruct (c_exec _) eqn:Ee; [by destruct w|].
  destruct (c_enabled _); cbn [fst]; [|by apply register_inv].
  apply (set_service_inv (mk_world _ (w_log w))). by apply register_inv.
Qed.

Lemma service_free_inv w : inv w → let '(g, l) := service_manager_free (w_mgr w) in inv (mk_world g (w_log w ++ l)).
Proof.
  intros Hw. unfold service_manager_free. split; cbn [w_mgr w_log]; [done|vm_compute; lia|].
  rewrite <- (map_map sv_pid Kill), pids_filter. by apply log_ok_kill_all, inv_log.
Qed.

Lemma step_inv w o : inv w → os_ok (w_log w) o → ∃ w', run o w = Some w' ∧ inv w'.
Proof.
  intros Hw Ho. destruct o as [n e a|n|fork now n|wait now n|e n|file| |p]; cbn [run os_ok] in *.
  - eexists. split; [done|]. by apply register_inv.
  - pose proof (unregister_inv w n Hw) as H. destruct (service_unregister _ _) as [[g rc] l]. by eexists.
  - pose proof (start_inv w fork now n Hw Ho) as H. destruct (service_start _ _ _ _) as [[g rc] l]. by eexists.
  - destruct (stop_inv w wait now n Hw Ho) as (g & rc & l & -> & H). by eexists.
  - eexists. split; [done|]. by apply set_service_inv.
  - eexists. split; [done|]. by apply load_inv.
  - pose proof (service_free_inv w Hw) as H. destruct (service_manager_free _) as [g l]. by eexists.
  - eexists. split; [done|]. destruct Hw as [Hr Hc Hl]. split; [done..|]. by apply log_ok_end.
Qed.

Lemma reachable_inv w : reachable w → inv w.
Proof.
  induction 1 as [|w o w' _ IH Ho Hr].
  - split; [done|vm_compute; lia|]. split; [done|constructor|done|done|]. by intros p Hp%elem_of_nil.
  - destruct (step_inv w o IH Ho) as (w2 & Hr2 & Hi). by simplify_eq.
Qed.


(** Releasing the manager leaves no child that was not told to end; it waits for
    none of them. *)
Theorem free_signals_all w w' : reachable w → run Free w = Some w' → owned (w_log w') = [].
Proof.
  intros Hw%reachable_inv Hr. pose proof (service_free_inv w Hw) as H. cbn [run] in Hr.
  destruct (service_manager_free (w_mgr w)) as [g l] eqn:E. simplify_eq. apply Permutation_nil_r.
  rewrite (log_owned _ _ (inv_log _ H)). unfold service_manager_free in E. by simplify_eq.
Qed.

(** A service whose program has ended by itself still counts as running: it is
    not started again, and nothing is asked of the system. *)
Theorem running_service_not_restarted fork now g name i :
  find_idx (is_service name) (service_list g) = Some i →
  is_running (nth i (services g) service_zero) = true → service_start fork now g name = (g, 0, []).
Proof. intros Hi Hr. unfold service_start. by rewrite Hi, Hr. Qed.

(** A service that starts runs its program with the one argument it has, and
    is found running under its number. *)
Theorem start_runs_service fork now g name i s :
  (service_count g ≤ length (services g))%nat → 0 <= fork →
  find_idx (is_service name) (service_list g) = Some i → service_list g !! i = Some s → is_running s = false →
  let '(g', rc, l) := service_start fork now g name in
  rc = 0 ∧ l = [Exec fork (sv_executable s) (match sv_args s with [] => None | a => Some a end)] ∧
  ∃ s', service_status g' name = Some s' ∧ sv_pid s' = fork ∧ sv_state s' = SERVICE_STATE_RUNNING ∧
        sv_executable s' = sv_executable s ∧ sv_started_at s' = u64 now.
Proof.
  intros Hc Hf Hi Hs Hr. unfold service_start. rewrite Hi.
  destruct (found_row g name i Hi) as (s0 & Hs0 & -> & Hlt). simplify_eq.
  rewrite Hr, (proj2 (Z.ltb_ge fork 0)) by lia. split_and!; [done..|]. exists (started fork now s). split; [|done].
  unfold service_status. rewrite update_list by done. clear Hlt Hc.
  revert i Hi Hs. induction (service_list g) as [|x l IH]; intros i Hi Hs; [done|].
  cbn [find_idx] in Hi. destruct (is_service name x) eqn:Ex.
  - simplify_eq. cbn in Hs. simplify_eq. cbn [alter list_alter List.find].
    change (is_service name (started fork now s)) with (is_service name s). by rewrite Ex.
  - destruct (find_idx (is_service name) l) as [j|] eqn:Ej; [|done]. cbn in Hi. simplify_eq.
    cbn [alter list_alter List.find]. rewrite Ex. by apply IH.
Qed.

(** ** Witnesses *)

Definition services_ex : service_manager_t := (service_register service_manager_init (lit "web") (lit "/bin/web") None).1.

Definition world_ex : world := mk_world (service_start 7 100 services_ex (lit "web")).1.1 [Exec 7 (lit "/bin/web") None].

Lemma world_ex_reachable : reachable world_ex.
Proof.
  apply (reach_step (mk_world services_ex []) (Start 7 100 (lit "web"))).
  - apply (reach_step world_init (Register (lit "web") (lit "/bin/web") None)); [constructor|done|by vm_compute].
  - right. split; [lia|]. apply not_elem_of_nil.
  - by vm_compute.
Defined.

(** The program has ended by itself, and the service still counts as running. *)
Definition world_ended : world := mk_world (w_mgr world_ex) (w_log world_ex ++ [End 7]).


Lemma free_signals_all_witness : ∃ w', run Free world_ex = Some w' ∧ owned (w_log w') = [].
Proof.
  destruct (run Free world_ex) as [w'|] eqn:E; [|done]. exists w'. split; [done|].
  exact (free_signals_all world_ex w' world_ex_reachable E).
Defined.

Lemma running_service_not_restarted_witness :
  service_start 8 300 (w_mgr world_ex) (lit "web") = (w_mgr world_ex, 0, []).
Proof. apply (running_service_not_restarted 8 300 (w_mgr world_ex) (lit "web") 0); by vm_compute. Defined.

Lemma start_runs_service_witness :
  (service_start 7 100 services_ex (lit "web")).2 = [Exec 7 (lit "/bin/web") None].
Proof.
  pose proof (start_runs_service 7 100 services_ex (lit "web") 0 (nth 0 (services services_ex) service_zero)
    ltac:(vm_compute; lia) ltac:(lia) ltac:(by vm_compute) ltac:(by vm_compute) ltac:(by vm_compute)) as H.
  destruct (service_start 7 100 services_ex (lit "web")) as [[g rc] l]. by destruct H as (_ & -> & _).
Defined.

Lemma saved_services_not_loaded_witness :
  service_manager_load service_manager_init (Some (service_manager_save services_ex)) = (service_manager_init, 0).
Proof. apply saved_services_not_loaded. apply (bool_decide_unpack _). by vm_compute. Defined.
