(* ===== verification/Cron.v ===== *)
(** * The task scheduler of [src/cron/cron.c]

    The table of at most 64 tasks is the list of the tasks in use: a slot is
    always written completely before it is counted.  [db] is the text of the
    task file, [writable] says whether it can be opened for writing.  Due
    tasks are run directly or pushed to the job queue of [JobCache]; a push
    to a full queue makes the scheduler wait, which is the result [None]. *)
From S2P Require Import Prelude Ring JobCache.

Definition MAX_TASKS : nat := 64.

Record cron_task_t := mk_task {
  t_id : cstr;
  t_expression : cstr;
  t_command : cstr;
  t_enabled : bool;
  t_last_run : Z;
  t_next_run : Z;
  t_run_count : Z;
  t_fail_count : Z;
}.

Record cron_t := mk_cron {
  g_tasks : list cron_task_t;
  db : option cstr;
  writable : bool;
}.

(** ** The task file *)

Definition bar : cstr := lit "|".

Definition task_line (t : cron_task_t) : cstr :=
  t_id t ++ bar ++ t_expression t ++ bar ++ t_command t ++ bar
  ++ fmt_dec (if t_enabled t then 1 else 0) ++ bar ++ fmt_dec (t_last_run t) ++ bar
  ++ fmt_dec (t_next_run t) ++ bar ++ fmt_dec (t_run_count t) ++ bar ++ fmt_dec (t_fail_count t) ++ [10].

Definition db_header : cstr :=
  lit "# Doctor Claw Cron Tasks" ++ [10]
  ++ lit "# Format: id|expression|command|enabled|last_run|next_run|run_count|fail_count" ++ [10].

Definition db_text (ts : list cron_task_t) : cstr := db_header ++ concat (map task_line ts).

Definition save_tasks_to_disk (c : cron_t) : cron_t :=
  mk_cron (g_tasks c) (if writable c then Some (db_text (g_tasks c)) else db c) (writable c).

(** [strtok]: the next token and the rest of the buffer. *)
Definition strtok (delim : Z → bool) (s : option cstr) : option cstr * option cstr :=
  match s with
  | None => (None, None)
  | Some s =>
      match skip_while delim s with
      | [] => (None, None)
      | s =>
          let tok := take_while (λ b, negb (delim b)) s in
          (Some tok, Some (drop (S (length tok)) s))
      end
  end.

(** The fields of an expression, each cut to 31 bytes. *)
Definition is_blank (b : Z) : bool := (b =? 32) || (b =? 9).

Definition calculate_next_run (expression : cstr) (from_time : Z) : Z :=
  let fields := map (snprintf_s 32) (take 6 (strtok_fields is_blank expression)) in
  if (length fields <? 5)%nat then from_time + 60
  else
    let f0 := nth 0 fields [] in
    let f1 := nth 1 fields [] in
    let interval := 60 in
    let interval :=
      if negb (streq f0 (lit "*")) && (0 <=? atoi f0) && (atoi f0 <=? 59) then 60 else interval in
    let interval :=
      if negb (streq f1 (lit "*")) && (0 <=? atoi f1) && (atoi f1 <=? 23) then 3600 else interval in
    (Z.quot from_time interval + 1) * interval.

Definition is_bar (b : Z) : bool := b =? ch "|".
Definition is_bar_nl (b : Z) : bool := (b =? ch "|") || (b =? 10).

Definition parse_task (now : Z) (line : cstr) : option cron_task_t :=
  let '(id, s) := strtok is_bar (Some line) in
  let '(expr, s) := strtok is_bar s in
  let '(cmd, s) := strtok is_bar s in
  let '(enabled, s) := strtok is_bar s in
  let '(last_run, s) := strtok is_bar s in
  let '(next_run, s) := strtok is_bar s in
  let '(run_count, s) := strtok is_bar s in
  let '(fail_count, s) := strtok is_bar_nl s in
  match id, expr, cmd with
  | Some id, Some expr, Some cmd =>
      let num {A} (f : cstr → A) (d : A) (o : option cstr) := match o with Some v => f v | None => d end in
      let next := num atol (now + 60) next_run in
      let expr := snprintf_s 64 expr in
      Some (mk_task (snprintf_s 64 id) expr (snprintf_s 512 cmd)
              (match enabled with Some v => atoi v =? 1 | None => false end)
              (num atol 0 last_run)
              (if next <? now then calculate_next_run expr now else next)
              (num atoi 0 run_count) (num atoi 0 fail_count))
  | _, _, _ => None
  end.

Fixpoint load_lines (now : Z) (ts : list cron_task_t) (lines : list cstr) : list cron_task_t :=
  match lines with
  | [] => ts
  | l :: lines' =>
      if (length ts <? MAX_TASKS)%nat then
        match l with
        | 35 :: _ | 10 :: _ => load_lines now ts lines'
        | _ =>
            match parse_task now l with
            | Some t => load_lines now (ts ++ [t]) lines'
            | None => load_lines now ts lines'
            end
        end
      else ts
  end.

Definition load_tasks_from_disk (now : Z) (c : cron_t) : cron_t :=
  match db c with
  | None => c
  | Some text =>
      mk_cron (load_lines now (g_tasks c) (fgets_lines (Z.to_nat 1024) text)) (db c) (writable c)
  end.

(** ** Operations *)

Definition cron_init (now : Z) (c : cron_t) : cron_t :=
  load_tasks_from_disk now (mk_cron [] (db c) (writable c)).

Definition cron_add_task (now : Z) (c : cron_t) (id expression command : cstr) : cron_t * Z :=
  if (MAX_TASKS <=? length (g_tasks c))%nat then (c, -1)
  else if existsb (λ t, streq (t_id t) id) (g_tasks c) then (c, -1)
  else
    let t := mk_task (snprintf_s 64 id) (snprintf_s 64 expression) (snprintf_s 512 command) true 0
               (calculate_next_run expression now) 0 0 in
    (save_tasks_to_disk (mk_cron (g_tasks c ++ [t]) (db c) (writable c)), 0).

Definition find_task (c : cron_t) (id : cstr) : option nat := find_idx (λ t, streq (t_id t) id) (g_tasks c).

Definition cron_remove_task (c : cron_t) (id : cstr) : cron_t * Z :=
  match find_task c id with
  | Some i =>
      let n := length (g_tasks c) in
      (save_tasks_to_disk (mk_cron (take (n - 1) (shift_left i n (g_tasks c))) (db c) (writable c)), 0)
  | None => (c, -1)
  end.

Definition ran (now : Z) (ok : bool) (t : cron_task_t) : cron_task_t :=
  mk_task (t_id t) (t_expression t) (t_command t) (t_enabled t) now
    (calculate_next_run (t_expression t) now)
    (if ok then s32 (t_run_count t + 1) else t_run_count t)
    (if ok then t_fail_count t else s32 (t_fail_count t + 1)).

Definition due (now : Z) (t : cron_task_t) : bool := t_enabled t && negb (now <? t_next_run t).

(** The job for a task: the command, NUL-padded to the payload's size. *)
Definition cron_job (t : cron_task_t) : job_t :=
  let cmd := take (JOB_PAYLOAD_LEN - 1) (t_command t) in
  mk_job JOB_CRON_RUN (lit "default") (cmd ++ replicate (JOB_PAYLOAD_LEN - length cmd) 0) (length cmd)
    None 0.

(** The loop with a job queue. *)
Fixpoint enqueue_due (now : Z) (q : jobcache_t) (ts : list cron_task_t)
    : option (jobcache_t * list cron_task_t) :=
  match ts with
  | [] => Some (q, [])
  | t :: ts' =>
      if due now t then
        match push_section q (cron_job t) with
        | None => None
        | Some q =>
            '(q, ts') ← enqueue_due now q ts';
            Some (q, ran now true t :: ts')
        end
      else
        '(q, ts') ← enqueue_due now q ts';
        Some (q, t :: ts')
  end.

(** The loop without one: [system] gives the exit status of a command. *)
Definition run_due (now : Z) (system : cstr → Z) (ts : list cron_task_t) : list cron_task_t :=
  map (λ t, if due now t then ran now (system (t_command t) =? 0) t else t) ts.

Definition cron_run_pending (now : Z) (system : cstr → Z) (c : cron_t) (q : option jobcache_t)
    : option (cron_t * option jobcache_t) :=
  match q with
  | Some q =>
      '(q, ts) ← enqueue_due now q (g_tasks c);
      Some (save_tasks_to_disk (mk_cron ts (db c) (writable c)), Some q)
  | None =>
      Some (save_tasks_to_disk (mk_cron (run_due now system (g_tasks c)) (db c) (writable c)), None)
  end.

Definition update_task (c : cron_t) (i : nat) (f : cron_task_t → cron_task_t) : cron_t :=
  match g_tasks c !! i with
  | Some t => mk_cron (<[i := f t]> (g_tasks c)) (db c) (writable c)
  | None => c
  end.

Definition cron_enable_task (now : Z) (c : cron_t) (id : cstr) (enabled : Z) : cron_t * Z :=
  match find_task c id with
  | Some i =>
      let on := negb (enabled =? 0) in
      (save_tasks_to_disk
         (update_task c i (λ t,
            mk_task (t_id t) (t_expression t) (t_command t) on (t_last_run t)
              (if on then calculate_next_run (t_expression t) now else t_next_run t)
              (t_run_count t) (t_fail_count t))), 0)
  | None => (c, -1)
  end.

Definition cron_run_task_now (now : Z) (system : cstr → Z) (c : cron_t) (id : cstr) : cron_t * Z :=
  match find_task c id with
  | Some i =>
      match g_tasks c !! i with
      | Some t =>
          let r := system (t_command t) in
          (save_tasks_to_disk (update_task c i (ran now (r =? 0))), r)
      | None => (c, -1)
      end
  | None => (c, -1)
  end.

Definition cron_shutdown (c : cron_t) : cron_t :=
  let c := save_tasks_to_disk c in mk_cron [] (db c) (writable c).

(** ** Run times *)

Lemma interval_step from i : 0 <= from → 0 < i → from < (Z.quot from i + 1) * i <= from + i.
Proof.
  intros Hf Hi. rewrite Z.quot_div_nonneg by lia. pose proof (Z.div_mod from i). 
  pose proof (Z.mod_pos_bound from i). lia.
Qed.

Lemma next_run_bounds e from : 0 <= from → from < calculate_next_run e from <= from + 3600.
Proof.
  intros Hf. unfold calculate_next_run. case_if; [lia|].
  repeat match goal with |- context [if ?b then _ else _] => destruct b end;
    match goal with |- context [Z.quot from ?i] => pose proof (interval_step from i Hf ltac:(lia)); lia end.
Qed.

(** The next run lies in the future, by at most an hour, whatever the
    expression. *)
Theorem next_run_in_future e from : 0 <= from → from < calculate_next_run e from <= from + 3600.
Proof. apply next_run_bounds. Qed.

Lemma next_run_in_future_witness :
  1700000000 < calculate_next_run (lit "30 4 * * *") 1700000000 <= 1700000000 + 3600.
Proof. apply next_run_in_future. lia. Defined.

Definition fields (e : cstr) : list cstr := map (snprintf_s 32) (take 6 (strtok_fields is_blank e)).

(** Of a five-field expression only the hour field has an influence: two
    expressions that agree in it run at the same times, whatever their
    minute, day and month fields say. *)
Theorem next_run_only_hour e1 e2 from :
  (5 ≤ length (fields e1))%nat → (5 ≤ length (fields e2))%nat →
  nth 1 (fields e1) [] = nth 1 (fields e2) [] →
  calculate_next_run e1 from = calculate_next_run e2 from.
Proof.
  intros H1 H2 Heq. unfold calculate_next_run. fold (fields e1) (fields e2).
  rewrite !(proj2 (Nat.ltb_ge _ _)) by done. rewrite Heq.
  assert (∀ b : bool, (if b then 60 else 60) = 60) as Hb by (by intros []). by rewrite !Hb.
Qed.

Lemma next_run_only_hour_witness :
  calculate_next_run (lit "30 * * * *") 1700000000 = calculate_next_run (lit "0 * 1 1 *") 1700000000.
Proof. apply next_run_only_hour; [vm_compute; lia | vm_compute; lia | by_eval]. Defined.

(** ** The task file round trip *)

Definition field_ok (n : nat) (s : cstr) : Prop :=
  s ≠ [] ∧ Forall (λ b, b ≠ ch "|" ∧ b ≠ 10) s ∧ (length s < n)%nat.

(** A task whose texts survive the separators and whose numbers fit their
    types. *)
Record clean_task (now : Z) (t : cron_task_t) : Prop := {
  ct_id : field_ok 64 (t_id t);
  ct_expr : field_ok 64 (t_expression t);
  ct_cmd : field_ok 512 (t_command t);
  ct_last : - 2 ^ 63 <= t_last_run t < 2 ^ 63;
  ct_next : 0 <= t_next_run t < 2 ^ 63;
  ct_future : now <= t_next_run t;
  ct_runs : - 2 ^ 31 <= t_run_count t < 2 ^ 31;
  ct_fails : - 2 ^ 31 <= t_fail_count t < 2 ^ 31;
}.

(** A line that starts with the sign of a comment is not read. *)
Definition kept (t : cron_task_t) : bool := negb (hd 0 (t_id t) =? ch "#").

Lemma strtok_token (d : Z → bool) f c rest :
  f ≠ [] → Forall (λ b, d b = false) f → d c = true →
  strtok d (Some (f ++ c :: rest)) = (Some f, Some rest).
Proof.
  intros Hne Hf Hc. unfold strtok.
  assert (skip_while d (f ++ c :: rest) = f ++ c :: rest) as ->.
  { destruct Hf as [|b f Hb Hf]; [done|]. cbn. by rewrite Hb. }
  destruct (f ++ c :: rest) as [|b s] eqn:E; [by destruct f|]. rewrite <- E. clear b s E.
  assert (take_while (λ b, negb (d b)) (f ++ c :: rest) = f) as ->.
  { clear Hne. induction Hf as [|b f Hb Hf IH]; cbn [app take_while]; [by rewrite Hc|].
    rewrite Hb. cbn [negb]. by rewrite IH. }
  do 2 f_equal. replace (S (length f)) with (length f + 1)%nat by lia. by rewrite drop_app_add.
Qed.

Lemma strtok_field n f rest :
  field_ok n f → strtok is_bar (Some (f ++ bar ++ rest)) = (Some f, Some rest).
Proof.
  intros (Hne & Hf & _). apply (strtok_token is_bar f (ch "|") rest); [done| |done].
  eapply Forall_impl; [exact Hf|]. intros b [Hb _]. unfold is_bar. by apply Z.eqb_neq.
Qed.

Lemma strtok_number z rest : strtok is_bar (Some (fmt_dec z ++ bar ++ rest)) = (Some (fmt_dec z), Some rest).
Proof.
  apply (strtok_token is_bar (fmt_dec z) (ch "|") rest); [apply fmt_dec_nonempty| |done].
  eapply Forall_impl; [apply (fmt_dec_not z (ch "|")); [done|change (ch "|") with 124; lia]|].
  intros b Hb. unfold is_bar. by apply Z.eqb_neq.
Qed.

Lemma strtok_last z : strtok is_bar_nl (Some (fmt_dec z ++ [10])) = (Some (fmt_dec z), Some []).
Proof.
  apply (strtok_token is_bar_nl (fmt_dec z) 10 []); [apply fmt_dec_nonempty| |done].
  pose proof (fmt_dec_bytes z) as H. eapply Forall_impl; [exact H|]. intros b Hb. unfold is_bar_nl.
  apply orb_false_iff. split; apply Z.eqb_neq; cbn beta in Hb; change (ch "|") with 124; lia.
Qed.

Lemma atol_fmt z : - 2 ^ 63 <= z < 2 ^ 63 → atol (fmt_dec z) = z.
Proof. intros. rewrite <- (app_nil_r (fmt_dec z)). by apply strtol10_fmt_dec. Qed.

Lemma atoi_fmt z : - 2 ^ 31 <= z < 2 ^ 31 → atoi (fmt_dec z) = z.
Proof. intros. rewrite <- (app_nil_r (fmt_dec z)). by apply atoi_fmt_dec. Qed.

Lemma parse_task_line now t : clean_task now t → parse_task now (task_line t) = Some t.
Proof.
  intros [Hid He Hc Hl Hn Hfut Hr Hf]. unfold parse_task, task_line.
  rewrite (strtok_field 64) by done. rewrite (strtok_field 64) by done. rewrite (strtok_field 512) by done.
  rewrite !strtok_number, strtok_last.
  rewrite !snprintf_s_id by (apply Hid || apply He || apply Hc).
  rewrite (atol_fmt (t_last_run t)), (atol_fmt (t_next_run t)) by lia.
  rewrite (atoi_fmt (t_run_count t)), (atoi_fmt (t_fail_count t)) by lia.
  rewrite (atoi_fmt (if t_enabled t then 1 else 0)) by (destruct (t_enabled t); lia).
  rewrite (proj2 (Z.ltb_ge _ _)) by lia. destruct t as [? ? ? en ? ? ? ?]. simpl. by destruct en.
Qed.

(** A saved line is read by [fgets] in one piece. *)
Lemma task_line_fits now t :
  clean_task now t → 
  ∃ l, task_line t = l ++ [10] ∧ Forall (λ b, b ≠ 10) l ∧ (length l < Z.to_nat 1024 - 1)%nat ∧
       hd 0 l = hd 0 (t_id t) ∧ l ≠ [].
Proof.
  intros [Hid He Hc Hl Hn Hfut Hr Hf].
  exists (t_id t ++ bar ++ t_expression t ++ bar ++ t_command t ++ bar
    ++ fmt_dec (if t_enabled t then 1 else 0) ++ bar ++ fmt_dec (t_last_run t) ++ bar
    ++ fmt_dec (t_next_run t) ++ bar ++ fmt_dec (t_run_count t) ++ bar ++ fmt_dec (t_fail_count t)).
  assert (Forall (λ b, b ≠ 10) bar) as Hbar by (by repeat constructor).
  assert (∀ z, Forall (λ b, b ≠ 10) (fmt_dec z)) as Hnum by (intros; apply fmt_dec_not; lia).
  assert (∀ n s, field_ok n s → Forall (λ b, b ≠ 10) s) as Hfield
    by (intros n s (_ & H & _); eapply Forall_impl; [exact H|]; by intros b []).
  split_and!.
  - unfold task_line. by rewrite <- !app_assoc.
  - repeat (apply Forall_app; split); try done; by eapply Hfield.
  - assert (∀ z, - 2 ^ 63 <= z < 2 ^ 63 → (length (fmt_dec z) ≤ 20)%nat) as Hlen
      by (intros; apply (fmt_dec_length 19); lia).
    pose proof (Hlen (t_last_run t) Hl). pose proof (Hlen (t_next_run t) ltac:(lia)).
    pose proof (Hlen (t_run_count t) ltac:(lia)). pose proof (Hlen (t_fail_count t) ltac:(lia)).
    pose proof (Hlen (if t_enabled t then 1 else 0) ltac:(destruct (t_enabled t); lia)).
    destruct Hid as (_ & _ & ?), He as (_ & _ & ?), Hc as (_ & _ & ?).
    rewrite !length_app. change (length bar) with 1%nat. lia.
  - destruct Hid as (Hne & _ & _). by destruct (t_id t).
  - destruct Hid as (Hne & _ & _). by destruct (t_id t).
Qed.

Lemma load_skip now ts l lines :
  hd 0 l = 35 → load_lines now ts (l :: lines) = (if (length ts <? MAX_TASKS)%nat then load_lines now ts lines else ts).
Proof. intros Hl. cbn [load_lines]. destruct l as [|b l]; [done|]. simpl in Hl. by subst. Qed.

Lemma load_task now ts l t lines :
  hd 0 l ≠ 35 → hd 0 l ≠ 10 → parse_task now l = Some t → (length ts < MAX_TASKS)%nat →
  load_lines now ts (l :: lines) = load_lines now (ts ++ [t]) lines.
Proof.
  intros H1 H2 Hp Hlt. cbn [load_lines]. rewrite (proj2 (Nat.ltb_lt _ _)) by done. rewrite Hp.
  destruct l as [|b l]; [done|]. cbn in H1, H2. by repeat case_match.
Qed.

Lemma load_saved now ts ts0 :
  Forall (clean_task now) ts → (length ts0 + length ts ≤ MAX_TASKS)%nat →
  load_lines now ts0 (fgets_lines (Z.to_nat 1024) (concat (map task_line ts))) = ts0 ++ List.filter kept ts.
Proof.
  intros Hts. revert ts0. induction Hts as [|t ts Ht Hts IH]; intros ts0 Hl; cbn [map concat].
  - by rewrite app_nil_r.
  - cbn [length] in Hl. pose proof (parse_task_line now t Ht) as Hp.
    destruct (task_line_fits now t Ht) as (l & Hline & Hnl & Hlen & Hh & Hne).
    rewrite Hline in *. rewrite <- app_assoc. cbn [app]. rewrite fgets_lines_line by done.
    cbn [List.filter]. unfold kept at 1. rewrite <- Hh. change (ch "#") with 35. destruct (Z.eqb_spec (hd 0 l) 35) as [H35|H35]; cbn [negb].
    + rewrite load_skip by (by destruct l). rewrite (proj2 (Nat.ltb_lt _ _)) by lia. apply IH. lia.
    + rewrite (load_task now ts0 _ t).
      * rewrite IH by (rewrite length_app; cbn [length]; lia). by rewrite <- app_assoc.
      * by destruct l.
      * by destruct Hnl.
      * done.
      * lia.
Qed.

Lemma db_text_loads now ts :
  Forall (clean_task now) ts → (length ts ≤ MAX_TASKS)%nat →
  load_lines now [] (fgets_lines (Z.to_nat 1024) (db_text ts)) = List.filter kept ts.
Proof.
  intros Hc Hl. unfold db_text, db_header. rewrite <- !app_assoc.
  set (h1 := lit "# Doctor Claw Cron Tasks"). set (h2 := lit "# Format: id|expression|command|enabled|last_run|next_run|run_count|fail_count").
  assert (∀ h rest, h ∈ [h1; h2] →
    load_lines now [] (fgets_lines (Z.to_nat 1024) (h ++ [10] ++ rest)) =
    load_lines now [] (fgets_lines (Z.to_nat 1024) rest)) as Hskip.
  { intros h rest Hin. cbn [app]. rewrite fgets_lines_line.
    - by rewrite load_skip by (apply elem_of_cons in Hin as [->|Hin%list_elem_of_singleton]; subst; done).
    - revert h Hin. apply Forall_forall. apply (bool_decide_unpack _). by vm_compute.
    - revert h Hin. apply Forall_forall. apply (bool_decide_unpack _). by vm_compute. }
  rewrite (Hskip h1), (Hskip h2) by (repeat constructor). by rewrite load_saved.
Qed.

(** C21: What a shutdown wrote for at most 64 tasks, with texts that are not empty,
    fit their fields and have no bar or line end, and run times that have not
    passed, the next start reads back with every field; but a task whose id
    starts with '#' is taken for a comment and lost. *)
Theorem cron_db_roundtrip now c :
  Forall (clean_task now) (g_tasks c) → (length (g_tasks c) ≤ MAX_TASKS)%nat → writable c = true →
  g_tasks (cron_init now (cron_shutdown c)) = List.filter kept (g_tasks c).
Proof.
  intros Hc Hl Hw. unfold cron_init, cron_shutdown, save_tasks_to_disk, load_tasks_from_disk.
  cbn [db writable g_tasks]. rewrite Hw. by rewrite db_text_loads.
Qed.

Definition task_ex : cron_task_t :=
  mk_task (lit "backup") (lit "0 4 * * *") (lit "tar c /data") true 1699990000 1700003600 3 1.

Definition cron_ex : cron_t := mk_cron [task_ex; task_ex] None true.
Definition hash_task : cron_task_t :=
  mk_task (lit "#1") (lit "0 4 * * *") (lit "tar c /data") true 1699990000 1700003600 3 1.
Definition cron_hash : cron_t := mk_cron [task_ex; hash_task] None true.

Lemma cron_db_roundtrip_witness :
  g_tasks (cron_init 1700000000 (cron_shutdown cron_hash)) = [task_ex].
Proof.
  apply (cron_db_roundtrip 1700000000 cron_hash); [|vm_compute; lia | done].
  repeat constructor; try done; try (vm_compute; lia); try (apply (bool_decide_unpack _); by vm_compute).
Defined.

(** A command with a pipe is cut at it, and the fields behind it are read from
    what is left: the task comes back with another command, and disabled. *)
Theorem piped_command_corrupted :
  g_tasks (cron_init 1700000000 (cron_shutdown (mk_cron
    [mk_task (lit "count") (lit "0 4 * * *") (lit "ls | wc") true 1699990000 1700003600 3 1] None true))) =
  [mk_task (lit "count") (lit "0 4 * * *") (lit "ls ") false 1 1700002800 1700003600 3].
Proof. vm_compute. reflexivity. Qed.

(** ** Due tasks *)

#[local] Opaque cron_job store_job.

Lemma enqueue_due_spec now ts : ∀ q,
  cache_inv q → 0 <= now →
  match enqueue_due now q ts with
  | Some (q', ts') =>
      cache_inv q' ∧ capacity q' = capacity q ∧
      contents q' = contents q ++ map (store_job ∘ cron_job) (List.filter (due now) ts) ∧
      ts' = map (λ t, if due now t then ran now true t else t) ts ∧
      count q' = (count q + length (List.filter (due now) ts))%nat
  | None => (capacity q < count q + length (List.filter (due now) ts))%nat
  end.
Proof.
  induction ts as [|t ts IH]; intros q Hq Hn; cbn [enqueue_due List.filter map].
  { rewrite app_nil_r. split_and!; try done. }
  destruct (due now t) eqn:Ed.
  - destruct (push_section q (cron_job t)) as [q1|] eqn:Ep.
    + destruct (push_contents _ _ _ Hq Ep) as (Hq1 & Hc1 & Hcap1 & Hcnt1).
      specialize (IH q1 Hq1 Hn). destruct (enqueue_due now q1 ts) as [[q2 ts2]|]; cbn [mbind option_bind].
      * destruct IH as (Hq2 & Hcap2 & Hc2 & Hts2 & Hcnt2). cbn [length map]. split_and!; [done | congruence | | by subst | lia].
        rewrite Hc2, Hc1, <- app_assoc. done.
      * cbn [length]. lia.
    + apply push_full in Ep. cbn [length]. destruct Hq. lia.
  - specialize (IH q Hq Hn). destruct (enqueue_due now q ts) as [[q2 ts2]|]; cbn [mbind option_bind]; [|done].
    destruct IH as (? & ? & ? & -> & ?). split_and!; done.
Qed.

Lemma ran_not_due now ok t : 0 <= now → due now (ran now ok t) = false.
Proof.
  intros Hn. unfold due, ran. cbn [t_enabled t_next_run]. apply andb_false_iff. right.
  apply negb_false_iff, Z.ltb_lt. apply next_run_bounds. lia.
Qed.

(** C22: when the queue has room for all due tasks, a run hands exactly the
    enabled tasks whose time has come to the queue, once each, in the order of
    the table, and leaves none of them due; without room it waits in the push,
    where the comment in [jobcache.h] promises the code -1. *)
Theorem run_pending_enqueues_due now system c q :
  cache_inv q → 0 <= now →
  match cron_run_pending now system c (Some q) with
  | Some (c', q') =>
      ∃ q1, q' = Some q1 ∧ cache_inv q1 ∧
        contents q1 = contents q ++ map (store_job ∘ cron_job) (List.filter (due now) (g_tasks c)) ∧
        List.filter (due now) (g_tasks c') = []
  | None => (capacity q < length (contents q) + length (List.filter (due now) (g_tasks c)))%nat
  end.
Proof.
  intros Hq Hn. unfold cron_run_pending. pose proof (enqueue_due_spec now (g_tasks c) q Hq Hn) as H.
  destruct (enqueue_due now q (g_tasks c)) as [[q1 ts]|]; cbn [mbind option_bind].
  - destruct H as (Hq1 & _ & Hc & -> & _). exists q1. split_and!; [done..|]. cbn [g_tasks save_tasks_to_disk].
    clear -Hn. induction (g_tasks c) as [|t ts IH]; [done|]. cbn [map List.filter].
    destruct (due now t) eqn:E; [rewrite ran_not_due by done | rewrite E]; done.
  - destruct Hq. unfold contents. by rewrite ring_length by lia.
Qed.

Lemma run_pending_enqueues_due_witness :
  match cron_run_pending 1700003600 (λ _, 0) cron_ex (Some fresh_ex) with
  | Some (c', q') =>
      ∃ q1, q' = Some q1 ∧ cache_inv q1 ∧
        contents q1 = contents fresh_ex ++
          map (store_job ∘ cron_job) (List.filter (due 1700003600) (g_tasks cron_ex)) ∧
        List.filter (due 1700003600) (g_tasks c') = []
  | None => (capacity fresh_ex < length (contents fresh_ex)
               + length (List.filter (due 1700003600) (g_tasks cron_ex)))%nat
  end.
Proof. apply run_pending_enqueues_due; [split; vm_compute; (done || lia) | lia]. Defined.
