(* ===== verification/Tools.v ===== *)
(** * The tools of [src/tools/tools.c]

    Dispatch by name, the approval gate, parameter parsing, the guards of the
    shell tools and the file tools.  [parse_string_param] returns a pointer
    to one static buffer: every call overwrites the text that the pointers of
    earlier calls point to.  The model threads the content of that buffer
    through a tool, and a parameter is read when the code reads it.

    Calls to the operating system are collected in a list and answered by an
    oracle [os]. *)
From S2P Require Import Prelude Approval Security.

Record tool_result_t := mk_result {
  r_result : cstr;
  r_success : bool;
  r_error : cstr;
}.

Definition result_zero : tool_result_t := mk_result [] false [].
Definition RESULT_LEN : nat := Z.to_nat 16384.
Definition ERROR_LEN : nat := 512.

Definition fail_with (e : cstr) : tool_result_t := mk_result [] false (snprintf_s ERROR_LEN e).
Definition succeed_with (s : cstr) : tool_result_t := mk_result (snprintf_s RESULT_LEN s) true [].

(** System calls, with the texts they receive. *)
Inductive syscall :=
  | Sys_run (shell : option cstr) (command : cstr) (timeout : Z)
  | Sys_stat (path : cstr)
  | Sys_mkdir (path : cstr) (mode : Z)
  | Sys_system (command : cstr)
  | Sys_rmdir (path : cstr)
  | Sys_unlink (path : cstr)
  | Sys_rename (src dest : cstr)
  | Sys_write (path : cstr) (append : bool) (content : cstr)
  | Sys_setenv (name value : cstr)
  | Sys_unsetenv (name : cstr)
  | Sys_popen (command : cstr).

(** The return value of a call and, for a command, its output. *)
Record answer := mk_answer { code : Z; output : cstr; is_dir : bool }.

(** ** Parameters *)

Definition PARAM_LEN : nat := Z.to_nat 4096.

Definition quote (s : cstr) : cstr := [34] ++ s ++ [34].

Definition param_skip (b : Z) : bool := (b =? 32) || (b =? 34) || (b =? 123) || (b =? 125).
Definition param_end (b : Z) : bool := (b =? 44) || (b =? 34) || (b =? 125).

(** The result says whether the pointer is not NULL, and gives the content of
    the static buffer after the call. *)
Definition parse_string_param (params key : cstr) : bool * cstr :=
  let found :=
    match strstr params (snprintf_s 64 (quote key)) with
    | Some i => Some i
    | None => strstr params (snprintf_s 64 (key ++ lit ":"))
    end in
  match found with
  | None => (false, [])
  | Some i =>
      match strchr (drop i params) (ch ":") with
      | None => (false, [])
      | Some j =>
          let s := skip_while param_skip (drop (S j) (drop i params)) in
          let v := take (PARAM_LEN - 1) (take_while (λ b, negb (param_end b)) s) in
          let v := rstrip (λ b, (b =? 32) || (b =? 34)) v in
          (match v with [] => false | _ => true end, v)
      end
  end.

(** [p && strcmp(p, "true") == 0] for a pointer into the buffer. *)
Definition is_true (p : bool) (buf : cstr) : bool := p && streq buf (lit "true").

Definition parse_int_param (params key : cstr) (dflt : Z) : Z :=
  let '(p, v) := parse_string_param params key in if p then atoi v else dflt.

(** ** Guards *)

Definition DANGEROUS_PATTERNS : list cstr :=
  map lit
    ["rm -rf /"%string; "rm -rf /*"%string; "mkfs"%string; "dd if="%string; ":(){:|:&};:"%string;
     "fork()"%string; "while(1)"%string; "/etc/passwd"%string; "/etc/shadow"%string; "chmod 777 /"%string;
     "chown -R"%string; "wget.*|"%string; "curl.*|"%string; "nc -e"%string; "bash -i"%string;
     "sh -i"%string; "nohup.*&"%string; "disown"%string].

Definition ALLOWED_DOMAINS : list cstr :=
  map lit
    ["api.openai.com"%string; "api.anthropic.com"%string; "api.openrouter.ai"%string;
     "generativelanguage.googleapis.com"%string; "open.bigmodel.cn"%string; "ollama.ai"%string;
     "localhost"%string; "127.0.0.1"%string; "github.com"%string; "api.github.com"%string].

Definition PRIVATE_IP_PATTERNS : list cstr :=
  map lit
    ["10."%string; "172.16."%string; "172.17."%string; "172.18."%string; "172.19."%string; "172.2"%string;
     "172.30."%string; "172.31."%string; "192.168."%string; "127."%string; "localhost"%string;
     "0.0.0.0"%string; "::1"%string; "169.254."%string].

Definition is_private_ip (host : cstr) : bool :=
  existsb (λ p, has_prefix p host) PRIVATE_IP_PATTERNS || streq host (lit "localhost").

(** The host part: up to the first slash (nothing when that is too long), or
    the first 255 bytes; then up to the first colon. *)
Definition domain_host (protocol : cstr) : cstr :=
  let host :=
    match strchr protocol (ch "/") with
    | Some k => if (k <? 256)%nat then take k protocol else []
    | None => take 255 protocol
    end in
  match strchr host (ch ":") with Some k => take k host | None => host end.

Definition is_domain_allowed (url : option cstr) : bool :=
  match url with
  | None => false
  | Some url =>
      match strstr url (lit "://") with
      | None => false
      | Some i =>
          let host := domain_host (drop (i + 3) url) in
          if is_private_ip host then false else existsb (contains host) ALLOWED_DOMAINS
      end
  end.

Definition check_ssrf (url : option cstr) : Z := if is_domain_allowed url then 0 else -1.

Definition check_dangerous_command (command : cstr) : Z :=
  if existsb (contains command) DANGEROUS_PATTERNS then -1 else 0.

(** The static policy of the shell tools; [None] before initialisation. *)
Definition check_shell_policy (policy : option security_policy_t) (command : cstr) : Z :=
  match policy with
  | None => 0
  | Some p => if security_policy_check p (Some (lit "shell")) (Some command) =? 0 then 0 else -1
  end.

(** ** State *)

Record tools_t := mk_tools {
  g_shell_policy : option security_policy_t;
  g_approval : option approval_manager_t;
  g_require_approval : bool;
}.

Definition tools_set_approval_context (t : tools_t) (m : option approval_manager_t) (req : bool) : tools_t :=
  mk_tools (g_shell_policy t) m req.

(** The error of a refused action; [None] lets it pass. *)
Definition check_approval_risky (t : tools_t) (action : cstr) : option cstr :=
  match g_approval t with
  | Some m =>
      if negb (g_require_approval t) then None
      else if approval_check m (Some action) =? 1 then None
      else Some (snprintf_s ERROR_LEN (lit "Approval required for " ++ action))
  | None => None
  end.

(** What running a tool yields: its return code, its result, and the system
    calls it made, in order. *)
Record outcome := mk_outcome { o_rc : Z; o_result : tool_result_t; o_calls : list syscall }.

Definition refuse (e : cstr) (calls : list syscall) : outcome := mk_outcome (-1) (fail_with e) calls.

Definition SHELL_MAX_INPUT : Z := 32768.
Definition SHELL_MAX_OUTPUT : Z := 1048576.
Definition SHELL_TIMEOUT_SECONDS : Z := 60.

Section tools.
Context (os : syscall → answer).
Context (strerror : cstr).

(** The body the three shell tools share.  [None] is the [strcat] of the
    truncation notice behind the end of the output buffer. *)
Definition run_shell (t : tools_t) (shell : option cstr) (params : cstr) : option outcome :=
  let '(p, v) := parse_string_param params (lit "command") in
  let command := if p then v else params in
  if SHELL_MAX_INPUT <=? Z.of_nat (length command) then
    Some (refuse (lit "Command too long (max " ++ fmt_dec SHELL_MAX_INPUT ++ lit ")") [])
  else if (length command =? 0)%nat then Some (refuse (lit "No command provided") [])
  else if negb (check_dangerous_command command =? 0) then
    Some (refuse (lit "Command contains dangerous pattern") [])
  else if negb (check_shell_policy (g_shell_policy t) command =? 0) then
    Some (refuse (lit "Command blocked by security policy") [])
  else
    let timeout := parse_int_param params (lit "timeout") SHELL_TIMEOUT_SECONDS in
    let timeout := if (timeout <=? 0) || (300 <? timeout) then SHELL_TIMEOUT_SECONDS else timeout in
    let call := Sys_run shell command timeout in
    let status := code (os call) in
    let out := output (os call) in
    let success := (status =? 0) && negb ((status =? -1) && contains out (lit "[TIMEOUT]")) in
    if SHELL_MAX_OUTPUT - 10 <=? Z.of_nat (length out) then None
    else
      let text := snprintf_s RESULT_LEN out in
      let msg := snprintf_s 128 ([10] ++ lit "[Exit code: " ++ fmt_dec status ++ lit "]") in
      let text :=
        if negb success && negb (status =? -1) && (length text + length msg <? RESULT_LEN)%nat
        then text ++ msg else text in
      Some (mk_outcome 0 (mk_result text success []) [call]).

Definition tool_shell_execute (t : tools_t) (params : cstr) : option outcome := run_shell t None params.
Definition tool_zsh_execute (t : tools_t) (params : cstr) : option outcome :=
  run_shell t (Some (lit "/bin/zsh")) params.
Definition tool_network_execute (t : tools_t) (params : cstr) : option outcome := run_shell t None params.

(** In the file tools [v] is always the current content of the static
    buffer, whichever pointer it is read through. *)
Definition tool_file_write_execute (params : cstr) : outcome :=
  let '(path, v) := parse_string_param params (lit "path") in
  let '(content, v) := parse_string_param params (lit "content") in
  let '(append_str, v) := parse_string_param params (lit "append") in
  if negb path then refuse (lit "No path provided") []
  else
    let '(content, v) := if content then (content, v) else parse_string_param params (lit "text") in
    let '(content, v) := if content then (content, v) else parse_string_param params (lit "data") in
    let append := is_true append_str v in
    let call := Sys_write v append (if content then v else []) in
    if code (os call) =? 0 then
      mk_outcome 0
        (succeed_with (lit "Written " ++ fmt_dec (Z.of_nat (if content then length v else 0)) ++ lit " bytes to " ++ v))
        [call]
    else refuse (lit "Could not write file: " ++ v ++ lit " (" ++ strerror ++ lit ")") [call].

(** [(int)strtol(s, NULL, 8)], for values that fit a [long]. *)
Definition octal (s : cstr) : Z :=
  let digits s := foldl (λ acc b, acc * 8 + (b - 48)) 0 (take_while (λ b, (48 <=? b) && (b <=? 55)) s) in
  s32 (match skip_while isspace s with
       | 45 :: s' => - digits s'
       | 43 :: s' => digits s'
       | s' => digits s'
       end).

Definition tool_mkdir_execute (params : cstr) : outcome :=
  let '(path, v) := parse_string_param params (lit "path") in
  if negb path then refuse (lit "No path provided") []
  else
    let '(parents_str, v) := parse_string_param params (lit "parents") in
    let '(mode_str, v) := parse_string_param params (lit "mode") in
    let mode := if mode_str then octal v else 493 in
    let call := Sys_mkdir v mode in
    if code (os call) =? 0 then mk_outcome 0 (succeed_with (lit "Created directory: " ++ v)) [call]
    else refuse (lit "Failed to create directory: " ++ strerror) [call].

Definition tool_rm_execute (params : cstr) : outcome :=
  let '(path, v) := parse_string_param params (lit "path") in
  if negb path then refuse (lit "No path provided") []
  else
    let '(recursive_str, v) := parse_string_param params (lit "recursive") in
    let '(force_str, v) := parse_string_param params (lit "force") in
    let st := Sys_stat v in
    if negb (code (os st) =? 0) then
      if is_true force_str v then mk_outcome 0 (succeed_with (lit "File not found (ignored)")) [st]
      else refuse (lit "Path does not exist: " ++ v) [st]
    else
      let call :=
        if is_dir (os st) then
          if is_true recursive_str v then Sys_system (snprintf_s (Z.to_nat 2048) (lit "rm -rf " ++ v))
          else Sys_rmdir v
        else Sys_unlink v in
      if code (os call) =? 0 then mk_outcome 0 (succeed_with (lit "Removed: " ++ v)) [st; call]
      else refuse (lit "Failed to remove: " ++ strerror) [st; call].

Definition tool_cp_execute (params : cstr) : outcome :=
  let '(src, v) := parse_string_param params (lit "src") in
  let '(dest, v) := parse_string_param params (lit "dest") in
  let '(dest_path, v) := parse_string_param params (lit "destination") in
  if negb src then refuse (lit "No source provided") []
  else if negb dest && negb dest_path then refuse (lit "No destination provided") []
  else
    let '(recursive_str, v) := parse_string_param params (lit "recursive") in
    let call :=
      Sys_system (snprintf_s (Z.to_nat 4096)
        ((if is_true recursive_str v then lit "cp -R " else lit "cp ") ++ v ++ lit " " ++ v)) in
    if code (os call) =? 0 then mk_outcome 0 (succeed_with (lit "Copied " ++ v ++ lit " to " ++ v)) [call]
    else refuse (lit "Failed to copy: " ++ strerror) [call].

Definition tool_mv_execute (params : cstr) : outcome :=
  let '(src, v) := parse_string_param params (lit "src") in
  let '(dest, v) := parse_string_param params (lit "dest") in
  let '(dest_path, v) := parse_string_param params (lit "destination") in
  if negb src then refuse (lit "No source provided") []
  else if negb dest && negb dest_path then refuse (lit "No destination provided") []
  else
    let call := Sys_rename v v in
    if code (os call) =? 0 then mk_outcome 0 (succeed_with (lit "Moved " ++ v ++ lit " to " ++ v)) [call]
    else refuse (lit "Failed to move: " ++ strerror) [call].

(** The copy kept in [g_env_vars] is never read and is not modelled. *)
Definition tool_setenv_execute (params : cstr) : outcome :=
  let '(name, v) := parse_string_param params (lit "name") in
  let '(value, v) := parse_string_param params (lit "value") in
  if negb name then refuse (lit "No name provided") []
  else
    let call := Sys_setenv v (if value then v else []) in
    if code (os call) =? 0
    then mk_outcome 0 (succeed_with (lit "Set " ++ v ++ lit "=" ++ (if value then v else []))) [call]
    else refuse (lit "Failed to set environment variable: " ++ strerror) [call].

Definition tool_memory_store_execute (params : cstr) : outcome :=
  let '(key, v) := parse_string_param params (lit "key") in
  let '(content, v) := parse_string_param params (lit "content") in
  let '(namespace, v) := parse_string_param params (lit "namespace") in
  if negb key || negb content then refuse (lit "Key and content required") []
  else mk_outcome 0
         (succeed_with (lit "Memory stored: [" ++ (if namespace then v else lit "default") ++ lit "] " ++ v
                        ++ lit " = " ++ v)) [].

Definition tool_memory_recall_execute (params : cstr) : outcome :=
  let '(query, v) := parse_string_param params (lit "query") in
  let '(namespace, v) := parse_string_param params (lit "namespace") in
  if negb query then refuse (lit "Query required") []
  else mk_outcome 0
         (succeed_with (lit "Recalled from [" ++ (if namespace then v else lit "default") ++ lit "]: " ++ v)) [].

Definition tool_memory_forget_execute (params : cstr) : outcome :=
  let '(key, v) := parse_string_param params (lit "key") in
  let '(namespace, v) := parse_string_param params (lit "namespace") in
  if negb key then refuse (lit "Key required") []
  else mk_outcome 0
         (succeed_with (lit "Forgotten: [" ++ (if namespace then v else lit "default") ++ lit "] " ++ v)) [].

(** ** Dispatch *)

Inductive builtin :=
  | T_shell | T_zsh | T_network | T_file_read | T_file_write | T_glob | T_grep | T_browse | T_stat
  | T_list | T_mkdir | T_rm | T_cp | T_mv | T_env | T_setenv | T_exists | T_edit | T_http_request
  | T_web_search | T_screenshot | T_image_info | T_git_clone | T_git_pull | T_git_commit | T_cron_add
  | T_cron_list | T_cron_remove | T_cron_run | T_board_info | T_memory_read | T_memory_map
  | T_memory_store | T_memory_recall | T_memory_forget | T_schedule | T_pushover | T_delegate
  | T_composio | T_browser_open | T_browser | T_git_operations | T_cron_runs | T_cron_update
  | T_proxy_config | T_schema.

(** The chain of name comparisons, in its order. *)
Definition builtin_names : list (cstr * builtin) :=
  [ (lit "shell", T_shell); (lit "bash", T_shell); (lit "cmd", T_shell); (lit "zsh", T_zsh);
    (lit "network", T_network); (lit "read", T_file_read); (lit "file_read", T_file_read);
    (lit "write", T_file_write); (lit "file_write", T_file_write); (lit "glob", T_glob);
    (lit "grep", T_grep); (lit "search", T_grep); (lit "browse", T_browse); (lit "web_fetch", T_browse);
    (lit "curl", T_browse); (lit "stat", T_stat); (lit "file_info", T_stat); (lit "list", T_list);
    (lit "ls", T_list); (lit "mkdir", T_mkdir); (lit "rm", T_rm); (lit "delete", T_rm); (lit "cp", T_cp);
    (lit "copy", T_cp); (lit "mv", T_mv); (lit "move", T_mv); (lit "env", T_env); (lit "getenv", T_env);
    (lit "setenv", T_setenv); (lit "exists", T_exists); (lit "file_exists", T_exists); (lit "edit", T_edit);
    (lit "patch", T_edit); (lit "http_request", T_http_request); (lit "http", T_http_request);
    (lit "web_search", T_web_search); (lit "search", T_web_search); (lit "web_search_tool", T_web_search);
    (lit "screenshot", T_screenshot); (lit "screen_capture", T_screenshot); (lit "image_info", T_image_info);
    (lit "identify", T_image_info); (lit "git_clone", T_git_clone); (lit "clone", T_git_clone);
    (lit "git_pull", T_git_pull); (lit "pull", T_git_pull); (lit "git_commit", T_git_commit);
    (lit "commit", T_git_commit); (lit "cron_add", T_cron_add); (lit "cron_list", T_cron_list);
    (lit "cron_remove", T_cron_remove); (lit "cron_delete", T_cron_remove); (lit "cron_run", T_cron_run);
    (lit "hardware_board_info", T_board_info); (lit "board_info", T_board_info);
    (lit "hardware_memory_read", T_memory_read); (lit "memory_read", T_memory_read);
    (lit "hardware_memory_map", T_memory_map); (lit "memory_map", T_memory_map);
    (lit "memory_store", T_memory_store); (lit "store", T_memory_store);
    (lit "memory_recall", T_memory_recall); (lit "recall", T_memory_recall);
    (lit "memory_forget", T_memory_forget); (lit "forget", T_memory_forget); (lit "schedule", T_schedule);
    (lit "delay", T_schedule); (lit "pushover", T_pushover); (lit "notify", T_pushover);
    (lit "delegate", T_delegate); (lit "forward", T_delegate); (lit "composio", T_composio);
    (lit "browser_open", T_browser_open); (lit "open_browser", T_browser_open); (lit "browser", T_browser);
    (lit "web_browser", T_browser); (lit "git_operations", T_git_operations);
    (lit "git_ops", T_git_operations); (lit "cron_runs", T_cron_runs); (lit "cron_history", T_cron_runs);
    (lit "cron_update", T_cron_update); (lit "proxy_config", T_proxy_config); (lit "proxy", T_proxy_config);
    (lit "schema", T_schema); (lit "schema_clean", T_schema) ].

Definition find_builtin (name : cstr) : option builtin :=
  snd <$> List.find (λ x, streq name x.1) builtin_names.

(** The tools behind the approval gate, with the action they ask for. *)
Definition risky_action (b : builtin) : option cstr :=
  match b with
  | T_shell => Some (lit "shell")
  | T_zsh => Some (lit "zsh")
  | T_network => Some (lit "network")
  | T_file_write => Some (lit "write")
  | T_rm => Some (lit "rm")
  | _ => None
  end.

(** The tools of [ToolsRead] and [ToolsCommand], and the registered ones. *)
Context (other_tool : builtin → cstr → option outcome).
Context (registered : cstr → option (cstr → outcome)).

Definition run_builtin (t : tools_t) (b : builtin) (params : cstr) : option outcome :=
  match b with
  | T_shell => tool_shell_execute t params
  | T_zsh => tool_zsh_execute t params
  | T_network => tool_network_execute t params
  | T_file_write => Some (tool_file_write_execute params)
  | T_mkdir => Some (tool_mkdir_execute params)
  | T_rm => Some (tool_rm_execute params)
  | T_cp => Some (tool_cp_execute params)
  | T_mv => Some (tool_mv_execute params)
  | T_setenv => Some (tool_setenv_execute params)
  | T_memory_store => Some (tool_memory_store_execute params)
  | T_memory_recall => Some (tool_memory_recall_execute params)
  | T_memory_forget => Some (tool_memory_forget_execute params)
  | _ => other_tool b params
  end.

(** The outcome of [tools_execute]: its code and the result with the success
    flag it sets from the code of the tool. *)
Definition tools_execute (t : tools_t) (name params : cstr) : option outcome :=
  let finish (o : outcome) : outcome :=
    let ok := o_rc o =? 0 in
    mk_outcome (if ok then 0 else -1)
      (mk_result (r_result (o_result o)) ok (r_error (o_result o))) (o_calls o) in
  match find_builtin name with
  | Some b =>
      match (match risky_action b with Some a => check_approval_risky t a | None => None end) with
      | Some e => Some (mk_outcome (-1) (mk_result [] false e) [])
      | None => finish <$> run_builtin t b params
      end
  | None =>
      match registered name with
      | Some f => Some (finish (f params))
      | None => Some (mk_outcome (-1) result_zero [])
      end
  end.

End tools.

(** ** The approval gate *)

Lemma risky_refused os err other reg t m name params b a :
  g_approval t = Some m → g_require_approval t = true → approval_reachable m →
  find_builtin name = Some b → risky_action b = Some a →
  tools_execute os err other reg t name params =
  Some (mk_outcome (-1) (mk_result [] false (snprintf_s ERROR_LEN (lit "Approval required for " ++ a))) []).
Proof.
  intros Hm Hreq Hr Hb Ha. unfold tools_execute. rewrite Hb, Ha.
  unfold check_approval_risky. rewrite Hm, Hreq. cbn [negb].
  rewrite check_refused; [|done|by destruct b; simplify_eq/=]. done.
Qed.

(** C17: while approval is required and the manager is in any state its
    operations can produce, no risky tool (shell, zsh, network, write, rm and
    their aliases) makes a system call, whatever its parameters: it is refused
    with the name of the action. *)
Theorem risky_tools_gated os err other reg t m name params b a :
  g_approval t = Some m → g_require_approval t = true → approval_reachable m →
  find_builtin name = Some b → risky_action b = Some a →
  ∃ o, tools_execute os err other reg t name params = Some o ∧ o_calls o = [] ∧ o_rc o = -1 ∧
       r_error (o_result o) = snprintf_s ERROR_LEN (lit "Approval required for " ++ a).
Proof.
  intros. eexists. split; [by eapply risky_refused|]. by split_and!.
Qed.

Definition tools_ex : tools_t := mk_tools None (Some approval_manager_init) true.

Lemma risky_tools_gated_witness :
  ∃ o, tools_execute (λ _, mk_answer 0 [] false) [] (λ _ _, Some (refuse [] [])) (λ _, None) tools_ex
         (lit "bash") (lit "ls") = Some o ∧ o_calls o = [] ∧ o_rc o = -1 ∧
       r_error (o_result o) = snprintf_s ERROR_LEN (lit "Approval required for " ++ lit "shell").
Proof.
  apply (risky_tools_gated _ _ _ _ tools_ex approval_manager_init (lit "bash") (lit "ls") T_shell (lit "shell"));
    [done | done | apply reach_init | done | done].
Defined.

(** ** The shell tools *)

(** The tools that need nothing but the calls they make. *)
Definition plain_tool (b : builtin) : bool :=
  match b with
  | T_shell | T_zsh | T_network | T_file_write | T_mkdir | T_rm | T_cp | T_mv | T_setenv
  | T_memory_store | T_memory_recall | T_memory_forget => true
  | _ => false
  end.

(** Such a tool completes when the commands it can run give less output than
    its buffer holds. *)
Lemma tools_execute_total os err other reg t name params :
  (∀ b, find_builtin name = Some b → plain_tool b = true) →
  (∀ c, Z.of_nat (length (output (os c))) < SHELL_MAX_OUTPUT - 10) →
  ∃ o, tools_execute os err other reg t name params = Some o.
Proof.
  intros Hplain Hout.
  assert (∀ shell p, ∃ o, run_shell os t shell p = Some o) as Hsh.
  { intros shell p. unfold run_shell. destruct (parse_string_param p (lit "command")) as [? ?].
    do 4 (case_if; [by eexists|]). rewrite (proj2 (Z.leb_gt _ _)) by apply Hout. by eexists. }
  unfold tools_execute. destruct (find_builtin name) as [b|].
  - destruct (match risky_action b with Some _ => _ | None => _ end); [by eexists|].
    assert (∃ o, run_builtin os err other t b params = Some o) as [o ->] by (specialize (Hplain b eq_refl); destruct b; try discriminate Hplain; (apply Hsh || by eexists)).
    by eexists.
  - destruct (reg name); by eexists.
Qed.

(** C18: whatever its parameters, a shell tool runs at most one command, and
    only one that contains none of the dangerous patterns, that the shell
    policy allows, that is not empty and shorter than 32768 bytes, and with a
    time limit between 1 and 300 seconds. *)
Theorem shell_runs_guarded os t shell params o :
  run_shell os t shell params = Some o →
  o_calls o = [] ∨
  ∃ command timeout, o_calls o = [Sys_run shell command timeout] ∧
    Forall (λ p, contains command p = false) DANGEROUS_PATTERNS ∧
    check_shell_policy (g_shell_policy t) command = 0 ∧
    command ≠ [] ∧ Z.of_nat (length command) < SHELL_MAX_INPUT ∧ 1 <= timeout <= 300.
Proof.
  unfold run_shell. destruct (parse_string_param params (lit "command")) as [p v].
  set (command := if p then v else params).
  destruct (SHELL_MAX_INPUT <=? Z.of_nat (length command)) eqn:El; [intros [= <-]; by left|].
  destruct (length command =? 0)%nat eqn:E0; [intros [= <-]; by left|].
  destruct (negb (check_dangerous_command command =? 0)) eqn:Ed; [intros [= <-]; by left|].
  destruct (negb (check_shell_policy (g_shell_policy t) command =? 0)) eqn:Ep; [intros [= <-]; by left|].
  destruct (SHELL_MAX_OUTPUT - 10 <=? _); [done|]. intros [= <-]. right.
  eexists command, _. cbn [o_calls]. bsplit. apply Nat.eqb_neq in E0.
  split_and!; [done| |done|by destruct command|done|..].
  - unfold check_dangerous_command in Ed.
    destruct (existsb (contains command) DANGEROUS_PATTERNS) eqn:Ex; [done|].
    apply Forall_forall. intros q Hq. destruct (contains command q) eqn:Ec; [|done].
    assert (existsb (contains command) DANGEROUS_PATTERNS = true); [|congruence].
    apply existsb_exists. exists q. split; [by apply list_elem_of_In | done].
  - destruct ((_ <=? 0) || (300 <? _)) eqn:Et; [unfold SHELL_TIMEOUT_SECONDS; lia|].
    apply orb_false_iff in Et as [? ?]. bsplit. lia.
  - destruct ((_ <=? 0) || (300 <? _)) eqn:Et; [unfold SHELL_TIMEOUT_SECONDS; lia|].
    apply orb_false_iff in Et as [? ?]. bsplit. lia.
Qed.

Lemma shell_runs_guarded_witness :
  ∃ o, run_shell (λ _, mk_answer 0 (lit "out") false) (mk_tools None None false) None (lit "ls") = Some o ∧
  (o_calls o = [] ∨
   ∃ command timeout, o_calls o = [Sys_run None command timeout] ∧
    Forall (λ p, contains command p = false) DANGEROUS_PATTERNS ∧
    check_shell_policy None command = 0 ∧
    command ≠ [] ∧ Z.of_nat (length command) < SHELL_MAX_INPUT ∧ 1 <= timeout <= 300).
Proof.
  eexists. split; [vm_compute; reflexivity|].
  apply (shell_runs_guarded (λ _, mk_answer 0 (lit "out") false) (mk_tools None None false) None (lit "ls")). vm_compute. reflexivity.
Defined.

(** ** Parameters *)

Lemma rstrip_last f s b : f b = false → rstrip f (s ++ [b]) = s ++ [b].
Proof.
  intros Hb. unfold rstrip. rewrite reverse_app. cbn [reverse rev_append app].
  change (reverse [b] ++ reverse s) with (b :: reverse s). cbn [skip_while]. rewrite Hb.
  rewrite reverse_cons, reverse_involutive. done.
Qed.

(** A value the parser returns unchanged: it starts and ends with a byte that
    is neither trimmed nor a delimiter. *)
Definition plain_value (v : cstr) : Prop :=
  Forall (λ b, param_end b = false) v ∧ (length v < PARAM_LEN)%nat ∧
  ∃ c d m, (v = c :: m ∧ param_skip c = false) ∧ last v = Some d ∧ d ≠ 32.

(** Parameters round trip: from the object [{"key": "value"}] the parser
    extracts the value, for keys without colon and quote and for values
    without delimiters and outer blanks. *)
Theorem param_roundtrip key v :
  Forall (λ b, b ≠ ch ":" ∧ b ≠ 34) key → (length key + 2 < 64)%nat → plain_value v →
  parse_string_param (lit "{" ++ quote key ++ lit ": " ++ quote v ++ lit "}") key = (true, v).
Proof.
  intros Hk Hkl (Hv & Hl & c & d & m & [Hc Hcs] & Hd & Hd32). unfold parse_string_param.
  rewrite snprintf_s_id by (unfold quote; rewrite !length_app; cbn [length]; lia).
  assert (strstr (lit "{" ++ quote key ++ lit ": " ++ quote v ++ lit "}") (quote key) = Some 1%nat) as ->.
  { change (lit "{") with [123]. cbn [app strstr]. unfold quote at 2. cbn [app has_prefix].
    change (34 =? 123) with false. cbn [andb].
    assert (has_prefix (quote key) (quote key ++ lit ": " ++ quote v ++ lit "}") = true) as Hp
      by (apply has_prefix_spec; eauto).
    destruct (quote key ++ lit ": " ++ quote v ++ lit "}"); cbn [strstr]; by rewrite Hp. }
  change (drop 1 (lit "{" ++ quote key ++ lit ": " ++ quote v ++ lit "}"))
    with (quote key ++ lit ": " ++ quote v ++ lit "}").
  assert (strchr (quote key ++ lit ": " ++ quote v ++ lit "}") (ch ":") = Some (length (quote key))) as ->.
  { assert (Forall (λ b, b ≠ ch ":") (quote key)) as Hq.
    { unfold quote. apply Forall_app. split; [by repeat constructor|]. apply Forall_app.
      split; [|by repeat constructor]. eapply Forall_impl; [exact Hk|]. by intros b []. }
    induction Hq as [|x q Hx Hq IH]; [done|]. cbn [app strchr]. rewrite (proj2 (Z.eqb_neq _ _)) by done.
    by rewrite IH. }
  replace (S (length (quote key))) with (length (quote key) + 1)%nat by lia. rewrite drop_app_add.
  change (drop 1 (lit ": " ++ quote v ++ lit "}")) with ([32] ++ quote v ++ lit "}").
  unfold quote. rewrite <- !app_assoc. rewrite Hc. cbn [app].
  change (32 :: 34 :: c :: m ++ 34 :: lit "}") with ([32; 34] ++ c :: m ++ 34 :: lit "}").
  rewrite (skip_while_app_stop param_skip [32; 34] c (m ++ 34 :: lit "}") Hcs ltac:(by repeat constructor)).
  change (c :: m ++ 34 :: lit "}") with ((c :: m) ++ 34 :: lit "}"). rewrite <- Hc.
  rewrite take_while_app_stop; [|done|].
  2: { eapply Forall_impl; [exact Hv|]. intros b Hb. cbn beta in *. by rewrite Hb. }
  rewrite take_ge by lia.
  apply last_Some in Hd as (v' & ->). 
  assert (param_end d = false) as Hde by (apply Forall_app in Hv as [_ Hv]; by apply Forall_cons in Hv as [? _]).
  rewrite rstrip_last.
  - by destruct v'.
  - unfold param_end in Hde. apply orb_false_iff in Hde as [Hde _]. apply orb_false_iff in Hde as [_ Hde].
    rewrite Hde. apply orb_false_iff. split; [|done]. by apply Z.eqb_neq.
Qed.

Lemma param_roundtrip_witness :
  parse_string_param (lit "{" ++ quote (lit "command") ++ lit ": " ++ quote (lit "ls -la /tmp") ++ lit "}")
    (lit "command") = (true, lit "ls -la /tmp").
Proof.
  apply param_roundtrip; [repeat constructor; done | vm_compute; lia |].
  split_and!; [repeat constructor | vm_compute; lia |].
  exists 108, 112, (lit "s -la /tmp"). split_and!; done.
Defined.

(** ** The shared buffer *)

(** The file tools act on the wrong texts.  All parameters of a tool are
    pointers to one buffer, so every text the tool uses is that of the last
    parameter it parsed (empty when that one is missing): [mkdir] creates the
    directory named by "mode", [rm] looks at the path named by "force", [mv]
    renames "destination" to itself, [setenv] sets a variable named by its
    value. *)
Theorem file_tools_use_last_parameter os err params :
  (∀ c, c ∈ o_calls (tool_mkdir_execute os err params) →
     ∃ mode, c = Sys_mkdir (parse_string_param params (lit "mode")).2 mode) ∧
  (∀ c, c ∈ o_calls (tool_rm_execute os err params) →
     let v := (parse_string_param params (lit "force")).2 in
     c = Sys_stat v ∨ c = Sys_rmdir v ∨ c = Sys_unlink v ∨
     c = Sys_system (snprintf_s (Z.to_nat 2048) (lit "rm -rf " ++ v))) ∧
  (∀ c, c ∈ o_calls (tool_mv_execute os err params) →
     let v := (parse_string_param params (lit "destination")).2 in c = Sys_rename v v) ∧
  (∀ c, c ∈ o_calls (tool_setenv_execute os err params) →
     let v := (parse_string_param params (lit "value")).2 in c = Sys_setenv v v ∨ c = Sys_setenv v []).
Proof.
  assert (∀ c e, c ∉ o_calls (refuse e [])) as Hnil by (intros c e H; by apply elem_of_nil in H).
  split_and!; intros c.
  - unfold tool_mkdir_execute. destruct (parse_string_param params (lit "path")) as [[] ?]; [|intros H; by apply Hnil in H].
    destruct (parse_string_param params (lit "parents")) as [? ?].
    destruct (parse_string_param params (lit "mode")) as [mp v]. cbn [negb snd].
    destruct (code _ =? 0); intros ->%list_elem_of_singleton; eauto.
  - unfold tool_rm_execute. destruct (parse_string_param params (lit "path")) as [[] ?]; [|intros H; by apply Hnil in H].
    destruct (parse_string_param params (lit "recursive")) as [r ?].
    destruct (parse_string_param params (lit "force")) as [f v]. cbn [negb snd].
    destruct (negb _); [destruct (is_true f v); intros ->%list_elem_of_singleton; by left|].
    destruct (is_dir _), (is_true r v); destruct (code _ =? 0);
      intros [-> | ->%list_elem_of_singleton]%elem_of_cons; eauto.
  - unfold tool_mv_execute. destruct (parse_string_param params (lit "src")) as [s ?].
    destruct (parse_string_param params (lit "dest")) as [d ?].
    destruct (parse_string_param params (lit "destination")) as [dp v].
    destruct (negb s); [intros H; by apply Hnil in H|].
    destruct (negb d && negb dp); [intros H; by apply Hnil in H|].
    destruct (code _ =? 0); by intros ->%list_elem_of_singleton.
  - unfold tool_setenv_execute. destruct (parse_string_param params (lit "name")) as [s ?].
    destruct (parse_string_param params (lit "value")) as [d v].
    destruct (negb s); [intros H; by apply Hnil in H|].
    destruct (code _ =? 0); intros ->%list_elem_of_singleton; destruct d; eauto.
Qed.

(** ** Outbound hosts *)

(** The allow list is matched by substring: every host that contains an
    allowed name somewhere passes, so any domain of the form
    [github.com.<anything>] is accepted, while "localhost" and "127.0.0.1",
    which are on the list, are refused as private addresses. *)
Theorem allow_list_by_substring suffix path :
  Forall (λ b, b ≠ ch "/" ∧ b ≠ ch ":") suffix → (length suffix < 200)%nat →
  is_domain_allowed (Some (lit "https://github.com." ++ suffix ++ lit "/" ++ path)) = true ∧
  is_domain_allowed (Some (lit "http://localhost/" ++ path)) = false ∧
  is_domain_allowed (Some (lit "http://127.0.0.1/" ++ path)) = false.
Proof.
  intros Hs Hl. split_and!; [|done|done].
  change (is_domain_allowed (Some (lit "https://github.com." ++ suffix ++ lit "/" ++ path))) with
    (let host := domain_host (lit "github.com." ++ suffix ++ lit "/" ++ path) in
     if is_private_ip host then false else existsb (contains host) ALLOWED_DOMAINS).
  cbv zeta.
  assert (domain_host (lit "github.com." ++ suffix ++ lit "/" ++ path) = lit "github.com." ++ suffix) as ->.
  { unfold domain_host. rewrite app_assoc.
    assert (Forall (λ b, b ≠ ch "/" ∧ b ≠ ch ":") (lit "github.com." ++ suffix)) as Hh
      by (apply Forall_app; split; [by repeat constructor | done]).
    set (host := lit "github.com." ++ suffix) in *.
    assert (length host < 256)%nat by (subst host; rewrite length_app; change (length (lit "github.com.")) with 11%nat; lia).
    change (lit "/" ++ path) with (ch "/" :: path).
    rewrite strchr_app by (eapply Forall_impl; [exact Hh|]; by intros b []).
    rewrite (proj2 (Nat.ltb_lt _ _)) by done. rewrite take_app_length.
    assert (strchr host (ch ":") = None) as ->; [|done].
    clear -Hh. induction Hh as [|x h [_ Hx] _ IH]; [done|]. cbn [strchr].
    rewrite (proj2 (Z.eqb_neq _ _)) by done. by rewrite IH. }
  assert (is_private_ip (lit "github.com." ++ suffix) = false) as ->.
  { unfold is_private_ip. apply orb_false_iff. split; [done|]. by apply streq_false. }
  apply existsb_exists. exists (lit "github.com"). split.
  - apply list_elem_of_In. apply (bool_decide_unpack _). by vm_compute.
  - apply contains_spec. by exists [], (lit "." ++ suffix).
Qed.

Lemma allow_list_by_substring_witness :
  is_domain_allowed (Some (lit "https://github.com." ++ lit "evil.example" ++ lit "/" ++ lit "x")) = true.
Proof.
  apply (allow_list_by_substring (lit "evil.example") (lit "x")); [repeat constructor; done | vm_compute; lia].
Defined.
