(* ===== verification/ToolsProcess.v ===== *)
(** * Processes of the tools: [src/tools/tools.c]

    How a shell tool runs its command ([run_with_timeout], with the
    environment [setup_secure_env] leaves to it), the workspace test of a path,
    the registry of additional tools and the list of the built-in ones.

    The environment is the list of the strings that [environ] points to.  The
    loop that should remove the unsafe variables cuts each string at its
    equals sign while it calls [unsetenv]; the model keeps this order of
    events.  A run of a command is the sequence of what [select], the clock,
    [read] and [waitpid] report in each round of the loop. *)
From S2P Require Import Prelude Floats Tools.

(** ** The environment *)

Definition SAFE_ENV_VARS : list cstr :=
  map lit
    ["HOME"%string; "USER"%string; "PATH"%string; "PWD"%string; "SHELL"%string; "TERM"%string; "LANG"%string;
     "LC_ALL"%string; "TMPDIR"%string; "TZ"%string; "DISPLAY"%string; "XAUTHORITY"%string;
     "DOCTORCLAW_SHELL"%string].

(** A string of the environment that gives [name] a value. *)
Definition defines (name e : cstr) : bool := has_prefix (name ++ [61]) e.

Definition getenv (name : cstr) (env : list cstr) : option cstr :=
  drop (length name + 1) <$> List.find (defines name) env.

Definition valid_name (name : cstr) : bool :=
  match name with [] => false | _ => match strchr name 61 with Some _ => false | None => true end end.

Definition unsetenv (name : cstr) (env : list cstr) : list cstr :=
  if valid_name name then List.filter (λ e, negb (defines name e)) env else env.

(** [setenv(name, value, 1)]: in place, or at the end. *)
Fixpoint setenv (name value : cstr) (env : list cstr) : list cstr :=
  match env with
  | [] => [name ++ [61] ++ value]
  | e :: env' => if defines name e then (name ++ [61] ++ value) :: env' else e :: setenv name value env'
  end.

(** The loop, from index [i]: the string is cut while [unsetenv] looks for it,
    and whole again afterwards. *)
Fixpoint filter_env (fuel i : nat) (env : list cstr) : list cstr :=
  match fuel with
  | O => env
  | S fuel' =>
      match env !! i with
      | None => env
      | Some e =>
          match strchr e 61 with
          | None => filter_env fuel' (S i) env
          | Some k =>
              let var := take k e in
              if existsb (streq var) SAFE_ENV_VARS then filter_env fuel' (S i) env
              else
                let self := match unsetenv var [var] with [] => [] | _ => [e] end in
                filter_env fuel' (S i) (unsetenv var (take i env) ++ self ++ unsetenv var (drop (S i) env))
          end
      end
  end.

Definition UNSAFE_ENV_VARS : list cstr :=
  map lit ["LD_PRELOAD"%string; "LD_LIBRARY_PATH"%string; "BASH_ENV"%string; "ENV"%string; "IFS"%string; "PS1"%string].

Definition setup_secure_env (env : list cstr) : list cstr :=
  let env := filter_env (length env) 0 env in
  let env := foldl (λ env v, unsetenv v env) env UNSAFE_ENV_VARS in
  let env := setenv (lit "PATH") (lit "/usr/local/bin:/usr/bin:/bin:/snap/bin") env in
  let env := setenv (lit "HOME") (lit "/tmp/doctorclaw_home") env in
  let prefer := default [] (getenv (lit "DOCTORCLAW_SHELL") env) in
  setenv (lit "SHELL") (match prefer with [] => lit "/bin/sh" | _ => prefer end) env.

(** ** Running a command *)

(** One round: the result of [select], the time since the start, the bytes
    [read] returned (none at the end or on an error), and whether [waitpid]
    has seen the end of the process. *)
Record round := mk_round {
  rd_select : Z;
  rd_sec : Z;
  rd_nsec : Z;
  rd_bytes : list Z;
  rd_exited : bool;
}.

Definition elapsed (r : round) : f64 :=
  f64_add (f64_of_Z (rd_sec r)) (f64_div (f64_of_Z (rd_nsec r)) (f64_of_Z 1000000000)).

(** How the loop ends, with the bytes in the output buffer. *)
Inductive loop_end := Killed | Finished (bytes : list Z).

(** [None] while the rounds are not enough. *)
Fixpoint read_loop (size : nat) (timeout : Z) (out : list Z) (rs : list round) : option loop_end :=
  match rs with
  | [] => None
  | r :: rs' =>
      if f64_ltb (f64_of_Z timeout) (elapsed r) then Some Killed
      else if 0 <? rd_select r then
        match rd_bytes r with
        | [] => Some (Finished out)
        | _ =>
            if (length out + length (rd_bytes r) <? size)%nat
            then read_loop size timeout (out ++ rd_bytes r) rs'
            else Some (Finished out)
        end
      else if rd_select r =? 0 then
        if rd_exited r then Some (Finished out) else read_loop size timeout out rs'
      else Some (Finished out)
  end.

(** The program that is executed and its first argument. *)
Definition shell_path (env : list cstr) (shell_override : option cstr) : cstr :=
  match shell_override with
  | Some (c :: s) => c :: s
  | _ => match getenv (lit "DOCTORCLAW_SHELL") env with Some (c :: s) => c :: s | _ => lit "/bin/sh" end
  end.

Definition prog_name (path : cstr) : cstr := reverse (take_while (λ b, negb (b =? 47)) (reverse path)).

(** [started]: the pipe and the process could be made.  [status]: the code of
    a process that has exited by itself.  The result is the return value and
    the output as a string. *)
Definition run_with_timeout (started : bool) (size : nat) (timeout : Z) (rs : list round) (status : option Z)
    : option (Z * cstr) :=
  if negb started then Some (-1, [])
  else
    e ← read_loop size timeout [] rs;
    Some (match e with
          | Killed =>
              (-1, snprintf_s size (lit "[TIMEOUT] Command exceeded " ++ fmt_dec timeout ++ lit " second limit"))
          | Finished out => (default (-1) status, until_nul out)
          end).

(** ** The workspace *)

Definition WORKSPACE_LEN : nat := 512.
Definition PATH_MAX : nat := Z.to_nat 4096.

Definition tools_set_workspace (dir : option cstr) : cstr :=
  match dir with Some d => take (WORKSPACE_LEN - 1) d | None => [] end.

(** The code and the content of [resolved], which is left alone ([None]) when
    the path is neither resolved nor fits. *)
Definition canonicalize_path (realpath : cstr → option cstr) (path : cstr) (max_len : nat) : Z * option cstr :=
  match realpath path with
  | Some p => (0, Some p)
  | None => (-1, if (length path <? max_len)%nat then Some (take (max_len - 1) path) else None)
  end.

Definition is_path_in_workspace (realpath : cstr → option cstr) (workspace path : cstr) : Z :=
  match workspace with
  | [] => 0
  | _ =>
      match canonicalize_path realpath path PATH_MAX with
      | (0, Some resolved) => if strneq (length workspace) resolved workspace then 1 else 0
      | _ => 0
      end
  end.

(** ** Registered tools *)

Record tool_impl_t := mk_impl {
  ti_name : cstr;
  ti_execute : option (cstr → outcome);
  ti_requires_approval : bool;
}.

Definition tools_register (tool : option tool_impl_t) (registry : list tool_impl_t) : list tool_impl_t * Z :=
  match tool with None => (registry, -1) | Some t => (t :: registry, 0) end.

(** The search of [tools_execute]: the newest tool of that name that has a
    function. *)
Definition find_registered (registry : list tool_impl_t) (name : cstr) : option (cstr → outcome) :=
  t ← List.find (λ t, streq (ti_name t) name && bool_decide (is_Some (ti_execute t))) registry;
  ti_execute t.

Definition tools_shutdown (registry : list tool_impl_t) : list tool_impl_t := [].

(** ** The list of built-in tools *)

Record tool_spec_t := mk_spec {
  ts_name : cstr;
  ts_description : cstr;
  ts_parameters : cstr;
  ts_requires_approval : bool;
}.

Definition builtin_tools : list tool_spec_t :=
  [ mk_spec (lit "shell") (lit "Execute shell commands") (jlit "{'command': 'string'}") false;
    mk_spec (lit "bash") (lit "Execute bash shell commands") (jlit "{'command': 'string'}") false;
    mk_spec (lit "zsh")
      (lit "Execute command in zsh (arrays, globs, etc.; set DOCTORCLAW_SHELL=/bin/zsh for default shell)")
      (jlit "{'command': 'string'}") false;
    mk_spec (lit "network") (lit "Run command with direct network stack access (e.g. ip addr, nc, ping, ifconfig)")
      (jlit "{'command': 'string'}") false;
    mk_spec (lit "read") (lit "Read file contents") (jlit "{'path': 'string'}") false;
    mk_spec (lit "write") (lit "Write file contents") (jlit "{'path': 'string', 'content': 'string'}") false;
    mk_spec (lit "glob") (lit "Find files matching pattern") (jlit "{'pattern': 'string', 'path': 'string'}") false;
    mk_spec (lit "grep") (lit "Search for pattern in files") (jlit "{'pattern': 'string', 'path': 'string'}") false;
    mk_spec (lit "browse") (lit "Fetch web page content") (jlit "{'url': 'string'}") false;
    mk_spec (lit "browser") (lit "Browser automation")
      (jlit "{'url': 'string', 'action': 'string', 'selector': 'string'}") false;
    mk_spec (lit "stat") (lit "Get file information") (jlit "{'path': 'string'}") false;
    mk_spec (lit "list") (lit "List directory contents") (jlit "{'path': 'string'}") false;
    mk_spec (lit "mkdir") (lit "Create directory") (jlit "{'path': 'string'}") false;
    mk_spec (lit "rm") (lit "Remove file or directory") (jlit "{'path': 'string', 'recursive': 'bool'}") false;
    mk_spec (lit "cp") (lit "Copy file or directory") (jlit "{'src': 'string', 'dest': 'string'}") false;
    mk_spec (lit "mv") (lit "Move file or directory") (jlit "{'src': 'string', 'dest': 'string'}") false;
    mk_spec (lit "env") (lit "Get environment variable") (jlit "{'name': 'string'}") false;
    mk_spec (lit "setenv") (lit "Set environment variable") (jlit "{'name': 'string', 'value': 'string'}") false;
    mk_spec (lit "exists") (lit "Check if file exists") (jlit "{'path': 'string'}") false;
    mk_spec (lit "edit") (lit "Edit file with sed-like operations")
      (jlit "{'path': 'string', 'find': 'string', 'replace': 'string'}") false;
    mk_spec (lit "browser_open") (lit "Open a URL in browser") (jlit "{'url': 'string', 'headless': 'bool'}") false;
    mk_spec (lit "cron_runs") (lit "List cron job execution history")
      (jlit "{'job_id': 'string', 'limit': 'int'}") false;
    mk_spec (lit "cron_update") (lit "Update an existing cron job")
      (jlit "{'job_id': 'string', 'schedule': 'string', 'command': 'string'}") false;
    mk_spec (lit "proxy_config") (lit "Configure proxy settings")
      (jlit "{'action': 'string', 'host': 'string', 'port': 'int'}") false;
    mk_spec (lit "schema") (lit "Clean and validate schema") (jlit "{'path': 'string', 'strategy': 'string'}") false ].

Definition tools_list : list tool_spec_t * nat := (builtin_tools, length builtin_tools).

(** Every tool on the list is one that [tools_execute] dispatches, and none of
    them says that it needs approval, the gated ones included. *)
Example listed_tools_known :
  Forall (λ t, is_Some (find_builtin (ts_name t)) ∧ ts_requires_approval t = false) tools_list.1.
Proof. apply (bool_decide_unpack _). vm_compute. exact I. Qed.

(** ** What a command sees of the environment *)

Lemma valid_name_strchr name rest : valid_name name = true → strchr (name ++ 61 :: rest) 61 = Some (length name).
Proof.
  intros Hv. assert (strchr name 61 = None) as Hn by (unfold valid_name in Hv; destruct name; [done|by destruct (strchr _ _)]).
  clear Hv. induction name as [|b name IH]; [done|]. cbn [strchr app length] in *. destruct (b =? 61); [done|].
  destruct (strchr name 61); [done|]. by rewrite IH.
Qed.

Lemma defines_inj a b e : valid_name a = true → valid_name b = true → defines a e = true → defines b e = true → a = b.
Proof.
  intros Ha Hb [t ->]%has_prefix_spec [t' Ht]%has_prefix_spec. rewrite <- !app_assoc in Ht. cbn [app] in Ht.
  pose proof (valid_name_strchr a t Ha) as H1. pose proof (valid_name_strchr b t' Hb) as H2.
  rewrite Ht, H2 in H1. injection H1 as H1. by apply app_inj_1 in Ht as [? _].
Qed.

Lemma defines_self name : defines name name = false.
Proof.
  destruct (defines name name) eqn:E; [|done]. apply has_prefix_spec in E as [t Ht].
  apply (f_equal length) in Ht. rewrite !length_app in Ht. cbn [length] in Ht. lia.
Qed.

Lemma find_filter {A} (f g : A → bool) l :
  (∀ x, f x = true → g x = true) → List.find f (List.filter g l) = List.find f l.
Proof.
  intros Hfg. induction l as [|x l IH]; [done|]. cbn [List.filter List.find].
  destruct (g x) eqn:Eg; cbn [List.find]; destruct (f x) eqn:Ef; try done. by rewrite Hfg in Eg.
Qed.

Lemma getenv_unsetenv name v env : valid_name name = true → name ≠ v → getenv name (unsetenv v env) = getenv name env.
Proof.
  intros Hn Hv. unfold getenv, unsetenv. destruct (valid_name v) eqn:Ev; [|done]. f_equal. apply find_filter.
  intros e He. destruct (defines v e) eqn:Ed; [|done]. destruct Hv. by eapply defines_inj.
Qed.

Lemma getenv_setenv name v x env :
  valid_name name = true → valid_name v = true → name ≠ v → getenv name (setenv v x env) = getenv name env.
Proof.
  intros Hn Hv Hne. unfold getenv. f_equal.
  assert (∀ t, defines name (v ++ [61] ++ t) = false) as Hnew.
  { intros t. destruct (defines name _) eqn:E; [|done]. destruct Hne. eapply (defines_inj name v); [done..|].
    apply has_prefix_spec. exists t. by rewrite <- app_assoc. }
  induction env as [|e env IH]; cbn [setenv List.find]; [by rewrite Hnew|].
  destruct (defines v e) eqn:Ed; cbn [List.find].
  - rewrite Hnew. destruct (defines name e) eqn:E; [|done]. destruct Hne. by eapply defines_inj.
  - destruct (defines name e); [done|apply IH].
Qed.

(** No name has two values. *)
Definition names_distinct (env : list cstr) : Prop :=
  ∀ i j ei ej k, env !! i = Some ei → env !! j = Some ej → strchr ei 61 = Some k →
    defines (take k ei) ej = true → i = j.

Lemma unsetenv_none v env : (∀ j e, env !! j = Some e → defines v e = false) → unsetenv v env = env.
Proof.
  intros H. unfold unsetenv. destruct (valid_name v); [|done].
  induction env as [|e env IH]; [done|]. cbn [List.filter]. rewrite (H 0%nat e eq_refl). cbn [negb].
  by rewrite IH by (intros j e' He; apply (H (S j) e' He)).
Qed.

(** The filter removes nothing: the only string that could be removed is the
    one that is cut at that moment. *)
Lemma filter_env_id env : names_distinct env → ∀ fuel i, filter_env fuel i env = env.
Proof.
  intros Hd. induction fuel as [|fuel IH]; intros i; cbn [filter_env]; [done|].
  destruct (env !! i) as [e|] eqn:Ei; [|done]. destruct (strchr e 61) as [k|] eqn:Ek; [|done].
  case_if; [done|]. cbn zeta. rewrite (unsetenv_none _ [take k e]).
  2:{ intros [|j] e' [= <-]. apply defines_self. }
  rewrite !unsetenv_none; [cbn [app]; rewrite (take_drop_middle env i e Ei); apply IH|..].
  - intros j e' He. destruct (defines _ e') eqn:E; [|done]. rewrite lookup_drop in He.
    specialize (Hd i _ e e' k Ei He Ek E). lia.
  - intros j e' [He Hj]%lookup_take_Some. destruct (defines _ e') eqn:E; [|done].
    specialize (Hd i _ e e' k Ei He Ek E). lia.
Qed.

(** The environment a command gets is the one of the assistant, keys of the
    providers included: apart from six names that are removed and three that
    are set, every variable has the value it had. *)
Theorem secure_env_keeps env name :
  names_distinct env → valid_name name = true →
  name ∉ UNSAFE_ENV_VARS → name ∉ [lit "PATH"; lit "HOME"; lit "SHELL"] →
  getenv name (setup_secure_env env) = getenv name env.
Proof.
  intros Hd Hn Hu Hs. unfold setup_secure_env. rewrite filter_env_id by done.
  rewrite !not_elem_of_cons in Hs. destruct Hs as (? & ? & ? & _).
  rewrite !getenv_setenv by done.
  assert (∀ vs, name ∉ vs → ∀ env, getenv name (foldl (λ env v, unsetenv v env) env vs) = getenv name env) as Hv; [|by apply Hv].
  clear -Hn. induction vs as [|v vs IH]; [done|]. intros [Hv Hvs]%not_elem_of_cons env. cbn [foldl].
  rewrite IH by done. by apply getenv_unsetenv.
Qed.

Definition env_ex : list cstr := [lit "OPENAI_API_KEY=sk-1"; lit "PATH=/bin"; lit "LD_PRELOAD=x.so"].

Lemma secure_env_keeps_witness :
  getenv (lit "OPENAI_API_KEY") (setup_secure_env env_ex) = getenv (lit "OPENAI_API_KEY") env_ex.
Proof.
  apply secure_env_keeps; [|done|by apply (bool_decide_unpack _)|by apply (bool_decide_unpack _)].
  intros [|[|[|i]]] [|[|[|j]]] ei ej k; try done; intros [= <-] [= <-] [= <-]; vm_compute; done.
Defined.

(** ** Output and end of a run *)

Definition got (r : round) : list Z := if 0 <? rd_select r then rd_bytes r else [].

Lemma read_loop_output size timeout rs : ∀ out b,
  (length out < size)%nat → read_loop size timeout out rs = Some (Finished b) →
  (length b < size)%nat ∧ ∃ k, b = out ++ concat (got <$> take k rs).
Proof.
  induction rs as [|r rs IH]; intros out b Ho; cbn [read_loop]; [done|].
  assert (∃ k, out = out ++ concat (got <$> take k (r :: rs))) as Hz by (exists O; by rewrite app_nil_r).
  assert (∀ out', out' = out ++ got r → (length out' < size)%nat → read_loop size timeout out' rs = Some (Finished b) →
    (length b < size)%nat ∧ ∃ k, b = out ++ concat (got <$> take k (r :: rs))) as Hstep.
  { intros out' -> Hl Hb. destruct (IH _ _ Hl Hb) as [? [k ->]]. split; [done|]. exists (S k).
    cbn [take fmap list_fmap concat]. by rewrite app_assoc. }
  case_if; [done|]. unfold got in Hstep. destruct (0 <? rd_select r).
  - destruct (rd_bytes r) as [|x bs] eqn:Eb; [intros [= <-]; by split|].
    destruct (Nat.ltb_spec (length out + length (x :: bs)) size) as [Hl|]; [|intros [= <-]; by split]. apply Hstep; [done|]. by rewrite length_app.
  - case_if; [|intros [= <-]; by split]. case_if; [intros [= <-]; by split|]. apply Hstep; by rewrite ?app_nil_r.
Qed.

(** C35: The text of a run fits its buffer: it is a first part of what the command
    wrote, up to a NUL, or the notice that the time was over. *)
Theorem run_output_bounded size timeout rs status rc text :
  (0 < size)%nat → run_with_timeout true size timeout rs status = Some (rc, text) →
  (length text < size)%nat ∧
  (rc = -1 ∧ text = snprintf_s size (lit "[TIMEOUT] Command exceeded " ++ fmt_dec timeout ++ lit " second limit") ∨
   rc = default (-1) status ∧ ∃ k, text = until_nul (concat (got <$> take k rs))).
Proof.
  intros Hs. unfold run_with_timeout. cbn [negb]. destruct (read_loop size timeout [] rs) as [[|b]|] eqn:E; [..|done];
    cbn [mbind option_bind]; intros [= <- <-].
  - split; [by apply snprintf_s_length|by left].
  - apply read_loop_output in E as [Hb [k ->]]; [|done]. split; [|right; eauto].
    cbn [app] in Hb. eapply Nat.le_lt_trans; [apply until_nul_le|done].
Qed.

Definition quick (out : cstr) : list round := [mk_round 1 0 0 out false; mk_round 1 0 5 [] true].

Lemma run_output_bounded_witness :
  (length (lit "file.txt") < 100)%nat ∧
  (0 = -1 ∧ lit "file.txt" = snprintf_s 100 (lit "[TIMEOUT] Command exceeded " ++ fmt_dec 60 ++ lit " second limit") ∨
   0 = default (-1) (Some 0) ∧ ∃ k, lit "file.txt" = until_nul (concat (got <$> take k (quick (lit "file.txt"))))).
Proof. apply run_output_bounded; [lia|vm_compute; reflexivity]. Defined.

(** A run ends as soon as the clock is past the limit, whatever the command
    does. *)
Theorem run_ends size timeout rs status :
  Exists (λ r, f64_ltb (f64_of_Z timeout) (elapsed r) = true) rs →
  is_Some (run_with_timeout true size timeout rs status).
Proof.
  intros Hex. unfold run_with_timeout. cbn [negb].
  assert (∀ out, is_Some (read_loop size timeout out rs)) as Hl; [|destruct (Hl []) as [e ->]; by eexists].
  induction Hex as [r rs Hr|r rs _ IH]; intros out; cbn [read_loop]; [by rewrite Hr|].
  repeat case_match; (done || apply IH).
Qed.

Lemma run_ends_witness : is_Some (run_with_timeout true 100 60 [mk_round 0 59 0 [] false; mk_round 0 61 0 [] false] None).
Proof. apply run_ends. right. left. vm_compute. reflexivity. Defined.

(** A command whose output fits and that ends in time gives all of it and its
    exit code. *)
Theorem run_complete size timeout rs last status :
  Forall (λ r, f64_ltb (f64_of_Z timeout) (elapsed r) = false ∧ 0 < rd_select r ∧ rd_bytes r ≠ []) rs →
  f64_ltb (f64_of_Z timeout) (elapsed last) = false → 0 < rd_select last → rd_bytes last = [] →
  (length (concat (rd_bytes <$> rs)) < size)%nat →
  run_with_timeout true size timeout (rs ++ [last]) status =
  Some (default (-1) status, until_nul (concat (rd_bytes <$> rs))).
Proof.
  intros Hrs Ht Hsel Hb Hl. unfold run_with_timeout. cbn [negb].
  assert (∀ out, (length out + length (concat (rd_bytes <$> rs)) < size)%nat →
    read_loop size timeout out (rs ++ [last]) = Some (Finished (out ++ concat (rd_bytes <$> rs)))) as ->; [|done|by apply Hl].
  clear Hl. induction Hrs as [|r rs (Hr & Hs & Hne) _ IH]; intros out Hlen; cbn [app read_loop fmap list_fmap concat].
  - rewrite Ht, (proj2 (Z.ltb_lt _ _) Hsel), Hb. by rewrite app_nil_r.
  - cbn [fmap list_fmap concat] in Hlen. rewrite length_app in Hlen.
    rewrite Hr, (proj2 (Z.ltb_lt _ _) Hs). destruct (rd_bytes r) as [|x bs] eqn:Eb; [done|].
    rewrite (proj2 (Nat.ltb_lt _ _)) by lia. rewrite IH by (rewrite length_app; lia). by rewrite app_assoc.
Qed.

Lemma run_complete_witness :
  run_with_timeout true 100 60 ([mk_round 1 0 7 (lit "a b") false] ++ [mk_round 1 60 0 [] false]) (Some 2) =
  Some (2, lit "a b").
Proof. apply run_complete; [constructor; [by vm_compute|done]|by vm_compute|done|done|vm_compute; lia]. Defined.

(** ** Workspace and registry *)

(** The test compares the first bytes only: a sibling whose name starts like
    the workspace counts as inside. *)
Example sibling_in_workspace : is_path_in_workspace Some (lit "/home/work") (lit "/home/work-old/keys") = 1.
Proof. reflexivity. Qed.

(** A registered tool is found under its name, before those registered
    earlier; a built-in tool of that name hides it. *)
Theorem registered_tool_found os err other t registry impl f params :
  ti_execute impl = Some f → find_builtin (ti_name impl) = None →
  tools_execute os err other (find_registered (tools_register (Some impl) registry).1) t (ti_name impl) params =
  Some (mk_outcome (if o_rc (f params) =? 0 then 0 else -1)
          (mk_result (r_result (o_result (f params))) (o_rc (f params) =? 0) (r_error (o_result (f params))))
          (o_calls (f params))).
Proof.
  intros Hf Hb. unfold tools_execute. rewrite Hb. unfold find_registered, tools_register. cbn [fst List.find].
  rewrite streq_refl, bool_decide_eq_true_2 by (rewrite Hf; eauto). cbn [andb mbind option_bind]. by rewrite Hf.
Qed.

Definition echo_tool : tool_impl_t := mk_impl (lit "echo") (Some (λ p, mk_outcome 0 (succeed_with p) [])) false.

Lemma registered_tool_found_witness :
  tools_execute (λ _, mk_answer 0 [] false) [] (λ _ _, None) (find_registered (tools_register (Some echo_tool) []).1)
    (mk_tools None None false) (lit "echo") (lit "hi") = Some (mk_outcome 0 (succeed_with (lit "hi")) []).
Proof.
  by apply (registered_tool_found (λ _, mk_answer 0 [] false) [] (λ _ _, None) (mk_tools None None false) [] echo_tool
    (λ p, mk_outcome 0 (succeed_with p) []) (lit "hi")).
Defined.
