(* ===== verification/JobWorker.v ===== *)
(** * The worker pool of [src/jobcache/jobworker.c]

    Workers take jobs from the queue of [JobCache], resolve the
    configuration of the job's instance and run it.  The agent is used
    through the interface [AgentOps]. *)
From S2P Require Import Prelude ToolsProcess Ring Instance JobCache.

(** What a worker needs of the agent: the workspace of a configuration,
    creating an agent from it, and the two ways of answering a prompt into a
    buffer of the given size, with a return code.  Creating an agent also sets
    the workspace of the tools, a static variable: its content afterwards is
    the first result. *)
Class AgentOps (config_t agent_t : Type) := {
  config_workspace : config_t → cstr;
  agent_init : config_t → cstr * option agent_t;
  agent_run_task : agent_t → cstr → nat → Z * cstr;
  agent_chat : agent_t → cstr → nat → Z * cstr;
}.

(** The promise of the agent: an answer fits the buffer it is written to, and
    the tools work in the workspace of the configuration. *)
Class AgentLaws {config_t agent_t} (ops : AgentOps config_t agent_t) := {
  init_workspace : ∀ c, (agent_init c).1 = tools_set_workspace (Some (config_workspace c));
  run_task_fits : ∀ a p n, (0 < n)%nat → (length (agent_run_task a p n).2 < n)%nat;
  chat_fits : ∀ a p n, (0 < n)%nat → (length (agent_chat a p n).2 < n)%nat;
}.

Definition RESULT_SIZE : nat := Z.to_nat 16384.

Section worker.
Context {config_t agent_t : Type} {ops : AgentOps config_t agent_t}.

(** The prompt of a chat job, and whether it asks for task focus. *)
Definition job_prompt (job : job_t) : bool * cstr :=
  let text := until_nul (payload job) in
  if (12 <=? payload_len job)%nat && strneq 12 text (lit "task_focus=1")
  then (true, skip_while (λ b, (b =? 10) || (b =? 13)) (drop 12 text))
  else (false, text).

(** The result text, the error code and the workspace of the tools afterwards;
    [system] gives the exit status of a command. *)
Definition dispatch_job (system : cstr → Z) (job : job_t) (config : config_t) (result_size : nat)
    : cstr * Z * cstr :=
  let g_workspace_dir := tools_set_workspace (Some (config_workspace config)) in
  match type job with
  | JOB_AGENT_CHAT =>
      let '(task_focus, prompt) := job_prompt job in
      match agent_init config with
      | (g_workspace_dir, None) => (snprintf_s result_size (lit "Agent init failed"), -1, g_workspace_dir)
      | (g_workspace_dir, Some agent) =>
          let '(r, text) :=
            if task_focus then agent_run_task agent prompt result_size
            else agent_chat agent prompt result_size in
          let text :=
            if negb (r =? 0) && bool_decide (text = [])
            then snprintf_s result_size (lit "Agent chat failed") else text in
          (text, if negb (r =? 0) then -1 else 0, g_workspace_dir)
      end
  | JOB_CRON_RUN =>
      if (0 <? payload_len job)%nat then
        let code := system (until_nul (payload job)) in
        (snprintf_s result_size (lit "exit=" ++ fmt_dec code), if negb (code =? 0) then code else 0, g_workspace_dir)
      else ([], 0, g_workspace_dir)
  | JOB_WEBHOOK => (snprintf_s result_size (lit "ok"), 0, g_workspace_dir)
  | JOB_PING => (snprintf_s result_size (lit "pong"), 0, g_workspace_dir)
  | JOB_OTHER _ => (snprintf_s result_size (lit "unknown job type"), -1, g_workspace_dir)
  end.

(** The configuration a job runs with. *)
Definition job_config (get_config : option (cstr → option config_t)) (default_config : config_t)
    (job : job_t) : config_t :=
  match get_config with
  | Some get =>
      default default_config (get (match instance_id job with [] => lit "default" | s => s end))
  | None => default_config
  end.

(** A completed callback: context, result and error. *)
Record response := mk_response { r_cb : Z; r_ctx : Z; r_text : cstr; r_error : Z }.

(** What a worker does with a job it has taken from the queue: the response,
    and the workspace of the tools afterwards. *)
Definition serve_job (system : cstr → Z) (get_config : option (cstr → option config_t))
    (default_config : config_t) (job : job_t) : option response * cstr :=
  let '(text, err, g_workspace_dir) := dispatch_job system job (job_config get_config default_config job) RESULT_SIZE in
  (match response_cb job with
   | Some cb => Some (mk_response cb (response_ctx job) text err)
   | None => None
   end, g_workspace_dir).

(** One round of [worker_thread_fn] that finds a job: the queue afterwards,
    the response and the workspace. *)
Definition worker_round (system : cstr → Z) (get_config : option (cstr → option config_t))
    (default_config : config_t) (c : jobcache_t) : option (jobcache_t * (option response * cstr)) :=
  match pop_section c 1000 with
  | PopDone c' job => Some (c', serve_job system get_config default_config job)
  | _ => None
  end.

(** ** Serving jobs *)

Lemma dispatch_fits `{!AgentLaws ops} system job config n :
  (0 < n)%nat → (length (dispatch_job system job config n).1.1 < n)%nat.
Proof.
  intros Hn. unfold dispatch_job. destruct (type job); cbn [fst]; try (by apply snprintf_s_length).
  - destruct (job_prompt job) as [focus prompt]. destruct (agent_init config) as [ws [agent|]];
      [|by apply snprintf_s_length].
    assert (length (if focus then agent_run_task agent prompt n else agent_chat agent prompt n).2 < n)%nat as Hfit
      by (destruct focus; [by apply run_task_fits | by apply chat_fits]).
    destruct (if focus then _ else _) as [r text]. cbn [fst snd] in *.
    destruct (negb (r =? 0) && bool_decide (text = [])); [by apply snprintf_s_length | done].
  - destruct (0 <? payload_len job)%nat; [by apply snprintf_s_length | simpl; lia].
Qed.

(** Whatever the job, the tools are confined to the workspace of its
    configuration when it is done. *)
Lemma dispatch_workspace `{!AgentLaws ops} system job config n :
  (dispatch_job system job config n).2 = tools_set_workspace (Some (config_workspace config)).
Proof.
  unfold dispatch_job. destruct (type job); try done; [|by case_if].
  destruct (job_prompt job) as [focus prompt]. pose proof (init_workspace config) as Hw.
  destruct (agent_init config) as [ws [agent|]]; [|done]. by destruct (if focus then _ else _).
Qed.

(** For an agent that keeps its promise, every response a worker sends
    back fits the result buffer of 16384 bytes, whatever the job, the exit
    status of its command or the configuration, and the tools work in the
    workspace of the job's configuration. *)
Theorem response_fits `{!AgentLaws ops} system get dflt job r :
  (serve_job system get dflt job).1 = Some r →
  (length (r_text r) < RESULT_SIZE)%nat ∧
  (serve_job system get dflt job).2 = tools_set_workspace (Some (config_workspace (job_config get dflt job))).
Proof.
  unfold serve_job. pose proof (dispatch_fits system job (job_config get dflt job) RESULT_SIZE) as H.
  pose proof (dispatch_workspace system job (job_config get dflt job) RESULT_SIZE) as Hw.
  destruct (dispatch_job _ _ _ _) as [[text err] ws]. destruct (response_cb job); [|done].
  intros [= <-]. split; [|done]. apply H. unfold RESULT_SIZE. lia.
Qed.

(** Workers and registry together: a job runs with the configuration
    registered for its instance, the job without instance with that of
    "default", and with the pool's own configuration when there is none. *)
Theorem worker_uses_registered_config (reg : registry_t (config_t := config_t)) dflt job :
  registry_inv reg → wf_cstr (instance_id job) →
  job_config (Some (λ s, default None (instance_get_config reg (Some s)))) dflt job =
  default dflt (assoc (match instance_id job with [] => lit "default" | s => s end) (names reg) (configs reg)).
Proof.
  intros Hreg Hid. unfold job_config.
  assert (wf_cstr (match instance_id job with [] => lit "default" | s => s end) ∧
          (match instance_id job with [] => lit "default" | s => s end) ≠ []) as [Hwf Hne].
  { destruct (instance_id job); [|done]. split; [|done]. apply (bool_decide_unpack _). by vm_compute. }
  by rewrite get_config_assoc.
Qed.

End worker.

(** ** The pool *)

Record jobworker_pool := mk_pool {
  min_workers : nat;
  max_workers : nat;
  scale_up_threshold : nat;
  scale_down_idle_cycles : nat;
  num_workers : nat;
  running : bool;
}.

Definition DEFAULT_SCALE_UP_DEPTH : nat := 8.

Definition jobworker_pool_create (min max : nat) : option jobworker_pool :=
  if (min =? 0)%nat || (max <? min)%nat then None
  else Some (mk_pool min max DEFAULT_SCALE_UP_DEPTH 3 0 false).

(** The number of calls before the first that fails. *)
Fixpoint leading_ok (l : list bool) : nat :=
  match l with true :: l' => S (leading_ok l') | _ => 0%nat end.

Definition set_workers (p : jobworker_pool) (n : nat) (r : bool) : jobworker_pool :=
  mk_pool (min_workers p) (max_workers p) (scale_up_threshold p) (scale_down_idle_cycles p) n r.

(** The results of [malloc], of the successive [pthread_create] calls for
    workers and of the one for the scaler. *)
Definition jobworker_pool_start (malloc_ok : bool) (creates : list bool) (scaler_ok : bool)
    (p : jobworker_pool) : jobworker_pool * Z :=
  if running p then (p, -1)
  else if negb malloc_ok then (set_workers p (num_workers p) true, -1)
  else
    let n := (num_workers p + leading_ok (take (min_workers p) creates))%nat in
    if scaler_ok then (set_workers p n true, 0) else (set_workers p n false, -1).

(** One period of the scaler, with the queue depth it reads and the results
    of [realloc] and [pthread_create]. *)
Definition scaler_tick (depth : nat) (realloc_ok create_ok : bool) (p : jobworker_pool) : jobworker_pool :=
  if running p && (scale_up_threshold p <=? depth)%nat && (num_workers p <? max_workers p)%nat
     && realloc_ok && create_ok
  then set_workers p (S (num_workers p)) (running p) else p.

Definition jobworker_pool_stop (p : jobworker_pool) : jobworker_pool :=
  if running p then set_workers p 0 false else p.

Definition jobworker_pool_set_scale_up_threshold (p : jobworker_pool) (depth : nat) : jobworker_pool :=
  mk_pool (min_workers p) (max_workers p) depth (scale_down_idle_cycles p) (num_workers p) (running p).

Definition jobworker_pool_set_scale_down_idle_cycles (p : jobworker_pool) (cycles : nat) : jobworker_pool :=
  mk_pool (min_workers p) (max_workers p) (scale_up_threshold p) cycles (num_workers p) (running p).

(** The workers that still run when the memory of the pool is freed; [scaler]
    tells whether the scaler thread was ever created.  [None]: a thread that
    was never created is joined. *)
Definition jobworker_pool_destroy (scaler : bool) (p : jobworker_pool) : option nat :=
  if running p && negb scaler then None else Some (num_workers (jobworker_pool_stop p)).

(** The life of a pool that is started only while it has no workers. *)
Inductive pool_step : jobworker_pool → jobworker_pool → Prop :=
  | pool_start m cs sc p : num_workers p = 0%nat → pool_step p (jobworker_pool_start m cs sc p).1
  | pool_tick d r c p : pool_step p (scaler_tick d r c p)
  | pool_stop p : pool_step p (jobworker_pool_stop p)
  | pool_threshold d p : pool_step p (jobworker_pool_set_scale_up_threshold p d)
  | pool_idle n p : pool_step p (jobworker_pool_set_scale_down_idle_cycles p n).

Inductive pool_reachable (p0 : jobworker_pool) : jobworker_pool → Prop :=
  | pool_reach_init : pool_reachable p0 p0
  | pool_reach_step p p' : pool_reachable p0 p → pool_step p p' → pool_reachable p0 p'.

Lemma leading_ok_le l : (leading_ok l ≤ length l)%nat.
Proof. induction l as [|[] l IH]; simpl; lia. Qed.

Definition pool_inv (min max : nat) (p : jobworker_pool) : Prop :=
  min_workers p = min ∧ max_workers p = max ∧ (num_workers p ≤ max)%nat.

Lemma pool_step_inv min max p p' : (min ≤ max)%nat → pool_step p p' → pool_inv min max p → pool_inv min max p'.
Proof.
  intros Hmm Hs (Hmin & Hmax & Hn). destruct Hs as [m cs sc p H0|d r c p|p|d p|n p].
  - unfold jobworker_pool_start. destruct (running p), m; try done. cbn [negb].
    pose proof (leading_ok_le (take (min_workers p) cs)) as Hl. rewrite length_take in Hl.
    destruct sc; (split_and!; [done..|]); cbn; lia.
  - unfold scaler_tick. case_if; [|done]. split_and!; [done..|]. cbn. lia.
  - unfold jobworker_pool_stop. destruct (running p); [|done]. split_and!; [done..|]. cbn. lia.
  - done.
  - done.
Qed.

(** The pool never has more workers than its maximum, over any sequence
    of starts (from an empty pool), scaler periods, stops and changes of the
    thresholds, and whatever thread creations fail. *)
Theorem pool_within_max min max p0 p :
  jobworker_pool_create min max = Some p0 → pool_reachable p0 p → (num_workers p ≤ max)%nat.
Proof.
  unfold jobworker_pool_create. case_if; [done|]. intros [= <-] Hr.
  assert (pool_inv min max p) as (_ & _ & Hmax); [|done].
  induction Hr as [|p p' _ IH Hs]; [split_and!; [done..|]; cbn; lia|].
  eapply pool_step_inv; [|done|done]. lia.
Qed.

(** Starting a fresh pool and destroying it, as the daemon does when the start
    fails: after a start that succeeded no worker is left; when the scaler
    thread could not be created the workers made before it run on in freed
    memory; when the allocation failed a thread is joined that never was. *)
Theorem start_then_destroy min max p m cs sc :
  jobworker_pool_create min max = Some p →
  jobworker_pool_destroy (m && sc) (jobworker_pool_start m cs sc p).1 =
    (if m then Some (if sc then 0%nat else leading_ok (take min cs)) else None) ∧
  ((jobworker_pool_start m cs sc p).2 = 0 ↔ m && sc = true).
Proof.
  unfold jobworker_pool_create. case_if; [done|]. intros [= <-].
  unfold jobworker_pool_start, jobworker_pool_destroy, jobworker_pool_stop. cbn [running]. by destruct m, sc.
Qed.

Lemma start_then_destroy_witness :
  jobworker_pool_destroy false (jobworker_pool_start true [true; true] false (mk_pool 2 16 8 3 0 false)).1 = Some 2%nat.
Proof. exact (proj1 (start_then_destroy 2 16 (mk_pool 2 16 8 3 0 false) true [true; true] false eq_refl)). Defined.

Lemma pool_within_max_witness :
  (num_workers (scaler_tick 9 true true
     (jobworker_pool_start true [true; true] true (mk_pool 2 3 8 3 0 false)).1) ≤ 3)%nat.
Proof.
  apply (pool_within_max 2 3 (mk_pool 2 3 8 3 0 false)); [reflexivity|].
  eapply pool_reach_step; [|apply pool_tick].
  eapply pool_reach_step; [apply pool_reach_init|by apply pool_start].
Defined.

(** ** An agent that keeps its promise *)

(** An agent that echoes its prompt. *)
#[export] Instance echo_ops : AgentOps Z Z := {
  config_workspace _ := lit "/ws";
  agent_init c := (lit "/ws", Some c);
  agent_run_task _ p n := (0, snprintf_s n p);
  agent_chat _ p n := (0, snprintf_s n p);
}.

#[export] Instance echo_laws : AgentLaws echo_ops.
Proof. split; intros; [done|by apply snprintf_s_length..]. Qed.

Definition chat_ex : job_t :=
  mk_job JOB_AGENT_CHAT [] (lit "task_focus=1" ++ [10] ++ lit "hello" ++ [0; 0]) 18 (Some 7) 3.

Lemma response_fits_witness :
  (serve_job (λ _, 0) None 5 chat_ex).1 = Some (mk_response 7 3 (lit "hello") 0) ∧
  (length (r_text (mk_response 7 3 (lit "hello") 0)) < RESULT_SIZE)%nat.
Proof.
  assert ((serve_job (λ _, 0) None 5 chat_ex).1 = Some (mk_response 7 3 (lit "hello") 0)) as H by by_eval.
  split; [exact H | exact (proj1 (response_fits (λ _, 0) None 5 chat_ex _ H))].
Defined.

Lemma worker_uses_registered_config_witness :
  job_config (Some (λ s, default None (instance_get_config registry_ex (Some s)))) 5 chat_ex =
  default 5 (assoc (match instance_id chat_ex with [] => lit "default" | s => s end)
               (names registry_ex) (configs registry_ex)).
Proof. apply (worker_uses_registered_config registry_ex 5 chat_ex); [apply registry_ex_inv | constructor]. Defined.
