(* ===== verification/Http.v ===== *)
(** * The HTTP layer of [src/providers/providers.c] (lines 11-300)

    The library state behind [providers_init], the reply buffer that
    [write_callback] grows, [http_post] and [http_get], and the limiter that
    every provider call passes.  curl is the class [Curl]: whether a handle
    can be had, and for a request the pieces of the reply handed to the
    callback, whether the transfer succeeded, and the status code.  Memory
    allocation is taken to succeed. *)
From S2P Require Import Prelude.

Record request := mk_request {
  rq_url : cstr;
  rq_headers : list cstr;
  rq_body : option cstr;
  rq_timeout : Z;
  rq_connect_timeout : Z;
}.

Record transfer := mk_transfer { tr_pieces : list (list Z); tr_ok : bool; tr_code : Z }.

Class Curl (W : Type) := {
  curl_easy_init : W → W * bool;
  curl_easy_perform : W → request → W * transfer;
}.

(** ** The reply buffer *)

(** [data]: NULL, the one byte of [malloc(1)] that nothing has written, or
    bytes with a NUL behind them. *)
Inductive reply_data := NoData | Unwritten | Written (bytes : list Z).

Record http_response_t := mk_http { data : reply_data; size : nat; http_status : Z }.

Definition http_response_zero : http_response_t := mk_http NoData 0 0.

Definition write_callback (contents : list Z) (resp : http_response_t) : http_response_t :=
  let old := match data resp with Written b => b | _ => [] end in
  mk_http (Written (take (size resp) old ++ contents)) (size resp + length contents) (http_status resp).

Definition http_response_free (resp : http_response_t) : http_response_t := mk_http NoData 0 (http_status resp).

(** The reply read as a string: [None] where the buffer holds no NUL, the
    inner option is the test of [resp.data]. *)
Definition reply_text (resp : http_response_t) : option (option cstr) :=
  match data resp with NoData => Some None | Unwritten => None | Written b => Some (Some (until_nul b)) end.

(** The buffer of the other files that receive a reply: NULL until a first
    piece arrives.  Running out of memory is not represented. *)
Record curl_response_t := mk_curl_response { cr_data : option (list Z); cr_size : nat }.

Definition curl_response_zero : curl_response_t := mk_curl_response None 0.

Definition append_piece (rsp : curl_response_t) (contents : list Z) : curl_response_t :=
  mk_curl_response (Some (take (cr_size rsp) (default [] (cr_data rsp)) ++ contents)) (cr_size rsp + length contents).

(** ** Library state and limiter *)

Record rate_limit_t := mk_rate_limit {
  last_request_time : Z;
  requests_this_minute : Z;
  max_requests_per_minute : Z;
}.

Record providers_t := mk_providers {
  global_curl : bool;
  curl_initialized : bool;
  g_rate_limits : list rate_limit_t;
  g_rate_limit_count : nat;
}.

Definition providers_zero : providers_t := mk_providers false false (replicate 16 (mk_rate_limit 0 0 0)) 0.

Definition refresh_limit (now : Z) (l : rate_limit_t) : rate_limit_t :=
  if (0 <? requests_this_minute l) && (60 <? now - last_request_time l)
  then mk_rate_limit (last_request_time l) 0 (max_requests_per_minute l) else l.

(** The limits afterwards and the number of one-second pauses. *)
Definition check_rate_limit (now : Z) (g : providers_t) : providers_t * nat :=
  let ls := imap (λ i l, if (i <? g_rate_limit_count g)%nat then refresh_limit now l else l) (g_rate_limits g) in
  (mk_providers (global_curl g) (curl_initialized g) ls (g_rate_limit_count g),
   length (filter (λ l, max_requests_per_minute l <= requests_this_minute l) (take (g_rate_limit_count g) ls))).

Definition count_request (now : Z) (l : rate_limit_t) : rate_limit_t :=
  let n := if 60 <? now - last_request_time l then 0 else requests_this_minute l in
  mk_rate_limit now (n + 1) (max_requests_per_minute l).

Definition update_rate_limit (now : Z) (g : providers_t) : providers_t :=
  mk_providers (global_curl g) (curl_initialized g)
    (imap (λ i l, if (i <? g_rate_limit_count g)%nat then count_request now l else l) (g_rate_limits g))
    (g_rate_limit_count g).

Section curl.
Context {W : Type} `{Curl W}.

Definition providers_init (w : W) (g : providers_t) : W * providers_t * Z :=
  if curl_initialized g then (w, g, 0)
  else
    let '(w, ok) := curl_easy_init w in
    if negb ok then (w, mk_providers false false (g_rate_limits g) (g_rate_limit_count g), -1)
    else
      (w, mk_providers true true
            (alter (λ l, mk_rate_limit (last_request_time l) (requests_this_minute l) 60) O (g_rate_limits g)) 1, 0).

Definition providers_shutdown (g : providers_t) : providers_t :=
  mk_providers false false (g_rate_limits g) (g_rate_limit_count g).

(** The common part of the two requests: the response, and whether the
    transfer succeeded; [None] when there is no handle. *)
Definition transfer_request (w : W) (g : providers_t) (rq : request)
    : W * providers_t * option (http_response_t * bool) :=
  let '(w, g) := if curl_initialized g then (w, g) else (providers_init w g).1 in
  let '(w, ok) := curl_easy_init w in
  if negb ok then (w, g, None)
  else
    let '(w, tr) := curl_easy_perform w rq in
    let resp := foldl (λ resp c, write_callback c resp) (mk_http Unwritten 0 0) (tr_pieces tr) in
    (w, g, Some (mk_http (data resp) (size resp) (tr_code tr), tr_ok tr)).

Definition http_post (w : W) (g : providers_t) (url : cstr) (headers : list cstr) (body : cstr)
    (resp : http_response_t) : W * providers_t * http_response_t * Z :=
  let '(w, g, r) := transfer_request w g (mk_request url headers (Some body) 120 30) in
  match r with
  | None => (w, g, resp, -1)
  | Some (resp, ok) =>
      (w, g, resp, if ok && (200 <=? http_status resp) && (http_status resp <? 300) then 0 else -1)
  end.

Definition http_get (w : W) (g : providers_t) (url : cstr) (headers : list cstr)
    (resp : http_response_t) : W * providers_t * http_response_t * Z :=
  let '(w, g, r) := transfer_request w g (mk_request url headers None 120 30) in
  match r with
  | None => (w, g, resp, -1)
  | Some (resp, ok) => (w, g, resp, if ok then 0 else -1)
  end.
End curl.

(** ** URL encoding *)

Definition url_plain (c : Z) : bool :=
  isdigit c || ((65 <=? c) && (c <=? 90)) || ((97 <=? c) && (c <=? 122)) ||
  (c =? 45) || (c =? 95) || (c =? 46) || (c =? 126).

(** [j] bytes are written; a byte that needs three and does not find them is
    left out. *)
Fixpoint url_encode_from (j dest_len : nat) (src : cstr) : cstr :=
  match src with
  | [] => []
  | c :: s =>
      if (j <? dest_len - 1)%nat then
        if url_plain c then c :: url_encode_from (S j) dest_len s
        else if (j + 3 <? dest_len)%nat
        then [37; hex_digit true (Z.shiftr c 4); hex_digit true (Z.land c 15)]
             ++ url_encode_from (j + 3) dest_len s
        else url_encode_from j dest_len s
      else []
  end.

(** [None]: [dest_len - 1] wraps around. *)
Definition url_encode (src : cstr) (dest_len : nat) : option cstr :=
  if (dest_len =? 0)%nat then None else Some (url_encode_from 0 dest_len src).

(** ** Replies *)

(** The buffer holds the pieces one behind the other. *)
Lemma append_piece_all pieces b :
  foldl append_piece (mk_curl_response (Some b) (length b)) pieces =
  mk_curl_response (Some (b ++ concat pieces)) (length (b ++ concat pieces)).
Proof.
  revert b. induction pieces as [|c l IH]; intros b; cbn [foldl concat]; [by rewrite app_nil_r|].
  unfold append_piece at 2. cbn [cr_data cr_size default]. rewrite take_ge by (cbn; lia).
  rewrite <- length_app, IH. by rewrite <- !app_assoc.
Qed.

Lemma pieces_collected pieces :
  foldl append_piece curl_response_zero pieces =
  match pieces with [] => curl_response_zero | _ => mk_curl_response (Some (concat pieces)) (length (concat pieces)) end.
Proof. destruct pieces as [|c l]; [done|]. exact (append_piece_all l c). Qed.

Lemma write_callback_all pieces b n st :
  length b = n →
  foldl (λ resp c, write_callback c resp) (mk_http (Written b) n st) pieces =
  mk_http (Written (b ++ concat pieces)) (n + length (concat pieces)) st.
Proof.
  revert b n. induction pieces as [|c l IH]; intros b n Hn; cbn [foldl concat].
  { by rewrite app_nil_r, Nat.add_0_r. }
  unfold write_callback at 2. cbn [data size http_status]. rewrite take_ge by lia.
  rewrite IH by (rewrite length_app; lia). by rewrite <- app_assoc, length_app, Nat.add_assoc.
Qed.

(** What a transfer leaves in the buffer. *)
Definition reply_of (pieces : list (list Z)) : reply_data :=
  match pieces with [] => Unwritten | _ => Written (concat pieces) end.

Lemma reply_pieces pieces :
  foldl (λ resp c, write_callback c resp) (mk_http Unwritten 0 0) pieces =
  mk_http (reply_of pieces) (length (concat pieces)) 0.
Proof.
  destruct pieces as [|c l]; [done|]. cbn [foldl concat]. unfold write_callback at 2. cbn [data size http_status].
  by rewrite write_callback_all, length_app.
Qed.

Lemma transfer_request_ready {W} `{Curl W} w g rq w1 w2 tr :
  curl_initialized g = true → curl_easy_init w = (w1, true) → curl_easy_perform w1 rq = (w2, tr) →
  transfer_request w g rq =
  (w2, g, Some (mk_http (reply_of (tr_pieces tr)) (length (concat (tr_pieces tr))) (tr_code tr), tr_ok tr)).
Proof.
  intros Hg Hi Hp. unfold transfer_request. rewrite Hg, Hi. cbn [negb]. rewrite Hp.
  by rewrite reply_pieces.
Qed.

(** A request through a ready library makes exactly one transfer; the buffer
    holds the pieces of the reply in order, and the code of [http_post] is 0
    exactly for a finished transfer with a status of 200 to 299, that of
    [http_get] for any finished transfer. *)
Theorem http_request_result {W} `{Curl W} w g url headers body resp w1 w2 w3 tr tr' :
  curl_initialized g = true → curl_easy_init w = (w1, true) →
  curl_easy_perform w1 (mk_request url headers (Some body) 120 30) = (w2, tr) →
  curl_easy_perform w1 (mk_request url headers None 120 30) = (w3, tr') →
  http_post w g url headers body resp =
    (w2, g, mk_http (reply_of (tr_pieces tr)) (length (concat (tr_pieces tr))) (tr_code tr),
     if bool_decide (tr_ok tr = true ∧ 200 <= tr_code tr < 300) then 0 else -1) ∧
  http_get w g url headers resp =
    (w3, g, mk_http (reply_of (tr_pieces tr')) (length (concat (tr_pieces tr'))) (tr_code tr'),
     if tr_ok tr' then 0 else -1).
Proof.
  intros Hg Hi Hp Hp'. unfold http_post, http_get.
  rewrite (transfer_request_ready _ _ _ _ _ _ Hg Hi Hp), (transfer_request_ready _ _ _ _ _ _ Hg Hi Hp').
  cbn [http_status]. split; [|done]. f_equal. case_bool_decide as E.
  - destruct E as (-> & ? & ?). rewrite (proj2 (Z.leb_le _ _)), (proj2 (Z.ltb_lt _ _)) by lia. done.
  - destruct (tr_ok tr), (200 <=? tr_code tr) eqn:E1, (tr_code tr <? 300) eqn:E2; bsplit; cbn [andb]; try done.
    destruct E. split; [done|lia].
Qed.

(** ** The limiter *)

(** The requests made at the given times, with the pauses before each. *)
Fixpoint requests_at (times : list Z) (g : providers_t) : list nat :=
  match times with
  | [] => []
  | now :: times' =>
      let '(g, pauses) := check_rate_limit now g in pauses :: requests_at times' (update_rate_limit now g)
  end.

(** No two successive times are more than a minute apart. *)
Fixpoint within_minute (last : Z) (times : list Z) : Prop :=
  match times with [] => True | t :: l => t - last <= 60 ∧ within_minute t l end.

Definition started (last n : Z) (rest : list rate_limit_t) : providers_t :=
  mk_providers true true (mk_rate_limit last n 60 :: rest) 1.

Lemma later_limits f (rest : list rate_limit_t) :
  imap (λ i l, if (S i <? 1)%nat then f l else l) rest = rest.
Proof. apply list_eq. intros i. rewrite list_lookup_imap. by destruct (rest !! i). Qed.

Lemma one_request now last n rest :
  now - last <= 60 ∨ n = 0 → 0 <= n →
  check_rate_limit now (started last n rest) = (started last n rest, if 60 <=? n then 1%nat else O) ∧
  update_rate_limit now (started last n rest) = started now (n + 1) rest.
Proof.
  intros Hn H0. unfold check_rate_limit, update_rate_limit, started. cbn [g_rate_limits g_rate_limit_count].
  rewrite !imap_cons. cbn [global_curl curl_initialized]. unfold compose. rewrite !later_limits.
  cbn [Nat.ltb Nat.leb]. unfold refresh_limit, count_request. cbn [last_request_time requests_this_minute max_requests_per_minute].
  assert ((0 <? n) && (60 <? now - last) = false) as -> by (destruct Hn; [apply andb_false_intro2|apply andb_false_intro1]; lia).
  assert ((if 60 <? now - last then 0 else n) = n) as -> by (destruct (60 <? now - last) eqn:?; [destruct Hn; lia|done]).
  split; [|done]. f_equal. cbn [take]. rewrite filter_cons. cbn [max_requests_per_minute requests_this_minute].
  destruct (60 <=? n) eqn:?; [rewrite decide_True by lia|rewrite decide_False by lia]; done.
Qed.

Lemma requests_at_pauses times last n rest :
  within_minute last times ∨ (n = 0 ∧ match times with [] => True | t :: l => within_minute t l end) → 0 <= n →
  requests_at times (started last n rest) =
  map (λ i, if 60 <=? n + Z.of_nat i then 1%nat else O) (seq 0 (length times)).
Proof.
  revert last n. induction times as [|t l IH]; intros last n Hw H0; [done|].
  destruct (one_request t last n rest) as [H1 H2]; [destruct Hw as [[? ?]|[? ?]]; auto|done|].
  cbn [requests_at]. rewrite H1, H2. cbn [length seq map]. rewrite Z.add_0_r. f_equal.
  rewrite IH by (try lia; left; destruct Hw as [[? ?]|[? ?]]; auto). rewrite <- seq_shift, map_map.
  apply map_ext. intros i. replace (n + 1 + Z.of_nat i) with (n + Z.of_nat (S i)) by lia. done.
Qed.

(** The limiter neither refuses a request nor measures a minute: after a
    start, as long as no two successive requests are more than 60 seconds
    apart, the first sixty pass at once and each later one waits one second,
    whatever the rate. *)
Theorem limiter_pauses_after_sixty {W} `{Curl W} w w' g times :
  curl_easy_init w = (w', true) → g = (providers_init w providers_zero).1.2 →
  match times with [] => True | t :: l => within_minute t l end →
  requests_at times g = map (λ i, if (60 <=? i)%nat then 1%nat else O) (seq 0 (length times)).
Proof.
  intros Hi -> Ht. unfold providers_init. cbn [curl_initialized providers_zero]. rewrite Hi. cbn [negb fst snd].
  change (requests_at times (started 0 0 (replicate 15 (mk_rate_limit 0 0 0))) =
          map (λ i, if (60 <=? i)%nat then 1%nat else O) (seq 0 (length times))).
  rewrite requests_at_pauses by (try lia; auto). apply map_ext. intros i.
  destruct (60 <=? 0 + Z.of_nat i) eqn:?, (60 <=? i)%nat eqn:?; bsplit; lia || done.
Qed.

(** ** A scripted network *)

(** The world is the list of transfers still to come. *)
#[global] Instance scripted : Curl (list transfer) := {
  curl_easy_init w := (w, true);
  curl_easy_perform w _ := match w with [] => ([], mk_transfer [] false 0) | t :: w' => (w', t) end;
}.

Definition ready : providers_t := started 0 0 (replicate 15 (mk_rate_limit 0 0 0)).

Lemma http_request_result_witness :
  (http_post [mk_transfer [lit "he"; lit "llo"] true 404] ready (lit "u") [] [] http_response_zero).1.2 =
    mk_http (Written (lit "hello")) 5 404 ∧
  (http_post [mk_transfer [lit "he"; lit "llo"] true 404] ready (lit "u") [] [] http_response_zero).2 = -1.
Proof.
  destruct (http_request_result [mk_transfer [lit "he"; lit "llo"] true 404] ready (lit "u") [] [] http_response_zero
              [mk_transfer [lit "he"; lit "llo"] true 404] [] [] (mk_transfer [lit "he"; lit "llo"] true 404)
              (mk_transfer [lit "he"; lit "llo"] true 404)) as [-> _];
    [done..|]. split; reflexivity.
Defined.

Lemma limiter_pauses_after_sixty_witness :
  requests_at (map (λ i, 1000 + 50 * Z.of_nat i) (seq 0 62)) ready = replicate 60 O ++ [1; 1]%nat.
Proof.
  rewrite (limiter_pauses_after_sixty ([] : list transfer) [] ready (map (λ i, 1000 + 50 * Z.of_nat i) (seq 0 62)));
    [by_eval|done|done|]. cbn. repeat split; lia.
Defined.
