(* ===== verification/ToolsRead.v ===== *)
(** * The tools of [src/tools/tools.c] that read

    Files, directories, the environment, device memory and the network.  What
    they see of the machine is the record [machine]; requests go through the
    class [Curl].  As in [Tools], [v] is the content of the one static buffer
    behind all parameters at the moment the code reads it. *)
From S2P Require Import Prelude Buffers Tools ToolsProcess Http.

Record stat_t := mk_stat { st_mode : Z; st_size : Z; st_mtime : Z; st_atime : Z; st_ctime : Z }.

Definition S_IFMT : Z := 61440.
Definition S_ISDIR (m : Z) : bool := Z.land m S_IFMT =? 16384.
Definition S_ISREG (m : Z) : bool := Z.land m S_IFMT =? 32768.

(** The state of the machine while a tool reads it. *)
Record machine := mk_machine {
  m_stat : cstr → option stat_t;
  m_realpath : cstr → option cstr;
  m_file : cstr → option (list Z);
  m_dir : cstr → option (list cstr);
  m_environ : list cstr;
  m_devmem : option (Z → nat → list Z);
  m_fnmatch : cstr → cstr → bool;
  m_regcomp : cstr → option (cstr → bool);
  m_ctime : Z → cstr;
  m_workspace : cstr;
}.

(** A text buffer of the length of the result. *)
Definition OUT_LEN : nat := RESULT_LEN.
Definition LINE_LEN : nat := Z.to_nat 4096.
Definition MAX_FILE_SIZE : Z := 10485760.
Definition INT_MAX : Z := 2147483647.

(** The lines [fgets] returns, as strings. *)
Definition lines_of (size : nat) (content : list Z) : list cstr := until_nul <$> fgets_lines size content.

Section read.
Context (m : machine) (os : syscall → answer) (strerror : cstr).

(** ** One file *)

(** The lines from number [start] on, at most [count] of them, each only if
    the text still fits; [None] is the overflow of [line_start + line_count]. *)
Fixpoint copy_lines (start count n : Z) (out : cstr) (ls : list cstr) : option cstr :=
  match ls with
  | [] => Some out
  | l :: ls' =>
      if negb (length out <? RESULT_LEN - 1)%nat then Some out
      else
        let n := n + 1 in
        if (0 <? start) && (n <? start) then copy_lines start count n out ls'
        else if (0 <? count) && (INT_MAX <? start + count) then None
        else if (0 <? count) && (start + count <=? n) then Some out
        else if (length out + length l <? RESULT_LEN)%nat then
          let out := out ++ l in
          if MAX_FILE_SIZE <=? Z.of_nat (length out) then Some out else copy_lines start count n out ls'
        else Some out
  end.

Definition tool_file_read_execute (params : cstr) : option outcome :=
  let '(path, v) := parse_string_param params (lit "path") in
  let '(path, v) := if path then (path, v) else parse_string_param params (lit "file") in
  if negb path then Some (refuse (lit "No path provided") [])
  else
    match canonicalize_path (m_realpath m) v PATH_MAX with
    | (0, Some canonical) =>
        if negb (streq (m_workspace m) []) && negb (strneq (length (m_workspace m)) canonical (m_workspace m)) then
          Some (refuse (lit "Path outside workspace not allowed") [])
        else
          match m_stat m canonical with
          | None => Some (refuse (lit "Could not stat file: " ++ canonical ++ lit " (" ++ strerror ++ lit ")") [])
          | Some st =>
              if S_ISDIR (st_mode st) then Some (refuse (lit "Path is a directory, not a file") [])
              else if MAX_FILE_SIZE <? st_size st then
                Some (refuse (lit "File too large (max " ++ fmt_dec MAX_FILE_SIZE ++ lit " bytes)") [])
              else
                let '(line_start, _) := parse_string_param params (lit "line_start") in
                let '(line_count, v) := parse_string_param params (lit "line_count") in
                let start := if line_start then atoi v else 0 in
                let count := if line_count then atoi v else -1 in
                match m_file m canonical with
                | None => Some (refuse (lit "Could not open file: " ++ canonical ++ lit " (" ++ strerror ++ lit ")") [])
                | Some content =>
                    text ← copy_lines start count 0 [] (lines_of LINE_LEN content);
                    Some (mk_outcome 0 (mk_result text true []) [])
                end
          end
    | _ => Some (refuse (lit "Could not resolve path: " ++ v) [])
    end.

(** ** Directories and searches *)

(** The names one per line, each only if it still fits. *)
Definition add_name (out name : cstr) : cstr :=
  if (length out + length name + 2 <? OUT_LEN)%nat
  then (match out with [] => [] | _ => out ++ [10] end) ++ name else out.

Definition tool_glob_execute (params : cstr) : outcome :=
  let '(pattern, _) := parse_string_param params (lit "pattern") in
  let '(path, v) := parse_string_param params (lit "path") in
  let '(pattern, v) := if pattern then (pattern, v) else parse_string_param params (lit "glob") in
  if negb pattern then refuse (lit "No pattern provided") []
  else
    match m_dir m (if path then v else lit ".") with
    | None => refuse (lit "Could not open directory: " ++ strerror) []
    | Some names =>
        let out :=
          foldl (λ out name,
            if m_fnmatch m v name && negb (streq name (lit ".")) && negb (streq name (lit ".."))
            then add_name out name else out) [] names in
        let out := match out with [] => snprintf_s OUT_LEN (lit "No files matching pattern: " ++ v) | _ => out end in
        mk_outcome 0 (succeed_with out) []
    end.

Definition more (b : sbuf) : bool := (sb_off b <? OUT_LEN - 1)%nat.

Fixpoint grep_lines (matches : cstr → bool) (path : cstr) (n : Z) (ls : list cstr) (b : sbuf) : option sbuf :=
  match ls with
  | [] => Some b
  | l :: ls' =>
      if more b then
        let n := n + 1 in
        b ← (if matches l then sn_append OUT_LEN (path ++ lit ":" ++ fmt_dec n ++ lit ": " ++ l) b else Some b);
        grep_lines matches path n ls' b
      else Some b
  end.

Definition grep_file (matches : cstr → bool) (path : cstr) (b : sbuf) : option sbuf :=
  match m_file m path with
  | Some content => grep_lines matches path 0 (lines_of LINE_LEN content) b
  | None => Some b
  end.

Definition is_reg (path : cstr) : bool := match m_stat m path with Some st => S_ISREG (st_mode st) | None => false end.

Fixpoint grep_dir (matches : cstr → bool) (dir : cstr) (include : option cstr) (names : list cstr) (b : sbuf) : option sbuf :=
  match names with
  | [] => Some b
  | name :: names' =>
      if more b then
        let full_path := snprintf_s (Z.to_nat 2048) (dir ++ lit "/" ++ name) in
        let wanted :=
          negb (has_prefix (lit ".") name) && is_reg full_path &&
          match include with Some v => m_fnmatch m v name | None => true end in
        b ← (if wanted then grep_file matches full_path b else Some b);
        grep_dir matches dir include names' b
      else Some b
  end.

Definition tool_grep_execute (params : cstr) : option outcome :=
  let '(pattern, _) := parse_string_param params (lit "pattern") in
  let '(path, _) := parse_string_param params (lit "path") in
  let '(path_str, _) := parse_string_param params (lit "path") in
  let '(include_str, v) := parse_string_param params (lit "include") in
  if negb pattern then Some (refuse (lit "No pattern provided") [])
  else
    match m_regcomp m v with
    | None => Some (refuse (lit "Invalid regex pattern") [])
    | Some matches =>
        let target := snprintf_s 1024 (if path || path_str then v else lit ".") in
        b ← (if is_reg target then grep_file matches target sb_empty
             else match m_dir m target with
                  | Some names => grep_dir matches target (if include_str then Some v else None) names sb_empty
                  | None => Some sb_empty
                  end);
        let out :=
          if (sb_off b =? 0)%nat then snprintf_s OUT_LEN (lit "No matches found for: " ++ v) else sb_text b in
        Some (mk_outcome 0 (succeed_with out) [])
    end.

(** [%10ld] and [%o]. *)
Definition pad_left (n : nat) (s : cstr) : cstr := replicate (n - length s) 32 ++ s.

Fixpoint fmt_octal (n : nat) (z : Z) (acc : cstr) : cstr :=
  match n with
  | O => acc
  | S n' => let acc := (48 + z mod 8) :: acc in if z / 8 =? 0 then acc else fmt_octal n' (z / 8) acc
  end.

Definition permissions (mode : Z) : cstr :=
  (if S_ISDIR mode then lit "d" else lit "-") ++
  map (λ '(bit, c), if Z.testbit mode bit then c else 45)
    [(8, 114); (7, 119); (6, 120); (5, 114); (4, 119); (3, 120); (2, 114); (1, 119); (0, 120)].

Fixpoint list_names (path : cstr) (all long : bool) (names : list cstr) (b : sbuf) : option sbuf :=
  match names with
  | [] => Some b
  | name :: names' =>
      if more b then
        b ← (if negb all && has_prefix (lit ".") name then Some b
             else if long then
               match m_stat m (snprintf_s (Z.to_nat 2048) (path ++ lit "/" ++ name)) with
               | Some st =>
                   sn_append OUT_LEN (pad_left 10 (fmt_dec (st_size st)) ++ lit " " ++ permissions (st_mode st) ++ lit " "
                                      ++ name ++ [10]) b
               | None => Some b
               end
             else sn_append OUT_LEN (name ++ [10]) b);
        list_names path all long names' b
      else Some b
  end.

Definition tool_list_execute (params : cstr) : option outcome :=
  let '(path, _) := parse_string_param params (lit "path") in
  let '(all_str, _) := parse_string_param params (lit "all") in
  let '(long_str, v) := parse_string_param params (lit "long") in
  let path := if path then v else lit "." in
  match m_dir m path with
  | None => Some (refuse (lit "Could not open directory: " ++ strerror) [])
  | Some names =>
      b ← list_names path (is_true all_str v) (is_true long_str v) names sb_empty;
      Some (mk_outcome 0 (succeed_with (sb_text b)) [])
  end.

Definition tool_stat_execute (params : cstr) : outcome :=
  let '(path, v) := parse_string_param params (lit "path") in
  if negb path then refuse (lit "No path provided") []
  else
    match m_stat m v with
    | None => refuse (lit "Could not stat: " ++ v ++ lit " (" ++ strerror ++ lit ")") []
    | Some st =>
        mk_outcome 0 (succeed_with (snprintf_s (Z.to_nat 4096)
          (lit "Path: " ++ v ++ [10] ++
           lit "Size: " ++ fmt_dec (st_size st) ++ lit " bytes" ++ [10] ++
           lit "Type: " ++ (if S_ISDIR (st_mode st) then lit "directory"
                            else if S_ISREG (st_mode st) then lit "regular file" else lit "other") ++ [10] ++
           lit "Permissions: " ++ fmt_octal 3 (Z.land (st_mode st) 511) [] ++ [10] ++
           lit "Modified: " ++ m_ctime m (st_mtime st) ++
           lit "Accessed: " ++ m_ctime m (st_atime st) ++
           lit "Created: " ++ m_ctime m (st_ctime st)))) []
    end.

Definition tool_exists_execute (params : cstr) : outcome :=
  let '(path, v) := parse_string_param params (lit "path") in
  if negb path then refuse (lit "No path provided") []
  else
    mk_outcome 0 (succeed_with
      (match m_stat m v with
       | Some st =>
           if S_ISDIR (st_mode st) then lit "true (directory)"
           else if S_ISREG (st_mode st) then lit "true (file, " ++ fmt_dec (st_size st) ++ lit " bytes)"
           else lit "true"
       | None => lit "false"
       end)) [].

Fixpoint env_lines (env : list cstr) (b : sbuf) : option sbuf :=
  match env with
  | [] => Some b
  | e :: env' => if more b then b ← sn_append OUT_LEN (e ++ [10]) b; env_lines env' b else Some b
  end.

Definition tool_env_execute (params : cstr) : option outcome :=
  let '(name, v) := parse_string_param params (lit "name") in
  if name then
    Some (mk_outcome 0 (succeed_with
      (match getenv v (m_environ m) with
       | Some x => v ++ lit "=" ++ x
       | None => lit "Environment variable not set: " ++ v
       end)) [])
  else
    b ← env_lines (m_environ m) sb_empty;
    Some (mk_outcome 0 (succeed_with (sb_text b)) []).

(** ** Edit *)

Definition EDIT_LEN : nat := Z.to_nat 65536.

Definition add_text (s out : cstr) : cstr :=
  if (length out + length s <? EDIT_LEN - 1)%nat then out ++ s else out.

(** [None] when the fuel does not reach: an empty text is found again and
    again at the same place. *)
Fixpoint edit_loop (fuel : nat) (find : cstr) (replace : option cstr) (text out : cstr) : option cstr :=
  match fuel with
  | O => None
  | S fuel' =>
      match strstr text find with
      | Some i =>
          if (length out <? EDIT_LEN - 1)%nat then
            let out := add_text (take i text) out in
            let out := match replace with Some r => add_text r out | None => out end in
            edit_loop fuel' find replace (drop (i + length find) text) out
          else Some (add_text text out)
      | None => Some (add_text text out)
      end
  end.

Definition tool_edit_execute (params : cstr) : option outcome :=
  let '(path, _) := parse_string_param params (lit "path") in
  let '(find, _) := parse_string_param params (lit "find") in
  let '(replace, v) := parse_string_param params (lit "replace") in
  if negb path then Some (refuse (lit "No path provided") [])
  else if negb find then Some (refuse (lit "No find pattern provided") [])
  else
    match m_file m v with
    | None => Some (refuse (lit "Could not open file: " ++ strerror) [])
    | Some bytes =>
        let content := until_nul (take (EDIT_LEN - 1) bytes) in
        out ← edit_loop (S (length content)) v (if replace then Some v else None) content [];
        let call := Sys_write v false out in
        Some (if code (os call) =? 0 then mk_outcome 0 (succeed_with (lit "Applied edit to " ++ v)) [call]
              else refuse (lit "Could not write file: " ++ strerror) [call])
    end.

(** ** Images and hardware *)

Definition image_format (bytes : list Z) : cstr :=
  let h i := nth i bytes 0 in
  if (h 0%nat =? 255) && (h 1%nat =? 216) then lit "JPEG"
  else if (h 0%nat =? 137) && (h 1%nat =? 80) && (h 2%nat =? 78) && (h 3%nat =? 71) then lit "PNG"
  else if (h 0%nat =? 71) && (h 1%nat =? 73) && (h 2%nat =? 70) then lit "GIF"
  else if (h 0%nat =? 66) && (h 1%nat =? 77) then lit "BMP"
  else if (h 0%nat =? 73) && (h 1%nat =? 73) && (h 2%nat =? 42) && (h 3%nat =? 0) then lit "TIFF"
  else lit "unknown".

(** The result of [stat] is not tested: without one the size is undefined. *)
Definition tool_image_info_execute (params : cstr) : option outcome :=
  let '(path, v) := parse_string_param params (lit "path") in
  if negb path then Some (refuse (lit "No image path provided") [])
  else
    match m_file m v with
    | None => Some (refuse (lit "Could not open file: " ++ strerror) [])
    | Some bytes =>
        st ← m_stat m v;
        Some (mk_outcome 0 (succeed_with
          (lit "Format: " ++ image_format (take 24 bytes) ++ lit ", Size: " ++ fmt_dec (st_size st) ++ lit " bytes")) [])
    end.

(** The file is closed with [pclose], which is taken to close it. *)
Definition tool_hardware_board_info_execute (params : cstr) : outcome :=
  let show text calls := mk_outcome 0 (succeed_with (collect_lines (Z.to_nat 4096) (lines_of 256 text) [])) calls in
  match m_file m (lit "/proc/cpuinfo") with
  | Some text => show text []
  | None =>
      let call := Sys_popen (lit "system_profiler SPHardwareDataType 2>/dev/null") in
      if code (os call) =? 0 then show (output (os call)) [call]
      else refuse (lit "Could not get hardware info") [call]
  end.

Definition tool_hardware_memory_map_execute (params : cstr) : outcome :=
  match m_file m (lit "/proc/iomem") with
  | None => refuse (lit "Could not read memory map") []
  | Some text => mk_outcome 0 (succeed_with (collect_lines (Z.to_nat 8192) (lines_of 256 text) [])) []
  end.

(** [strtoul(s, NULL, 0)]. *)
Fixpoint scan_base (base acc : Z) (s : cstr) : Z :=
  match s with
  | [] => acc
  | c :: s' =>
      match hex_value c with
      | Some d => if d <? base then scan_base base (acc * base + d) s' else acc
      | None => acc
      end
  end.

Definition ULONG_MAX : Z := 2 ^ 64 - 1.

Definition strtoul0 (s : cstr) : Z :=
  let value s :=
    Z.min ULONG_MAX
      (match s with
       | 48 :: c :: d :: s' =>
           if (tolower c =? 120) && (match hex_value d with Some _ => true | None => false end)
           then scan_base 16 0 (d :: s') else scan_base 8 0 s
       | 48 :: _ => scan_base 8 0 s
       | _ => scan_base 10 0 s
       end) in
  match skip_while isspace s with
  | 45 :: s' => if value s' =? ULONG_MAX then ULONG_MAX else u64 (- value s')
  | 43 :: s' => value s'
  | s' => value s'
  end.

Fixpoint fmt_lx (n : nat) (z : Z) (acc : cstr) : cstr :=
  match n with
  | O => acc
  | S n' => let acc := hex_digit false (z mod 16) :: acc in if z / 16 =? 0 then acc else fmt_lx n' (z / 16) acc
  end.

Fixpoint hex_text (bytes : list Z) (b : sbuf) : option sbuf :=
  match bytes with
  | [] => Some b
  | x :: bytes' => b ← sn_append (Z.to_nat 4096) (fmt_hex true 2 x ++ lit " ") b; hex_text bytes' b
  end.

Definition tool_hardware_memory_read_execute (params : cstr) : option outcome :=
  let '(address_str, _) := parse_string_param params (lit "address") in
  let '(length_str, v) := parse_string_param params (lit "length") in
  if negb address_str then Some (refuse (lit "No address provided") [])
  else
    let address := strtoul0 v in
    let len := if length_str then u64 (atoi v) else 4 in
    let len := if 1024 <? len then 1024 else len in
    match m_devmem m with
    | None => Some (refuse (lit "Cannot read memory (need root)") [])
    | Some read =>
        let data := take (Z.to_nat len) (read (s64 address) (Z.to_nat len)) in
        b ← hex_text data sb_empty;
        Some (mk_outcome 0 (succeed_with
          (lit "Read " ++ fmt_dec (Z.of_nat (length data)) ++ lit " bytes from 0x" ++ fmt_lx 16 address [] ++ lit ": "
           ++ sb_text b)) [])
    end.

(** ** Requests *)

Section net.
Context {W : Type} `{Curl W}.
#[local] Abbreviation net := (W * providers_t)%type.

Definition body_bytes (resp : http_response_t) : list Z := match data resp with Written b => b | _ => [] end.

Definition tool_browse_execute (n : net) (params : cstr) : net * outcome :=
  let '(url, v) := parse_string_param params (lit "url") in
  let '(url, v) := if url then (url, v) else parse_string_param params (lit "address") in
  if negb url then (n, refuse (lit "No URL provided") [])
  else
    let '(max_len_str, v) := parse_string_param params (lit "max_length") in
    let max_len := if max_len_str then u64 (atoi v) else 50000 in
    let '(w, g, resp, rc) := http_get n.1 n.2 v [lit "User-Agent: DoctorClaw/0.1.0"] http_response_zero in
    if negb (rc =? 0) then ((w, g), refuse (lit "Failed to fetch URL: " ++ v) [])
    else
      let copy_len := Z.min (Z.of_nat (size resp)) max_len in
      let copy_len := Z.min copy_len (Z.of_nat RESULT_LEN - 1) in
      ((w, g), mk_outcome 0 (mk_result (until_nul (take (Z.to_nat copy_len) (body_bytes resp))) true []) []).

Definition TRUNCATED : cstr := [10] ++ lit "[TRUNCATED]".

(** [None] is the [strcat] of the notice past the end of the result. *)
Definition tool_http_request_execute (n : net) (params : cstr) : option (net * outcome) :=
  let '(url, _) := parse_string_param params (lit "url") in
  let '(method, _) := parse_string_param params (lit "method") in
  let '(body, _) := parse_string_param params (lit "body") in
  let '(headers, _) := parse_string_param params (lit "headers") in
  let '(max_len_str, v) := parse_string_param params (lit "max_length") in
  if negb url then Some (n, refuse (lit "No URL provided") [])
  else if negb (check_ssrf (Some v) =? 0) then
    Some (n, refuse (lit "URL blocked by security policy (SSRF protection)") [])
  else
    let method := if method then v else lit "GET" in
    let max_len := if max_len_str then atoi v else 16384 in
    let max_len := if (max_len <=? 0) || (1048576 <? max_len) then 16384 else max_len in
    let header_arr := if headers then [lit "Content-Type: application/json"] else [] in
    let '(w, g, resp) :=
      if streq method (lit "GET") then (http_get n.1 n.2 v header_arr http_response_zero).1
      else if streq method (lit "POST") then (http_post n.1 n.2 v header_arr (if body then v else []) http_response_zero).1
      else (n.1, n.2, http_response_zero) in
    let finish text := Some ((w, g), mk_outcome 0 (mk_result text true []) []) in
    if (size resp =? 0)%nat then finish []
    else
      let size := Z.of_nat (size resp) in
      let copy_size := if max_len <? s32 size then max_len else size in
      let copy_size := Z.min copy_size (Z.of_nat RESULT_LEN - 1) in
      let text := until_nul (take (Z.to_nat copy_size) (body_bytes resp)) in
      if max_len <? s32 size then
        if (length text + length TRUNCATED <? RESULT_LEN)%nat then finish (text ++ TRUNCATED) else None
      else finish text.

(** The number of results is computed and not used. *)
Definition tool_web_search_execute (n : net) (params : cstr) : net * outcome :=
  let '(query, _) := parse_string_param params (lit "query") in
  let '(num_results_str, v) := parse_string_param params (lit "num_results") in
  if negb query then (n, refuse (lit "No query provided") [])
  else
    let url := snprintf_s 1024 (lit "https://api.duckduckgo.com/?q=" ++ v ++ lit "&format=json&no_html=1&skip_disambig=1") in
    let '(w, g, resp, _) := http_get n.1 n.2 url [] http_response_zero in
    let copy_size := Nat.min (size resp) (RESULT_LEN - 1) in
    ((w, g), mk_outcome 0 (mk_result (until_nul (take copy_size (body_bytes resp))) true []) []).
End net.
End read.

(** ** Parameters that are not there *)

(** A parameter that is missing leaves the buffer empty, one that is there
    leaves it not empty. *)
Lemma param_cases params key :
  parse_string_param params key = (false, []) ∨ ∃ v, parse_string_param params key = (true, v) ∧ v ≠ [].
Proof.
  unfold parse_string_param. destruct (match strstr params _ with Some i => _ | None => _ end) as [i|]; [|by left].
  destruct (strchr _ _) as [j|]; [|by left]. cbn zeta.
  destruct (rstrip _ _) as [|b v]; [by left|right; by eexists].
Qed.

(** ** Reading a file *)

Lemma concat_fgets_from size room cur s : concat (fgets_from size room cur s) = reverse cur ++ s.
Proof.
  revert room cur. induction s as [|b s IH]; intros room cur; cbn [fgets_from].
  { destruct cur; [done|]. cbn [concat]. done. }
  case_if; [cbn [concat]; by rewrite IH, reverse_cons, <- app_assoc|].
  destruct room as [|[|room]]; cbn [concat]; rewrite IH; rewrite ?reverse_cons, <- ?app_assoc; done.
Qed.

Lemma lines_of_concat size content : Forall (λ b, b ≠ 0) content → concat (lines_of size content) = content.
Proof.
  intros H. unfold lines_of, fgets_lines. pose proof (concat_fgets_from size (size - 1) [] content) as Hc.
  cbn [reverse rev_append app] in Hc.
  assert (∀ ls, Forall (λ b, b ≠ 0) (concat ls) → until_nul <$> ls = ls) as Hid.
  { clear. induction ls as [|l ls IH]; [done|]. cbn [concat]. intros [Hl Hls]%Forall_app. cbn [fmap list_fmap].
    f_equal; [by apply until_nul_id|by apply IH]. }
  rewrite Hid; [done|]. by rewrite Hc.
Qed.

(** Past the first line wanted, the lines copied are the next ones. *)
Lemma copy_lines_next start count ls : ∀ n out t,
  (length out < RESULT_LEN)%nat → start <= n + 1 → copy_lines start count n out ls = Some t →
  (length t < RESULT_LEN)%nat ∧ ∃ j, t = out ++ concat (take j ls).
Proof.
  induction ls as [|l ls IH]; intros n out t Ho Hn; cbn [copy_lines].
  { intros [= <-]. split; [done|]. exists O. by rewrite app_nil_r. }
  assert (out = out ++ concat (take 0 (l :: ls))) as Hz by (by rewrite app_nil_r).
  case_if; [intros [= <-]; eauto|]. rewrite (proj2 (Z.ltb_ge (n + 1) start)), andb_false_r by lia.
  case_if; [done|]. case_if; [intros [= <-]; eauto|].
  destruct (Nat.ltb_spec (length out + length l) RESULT_LEN) as [Hl|]; [|intros [= <-]; eauto].
  assert ((length (out ++ l) < RESULT_LEN)%nat) as Hl' by (by rewrite length_app).
  case_if; [intros [= <-]; split; [done|]; exists 1%nat; cbn [take concat]; by rewrite take_0, app_nil_r|].
  intros Ht. destruct (IH (n + 1) (out ++ l) t) as [? [j ->]]; [done|lia|done|]. split; [done|].
  exists (S j). cbn [take concat]. by rewrite app_assoc.
Qed.

Lemma copy_lines_run start count ls : ∀ n t,
  0 <= n → copy_lines start count n [] ls = Some t →
  (length t < RESULT_LEN)%nat ∧ ∃ i j, t = concat (take j (drop i ls)).
Proof.
  assert ((length ([] : cstr) < RESULT_LEN)%nat) as H0 by (unfold RESULT_LEN; cbn [length]; lia).
  induction ls as [|l ls IH]; intros n t H1 Ht; [injection Ht as <-; split; [done|by exists O, O]|].
  destruct (decide (start <= n + 1)) as [Hn|Hn].
  { apply copy_lines_next in Ht as [? [j ->]]; [|done..]. split; [done|]. by exists O, j. }
  revert Ht. cbn [copy_lines]. case_if; [intros [= <-]; split; [done|]; by exists O, O|].
  rewrite (proj2 (Z.ltb_lt 0 start)), (proj2 (Z.ltb_lt (n + 1) start)) by lia. cbn [andb]. intros Ht.
  apply IH in Ht as [? (i & j & ->)]; [|lia]. split; [done|]. by exists (S i), j.
Qed.

(** C25: What the read tool shows fits its result and is a run of lines of one
    file, whose resolved path starts with the workspace when there is one. *)
Theorem file_read_confined m err params o :
  tool_file_read_execute m err params = Some o → o_rc o = 0 →
  ∃ path canonical content i j,
    m_realpath m path = Some canonical ∧ has_prefix (m_workspace m) canonical = true ∧
    m_file m canonical = Some content ∧
    r_result (o_result o) = concat (take j (drop i (lines_of LINE_LEN content))) ∧
    (length (r_result (o_result o)) < RESULT_LEN)%nat.
Proof.
  unfold tool_file_read_execute. destruct (parse_string_param params (lit "path")) as [p v0].
  destruct (if p then (p, v0) else _) as [path v]. destruct path; cbn [negb]; [|by intros [= <-]].
  unfold canonicalize_path. destruct (m_realpath m v) as [canonical|] eqn:Er; [|by intros [= <-]].
  destruct (negb (streq (m_workspace m) []) && _) eqn:Ew; [by intros [= <-]|].
  destruct (m_stat m canonical) as [st|]; [|by intros [= <-]].
  case_if; [by intros [= <-]|]. case_if; [by intros [= <-]|].
  destruct (parse_string_param params (lit "line_start")) as [ls v1].
  destruct (parse_string_param params (lit "line_count")) as [lc v2].
  destruct (m_file m canonical) as [content|] eqn:Ef; [|by intros [= <-]].
  destruct (copy_lines _ _ _ _ _) as [text|] eqn:Ec; [|done]. cbn [mbind option_bind]. intros [= <-] _.
  apply copy_lines_run in Ec as [Hl (i & j & Ht)]; [|done].
  exists v, canonical, content, i, j. split_and!; try done. apply has_prefix_spec.
  apply andb_false_iff in Ew as [Ew|Ew]; apply negb_false_iff in Ew.
  - apply streq_true in Ew as ->. by exists canonical.
  - apply bool_decide_eq_true in Ew. rewrite (take_ge (m_workspace m)) in Ew by done.
    exists (drop (length (m_workspace m)) canonical). by rewrite <- Ew, take_drop at 1.
Qed.

Lemma copy_lines_all ls : ∀ n out,
  (length out + length (concat ls) < RESULT_LEN)%nat → Forall (λ l, l ≠ []) ls →
  copy_lines 0 (-1) n out ls = Some (out ++ concat ls).
Proof.
  induction ls as [|l ls IH]; intros n out Hl Hne; cbn [copy_lines concat]; [by rewrite app_nil_r|].
  apply Forall_cons in Hne as [Hl0 Hne]. cbn [concat] in Hl. rewrite length_app in Hl.
  destruct l as [|b l]; [done|]. cbn [length] in *. assert (Z.of_nat RESULT_LEN = 16384) by done.
  rewrite (proj2 (Nat.ltb_lt _ _)) by lia. cbn [negb Z.ltb Z.compare andb].
  rewrite (proj2 (Nat.ltb_lt _ _)) by lia. rewrite (proj2 (Z.leb_gt _ _)).
  2:{ rewrite length_app. cbn [length]. unfold MAX_FILE_SIZE. lia. }
  rewrite IH; [by rewrite <- app_assoc|rewrite length_app; cbn [length]; lia|done].
Qed.

Lemma reverse_cons_nonempty (b : Z) s : reverse (b :: s) ≠ [].
Proof. intros H. apply (f_equal length) in H. by rewrite length_reverse in H. Qed.

Lemma fgets_nonempty size room cur s : Forall (λ l, l ≠ []) (fgets_from size room cur s).
Proof.
  revert room cur. induction s as [|b s IH]; intros room cur; cbn [fgets_from].
  { destruct cur; [done|]. constructor; [apply reverse_cons_nonempty|done]. }
  pose proof (reverse_cons_nonempty b cur).
  case_if; [by constructor|]. destruct room as [|[|room]]; [by constructor..|apply IH].
Qed.

(** A file that fits is shown completely unless a number of lines is asked
    for: a first line alone is ignored, because its text is gone from the
    buffer when it is read. *)
Theorem file_read_whole m err params path v canonical st content :
  parse_string_param params (lit "path") = (true, path) → m_realpath m path = Some canonical →
  m_workspace m = [] → m_stat m canonical = Some st → S_ISDIR (st_mode st) = false → st_size st <= MAX_FILE_SIZE →
  m_file m canonical = Some content → parse_string_param params (lit "line_count") = (false, v) →
  (length content < RESULT_LEN)%nat → Forall (λ b, b ≠ 0) content →
  tool_file_read_execute m err params = Some (mk_outcome 0 (mk_result content true []) []).
Proof.
  intros Hp Hr Hw Hst Hd Hs Hf Hc Hl H0. unfold tool_file_read_execute. rewrite Hp. cbn [negb].
  unfold canonicalize_path. rewrite Hr, Hw. cbn [streq]. rewrite streq_refl. cbn [negb andb]. rewrite Hst, Hd.
  rewrite (proj2 (Z.ltb_ge _ _)) by done. destruct (param_cases params (lit "line_count")) as [Hc'|(w & Hc' & _)];
    rewrite Hc' in Hc; [|done]. rewrite Hc'.
  destruct (parse_string_param params (lit "line_start")) as [b v1]. change (atoi []) with 0. rewrite Hf.
  replace (if b then 0 else 0) with 0 by (by destruct b).
  pose proof (lines_of_concat LINE_LEN content H0) as Hcat.
  rewrite copy_lines_all; [by rewrite Hcat|by rewrite Hcat|].
  unfold lines_of, fgets_lines. pose proof (fgets_nonempty LINE_LEN (LINE_LEN - 1) [] content) as Hne.
  pose proof (concat_fgets_from LINE_LEN (LINE_LEN - 1) [] content) as Hcc. cbn [reverse rev_append app] in Hcc.
  rewrite <- Hcc in H0. clear -Hne H0. induction Hne as [|l ls Hl _ IH]; [constructor|]. cbn [concat] in H0.
  apply Forall_app in H0 as [Hz Hzs]. constructor; [|by apply IH].
  destruct l as [|b l]; [done|]. apply Forall_cons in Hz as [Hb _]. cbn [until_nul].
  by rewrite (proj2 (Z.eqb_neq b 0) Hb).
Qed.

(** ** Edit changes nothing *)

Lemma add_text_fits s out : (length out + length s < EDIT_LEN - 1)%nat → add_text s out = out ++ s.
Proof. intros H. unfold add_text. by rewrite (proj2 (Nat.ltb_lt _ _) H). Qed.

Lemma edit_loop_same v text : ∀ fuel out,
  v ≠ [] → (length text < fuel)%nat → (length out + length text < EDIT_LEN - 1)%nat →
  edit_loop fuel v (Some v) text out = Some (out ++ text).
Proof.
  intros fuel. revert text. induction fuel as [|fuel IH]; intros text out Hv Hf Hl; [lia|]. cbn [edit_loop].
  destruct (strstr text v) as [i|] eqn:Ei; [|by rewrite add_text_fits].
  apply strstr_Some in Ei as (t & Ht & Hi). assert (0 < length v)%nat by (destruct v; [done|cbn [length]; lia]).
  rewrite (proj2 (Nat.ltb_lt _ _)) by lia.
  assert (length text = i + length v + length t)%nat as Hlen.
  { rewrite Ht at 1. rewrite !length_app, length_take. lia. }
  assert (drop (i + length v) text = t) as Ed.
  { rewrite Ht at 1. rewrite app_assoc, drop_app_length'; [done|]. rewrite length_app, length_take. lia. }
  assert (length (take i text) = i) as Hti by (rewrite length_take; lia).
  rewrite (add_text_fits (take i text)) by lia. rewrite add_text_fits by (rewrite length_app; lia).
  rewrite Ed, IH; [|done|lia|rewrite !length_app; lia].
  f_equal. rewrite Ht at 2. by rewrite <- !app_assoc.
Qed.

(** The edit tool takes the replacement for the path and for the text to find
    as well: whatever it writes, it writes to the file that the replacement
    names, and writes what that file already held, if it is shorter than 65535
    bytes. *)
Theorem edit_changes_nothing m os err params o call :
  m_file m [] = None → tool_edit_execute m os err params = Some o → call ∈ o_calls o →
  ∃ path bytes, parse_string_param params (lit "replace") = (true, path) ∧ m_file m path = Some bytes ∧
    ((length bytes < EDIT_LEN - 1)%nat → call = Sys_write path false (until_nul bytes)).
Proof.
  intros H0. unfold tool_edit_execute. destruct (parse_string_param params (lit "path")) as [p ?].
  destruct (parse_string_param params (lit "find")) as [f ?].
  destruct (param_cases params (lit "replace")) as [-> | (v & -> & Hv)].
  { destruct p, f; cbn [negb]; rewrite ?H0; intros [= <-]; by intros ?%elem_of_nil. }
  destruct p; cbn [negb]; [|intros [= <-]; by intros ?%elem_of_nil].
  destruct f; cbn [negb]; [|intros [= <-]; by intros ?%elem_of_nil].
  destruct (m_file m v) as [bytes|] eqn:Ef; [|intros [= <-]; by intros ?%elem_of_nil].
  intros Ho Hc. exists v, bytes. split_and!; [done..|]. intros Hl.
  rewrite (take_ge bytes) in Ho by lia. pose proof (until_nul_le bytes) as Hn.
  rewrite edit_loop_same in Ho; [|done|lia|cbn [length]; lia]. cbn [mbind option_bind app] in Ho.
  injection Ho as <-. by destruct (code _ =? 0); apply list_elem_of_singleton in Hc.
Qed.

(** ** Searches *)

(** A search in a path needs the parameter [include]: without it the pattern
    and the path are both empty when they are used, and nothing is found. *)
Theorem grep_needs_include m params pattern path matches :
  parse_string_param params (lit "pattern") = (true, pattern) →
  parse_string_param params (lit "path") = (true, path) →
  (parse_string_param params (lit "include")).1 = false →
  m_stat m [] = None → m_dir m [] = None → m_regcomp m [] = Some matches →
  tool_grep_execute m params = Some (mk_outcome 0 (succeed_with (lit "No matches found for: ")) []).
Proof.
  intros Hp Hpath Hi Hst Hd Hr. unfold tool_grep_execute. rewrite Hp, Hpath.
  destruct (param_cases params (lit "include")) as [Hi'|(v & Hi' & _)]; rewrite Hi' in *; [|done].
  cbn [negb]. rewrite Hr. cbn [orb]. change (snprintf_s 1024 []) with ([] : cstr). unfold is_reg. by rewrite Hst, Hd.
Qed.

Definition is_entry (m : machine) (v name : cstr) : bool :=
  m_fnmatch m v name && negb (streq name (lit ".")) && negb (streq name (lit "..")).

Definition join_lines (names : list cstr) : cstr :=
  match names with [] => [] | n :: ns => n ++ concat (map (λ x, [10] ++ x) ns) end.

Lemma join_lines_snoc names n : names ≠ [] → join_lines (names ++ [n]) = join_lines names ++ [10] ++ n.
Proof.
  destruct names as [|n0 names]; [done|]. intros _. cbn [join_lines app].
  by rewrite map_app, concat_app, <- app_assoc; cbn [map concat]; rewrite app_nil_r.
Qed.

Lemma join_lines_app a b : ∃ t, join_lines (a ++ b) = join_lines a ++ t.
Proof.
  destruct a as [|x a]; [by exists (join_lines b)|]. cbn [join_lines app]. rewrite map_app, concat_app.
  exists (concat (map (λ x, [10] ++ x) b)). by rewrite <- app_assoc.
Qed.

Lemma add_name_join names n :
  Forall (λ n, n ≠ []) names → (length (join_lines (names ++ [n])) + 2 < OUT_LEN)%nat →
  add_name (join_lines names) n = join_lines (names ++ [n]).
Proof.
  intros Hne Hl. unfold add_name. destruct names as [|x names].
  - cbn [join_lines app map concat length] in *. rewrite app_nil_r in *. by rewrite (proj2 (Nat.ltb_lt _ _)) by lia.
  - rewrite join_lines_snoc in * by done. rewrite !length_app in Hl. cbn [length] in Hl.
    rewrite (proj2 (Nat.ltb_lt _ _)) by lia. apply Forall_cons in Hne as [Hx _].
    destruct (join_lines (x :: names)) eqn:E; [by destruct x|]. by rewrite <- app_assoc.
Qed.

Lemma add_names_join ns : ∀ names,
  Forall (λ n, n ≠ []) (names ++ ns) → (length (join_lines (names ++ ns)) + 2 < OUT_LEN)%nat →
  foldl add_name (join_lines names) ns = join_lines (names ++ ns).
Proof.
  induction ns as [|n ns IH]; intros names Hne Hl; cbn [foldl]; [by rewrite app_nil_r|].
  replace (names ++ n :: ns) with ((names ++ [n]) ++ ns) in * by (by rewrite <- app_assoc).
  destruct (join_lines_app (names ++ [n]) ns) as [t Ht]. rewrite Ht, length_app in Hl.
  rewrite add_name_join; [apply IH; [done|rewrite Ht, length_app; lia]| |lia].
  apply Forall_app in Hne as [Hne _]. by apply Forall_app in Hne as [Hne _].
Qed.

Lemma foldl_filter {A B} (p : A → bool) (f : B → A → B) l b :
  foldl (λ b x, if p x then f b x else b) b l = foldl f b (List.filter p l).
Proof. revert b. induction l as [|x l IH]; intros b; cbn [foldl List.filter]; [done|]. rewrite IH. by destruct (p x). Qed.

(** A pattern under the key [glob] is matched against the current directory:
    the result is the list of the matching names, one per line, in the order
    of the directory, when there are any and they fit. *)
Theorem glob_lists_matches m err params v names :
  (parse_string_param params (lit "pattern")).1 = false → (parse_string_param params (lit "path")).1 = false →
  parse_string_param params (lit "glob") = (true, v) → m_dir m (lit ".") = Some names →
  Forall (λ n, n ≠ []) names → List.filter (is_entry m v) names ≠ [] →
  (length (join_lines (List.filter (is_entry m v) names)) + 2 < OUT_LEN)%nat →
  tool_glob_execute m err params = mk_outcome 0 (succeed_with (join_lines (List.filter (is_entry m v) names))) [].
Proof.
  intros Hp Hpath Hg Hd Hne Hex Hl. unfold tool_glob_execute.
  destruct (parse_string_param params (lit "pattern")) as [? ?], (parse_string_param params (lit "path")) as [? ?].
  cbn [fst] in Hp, Hpath. subst. rewrite Hg. cbn [negb]. rewrite Hd. fold (is_entry m v).
  rewrite (foldl_filter (is_entry m v)).
  assert (Forall (λ n, n ≠ []) (List.filter (is_entry m v) names)) as Hne'.
  { apply Forall_forall. intros x Hx. apply list_elem_of_In, filter_In in Hx as [Hx%list_elem_of_In _].
    exact (proj1 (Forall_forall _ _) Hne x Hx). }
  pose proof (add_names_join (List.filter (is_entry m v) names) []) as Hj. cbn [app join_lines] in Hj. rewrite Hj by done.
  destruct (List.filter (is_entry m v) names) as [|y ys]; [done|]. apply Forall_cons in Hne' as [Hy _].
  destruct (join_lines (y :: ys)) eqn:E; [by destruct y|done].
Qed.

(** ** Requests *)

(** A request needs the parameter [max_length], and the address in it:
    without it the address is empty when it is tested, and is refused. *)
Theorem http_request_needs_max_length {W} `{Curl W} (n : W * providers_t) params :
  (parse_string_param params (lit "url")).1 = true → (parse_string_param params (lit "max_length")).1 = false →
  tool_http_request_execute n params = Some (n, refuse (lit "URL blocked by security policy (SSRF protection)") []).
Proof.
  intros Hu Hm. unfold tool_http_request_execute.
  destruct (parse_string_param params (lit "url")) as [? ?], (parse_string_param params (lit "method")) as [? ?],
    (parse_string_param params (lit "body")) as [? ?], (parse_string_param params (lit "headers")) as [? ?].
  destruct (param_cases params (lit "max_length")) as [Hm'|(v & Hm' & _)]; rewrite Hm' in *; [|done].
  cbn [fst] in Hu. subst. done.
Qed.

(** A reply of more than 16384 bytes is written past the end of the result:
    the notice that it was cut has no room left. *)
Theorem http_request_overflows {W} `{Curl W} (n : W * providers_t) params v w g st b rc :
  (parse_string_param params (lit "url")).1 = true → (parse_string_param params (lit "method")).1 = false →
  (parse_string_param params (lit "headers")).1 = false →
  parse_string_param params (lit "max_length") = (true, v) → check_ssrf (Some v) = 0 → atoi v <= 0 →
  http_get n.1 n.2 v [] http_response_zero = (w, g, mk_http (Written b) (length b) st, rc) →
  Forall (λ x, x ≠ 0) b → 16384 < Z.of_nat (length b) <= INT_MAX →
  tool_http_request_execute n params = None.
Proof.
  intros Hu Hme Hh Hm Hs Ha Hget H0 Hl. unfold tool_http_request_execute.
  destruct (parse_string_param params (lit "url")) as [? ?], (parse_string_param params (lit "method")) as [? ?],
    (parse_string_param params (lit "body")) as [? ?], (parse_string_param params (lit "headers")) as [? ?].
  rewrite Hm. cbn [fst] in *. subst. cbn [negb]. rewrite Hs. cbn [Z.eqb negb].
  rewrite (proj2 (Z.leb_le _ _) Ha). cbn [orb]. rewrite streq_refl, Hget. cbn [fst size].
  unfold INT_MAX in Hl. rewrite (proj2 (Nat.eqb_neq _ _)) by lia. rewrite (swrap_small 32) by lia.
  rewrite (proj2 (Z.ltb_lt _ _)) by lia. unfold body_bytes. cbn [data].
  assert (Z.of_nat RESULT_LEN = 16384) as HR by done.
  rewrite until_nul_id by (by apply Forall_take). rewrite (proj2 (Nat.ltb_ge _ _)); [done|]. rewrite length_take. cbn [length TRUNCATED app]. lia.
Qed.

(** ** Texts that are cut stay inside their buffers *)

Lemma append_more s b : more b = true → ∃ b', sn_append OUT_LEN s b = Some b'.
Proof.
  unfold more, sn_append. intros Hb%Nat.ltb_lt. rewrite (proj2 (Nat.leb_le _ _)) by lia. by eexists.
Qed.

Lemma grep_lines_total f path ls : ∀ n b, ∃ b', grep_lines f path n ls b = Some b'.
Proof.
  induction ls as [|l ls IH]; intros n b; cbn [grep_lines]; [eauto|]. destruct (more b) eqn:Em; [|eauto].
  destruct (f l); [|apply IH]. edestruct (append_more (path ++ lit ":" ++ fmt_dec (n + 1) ++ lit ": " ++ l)) as [b' ->];
    [done|apply IH].
Qed.

Lemma grep_file_total m f path b : ∃ b', grep_file m f path b = Some b'.
Proof. unfold grep_file. destruct (m_file m path); [apply grep_lines_total|eauto]. Qed.

Lemma grep_dir_total m f dir inc names : ∀ b, ∃ b', grep_dir m f dir inc names b = Some b'.
Proof.
  induction names as [|x names IH]; intros b; cbn [grep_dir]; [eauto|]. destruct (more b); [|eauto].
  case_if; [|apply IH]. edestruct grep_file_total as [b' ->]. apply IH.
Qed.

Lemma list_names_total m path all long names : ∀ b, ∃ b', list_names m path all long names b = Some b'.
Proof.
  induction names as [|x names IH]; intros b; cbn [list_names]; [eauto|]. destruct (more b) eqn:Em; [|eauto].
  case_if; [apply IH|]. destruct long.
  - destruct (m_stat m _); [|apply IH]. edestruct append_more as [b' ->]; [done|apply IH].
  - edestruct append_more as [b' ->]; [done|apply IH].
Qed.

Lemma env_lines_total env : ∀ b, ∃ b', env_lines env b = Some b'.
Proof.
  induction env as [|x env IH]; intros b; cbn [env_lines]; [eauto|]. destruct (more b) eqn:Em; [|eauto].
  edestruct append_more as [b' ->]; [done|apply IH].
Qed.

Lemma hex_text_total bytes : ∀ b, (sb_off b + 3 * length bytes ≤ Z.to_nat 4096)%nat → ∃ b', hex_text bytes b = Some b'.
Proof.
  induction bytes as [|x bytes IH]; intros b Hb; cbn [hex_text]; [eauto|]. cbn [length] in Hb.
  unfold sn_append. rewrite (proj2 (Nat.leb_le _ _)) by lia. cbn [mbind option_bind]. apply IH. cbn [sb_off].
  change (length (fmt_hex true 2 x ++ lit " ")) with 3%nat. lia.
Qed.

(** The tools that list or search, and the one that reads device memory,
    never write past their buffers and always answer, whatever the machine
    holds: long output is cut. *)
Theorem listing_tools_total m err params :
  is_Some (tool_grep_execute m params) ∧ is_Some (tool_list_execute m err params) ∧
  is_Some (tool_env_execute m params) ∧ is_Some (tool_hardware_memory_read_execute m params).
Proof.
  split_and!.
  - unfold tool_grep_execute. destruct (parse_string_param params (lit "pattern")) as [[] ?],
      (parse_string_param params (lit "path")) as [? ?], (parse_string_param params (lit "include")) as [? v];
      cbn [negb]; [|eauto]. destruct (m_regcomp m v); [|eauto].
    case_if; [edestruct grep_file_total as [b' ->]; by eexists|].
    destruct (m_dir m _); [|by eexists]. edestruct grep_dir_total as [b' ->]. by eexists.
  - unfold tool_list_execute. destruct (parse_string_param params (lit "path")) as [? ?],
      (parse_string_param params (lit "all")) as [? ?], (parse_string_param params (lit "long")) as [? v].
    destruct (m_dir m _); [|eauto]. edestruct list_names_total as [b' ->]. by eexists.
  - unfold tool_env_execute. destruct (parse_string_param params (lit "name")) as [[] ?]; [eauto|].
    edestruct env_lines_total as [b' ->]. by eexists.
  - unfold tool_hardware_memory_read_execute. destruct (parse_string_param params (lit "address")) as [[] ?],
      (parse_string_param params (lit "length")) as [lb v]; cbn [negb]; [|eauto].
    destruct (m_devmem m); [|eauto]. set (len := if 1024 <? _ then _ else _).
    assert (len <= 1024) as Hlen by (subst len; destruct (Z.ltb_spec 1024 (if lb then u64 (atoi v) else 4)); lia).
    edestruct hex_text_total as [b' ->]; [|by eexists]. rewrite length_take. cbn [sb_off sb_empty]. lia.
Qed.

(** ** Examples *)

Definition two_lines : cstr := lit "one" ++ [10] ++ lit "two" ++ [10].

(** A machine with one directory of two files; the empty path names nothing. *)
Definition machine_ex : machine :=
  let file p := if streq p (lit "/w/a.txt") then Some (two_lines) else None in
  mk_machine (λ p, (λ c, mk_stat 33188 (Z.of_nat (length c)) 0 0 0) <$> file p)
    (λ p, if streq p (lit "a.txt") then Some (lit "/w/a.txt") else None) file
    (λ p, if streq p (lit ".") then Some [lit "."; lit "a.txt"; lit "b.c"] else None)
    [] None (λ p n, contains n (drop 1 p)) (λ p, Some (λ l, contains l p)) (λ _, []) [].

Lemma file_read_confined_witness :
  ∃ path canonical content i j,
    m_realpath machine_ex path = Some canonical ∧ has_prefix (m_workspace machine_ex) canonical = true ∧
    m_file machine_ex canonical = Some content ∧
    two_lines = concat (take j (drop i (lines_of LINE_LEN content))) ∧
    (length (two_lines) < RESULT_LEN)%nat.
Proof.
  apply (file_read_confined machine_ex [] (jlit "{'path':'a.txt'}")
    (mk_outcome 0 (mk_result (two_lines) true []) [])); [by_eval|reflexivity].
Defined.

Lemma file_read_whole_witness :
  tool_file_read_execute machine_ex [] (jlit "{'path':'a.txt','line_start':'2'}") =
  Some (mk_outcome 0 (mk_result (two_lines) true []) []).
Proof.
  apply (file_read_whole machine_ex [] _ (lit "a.txt") [] (lit "/w/a.txt") (mk_stat 33188 8 0 0 0));
    [by_eval..|done|by_eval|by_eval|apply Nat.ltb_lt; by_eval|lit_forall || (repeat constructor; done)].
Defined.

Definition write_ok (c : syscall) : answer := mk_answer 0 [] false.

Definition edit_machine : machine :=
  mk_machine (λ _, None) Some (λ p, if streq p (lit "new") then Some (lit "old new") else None) (λ _, None) [] None
    (λ _ _, false) (λ _, None) (λ _, []) [].

Lemma edit_changes_nothing_witness :
  ∃ path bytes,
    parse_string_param (jlit "{'path':'f.txt','find':'old','replace':'new'}") (lit "replace") = (true, path) ∧
    m_file edit_machine path = Some bytes ∧
    ((length bytes < EDIT_LEN - 1)%nat → Sys_write (lit "new") false (lit "old new") = Sys_write path false (until_nul bytes)).
Proof.
  apply (edit_changes_nothing edit_machine write_ok [] (jlit "{'path':'f.txt','find':'old','replace':'new'}")
    (mk_outcome 0 (succeed_with (lit "Applied edit to new")) [Sys_write (lit "new") false (lit "old new")]));
    [reflexivity|by_eval|left].
Defined.

Lemma grep_needs_include_witness :
  tool_grep_execute machine_ex (jlit "{'pattern':'one','path':'.'}") =
  Some (mk_outcome 0 (succeed_with (lit "No matches found for: ")) []).
Proof.
  eapply (grep_needs_include machine_ex (jlit "{'pattern':'one','path':'.'}") (lit "one") (lit ".")); [by_eval..|reflexivity].
Defined.

Lemma glob_lists_matches_witness :
  tool_glob_execute machine_ex [] (jlit "{'glob':'*.txt'}") = mk_outcome 0 (succeed_with (lit "a.txt")) [].
Proof.
  apply (glob_lists_matches machine_ex [] (jlit "{'glob':'*.txt'}") (lit "*.txt") [lit "."; lit "a.txt"; lit "b.c"]);
    [by_eval..|by repeat constructor|done|apply Nat.ltb_lt; by_eval].
Defined.

Lemma http_request_needs_max_length_witness :
  tool_http_request_execute ([] : list transfer, ready) (jlit "{'url':'https://api.github.com/user'}") =
  Some (([], ready), refuse (lit "URL blocked by security policy (SSRF protection)") []).
Proof. apply http_request_needs_max_length; by_eval. Defined.

Definition long_reply : list Z := replicate (Z.to_nat 16385) 97.

Lemma http_request_overflows_witness :
  tool_http_request_execute ([mk_transfer [long_reply] true 200], ready)
    (jlit "{'url':'x','max_length':'https://api.github.com/user'}") = None.
Proof.
  eapply (http_request_overflows _ _ (lit "https://api.github.com/user") [] ready 200 long_reply 0);
    [by_eval..|vm_compute; discriminate|by_eval|by apply Forall_replicate|vm_compute; split; [reflexivity|discriminate]].
Defined.
