(* ===== verification/ToolsCommand.v ===== *)
(** * The tools of [src/tools/tools.c] that run a fixed kind of command

    git, crontab, the browser, screenshots, delays and settings, and the
    dispatch to every tool that is not in [Tools].  The commands are built from
    the static parameter buffer without quoting and run with [system] or
    [popen]. *)
From S2P Require Import Prelude Buffers Tools ToolsProcess Http ToolsRead.

(** The executions [record_cron_run] has noted. *)
Definition CRON_RUNS : nat := 100.

Definition record_cron_run (timestamp job_info : cstr) (runs : list cstr) : list cstr :=
  if (length runs <? CRON_RUNS)%nat
  then runs ++ [snprintf_s 512 (lit "[" ++ timestamp ++ lit "] " ++ job_info)] else runs.

(** The next line [fgets] reads with room for [n - 1] bytes. *)
Definition line_length (n : nat) (s : list Z) : nat :=
  Nat.min (n - 1) (match strchr s 10 with Some k => S k | None => length s end).

(** Lines read behind the text so far, until it is longer than [limit]; one
    byte of the buffer is never used. *)
Fixpoint read_more (fuel size limit : nat) (text : cstr) (s : list Z) : cstr :=
  match fuel, s with
  | S fuel', _ :: _ =>
      let n := line_length (size - length text - 1) s in
      let text := text ++ until_nul (take n s) in
      if (limit <? length text)%nat then text else read_more fuel' size limit text (drop n s)
  | _, _ => text
  end.

Section command.
Context (m : machine) (os : syscall → answer) (strerror : cstr).

(** The code 0 is returned whether or not the command succeeds. *)
Definition system_tool (cmd : cstr) (ok : cstr) (err : Z → cstr) : outcome :=
  let call := Sys_system cmd in
  let ret := code (os call) in
  mk_outcome 0
    (if ret =? 0 then succeed_with ok else fail_with (err ret)) [call].

Definition popen_tool (cmd : cstr) (size limit : nat) (empty err : cstr) : outcome :=
  let call := Sys_popen cmd in
  if code (os call) =? 0 then
    let out := output (os call) in
    let text := read_more (length out) size limit [] out in
    mk_outcome 0 (succeed_with (match text with [] => snprintf_s size empty | _ => text end)) [call]
  else refuse err [call].

Definition tool_screenshot_execute (params : cstr) : outcome :=
  let '(output_path, _) := parse_string_param params (lit "output") in
  let '(_, _) := parse_string_param params (lit "full_screen") in
  let '(delay_str, v) := parse_string_param params (lit "delay") in
  let output_path := if output_path then v else lit "screenshot.png" in
  let delay := if delay_str then atoi v else 1 in
  system_tool (snprintf_s 1024 (lit "sleep " ++ fmt_dec delay ++ lit " && screencapture -x " ++ output_path))
    (lit "Screenshot saved to " ++ output_path) (λ _, lit "Failed to capture screenshot").

(** ** git *)

Definition tool_git_clone_execute (params : cstr) : outcome :=
  let '(url, _) := parse_string_param params (lit "url") in
  let '(dir, v) := parse_string_param params (lit "directory") in
  if negb url then refuse (lit "No repository URL provided") []
  else
    system_tool (snprintf_s (Z.to_nat 2048) (lit "git clone " ++ v ++ (if dir then lit " " ++ v else [])))
      (lit "Repository cloned successfully") (λ ret, lit "Git clone failed with code " ++ fmt_dec ret).

Definition tool_git_pull_execute (params : cstr) : outcome :=
  let '(path, _) := parse_string_param params (lit "path") in
  let '(branch, v) := parse_string_param params (lit "branch") in
  let path := if path then v else lit "." in
  system_tool (snprintf_s (Z.to_nat 2048) (lit "cd " ++ path ++ lit " && git pull" ++ (if branch then lit " origin " ++ v else [])))
    (lit "Git pull successful") (λ ret, lit "Git pull failed with code " ++ fmt_dec ret).

Definition tool_git_commit_execute (params : cstr) : outcome :=
  let '(path, _) := parse_string_param params (lit "path") in
  let '(message, _) := parse_string_param params (lit "message") in
  let '(add_all_str, v) := parse_string_param params (lit "add_all") in
  let path := if path then v else lit "." in
  if negb message then refuse (lit "No commit message provided") []
  else
    system_tool (snprintf_s (Z.to_nat 4096)
        (lit "cd " ++ path ++ (if is_true add_all_str v then lit " && git add -A" else []) ++
         lit " && git commit -m " ++ quote v))
      (lit "Commit successful") (λ ret, lit "Git commit failed with code " ++ fmt_dec ret).

Definition git_command (operation path : cstr) (limit : Z) : cstr :=
  let go s := lit "cd " ++ path ++ lit " && git " ++ lit s in
  if streq operation (lit "status") then go "status --short 2>&1"%string
  else if streq operation (lit "branch") then go "branch -a 2>&1"%string
  else if streq operation (lit "log") then go "log --oneline -n "%string ++ fmt_dec limit ++ lit " 2>&1"
  else if streq operation (lit "diff") then go "diff 2>&1 | head -200"%string
  else if streq operation (lit "stash") then go "stash list 2>&1"%string
  else if streq operation (lit "tag") then go "tag -l 2>&1"%string
  else if streq operation (lit "fetch") then go "fetch --all 2>&1"%string
  else if streq operation (lit "remote") then go "remote -v 2>&1"%string
  else if streq operation (lit "reflog") then go "reflog -n 20 2>&1"%string
  else if streq operation (lit "shortlog") then go "shortlog -sn 2>&1"%string
  else lit "cd " ++ path ++ lit " && git " ++ operation ++ lit " 2>&1".

Definition tool_git_operations_execute (params : cstr) : outcome :=
  let '(operation, _) := parse_string_param params (lit "operation") in
  let '(args, _) := parse_string_param params (lit "args") in
  let '(path, v) := parse_string_param params (lit "path") in
  if negb operation then
    refuse (lit "Operation required (status, branch, log, diff, stash, tag, fetch, pull)") []
  else
    popen_tool (snprintf_s (Z.to_nat 4096) (git_command v (if path then v else lit ".") (if args then atoi v else 10)))
      (Z.to_nat 8192) (Z.to_nat 7000) (lit "No output from git " ++ v) (lit "Failed to execute git operation").

(** ** crontab *)

Definition tool_cron_add_execute (params : cstr) : outcome :=
  let '(schedule, _) := parse_string_param params (lit "schedule") in
  let '(command, _) := parse_string_param params (lit "command") in
  let '(job_name, v) := parse_string_param params (lit "name") in
  if negb schedule || negb command then refuse (lit "Schedule and command required") []
  else
    let entry := snprintf_s (Z.to_nat 4096) (v ++ lit " " ++ v ++ (if job_name then lit " # " ++ v else [])) in
    system_tool (snprintf_s (Z.to_nat 8192)
        (lit "(crontab -l 2>/dev/null; echo " ++ quote entry ++ lit ") | crontab -"))
      (lit "Cron job added: " ++ entry) (λ _, lit "Failed to add cron job").

Definition tool_cron_list_execute (params : cstr) : outcome :=
  let call := Sys_popen (lit "crontab -l 2>/dev/null") in
  if code (os call) =? 0 then
    let text := collect_lines (Z.to_nat 4096) (lines_of 256 (output (os call))) [] in
    mk_outcome 0 (succeed_with (match text with [] => lit "No cron jobs" | _ => text end)) [call]
  else refuse (lit "No crontab or error reading") [call].

Definition tool_cron_remove_execute (params : cstr) : outcome :=
  let '(job_name, _) := parse_string_param params (lit "name") in
  let '(line_num_str, v) := parse_string_param params (lit "line") in
  let run cmd := system_tool cmd (lit "Cron jobs removed") (λ _, []) in
  if line_num_str then run (snprintf_s 256 (lit "crontab -l | sed -e '" ++ v ++ lit "d' | crontab -"))
  else if job_name then run (snprintf_s 512 (lit "crontab -l | grep -v '# " ++ v ++ lit "$' | crontab -"))
  else mk_outcome 0 (succeed_with (lit "Cron jobs removed")) [Sys_system (lit "crontab -r")].

Definition tool_cron_run_execute (params : cstr) : outcome :=
  let '(command, v) := parse_string_param params (lit "command") in
  if negb command then refuse (lit "No command provided") []
  else system_tool v [] (λ ret, lit "Command failed with code " ++ fmt_dec ret).

Definition tool_cron_runs_execute (runs : list cstr) (params : cstr) : option outcome :=
  let '(_, _) := parse_string_param params (lit "job_id") in
  let '(limit_str, v) := parse_string_param params (lit "limit") in
  let limit := if limit_str then atoi v else 10 in
  let limit := if (limit <=? 0) || (100 <? limit) then 10 else limit in
  match runs with
  | [] => Some (mk_outcome 0 (succeed_with (lit "No cron execution history available")) [])
  | _ =>
      b ← sn_append (Z.to_nat 8192) (lit "Cron execution history:" ++ [10]) sb_empty;
      b ← foldl (λ b r,
            b ← b;
            if (sb_off b <? Z.to_nat 8192 - 200)%nat
            then sn_append (Z.to_nat 8192) (lit "- " ++ r ++ [10]) b else Some b)
          (Some b) (drop (length runs - Z.to_nat limit) runs);
      Some (mk_outcome 0 (succeed_with (sb_text b)) [])
  end.

Definition tool_cron_update_execute (params : cstr) : outcome :=
  let '(job_id, _) := parse_string_param params (lit "job_id") in
  let '(schedule, _) := parse_string_param params (lit "schedule") in
  let '(command, v) := parse_string_param params (lit "command") in
  let run cmd :=
    let call := Sys_system (snprintf_s 1024 cmd) in
    if code (os call) =? 0 then mk_outcome 0 (succeed_with (lit "Updated cron job: " ++ v)) [call]
    else refuse (lit "Failed to update cron job") [call] in
  if negb job_id then refuse (lit "Job ID required") []
  else if schedule && command then
    run (lit "(crontab -l 2>/dev/null | grep -v '^#.*" ++ v ++ lit "' | grep -v '^" ++ v ++ lit " '; echo '" ++ v ++
         lit " " ++ v ++ lit "') | crontab -")
  else if schedule then
    run (lit "crontab -l 2>/dev/null | sed 's/.*" ++ v ++ lit ".*/" ++ v ++ lit " " ++ (if command then v else []) ++
         lit "/' | crontab -")
  else refuse (lit "Schedule or command required") [].

Definition tool_schedule_execute (params : cstr) : outcome :=
  let '(delay_str, _) := parse_string_param params (lit "delay") in
  let '(command, v) := parse_string_param params (lit "command") in
  if negb command then refuse (lit "Command required") []
  else
    let delay := if delay_str then atoi v else 0 in
    system_tool (if 0 <? delay then snprintf_s (Z.to_nat 4096) (lit "sleep " ++ fmt_dec delay ++ lit " && " ++ v) else v)
      [] (λ _, []).

(** ** Notices that only answer *)

Definition tool_pushover_execute (params : cstr) : outcome :=
  let '(message, _) := parse_string_param params (lit "message") in
  let '(user_key, _) := parse_string_param params (lit "user_key") in
  let '(app_token, _) := parse_string_param params (lit "app_token") in
  let '(title, v) := parse_string_param params (lit "title") in
  if negb message then refuse (lit "Message required") []
  else if negb user_key || negb app_token then refuse (lit "User key and app token required") []
  else
    mk_outcome 0 (succeed_with
      (lit "Pushover notification: " ++ v ++ lit " (title: " ++ (if title then v else lit "DoctorClaw") ++ lit ")")) [].

Definition tool_delegate_execute (params : cstr) : outcome :=
  let '(agent, _) := parse_string_param params (lit "agent") in
  let '(task, v) := parse_string_param params (lit "task") in
  if negb task then refuse (lit "Task required") []
  else mk_outcome 0 (succeed_with (lit "Delegated to " ++ (if agent then v else lit "default") ++ lit ": " ++ v)) [].

Definition tool_composio_execute (params : cstr) : outcome :=
  let '(action, _) := parse_string_param params (lit "action") in
  let '(entity, _) := parse_string_param params (lit "entity") in
  let '(params_json, v) := parse_string_param params (lit "params") in
  if negb action then refuse (lit "Action required") []
  else
    mk_outcome 0 (succeed_with
      (lit "Composio action: " ++ v ++ lit " on " ++ (if entity then v else lit "default") ++ lit " with params: " ++
       (if params_json then v else lit "{}"))) [].

(** ** Browser, proxy, schema *)

Definition tool_browser_open_execute (params : cstr) : outcome :=
  let '(url, _) := parse_string_param params (lit "url") in
  let '(headless_str, v) := parse_string_param params (lit "headless") in
  if negb url then refuse (lit "URL required") []
  else
    let headless := is_true headless_str v in
    let cmd :=
      if headless then
        lit "open -a 'Google Chrome' --args --headless --disable-gpu '" ++ v ++ lit "' 2>/dev/null || open -a 'Safari' '" ++
        v ++ lit "' 2>/dev/null || xdg-open '" ++ v ++ lit "' 2>/dev/null || echo 'No browser found'"
      else
        lit "open '" ++ v ++ lit "' 2>/dev/null || xdg-open '" ++ v ++ lit "' 2>/dev/null || echo 'No browser found'" in
    let call := Sys_popen (snprintf_s 1024 cmd) in
    if code (os call) =? 0 then
      mk_outcome 0 (succeed_with
        (lit "Opened URL: " ++ v ++ lit " (headless: " ++ (if headless then lit "yes" else lit "no") ++ lit ")")) [call]
    else refuse (lit "Failed to open browser") [call].

Definition browser_command (action url : cstr) : cstr :=
  if streq action (lit "navigate") then lit "curl -s -L '" ++ url ++ lit "' | head -1000"
  else if streq action (lit "screenshot") then
    lit "webkit2png '" ++ url ++
    lit "' -o /tmp/screenshot.png 2>/dev/null && echo 'Screenshot saved' || echo 'Failed'"
  else if streq action (lit "click") then
    lit "echo 'Click action requires browser automation. Use browser_open for simple navigation.'"
  else if streq action (lit "fill") then
    lit "echo 'Fill action requires browser automation. Use browser_open for simple navigation.'"
  else if streq action (lit "get_html") then lit "curl -s '" ++ url ++ lit "'"
  else if streq action (lit "get_text") then lit "curl -s '" ++ url ++ lit "' | sed 's/<[^>]*>//g' | head -500"
  else lit "curl -s -L '" ++ url ++ lit "' | head -1000".

Definition tool_browser_execute (params : cstr) : outcome :=
  let '(url, _) := parse_string_param params (lit "url") in
  let '(action, _) := parse_string_param params (lit "action") in
  let '(_, v) := parse_string_param params (lit "selector") in
  if negb url then refuse (lit "URL required") []
  else
    let action := if action then v else lit "navigate" in
    popen_tool (snprintf_s (Z.to_nat 2048) (browser_command action v)) (Z.to_nat 4096) (Z.to_nat 3000)
      (lit "Browser action '" ++ action ++ lit "' completed on " ++ v) (lit "Failed to execute browser action").

Definition proxy_names : list cstr := map lit ["HTTP_PROXY"%string; "HTTPS_PROXY"%string; "http_proxy"%string; "https_proxy"%string].

Definition tool_proxy_config_execute (params : cstr) : outcome :=
  let '(action, _) := parse_string_param params (lit "action") in
  let '(host, _) := parse_string_param params (lit "host") in
  let '(port_str, _) := parse_string_param params (lit "port") in
  let '(protocol, v) := parse_string_param params (lit "protocol") in
  let shown name := default (lit "not set") (getenv (lit name) (m_environ m)) in
  if negb action then refuse (lit "Action required (get/set/unset)") []
  else if streq v (lit "get") then
    mk_outcome 0 (succeed_with
      (lit "HTTP_PROXY: " ++ shown "HTTP_PROXY"%string ++ [10] ++ lit "HTTPS_PROXY: " ++ shown "HTTPS_PROXY"%string ++ [10] ++
       lit "NO_PROXY: " ++ shown "NO_PROXY"%string)) []
  else if streq v (lit "set") then
    if negb host || negb port_str then refuse (lit "Host and port required for set action") []
    else
      let url := snprintf_s 256 ((if protocol then v else lit "http") ++ lit "://" ++ v ++ lit ":" ++ fmt_dec (atoi v)) in
      mk_outcome 0 (succeed_with (lit "Proxy set to: " ++ url)) (map (λ n, Sys_setenv n url) proxy_names)
  else if streq v (lit "unset") then
    mk_outcome 0 (succeed_with (lit "Proxy variables unset")) (map Sys_unsetenv proxy_names)
  else refuse (lit "Unknown action: " ++ v) [].

(** [None] is the comparison of a missing strategy. *)
Definition tool_schema_execute (params : cstr) : option outcome :=
  let '(path, _) := parse_string_param params (lit "path") in
  let '(strategy, v) := parse_string_param params (lit "strategy") in
  if negb path then Some (refuse (lit "Path required") [])
  else if negb strategy then None
  else
    Some (mk_outcome 0 (succeed_with
      (if streq v (lit "remove_empty") then
         lit "Schema cleaned (remove_empty): " ++ v ++ lit " - removed 0 empty elements"
       else if streq v (lit "deduplicate") then
         lit "Schema cleaned (deduplicate): " ++ v ++ lit " - removed 0 duplicates"
       else if streq v (lit "validate") then lit "Schema validated: " ++ v ++ lit " - valid"
       else lit "Schema processed (" ++ v ++ lit "): " ++ v)) []).

(** ** Dispatch *)

Section net.
Context {W : Type} `{Curl W}.

(** The tools of this file and of [ToolsRead]; [runs] are the executions
    recorded so far.  The tools of [Tools] do not come here. *)
Definition run_other (runs : list cstr) (n : W * providers_t) (b : builtin) (params : cstr)
    : option ((W * providers_t) * outcome) :=
  let pure o := Some (n, o) in
  let may o := o ← o; Some (n, o) in
  match b with
  | T_file_read => may (tool_file_read_execute m strerror params)
  | T_glob => pure (tool_glob_execute m strerror params)
  | T_grep => may (tool_grep_execute m params)
  | T_browse => Some (tool_browse_execute n params)
  | T_stat => pure (tool_stat_execute m strerror params)
  | T_list => may (tool_list_execute m strerror params)
  | T_env => may (tool_env_execute m params)
  | T_exists => pure (tool_exists_execute m params)
  | T_edit => may (tool_edit_execute m os strerror params)
  | T_http_request => tool_http_request_execute n params
  | T_web_search => Some (tool_web_search_execute n params)
  | T_screenshot => pure (tool_screenshot_execute params)
  | T_image_info => may (tool_image_info_execute m strerror params)
  | T_git_clone => pure (tool_git_clone_execute params)
  | T_git_pull => pure (tool_git_pull_execute params)
  | T_git_commit => pure (tool_git_commit_execute params)
  | T_cron_add => pure (tool_cron_add_execute params)
  | T_cron_list => pure (tool_cron_list_execute params)
  | T_cron_remove => pure (tool_cron_remove_execute params)
  | T_cron_run => pure (tool_cron_run_execute params)
  | T_board_info => pure (tool_hardware_board_info_execute m os params)
  | T_memory_read => may (tool_hardware_memory_read_execute m params)
  | T_memory_map => pure (tool_hardware_memory_map_execute m params)
  | T_schedule => pure (tool_schedule_execute params)
  | T_pushover => pure (tool_pushover_execute params)
  | T_delegate => pure (tool_delegate_execute params)
  | T_composio => pure (tool_composio_execute params)
  | T_browser_open => pure (tool_browser_open_execute params)
  | T_browser => pure (tool_browser_execute params)
  | T_git_operations => pure (tool_git_operations_execute params)
  | T_cron_runs => may (tool_cron_runs_execute runs params)
  | T_cron_update => pure (tool_cron_update_execute params)
  | T_proxy_config => pure (tool_proxy_config_execute params)
  | T_schema => may (tool_schema_execute params)
  | _ => None
  end.

(** [tools_execute] with all its tools. *)
Definition execute_all (registry : list tool_impl_t) (runs : list cstr) (n : W * providers_t) (t : tools_t)
    (name params : cstr) : option outcome :=
  tools_execute os strerror (λ b p, snd <$> run_other runs n b p) (find_registered registry) t name params.
End net.
End command.

(** ** Commands outside the gate *)

Section theorems.
Context (m : machine) (os : syscall → answer) (err : cstr).
Context {W : Type} `{Curl W}.

(** The tool [cron_run] hands its command to the shell as it is: no approval is
    asked for, whatever the settings, no pattern or policy is tested, and a
    command that fails counts as success. *)
Theorem cron_run_ungated registry runs (n : W * providers_t) t params v :
  parse_string_param params (lit "command") = (true, v) →
  ∃ e, execute_all m os err registry runs n t (lit "cron_run") params =
       Some (mk_outcome 0 (mk_result [] true e) [Sys_system v]) ∧
       (e = [] ↔ code (os (Sys_system v)) = 0).
Proof.
  intros Hv. unfold execute_all, tools_execute. change (find_builtin (lit "cron_run")) with (Some T_cron_run).
  cbn [risky_action run_builtin run_other]. cbn [fmap option_fmap option_map snd]. unfold tool_cron_run_execute. rewrite Hv.
  cbn [negb]. unfold system_tool. cbn [o_rc o_result o_calls Z.eqb].
  destruct (Z.eqb_spec (code (os (Sys_system v))) 0) as [E|E]; eexists; (split; [done|]).
  - by split.
  - split; [|done]. cbn [Tools.r_error fail_with]. by eval_lits.
Qed.

(** Without a path the operation is empty when it is used: git runs without a
    subcommand, whatever was asked for. *)
Theorem git_operation_lost params op :
  parse_string_param params (lit "operation") = (true, op) → (parse_string_param params (lit "path")).1 = false →
  o_calls (tool_git_operations_execute os params) = [Sys_popen (lit "cd . && git  2>&1")].
Proof.
  intros Ho Hp. unfold tool_git_operations_execute. rewrite Ho.
  destruct (parse_string_param params (lit "args")) as [? ?].
  destruct (param_cases params (lit "path")) as [Hp'|(v & Hp' & _)]; rewrite Hp' in *; [|done].
  cbn [negb]. unfold popen_tool. by case_if.
Qed.

(** Without a protocol no action of the proxy settings is known. *)
Theorem proxy_needs_protocol params a :
  parse_string_param params (lit "action") = (true, a) → (parse_string_param params (lit "protocol")).1 = false →
  tool_proxy_config_execute m params = refuse (lit "Unknown action: ") [].
Proof.
  intros Ha Hp. unfold tool_proxy_config_execute. rewrite Ha.
  destruct (parse_string_param params (lit "host")) as [? ?], (parse_string_param params (lit "port")) as [? ?].
  destruct (param_cases params (lit "protocol")) as [Hp'|(v & Hp' & _)]; rewrite Hp' in *; done.
Qed.
End theorems.

(** ** What is shown of a command's output *)

(** The text read from a command is a first part of its output and leaves room
    for the NUL; an output up to the limit is read completely. *)
Theorem read_more_prefix fuel size limit : ∀ text s,
  (limit + 2 < size)%nat → (length text ≤ limit)%nat → (length s ≤ fuel)%nat → Forall (λ b, b ≠ 0) s →
  (∃ k, read_more fuel size limit text s = text ++ take k s) ∧
  (length (read_more fuel size limit text s) < size - 1)%nat ∧
  ((length text + length s ≤ limit)%nat → read_more fuel size limit text s = text ++ s).
Proof.
  induction fuel as [|fuel IH]; intros text s Hs Ht Hf H0; (destruct s as [|b s]; cbn [read_more length] in *; [|try lia]);
    try (rewrite app_nil_r; split_and!; [exists O; by rewrite app_nil_r|lia|done]).
  set (n := line_length (size - length text - 1) (b :: s)).
  assert (1 ≤ n ∧ n ≤ size - length text - 2)%nat as [Hn1 Hn2].
  { subst n. unfold line_length. destruct (strchr (b :: s) 10); cbn [length]; lia. }
  rewrite until_nul_id by (by apply Forall_take).
  assert (text ++ b :: s = (text ++ take n (b :: s)) ++ drop n (b :: s)) as Hsplit by (by rewrite <- app_assoc, take_drop).
  destruct (Nat.ltb_spec limit (length (text ++ take n (b :: s)))) as [Hlim|Hlim].
  - split_and!; [eauto|rewrite length_app, length_take; cbn [length]; lia|].
    intros Hl. rewrite length_app, length_take in Hlim. cbn [length] in Hlim. lia.
  - destruct (IH (text ++ take n (b :: s)) (drop n (b :: s))) as ([k Hk] & Hlen & Hall);
      [done|done|rewrite length_drop; cbn [length]; lia|by apply Forall_drop|].
    split_and!; [|done|].
    + exists (n + k)%nat. by rewrite Hk, <- app_assoc, take_take_drop.
    + intros Hl. rewrite Hsplit. apply Hall. rewrite length_app, length_take, length_drop. cbn [length]. lia.
Qed.

Definition output_ex : cstr := lit "a" ++ [10] ++ lit "b c".

Lemma read_more_prefix_witness :
  (∃ k, read_more 6 100 50 [] output_ex = [] ++ take k output_ex) ∧
  (length (read_more 6 100 50 [] output_ex) < 100 - 1)%nat ∧
  ((length ([] : cstr) + length output_ex ≤ 50)%nat → read_more 6 100 50 [] output_ex = [] ++ output_ex).
Proof. apply read_more_prefix; [lia|cbn; lia|vm_compute; lia|by repeat constructor]. Defined.

(** ** The history of cron *)

Definition run_line (r : cstr * cstr) : cstr := snprintf_s 512 (lit "[" ++ r.1 ++ lit "] " ++ r.2).

(** The history holds the first hundred executions: what is recorded later is
    dropped, so that the list shows the oldest ones for ever. *)
Theorem cron_history_keeps_first rs :
  foldl (λ h r, record_cron_run r.1 r.2 h) [] rs = take CRON_RUNS (run_line <$> rs).
Proof.
  assert (∀ h, (length h ≤ CRON_RUNS)%nat →
    foldl (λ h r, record_cron_run r.1 r.2 h) h rs = h ++ take (CRON_RUNS - length h) (run_line <$> rs)) as Hh.
  2:{ rewrite Hh by (cbn; lia). done. }
  induction rs as [|r rs IH]; intros h Hl; cbn [foldl fmap list_fmap]; [by rewrite take_nil, app_nil_r|].
  unfold record_cron_run at 2. destruct (Nat.ltb_spec (length h) CRON_RUNS) as [Hc|Hc].
  - rewrite IH by (rewrite length_app; cbn [length]; lia). rewrite <- app_assoc. f_equal.
    rewrite length_app. cbn [length]. replace (CRON_RUNS - length h)%nat with (S (CRON_RUNS - (length h + 1))) by lia. done.
  - rewrite IH by done. replace (CRON_RUNS - length h)%nat with O by lia. done.
Qed.

(** The listing of the history always fits its buffer. *)
Theorem cron_runs_total runs params : is_Some (tool_cron_runs_execute runs params).
Proof.
  unfold tool_cron_runs_execute. destruct (parse_string_param params (lit "job_id")) as [? ?],
    (parse_string_param params (lit "limit")) as [? v]. destruct runs as [|r runs]; [eauto|].
  destruct (sn_append _ _ sb_empty) as [b1|] eqn:E1; [|done]. cbn [mbind option_bind].
  set (f := λ b r, _). assert (∀ rs b, ∃ b', foldl f (Some b) rs = Some b') as Hf.
  { induction rs as [|x rs IH]; intros b'; cbn [foldl]; [eauto|]. unfold f at 2. cbn [mbind option_bind].
    destruct (Nat.ltb_spec (sb_off b') (Z.to_nat 8192 - 200)); [|apply IH].
    unfold sn_append. rewrite (proj2 (Nat.leb_le _ _)) by lia. apply IH. }
  edestruct Hf as [b' ->]. by eexists.
Qed.

(** ** Examples *)

Definition gated : tools_t := tools_ex.

Lemma cron_run_ungated_witness :
  ∃ e, execute_all machine_ex (λ _, mk_answer 256 [] false) [] [] [] ([] : list transfer, ready) gated (lit "cron_run")
         (jlit "{'command':'rm -rf /'}") = Some (mk_outcome 0 (mk_result [] true e) [Sys_system (lit "rm -rf /")]) ∧
       (e = [] ↔ code ((λ _ : syscall, mk_answer 256 [] false) (Sys_system (lit "rm -rf /"))) = 0).
Proof. apply cron_run_ungated. by_eval. Defined.

Lemma git_operation_lost_witness :
  o_calls (tool_git_operations_execute (λ _, mk_answer 0 [] false) (jlit "{'operation':'status'}")) =
  [Sys_popen (lit "cd . && git  2>&1")].
Proof. by apply (git_operation_lost _ _ (lit "status")). Defined.

Lemma proxy_needs_protocol_witness :
  tool_proxy_config_execute machine_ex (jlit "{'action':'get'}") = refuse (lit "Unknown action: ") [].
Proof. by apply (proxy_needs_protocol _ _ (lit "get")). Defined.
