(* ===== verification/Llama.v ===== *)
(** * The local model of [src/llama/llama.c]

    Loading libllama and a model file, and the greedy completion loop.  The
    library is the class [LlamaLib]: the world [W] stands for the process with
    the loaded library.  Tokens are integers, a context is a handle, logits
    are single precision numbers kept in [f64]. *)
From S2P Require Import Prelude Floats.

Definition MAX_MODEL_PATH : nat := 512.
Definition OUTPUT_LEN : nat := Z.to_nat 8192.

Class LlamaLib (W : Type) := {
  dlopen : W → cstr → W * bool;
  (** the symbols [dlsym] resolves *)
  dlsym : W → cstr → bool;
  lib_init_from_file : W → cstr → W * option Z;
  lib_free_ctx : W → Z → W;
  (** the result code and the tokens *)
  lib_tokenize : W → Z → cstr → nat → W * Z * list Z;
  lib_reset_kv_cache : W → Z → W;
  lib_eval : W → Z → list Z → Z → Z → W * Z;
  lib_token_eos : W → Z;
  lib_n_vocab : W → Z → Z;
  lib_get_logits : W → Z → option (list f64);
  lib_token_to_str : W → Z → Z → option cstr;
}.

(** The symbols [llama_init] asks for, in the order of the fields of
    [llama_backend_t]. *)
Definition SYMBOLS : list cstr :=
  [lit "llama_init_from_file"; lit "llama_free"; lit "llama_eval"; lit "llama_token_eos";
   lit "llama_token_to_str"; lit "llama_n_vocab"; lit "llama_get_kv_cache_token_count";
   lit "llama_reset_kv_cache"; lit "llama_tokenize"; lit "llama_model_name"; lit "llama_get_logits"].

(** The handle, and the names whose pointers are set; closing the library
    keeps the pointers. *)
Record llama_backend_t := mk_backend { lib_handle : bool; resolved : list cstr }.

Definition has (g : llama_backend_t) (name : string) : bool := bool_decide (lit name ∈ resolved g).

Record llama_model_t := mk_model { ctx : option Z; loaded : bool; model_path : cstr }.

Definition model_zero : llama_model_t := mk_model None false [].

Record llama_response_t := mk_llama_response { ll_text : cstr; tokens_generated : nat; ll_done : bool }.

Definition llama_response_zero : llama_response_t := mk_llama_response [] 0 false.

Section lib.
Context {W : Type} `{LlamaLib W}.

Definition llama_init (w : W) (g : llama_backend_t) (m : llama_model_t)
    : W * llama_backend_t * llama_model_t * Z :=
  let '(w, ok) := dlopen w (lit "libllama.dylib") in
  let '(w, ok) := if ok then (w, ok) else dlopen w (lit "libllama.so") in
  if negb ok then (w, mk_backend false (resolved g), model_zero, -1)
  else
    let g := mk_backend true (filter (λ s, dlsym w s = true) SYMBOLS) in
    if negb (has g "llama_init_from_file") || negb (has g "llama_free")
    then (w, mk_backend false (resolved g), model_zero, -1)
    else (w, g, model_zero, 0).

Definition llama_load_model (w : W) (g : llama_backend_t) (m : llama_model_t) (path : cstr)
    : W * llama_backend_t * llama_model_t * Z :=
  let '(w, g, m, rc) := if lib_handle g then (w, g, m, 0) else llama_init w g m in
  if negb (rc =? 0) then (w, g, m, -1)
  else
    let '(w, c) := lib_init_from_file w path in
    match c with
    | None => (w, g, mk_model None (loaded m) (model_path m), -1)
    | Some c => (w, g, mk_model (Some c) true (snprintf_s MAX_MODEL_PATH path), 0)
    end.

Definition llama_unload_model (w : W) (g : llama_backend_t) (m : llama_model_t) : W * llama_model_t * Z :=
  if negb (loaded m) then (w, m, -1)
  else
    let w := match ctx m with Some c => if has g "llama_free" then lib_free_ctx w c else w | None => w end in
    (w, mk_model None false (model_path m), 0).

Definition llama_free (w : W) (g : llama_backend_t) (m : llama_model_t) : W * llama_backend_t * llama_model_t :=
  let '(w, m, _) := llama_unload_model w g m in (w, mk_backend false (resolved g), m).

Definition llama_is_loaded (m : llama_model_t) : bool := loaded m.
Definition llama_get_model_name (m : llama_model_t) : option cstr :=
  if loaded m then Some (model_path m) else None.

(** ** Sampling *)

(** The loop from index [k] on, with the best index and value so far. *)
Fixpoint argmax_from (k best : nat) (best_val : f64) (logits : list f64) : nat :=
  match logits with
  | [] => best
  | v :: l => if f64_ltb best_val v then argmax_from (S k) k v l else argmax_from (S k) best best_val l
  end.

(** [None]: fewer logits than the vocabulary has tokens. *)
Definition best_token (n_vocab : nat) (logits : list f64) : option nat :=
  match take n_vocab logits with
  | v :: l => if (n_vocab <=? length logits)%nat then Some (argmax_from 1 0 v l) else None
  | [] => None
  end.

Definition next_token (w : W) (g : llama_backend_t) (c : Z) (n_vocab : Z) (eos : Z) : option Z :=
  if has g "llama_get_logits" && (0 <? n_vocab) then
    match lib_get_logits w c with
    | None => Some eos
    | Some logits => b ← best_token (Z.to_nat n_vocab) logits; Some (Z.of_nat b)
    end
  else Some eos.

(** The completion loop: [left] tokens may still follow. [None]: a call
    through a pointer that is not set, or a read outside the logits. *)
Fixpoint sample_loop (g : llama_backend_t) (c n_vocab eos : Z) (left : nat) (w : W) (n_past : Z) (output : cstr)
    : option (W * cstr) :=
  match left with
  | O => Some (w, output)
  | S left' =>
      if (length output <? OUTPUT_LEN - 32)%nat then
        token ← next_token w g c n_vocab eos;
        if negb (has g "llama_token_to_str") then None
        else
          let output :=
            match lib_token_to_str w c token with
            | Some s => if (length output + length s <? OUTPUT_LEN - 1)%nat then output ++ s else output
            | None => output
            end in
          if token =? eos then Some (w, output)
          else
            let '(w, rc) := lib_eval w c [token] n_past 4 in
            if negb (rc =? 0) then Some (w, output)
            else sample_loop g c n_vocab eos left' w (n_past + 1) output
      else Some (w, output)
  end.

Definition llama_chat_completion_with_config (w : W) (g : llama_backend_t) (m : llama_model_t) (prompt : cstr)
    (max_tokens : nat) (resp : llama_response_t) : option (W * llama_response_t * Z) :=
  let fail (w : W) s := Some (w, mk_llama_response (snprintf_s OUTPUT_LEN (lit s)) 0 false, -1) in
  if negb (loaded m) then Some (w, resp, -1)
  else if negb (has g "llama_tokenize") || negb (has g "llama_eval") || negb (has g "llama_token_eos")
  then fail w "Error: llama.cpp functions not available"%string
  else
    match ctx m with
    | None => None
    | Some c =>
        let '(w, n_tokens, tokens) := lib_tokenize w c prompt (Z.to_nat 4096) in
        if n_tokens <? 0 then fail w "Error: Failed to tokenize prompt"%string
        else
          let w := if has g "llama_reset_kv_cache" then lib_reset_kv_cache w c else w in
          let '(w, rc) := lib_eval w c (take (Z.to_nat n_tokens) tokens) 0 4 in
          if negb (rc =? 0) then fail w "Error: Failed to evaluate prompt"%string
          else
            let n_vocab := if has g "llama_n_vocab" && (0 <? lib_n_vocab w c) then lib_n_vocab w c else 32000 in
            '(w, output) ← sample_loop g c n_vocab (lib_token_eos w) max_tokens w n_tokens [];
            Some (w, mk_llama_response (snprintf_s OUTPUT_LEN output) (length output) true, 0)
    end.

Definition llama_chat_completion (w : W) (g : llama_backend_t) (m : llama_model_t) (prompt : cstr)
    (resp : llama_response_t) : option (W * llama_response_t * Z) :=
  llama_chat_completion_with_config w g m prompt 512 resp.
End lib.

(** ** Greedy choice *)

(** [best] is the first index of a greatest value. *)
Definition first_max (best : nat) (l : list f64) : Prop :=
  ∃ b, l !! best = Some b ∧
    (∀ j v, l !! j = Some v → f64_ltb b v = false) ∧
    (∀ j v, (j < best)%nat → l !! j = Some v → f64_ltb v b = true).

Lemma first_max_snoc best l b v :
  l !! best = Some b → first_max best l → f64_ltb b v = false → first_max best (l ++ [v]).
Proof.
  intros Hb (b' & Hb' & Hge & Hlt) Hv. assert (b' = b) as -> by congruence.
  exists b. split; [by apply lookup_app_l_Some|]. split.
  - intros j u [Hu|[? Hu]]%lookup_app_Some; [eauto|].
    apply list_lookup_singleton_Some in Hu as [_ <-]. done.
  - intros j u Hj Hu. apply lookup_lt_Some in Hb. rewrite lookup_app_l in Hu by lia. eauto.
Qed.

Lemma first_max_new best l b v :
  Forall (λ u, is_nan u = false) (l ++ [v]) →
  l !! best = Some b → first_max best l → f64_ltb b v = true → first_max (length l) (l ++ [v]).
Proof.
  intros [Hn Hv]%Forall_app Hb (b' & Hb' & Hge & _) Hlt. assert (b' = b) as -> by congruence.
  rewrite Forall_singleton in Hv. rewrite Forall_lookup in Hn.
  assert (∀ j u, l !! j = Some u → f64_ltb u v = true) as Hall.
  { intros j u Hu. pose proof (Hge _ _ Hu) as Hbu.
    destruct (f64_ltb u v) eqn:E; [done|].
    pose proof (f64_nlt_trans b u v (Hn _ _ Hb) (Hn _ _ Hu) Hv Hbu E). congruence. }
  exists v. split; [by rewrite list_lookup_middle|]. split.
  - intros j u [Hu|[? Hu]]%lookup_app_Some; [apply f64_ltb_asym; eauto|].
    apply list_lookup_singleton_Some in Hu as [_ <-]. apply f64_ltb_irrefl.
  - intros j u Hj Hu. rewrite lookup_app_l in Hu by lia. eauto.
Qed.

Lemma argmax_from_spec l seen best b :
  Forall (λ u, is_nan u = false) (seen ++ l) → seen !! best = Some b → first_max best seen →
  first_max (argmax_from (length seen) best b l) (seen ++ l).
Proof.
  revert seen best b. induction l as [|v l IH]; intros seen best b Hn Hb Hm; cbn [argmax_from].
  { by rewrite app_nil_r. }
  replace (seen ++ v :: l) with ((seen ++ [v]) ++ l) in * by (by rewrite <- app_assoc).
  assert (S (length seen) = length (seen ++ [v])) as -> by (rewrite length_app; cbn; lia).
  pose proof Hn as [Hn1 _]%Forall_app. destruct (f64_ltb b v) eqn:E; apply IH; try done.
  - by rewrite list_lookup_middle.
  - by eapply first_max_new.
  - by apply lookup_app_l_Some.
  - by eapply first_max_snoc.
Qed.

(** The sampler picks the first token of greatest probability: for logits
    without NaN, one for each token of the vocabulary, the index is that of the
    first greatest value. *)
Theorem best_token_greedy n_vocab logits :
  (0 < n_vocab ≤ length logits)%nat → Forall (λ u, is_nan u = false) logits →
  ∃ i, best_token n_vocab logits = Some i ∧ (i < n_vocab)%nat ∧ first_max i (take n_vocab logits).
Proof.
  intros Hv Hn. unfold best_token. destruct (take n_vocab logits) as [|v l] eqn:E.
  { apply (f_equal length) in E. rewrite length_take in E. cbn in E. lia. }
  rewrite (proj2 (Nat.leb_le _ _)) by lia. eexists. split; [done|].
  assert (first_max (argmax_from 1 0 v l) ([v] ++ l)) as Hm.
  { apply (argmax_from_spec l [v]); [|done|].
    - cbn [app]. rewrite <- E. by apply Forall_take.
    - exists v. split; [done|]. split; [|intros; lia].
      intros [|j] u [= <-]. apply f64_ltb_irrefl. }
  split; [|done]. destruct Hm as (b & Hb%lookup_lt_Some & _). cbn [app] in Hb.
  rewrite <- E, length_take in Hb. lia.
Qed.

(** ** Completions *)

Section completion.
Context {W : Type} `{LlamaLib W}.
Context (g : llama_backend_t).
Hypothesis Hstr : has g "llama_token_to_str" = true.

Lemma sample_loop_bounded c n_vocab eos left w n_past output w' out :
  (length output < OUTPUT_LEN - 1)%nat →
  sample_loop g c n_vocab eos left w n_past output = Some (w', out) →
  (length out < OUTPUT_LEN - 1)%nat ∧ output `prefix_of` out.
Proof.
  revert w n_past output. induction left as [|n IH]; intros w n_past output Ho; cbn [sample_loop].
  { by intros [= _ <-]. }
  destruct (length output <? OUTPUT_LEN - 32)%nat; [|by intros [= _ <-]].
  destruct (next_token _ _ _ _ _) as [t|]; [|done]. cbn [mbind option_bind]. rewrite Hstr. cbn [negb].
  set (o2 := match lib_token_to_str w c t with Some s => _ | None => _ end).
  assert ((length o2 < OUTPUT_LEN - 1)%nat ∧ output `prefix_of` o2) as [Ho2 Hp2].
  { unfold o2. destruct (lib_token_to_str w c t) as [s|]; [|done].
    destruct (_ <? _)%nat eqn:E; bsplit; [|done]. rewrite length_app. split; [lia|by exists s]. }
  destruct (t =? eos); [by intros [= _ <-]|]. destruct (lib_eval w c [t] n_past 4) as [w2 rc].
  destruct (negb (rc =? 0)); [by intros [= _ <-]|]. intros [Hl Hp]%IH; [|done]. split; [done|by etrans].
Qed.
End completion.

(** A completion that succeeds ends with fewer than 8191 bytes of text and
    reports the number of those bytes as the tokens it generated; one that
    fails on a loaded model says why and generates nothing. *)
Theorem llama_completion_bounded {W} `{LlamaLib W} w g m prompt n resp w' r rc :
  has g "llama_token_to_str" = true → loaded m = true →
  llama_chat_completion_with_config w g m prompt n resp = Some (w', r, rc) →
  (length (ll_text r) < OUTPUT_LEN - 1)%nat ∧ tokens_generated r = (if rc =? 0 then length (ll_text r) else O) ∧
  (ll_done r = true ↔ rc = 0) ∧ (rc ≠ 0 → rc = -1 ∧ lit "Error: " `prefix_of` ll_text r).
Proof.
  intros Hs Hl. unfold llama_chat_completion_with_config. rewrite Hl. cbn [negb].
  assert (∀ (s : string) (w'' : W), (String.length s < 100)%nat →
    has_prefix (lit "Error: ") (lit s) = true →
    Some (w'', mk_llama_response (snprintf_s OUTPUT_LEN (lit s)) 0 false, -1) = Some (w', r, rc) →
    (length (ll_text r) < OUTPUT_LEN - 1)%nat ∧ tokens_generated r = (if rc =? 0 then length (ll_text r) else O) ∧
    (ll_done r = true ↔ rc = 0) ∧ (rc ≠ 0 → rc = -1 ∧ lit "Error: " `prefix_of` ll_text r)) as Hf.
  { intros s w'' Hlen Hp [= _ <- <-]. cbn [ll_text tokens_generated ll_done].
    assert (length (lit s) = String.length s) as E.
    { clear. induction s as [|a s IH]; cbn; [done|]. by rewrite IH. }
    assert (101 <= OUTPUT_LEN)%nat by (unfold OUTPUT_LEN; lia).
    rewrite snprintf_s_id by lia. split_and!; [lia|done|done|]. intros _. split; [done|].
    apply has_prefix_spec in Hp as [k Hk]. exists k. exact Hk. }
  destruct (_ || _); [apply Hf; [cbn; lia|done]|].
  destruct (ctx m) as [c|]; [|done]. destruct (lib_tokenize w c prompt _) as [[w1 nt] toks].
  destruct (nt <? 0); [apply Hf; [cbn; lia|done]|]. destruct (lib_eval _ c _ 0 4) as [w2 e].
  destruct (negb (e =? 0)); [apply Hf; [cbn; lia|done]|].
  destruct (sample_loop _ _ _ _ _ _ _ _) as [[w3 out]|] eqn:E; [|done]. cbn [mbind option_bind].
  intros [= _ <- <-]. cbn [ll_text tokens_generated ll_done Z.eqb].
  apply (sample_loop_bounded g Hs) in E as [Hb _]; [|cbn [length]; unfold OUTPUT_LEN; lia].
  rewrite snprintf_s_id by (unfold OUTPUT_LEN in *; lia).
  done.
Qed.

(** ** A small library *)

(** A vocabulary of three tokens that says "hi", a space and the end; the
    world counts the evaluations. *)
Definition logits_ex (w : nat) : list f64 :=
  map f64_of_Z (match w with 1%nat => [3; 1; 2] | 2%nat => [1; 4; 4] | _ => [0; 0; 5] end).
Definition words_ex (t : Z) : option cstr := if t =? 0 then Some (lit "hi") else if t =? 1 then Some [32] else None.

#[global] Instance tiny_llama : LlamaLib nat := {
  dlopen w _ := (w, true);
  dlsym w _ := true;
  lib_init_from_file w _ := (w, Some 1);
  lib_free_ctx w _ := w;
  lib_tokenize w _ _ _ := (w, 1, [0]);
  lib_reset_kv_cache w _ := w;
  lib_eval w _ _ _ _ := (S w, 0);
  lib_token_eos w := 2;
  lib_n_vocab w _ := 3;
  lib_get_logits w _ := Some (logits_ex w);
  lib_token_to_str w _ t := words_ex t;
}.

Definition tiny_backend : llama_backend_t := mk_backend true SYMBOLS.
Definition tiny_model : llama_model_t := mk_model (Some 1) true (lit "m.gguf").

Lemma best_token_greedy_witness :
  ∃ i, best_token 3 (logits_ex 2) = Some i ∧ (i < 3)%nat ∧ first_max i (take 3 (logits_ex 2)).
Proof.
  apply (best_token_greedy 3 (logits_ex 2)); [cbn; lia|]. repeat constructor.
Defined.

Lemma llama_completion_bounded_witness :
  ∃ r, llama_chat_completion 0%nat tiny_backend tiny_model (lit "say hi") llama_response_zero = Some (3%nat, r, 0) ∧
       ll_text r = lit "hi " ∧ tokens_generated r = 3%nat ∧ (length (ll_text r) < OUTPUT_LEN - 1)%nat.
Proof.
  assert (llama_chat_completion 0%nat tiny_backend tiny_model (lit "say hi") llama_response_zero =
          Some (3%nat, mk_llama_response (lit "hi ") 3 true, 0)) as E by by_eval.
  exists (mk_llama_response (lit "hi ") 3 true).
  destruct (llama_completion_bounded 0%nat tiny_backend tiny_model (lit "say hi") 512 llama_response_zero
              3%nat (mk_llama_response (lit "hi ") 3 true) 0) as (H1 & _); [by_eval|done|exact E|].
  split_and!; [exact E|done|done|exact H1].
Defined.
