(* ===== verification/Providers.v ===== *)
(** * The chat context and the provider selection of [src/providers/providers.c]

    The chat context with its growing message array, the text of a request
    and the search for values in a reply, the router and the retry wrapper.
    The HTTP calls themselves are the argument [chat] of the functions that
    make them. *)
From S2P Require Import Prelude Floats.

Definition ROLE_LEN : nat := 16.
Definition CONTENT_LEN : nat := Z.to_nat 8192.
Definition MAX_PROVIDERS : nat := 16.

Inductive provider_type_t :=
  | PROVIDER_OPENROUTER | PROVIDER_ANTHROPIC | PROVIDER_OPENAI | PROVIDER_OPENAI_CODEX
  | PROVIDER_OLLAMA | PROVIDER_GEMINI | PROVIDER_GLM | PROVIDER_COPILOT | PROVIDER_LLAMA
  | PROVIDER_CUSTOM | PROVIDER_UNKNOWN.

#[global] Instance provider_type_eq : EqDecision provider_type_t.
Proof. solve_decision. Defined.

Inductive routing_strategy_t :=
  | ROUTING_STRATEGY_ROUND_ROBIN | ROUTING_STRATEGY_FAILOVER
  | ROUTING_STRATEGY_LOAD_BALANCE | ROUTING_STRATEGY_COST_OPTIMIZED.

Definition provider_get_type (name : cstr) : provider_type_t :=
  if streq name (lit "openrouter") then PROVIDER_OPENROUTER
  else if streq name (lit "anthropic") then PROVIDER_ANTHROPIC
  else if streq name (lit "openai") then PROVIDER_OPENAI
  else if streq name (lit "openai-codex") then PROVIDER_OPENAI_CODEX
  else if streq name (lit "ollama") then PROVIDER_OLLAMA
  else if streq name (lit "gemini") then PROVIDER_GEMINI
  else if streq name (lit "glm") then PROVIDER_GLM
  else if streq name (lit "copilot") then PROVIDER_COPILOT
  else if streq name (lit "llama") then PROVIDER_LLAMA
  else if strneq 7 name (lit "custom:") then PROVIDER_CUSTOM
  else PROVIDER_UNKNOWN.

Definition provider_get_name (type : provider_type_t) : cstr :=
  match type with
  | PROVIDER_OPENROUTER => lit "openrouter"
  | PROVIDER_ANTHROPIC => lit "anthropic"
  | PROVIDER_OPENAI => lit "openai"
  | PROVIDER_OPENAI_CODEX => lit "openai-codex"
  | PROVIDER_OLLAMA => lit "ollama"
  | PROVIDER_GEMINI => lit "gemini"
  | PROVIDER_GLM => lit "glm"
  | PROVIDER_COPILOT => lit "copilot"
  | PROVIDER_LLAMA => lit "llama"
  | PROVIDER_CUSTOM => lit "custom"
  | PROVIDER_UNKNOWN => lit "unknown"
  end.

(** ** The chat context *)

Record message_t := mk_message { role : cstr; content : cstr }.

(** [messages] holds the live messages ([None] when the pointer is NULL), so
    [message_count] is its length; [allocated] is the number of messages the
    allocation behind the pointer has room for.  [tools] is left out: no
    operation reads it. *)
Record chat_context_t := mk_context {
  messages : option (list message_t);
  allocated : nat;
  message_capacity : nat;
  temperature : f64;
  max_tokens : Z;
  stream : bool;
}.

Definition message_count (c : chat_context_t) : nat := length (default [] (messages c)).

Definition chat_context_init : chat_context_t := mk_context (Some []) 32 32 (f64_const 7 10) 4096 false.

Definition fmt_message (r c : cstr) : message_t :=
  mk_message (snprintf_s ROLE_LEN r) (snprintf_s CONTENT_LEN c).

Definition with_messages (c : chat_context_t) (l : list message_t) : chat_context_t :=
  mk_context (Some l) (allocated c) (message_capacity c) (temperature c) (max_tokens c) (stream c).

(** [None]: a message is written outside the allocation. *)
Definition chat_context_add_message (c : chat_context_t) (r text : option cstr) : option chat_context_t :=
  match messages c, r, text with
  | Some l, Some r, Some text =>
      let c :=
        if (message_capacity c <=? length l)%nat then
          let cap := (message_capacity c * 2)%nat in
          mk_context (Some l) cap cap (temperature c) (max_tokens c) (stream c)
        else c in
      if (length l <? allocated c)%nat then Some (with_messages c (l ++ [fmt_message r text])) else None
  | _, _, _ => Some c
  end.

Definition chat_context_add_system_message (c : chat_context_t) (text : option cstr) : option chat_context_t :=
  match text with
  | None => Some c
  | Some text =>
      match messages c with
      | None => None
      | Some l =>
          match l with
          | m :: l' =>
              if streq (role m) (lit "system")
              then Some (with_messages c (mk_message (role m) (snprintf_s CONTENT_LEN text) :: l'))
              else if (length l <? allocated c)%nat
              then Some (with_messages c (fmt_message (lit "system") text :: l)) else None
          | [] =>
              if (0 <? allocated c)%nat
              then Some (with_messages c [fmt_message (lit "system") text]) else None
          end
      end
  end.

Definition chat_context_clear_messages (c : chat_context_t) : chat_context_t :=
  match messages c with Some _ => with_messages c [] | None => c end.

Definition chat_context_free (c : chat_context_t) : chat_context_t :=
  mk_context None 0 0 (temperature c) (max_tokens c) (stream c).

(** ** Answers *)

Definition RESPONSE_LEN : nat := Z.to_nat 16384.
Definition MAX_TOOL_CALLS : nat := 16.
Definition TOOL_NAME_LEN : nat := 128.
Definition TOOL_ARGS_LEN : nat := Z.to_nat 4096.

(** [tool_calls] is the array of names and arguments with its [call_count].
    The texts stand in zeroed arrays: behind the NUL there are zero bytes. *)
Record chat_response_t := mk_chat_response {
  resp_content : cstr;
  tokens_used : Z;
  prompt_tokens : Z;
  completion_tokens : Z;
  resp_done : bool;
  tool_calls : list (cstr * cstr);
  call_count : nat;
  reasoning : cstr;
}.

Definition chat_response_zero : chat_response_t :=
  mk_chat_response [] 0 0 0 false (replicate MAX_TOOL_CALLS ([], [])) 0 [].

(** ** Requests *)

(** A writer over a buffer: the bytes before [p] and [remaining]. *)
Record writer := mk_writer { w_text : cstr; w_remaining : Z }.

(** [written = snprintf(p, remaining, s); p += written; remaining -= written];
    [None]: [p] leaves the buffer and [remaining] wraps around. *)
Definition put (w : writer) (s : cstr) : option writer :=
  if Z.of_nat (length s) <=? w_remaining w
  then Some (mk_writer (w_text w ++ s) (w_remaining w - Z.of_nat (length s))) else None.

Definition escape_char (b : Z) : cstr :=
  if b =? 34 then [92; 34] else if b =? 92 then [92; 92] else if b =? 10 then [92; 110] else [b].

Fixpoint put_content (w : writer) (s : cstr) : writer :=
  match s with
  | [] => w
  | b :: s' =>
      if 2 <? w_remaining w then
        let e := escape_char b in
        put_content (mk_writer (w_text w ++ e) (w_remaining w - Z.of_nat (length e))) s'
      else w
  end.

Definition role_open (r : cstr) : cstr :=
  [123; 34] ++ lit "role" ++ [34; 58; 34] ++ r ++ [34; 44; 34] ++ lit "content" ++ [34; 58; 34].
Definition content_close : cstr := [34; 125].

Fixpoint put_messages (first : bool) (w : writer) (l : list message_t) : option writer :=
  match l with
  | [] => Some w
  | m :: l' =>
      if 0 <? w_remaining w then
        w ← (if first then Some w else put w [44]);
        w ← put w (role_open (role m));
        w ← put (put_content w (content m)) content_close;
        put_messages false w l'
      else Some w
  end.

(** The text in the buffer afterwards; with no message it stays as it was. *)
Definition build_messages_json (c : chat_context_t) (before : cstr) (out_len : nat) : option cstr :=
  match default [] (messages c) with
  | [] => Some before
  | l => w ← put_messages true (mk_writer [] (Z.of_nat out_len)) l; Some (snprintf_s out_len (w_text w))
  end.

(** ** Replies *)

(** The bracketed text from its first byte to the bracket that closes it. *)
Fixpoint bracketed (depth : Z) (s : cstr) : cstr :=
  match s with
  | [] => []
  | b :: s' =>
      let depth := if (b =? 123) || (b =? 91) then depth + 1
                   else if (b =? 125) || (b =? 93) then depth - 1 else depth in
      if depth =? 0 then [b] else b :: bracketed depth s'
  end.

Definition find_json_value (json key : cstr) (out_len : nat) : option cstr :=
  i ← strstr json (snprintf_s 256 ([34] ++ key ++ [34]));
  j ← strchr (drop i json) 58;
  let found := skip_while isspace (drop (S j) (drop i json)) in
  match found with
  | 34 :: s => k ← strchr s 34; Some (take (out_len - 1) (take k s))
  | b :: _ =>
      if (b =? 123) || (b =? 91) then Some (take (out_len - 1) (bracketed 0 found))
      else Some (take (out_len - 1)
                   (take_while (λ x, negb (isspace x) && negb (x =? 44) && negb (x =? 125)) found))
  | [] => Some []
  end.

(** ** The router *)

Record provider_router_t := mk_router {
  r_providers : list provider_type_t;
  provider_count : nat;
  strategy : routing_strategy_t;
  current_index : nat;
  retry_count : Z;
  timeout_ms : Z;
}.

(** All bytes zero. *)
Definition router_zero : provider_router_t :=
  mk_router (replicate MAX_PROVIDERS PROVIDER_OPENROUTER) 0 ROUTING_STRATEGY_ROUND_ROBIN 0 0 0.

Definition provider_router_init (router : provider_router_t) (providers : list provider_type_t)
    (s : routing_strategy_t) : provider_router_t * Z :=
  let count := length providers in
  if (count =? 0)%nat || (MAX_PROVIDERS <? count)%nat then (router, -1)
  else (mk_router (providers ++ replicate (MAX_PROVIDERS - count) PROVIDER_OPENROUTER) count s 0 3 30000, 0).

(** [rand] is the value of the call of [rand()]; [None] is a division by
    zero or an index outside the array. *)
Definition provider_router_next (rand : nat) (router : provider_router_t)
    : option (provider_router_t * provider_type_t) :=
  let n := provider_count router in
  let pick i := r_providers router !! i in
  match strategy router with
  | ROUTING_STRATEGY_ROUND_ROBIN =>
      t ← pick (current_index router);
      if (n =? 0)%nat then None
      else Some (mk_router (r_providers router) n (strategy router) ((current_index router + 1) mod n)%nat
                   (retry_count router) (timeout_ms router), t)
  | ROUTING_STRATEGY_FAILOVER => t ← pick O; Some (router, t)
  | ROUTING_STRATEGY_LOAD_BALANCE =>
      if (n =? 0)%nat then None else t ← pick (rand mod n)%nat; Some (router, t)
  | ROUTING_STRATEGY_COST_OPTIMIZED =>
      if (n =? 0)%nat then None else t ← pick (n - 1)%nat; Some (router, t)
  end.

Definition provider_router_select (rand : nat) (router : provider_router_t) (model : cstr)
    : option (provider_router_t * provider_type_t) :=
  if contains model (lit "gpt-4") || contains model (lit "claude-3-opus") then Some (router, PROVIDER_OPENAI)
  else if contains model (lit "claude") then Some (router, PROVIDER_ANTHROPIC)
  else if contains model (lit "gemini") then Some (router, PROVIDER_GEMINI)
  else provider_router_next rand router.

Definition provider_router_free (router : provider_router_t) : provider_router_t := router_zero.

(** [k] successive calls. *)
Fixpoint route (rand : nat → nat) (router : provider_router_t) (k : nat) : option (list provider_type_t) :=
  match k with
  | O => Some []
  | S k' =>
      '(router', t) ← provider_router_next (rand k) router;
      ts ← route rand router' k'; Some (t :: ts)
  end.

(** ** Retries *)

Record reliable_config_t := mk_reliable {
  primary : provider_type_t;
  fallback : provider_type_t;
  max_retries : Z;
  retry_delay_ms : Z;
  auto_failover_enabled : bool;
}.

Definition provider_reliable_init (p f : provider_type_t) : reliable_config_t :=
  mk_reliable p f 3 1000 true.

(** [chat i t] is the outcome of the [i]-th call, to provider [t]: its code
    and the content of the response.  The loop gives the code, the content and
    the providers it called; it ends because each round but the last raises
    [attempts], which [max_retries] bounds: [left] is what remains of it. *)
Section reliable.
Variable chat : nat → provider_type_t → Z * cstr.

Fixpoint reliable_loop (c : reliable_config_t) (attempts left : nat) : Z * cstr * list provider_type_t :=
  let type := if (attempts =? 0)%nat then primary c else fallback c in
  let '(last_error, text) := chat attempts type in
  let give_up_text :=
    snprintf_s RESPONSE_LEN (lit "Error: All providers failed after " ++ fmt_dec (Z.of_nat attempts + 1)
                             ++ lit " attempts") in
  if (last_error =? 0) && negb (streq text []) then (0, text, [type])
  else
    match left with
    | O => (last_error, give_up_text, [type])
    | S left' =>
        if negb (auto_failover_enabled c) then (last_error, give_up_text, [type])
        else let '(e, t, l) := reliable_loop c (S attempts) left' in (e, t, type :: l)
    end.

Definition provider_reliable_call (c : reliable_config_t) : Z * cstr * list provider_type_t :=
  if 0 <? max_retries c + 1 then reliable_loop c 0 (Z.to_nat (max_retries c))
  else (-1, snprintf_s RESPONSE_LEN (lit "Error: All providers failed after " ++ fmt_dec 1 ++ lit " attempts"), []).
End reliable.

Definition provider_reliable_free : reliable_config_t :=
  mk_reliable PROVIDER_OPENROUTER PROVIDER_OPENROUTER 0 0 false.

(** ** Adding messages *)

(** Messages within the sizes of their fields, and a capacity the allocation
    really has. *)
Definition wf_message (m : message_t) : Prop :=
  (length (role m) < ROLE_LEN)%nat ∧ (length (content m) < CONTENT_LEN)%nat.

Record chat_inv (c : chat_context_t) : Prop := {
  inv_alloc : (message_capacity c ≤ allocated c)%nat;
  inv_count : (message_count c ≤ message_capacity c)%nat;
  inv_room : messages c ≠ None → (0 < message_capacity c)%nat;
  inv_msgs : Forall wf_message (default [] (messages c));
}.

Lemma fmt_message_wf r t : wf_message (fmt_message r t).
Proof. split; apply snprintf_s_length; unfold ROLE_LEN, CONTENT_LEN; lia. Qed.
#[export] Hint Resolve fmt_message_wf : claw.

Lemma chat_init_inv : chat_inv chat_context_init.
Proof. split; cbn; [lia..|constructor]. Qed.

Lemma add_message_ok c l r t :
  chat_inv c → messages c = Some l →
  ∃ c', chat_context_add_message c (Some r) (Some t) = Some c' ∧ chat_inv c' ∧
        messages c' = Some (l ++ [fmt_message r t]).
Proof.
  intros [Ha Hc Hr Hm] Hl. unfold chat_context_add_message, message_count in *. rewrite Hl in *.
  cbn [default from_option id] in *. specialize (Hr ltac:(done)).
  destruct (message_capacity c <=? length l)%nat eqn:E; bsplit; cbn [allocated];
    rewrite (proj2 (Nat.ltb_lt _ _)) by (cbn; lia); eexists; (split; [done|]); (split; [|done]);
    split; cbn [message_capacity allocated messages with_messages message_count default];
    unfold message_count; cbn; rewrite ?length_app; cbn [length]; try lia;
    (apply Forall_app; auto using fmt_message_wf).
Qed.

Lemma clear_inv c : chat_inv c → chat_inv (chat_context_clear_messages c).
Proof.
  intros H. unfold chat_context_clear_messages. destruct (messages c) eqn:E; [|done].
  destruct H as [Ha Hc Hr Hm]. split; cbn; [done|lia|intros _; apply Hr; congruence|constructor].
Qed.

Lemma free_inv c : chat_inv c → chat_inv (chat_context_free c).
Proof. split; cbn; [lia|lia|done|constructor]. Qed.

(** Setting the system prompt replaces the content of a leading system
    message, and otherwise moves all messages up and puts the prompt in front
    of them; unlike [chat_context_add_message] it never grows the array, so
    it writes past the allocation exactly when the array is full and does not
    start with a system message. *)
Theorem add_system_message_spec c l text :
  chat_inv c → messages c = Some l →
  let system_first := match l with m :: _ => streq (role m) (lit "system") | [] => false end in
  (chat_context_add_system_message c (Some text) = None ↔
     length l = allocated c ∧ system_first = false) ∧
  (∀ c', chat_context_add_system_message c (Some text) = Some c' →
     messages c' = Some (fmt_message (lit "system") text :: (if system_first then tail l else l))).
Proof.
  intros [Ha Hc Hr _] Hl. unfold chat_context_add_system_message, message_count in *. rewrite Hl in *.
  cbn [default from_option id] in *. specialize (Hr ltac:(done)). destruct l as [|m l]; cbn zeta iota.
  - rewrite (proj2 (Nat.ltb_lt _ _)) by lia. cbn [length]. split; [|by intros c' [= <-]].
    split; [done | intros [? _]; lia].
  - destruct (streq (role m) (lit "system")) eqn:E.
    + split; [split; [done | by intros []]|]. intros c' [= <-]. cbn [messages with_messages tail].
      apply streq_true in E. rewrite E. done.
    + destruct (length (m :: l) <? allocated c)%nat eqn:El; bsplit.
      * split; [split; [done | intros [? _]; cbn [length] in *; lia] | by intros c' [= <-]].
      * split; [|done]. split; [intros _ | done]. split; [lia | done].
Qed.

Fixpoint add_all (c : chat_context_t) (l : list (cstr * cstr)) : option chat_context_t :=
  match l with
  | [] => Some c
  | (r, t) :: l' => c ← chat_context_add_message c (Some r) (Some t); add_all c l'
  end.

Lemma add_system_message_spec_witness :
  ∃ c l, add_all chat_context_init (replicate 32 (lit "user", lit "hi")) = Some c ∧ messages c = Some l ∧
  (chat_context_add_system_message c (Some (lit "prompt")) = None ↔
     length l = allocated c ∧
     match l with m :: _ => streq (role m) (lit "system") | [] => false end = false).
Proof.
  eexists _, _. split; [vm_compute; reflexivity|]. split; [reflexivity|].
  eapply add_system_message_spec; [|reflexivity].
  split; vm_compute; [lia..|lia|]. repeat (constructor; [split; lia|]). constructor.
Defined.

(** ** The text of a request *)

Definition escape (s : cstr) : cstr := flat_map escape_char s.
Definition message_json (m : message_t) : cstr := role_open (role m) ++ escape (content m) ++ content_close.

(** The objects of the messages, separated by commas. *)
Fixpoint json_tail (l : list message_t) : cstr :=
  match l with
  | [] => []
  | m :: l' => [44] ++ message_json m ++ json_tail l'
  end.
Definition messages_json (l : list message_t) : cstr :=
  match l with [] => [] | m :: l' => message_json m ++ json_tail l' end.

Lemma put_fits w s :
  Z.of_nat (length s) <= w_remaining w →
  put w s = Some (mk_writer (w_text w ++ s) (w_remaining w - Z.of_nat (length s))).
Proof. intros H. unfold put. by rewrite (proj2 (Z.leb_le _ _)). Qed.

Lemma escape_char_length b : (1 ≤ length (escape_char b))%nat.
Proof. unfold escape_char. repeat case_if; cbn [length]; lia. Qed.

Lemma put_content_fits s : ∀ w,
  Z.of_nat (length (escape s)) + 2 <= w_remaining w →
  put_content w s = mk_writer (w_text w ++ escape s) (w_remaining w - Z.of_nat (length (escape s))).
Proof.
  induction s as [|b s IH]; intros w H.
  - cbn. rewrite app_nil_r, Z.sub_0_r. by destruct w.
  - cbn [put_content escape flat_map] in *. change (flat_map escape_char s) with (escape s) in *.
    pose proof (escape_char_length b). rewrite length_app in *.
    rewrite (proj2 (Z.ltb_lt _ _)) by lia. rewrite IH by (cbn; lia). cbn [w_text w_remaining].
    rewrite <- app_assoc. f_equal. lia.
Qed.

Lemma put_message_fits w m {B} (k : writer → option B) :
  Z.of_nat (length (message_json m)) <= w_remaining w →
  (w ← put w (role_open (role m)); w ← put (put_content w (content m)) content_close; k w) =
  k (mk_writer (w_text w ++ message_json m) (w_remaining w - Z.of_nat (length (message_json m)))).
Proof.
  unfold message_json. rewrite !length_app. intros H.
  change (length content_close) with 2%nat in *.
  rewrite put_fits by lia. cbn [mbind option_bind]. rewrite put_content_fits by (cbn [w_remaining]; lia).
  rewrite put_fits by (cbn [w_remaining]; change (length content_close) with 2%nat; lia).
  cbn [mbind option_bind w_text w_remaining]. change (length content_close) with 2%nat.
  rewrite <- !app_assoc. do 2 f_equal. lia.
Qed.

Lemma put_messages_fit l : ∀ w,
  Z.of_nat (length (json_tail l)) < w_remaining w →
  put_messages false w l = Some (mk_writer (w_text w ++ json_tail l) (w_remaining w - Z.of_nat (length (json_tail l)))).
Proof.
  induction l as [|m l IH]; intros w H.
  - cbn. rewrite app_nil_r, Z.sub_0_r. by destruct w.
  - cbn [put_messages json_tail] in *. rewrite !length_app in *. change (length [44]) with 1%nat in *.
    rewrite (proj2 (Z.ltb_lt _ _)) by lia. rewrite put_fits by (cbn [length]; lia).
    cbn [mbind option_bind]. etransitivity; [apply put_message_fits; cbn [w_remaining length]; lia|].
    cbn [w_text w_remaining]. rewrite IH by (cbn [w_remaining length]; lia).
    cbn [w_text w_remaining]. rewrite <- !app_assoc. do 2 f_equal. cbn [length]. lia.
Qed.

(** When the escaped messages fit the buffer, the text in it is theirs. *)
Lemma build_messages_json_exact c l before out_len :
  messages c = Some l → l ≠ [] → (length (messages_json l) < out_len)%nat →
  build_messages_json c before out_len = Some (messages_json l).
Proof.
  intros Hl Hne Hlen. unfold build_messages_json. rewrite Hl. cbn [default from_option id].
  destruct l as [|m l]; [done|]. cbn [put_messages messages_json w_remaining] in *.
  rewrite length_app in Hlen. rewrite (proj2 (Z.ltb_lt _ _)) by lia. cbn [mbind option_bind].
  rewrite (put_message_fits (mk_writer [] (Z.of_nat out_len)) m) by (cbn [w_remaining]; lia).
  cbn [w_text w_remaining app]. rewrite put_messages_fit by (cbn [w_remaining]; lia).
  cbn [mbind option_bind w_text]. rewrite snprintf_s_id; [done|]. rewrite length_app. lia.
Qed.

(** ** What a reader of JSON finds in it

    A reader of its own, after RFC 8259: it knows the escapes of a JSON string
    and refuses a control character inside one. *)

(** A byte that a JSON string holds as it stands. *)
Definition json_plain (b : Z) : bool := (32 <=? b) && negb (b =? 34) && negb (b =? 92).

(** The byte that a backslash and a letter stand for. *)
Definition json_escape (e : Z) : option Z :=
  if e =? 34 then Some 34 else if e =? 92 then Some 92 else if e =? 47 then Some 47
  else if e =? 98 then Some 8 else if e =? 102 then Some 12 else if e =? 110 then Some 10
  else if e =? 114 then Some 13 else if e =? 116 then Some 9 else None.

(** A string, from the byte behind its opening quote: its value and the rest. *)
Fixpoint json_string (s : cstr) : option (cstr * cstr) :=
  match s with
  | [] => None
  | b :: s' =>
      if b =? 34 then Some ([], s')
      else if b =? 92 then
        match s' with
        | [] => None
        | e :: s'' => x ← json_escape e; '(v, rest) ← json_string s''; Some (x :: v, rest)
        end
      else if json_plain b then '(v, rest) ← json_string s'; Some (b :: v, rest) else None
  end.

Definition json_skip (p s : cstr) : option cstr := if has_prefix p s then Some (drop (length p) s) else None.

(** An object with the members [role] and [content]. *)
Definition json_message (s : cstr) : option (cstr * cstr * cstr) :=
  s ← json_skip (jlit "{'role':'") s;
  '(r, s) ← json_string s;
  s ← json_skip (jlit ",'content':'") s;
  '(t, s) ← json_string s;
  s ← json_skip (lit "}") s;
  Some (r, t, s).

(** Objects separated by commas, at most [n] of them, and nothing behind. *)
Fixpoint json_messages (n : nat) (s : cstr) : option (list (cstr * cstr)) :=
  match n with
  | O => None
  | S n' =>
      '(r, t, rest) ← json_message s;
      match rest with
      | [] => Some [(r, t)]
      | _ => s ← json_skip (lit ",") rest; l ← json_messages n' s; Some ((r, t) :: l)
      end
  end.

(** The bytes a message needs: 24 around its two texts, a separator, and a
    second byte for each quote, backslash and line end of its content. *)
Definition json_special (b : Z) : bool := (b =? 34) || (b =? 92) || (b =? 10).
Definition json_size (m : message_t) : nat :=
  (25 + length (role m) + length (content m) + length (filter json_special (content m)))%nat.

(** A role of plain bytes, and a content without control characters other
    than line ends. *)
Definition json_able (m : message_t) : Prop :=
  Forall json_plain (role m) ∧ Forall (λ b, 32 <= b ∨ b = 10) (content m).

Lemma json_skip_app p s : json_skip p (p ++ s) = Some s.
Proof.
  unfold json_skip. assert (has_prefix p (p ++ s) = true) as -> by (apply has_prefix_spec; by exists s).
  by rewrite drop_app_length.
Qed.

Lemma json_string_plain r s : Forall json_plain r → json_string (r ++ 34 :: s) = Some (r, s).
Proof.
  induction 1 as [|b r Hb _ IH]; [done|]. cbn [app json_string]. rewrite IH. cbn [mbind option_bind].
  apply Is_true_true in Hb. rewrite Hb. unfold json_plain in Hb.
  destruct (b =? 34), (b =? 92); rewrite ?andb_false_r in Hb; done.
Qed.

Lemma json_string_escaped t s :
  Forall (λ b, 32 <= b ∨ b = 10) t → json_string (escape t ++ 34 :: s) = Some (t, s).
Proof.
  induction 1 as [|b t Hb _ IH]; [done|]. change (escape (b :: t)) with (escape_char b ++ escape t).
  unfold escape_char. rewrite <- app_assoc.
  destruct (b =? 34) eqn:E1; [apply Z.eqb_eq in E1 as ->; cbn [app json_string]; by rewrite IH|].
  destruct (b =? 92) eqn:E2; [apply Z.eqb_eq in E2 as ->; cbn [app json_string]; by rewrite IH|].
  destruct (b =? 10) eqn:E3; [apply Z.eqb_eq in E3 as ->; cbn [app json_string]; by rewrite IH|].
  cbn [app json_string]. rewrite E1, E2, IH. unfold json_plain. rewrite E1, E2.
  destruct Hb as [Hb| ->]; [|done]. by rewrite (proj2 (Z.leb_le _ _) Hb).
Qed.

Lemma json_message_reads m s :
  json_able m → json_message (message_json m ++ s) = Some (role m, content m, s).
Proof.
  intros [Hr Ht]. unfold json_message, message_json, role_open, content_close. rewrite <- !app_assoc.
  change ([123; 34] ++ lit "role" ++ [34; 58; 34] ++ ?x) with (jlit "{'role':'" ++ x).
  rewrite json_skip_app. cbn [mbind option_bind].
  change ([34; 44; 34] ++ ?x) with (34 :: [44; 34] ++ x). rewrite json_string_plain by done. cbn [mbind option_bind].
  change ([44; 34] ++ lit "content" ++ [34; 58; 34] ++ ?x) with (jlit ",'content':'" ++ x).
  rewrite json_skip_app. cbn [mbind option_bind].
  change ([34; 125] ++ s) with (34 :: lit "}" ++ s). rewrite json_string_escaped by done. cbn [mbind option_bind].
  by rewrite json_skip_app.
Qed.

Lemma json_messages_read n m l :
  Forall json_able (m :: l) → (length l < n)%nat →
  json_messages n (message_json m ++ json_tail l) = Some (map (λ m, (role m, content m)) (m :: l)).
Proof.
  revert n m. induction l as [|m' l IH]; intros [|n] m [Hm Hl]%Forall_cons Hn; cbn [length] in Hn; try lia;
    cbn [json_messages json_tail]; rewrite json_message_reads by done; cbn [mbind option_bind]; [done|].
  change ([44] ++ ?x) with (lit "," ++ x). cbn [app].
  change (44 :: ?x) with (lit "," ++ x). rewrite json_skip_app. cbn [mbind option_bind].
  by rewrite IH by (done || lia).
Qed.

Lemma escape_length t : length (escape t) = (length t + length (filter json_special t))%nat.
Proof.
  induction t as [|b t IH]; [done|]. change (escape (b :: t)) with (escape_char b ++ escape t).
  rewrite length_app, IH, filter_cons. unfold escape_char, json_special.
  destruct (b =? 34), (b =? 92), (b =? 10); cbn [orb]; case_decide; try done; cbn [length]; lia.
Qed.

Lemma message_json_length m : S (length (message_json m)) = json_size m.
Proof.
  unfold message_json, role_open, json_size. rewrite !length_app, escape_length. cbn. lia.
Qed.

Lemma json_tail_length l : length (json_tail l) = sum_list (map json_size l).
Proof.
  induction l as [|m l IH]; [done|]. cbn [json_tail map sum_list]. rewrite <- message_json_length, !length_app, IH. cbn. lia.
Qed.

Lemma messages_json_length l : l ≠ [] → (length (messages_json l) < sum_list (map json_size l))%nat.
Proof.
  destruct l as [|m l]; [done|]. intros _.
  change (sum_list (map json_size (m :: l))) with (json_size m + sum_list (map json_size l))%nat.
  cbn [messages_json]. rewrite length_app, json_tail_length. pose proof (message_json_length m). lia.
Qed.

(** C33: A conversation whose bytes fit the buffer (25 for each message, its
    role, its content, and one more for each quote, backslash and line end of
    the content), with plain roles and no control character but line ends in
    the contents, is written as JSON: a reader of its own finds the same roles
    and the same contents, in the same order, and nothing else. *)
Theorem build_messages_json_reads_back c l before out_len :
  messages c = Some l → l ≠ [] → Forall json_able l → (sum_list (map json_size l) ≤ out_len)%nat →
  ∃ t, build_messages_json c before out_len = Some t ∧
    json_messages (length l) t = Some (map (λ m, (role m, content m)) l).
Proof.
  intros Hl Hne Hok Hlen. destruct l as [|m l]; [done|]. exists (messages_json (m :: l)). split.
  - apply (build_messages_json_exact _ (m :: l)); [done..|]. by eapply Nat.lt_le_trans; [apply messages_json_length|].
  - apply json_messages_read; [done|cbn; lia].
Qed.

Definition messages_ex : list message_t :=
  [fmt_message (lit "user") ([97; 34; 98; 92; 10] ++ lit "c"); fmt_message (lit "assistant") (lit "ok")].
Definition context_ex : chat_context_t := mk_context (Some messages_ex) 32 32 (f64_const 7 10) 4096 false.

Lemma build_messages_json_reads_back_witness :
  ∃ t, build_messages_json context_ex [] (Z.to_nat 8192) = Some t ∧
    json_messages 2 t = Some [(lit "user", [97; 34; 98; 92; 10] ++ lit "c"); (lit "assistant", lit "ok")].
Proof.
  apply (build_messages_json_reads_back context_ex messages_ex); [done|done| |vm_compute; lia].
  repeat constructor; vm_compute; done || (left; done) || (by right).
Defined.

(** A control character other than a line end is written as it stands: a
    content with a tab, as tools often give, is no JSON string. *)
Example tab_is_no_json :
  ∃ t, build_messages_json (mk_context (Some [fmt_message (lit "tool") [97; 9; 98]]) 32 32 (f64_const 7 10) 4096 false)
         [] (Z.to_nat 8192) = Some t ∧ json_messages 1 t = None.
Proof. eexists. split; vm_compute; reflexivity. Qed.

(** It leaves the buffer when they do not fit.  Two messages suffice: when
    the content of the first one ends one byte before the end of the buffer,
    the closing text moves the pointer past the end and the space left wraps
    around, so that the second one is written outside. *)
Theorem build_messages_json_overruns r k m before :
  (3 ≤ k)%nat → (length (role_open r) < k - 2)%nat →
  let n := (k - 3 - length (role_open r))%nat in
  build_messages_json
    (mk_context (Some [mk_message r (replicate n 97 ++ [34]); m]) 32 32 (f64_const 7 10) 4096 false) before k = None.
Proof.
  intros Hk Hr n. unfold build_messages_json. cbn [messages default from_option id put_messages].
  cbn [w_remaining role content]. rewrite (proj2 (Z.ltb_lt _ _)) by lia. cbn [mbind option_bind].
  rewrite put_fits by (cbn [w_remaining]; lia). cbn [mbind option_bind w_text w_remaining].
  assert (∀ j w, put_content w (replicate j 97 ++ [34]) =
    if bool_decide (w_remaining w = Z.of_nat j + 3) then mk_writer (w_text w ++ replicate j 97 ++ [92; 34]) 1
    else put_content w (replicate j 97 ++ [34])) as Hj.
  { induction j as [|j IH]; intros w.
    - case_bool_decide as Hw; [|done]. cbn. by rewrite Hw.
    - case_bool_decide as Hw; [|done]. cbn [replicate app put_content].
      rewrite (proj2 (Z.ltb_lt _ _)) by lia. change (escape_char 97) with [97]. rewrite IH.
      cbn [w_remaining w_text length]. rewrite bool_decide_true by lia. by rewrite <- app_assoc. }
  rewrite Hj. cbn [w_remaining]. rewrite bool_decide_true by lia. done.
Qed.

Lemma build_messages_json_overruns_witness :
  build_messages_json
    (mk_context (Some [mk_message (lit "user") (replicate 29 97 ++ [34]);
                       mk_message (lit "user") (lit "x")]) 32 32 (f64_const 7 10) 4096 false) [] 64 = None.
Proof.
  apply (build_messages_json_overruns (lit "user") 64 (mk_message (lit "user") (lit "x")) []);
    [lia | vm_compute; lia].
Defined.

(** ** Reading values *)

Definition ROLES : list cstr := [lit "system"; lit "user"; lit "assistant"; lit "tool"].

(** A content that needs no escape. *)
Definition plain (s : cstr) : Prop := Forall (λ b, b ≠ 34 ∧ b ≠ 92 ∧ b ≠ 10) s.

Lemma escape_plain s : plain s → escape s = s.
Proof.
  induction 1 as [|b s (H1 & H2 & H3) _ IH]; [done|]. cbn [escape flat_map]. change (flat_map escape_char s) with (escape s).
  rewrite IH. unfold escape_char. by rewrite !(proj2 (Z.eqb_neq _ _)).
Qed.

Lemma find_content r v rest n :
  r ∈ ROLES → Forall (λ b, b ≠ 34) v →
  find_json_value (role_open r ++ v ++ 34 :: rest) (lit "content") n = Some (take (n - 1) v).
Proof.
  intros Hr Hv. unfold find_json_value.
  assert (strstr (role_open r ++ v ++ 34 :: rest) (snprintf_s 256 ([34] ++ lit "content" ++ [34])) =
          Some (length r + 11)%nat ∧
          drop (length r + 11) (role_open r ++ v ++ 34 :: rest) =
          [34] ++ lit "content" ++ [34; 58; 34] ++ v ++ 34 :: rest) as [-> Hd].
  { apply list_elem_of_In in Hr. cbn [ROLES In] in Hr. by destruct Hr as [<-|[<-|[<-|[<-|[]]]]]. }
  cbn [mbind option_bind]. rewrite Hd.
  change (strchr ([34] ++ lit "content" ++ [34; 58; 34] ++ v ++ 34 :: rest) 58) with (Some 9%nat).
  cbn [mbind option_bind].
  change (skip_while isspace (drop 10 ([34] ++ lit "content" ++ [34; 58; 34] ++ v ++ 34 :: rest)))
    with (34 :: (v ++ 34 :: rest)).
  cbv iota beta. rewrite strchr_app by done. cbn [mbind option_bind]. by rewrite take_app_length.
Qed.

(** The reader of replies does not undo the escapes of the writer of
    requests.  A content without quotes, backslashes and line ends comes back;
    a content that has a quote comes back cut at its first quote, with a
    backslash in its place. *)
Theorem json_value_cut_at_quote r a b n :
  r ∈ ROLES → plain a →
  find_json_value (message_json (mk_message r a)) (lit "content") n = Some (take (n - 1) a) ∧
  find_json_value (message_json (mk_message r (a ++ 34 :: b))) (lit "content") n =
    Some (take (n - 1) (a ++ [92])).
Proof.
  intros Hr Ha. unfold message_json, content_close. cbn [role content].
  assert (Forall (λ x, x ≠ 34) a) as Hq by (eapply Forall_impl; [exact Ha|]; by intros x []).
  split.
  - rewrite escape_plain by done. by apply find_content.
  - unfold escape. rewrite flat_map_app. change (flat_map escape_char a) with (escape a).
    rewrite escape_plain by done. cbn [flat_map]. change (escape_char 34) with [92; 34].
    change ([92; 34] ++ flat_map escape_char b) with ([92] ++ 34 :: flat_map escape_char b).
    rewrite (app_assoc a [92]), <- (app_assoc (a ++ [92])). apply find_content; [done|].
    apply Forall_app. split; [done | by repeat constructor].
Qed.

Lemma json_value_cut_at_quote_witness :
  find_json_value (message_json (mk_message (lit "assistant") (lit "say " ++ 34 :: lit "hi"))) (lit "content") 100 =
    Some (take 99 (lit "say " ++ [92])).
Proof.
  apply (json_value_cut_at_quote (lit "assistant") (lit "say ") (lit "hi") 100);
    [apply (bool_decide_unpack _); by vm_compute | repeat constructor; done].
Defined.

(** ** Routing *)

(** The round robin is fair: from a fresh router over [ps] the [i]-th call
    returns the provider at position [i] modulo the number of providers. *)
Theorem round_robin_fair rand r0 ps k :
  (0 < length ps ≤ MAX_PROVIDERS)%nat →
  let r := (provider_router_init r0 ps ROUTING_STRATEGY_ROUND_ROBIN).1 in
  ∃ ts, route rand r k = Some ts ∧ length ts = k ∧
        ∀ i, (i < k)%nat → ts !! i = ps !! (i mod length ps)%nat.
Proof.
  intros Hn r.
  assert (∀ k i, (i < length ps)%nat →
    ∃ ts, route rand (mk_router (r_providers r) (length ps) ROUTING_STRATEGY_ROUND_ROBIN i 3 30000) k = Some ts ∧
      length ts = k ∧ ∀ j, (j < k)%nat → ts !! j = ps !! ((i + j) mod length ps)%nat) as H.
  { clear k. induction k as [|k IH]; intros i Hi; [exists []; split_and!; [done..|lia]|].
    destruct (lookup_lt_is_Some_2 ps i Hi) as [t Ht].
    assert (r_providers r !! i = Some t) as Hr.
    { subst r. unfold provider_router_init.
      rewrite (proj2 (Nat.eqb_neq _ _)), (proj2 (Nat.ltb_ge _ _)) by lia. cbn [orb fst r_providers].
      by apply lookup_app_l_Some. }
    cbn [route]. unfold provider_router_next. cbn [strategy r_providers current_index provider_count retry_count timeout_ms].
    rewrite Hr. cbn [mbind option_bind]. rewrite (proj2 (Nat.eqb_neq _ _)) by lia. cbn [mbind option_bind].
    destruct (IH ((i + 1) mod length ps)%nat) as (ts & -> & Hl & Hts); [apply Nat.mod_upper_bound; lia|].
    cbn [mbind option_bind]. eexists. split; [done|]. split; [cbn [length]; lia|].
    intros [|j] Hj; cbn [lookup list_lookup].
    - by rewrite Nat.add_0_r, Nat.mod_small, Ht.
    - rewrite Hts by lia. rewrite Nat.Div0.add_mod_idemp_l. do 2 f_equal. lia. }
  subst r. unfold provider_router_init in *.
  rewrite (proj2 (Nat.eqb_neq _ _)), (proj2 (Nat.ltb_ge _ _)) in * by lia. cbn [orb fst r_providers] in *.
  destruct (H k O) as (ts & Hts & Hl & Hj); [lia|]. exists ts. split_and!; [done..|]. exact Hj.
Qed.

Lemma round_robin_fair_witness :
  ∃ ts, route (λ _, O) (provider_router_init router_zero [PROVIDER_OPENAI; PROVIDER_GLM; PROVIDER_LLAMA]
          ROUTING_STRATEGY_ROUND_ROBIN).1 7 = Some ts ∧ length ts = 7%nat ∧
        ∀ i, (i < 7)%nat → ts !! i = [PROVIDER_OPENAI; PROVIDER_GLM; PROVIDER_LLAMA] !! (i mod 3)%nat.
Proof. apply (round_robin_fair (λ _, O) router_zero [PROVIDER_OPENAI; PROVIDER_GLM; PROVIDER_LLAMA] 7). vm_compute; lia. Defined.

(** ** Retrying *)

(** An attempt that counts: code 0 and a content that is not empty. *)
Definition answered (o : Z * cstr) : bool := (o.1 =? 0) && negb (streq o.2 []).

Definition attempt (chat : nat → provider_type_t → Z * cstr) (c : reliable_config_t) (i : nat) : Z * cstr :=
  chat i (if (i =? 0)%nat then primary c else fallback c).

Lemma reliable_loop_spec chat c left : ∀ attempts,
  auto_failover_enabled c = true →
  let '(e, t, l) := reliable_loop chat c attempts left in
  (∃ i, (attempts ≤ i ≤ attempts + left)%nat ∧ answered (attempt chat c i) = true ∧
        (∀ j, (attempts ≤ j < i)%nat → answered (attempt chat c j) = false) ∧
        e = 0 ∧ t = (attempt chat c i).2 ∧ length l = S (i - attempts)) ∨
  ((∀ j, (attempts ≤ j ≤ attempts + left)%nat → answered (attempt chat c j) = false) ∧
   e = (attempt chat c (attempts + left)).1 ∧
   t = snprintf_s RESPONSE_LEN (lit "Error: All providers failed after "
         ++ fmt_dec (Z.of_nat (attempts + left) + 1) ++ lit " attempts") ∧
   length l = S left).
Proof.
  induction left as [|left IH]; intros n Hf; cbn [reliable_loop];
    destruct (chat n (if (n =? 0)%nat then primary c else fallback c)) as [e t] eqn:E;
    assert (attempt chat c n = (e, t)) as Ha by done.
  - destruct ((e =? 0) && negb (streq t [])) eqn:Eo.
    + left. exists n. rewrite Ha. unfold answered. cbn [fst snd]. split_and!; [lia..|done| |done|done|].
      * intros j Hj. lia.
      * cbn [length]. lia.
    + right. rewrite !Nat.add_0_r, Ha. split_and!; [|done..]. intros j Hj.
      replace j with n by lia. by rewrite Ha.
  - destruct ((e =? 0) && negb (streq t [])) eqn:Eo.
    + left. exists n. rewrite Ha. unfold answered. cbn [fst snd]. split_and!; [lia..|done| |done|done|].
      * intros j Hj. lia.
      * cbn [length]. lia.
    + rewrite Hf. cbn [negb]. specialize (IH (S n) Hf).
      destruct (reliable_loop chat c (S n) left) as [[e' t'] l].
      destruct IH as [(i & Hi & Hok & Hno & -> & -> & Hl)|(Hno & -> & -> & Hl)].
      * left. exists i. split_and!; [lia..|done| |done|done|cbn [length]; lia].
        intros j Hj. destruct (decide (j = n)) as [->|]; [by rewrite Ha | apply Hno; lia].
      * right. rewrite <- Nat.add_succ_comm. split_and!; [|done..|cbn [length]; lia].
        intros j Hj. destruct (decide (j = n)) as [->|]; [by rewrite Ha | apply Hno; lia].
Qed.

(** With failover a reliable call makes at most [max_retries + 1] attempts
    (the first to the primary provider, the others to the fallback), returns
    the content of the first one that answers, and reports that all failed
    only when none of them answered; its code is then that of the last
    attempt, which is 0 when that attempt gave an empty content. *)
Theorem reliable_call_first_answer chat p f :
  let c := provider_reliable_init p f in
  let '(e, t, l) := provider_reliable_call chat c in
  (∃ i, (i ≤ 3)%nat ∧ answered (attempt chat c i) = true ∧
        (∀ j, (j < i)%nat → answered (attempt chat c j) = false) ∧
        e = 0 ∧ t = (attempt chat c i).2 ∧ length l = S i) ∨
  ((∀ j, (j ≤ 3)%nat → answered (attempt chat c j) = false) ∧ e = (attempt chat c 3).1 ∧
   t = lit "Error: All providers failed after 4 attempts" ∧ length l = 4%nat).
Proof.
  intros c. pose proof (reliable_loop_spec chat c 3 0 eq_refl) as H.
  unfold provider_reliable_call. change (0 <? max_retries c + 1) with true. cbv iota.
  change (Z.to_nat (max_retries c)) with 3%nat. destruct (reliable_loop chat c 0 3) as [[e t] l].
  destruct H as [(i & Hi & Hok & Hno & -> & -> & Hl)|(Hno & -> & -> & Hl)].
  - left. exists i. split_and!; [lia|done| |done|done|lia]. intros j Hj. apply Hno. lia.
  - right. split_and!; [|done| by vm_compute |done]. intros j Hj. apply Hno. lia.
Qed.
