(* ===== verification/ProviderCalls.v ===== *)
(** * Calls of the model providers in [src/providers/providers.c]

    The request each provider gets, how its reply is read, the tool calls
    found in a reply, and the dispatch on the provider with the choice of the
    key.  Each operation gives [None] where the C code reads or writes outside
    an array or reads memory nothing has written. *)
From S2P Require Import Prelude Floats Http Llama Providers.

Definition MESSAGES_LEN : nat := Z.to_nat 8192.
Definition BODY_LEN : nat := Z.to_nat 16384.
Definition TOOLS_BODY_LEN : nat := Z.to_nat 32768.
Definition HEADER_LEN : nat := 512.
Definition FOUND_LEN : nat := Z.to_nat 8192.
Definition CALL_LEN : nat := Z.to_nat 4096.

(** ** Reading replies *)

(** The loop over the text behind the bracket; the outer [None] is a read
    behind the NUL. *)
Fixpoint array_scan (fuel : nat) (index current depth : Z) (s : cstr) : option (option cstr) :=
  match fuel with
  | O => None
  | S fuel' =>
      match s with
      | [] => Some None
      | c :: s' =>
          if depth <=? 0 then Some None
          else if c =? 91 then array_scan fuel' index current (depth + 1) s'
          else if c =? 93 then array_scan fuel' index current (depth - 1) s'
          else if (depth =? 1) && (c =? 34) then
            let e := default (length s') (strchr s' 34) in
            if current =? index then Some (Some (take e s'))
            else
              match drop e s' with
              | [] => None
              | _ :: s'' => array_scan fuel' index (current + 1) depth s''
              end
          else array_scan fuel' index current depth s'
      end
  end.

Definition find_json_array_value (json key : cstr) (index : Z) (out_len : nat) : option (option cstr) :=
  match strstr json (snprintf_s 256 ([34] ++ key ++ [34])) with
  | None => Some None
  | Some i =>
      match strchr (drop i json) 58 with
      | None => Some None
      | Some j =>
          match skip_while (λ c, negb (c =? 91)) (drop (S j) (drop i json)) with
          | [] => Some None
          | _ :: s =>
              v ← array_scan (S (length s)) index 0 1 s;
              Some (match v with Some t => Some (take (out_len - 1) t) | None => None end)
          end
      end
  end.

(** The text left in [out_content], which held [before], and the code. *)
Definition parse_response_content (json before : cstr) (out_len : nat) : option (cstr * Z) :=
  match find_json_value json (lit "content") out_len with
  | Some v => Some (v, 0)
  | None =>
      a ← find_json_array_value json (lit "choices") 0 out_len;
      let out := default before a in
      let inner :=
        match a with
        | None => None
        | Some choice =>
            match find_json_value choice (lit "message") FOUND_LEN with
            | None => None
            | Some message => find_json_value message (lit "content") FOUND_LEN
            end
        end in
      match inner with
      | Some actual => Some (snprintf_s out_len actual, 0)
      | None =>
          match find_json_value json (lit "error") 512 with
          | Some e => Some (snprintf_s out_len (lit "Error: " ++ e), 0)
          | None => Some (out, -1)
          end
      end
  end.

Definition set_content (r : chat_response_t) (s : cstr) (d : bool) : chat_response_t :=
  mk_chat_response s (tokens_used r) (prompt_tokens r) (completion_tokens r) d (tool_calls r) (call_count r) (reasoning r).
Definition set_tokens (r : chat_response_t) (used prompt completion : Z) : chat_response_t :=
  mk_chat_response (resp_content r) used prompt completion (resp_done r) (tool_calls r) (call_count r) (reasoning r).
Definition set_calls (r : chat_response_t) (l : list (cstr * cstr)) (n : nat) : chat_response_t :=
  mk_chat_response (resp_content r) (tokens_used r) (prompt_tokens r) (completion_tokens r) (resp_done r) l n (reasoning r).
Definition set_reasoning (r : chat_response_t) (s : cstr) : chat_response_t :=
  mk_chat_response (resp_content r) (tokens_used r) (prompt_tokens r) (completion_tokens r) (resp_done r)
    (tool_calls r) (call_count r) s.

(** A count in the text, kept where the key is missing. *)
Definition count_of (text : cstr) (key : string) (before : Z) : Z :=
  match find_json_value text (lit key) 32 with Some v => u64 (atoi v) | None => before end.

Definition openai_usage (text : cstr) (r : chat_response_t) : chat_response_t :=
  match find_json_value text (lit "usage") 64 with
  | None => r
  | Some usage =>
      set_tokens r (count_of usage "total_tokens" (tokens_used r)) (count_of usage "prompt_tokens" (prompt_tokens r))
        (count_of usage "completion_tokens" (completion_tokens r))
  end.

Definition anthropic_usage (text : cstr) (r : chat_response_t) : chat_response_t :=
  match find_json_value text (lit "usage") 64 with
  | None => r
  | Some usage =>
      let prompt := count_of usage "input_tokens" (prompt_tokens r) in
      match find_json_value usage (lit "output_tokens") 32 with
      | None => set_tokens r (tokens_used r) prompt (completion_tokens r)
      | Some v => let c := u64 (atoi v) in set_tokens r (u64 (prompt + c)) prompt c
      end
  end.

(** ** Requests *)

(** An array nothing has written when there is no message. *)
Definition messages_text (c : chat_context_t) : option cstr :=
  match default [] (messages c) with [] => None | _ => build_messages_json c [] MESSAGES_LEN end.

(** The common opening of a request, up to the temperature. *)
Definition chat_body (model msgs tools : cstr) (c : chat_context_t) (rest : cstr) : cstr :=
  jlit "{'model':'" ++ model ++ jlit "','messages':[" ++ msgs ++ lit "]" ++ tools ++
  jlit ",'temperature':" ++ fmt_fixed 6 (temperature c) ++ rest.
Definition max_tokens_field (c : chat_context_t) : cstr := jlit ",'max_tokens':" ++ fmt_dec (max_tokens c).
Definition bearer (key : cstr) : cstr := snprintf_s HEADER_LEN (lit "Authorization: Bearer " ++ key).
Definition JSON_TYPE : cstr := lit "Content-Type: application/json".
Definition JSON_ACCEPT : cstr := lit "Accept: application/json".
Definition ANTHROPIC_URL : cstr := lit "https://api.anthropic.com/v1/messages".
Definition ANTHROPIC_VERSION : cstr := lit "anthropic-version: 2023-06-01".
Definition anthropic_key (key : cstr) : cstr := snprintf_s HEADER_LEN (lit "x-api-key: " ++ key).

Definition gemini_piece (m : message_t) : cstr :=
  jlit "{'role':'" ++ role m ++ jlit "','parts':[{'text':'" ++ content m ++ jlit "'}]}".

Fixpoint gemini_contents (w : writer) (l : list message_t) : option writer :=
  match l with
  | [] => Some w
  | m :: l' =>
      if 0 <? w_remaining w then
        w ← put w (gemini_piece m);
        let w :=
          match l' with
          | [] => w
          | _ =>
              if 0 <? w_remaining w
              then mk_writer (if 1 <? w_remaining w then w_text w ++ [44] else w_text w) (w_remaining w - 1)
              else w
          end in
        gemini_contents w l'
      else Some w
  end.

(** [prompt_len] is positive. *)
Fixpoint prompt_loop (prompt_len : nat) (prompt : cstr) (l : list message_t) : cstr :=
  match l with
  | [] => prompt
  | m :: l' =>
      if (1 <? prompt_len)%nat then
        let line := role m ++ lit ": " ++ content m ++ [10] in
        let room := (prompt_len - length prompt)%nat in
        let prompt' := prompt ++ snprintf_s room line in
        if (room <=? length line)%nat then prompt' else prompt_loop prompt_len prompt' l'
      else prompt
  end.

Definition build_prompt_from_context (c : chat_context_t) (prompt_len : nat) : cstr :=
  prompt_loop prompt_len [] (default [] (messages c)).

(** ** Tool calls *)

Definition slot_name (r : chat_response_t) (i : nat) : cstr := (default ([], []) (tool_calls r !! i)).1.
Definition slot_args (r : chat_response_t) (i : nat) : cstr := (default ([], []) (tool_calls r !! i)).2.

(** One object of OpenAI's array: the response and the next index. *)
Definition openai_call (call_json : cstr) (idx : nat) (r : chat_response_t) : chat_response_t * nat :=
  match find_json_value call_json (lit "function") 128 with
  | None => (r, idx)
  | Some func =>
      let args :=
        match strchr func 123 with
        | Some j => take (TOOL_ARGS_LEN - 1) (drop j func)
        | None => slot_args r idx
        end in
      let name :=
        match strchr func 34 with
        | None => slot_name r idx
        | Some j =>
            let ns := drop (S j) func in
            match strchr ns 34 with
            | None => slot_name r idx
            | Some k => if (k <? TOOL_NAME_LEN)%nat then take k ns ++ drop k (slot_name r idx) else slot_name r idx
            end
        end in
      (set_calls r (<[idx := (name, args)]> (tool_calls r)) (S (call_count r)), S idx)
  end.

(** The loops from object to object: [p] is where the current one opens, [e]
    the place of the closing bracket of the array. *)
Fixpoint openai_calls (fuel : nat) (arr : cstr) (e : nat) (p : option nat) (idx : nat) (r : chat_response_t)
    : option chat_response_t :=
  match fuel with
  | O => None
  | S fuel' =>
      match p with
      | None => Some r
      | Some p =>
          if (idx <? MAX_TOOL_CALLS)%nat && (p <? e)%nat then
            match strchr (drop p arr) 125 with
            | None => Some r
            | Some k =>
                let call := take (S k) (drop p arr) in
                let '(r, idx) := if (S k <? TOOL_ARGS_LEN)%nat then openai_call call idx r else (r, idx) in
                let q := (p + S k)%nat in
                openai_calls fuel' arr e ((λ d, q + d)%nat <$> strchr (drop q arr) 123) idx r
            end
          else Some r
      end
  end.

Definition openai_tool_calls (text : cstr) (r : chat_response_t) : option chat_response_t :=
  match strstr text (jlit "'tool_calls'") with
  | None => Some r
  | Some i =>
      let r := set_calls r (tool_calls r) 0 in
      match strchr (drop i text) 91 with
      | None => Some r
      | Some a =>
          let arr := drop a (drop i text) in
          match strchr arr 93 with
          | None => Some r
          | Some e =>
              if (S e <? RESPONSE_LEN)%nat then
                if (CALL_LEN <? S e)%nat then None
                else openai_calls (S (length arr)) arr e (strchr arr 123) 0 r
              else Some r
          end
      end
  end.

(** One object of Anthropic's array. *)
Definition anthropic_block (block_json : cstr) (idx : nat) (r : chat_response_t) : chat_response_t * nat :=
  let name := default [] (find_json_value block_json (lit "name") 128) in
  let input := default [] (find_json_value block_json (lit "input") CALL_LEN) in
  match name with
  | [] => (r, idx)
  | _ =>
      (set_calls r (<[idx := (snprintf_s TOOL_NAME_LEN name, snprintf_s TOOL_ARGS_LEN input)]> (tool_calls r))
         (S (call_count r)), S idx)
  end.

Fixpoint anthropic_blocks (fuel : nat) (arr : cstr) (e : nat) (p : option nat) (idx : nat) (r : chat_response_t)
    : option chat_response_t :=
  match fuel with
  | O => None
  | S fuel' =>
      match p with
      | None => Some r
      | Some p =>
          if (idx <? MAX_TOOL_CALLS)%nat && (p <? e)%nat then
            match strchr (drop p arr) 125 with
            | None => Some r
            | Some k =>
                let block := take (S k) (drop p arr) in
                let q := (p + S k)%nat in
                let next := (λ d, q + d)%nat <$> strchr (drop q arr) 123 in
                if (S k <? RESPONSE_LEN)%nat then
                  if (CALL_LEN <=? S k)%nat then None
                  else
                    let '(r, idx) := anthropic_block block idx r in
                    anthropic_blocks fuel' arr e next idx r
                else anthropic_blocks fuel' arr e next idx r
            end
          else Some r
      end
  end.

Definition anthropic_tool_calls (text : cstr) (r : chat_response_t) : option chat_response_t :=
  if negb (contains text (jlit "'type':'tool_use'")) then Some r
  else
    let r := set_calls r (tool_calls r) 0 in
    match strstr text (jlit "'content'") with
    | None => Some r
    | Some i =>
        match strchr (drop i text) 91 with
        | None => Some r
        | Some a =>
            let arr := drop a (drop i text) in
            match strchr arr 93 with
            | None => Some r
            | Some e => anthropic_blocks (S (length arr)) arr e (strchr arr 123) 0 r
            end
        end
    end.

(** ** The providers *)

(** The library state together with the model a llama provider keeps loaded
    and the path it came from. *)
Record calls_state := mk_calls {
  cs_http : providers_t;
  g_llama : llama_backend_t;
  s_model : llama_model_t;
  s_last_path : cstr;
}.

Definition with_http (s : calls_state) (g : providers_t) : calls_state :=
  mk_calls g (g_llama s) (s_model s) (s_last_path s).

Section providers.
Context {W : Type} `{Curl W} `{LlamaLib W}.
Context (getenv : cstr → option cstr).

Abbreviation outcome := (option (W * calls_state * chat_response_t * Z)).

(** The request and the two branches on its result. *)
Definition post_chat (w : W) (s : calls_state) (url : cstr) (headers : list cstr) (body : cstr)
    (answered : cstr → option chat_response_t) (failed : chat_response_t) : outcome :=
  let '(w, g, resp, result) := http_post w (cs_http s) url headers body http_response_zero in
  t ← (if result =? 0 then reply_text resp else Some None);
  r ← match t with Some t => answered t | None => Some failed end;
  Some (w, with_http s g, r, result).

Definition failed_with (r : chat_response_t) (msg : string) : chat_response_t :=
  set_content r (snprintf_s RESPONSE_LEN (lit msg)) (resp_done r).

(** [parse_response_content] into the response, which is then done. *)
Definition parsed_into (r : chat_response_t) (t : cstr) : option chat_response_t :=
  '(text, _) ← parse_response_content t (resp_content r) RESPONSE_LEN;
  Some (set_content r text true).

Definition found_into (r : chat_response_t) (key : string) (t : cstr) : chat_response_t :=
  set_content r (default (resp_content r) (find_json_value t (lit key) RESPONSE_LEN)) true.

Definition provider_openai_completion (w : W) (s : calls_state) (api_key model : cstr) (c : chat_context_t)
    (r : chat_response_t) (api_url : cstr) : outcome :=
  msgs ← messages_text c;
  post_chat w s (snprintf_s HEADER_LEN (api_url ++ lit "/chat/completions")) [bearer api_key; JSON_TYPE; JSON_ACCEPT]
    (snprintf_s BODY_LEN (chat_body model msgs [] c (max_tokens_field c ++ jlit ",'stream':false}")))
    (λ t, r ← parsed_into r t; Some (openai_usage t r))
    (failed_with r "HTTP request failed").

Definition provider_anthropic_completion (w : W) (s : calls_state) (api_key model : cstr) (c : chat_context_t)
    (r : chat_response_t) : outcome :=
  msgs ← messages_text c;
  post_chat w s ANTHROPIC_URL [anthropic_key api_key; ANTHROPIC_VERSION; JSON_TYPE]
    (snprintf_s BODY_LEN (chat_body model msgs [] c (max_tokens_field c ++ lit "}")))
    (λ t, Some (anthropic_usage t (found_into r "content" t)))
    (failed_with r "HTTP request failed").

Definition provider_gemini_completion (w : W) (s : calls_state) (api_key model : cstr) (c : chat_context_t)
    (r : chat_response_t) : outcome :=
  contents ← gemini_contents (mk_writer [] (Z.of_nat MESSAGES_LEN)) (default [] (messages c));
  post_chat w s
    (snprintf_s HEADER_LEN (lit "https://generativelanguage.googleapis.com/v1/models/" ++ model ++
                            lit ":generateContent?key=" ++ api_key))
    [JSON_TYPE]
    (snprintf_s BODY_LEN (jlit "{'contents':[" ++ snprintf_s MESSAGES_LEN (w_text contents) ++
       jlit "],'generationConfig':{'temperature':" ++ fmt_fixed 6 (temperature c) ++
       jlit ",'maxOutputTokens':" ++ fmt_dec (max_tokens c) ++ lit "}}"))
    (λ t,
       candidate ← find_json_array_value t (lit "candidates") 0 BODY_LEN;
       Some (match candidate with
             | Some v => found_into r "text" v
             | None => set_content r (resp_content r) true
             end))
    (failed_with r "HTTP request failed").

Definition provider_glm_completion (w : W) (s : calls_state) (api_key model : cstr) (c : chat_context_t)
    (r : chat_response_t) : outcome :=
  msgs ← messages_text c;
  post_chat w s (lit "https://open.bigmodel.cn/api/paas/v4/chat/completions") [bearer api_key; JSON_TYPE]
    (snprintf_s BODY_LEN (chat_body model msgs [] c (max_tokens_field c ++ lit "}")))
    (parsed_into r) (failed_with r "HTTP request failed").

Definition ollama_url : cstr :=
  let host := match getenv (lit "OLLAMA_HOST") with None | Some [] => lit "http://localhost:11434" | Some h => h end in
  if negb (strneq 7 host (lit "http://")) && negb (strneq 8 host (lit "https://"))
  then snprintf_s HEADER_LEN (lit "http://" ++ host ++ lit "/api/chat")
  else snprintf_s HEADER_LEN (host ++ lit "/api/chat").

Definition provider_ollama_completion (w : W) (s : calls_state) (model : cstr) (c : chat_context_t)
    (r : chat_response_t) : outcome :=
  msgs ← messages_text c;
  post_chat w s ollama_url [JSON_TYPE]
    (snprintf_s BODY_LEN (chat_body model msgs [] c
       (jlit ",'stream':false,'options':{'num_predict':" ++ fmt_dec (max_tokens c) ++ lit "}}")))
    (λ t, let r := found_into r "content" t in
          Some (set_tokens r (Z.of_nat (length (resp_content r)) / 4) (prompt_tokens r) (completion_tokens r)))
    (failed_with r "Error: Could not connect to Ollama. Make sure Ollama is running (ollama serve)").

Definition provider_copilot_completion (w : W) (s : calls_state) (api_key model : cstr) (c : chat_context_t)
    (r : chat_response_t) : outcome :=
  msgs ← messages_text c;
  post_chat w s (lit "https://api.github.com/copilot-models/chat/completions")
    [bearer api_key; JSON_TYPE; JSON_ACCEPT]
    (snprintf_s BODY_LEN (chat_body (match model with [] => lit "gpt-4" | _ => model end) msgs [] c
                            (max_tokens_field c ++ lit "}")))
    (parsed_into r)
    (failed_with r "Error: GitHub Copilot not available. Set GITHUB_TOKEN environment variable.").

(** The temperature handed to the local model is not used there. *)
Definition provider_llama_completion (w : W) (s : calls_state) (model : cstr) (c : chat_context_t)
    (r : chat_response_t) : outcome :=
  let stop (w : W) s msg := Some (w, s, set_content r (snprintf_s RESPONSE_LEN msg) true, -1) in
  match (match getenv (lit "DOCTORCLAW_LLAMA_MODEL") with None | Some [] => model | Some p => p end) with
  | [] => stop w s (lit "Error: Llama provider requires DOCTORCLAW_LLAMA_MODEL or model path (GGUF file).")
  | path =>
      let changed := negb (streq (s_last_path s) path) in
      let '(w, s) :=
        if changed && llama_is_loaded (s_model s) then
          let '(w, m, _) := llama_unload_model w (g_llama s) (s_model s) in
          (w, mk_calls (cs_http s) (g_llama s) m [])
        else (w, s) in
      let '(w, s, rc) :=
        if llama_is_loaded (s_model s) then (w, s, 0)
        else
          let '(w, g, m, rc) := llama_load_model w (g_llama s) (s_model s) path in
          (w, mk_calls (cs_http s) g m (if rc =? 0 then snprintf_s MAX_MODEL_PATH path else s_last_path s), rc) in
      if negb (rc =? 0) then
        stop w s (lit "Error: Failed to load GGUF model: " ++ path ++
                  lit " (set DOCTORCLAW_LLAMA_MODEL or install libllama).")
      else
        match build_prompt_from_context c MESSAGES_LEN with
        | [] => stop w s (lit "Error: Empty prompt for llama.")
        | prompt =>
            let max_tok := if 0 <? max_tokens c then Z.to_nat (max_tokens c) else 512%nat in
            '(w, ll, rc) ← llama_chat_completion_with_config w (g_llama s) (s_model s) prompt max_tok llama_response_zero;
            if negb (rc =? 0) then
              stop w s (match ll_text ll with [] => lit "Error: Llama completion failed." | t => t end)
            else
              Some (w, s, mk_chat_response (snprintf_s RESPONSE_LEN (ll_text ll)) (tokens_used r) (prompt_tokens r)
                      (Z.of_nat (tokens_generated ll)) (ll_done ll) (tool_calls r) (call_count r) (reasoning r), 0)
        end
  end.

(** ** Dispatch *)

Fixpoint first_env (names : list string) : option cstr :=
  match names with
  | [] => None
  | n :: l => match getenv (lit n) with Some k => Some k | None => first_env l end
  end.

Definition or_model (model : cstr) (fallback : string) : cstr := match model with [] => lit fallback | _ => model end.

Definition call_provider (w : W) (s : calls_state) (type : provider_type_t) (model : cstr) (key : option cstr)
    (c : chat_context_t) : option outcome :=
  let r := chat_response_zero in
  let with_key f := match key with Some k => f k | None => None end in
  match type with
  | PROVIDER_OPENAI | PROVIDER_OPENAI_CODEX =>
      Some (with_key (λ k, provider_openai_completion w s k (or_model model "gpt-4o") c r (lit "https://api.openai.com/v1")))
  | PROVIDER_ANTHROPIC =>
      Some (with_key (λ k, provider_anthropic_completion w s k (or_model model "claude-3-5-sonnet-20241022") c r))
  | PROVIDER_OPENROUTER =>
      Some (with_key (λ k, provider_openai_completion w s k (or_model model "openai/gpt-4o-mini") c r
                            (lit "https://openrouter.ai/api/v1")))
  | PROVIDER_GEMINI => Some (with_key (λ k, provider_gemini_completion w s k (or_model model "gemini-pro") c r))
  | PROVIDER_GLM => Some (with_key (λ k, provider_glm_completion w s k (or_model model "glm-4") c r))
  | PROVIDER_OLLAMA => Some (provider_ollama_completion w s (or_model model "llama3.2") c r)
  | PROVIDER_COPILOT =>
      Some (with_key (λ k, provider_copilot_completion w s (default k (getenv (lit "GITHUB_TOKEN"))) model c r))
  | PROVIDER_LLAMA => Some (provider_llama_completion w s model c r)
  | PROVIDER_CUSTOM | PROVIDER_UNKNOWN => None
  end.

(** [now1] and [now2] are the readings of the clock before and after the call;
    the pauses of [check_rate_limit] only take time. *)
Definition provider_chat_completion (now1 now2 : Z) (w : W) (s : calls_state) (type : provider_type_t)
    (model : cstr) (api_key : option cstr) (c : chat_context_t) : outcome :=
  let stop s msg := Some (w, s, set_content chat_response_zero (snprintf_s RESPONSE_LEN (lit msg)) true, -1) in
  let key :=
    match api_key with
    | Some k => Some k
    | None => first_env ["OPENAI_API_KEY"; "ANTHROPIC_API_KEY"; "OPENROUTER_API_KEY"; "GEMINI_API_KEY"]%string
    end in
  if bool_decide (key = None ∧ type ≠ PROVIDER_OLLAMA ∧ type ≠ PROVIDER_LLAMA) then
    stop s "Error: No API key configured. Set OPENAI_API_KEY, ANTHROPIC_API_KEY, OPENROUTER_API_KEY, or GEMINI_API_KEY"%string
  else
    let s := with_http s (check_rate_limit now1 (cs_http s)).1 in
    match call_provider w s type model key c with
    | None => stop s "Error: Unknown or unsupported provider"%string
    | Some o => '(w, s, r, result) ← o; Some (w, with_http s (update_rate_limit now2 (cs_http s)), r, result)
    end.

(** ** Calls with tools *)

Definition tools_field (tools_json : option cstr) : cstr :=
  match tools_json with None | Some [] => [] | Some t => jlit ",'tools':" ++ t end.

Definition provider_openai_with_tools (w : W) (s : calls_state) (api_key : cstr) (model : option cstr)
    (c : chat_context_t) (tools_json : option cstr) (r : chat_response_t) : outcome :=
  msgs ← messages_text c;
  post_chat w s (lit "https://api.openai.com/v1/chat/completions") [bearer api_key; JSON_TYPE; JSON_ACCEPT]
    (snprintf_s TOOLS_BODY_LEN (chat_body (default (lit "gpt-4o") model) msgs (tools_field tools_json) c
                                  (max_tokens_field c ++ jlit ",'stream':false}")))
    (λ t, r ← parsed_into r t; r ← openai_tool_calls t r; Some (openai_usage t r))
    (failed_with r "HTTP request failed").

Definition provider_anthropic_with_tools (w : W) (s : calls_state) (api_key : cstr) (model : option cstr)
    (c : chat_context_t) (tools_json : option cstr) (r : chat_response_t) : outcome :=
  msgs ← messages_text c;
  post_chat w s ANTHROPIC_URL [anthropic_key api_key; ANTHROPIC_VERSION; JSON_TYPE]
    (snprintf_s TOOLS_BODY_LEN (chat_body (default (lit "claude-3-5-sonnet-20241022") model) msgs (tools_field tools_json) c
                                  (max_tokens_field c ++ lit "}")))
    (λ t,
       r ← anthropic_tool_calls t (found_into r "content" t);
       let r := match find_json_value t (lit "thinking") CALL_LEN with
                | Some v => set_reasoning r (snprintf_s CALL_LEN v)
                | None => r
                end in
       Some (anthropic_usage t r))
    (failed_with r "HTTP request failed").

Definition provider_chat_with_tools (w : W) (s : calls_state) (type : provider_type_t) (model : cstr)
    (api_key : option cstr) (c : chat_context_t) (tools_json : option cstr) : outcome :=
  let stop msg := Some (w, s, set_content chat_response_zero (snprintf_s RESPONSE_LEN (lit msg)) true, -1) in
  match (match api_key with Some k => Some k | None => first_env ["OPENAI_API_KEY"; "ANTHROPIC_API_KEY"]%string end) with
  | None => stop "Error: No API key configured"%string
  | Some k =>
      match type with
      | PROVIDER_OPENAI | PROVIDER_OPENAI_CODEX | PROVIDER_OPENROUTER =>
          provider_openai_with_tools w s k (Some (or_model model "gpt-4o")) c tools_json chat_response_zero
      | PROVIDER_ANTHROPIC =>
          provider_anthropic_with_tools w s k (Some (or_model model "claude-3-5-sonnet-20241022")) c tools_json
            chat_response_zero
      | _ => stop "Error: Tool calling not supported for this provider"%string
      end
  end.

Definition provider_openai_compatible_call (w : W) (s : calls_state) (base_url api_key model : cstr)
    (c : chat_context_t) (r : chat_response_t) : outcome :=
  msgs ← messages_text c;
  post_chat w s (snprintf_s HEADER_LEN (base_url ++ lit "/chat/completions")) [bearer api_key; JSON_TYPE]
    (snprintf_s BODY_LEN (chat_body model msgs [] c (max_tokens_field c ++ lit "}")))
    (parsed_into r) r.

Definition provider_anthropic_call := provider_anthropic_completion.
Definition provider_gemini_call := provider_gemini_completion.
End providers.

(** ** Tables *)

Record model_info_t := mk_model_info {
  mi_model : cstr;
  mi_provider : cstr;
  context_window : Z;
  input_cost_per_1m : f64;
  output_cost_per_1m : f64;
}.

(** Prices in cents. *)
Definition model_row (provider name : string) (window input output : Z) : model_info_t :=
  mk_model_info (lit name) (lit provider) window (f64_const input 100) (f64_const output 100).

Definition openai_models : list model_info_t :=
  [model_row "openai" "gpt-4o" 128000 250 1000; model_row "openai" "gpt-4o-mini" 128000 15 60;
   model_row "openai" "gpt-4-turbo" 128000 1000 3000; model_row "openai" "gpt-4" 8192 3000 6000;
   model_row "openai" "gpt-3.5-turbo" 16385 50 200].
Definition anthropic_models : list model_info_t :=
  [model_row "anthropic" "claude-3-5-sonnet-20241022" 200000 300 1500;
   model_row "anthropic" "claude-3-opus-20240229" 200000 1500 7500;
   model_row "anthropic" "claude-3-sonnet-20240229" 200000 300 1500;
   model_row "anthropic" "claude-3-haiku-20240307" 200000 25 125].
Definition openrouter_models : list model_info_t :=
  [model_row "openrouter" "openai/gpt-4o" 128000 250 1000; model_row "openrouter" "openai/gpt-4o-mini" 128000 15 60;
   model_row "openrouter" "anthropic/claude-3.5-sonnet" 200000 300 1500;
   model_row "openrouter" "google/gemini-pro-1.5" 1000000 125 500;
   model_row "openrouter" "meta-llama/llama-3.1-70b-instruct" 128000 80 80].
Definition ollama_models : list model_info_t :=
  [model_row "ollama" "llama3.2" 8192 0 0; model_row "ollama" "llama3.1" 32768 0 0;
   model_row "ollama" "mistral" 8192 0 0; model_row "ollama" "codellama" 16384 0 0;
   model_row "ollama" "phi3" 4096 0 0; model_row "ollama" "qwen2.5" 32768 0 0].

Definition provider_list_models (type : provider_type_t) : list model_info_t :=
  match type with
  | PROVIDER_OPENAI | PROVIDER_OPENAI_CODEX => openai_models
  | PROVIDER_ANTHROPIC => anthropic_models
  | PROVIDER_OPENROUTER => openrouter_models
  | PROVIDER_OLLAMA => ollama_models
  | _ => []
  end.

(** No operation reads the aliases. *)
Record provider_info_t := mk_info {
  pi_id : cstr;
  pi_name : cstr;
  api_url : cstr;
  pi_type : provider_type_t;
  requires_auth : bool;
  is_local : bool;
}.

Definition provider_list_available : list provider_info_t :=
  [mk_info (lit "openrouter") (lit "OpenRouter") (lit "https://openrouter.ai/api/v1") PROVIDER_OPENROUTER true false;
   mk_info (lit "anthropic") (lit "Anthropic (Claude)") (lit "https://api.anthropic.com/v1") PROVIDER_ANTHROPIC true false;
   mk_info (lit "openai") (lit "OpenAI") (lit "https://api.openai.com/v1") PROVIDER_OPENAI true false;
   mk_info (lit "openai-codex") (lit "OpenAI Codex") (lit "https://api.openai.com/v1") PROVIDER_OPENAI_CODEX true false;
   mk_info (lit "ollama") (lit "Ollama (Local)") (lit "http://localhost:11434") PROVIDER_OLLAMA false true;
   mk_info (lit "gemini") (lit "Google Gemini") (lit "https://generativelanguage.googleapis.com/v1") PROVIDER_GEMINI true false;
   mk_info (lit "glm") (lit "Zhipu GLM") (lit "https://open.bigmodel.cn/api/paas/v4") PROVIDER_GLM true false;
   mk_info (lit "copilot") (lit "GitHub Copilot") (lit "https://api.github.com") PROVIDER_COPILOT true false;
   mk_info (lit "llama") (lit "llama.cpp (Local)") [] PROVIDER_LLAMA false true].

Definition key_variable (type : provider_type_t) : option cstr :=
  match type with
  | PROVIDER_OPENAI | PROVIDER_OPENAI_CODEX => Some (lit "OPENAI_API_KEY")
  | PROVIDER_ANTHROPIC => Some (lit "ANTHROPIC_API_KEY")
  | PROVIDER_OPENROUTER => Some (lit "OPENROUTER_API_KEY")
  | PROVIDER_GEMINI => Some (lit "GEMINI_API_KEY")
  | PROVIDER_GLM => Some (lit "ZHIPU_API_KEY")
  | PROVIDER_COPILOT => Some (lit "GITHUB_TOKEN")
  | _ => None
  end.

(** [None]: the code is -1 and the buffer as it was. *)
Definition provider_get_api_key (getenv : cstr → option cstr) (type : provider_type_t) (out_len : nat) : option cstr :=
  if (out_len =? 0)%nat then None
  else v ← key_variable type; k ← getenv v; Some (snprintf_s out_len k).

(** The table, the two name functions and the tests for a key agree. *)
Lemma available_consistent info :
  info ∈ provider_list_available →
  provider_get_type (pi_id info) = pi_type info ∧ provider_get_name (pi_type info) = pi_id info ∧
  requires_auth info = negb (is_local info) ∧
  (requires_auth info = true ↔ key_variable (pi_type info) ≠ None) ∧
  Forall (λ m, mi_provider m = pi_id info ∨ pi_type info = PROVIDER_OPENAI_CODEX) (provider_list_models (pi_type info)).
Proof.
  intros Hi. unfold provider_list_available in Hi.
  repeat (apply elem_of_cons in Hi as [->|Hi]; [split_and!; [by_eval..|done|repeat (constructor; [by left + by right|]); constructor]|]).
  by apply elem_of_nil in Hi.
Qed.

(** ** Replies that cannot be read *)

(** An array element is read up to its quote, so a key in quotes is never
    found inside it. *)
Lemma take_until_quote s : Forall (λ b, b ≠ 34) (take (default (length s) (strchr s 34)) s).
Proof.
  induction s as [|b s IH]; cbn [strchr length]; [constructor|].
  destruct (b =? 34) eqn:E; [constructor|]. apply Z.eqb_neq in E.
  destruct (strchr s 34); cbn [fmap option_fmap option_map default id] in *; constructor; done.
Qed.

Lemma array_scan_no_quote fuel index current depth s v :
  array_scan fuel index current depth s = Some (Some v) → Forall (λ b, b ≠ 34) v.
Proof.
  revert current depth s. induction fuel as [|fuel IH]; intros current depth [|c s]; cbn [array_scan]; try done.
  destruct (depth <=? 0); [done|]. destruct (c =? 91); [by apply IH|]. destruct (c =? 93); [by apply IH|].
  destruct (_ && _); [|by apply IH]. cbn zeta. destruct (current =? index).
  - intros [= <-]. apply take_until_quote.
  - destruct (drop _ s); [done|]. by apply IH.
Qed.

Lemma array_value_no_quote json key index n v :
  find_json_array_value json key index n = Some (Some v) → Forall (λ b, b ≠ 34) v.
Proof.
  unfold find_json_array_value. destruct (strstr _ _); [|done]. destruct (strchr _ _); [|done].
  destruct (skip_while _ _); [done|]. destruct (array_scan _ _ _ _ _) as [[t|]|] eqn:E; try done.
  cbn [mbind option_bind]. intros [= <-]. apply Forall_take. by eapply array_scan_no_quote.
Qed.

Lemma find_needs_quote json key n : Forall (λ b, b ≠ 34) json → find_json_value json key n = None.
Proof.
  intros Hj. unfold find_json_value, snprintf_s. cbn [app].
  replace (256 - 1)%nat with (S 254) by done. cbn [take]. by rewrite strstr_none.
Qed.

Section replies.
Context {W : Type} `{Curl W} `{LlamaLib W}.
Context (getenv : cstr → option cstr).

Lemma http_post_code w g url headers body w' g' resp rc :
  http_post w g url headers body http_response_zero = (w', g', resp, rc) →
  rc = 0 ∧ data resp ≠ NoData ∨ rc = -1.
Proof.
  unfold http_post, transfer_request. destruct (if curl_initialized g then _ else _) as [w1 g1].
  destruct (curl_easy_init w1) as [w2 []]; cbn [negb]; [|intros [= _ _ _ <-]; by right].
  destruct (curl_easy_perform w2 _) as [w3 tr]. rewrite reply_pieces. cbn [data size http_status].
  destruct (_ && _); intros [= _ _ <- <-]; [left|by right]. split; [done|]. cbn [data]. by destruct (tr_pieces tr).
Qed.

(** A call either read a reply with code 0, or left the text of its failure
    with code -1. *)
Lemma post_chat_cases w s url headers body f r0 w' s' r rc :
  post_chat w s url headers body f r0 = Some (w', s', r, rc) →
  rc = 0 ∧ (∃ t, f t = Some r) ∨ rc = -1 ∧ r = r0.
Proof.
  unfold post_chat. destruct (http_post _ _ _ _ _ _) as [[[w1 g1] resp] code] eqn:E.
  apply http_post_code in E as [[-> Hd]| ->]; cbn [Z.eqb]; cycle 1.
  { intros [= _ _ <- <-]. by right. }
  unfold reply_text. destruct (data resp) as [| |b]; [done..|]. cbn [mbind option_bind].
  destruct (f _) eqn:Ef; [|done]. intros [= _ _ <- <-]. left. eauto.
Qed.

(** The parser of Gemini's replies looks for a quoted key inside a text that
    ends at its first quote: whatever the service answers, a call that
    succeeds leaves the answer empty, so that a caller with retries goes on to
    its fallback. *)
Theorem gemini_answers_are_lost now1 now2 w s model api_key c w' s' r rc :
  provider_chat_completion getenv now1 now2 w s PROVIDER_GEMINI model api_key c = Some (w', s', r, rc) →
  rc = 0 → resp_content r = [] ∧ resp_done r = true ∧ tokens_used r = 0 ∧ call_count r = O.
Proof.
  unfold provider_chat_completion. cbn zeta. case_bool_decide; [intros [= _ _ _ <-]; done|].
  unfold call_provider. destruct (match api_key with Some k => Some k | None => _ end) as [k|]; [|done].
  unfold provider_gemini_completion. destruct (gemini_contents _ _) as [g|]; [|done]. cbn [mbind option_bind].
  destruct (post_chat _ _ _ _ _ _ _) as [[[[w1 s1] r1] rc1]|] eqn:E; [|done]. cbn [mbind option_bind].
  intros [= _ _ <- <-] ->. apply post_chat_cases in E as [[_ [t Ht]]|[? _]]; [|done].
  destruct (find_json_array_value t _ _ _) as [[v|]|] eqn:Ev; [| |done]; cbn [mbind option_bind] in Ht;
    injection Ht as <-; [|done].
  unfold found_into. rewrite find_needs_quote by (by eapply array_value_no_quote). done.
Qed.

(** A response that explains a failure. *)
Definition explained (r : chat_response_t) : Prop :=
  resp_content r ≠ [] ∧ (length (resp_content r) < RESPONSE_LEN)%nat ∧ call_count r = O ∧ tokens_used r = 0.

Definition settled (o : option (W * calls_state * chat_response_t * Z)) : Prop :=
  ∀ w s r rc, o = Some (w, s, r, rc) → rc = 0 ∨ rc = -1 ∧ explained r.

Lemma explained_text msg done : msg ≠ [] → explained (set_content chat_response_zero (snprintf_s RESPONSE_LEN msg) done).
Proof.
  intros Hm. unfold explained, set_content. cbn [resp_content call_count tokens_used].
  split_and!; [|apply snprintf_s_length; unfold RESPONSE_LEN; lia | done..].
  unfold snprintf_s. destruct msg as [|b msg]; [done|]. destruct (RESPONSE_LEN - 1)%nat eqn:E; [unfold RESPONSE_LEN in E; lia | done].
Qed.

Lemma settled_post w s url headers body f msg :
  lit msg ≠ [] → settled (post_chat w s url headers body f (failed_with chat_response_zero msg)).
Proof.
  intros Hm w' s' r rc E. apply post_chat_cases in E as [[-> _]|[-> ->]]; [by left|]. right. split; [done|].
  by apply explained_text.
Qed.

Lemma settled_bind {A} (x : option A) f : (∀ a, x = Some a → settled (f a)) → settled (x ≫= f).
Proof. intros Hf w s r rc. destruct x as [a|]; [|done]. by apply Hf. Qed.

Lemma settled_stop w s msg done : msg ≠ [] →
  settled (Some (w, s, set_content chat_response_zero (snprintf_s RESPONSE_LEN msg) done, -1)).
Proof. intros Hm w' s' r rc [= _ _ <- <-]. right. split; [done|]. by apply explained_text. Qed.

Lemma settled_llama w s model c : settled (provider_llama_completion getenv w s model c chat_response_zero).
Proof.
  unfold provider_llama_completion. destruct (match getenv _ with None | Some [] => model | Some p => p end) as [|b path];
    [by apply settled_stop|].
  destruct (if _ && _ then _ else _) as [w1 s1]. destruct (if llama_is_loaded _ then _ else _) as [[w2 s2] rc2].
  case_if; [by apply settled_stop|]. destruct (build_prompt_from_context _ _); [by apply settled_stop|].
  apply settled_bind. intros [[w3 ll] rc3] _. case_if; [|intros ? ? ? ? [= _ _ _ <-]; by left].
  apply settled_stop. by destruct (ll_text ll).
Qed.

Lemma settled_call w s type model key c o : call_provider getenv w s type model key c = Some o → settled o.
Proof.
  assert (∀ f, (∀ k, settled (f k)) → settled (match key with Some k => f k | None => None end)) as Hk.
  { intros f Hf. destruct key; [apply Hf | by intros ? ? ? ?]. }
  unfold call_provider. destruct type; intros [= <-]; try apply Hk; try apply settled_llama; intros;
    apply settled_bind; intros; by apply settled_post.
Qed.

(** A call that comes back with the text of its failure. *)
Definition stopped (o : option (W * calls_state * chat_response_t * Z)) : Prop :=
  ∃ w s r, o = Some (w, s, r, -1) ∧ explained r.

(** Every transfer fails, or is answered with a status outside 200 to 299. *)
Definition no_answers : Prop :=
  ∀ w rq, let tr := (curl_easy_perform w rq).2 in tr_ok tr && (200 <=? tr_code tr) && (tr_code tr <? 300) = false.

Lemma http_post_refused w g url headers body w' g' resp rc :
  no_answers → http_post w g url headers body http_response_zero = (w', g', resp, rc) → rc = -1.
Proof.
  intros Hno. unfold http_post, transfer_request. destruct (if curl_initialized g then _ else _) as [w1 g1].
  destruct (curl_easy_init w1) as [w2 []]; cbn [negb]; [|by intros [= _ _ _ <-]].
  pose proof (Hno w2 (mk_request url headers (Some body) 120 30)) as Htr. cbv zeta in Htr.
  destruct (curl_easy_perform w2 _) as [w3 tr]. cbn [snd] in Htr. cbn [http_status]. rewrite Htr. by intros [= _ _ _ <-].
Qed.

Lemma stopped_text w s msg done : msg ≠ [] →
  stopped (Some (w, s, set_content chat_response_zero (snprintf_s RESPONSE_LEN msg) done, -1)).
Proof. intros Hm. do 3 eexists. split; [done|]. by apply explained_text. Qed.

Lemma stopped_post w s url headers body f msg :
  no_answers → lit msg ≠ [] → stopped (post_chat w s url headers body f (failed_with chat_response_zero msg)).
Proof.
  intros Hno Hm. unfold post_chat. destruct (http_post _ _ _ _ _ _) as [[[w1 g1] resp] code] eqn:E.
  apply http_post_refused in E as ->; [|done]. by apply stopped_text.
Qed.

Lemma stopped_bind {A} (x : option A) f : is_Some x → (∀ a, stopped (f a)) → stopped (x ≫= f).
Proof. intros [a ->] Hf. apply Hf. Qed.

(** The bytes a message takes in a request: at most 40 around its texts, and
    two for each byte of its content. *)
Definition request_size (m : message_t) : nat := (40 + length (role m) + 2 * length (content m))%nat.
Definition context_fits (c : chat_context_t) : Prop :=
  default [] (messages c) ≠ [] ∧ (sum_list (map request_size (default [] (messages c))) ≤ MESSAGES_LEN)%nat.

Lemma json_size_bound l : (sum_list (map json_size l) ≤ sum_list (map request_size l))%nat.
Proof.
  induction l as [|m l IH]; [done|].
  change (sum_list (map json_size (m :: l))) with (json_size m + sum_list (map json_size l))%nat.
  change (sum_list (map request_size (m :: l))) with (request_size m + sum_list (map request_size l))%nat.
  unfold json_size at 1. unfold request_size at 1.
  assert (length (filter json_special (content m)) ≤ length (content m))%nat by apply length_filter. lia.
Qed.

Lemma messages_text_fits c : context_fits c → is_Some (messages_text c).
Proof.
  intros [Hne Hl]. unfold messages_text. destruct (messages c) as [l|] eqn:E; [|done]. cbn [default from_option id] in *.
  rewrite (build_messages_json_exact c l); [by destruct l|done|done|].
  eapply Nat.lt_le_trans; [by apply messages_json_length|]. pose proof (json_size_bound l). lia.
Qed.

Lemma gemini_contents_fits l : ∀ w,
  Z.of_nat (sum_list (map request_size l)) <= w_remaining w → is_Some (gemini_contents w l).
Proof.
  induction l as [|m l IH]; intros w Hl; [done|].
  change (sum_list (map request_size (m :: l))) with (request_size m + sum_list (map request_size l))%nat in Hl.
  cbn [gemini_contents]. destruct (0 <? w_remaining w); [|done].
  assert (length (gemini_piece m) < request_size m)%nat as Hp.
  { unfold gemini_piece, request_size. rewrite !length_app. cbn. lia. }
  rewrite put_fits by lia. cbn [mbind option_bind]. apply IH.
  destruct l; cbn [w_remaining]; [lia|]. case_if; cbn [w_remaining]; lia.
Qed.

Lemma stopped_call w s type model key c o :
  no_answers → context_fits c → type ≠ PROVIDER_LLAMA → (key = None → type = PROVIDER_OLLAMA) →
  call_provider getenv w s type model key c = Some o → stopped o.
Proof.
  intros Hno Hc Ht Hk. pose proof (messages_text_fits c Hc) as Hm.
  assert (is_Some (gemini_contents (mk_writer [] (Z.of_nat MESSAGES_LEN)) (default [] (messages c)))) as Hg.
  { apply gemini_contents_fits. cbn [w_remaining]. apply inj_le, Hc. }
  destruct key as [k|].
  - unfold call_provider. destruct type; intros [= <-]; try done; (apply stopped_bind; [done|]; intros; by apply stopped_post).
  - rewrite Hk by done. intros [= <-]. apply stopped_bind; [done|]. intros. by apply stopped_post.
Qed.

(** C34: A call of a provider, with tools or without, that comes back has code 0,
    or -1 and a text for the reader: not empty, inside the buffer, with no tool
    call and no tokens beside it.  When no transfer is answered with a status
    of 200 to 299, it does come back so for every provider but the local llama
    model and every non-empty conversation whose messages (40 bytes, the role and
    twice the content each) take at most 8192 bytes.  Not covered: the undefined
    behaviour on an empty or longer conversation, on an empty successful reply
    and on an oversized block in one. *)
Theorem provider_failures_explained now1 now2 w s type model api_key c tools :
  let chat := provider_chat_completion getenv now1 now2 w s type model api_key c in
  let with_tools := provider_chat_with_tools getenv w s type model api_key c tools in
  settled chat ∧ settled with_tools ∧
  (no_answers → context_fits c → type ≠ PROVIDER_LLAMA → stopped chat ∧ stopped with_tools).
Proof.
  cbv zeta. split_and!.
  - intros w' s' r rc. unfold provider_chat_completion. cbn zeta. case_bool_decide; [by apply settled_stop|].
    destruct (call_provider _ _ _ _ _ _ _) as [o|] eqn:Eo; [|by apply settled_stop]. apply settled_call in Eo.
    destruct o as [[[[w1 s1] r1] rc1]|]; [|done]. intros [= _ _ <- <-]. by apply (Eo w1 s1).
  - unfold provider_chat_with_tools. destruct (match api_key with Some k => Some k | None => _ end); [|by apply settled_stop].
    destruct type; try (by apply settled_stop); apply settled_bind; intros; by apply settled_post.
  - intros Hno Hc Ht. split.
    + unfold provider_chat_completion. cbn zeta. case_bool_decide as Hd; [by apply stopped_text|].
      destruct (call_provider _ _ _ _ _ _ _) as [o|] eqn:Eo; [|by apply stopped_text].
      apply stopped_call in Eo as (w1 & s1 & r1 & -> & Hr); [|done..|].
      * do 3 eexists. done.
      * intros Hk. destruct (decide (type = PROVIDER_OLLAMA)); [done|]. by destruct Hd.
    + unfold provider_chat_with_tools. destruct (match api_key with Some k => Some k | None => _ end); [|by apply stopped_text].
      destruct type; try (by apply stopped_text);
        (apply stopped_bind; [by apply messages_text_fits|]; intros; by apply stopped_post).
Qed.

(** Where the requests of the agent go, and with whose key. *)

Lemma http_post_ready w g url headers body w1 w2 tr :
  curl_initialized g = true → curl_easy_init w = (w1, true) →
  curl_easy_perform w1 (mk_request url headers (Some body) 120 30) = (w2, tr) →
  ∃ resp rc, http_post w g url headers body http_response_zero = (w2, g, resp, rc) ∧
    (tr_ok tr = false → rc = -1).
Proof.
  intros Hg Hi Hp. unfold http_post. rewrite (transfer_request_ready _ _ _ _ _ _ Hg Hi Hp).
  do 2 eexists. split; [done|]. intros ->. done.
Qed.

(** A turn of the agent with an OpenRouter key sends that key, the
    conversation and the tools to OpenAI, exactly as for the provider OpenAI:
    the only transfer is the one to [api.openai.com]. *)
Theorem openrouter_tools_sent_to_openai w s model key c tools msgs w1 w2 tr :
  curl_initialized (cs_http s) = true → curl_easy_init w = (w1, true) →
  messages_text c = Some msgs →
  curl_easy_perform w1
    (mk_request (lit "https://api.openai.com/v1/chat/completions") [bearer key; JSON_TYPE; JSON_ACCEPT]
       (Some (snprintf_s TOOLS_BODY_LEN (chat_body (or_model model "gpt-4o") msgs (tools_field tools) c
                                           (max_tokens_field c ++ jlit ",'stream':false}")))) 120 30) = (w2, tr) →
  provider_chat_with_tools getenv w s PROVIDER_OPENROUTER model (Some key) c tools =
  provider_chat_with_tools getenv w s PROVIDER_OPENAI model (Some key) c tools ∧
  ∀ w' s' r rc, provider_chat_with_tools getenv w s PROVIDER_OPENROUTER model (Some key) c tools = Some (w', s', r, rc) →
    w' = w2 ∧ s' = s ∧ (tr_ok tr = false → rc = -1 ∧ resp_content r = lit "HTTP request failed").
Proof.
  intros Hg Hi Hm Hp. split; [done|]. intros w' s' r rc.
  unfold provider_chat_with_tools, provider_openai_with_tools. rewrite Hm. cbn [mbind option_bind].
  unfold post_chat. destruct (http_post_ready _ _ _ _ _ _ _ _ Hg Hi Hp) as (resp & code & E & Hrc).
  cbn [default from_option id]. rewrite E.
  destruct (if code =? 0 then reply_text resp else Some None) as [t|] eqn:Et; [|done]. cbn [mbind option_bind].
  destruct (match t with Some _ => _ | None => _ end) as [r'|] eqn:Er; [|done]. cbn [mbind option_bind].
  intros [= <- <- <- <-]. split_and!; [done|by destruct s|]. intros Hf. rewrite (Hrc Hf) in *. split; [done|].
  injection Et as <-. injection Er as <-. done.
Qed.
End replies.

(** ** Finding values *)

(** What [find_json_value] takes from the text behind the colon. *)
Definition value_at (n : nat) (s : cstr) : option cstr :=
  let found := skip_while isspace s in
  match found with
  | 34 :: s => k ← strchr s 34; Some (take (n - 1) (take k s))
  | b :: _ =>
      if (b =? 123) || (b =? 91) then Some (take (n - 1) (bracketed 0 found))
      else Some (take (n - 1) (take_while (λ x, negb (isspace x) && negb (x =? 44) && negb (x =? 125)) found))
  | [] => Some []
  end.

Lemma find_at s key n i :
  strstr s (snprintf_s 256 ([34] ++ key ++ [34])) = Some i →
  find_json_value s key n = j ← strchr (drop i s) 58; value_at n (drop (S j) (drop i s)).
Proof. intros H. unfold find_json_value. rewrite H. done. Qed.

Lemma find_match s key n :
  has_prefix (snprintf_s 256 ([34] ++ key ++ [34])) s = true →
  find_json_value s key n = j ← strchr s 58; value_at n (drop (S j) s).
Proof. intros H. apply (find_at s key n O). destruct s; cbn [strstr]; by rewrite H. Qed.

Lemma find_key s key n i v :
  strstr s (snprintf_s 256 ([34] ++ key ++ [34])) = Some i → drop i s = [34] ++ key ++ [34; 58] ++ v →
  Forall (λ b, b ≠ 58) key → find_json_value s key n = value_at n v.
Proof.
  intros Hi Hd Hk. rewrite (find_at _ _ _ i Hi), Hd.
  replace ([34] ++ key ++ [34; 58] ++ v) with ((34 :: key ++ [34]) ++ 58 :: v) by (cbn [app]; by rewrite <- app_assoc).
  rewrite strchr_app by (constructor; [done|apply Forall_app; split; [done|by repeat constructor]]).
  cbn [mbind option_bind].
  replace (S (length (34 :: key ++ [34]))) with (length ((34 :: key ++ [34]) ++ [58])) by (rewrite length_app; cbn; lia).
  change (58 :: v) with ([58] ++ v). by rewrite app_assoc, drop_app_length.
Qed.

Lemma find_key_here key n v :
  Forall (λ b, b ≠ 58) key → (length key < 254)%nat →
  find_json_value (34 :: key ++ 34 :: 58 :: v) key n = value_at n v.
Proof.
  intros Hk Hl. apply (find_key _ _ _ O); [|done..].
  rewrite snprintf_s_id by (rewrite !length_app; cbn; lia).
  assert (has_prefix ([34] ++ key ++ [34]) (34 :: key ++ 34 :: 58 :: v) = true) as Hp.
  { apply has_prefix_spec. exists (58 :: v). by rewrite <- !app_assoc. }
  cbn [strstr]. by rewrite Hp.
Qed.

Lemma find_cons b s key n :
  has_prefix (snprintf_s 256 ([34] ++ key ++ [34])) (b :: s) = false →
  find_json_value (b :: s) key n = find_json_value s key n.
Proof.
  intros H. unfold find_json_value. cbn [strstr]. rewrite H. by destruct (strstr s _).
Qed.

Lemma find_app v s key n : Forall (λ b, b ≠ 34) v → find_json_value (v ++ s) key n = find_json_value s key n.
Proof.
  induction 1 as [|b v Hb _ IH]; [done|]. cbn [app]. rewrite find_cons; [done|].
  unfold snprintf_s. cbn [app]. replace (256 - 1)%nat with (S 254) by done. cbn [take has_prefix].
  by rewrite (proj2 (Z.eqb_neq 34 b)).
Qed.

(** A string value that is not the key is passed over. *)
Lemma find_other v s key n :
  Forall (λ b, b ≠ 34) v → Forall (λ b, b ≠ 34) key → v ≠ key → (length key < 254)%nat →
  find_json_value (34 :: v ++ 34 :: s) key n = find_json_value (34 :: s) key n.
Proof.
  intros Hv Hk Hn Hl. rewrite find_cons; [by rewrite find_app|].
  rewrite snprintf_s_id by (rewrite !length_app; cbn; lia). cbn [app has_prefix Z.eqb Pos.eqb andb].
  apply not_true_iff_false. intros [t Ht]%has_prefix_spec. rewrite <- app_assoc in Ht. cbn [app] in Ht. apply Hn.
  clear -Hv Hk Ht. revert key Hk Ht. induction Hv as [|b v Hb _ IH]; intros [|k key] Hk Ht; cbn [app] in Ht;
    [done|injection Ht as <- _; apply Forall_cons in Hk as [? _]; done|injection Ht as -> _; done|].
  apply Forall_cons in Hk as [_ Hk]. injection Ht as -> Ht. f_equal. by apply IH.
Qed.

(** Step over literal text. *)
Ltac find_step := rewrite find_cons by reflexivity.

Lemma value_at_plain b s n :
  isspace b = false → b ≠ 34 →
  value_at n (b :: s) =
  if (b =? 123) || (b =? 91) then Some (take (n - 1) (bracketed 0 (b :: s)))
  else Some (take (n - 1) (take_while (λ x, negb (isspace x) && negb (x =? 44) && negb (x =? 125)) (b :: s))).
Proof.
  intros Hs Hb. unfold value_at. cbn [skip_while]. rewrite Hs. cbv zeta.
  destruct b as [|p|p]; [done| |done]. do 6 (destruct p as [p|p|]; try done).
Qed.

Lemma value_at_string v s n :
  Forall (λ b, b ≠ 34) v → value_at n (34 :: v ++ 34 :: s) = Some (take (n - 1) v).
Proof. intros Hv. unfold value_at. cbn [skip_while]. change (isspace 34) with false. cbv iota. rewrite strchr_app by done.
  cbn [mbind option_bind]. by rewrite take_app_length. Qed.

Lemma value_at_number z stop s n :
  0 <= z < 2 ^ 31 → (12 ≤ n)%nat → stop = 44 ∨ stop = 125 →
  value_at n (fmt_dec z ++ stop :: s) = Some (fmt_dec z).
Proof.
  intros Hz Hn Hs. pose proof (fmt_dec_bytes z) as Hb. pose proof (fmt_dec_nonempty z) as Hne.
  assert (length (fmt_dec z) ≤ 11)%nat as Hl by (apply fmt_dec_length; lia).
  destruct (fmt_dec z) as [|d ds]; [done|]. cbn [app].
  assert (∀ b, b = 45 ∨ 48 <= b <= 57 →
            isspace b = false ∧ b ≠ 34 ∧ negb (isspace b) && negb (b =? 44) && negb (b =? 125) = true) as Hc.
  { intros b Hb'. assert (isspace b = false) as -> by (unfold isspace; lia). split_and!; [done|lia|].
    rewrite (proj2 (Z.eqb_neq b 44)), (proj2 (Z.eqb_neq b 125)) by lia. done. }
  pose proof Hb as [Hd _]%Forall_cons. destruct (Hc d Hd) as (Hsp & H34 & _).
  rewrite value_at_plain by done.
  rewrite (proj2 (Z.eqb_neq d 123)), (proj2 (Z.eqb_neq d 91)) by lia. cbn [orb].
  change (d :: ds ++ stop :: s) with ((d :: ds) ++ stop :: s). f_equal.
  rewrite take_while_app_stop.
  - apply take_ge. lia.
  - destruct Hs as [-> | ->]; done.
  - eapply Forall_impl; [exact Hb|]. intros b Hb'. by apply Hc.
Qed.

(** ** Token counts *)

Definition usage_text (p c t : Z) : cstr :=
  jlit "{'prompt_tokens':" ++ fmt_dec p ++ jlit ",'completion_tokens':" ++ fmt_dec c ++
  jlit ",'total_tokens':" ++ fmt_dec t ++ [125].

Lemma count_of_number s key z before :
  find_json_value s (lit key) 32 = Some (fmt_dec z) → 0 <= z < 2 ^ 31 → count_of s key before = z.
Proof.
  intros Hf Hz. unfold count_of. rewrite Hf.
  rewrite <- (app_nil_r (fmt_dec z)), atoi_fmt_dec by (done || lia). apply wrap_small. lia.
Qed.

Definition no_bracket (b : Z) : Prop := b ≠ 123 ∧ b ≠ 125 ∧ b ≠ 91 ∧ b ≠ 93.

Lemma bracketed_skip depth v s :
  0 < depth → Forall no_bracket v → bracketed depth (v ++ s) = v ++ bracketed depth s.
Proof.
  intros Hd. induction 1 as [|b v (H1 & H2 & H3 & H4) _ IH]; [done|]. cbn [app bracketed].
  rewrite (proj2 (Z.eqb_neq b 123)), (proj2 (Z.eqb_neq b 91)), (proj2 (Z.eqb_neq b 125)), (proj2 (Z.eqb_neq b 93)) by done.
  cbn [orb]. rewrite (proj2 (Z.eqb_neq depth 0)) by lia. by rewrite IH.
Qed.

(** An object without inner brackets is taken whole. *)
Lemma value_at_object body s n :
  Forall no_bracket body → value_at n (123 :: body ++ 125 :: s) = Some (take (n - 1) (123 :: body ++ [125])).
Proof.
  intros Hb. rewrite value_at_plain by done. cbn [Z.eqb Pos.eqb orb]. do 2 f_equal.
  change (bracketed 0 (123 :: body ++ 125 :: s)) with (123 :: bracketed 1 (body ++ 125 :: s)). f_equal.
  by rewrite bracketed_skip.
Qed.

Lemma digits_no_bracket z : Forall no_bracket (fmt_dec z).
Proof. eapply Forall_impl; [apply fmt_dec_bytes|]. unfold no_bracket. cbn beta. lia. Qed.

#[global] Instance no_bracket_dec b : Decision (no_bracket b).
Proof. unfold no_bracket. apply _. Defined.

(** The counts of a reply are read exactly as long as the usage object has
    fewer than 64 bytes; the array it is copied to holds no more. *)
Theorem usage_counts_exact text i post p c t r :
  strstr text (jlit "'usage'") = Some i → drop i text = jlit "'usage':" ++ usage_text p c t ++ post →
  0 <= p < 2 ^ 31 → 0 <= c < 2 ^ 31 → 0 <= t < 2 ^ 31 → (length (usage_text p c t) < 64)%nat →
  openai_usage text r = set_tokens r t p c.
Proof.
  intros Hi Hd Hp Hc Ht Hl. unfold openai_usage.
  rewrite (find_key _ _ _ i (usage_text p c t ++ post)); [|exact Hi|exact Hd|lit_forall].
  set (body := jlit "'prompt_tokens':" ++ fmt_dec p ++ jlit ",'completion_tokens':" ++ fmt_dec c ++
               jlit ",'total_tokens':" ++ fmt_dec t).
  assert (usage_text p c t = 123 :: body ++ [125]) as Hu.
  { unfold usage_text, body. change (jlit "{'prompt_tokens':") with (123 :: jlit "'prompt_tokens':").
    cbn [app]. by rewrite <- !app_assoc. }
  rewrite Hu at 1. cbn [app]. rewrite <- app_assoc. cbn [app]. rewrite value_at_object.
  2:{ unfold body. repeat (apply Forall_app; split); try apply digits_no_bracket; lit_forall. }
  rewrite <- Hu, take_ge by lia. cbv iota. unfold usage_text.
  assert (∀ z, Forall (λ b, b ≠ 34) (fmt_dec z)) as Hq by (intros; apply fmt_dec_not; lia).
  f_equal; apply count_of_number; try done; eval_lits; cbn [app].
  - do 17 find_step. rewrite find_app by done. do 21 find_step. rewrite find_app by done. find_step.
    change (find_json_value (34 :: lit "total_tokens" ++ 34 :: 58 :: fmt_dec t ++ [125]) (lit "total_tokens") 32 = Some (fmt_dec t)).
    rewrite find_key_here; [apply value_at_number; auto; lia|lit_forall|cbn; lia].
  - find_step.
    change (find_json_value (34 :: lit "prompt_tokens" ++ 34 :: 58 :: fmt_dec p ++ 44 ::
      (jlit "'completion_tokens':" ++ fmt_dec c ++ jlit ",'total_tokens':" ++ fmt_dec t ++ [125])) (lit "prompt_tokens") 32 = Some (fmt_dec p)).
    rewrite find_key_here; [apply value_at_number; auto; lia|lit_forall|cbn; lia].
  - do 17 find_step. rewrite find_app by done. find_step.
    change (find_json_value (34 :: lit "completion_tokens" ++ 34 :: 58 :: fmt_dec c ++ 44 ::
      (jlit "'total_tokens':" ++ fmt_dec t ++ [125])) (lit "completion_tokens") 32 = Some (fmt_dec c)).
    rewrite find_key_here; [apply value_at_number; auto; lia|lit_forall|cbn; lia].
Qed.

(** ** Tool calls in replies *)

(** Text that neither closes a string nor opens or closes a bracket. *)
Definition inert (v : cstr) : Prop := Forall (λ b, b ≠ 34 ∧ no_bracket b) v.

Lemma inert_quote v : inert v → Forall (λ b, b ≠ 34) v.
Proof. intros Hv. eapply Forall_impl; [exact Hv|]. by intros b []. Qed.
Lemma inert_bracket v : inert v → Forall no_bracket v.
Proof. intros Hv. eapply Forall_impl; [exact Hv|]. by intros b []. Qed.
#[local] Hint Resolve inert_quote inert_bracket : core.

#[global] Instance inert_dec v : Decision (inert v).
Proof. unfold inert. apply _. Defined.

(** A tool call of Anthropic up to the brace that closes its input. *)
Definition tool_use (id name body : cstr) : cstr :=
  jlit "{'type':'tool_use','id':'" ++ id ++ jlit "','name':'" ++ name ++ jlit "','input':{" ++ body ++ lit "}".

Lemma tool_use_name id name body :
  inert id → inert name → id ≠ lit "name" →
  find_json_value (tool_use id name body) (lit "name") 128 = Some (take 127 name).
Proof.
  intros Hi Hn Hne. unfold tool_use. eval_lits. cbn [app]. do 24 find_step.
  change (find_json_value (34 :: id ++ 34 :: jlit ",'name':'" ++ name ++ jlit "','input':{" ++ body ++ lit "}") (lit "name") 128
          = Some (take 127 name)).
  rewrite find_other by (auto || lit_forall || (cbn; lia)). eval_lits. cbn [app]. do 2 find_step.
  change (find_json_value (34 :: lit "name" ++ 34 :: 58 :: 34 :: name ++ 34 :: jlit ",'input':{" ++ body ++ lit "}")
            (lit "name") 128 = Some (take 127 name)).
  rewrite find_key_here by (lit_forall || (cbn; lia)). by rewrite value_at_string by auto.
Qed.

Lemma tool_use_input id name body :
  inert id → inert name → Forall no_bracket body → id ≠ lit "input" → name ≠ lit "input" →
  find_json_value (tool_use id name body) (lit "input") CALL_LEN = Some (take (CALL_LEN - 1) (123 :: body ++ [125])).
Proof.
  intros Hi Hn Hb Hne Hne'. unfold tool_use. eval_lits. cbn [app]. do 24 find_step.
  change (find_json_value (34 :: id ++ 34 :: jlit ",'name':'" ++ name ++ jlit "','input':{" ++ body ++ lit "}") (lit "input") CALL_LEN
          = Some (take (CALL_LEN - 1) (123 :: body ++ [125]))).
  rewrite find_other by (auto || lit_forall || (cbn; lia)). eval_lits. cbn [app]. do 9 find_step.
  change (find_json_value (34 :: name ++ 34 :: jlit ",'input':{" ++ body ++ lit "}") (lit "input") CALL_LEN
          = Some (take (CALL_LEN - 1) (123 :: body ++ [125]))).
  rewrite find_other by (auto || lit_forall || (cbn; lia)). eval_lits. cbn [app]. do 2 find_step.
  change (find_json_value (34 :: lit "input" ++ 34 :: 58 :: 123 :: body ++ 125 :: []) (lit "input") CALL_LEN
          = Some (take (CALL_LEN - 1) (123 :: body ++ [125]))).
  rewrite find_key_here by (lit_forall || (cbn; lia)). by rewrite value_at_object.
Qed.

(** The first closing brace of a call in progress. *)
Lemma strchr_close v s : Forall no_bracket v → strchr (v ++ 125 :: s) 125 = Some (length v).
Proof. intros Hv. apply strchr_app. eapply Forall_impl; [exact Hv|]. by intros b (_ & ? & _). Qed.

Lemma no_bracket_93 v : Forall no_bracket v → Forall (λ b, b ≠ 93) v.
Proof. intros Hv. eapply Forall_impl; [exact Hv|]. by intros b (_ & _ & _ & ?). Qed.

Definition tool_use_inner (id name body : cstr) : cstr :=
  jlit "'type':'tool_use','id':'" ++ id ++ jlit "','name':'" ++ name ++ jlit "','input':".

Lemma tool_use_split id name body : tool_use id name body = 123 :: tool_use_inner id name body ++ 123 :: body ++ [125].
Proof. unfold tool_use, tool_use_inner. eval_lits. cbn [app]. do 2 (rewrite <- ?app_assoc; cbn [app]). done. Qed.

Lemma tool_use_inner_inert id name body :
  inert id → inert name → Forall no_bracket (tool_use_inner id name body).
Proof.
  intros Hi Hn. unfold tool_use_inner. repeat (apply Forall_app; split); auto; lit_forall.
Qed.

(** A reply with one tool call: the braces and brackets of the call, seen from
    its opening. *)
Lemma tool_use_ends id name body post :
  inert id → inert name → Forall no_bracket body →
  let s := tool_use id name body ++ 125 :: 93 :: post in
  strchr s 125 = Some (length (tool_use id name body) - 1)%nat ∧
  strchr s 93 = Some (S (length (tool_use id name body))) ∧
  take (length (tool_use id name body)) s = tool_use id name body ∧
  drop (length (tool_use id name body)) s = 125 :: 93 :: post.
Proof.
  intros Hi Hn Hb s. unfold s. rewrite take_app_length, drop_app_length.
  pose proof (tool_use_inner_inert id name body Hi Hn) as Hin.
  split_and!; [| |done|done].
  - rewrite tool_use_split. cbn [app]. rewrite <- app_assoc. cbn [app]. rewrite <- app_assoc. cbn [app].
    replace (123 :: tool_use_inner id name body ++ 123 :: body ++ 125 :: 125 :: 93 :: post)
      with ((123 :: tool_use_inner id name body ++ 123 :: body) ++ 125 :: 125 :: 93 :: post)
      by (cbn [app]; by rewrite <- app_assoc).
    rewrite strchr_app.
    + f_equal. cbn [length]. rewrite !length_app. cbn [length]. rewrite length_app. cbn. lia.
    + constructor; [done|]. apply Forall_app. split; [|constructor; [done|]];
        (eapply Forall_impl; [eassumption|]; by intros b (_ & ? & _)).
  - replace (tool_use id name body ++ 125 :: 93 :: post) with ((tool_use id name body ++ [125]) ++ 93 :: post)
      by (by rewrite <- app_assoc).
    rewrite strchr_app; [f_equal; rewrite length_app; cbn; lia|].
    apply Forall_app. split; [|by repeat constructor]. rewrite tool_use_split. constructor; [done|].
    apply Forall_app. split; [by apply no_bracket_93|]. constructor; [done|].
    apply Forall_app. split; [by apply no_bracket_93|by repeat constructor].
Qed.

Lemma call_below_response k : (k < CALL_LEN)%nat → (k < RESPONSE_LEN)%nat.
Proof. unfold CALL_LEN, RESPONSE_LEN. lia. Qed.

Lemma blocks_step fuel arr e p k idx r :
  (idx < MAX_TOOL_CALLS)%nat → (p < e)%nat → strchr (drop p arr) 125 = Some k → (S k < CALL_LEN)%nat →
  anthropic_blocks (S fuel) arr e (Some p) idx r =
  let '(r, idx) := anthropic_block (take (S k) (drop p arr)) idx r in
  anthropic_blocks fuel arr e ((λ d, p + S k + d)%nat <$> strchr (drop (p + S k) arr) 123) idx r.
Proof.
  intros Hi Hp Hk Hl. cbn [anthropic_blocks].
  rewrite (proj2 (Nat.ltb_lt _ _) Hi), (proj2 (Nat.ltb_lt _ _) Hp). cbn [andb]. rewrite Hk.
  rewrite (proj2 (Nat.ltb_lt _ _) (call_below_response _ Hl)), (proj2 (Nat.leb_gt _ _) Hl). done.
Qed.

Lemma blocks_stop fuel arr e p idx r :
  (match p with Some p => e ≤ p | None => True end)%nat → anthropic_blocks (S fuel) arr e p idx r = Some r.
Proof.
  destruct p as [p|]; [|done]. intros Hp. cbn [anthropic_blocks]. rewrite (proj2 (Nat.ltb_ge _ _) Hp).
  by rewrite andb_false_r.
Qed.

Lemma block_read tid name body idx r :
  inert tid → inert name → Forall no_bracket body →
  tid ∉ [lit "name"; lit "input"] → name ≠ lit "input" → name ≠ [] → (length name < TOOL_NAME_LEN)%nat →
  (length (tool_use tid name body) < CALL_LEN)%nat →
  anthropic_block (tool_use tid name body) idx r =
  (set_calls r (<[idx := (name, 123 :: body ++ [125])]> (tool_calls r)) (S (call_count r)), S idx).
Proof.
  intros Hid Hna Hb Hne Hne' Hn0 Hnl Hl.
  assert (tid ≠ lit "name" ∧ tid ≠ lit "input") as [Hn1 Hn2] by (rewrite !elem_of_cons in Hne; tauto).
  unfold anthropic_block. rewrite tool_use_name, tool_use_input by done.
  cbn [default from_option id]. rewrite (take_ge name) by (unfold TOOL_NAME_LEN in Hnl; lia).
  assert (lt (length (123 :: body ++ [125])) CALL_LEN) as Hlb.
  { rewrite tool_use_split in Hl. cbn [length] in *. rewrite !length_app in *. cbn [length] in *. rewrite length_app in *.
    cbn [length] in *. lia. }
  rewrite (take_ge (123 :: body ++ [125])) by lia.
  rewrite (snprintf_s_id TOOL_NAME_LEN) by done. rewrite (snprintf_s_id TOOL_ARGS_LEN) by exact Hlb.
  by destruct name.
Qed.

(** The tool call of an Anthropic reply is read back exactly: identifier, name
    and input without quotes or brackets that matter, an input without inner
    objects or arrays, in less than 4096 bytes. *)
Theorem anthropic_tool_call_read text i tid name body post r :
  strstr text (jlit "'content'") = Some i →
  drop i text = jlit "'content':[" ++ tool_use tid name body ++ lit "}]" ++ post →
  inert tid → inert name → Forall no_bracket body →
  tid ∉ [lit "name"; lit "input"] → name ≠ lit "input" → name ≠ [] → (length name < TOOL_NAME_LEN)%nat →
  (length (tool_use tid name body) < CALL_LEN)%nat →
  anthropic_tool_calls text r =
  Some (set_calls r (<[O := (name, 123 :: body ++ [125])]> (tool_calls r)) 1).
Proof.
  intros Hi Hd Hid Hna Hb Hne Hne' Hn0 Hnl Hl. unfold anthropic_tool_calls.
  assert (contains text (jlit "'type':'tool_use'") = true) as ->.
  { apply contains_spec. rewrite <- (take_drop i text), Hd.
    exists (take i text ++ jlit "'content':[{").
    exists (jlit ",'id':'" ++ tid ++ jlit "','name':'" ++ name ++ jlit "','input':{" ++ body ++ lit "}" ++ lit "}]" ++ post).
    rewrite <- app_assoc. f_equal. unfold tool_use. eval_lits. cbn [app].
    repeat (rewrite <- ?app_assoc; cbn [app]; f_equal). }
  cbn [negb]. rewrite Hi, Hd.
  assert (jlit "'content':[" ++ tool_use tid name body ++ lit "}]" ++ post =
          jlit "'content':" ++ 91 :: tool_use tid name body ++ 125 :: 93 :: post) as -> by done.
  rewrite strchr_app by lit_forall. cbv zeta. rewrite drop_app_length.
  destruct (tool_use_ends tid name body post Hid Hna Hb) as (H125 & H93 & Htake & Hdrop).
  assert (0 < length (tool_use tid name body))%nat as Hpos by (rewrite tool_use_split; cbn; lia).
  assert (strchr (tool_use tid name body ++ 125 :: 93 :: post) 123 = Some O) as H123
    by (rewrite tool_use_split; done).
  set (s := tool_use tid name body ++ 125 :: 93 :: post) in *. set (n := length (tool_use tid name body)) in *.
  assert (strchr (91 :: s) 93 = Some (S (S n)) ∧ strchr (91 :: s) 123 = Some 1%nat) as [-> ->].
  { cbn [strchr Z.eqb Pos.eqb]. by rewrite H93, H123. }
  rewrite (blocks_step _ (91 :: s) _ 1 (n - 1)); [|unfold MAX_TOOL_CALLS; lia|lia|exact H125|lia].
  replace (S (n - 1)) with n by lia. change (drop 1 (91 :: s)) with s. rewrite Htake, block_read by done.
  cbv iota beta. change (drop (1 + n) (91 :: s)) with (drop n s). rewrite Hdrop. cbn [length].
  rewrite blocks_stop; [done|]. cbn [strchr Z.eqb Pos.eqb].
  destruct (strchr post 123) as [d|]; cbn [fmap option_fmap option_map]; [lia|done].
Qed.

(** A tool call of OpenAI, as its documentation gives it. *)
Definition call_open (id f : cstr) : cstr :=
  jlit "{'id':'" ++ id ++ jlit "','type':'function','function':{'name':'" ++ f ++ jlit "','arguments':'".

Lemma call_function id f y :
  inert id → id ≠ lit "function" →
  ∃ z, find_json_value (call_open id f ++ y) (lit "function") 128 = Some (123 :: 34 :: lit "name" ++ 34 :: z).
Proof.
  intros Hi Hne. unfold call_open. rewrite <- !app_assoc. eval_lits. cbn [app]. do 6 find_step.
  set (tl := f ++ _). change (∃ z, find_json_value (34 :: id ++ 34 :: jlit ",'type':'function','function':{'name':'" ++ tl)
    (lit "function") 128 = Some (123 :: 34 :: lit "name" ++ 34 :: z)).
  rewrite find_other by (auto || lit_forall || (cbn; lia)). eval_lits. cbn [app]. do 9 find_step.
  rewrite find_match by reflexivity.
  change (strchr _ 58) with (Some 21%nat). cbn [mbind option_bind drop].
  change (drop 22 _) with (123 :: jlit "'name':'" ++ tl). rewrite value_at_plain by done.
  change ((123 =? 123) || (123 =? 91)) with true. cbv iota.
  change (bracketed 0 _) with (bracketed 0 (123 :: jlit "'name':'" ++ tl)).
  assert (bracketed 0 (123 :: jlit "'name':'" ++ tl) = 123 :: jlit "'name':'" ++ bracketed 1 tl) as ->.
  { rewrite <- bracketed_skip by (done || lit_forall). done. }
  eval_lits. cbn [app Nat.sub take]. eauto.
Qed.

Lemma openai_call_name id f y idx r :
  inert id → id ≠ lit "function" → slot_name r idx = [] →
  ∃ args, openai_call (call_open id f ++ y) idx r =
    (set_calls r (<[idx := (lit "name", args)]> (tool_calls r)) (S (call_count r)), S idx).
Proof.
  intros Hi Hne Hs. destruct (call_function id f y Hi Hne) as [z Hz]. unfold openai_call. rewrite Hz.
  change (strchr (123 :: 34 :: lit "name" ++ 34 :: z) 34) with (Some 1%nat). cbv iota zeta.
  change (drop 2 (123 :: 34 :: lit "name" ++ 34 :: z)) with (lit "name" ++ 34 :: z).
  change (strchr (lit "name" ++ 34 :: z) 34) with (Some 4%nat). rewrite Hs. cbv iota.
  change (4 <? TOOL_NAME_LEN)%nat with true. cbv iota. rewrite drop_nil, app_nil_r.
  change (take 4 (lit "name" ++ 34 :: z)) with (lit "name"). eauto.
Qed.

(** The objects that follow are written to later slots. *)
Lemma openai_call_keeps call idx r r' idx' :
  openai_call call idx r = (r', idx') →
  (idx ≤ idx')%nat ∧ (call_count r ≤ call_count r')%nat ∧ ∀ j, (j < idx)%nat → tool_calls r' !! j = tool_calls r !! j.
Proof.
  unfold openai_call. destruct (find_json_value _ _ _); [|by intros [= <- <-]].
  intros [= <- <-]. cbn [set_calls call_count tool_calls]. split_and!; [lia..|].
  intros j Hj. rewrite list_lookup_insert_ne by lia. done.
Qed.

Lemma openai_calls_total fuel arr e p idx r :
  (0 < fuel)%nat → (match p with Some p => length arr < fuel + p | None => True end)%nat →
  ∃ r', openai_calls fuel arr e p idx r = Some r' ∧ (call_count r ≤ call_count r')%nat ∧
    ∀ j, (j < idx)%nat → tool_calls r' !! j = tool_calls r !! j.
Proof.
  revert p idx r. induction fuel as [|fuel IH]; intros p idx r Hf Hp; [lia|]. cbn [openai_calls].
  destruct p as [p|]; [|by exists r]. destruct (_ && _); [|by exists r].
  destruct (strchr (drop p arr) 125) as [k|] eqn:Ek; [|by exists r].
  assert (p + k < length arr)%nat as Hk.
  { apply strchr_lt in Ek. rewrite length_drop in Ek. lia. }
  set (next := (λ d, _) <$> _).
  assert (match next with Some q => length arr < fuel + q | None => True end)%nat as Hn.
  { unfold next. destruct (strchr _ 123); cbn [fmap option_fmap option_map]; [lia|done]. }
  destruct (if (S k <? TOOL_ARGS_LEN)%nat then _ else _) as [r1 idx1] eqn:Ec.
  assert ((idx ≤ idx1)%nat ∧ (call_count r ≤ call_count r1)%nat ∧
          ∀ j, (j < idx)%nat → tool_calls r1 !! j = tool_calls r !! j) as (Hi & Hc & Hj).
  { destruct (_ <? _)%nat; [by eapply openai_call_keeps|]. by injection Ec as <- <-. }
  destruct (IH next idx1 r1) as (r' & -> & Hc' & Hj'); [destruct next; lia|done|].
  exists r'. split_and!; [done|lia|]. intros j Hlt. rewrite Hj' by lia. by apply Hj.
Qed.

Lemma calls_step fuel arr e p k idx r :
  (idx < MAX_TOOL_CALLS)%nat → (p < e)%nat → strchr (drop p arr) 125 = Some k → (S k < CALL_LEN)%nat →
  openai_calls (S fuel) arr e (Some p) idx r =
  let '(r, idx) := openai_call (take (S k) (drop p arr)) idx r in
  openai_calls fuel arr e ((λ d, p + S k + d)%nat <$> strchr (drop (p + S k) arr) 123) idx r.
Proof.
  intros Hi Hp Hk Hl. cbn [openai_calls].
  rewrite (proj2 (Nat.ltb_lt _ _) Hi), (proj2 (Nat.ltb_lt _ _) Hp). cbn [andb]. rewrite Hk.
  change TOOL_ARGS_LEN with CALL_LEN. by rewrite (proj2 (Nat.ltb_lt _ _) Hl).
Qed.

Lemma call_open_no c id f :
  c = 125 ∨ c = 93 → inert id → inert f → Forall (λ b, b ≠ c) (call_open id f).
Proof.
  intros Hc Hi Hf. assert (∀ v, inert v → Forall (λ b, b ≠ c) v) as Hin.
  { intros v Hv. eapply Forall_impl; [exact Hv|]. unfold no_bracket. intros b. cbn beta. lia. }
  unfold call_open. repeat (apply Forall_app; split); auto; destruct Hc as [-> | ->]; lit_forall.
Qed.

(** The first closing brace of a call comes behind its opening. *)
Lemma call_close id f args post :
  inert id → inert f →
  let s := call_open id f ++ args ++ jlit "'}}]" ++ post in
  ∃ k y, strchr s 125 = Some k ∧ (k ≤ length (call_open id f ++ args) + 1)%nat ∧ take (S k) s = call_open id f ++ y.
Proof.
  intros Hi Hf s. unfold s. rewrite strchr_app_not by (apply call_open_no; auto).
  assert (∃ j, strchr (args ++ jlit "'}}]" ++ post) 125 = Some j ∧ (j ≤ length args + 1)%nat) as (j & -> & Hj).
  { clear. induction args as [|b a IH]; cbn [app length]; [by exists 1%nat|]. cbn [strchr].
    destruct (b =? 125); [exists O; split; [done|lia]|]. destruct IH as (j & -> & ?). exists (S j). split; [done|lia]. }
  cbn [fmap option_fmap option_map]. do 2 eexists. split; [done|]. rewrite length_app. split; [lia|].
  rewrite take_app, take_ge by lia. done.
Qed.

(** The tool name taken from an OpenAI reply is the first key of the function
    object: whatever function the model asks for, and whatever its arguments
    (without a closing bracket), the first call of a reply in the documented
    form of at most 4096 bytes is recorded under the name [name]. *)
Theorem openai_tool_name_is_key text i id f args post r :
  strstr text (jlit "'tool_calls'") = Some i →
  drop i text = jlit "'tool_calls':[" ++ call_open id f ++ args ++ jlit "'}}]" ++ post →
  inert id → id ≠ lit "function" → inert f → Forall (λ b, b ≠ 93) args →
  tool_calls r = replicate MAX_TOOL_CALLS ([], []) →
  (length (call_open id f ++ args) + 5 ≤ CALL_LEN)%nat →
  ∃ r', openai_tool_calls text r = Some r' ∧ slot_name r' 0 = lit "name" ∧ (0 < call_count r')%nat.
Proof.
  intros Hi Hd Hid Hne Hf Hargs Hr Hl. unfold openai_tool_calls. rewrite Hi, Hd.
  pose proof (call_close id f args post Hid Hf) as (k & y & Hk & Hkl & Hy). cbv zeta in Hk, Hy.
  set (n := length (call_open id f ++ args)) in *.
  set (s := call_open id f ++ args ++ jlit "'}}]" ++ post) in *.
  assert (strchr s 93 = Some (n + 3)%nat) as H93.
  { replace s with ((call_open id f ++ args ++ jlit "'}}") ++ 93 :: post) by (unfold s; by rewrite <- !app_assoc).
    rewrite strchr_app; [unfold n; rewrite !length_app; f_equal; cbn [length jlit lit map]; lia|].
    apply Forall_app. split; [apply call_open_no; auto|]. apply Forall_app. split; [done|lit_forall]. }
  assert (jlit "'tool_calls':[" ++ s = jlit "'tool_calls':" ++ 91 :: s) as -> by done.
  rewrite strchr_app by lit_forall. cbv zeta. rewrite drop_app_length.
  assert (strchr (91 :: s) 93 = Some (n + 4)%nat ∧ strchr (91 :: s) 123 = Some 1%nat) as [-> ->].
  { split; [cbn [strchr Z.eqb Pos.eqb]; rewrite H93; cbn; f_equal; lia|done]. }
  rewrite (proj2 (Nat.ltb_lt _ RESPONSE_LEN)) by (unfold RESPONSE_LEN, CALL_LEN in *; lia).
  rewrite (proj2 (Nat.ltb_ge CALL_LEN _)) by lia.
  rewrite (calls_step _ (91 :: s) _ 1 k); [|unfold MAX_TOOL_CALLS; lia|lia|exact Hk|lia].
  change (drop 1 (91 :: s)) with s. rewrite Hy.
  destruct (openai_call_name id f y O (set_calls r (tool_calls r) 0) Hid Hne) as [a ->].
  { unfold slot_name. cbn [set_calls tool_calls]. by rewrite Hr. }
  cbv iota beta. set (r1 := set_calls _ _ _).
  destruct (openai_calls_total (length (91 :: s)) (91 :: s) (n + 4)
              ((λ d, 1 + S k + d)%nat <$> strchr (drop (1 + S k) (91 :: s)) 123) 1 r1) as (r' & -> & Hc & Hj).
  { cbn; lia. }
  { destruct (strchr _ 123); cbn [fmap option_fmap option_map length]; [lia|done]. }
  exists r'. split_and!; [done| |unfold r1 in Hc; cbn in Hc; lia].
  unfold slot_name. rewrite Hj by lia. unfold r1. cbn [set_calls tool_calls]. by rewrite Hr.
Qed.

(** ** Replies to read *)

Definition openai_reply : cstr :=
  jlit "{'choices':[{'message':{'content':null,'tool_calls':[{'id':'call_1','type':'function','function':{'name':'shell','arguments':'{\'command\':\'ls\'}'}}]}}],'usage':{'prompt_tokens':12,'completion_tokens':30,'total_tokens':42}}".
Definition anthropic_reply : cstr :=
  jlit "{'id':'msg_1','content':[{'type':'tool_use','id':'toolu_1','name':'shell','input':{'command':'ls'}}],'stop_reason':'tool_use'}".
Definition gemini_reply : cstr :=
  jlit "{'candidates':[{'content':{'parts':[{'text':'Hello'}],'role':'model'}}]}".

Definition reply_with (t : cstr) : list transfer := [mk_transfer [t] true 200].
Definition idle_calls : calls_state := mk_calls ready (mk_backend false []) model_zero [].
Definition hello_context : chat_context_t :=
  mk_context (Some [fmt_message (lit "user") (lit "hello")]) 32 32 (f64_const 7 10) 4096 false.

(** No local model is installed. *)
#[global] Instance no_llama : LlamaLib (list transfer) := {
  dlopen w _ := (w, false);
  dlsym w _ := false;
  lib_init_from_file w _ := (w, None);
  lib_free_ctx w _ := w;
  lib_tokenize w _ _ _ := (w, -1, []);
  lib_reset_kv_cache w _ := w;
  lib_eval w _ _ _ _ := (w, -1);
  lib_token_eos w := 0;
  lib_n_vocab w _ := 0;
  lib_get_logits w _ := None;
  lib_token_to_str w _ _ := None;
}.

Lemma usage_counts_exact_witness :
  openai_usage openai_reply chat_response_zero = set_tokens chat_response_zero 42 12 30.
Proof.
  apply (usage_counts_exact openai_reply (default O (strstr openai_reply (jlit "'usage'"))) [125] 12 30 42);
    [by_eval..|lia|lia|lia|vm_compute; lia].
Defined.

(** Four digits in each count and the total loses three of them. *)
Example usage_total_cut :
  openai_usage (jlit "{'usage':" ++ usage_text 1000 1000 2000 ++ lit "}") chat_response_zero =
  set_tokens chat_response_zero 2 1000 1000.
Proof. by_eval. Qed.

Lemma anthropic_tool_call_read_witness :
  anthropic_tool_calls anthropic_reply chat_response_zero =
  Some (set_calls chat_response_zero
          (<[O := (lit "shell", jlit "{'command':'ls'}")]> (tool_calls chat_response_zero)) 1).
Proof.
  apply (anthropic_tool_call_read anthropic_reply (default O (strstr anthropic_reply (jlit "'content'")))
           (lit "toolu_1") (lit "shell") (jlit "'command':'ls'") (jlit ",'stop_reason':'tool_use'}"));
    [by_eval|by_eval|unfold inert; lit_forall|unfold inert; lit_forall|lit_forall|apply (bool_decide_unpack _); by_eval|done|done
    |cbn; unfold TOOL_NAME_LEN; lia|cbn; unfold CALL_LEN; lia].
Defined.

Lemma openai_tool_name_is_key_witness :
  ∃ r', openai_tool_calls openai_reply chat_response_zero = Some r' ∧ slot_name r' 0 = lit "name" ∧ (0 < call_count r')%nat.
Proof.
  apply (openai_tool_name_is_key openai_reply (default O (strstr openai_reply (jlit "'tool_calls'")))
           (lit "call_1") (lit "shell") (jlit "{\'command\':\'ls\'}")
           (jlit "}}],'usage':{'prompt_tokens':12,'completion_tokens':30,'total_tokens':42}}"));
    [by_eval|by_eval|unfold inert; lit_forall|done|unfold inert; lit_forall|lit_forall|done|cbn; unfold CALL_LEN; lia].
Defined.

Lemma gemini_answers_are_lost_witness :
  ∃ w s r, provider_chat_completion (λ _, None) 100 101 (reply_with gemini_reply) idle_calls PROVIDER_GEMINI []
             (Some (lit "key")) hello_context = Some (w, s, r, 0) ∧ resp_content r = [] ∧ resp_done r = true.
Proof.
  destruct (provider_chat_completion (λ _, None) 100 101 (reply_with gemini_reply) idle_calls PROVIDER_GEMINI []
             (Some (lit "key")) hello_context) as [[[[w s] r] rc]|] eqn:E; [|by vm_compute in E].
  assert (rc = 0) as -> by (vm_compute in E; congruence).
  exists w, s, r. split; [done|].
  destruct (gemini_answers_are_lost (λ _, None) 100 101 (reply_with gemini_reply) idle_calls [] (Some (lit "key"))
              hello_context w s r 0 E eq_refl) as (H1 & H2 & _). done.
Defined.

(** A network on which nothing is answered. *)
Definition dead_net : Curl unit := {| curl_easy_init w := (w, true); curl_easy_perform w _ := (w, mk_transfer [] false 0) |}.
Definition dead_llama : LlamaLib unit := {|
  dlopen w _ := (w, false); dlsym w _ := false; lib_init_from_file w _ := (w, None); lib_free_ctx w _ := w;
  lib_tokenize w _ _ _ := (w, -1, []); lib_reset_kv_cache w _ := w; lib_eval w _ _ _ _ := (w, -1);
  lib_token_eos w := 0; lib_n_vocab w _ := 0; lib_get_logits w _ := None; lib_token_to_str w _ _ := None |}.

Lemma provider_failures_explained_witness :
  @stopped unit (@provider_chat_completion unit dead_net dead_llama (λ _, None) 100 101 tt idle_calls PROVIDER_OLLAMA
    (lit "llama3") None hello_context) ∧
  @stopped unit (@provider_chat_with_tools unit dead_net (λ _, None) tt idle_calls PROVIDER_OLLAMA
    (lit "llama3") None hello_context None).
Proof.
  apply (@provider_failures_explained unit dead_net dead_llama (λ _, None) 100 101 tt idle_calls PROVIDER_OLLAMA
    (lit "llama3") None hello_context None); [done| |done].
  split; [done|vm_compute; lia].
Defined.

Lemma openrouter_tools_sent_to_openai_witness :
  ∃ msgs, messages_text hello_context = Some msgs ∧
  provider_chat_with_tools (λ _, None) (reply_with openai_reply) idle_calls PROVIDER_OPENROUTER (lit "m") (Some (lit "k"))
    hello_context None =
  provider_chat_with_tools (λ _, None) (reply_with openai_reply) idle_calls PROVIDER_OPENAI (lit "m") (Some (lit "k"))
    hello_context None.
Proof.
  destruct (messages_text hello_context) as [msgs|] eqn:E; [|by vm_compute in E]. exists msgs. split; [done|].
  apply (openrouter_tools_sent_to_openai (λ _, None) (reply_with openai_reply) idle_calls (lit "m") (lit "k") hello_context
           None msgs (reply_with openai_reply) [] (mk_transfer [openai_reply] true 200)); done.
Defined.
