(* ===== verification/Regex.v ===== *)
(** * The regular expressions of the C library

    [regcomp] and [regexec] of [<regex.h>] for the fragment of extended
    regular expressions that [src/agent/agent.c] uses: bytes, escapes, the
    class of white space [\s], negated brackets of one byte, the repetitions
    [*] and [+] of a single byte class, and groups that are neither nested nor
    repeated.  Anything else is refused by [regcomp] here.

    A match is the list of the lengths its atoms take.  [regexec] enumerates
    the matches at a place and takes the longest, the first among equals; the
    theorem [regexec_posix] shows that this is the rule of POSIX: the leftmost
    match, the longest there, and then every part from left to right as long
    as it can be. *)
From stdpp Require Import sorting.
From S2P Require Import Prelude.

Inductive rep := Once | Star | Plus.

(** A class of bytes with its repetition, in group [a_group] (0: in none). *)
Record atom := mk_atom { a_class : Z → bool; a_rep : rep; a_group : nat }.

Abbreviation regex_t := (list atom).

(** ** [regcomp] *)

(** What the reader of a pattern has just seen; [Ready q]: nothing pending,
    and a repetition may follow when [q]. *)
Inductive comp_state := Ready (q : bool) | Escape | Bracket | Negated | Closing (c : Z).

Definition is_char (c : Z) (b : Z) : bool := b =? c.
Definition not_char (c : Z) (b : Z) : bool := negb (b =? c).

Definition set_rep (k : rep) (acc : list atom) : option (list atom) :=
  match acc with
  | a :: acc' => Some (mk_atom (a_class a) k (a_group a) :: acc')
  | [] => None
  end.

(** [g] is the open group, [n] the number of groups so far, [acc] the atoms
    read, newest first. *)
Fixpoint comp (st : comp_state) (g n : nat) (acc : list atom) (s : cstr) : option regex_t :=
  match s, st with
  | [], Ready _ => match g with O => Some (reverse acc) | _ => None end
  | [], _ => None
  | c :: s', Ready q =>
      if c =? ch "\" then comp Escape g n acc s'
      else if c =? ch "[" then comp Bracket g n acc s'
      else if c =? ch "(" then
        match g with O => comp (Ready false) (S n) (S n) acc s' | _ => None end
      else if c =? ch ")" then
        match g with O => None | _ => comp (Ready false) O n acc s' end
      else if c =? ch "*" then
        if q then acc' ← set_rep Star acc; comp (Ready false) g n acc' s' else None
      else if c =? ch "+" then
        if q then acc' ← set_rep Plus acc; comp (Ready false) g n acc' s' else None
      else if existsb (Z.eqb c) (lit ".?|{^$") then None
      else comp (Ready true) g n (mk_atom (is_char c) Once g :: acc) s'
  | c :: s', Escape =>
      if c =? ch "s" then comp (Ready true) g n (mk_atom isspace Once g :: acc) s'
      else if existsb (Z.eqb c) (lit "{}()[]*+.?|\^$")
      then comp (Ready true) g n (mk_atom (is_char c) Once g :: acc) s'
      else None
  | c :: s', Bracket => if c =? ch "^" then comp Negated g n acc s' else None
  | c :: s', Negated => comp (Closing c) g n acc s'
  | c' :: s', Closing c =>
      if c' =? ch "]" then comp (Ready true) g n (mk_atom (not_char c) Once g :: acc) s' else None
  end.

Definition regcomp (pattern : cstr) : option regex_t := comp (Ready false) O O [] pattern.

(** ** [regexec] *)

(** The bytes at the front that are in the class. *)
Definition run (f : Z → bool) (s : cstr) : nat := length (take_while f s).

(** [n], [n-1], ..., 1. *)
Fixpoint down_from (n : nat) : list nat :=
  match n with
  | O => []
  | S n' => n :: down_from n'
  end.

(** The lengths an atom can take, longest first. *)
Definition lengths (a : atom) (s : cstr) : list nat :=
  let n := run (a_class a) s in
  match a_rep a with
  | Once => if (0 <? n)%nat then [1%nat] else []
  | Star => down_from n ++ [O]
  | Plus => down_from n
  end.

Fixpoint splits (r : regex_t) (s : cstr) : list (list nat) :=
  match r with
  | [] => [[]]
  | a :: r' => flat_map (λ n, map (cons n) (splits r' (drop n s))) (lengths a s)
  end.

(** The longest of the matches, the first of them when there are several. *)
Fixpoint longest (ls : list (list nat)) : option (list nat) :=
  match ls with
  | [] => None
  | l :: ls' =>
      match longest ls' with
      | Some l' => if (sum_list l <? sum_list l')%nat then Some l' else Some l
      | None => Some l
      end
  end.

(** The offset of the match and the lengths of its atoms. *)
Fixpoint regexec (r : regex_t) (s : cstr) : option (nat * list nat) :=
  match longest (splits r s) with
  | Some l => Some (O, l)
  | None =>
      match s with
      | [] => None
      | _ :: s' => '(i, l) ← regexec r s'; Some (S i, l)
      end
  end.

Record regmatch_t := mk_regmatch { rm_so : nat; rm_eo : nat }.

(** The first and the last byte of group [g] of a match that starts at [at]. *)
Fixpoint group_from (g : nat) (r : regex_t) (l : list nat) (pos : nat) : option regmatch_t :=
  match r, l with
  | a :: r', n :: l' =>
      let rest := group_from g r' l' (pos + n) in
      if (a_group a =? g)%nat then
        Some (mk_regmatch pos (match rest with Some m => rm_eo m | None => pos + n end))
      else rest
  | _, _ => None
  end.

(** [matches[0]] and [matches[g]]. *)
Definition whole (m : nat * list nat) : regmatch_t := mk_regmatch m.1 (m.1 + sum_list m.2).
Definition group (g : nat) (r : regex_t) (m : nat * list nat) : regmatch_t :=
  default (mk_regmatch O O) (group_from g r m.2 m.1).

(** The bytes between the two offsets. *)
Definition matched (s : cstr) (m : regmatch_t) : cstr := take (rm_eo m - rm_so m) (drop (rm_so m) s).

(** ** What a match is *)

Definition rep_ok (k : rep) (n : nat) : Prop :=
  match k with Once => n = 1%nat | Star => True | Plus => (0 < n)%nat end.

Inductive Match : regex_t → list nat → cstr → Prop :=
  | Match_nil s : Match [] [] s
  | Match_cons a r n l s :
      (n ≤ length s)%nat → Forall (λ b, a_class a b = true) (take n s) → rep_ok (a_rep a) n →
      Match r l (drop n s) → Match (a :: r) (n :: l) s.

(** [l'] gives some part less than [l] does, and those to its left as much. *)
Fixpoint lex_lt (l' l : list nat) : Prop :=
  match l', l with
  | n' :: l1', n :: l1 => (n' < n)%nat ∨ (n' = n ∧ lex_lt l1' l1)
  | _, _ => False
  end.

(** The order in which POSIX prefers matches at one place. *)
Definition better (l l' : list nat) : Prop :=
  (sum_list l' < sum_list l)%nat ∨ (sum_list l' = sum_list l ∧ lex_lt l' l).

(** ** The enumeration is complete and in order *)

Lemma elem_of_down_from m n : m ∈ down_from n ↔ (0 < m ≤ n)%nat.
Proof.
  induction n as [|n IH]; cbn [down_from]; [rewrite elem_of_nil; lia|].
  rewrite elem_of_cons, IH. lia.
Qed.

Lemma run_spec f s n : (n ≤ run f s)%nat ↔ (n ≤ length s)%nat ∧ Forall (λ b, f b = true) (take n s).
Proof.
  unfold run. revert n. induction s as [|b s IH]; intros n; cbn [take_while length].
  - split; [intros Hn; split; [done|]; by rewrite take_nil | tauto].
  - destruct n as [|n]; [cbn [take]; split; [intros _; split; [lia | constructor] | lia]|].
    cbn [take]. rewrite Forall_cons. destruct (f b); cbn [length].
    + specialize (IH n). rewrite <- !Nat.succ_le_mono, IH. tauto.
    + split; [lia | intros (_ & ? & _); done].
Qed.

Lemma elem_of_lengths a s n :
  n ∈ lengths a s ↔ (n ≤ length s)%nat ∧ Forall (λ b, a_class a b = true) (take n s) ∧ rep_ok (a_rep a) n.
Proof.
  pose proof (run_spec (a_class a) s n) as Hr. unfold lengths. destruct (a_rep a); cbn [rep_ok].
  - pose proof (run_spec (a_class a) s 1) as H1. destruct (Nat.ltb_spec 0 (run (a_class a) s)).
    + rewrite list_elem_of_singleton. split; [intros ->; apply H1 in H as [? ?]; done | tauto].
    + rewrite elem_of_nil. split; [done|]. intros (? & ? & ->). assert (1 ≤ run (a_class a) s)%nat by tauto. lia.
  - rewrite elem_of_app, elem_of_down_from, list_elem_of_singleton. destruct (decide (n = O)) as [-> |]; [|intuition lia].
    split; [intros _ | tauto]. cbn [take]. split_and!; [lia | constructor | done].
  - rewrite elem_of_down_from. tauto.
Qed.

Lemma elem_of_splits r : ∀ l s, l ∈ splits r s ↔ Match r l s.
Proof.
  induction r as [|a r IH]; intros l s; cbn [splits].
  - rewrite list_elem_of_singleton. split; [intros ->; constructor | by inversion 1].
  - rewrite list_elem_of_In, in_flat_map. split.
    + intros (n & Hn & Hl). apply list_elem_of_In, elem_of_lengths in Hn as (? & ? & ?).
      apply list_elem_of_In, list_elem_of_fmap in Hl as (l' & -> & Hl'). constructor; try done. by apply IH.
    + inversion 1 as [|? ? n l' ? Hn Hf Hk Hm]; subst. exists n.
      split; apply list_elem_of_In; [by apply elem_of_lengths|]. apply list_elem_of_fmap. exists l'. split; [done | by apply IH].
Qed.

(** The matches come in decreasing order. *)
Abbreviation later := (λ l l', lex_lt l' l).

Lemma down_from_sorted n : StronglySorted (λ a b, (b < a)%nat) (down_from n).
Proof.
  induction n as [|n IH]; cbn [down_from]; constructor; [done|].
  apply Forall_forall. intros m Hm%elem_of_down_from. lia.
Qed.

Lemma lengths_sorted a s : StronglySorted (λ a b, (b < a)%nat) (lengths a s).
Proof.
  unfold lengths. destruct (a_rep a); [case_if; repeat constructor | | apply down_from_sorted].
  apply StronglySorted_app_2; [| apply down_from_sorted | repeat constructor].
  intros x y Hx Hy. apply list_elem_of_singleton in Hy as ->. apply elem_of_down_from in Hx. lia.
Qed.

Lemma splits_sorted r : ∀ s, StronglySorted later (splits r s).
Proof.
  induction r as [|a r IH]; intros s; cbn [splits]; [repeat constructor|].
  induction (lengths_sorted a s) as [|n ns _ IHn Hn]; cbn [flat_map]; [constructor|].
  apply StronglySorted_app_2; [| |done].
  - intros l l' (l1 & -> & _)%list_elem_of_fmap Hl'.
    apply list_elem_of_In, in_flat_map in Hl' as (n' & Hn' & Hl').
    apply list_elem_of_In, list_elem_of_fmap in Hl' as (l2 & -> & _). cbn [lex_lt]. left.
    rewrite Forall_forall in Hn. apply Hn. by apply list_elem_of_In.
  - specialize (IH (drop n s)). induction IH as [|l ls _ IHl Hl]; cbn [map]; constructor; [done|].
    apply Forall_map. eapply Forall_impl; [exact Hl|]. cbn. auto.
Qed.

Lemma longest_best ls l :
  StronglySorted later ls → longest ls = Some l → l ∈ ls ∧ ∀ l', l' ∈ ls → l' = l ∨ better l l'.
Proof.
  intros Hs. revert l. induction Hs as [|x ls _ IH Hx]; intros l; cbn [longest]; [done|].
  rewrite Forall_forall in Hx. destruct (longest ls) as [y|] eqn:E.
  - destruct (IH y eq_refl) as [Hy Hb]. destruct (Nat.ltb_spec (sum_list x) (sum_list y)); intros [= <-].
    + split; [by right|]. intros l' [-> | Hl']%elem_of_cons; [|by apply Hb]. right. by left.
    + split; [by left|]. intros l' [-> | Hl']%elem_of_cons; [by left|]. right.
      specialize (Hx l' Hl'). unfold better.
      destruct (Hb l' Hl') as [-> | [? | [? _]]]; [destruct (decide (sum_list y = sum_list x)); [right; auto | left; lia] | left; lia |].
      destruct (decide (sum_list l' = sum_list x)); [right; auto | left; lia].
  - intros [= <-]. split; [by left|]. intros l' [-> | Hl']%elem_of_cons; [by left|].
    destruct ls as [|z ls]; [by apply elem_of_nil in Hl'|]. cbn [longest] in E.
    destruct (longest ls) as [w|]; [destruct (sum_list z <? sum_list w)%nat; done | done].
Qed.

Lemma longest_None ls : longest ls = None ↔ ls = [].
Proof. destruct ls as [|l ls]; cbn [longest]; [done|]. split; [|done]. destruct (longest ls); [case_if|]; done. Qed.

Lemma lex_lt_asym l : ∀ l', lex_lt l l' → ¬ lex_lt l' l.
Proof.
  induction l as [|n l IH]; intros [|n' l']; cbn [lex_lt]; try tauto. intros [?|[-> H]] [?|[? H']]; try lia. by eapply IH.
Qed.

Lemma better_asym l l' : better l l' → ¬ better l' l.
Proof. intros [?|[? H1]] [?|[? H2]]; try lia. by eapply lex_lt_asym in H1. Qed.

(** The best match of a pattern at the front of a text. *)
Definition best_match (r : regex_t) (s : cstr) (l : list nat) : Prop :=
  Match r l s ∧ ∀ l', Match r l' s → l' = l ∨ better l l'.

Lemma longest_splits r s l : longest (splits r s) = Some l ↔ best_match r s l.
Proof.
  assert (∀ l, longest (splits r s) = Some l → best_match r s l) as Hf.
  { intros l1 H1. destruct (longest_best _ _ (splits_sorted r s) H1) as [Hl Hb].
    split; [by apply elem_of_splits|]. intros l' Hl'. apply Hb. by apply elem_of_splits. }
  split; [apply Hf|]. intros [Hm Hb]. destruct (longest (splits r s)) as [l1|] eqn:E.
  - destruct (Hf l1 eq_refl) as [Hm1 Hb1]. f_equal. destruct (Hb1 l Hm) as [-> | H1]; [done|].
    destruct (Hb l1 Hm1) as [-> | H2]; [done|]. by eapply better_asym in H1.
  - apply longest_None in E. apply elem_of_splits in Hm. rewrite E in Hm. by apply elem_of_nil in Hm.
Qed.

Lemma longest_splits_None r s : longest (splits r s) = None ↔ ∀ l, ¬ Match r l s.
Proof.
  rewrite longest_None. split.
  - intros E l Hl%elem_of_splits. rewrite E in Hl. by apply elem_of_nil in Hl.
  - intros Hn. destruct (splits r s) as [|l ls] eqn:E; [done|]. destruct (Hn l). apply elem_of_splits. rewrite E. by left.
Qed.

(** [regexec] finds the match POSIX asks for: the leftmost place with a
    match, and there the longest, with every part from left to right as long
    as possible; it finds none exactly when there is none. *)
Theorem regexec_posix r s :
  (∀ i l, regexec r s = Some (i, l) ↔
     (i ≤ length s)%nat ∧ best_match r (drop i s) l ∧ ∀ j l', (j < i)%nat → ¬ Match r l' (drop j s)) ∧
  (regexec r s = None ↔ ∀ j l, (j ≤ length s)%nat → ¬ Match r l (drop j s)).
Proof.
  split; [intros i l; split|].
  - revert i l. induction s as [|b s IH]; intros i l; cbn [regexec]; destruct (longest (splits r _)) as [l1|] eqn:E; try done.
    + intros [= <- <-]. rewrite drop_0. apply longest_splits in E. split_and!; [lia | done | lia].
    + intros [= <- <-]. rewrite drop_0. apply longest_splits in E. split_and!; [lia | done | lia].
    + destruct (regexec r s) as [[i1 l1]|]; [|done]. intros [= <- <-].
      destruct (IH i1 l1 eq_refl) as (Hi & Hb & Hn). cbn [length drop]. split_and!; [lia | done |].
      intros [|j] l' Hj; [apply longest_splits_None; by rewrite drop_0 | cbn [drop]; apply Hn; lia].
  - intros (Hi & Hb & Hn). revert i Hi Hb Hn. induction s as [|b s IH]; intros i Hi Hb Hn; cbn [regexec].
    + destruct i; [|cbn [length] in Hi; lia]. rewrite drop_0 in Hb. apply longest_splits in Hb. by rewrite Hb.
    + destruct i as [|i]; [rewrite drop_0 in Hb; apply longest_splits in Hb; by rewrite Hb|].
      rewrite (proj2 (longest_splits_None r (b :: s))) by (intros l'; specialize (Hn O l'); rewrite drop_0 in Hn; apply Hn; lia).
      rewrite (IH i); [done | cbn [length] in Hi; lia | done |]. intros j l' Hj. apply (Hn (S j)). lia.
  - induction s as [|b s IH]; cbn [regexec]; destruct (longest (splits r _)) as [l1|] eqn:E.
    + split; [done|]. intros Hn. apply longest_splits in E as [E _]. by destruct (Hn O l1).
    + split; [|done]. intros _ j l Hj. destruct j; [|cbn [length] in Hj; lia]. by apply longest_splits_None.
    + split; [done|]. intros Hn. apply longest_splits in E as [E _]. destruct (Hn O l1); [lia | done].
    + transitivity (regexec r s = None); [destruct (regexec r s) as [[? ?]|]; done|]. rewrite IH. split.
      * intros Hn [|j] l Hj; [by apply longest_splits_None | apply Hn; cbn [length] in Hj; lia].
      * intros Hn j l Hj. apply (Hn (S j)). cbn [length]. lia.
Qed.

(** ** Matching with literal parts *)

(** The atoms of a literal text outside of groups. *)
Definition lits (p : cstr) : regex_t := map (λ c, mk_atom (is_char c) Once O) p.

Lemma Match_cons_inv a r l s :
  Match (a :: r) l s →
  ∃ n l', l = n :: l' ∧ (n ≤ length s)%nat ∧ Forall (λ b, a_class a b = true) (take n s) ∧ rep_ok (a_rep a) n ∧
    Match r l' (drop n s).
Proof. inversion 1; subst; eauto 10. Qed.

Lemma Match_char c g r l s :
  Match (mk_atom (is_char c) Once g :: r) l s ↔ ∃ s' l', s = c :: s' ∧ l = 1%nat :: l' ∧ Match r l' s'.
Proof.
  split.
  - inversion 1 as [|? ? n l' ? Hn Hf Hk Hm]; subst. cbn [rep_ok a_rep] in Hk. subst n.
    destruct s as [|b s]; [cbn [length] in Hn; lia|]. cbn [take drop] in *.
    inversion Hf as [|? ? Hb]; subst. apply Z.eqb_eq in Hb. cbn in Hb. subst b. eauto.
  - intros (s' & l' & -> & -> & Hm). constructor; [cbn [length]; lia | | done | done].
    cbn [take a_class]. constructor; [|constructor]. apply Z.eqb_refl.
Qed.

Lemma Match_lits p r l s :
  Match (lits p ++ r) l s ↔ ∃ s' l', s = p ++ s' ∧ l = replicate (length p) 1%nat ++ l' ∧ Match r l' s'.
Proof.
  revert l s. induction p as [|c p IH]; intros l s; cbn [lits map app length replicate].
  - naive_solver.
  - rewrite Match_char. setoid_rewrite IH. split.
    + intros (s1 & l1 & -> & -> & s' & l' & -> & -> & Hm). eauto.
    + intros (s' & l' & -> & -> & Hm). eauto 10.
Qed.

(** A repeated class up to a byte that ends it. *)
Lemma Match_run_to f k g c g' r l v rest :
  Forall (λ b, f b = true) v → f c = false →
  Match (mk_atom f k g :: mk_atom (is_char c) Once g' :: r) l (v ++ c :: rest) ↔
  rep_ok k (length v) ∧ ∃ l', l = length v :: 1%nat :: l' ∧ Match r l' rest.
Proof.
  intros Hv Hc. split.
  - inversion 1 as [|? ? n l1 ? Hn Hf Hk Hm]; subst. apply Match_char in Hm as (s' & l' & Hs & -> & Hm).
    assert (n = length v) as ->.
    { destruct (lt_eq_lt_dec n (length v)) as [[Hlt| ->]|Hlt]; [|done|].
      - rewrite drop_app_le in Hs by lia. assert (c ∈ v) as Hin.
        { rewrite <- (take_drop n v). apply elem_of_app. right. destruct (drop n v) as [|b v'] eqn:E.
          - apply (f_equal length) in E. rewrite length_drop in E. cbn [length] in E. lia.
          - injection Hs as -> _. by left. }
        rewrite Forall_forall in Hv. rewrite (Hv c Hin) in Hc. done.
      - assert (f c = true); [|congruence]. rewrite Forall_forall in Hf. apply Hf. cbn [a_class].
        rewrite take_app_ge by lia. destruct (n - length v)%nat as [|m] eqn:E; [lia|]. cbn [take].
        apply elem_of_app. right. by left. }
    rewrite drop_app_length in Hs. injection Hs as <-. eauto.
  - intros (Hk & l' & -> & Hm). constructor; [rewrite length_app; lia | by rewrite take_app_length | done |].
    rewrite drop_app_length. apply Match_char. eauto.
Qed.

(** A pattern whose first byte is fixed is looked for at that byte only. *)
Lemma regexec_skip c p r v s :
  Forall (λ b, b ≠ c) v →
  regexec (lits (c :: p) ++ r) (v ++ s) = (λ m, ((length v + m.1)%nat, m.2)) <$> regexec (lits (c :: p) ++ r) s.
Proof.
  induction 1 as [|b v Hb _ IH].
  - cbn [app length]. destruct (regexec _ s) as [[i l]|]; done.
  - cbn [app]. transitivity (x ← regexec (lits (c :: p) ++ r) (v ++ s); Some (S x.1, x.2)).
    + cbn [regexec]. rewrite (proj2 (longest_splits_None _ _)).
      * by destruct (regexec _ (v ++ s)) as [[? ?]|].
      * intros l (s' & l' & Hs & _)%Match_lits. cbn [app] in Hs. congruence.
    + rewrite IH. by destruct (regexec _ s) as [[i l]|].
Qed.

(** The next place, when there is no match at this one. *)
Lemma regexec_next r b s :
  (∀ l, ¬ Match r l (b :: s)) → regexec r (b :: s) = (λ m, (S m.1, m.2)) <$> regexec r s.
Proof. intros Hn%longest_splits_None. cbn [regexec]. rewrite Hn. by destruct (regexec r s) as [[? ?]|]. Qed.

Lemma regexec_here r s l : best_match r s l → regexec r s = Some (O, l).
Proof. intros Hb%longest_splits. destruct s; cbn [regexec]; by rewrite Hb. Qed.

Lemma regexec_never c p r s : Forall (λ b, b ≠ c) s → regexec (lits (c :: p) ++ r) s = None.
Proof.
  intros Hs. rewrite <- (app_nil_r s). rewrite regexec_skip by done.
  assert (regexec (lits (c :: p) ++ r) [] = None) as ->; [|done]. apply regexec_posix. intros j l _ Hm.
  rewrite drop_nil in Hm. by apply Match_lits in Hm as (? & ? & ? & _).
Qed.

Lemma best_match_only r s l : Match r l s → (∀ l', Match r l' s → l' = l) → best_match r s l.
Proof. intros Hm Hu. split; [done|]. intros l' Hl'. left. by apply Hu. Qed.

(** A match lies inside the text. *)
Lemma Match_fits r l s : Match r l s → (sum_list l ≤ length s)%nat ∧ length l = length r.
Proof.
  induction 1 as [|a r n l s Hn _ _ _ [IH1 IH2]]; cbn [sum_list sum_list_with length]; [lia|].
  rewrite length_drop in IH1. split; [change (n + sum_list l ≤ length s)%nat; lia | lia].
Qed.

Lemma group_from_fits g r : ∀ l pos m,
  length l = length r → group_from g r l pos = Some m →
  (pos ≤ rm_so m ≤ rm_eo m)%nat ∧ (rm_eo m ≤ pos + sum_list l)%nat.
Proof.
  induction r as [|a r IH]; intros [|n l] pos m Hl; cbn [group_from length] in *; try done.
  change (sum_list (n :: l)) with (n + sum_list l)%nat.
  destruct (group_from g r l (pos + n)) as [m'|] eqn:E.
  - apply IH in E; [|lia]. destruct (_ =? _)%nat; intros [= <-]; cbn [rm_so rm_eo]; lia.
  - destruct (_ =? _)%nat; intros [= <-]; cbn [rm_so rm_eo]; lia.
Qed.

Lemma regexec_fits r s m : regexec r s = Some m → (rm_eo (whole m) ≤ length s)%nat.
Proof.
  destruct m as [i l]. intros (Hi & [Hm _] & _)%regexec_posix. apply Match_fits in Hm as [Hm _].
  cbn [whole rm_eo fst snd]. rewrite length_drop in Hm. lia.
Qed.

Lemma regexec_pos c p r s m : regexec (lits (c :: p) ++ r) s = Some m → (0 < rm_eo (whole m))%nat.
Proof.
  destruct m as [i l]. intros (_ & [Hm _] & _)%regexec_posix. apply Match_lits in Hm as (? & l' & _ & -> & _).
  cbn [whole rm_eo fst snd length replicate app]. change (0 < i + (1 + sum_list (replicate (length p) 1 ++ l')))%nat. lia.
Qed.
