(* ===== verification/Dispatcher.v ===== *)
(** * The tool dispatchers of [src/agent/agent.c]

    The two parsers that read tool calls out of the text of a model, one for
    calls in [<tool_call>] tags and one for the [tool_calls] array of a JSON
    answer, both by regular expressions, and the text that takes the result of
    a tool back to the model.  A call is its name and its arguments; the third
    field of [parsed_tool_call_t], the identifier, is never written.

    Running out of memory in [regcomp] is not represented.  A [regexec] that
    finds nothing leaves [matches] as it was, as the C library does. *)
From S2P Require Import Prelude Regex.

Definition MAX_TOOL_CALLS : nat := 16.
Definition MAX_TOOL_ARGS : nat := Z.to_nat 4096.
Definition TOOL_NAME_LEN : nat := 128.

Inductive dispatcher_type_t := DISPATCHER_NATIVE | DISPATCHER_XML.

Abbreviation parsed_tool_call_t := (cstr * cstr)%type.

(** ** Calls in tags *)

Definition XML_PATTERN : cstr := lit "<tool_call>\s*([^<]+)\s*</tool_call>".
Definition NAME_PATTERN : cstr := jlit "'name'\s*:\s*'([^']+)'".
Definition ARGS_PATTERN : cstr := jlit "'arguments'\s*:\s*(\{[^}]+\})".

(** One of the inner searches: the text of the first group when it is shorter
    than [size], and [matches[0].rm_eo] afterwards. *)
Definition inner_search (pattern tool_xml : cstr) (size eo : nat) : cstr * nat :=
  match regcomp pattern with
  | None => ([], eo)
  | Some re =>
      match regexec re tool_xml with
      | None => ([], eo)
      | Some m =>
          let text := matched tool_xml (group 1 re m) in
          (if (length text <? size)%nat then text else [], rm_eo (whole m))
      end
  end.

(** The call in the text between two tags, and the value of
    [matches[0].rm_eo] after the inner searches have used [matches]. *)
Definition xml_call (tool_xml : cstr) (eo : nat) : parsed_tool_call_t * nat :=
  let '(name, eo) := inner_search NAME_PATTERN tool_xml TOOL_NAME_LEN eo in
  let '(args, eo) := inner_search ARGS_PATTERN tool_xml MAX_TOOL_ARGS eo in
  ((name, snprintf_s MAX_TOOL_ARGS args), eo).

(** The loop at [ptr], with [left] free calls.  The fuel is the length of the
    text: every round moves [ptr] ([xml_loop_unfold]). *)
Fixpoint xml_loop (fuel : nat) (re : regex_t) (ptr : cstr) (left : nat) : list parsed_tool_call_t :=
  match fuel, ptr, left with
  | S fuel', _ :: _, S left' =>
      match regexec re ptr with
      | None => []
      | Some m =>
          let tool_xml := matched ptr (group 1 re m) in
          if (length tool_xml <? MAX_TOOL_ARGS)%nat then
            let '(call, eo) := xml_call tool_xml (rm_eo (whole m)) in
            call :: xml_loop fuel' re (drop eo ptr) left'
          else xml_loop fuel' re (drop (rm_eo (whole m)) ptr) left
      end
  | _, _, _ => []
  end.

Definition parse_xml_tool_calls (response : cstr) : Z * list parsed_tool_call_t :=
  match regcomp XML_PATTERN with
  | None => (-1, [])
  | Some re => (0, xml_loop (length response) re response MAX_TOOL_CALLS)
  end.

(** ** Calls in a JSON answer *)

Definition NATIVE_PATTERN : cstr :=
  jlit "'function'\s*:\s*\{[^}]*'name'\s*:\s*'([^']+)'[^}]*'arguments'\s*:\s*(\{[^}]+\})".

Definition SECTION_LEN : nat := Z.to_nat 8192.

Fixpoint native_loop (fuel : nat) (re : regex_t) (ptr : cstr) (left : nat) : list parsed_tool_call_t :=
  match fuel, ptr, left with
  | S fuel', _ :: _, S left' =>
      match regexec re ptr with
      | None => []
      | Some m =>
          let name := matched ptr (group 1 re m) in
          let args := matched ptr (group 2 re m) in
          let ptr' := drop (rm_eo (group 2 re m)) ptr in
          if (length name <? TOOL_NAME_LEN)%nat && (length args <? MAX_TOOL_ARGS)%nat
          then (name, args) :: native_loop fuel' re ptr' left'
          else native_loop fuel' re ptr' left
      end
  | _, _, _ => []
  end.

(** The text between the first brackets behind the key; empty when it does not
    fit its buffer. *)
Definition tools_section (json_response : cstr) : option cstr :=
  i ← strstr json_response (jlit "'tool_calls'");
  a ← strchr (drop i json_response) (ch "[");
  let arr := drop (i + a) json_response in
  e ← strchr arr (ch "]");
  Some (if (e + 1 <? SECTION_LEN)%nat then take (e + 1) arr else []).

Definition parse_native_tool_calls (json_response : cstr) : Z * list parsed_tool_call_t :=
  match tools_section json_response with
  | None => (-1, [])
  | Some text =>
      match regcomp NATIVE_PATTERN with
      | None => (-1, [])
      | Some re => (0, native_loop (length text) re text MAX_TOOL_CALLS)
      end
  end.

(** ** The dispatcher *)

Definition dispatcher_parse_tool_calls (g_dispatcher_type : dispatcher_type_t) (response : cstr)
    : Z * list parsed_tool_call_t :=
  match g_dispatcher_type with
  | DISPATCHER_XML => parse_xml_tool_calls response
  | DISPATCHER_NATIVE => parse_native_tool_calls response
  end.

Definition dispatcher_format_tool_result (tool_name tool_result : cstr) (success : bool) (output_size : nat) : cstr :=
  let status := if success then lit "ok" else lit "error" in
  snprintf_s output_size
    (lit "<tool_result>" ++ [10] ++
     lit "  <tool>" ++ tool_name ++ lit "</tool>" ++ [10] ++
     lit "  <status>" ++ status ++ lit "</status>" ++ [10] ++
     lit "  <output>" ++ tool_result ++ lit "</output>" ++ [10] ++
     lit "</tool_result>").

(** ** The patterns compiled *)

Definition star (f : Z → bool) : atom := mk_atom f Star O.

Definition xml_re : regex_t :=
  lits (lit "<tool_call>") ++ star isspace :: mk_atom (not_char 60) Plus 1 :: star isspace :: lits (lit "</tool_call>").
(** A key, a colon, and a value from [o] to the next [c]; the two are in
    group [g]. *)
Definition key_re (key : cstr) (o c : Z) (g : nat) : regex_t :=
  lits key ++ star isspace :: mk_atom (is_char 58) Once O :: star isspace :: mk_atom (is_char o) Once g ::
  mk_atom (not_char c) Plus 1 :: mk_atom (is_char c) Once g :: [].
Definition name_re : regex_t := key_re (jlit "'name'") 34 34 O.
Definition args_re : regex_t := key_re (jlit "'arguments'") 123 125 1.
Definition native_re : regex_t :=
  lits (jlit "'function'") ++ star isspace :: mk_atom (is_char 58) Once O :: star isspace :: mk_atom (is_char 123) Once O ::
  star (not_char 125) :: lits (jlit "'name'") ++ star isspace :: mk_atom (is_char 58) Once O :: star isspace ::
  mk_atom (is_char 34) Once O :: mk_atom (not_char 34) Plus 1 :: mk_atom (is_char 34) Once O :: star (not_char 125) ::
  lits (jlit "'arguments'") ++ star isspace :: mk_atom (is_char 58) Once O :: star isspace :: mk_atom (is_char 123) Once 2 ::
  mk_atom (not_char 125) Plus 2 :: mk_atom (is_char 125) Once 2 :: [].

Lemma xml_compiles : regcomp XML_PATTERN = Some xml_re. Proof. reflexivity. Qed.
Lemma name_compiles : regcomp NAME_PATTERN = Some name_re. Proof. reflexivity. Qed.
Lemma args_compiles : regcomp ARGS_PATTERN = Some args_re. Proof. reflexivity. Qed.
Lemma native_compiles : regcomp NATIVE_PATTERN = Some native_re. Proof. reflexivity. Qed.

(** ** Progress and bounds *)

Lemma inner_search_pos q re c p r pattern s size eo :
  regcomp pattern = Some re → re = lits q ++ r → q = c :: p → (0 < eo)%nat →
  (0 < (inner_search pattern s size eo).2)%nat.
Proof.
  intros Hp -> -> He. unfold inner_search. rewrite Hp. destruct (regexec _ s) as [m|] eqn:E; [|done]. by apply regexec_pos in E.
Qed.

Lemma inner_search_length pattern s size eo :
  (0 < size)%nat → (length (inner_search pattern s size eo).1 < size)%nat.
Proof.
  intros Hs. unfold inner_search. destruct (regcomp pattern) as [re|]; [|done].
  destruct (regexec re s) as [m|]; [|done]. cbn [fst].
  destruct (Nat.ltb_spec (length (matched s (group 1 re m))) size); [done | done].
Qed.

Definition call_fits (c : parsed_tool_call_t) : Prop :=
  (length c.1 < TOOL_NAME_LEN)%nat ∧ (length c.2 < MAX_TOOL_ARGS)%nat.

Lemma xml_call_ok s eo :
  (0 < eo)%nat → call_fits (xml_call s eo).1 ∧ (0 < (xml_call s eo).2)%nat.
Proof.
  intros He. unfold xml_call, call_fits.
  pose proof (inner_search_length NAME_PATTERN s TOOL_NAME_LEN eo ltac:(unfold TOOL_NAME_LEN; lia)) as Hn.
  pose proof (inner_search_pos _ _ _ _ _ _ s TOOL_NAME_LEN eo name_compiles eq_refl eq_refl He) as H1.
  destruct (inner_search NAME_PATTERN s TOOL_NAME_LEN eo) as [name eo1]. cbn [fst snd] in *.
  pose proof (inner_search_pos _ _ _ _ _ _ s MAX_TOOL_ARGS eo1 args_compiles eq_refl eq_refl H1) as H2.
  destruct (inner_search ARGS_PATTERN s MAX_TOOL_ARGS eo1) as [args eo2]. cbn [fst snd] in *.
  split_and!; [done | | done]. apply snprintf_s_length. unfold MAX_TOOL_ARGS. lia.
Qed.

(** The round of the loop with the fuel out of sight. *)
Definition xml_calls (ptr : cstr) (left : nat) : list parsed_tool_call_t := xml_loop (length ptr) xml_re ptr left.

Lemma xml_loop_enough fuel : ∀ ptr left,
  (length ptr ≤ fuel)%nat → xml_loop fuel xml_re ptr left = xml_calls ptr left.
Proof.
  unfold xml_calls. induction fuel as [fuel IH] using lt_wf_ind. intros [|b ptr] left Hl; cbn [length] in *.
  - by destruct fuel.
  - destruct fuel as [|fuel]; [lia|]. cbn [xml_loop]. destruct left as [|left]; [done|].
    destruct (regexec xml_re (b :: ptr)) as [m|] eqn:E; [|done]. apply regexec_pos in E.
    assert (∀ n k, (0 < n)%nat → xml_loop fuel xml_re (drop n (b :: ptr)) k = xml_loop (length ptr) xml_re (drop n (b :: ptr)) k) as Hd.
    { intros n k Hn. assert (length (drop n (b :: ptr)) ≤ length ptr)%nat by (rewrite length_drop; cbn [length]; lia).
      rewrite (IH fuel) by lia. destruct (decide (length ptr < S fuel)%nat); [|lia]. by rewrite (IH (length ptr)) by lia. }
    case_if; [|by apply Hd]. destruct (xml_call_ok (matched (b :: ptr) (group 1 xml_re m)) _ E) as [_ Hp].
    destruct (xml_call _ _) as [call eo]. f_equal. by apply Hd.
Qed.

(** The loop as the code has it: every round that goes on moves [ptr]. *)
Lemma xml_calls_unfold ptr left :
  xml_calls ptr left =
  match ptr, left with
  | _ :: _, S left' =>
      match regexec xml_re ptr with
      | None => []
      | Some m =>
          let tool_xml := matched ptr (group 1 xml_re m) in
          if (length tool_xml <? MAX_TOOL_ARGS)%nat then
            let '(call, eo) := xml_call tool_xml (rm_eo (whole m)) in
            call :: xml_calls (drop eo ptr) left'
          else xml_calls (drop (rm_eo (whole m)) ptr) left
      end
  | _, _ => []
  end.
Proof.
  destruct ptr as [|b ptr]; [done|]. unfold xml_calls at 1. cbn [xml_loop length]. destruct left as [|left]; [done|].
  destruct (regexec xml_re (b :: ptr)) as [m|] eqn:E; [|done]. apply regexec_pos in E. cbn zeta.
  assert (∀ n, (0 < n)%nat → (length (drop n (b :: ptr)) ≤ length ptr)%nat) as Hd
    by (intros n Hn; rewrite length_drop; cbn [length]; lia).
  case_if; [|apply xml_loop_enough; auto]. destruct (xml_call_ok (matched (b :: ptr) (group 1 xml_re m)) _ E) as [_ Hp].
  destruct (xml_call _ _) as [call eo]. f_equal. apply xml_loop_enough. auto.
Qed.

Lemma xml_loop_bounds fuel : ∀ ptr left,
  (length (xml_loop fuel xml_re ptr left) ≤ left)%nat ∧ Forall call_fits (xml_loop fuel xml_re ptr left).
Proof.
  induction fuel as [|fuel IH]; intros [|b ptr] left; cbn [xml_loop]; try (split; [cbn [length]; lia | constructor]).
  destruct left as [|left]; [split; [done | constructor]|].
  destruct (regexec xml_re (b :: ptr)) as [m|] eqn:E; [|split; [cbn [length]; lia | constructor]]. apply regexec_pos in E.
  case_if; [|apply IH]. destruct (xml_call_ok (matched (b :: ptr) (group 1 xml_re m)) _ E) as [Hc _].
  destruct (xml_call _ _) as [call eo]. destruct (IH (drop eo (b :: ptr)) left).
  split; [cbn [length]; lia | by constructor].
Qed.

Lemma native_loop_bounds re fuel : ∀ ptr left,
  (length (native_loop fuel re ptr left) ≤ left)%nat ∧ Forall call_fits (native_loop fuel re ptr left).
Proof.
  induction fuel as [|fuel IH]; intros [|b ptr] left; cbn [native_loop]; try (split; [cbn [length]; lia | constructor]).
  destruct left as [|left]; [split; [done | constructor]|].
  destruct (regexec re (b :: ptr)) as [m|]; [|split; [cbn [length]; lia | constructor]]. cbn zeta.
  destruct (_ && _) eqn:E; [|apply IH]. bsplit. edestruct IH as [H1 H2].
  split; [cbn [length]; apply le_n_S, H1 | constructor; [|apply H2]]. split; cbn [fst snd]; lia.
Qed.

(** A parser fills at most the sixteen rows of the array it is given, and what
    it writes fits the two buffers of a row with their terminators. *)
Lemma parse_bounds d response :
  let calls := (dispatcher_parse_tool_calls d response).2 in
  (length calls ≤ MAX_TOOL_CALLS)%nat ∧ Forall call_fits calls.
Proof.
  destruct d; cbn [dispatcher_parse_tool_calls].
  - unfold parse_native_tool_calls. destruct (tools_section response) as [text|]; [|by split; [cbn; lia | constructor]].
    rewrite native_compiles. apply native_loop_bounds.
  - unfold parse_xml_tool_calls. rewrite xml_compiles. apply xml_loop_bounds.
Qed.

(** ** A call in the form the model is asked for *)

(** The text between the tags: the name and the members of the argument
    object. *)
Definition call_text (name members : cstr) : cstr :=
  jlit "{'name': '" ++ name ++ jlit "', 'arguments': {" ++ members ++ lit "}}".

(** What the text of a call must not have for the patterns to see it whole. *)
Record plain_call (name members : cstr) : Prop := {
  plain_name : name ≠ [] ∧ (length name < TOOL_NAME_LEN)%nat ∧ Forall (λ b, b ≠ 34 ∧ b ≠ 60) name;
  plain_members : members ≠ [] ∧ Forall (λ b, b ≠ 125 ∧ b ≠ 60) members;
  plain_size : (length (call_text name members) < MAX_TOOL_ARGS)%nat;
}.

Lemma Forall_class (f : Z → bool) c v : (∀ b, f b = not_char c b) → Forall (λ b, b ≠ c) v → Forall (λ b, f b = true) v.
Proof. intros Hf Hv. eapply Forall_impl; [exact Hv|]. intros b Hb. rewrite Hf. unfold not_char. apply negb_true_iff. by apply Z.eqb_neq. Qed.

Lemma match_key key o c g l v rest :
  isspace o = false → v ≠ [] → Forall (λ b, b ≠ c) v →
  Match (key_re key o c g) l (key ++ [58; 32; o] ++ v ++ c :: rest) ↔
  l = replicate (length key) 1%nat ++ [O; 1; 1; 1; length v; 1]%nat.
Proof.
  intros Ho Hne Hn. change ([58; 32; o] ++ v ++ c :: rest) with ([] ++ 58 :: [32] ++ o :: v ++ c :: rest).
  assert (Forall (λ b, not_char c b = true) v) as Hv by (by apply (Forall_class _ c)).
  assert (not_char c c = false) as Hc by (unfold not_char; by rewrite Z.eqb_refl).
  unfold key_re, star. rewrite Match_lits. split.
  - intros (s' & l' & Hs & -> & Hm). apply app_inv_head in Hs. subst s'.
    apply Match_run_to in Hm as (_ & l1 & -> & Hm); [|constructor|done].
    apply Match_run_to in Hm as (_ & l2 & -> & Hm); [|repeat constructor|done].
    apply Match_run_to in Hm as (_ & l3 & -> & Hm); [|done|done]. by inversion Hm.
  - intros ->. eexists _, _. split; [done|]. split; [done|].
    apply Match_run_to; [constructor|done|]. split; [done|]. eexists. split; [done|].
    apply Match_run_to; [repeat constructor|done|]. split; [done|]. eexists. split; [done|].
    apply Match_run_to; [done|done|].
    split; [cbn [rep_ok]; destruct v; [done | cbn [length]; lia]|]. eexists. split; [done | constructor].
Qed.

(** The key is found behind text in which it does not start. *)
Lemma regexec_key key o c g pre v rest i l :
  isspace o = false → v ≠ [] → Forall (λ b, b ≠ c) v →
  regexec (key_re key o c g) (pre ++ key ++ [58; 32; o] ++ v ++ c :: rest) =
    (λ m, ((length pre + m.1)%nat, m.2)) <$> regexec (key_re key o c g) (key ++ [58; 32; o] ++ v ++ c :: rest) →
  (i, l) = (length pre, replicate (length key) 1 ++ [O; 1; 1; 1; length v; 1])%nat →
  regexec (key_re key o c g) (pre ++ key ++ [58; 32; o] ++ v ++ c :: rest) = Some (i, l).
Proof.
  intros Ho Hne Hv -> [= -> ->].
  rewrite (regexec_here _ _ (replicate (length key) 1 ++ [O; 1; 1; 1; length v; 1])%nat).
  - cbn [fmap option_fmap option_map fst snd]. by rewrite Nat.add_0_r.
  - apply best_match_only; [by apply match_key|]. intros l'. by rewrite match_key.
Qed.

(** A quote that opens something else, and the text up to the next quote. *)
Lemma skip_quoted key o g v s c :
  Forall (λ b, b ≠ 34) v → (∀ l, ¬ Match (key_re (34 :: key) o c g) l (34 :: v ++ s)) →
  regexec (key_re (34 :: key) o c g) ((34 :: v) ++ s) =
  (λ m, (S (length v + m.1), m.2)) <$> regexec (key_re (34 :: key) o c g) s.
Proof.
  intros Hv Hn. cbn [app]. rewrite regexec_next by done. unfold key_re. rewrite regexec_skip by done.
  by destruct (regexec _ s).
Qed.

Lemma no_key key o g c v s t l :
  (∀ s', v ++ 34 :: s ≠ key ++ s') → t = v ++ 34 :: s → ¬ Match (key_re (34 :: key) o c g) l (34 :: t).
Proof. intros Hn -> Hm. apply Match_lits in Hm as (s' & l' & Hs & _). injection Hs as Hs. by apply (Hn s'). Qed.

Definition ARGS_KEY : cstr := lit "arguments" ++ [34].

Lemma args_skip name s :
  Forall (λ b, b ≠ 34) name →
  regexec args_re (jlit "{'name': '" ++ name ++ jlit "', " ++ 34 :: s) =
  (λ m, ((length (jlit "{'name': '" ++ name ++ jlit "', ") + m.1)%nat, m.2)) <$> regexec args_re (34 :: s).
Proof.
  intros Hn. change args_re with (key_re (34 :: ARGS_KEY) 123 125 1).
  change (jlit "{'name': '" ++ name ++ jlit "', " ++ 34 :: s) with
    ([123] ++ (34 :: lit "name") ++ (34 :: lit ": ") ++ (34 :: name) ++ (34 :: lit ", ") ++ 34 :: s).
  unfold key_re at 1. rewrite regexec_skip by (repeat constructor; done). fold (key_re (34 :: ARGS_KEY) 123 125 1).
  rewrite !skip_quoted; try lit_forall; try done.
  - rewrite !length_app. destruct (regexec _ (34 :: s)) as [[i l]|]; [|done].
    cbn [fmap option_fmap option_map fst snd]. do 2 f_equal.
    change (length (jlit "{'name': '")) with 10%nat. change (length (jlit "', ")) with 3%nat.
    change (length (lit "name")) with 4%nat. change (length (lit ": ")) with 2%nat. change (length (lit ", ")) with 2%nat.
    cbn [length]. lia.
  - intros l. eapply (no_key _ _ _ _ (lit ", ")); [|done]. done.
  - intros l Hm. apply Match_lits in Hm as (s' & l' & Hs & _ & Hm). injection Hs as Hs.
    assert (name = lit "arguments") as ->.
    { apply (f_equal (take_while (not_char 34))) in Hs. cbn [app] in Hs.
      rewrite take_while_app_stop in Hs; [|done|by apply (Forall_class _ 34)]. exact Hs. }
    assert (s' = 44 :: 32 :: 34 :: s) as -> by (by injection Hs).
    inversion Hm as [|? ? n l1 ? Hlen Hf _ Hm1]; subst.
    destruct n as [|n]; [|cbn [take] in Hf; inversion Hf; done].
    apply Match_char in Hm1 as (? & ? & ? & _). done.
  - intros l. eapply (no_key _ _ _ _ (lit ": ")); [|done]. done.
  - intros l. eapply (no_key _ _ _ _ (lit "name")); [|done]. done.
Qed.

Lemma matched_mid a v b m : m = mk_regmatch (length a) (length a + length v) → matched (a ++ v ++ b) m = v.
Proof.
  intros ->. unfold matched. cbn [rm_so rm_eo]. rewrite drop_app_length.
  replace (length a + length v - length a)%nat with (length v) by lia. by rewrite take_app_length.
Qed.

Lemma call_text_length name members : length (call_text name members) = (29 + length name + length members)%nat.
Proof.
  unfold call_text. rewrite !length_app. change (length (jlit "{'name': '")) with 10%nat.
  change (length (jlit "', 'arguments': {")) with 17%nat. change (length (lit "}}")) with 2%nat. lia.
Qed.

Lemma name_search name members eo :
  plain_call name members →
  inner_search NAME_PATTERN (call_text name members) TOOL_NAME_LEN eo = (name, 11 + length name)%nat.
Proof.
  intros [(Hn0 & Hnl & [Hn _]%Forall_and) _ _]. unfold inner_search. rewrite name_compiles.
  change (call_text name members) with
    ([123] ++ jlit "'name'" ++ [58; 32; 34] ++ name ++ 34 :: jlit ", 'arguments': {" ++ members ++ lit "}}").
  unfold name_re. erewrite regexec_key; [|done..| |done].
  2: { unfold key_re. change (jlit "'name'") with (34 :: lit "name" ++ [34]). by rewrite regexec_skip by (repeat constructor; done). }
  cbn [whole rm_eo fst snd]. match goal with |- context [matched ?t ?m] => assert (matched t m = name) as -> end.
  - apply (matched_mid (jlit "{'name': '") name). cbn. f_equal; lia.
  - rewrite (proj2 (Nat.ltb_lt _ _)) by done. f_equal. cbn. lia.
Qed.

Lemma args_search name members eo :
  plain_call name members →
  inner_search ARGS_PATTERN (call_text name members) MAX_TOOL_ARGS eo =
  (123 :: members ++ [125], (28 + length name + length members)%nat).
Proof.
  intros [(_ & _ & [Hn _]%Forall_and) (Hm0 & [Hm _]%Forall_and) Hsz]. rewrite call_text_length in Hsz.
  unfold inner_search. rewrite args_compiles. set (pre := jlit "{'name': '" ++ name ++ jlit "', ").
  assert (length pre = 13 + length name)%nat as Hp by (unfold pre; rewrite !length_app; cbn; lia).
  replace (call_text name members) with (pre ++ jlit "'arguments'" ++ [58; 32; 123] ++ members ++ 125 :: [125])
    by (unfold pre, call_text; by rewrite <- !app_assoc).
  unfold args_re. erewrite regexec_key; [|done..| |done].
  2: { subst pre. etransitivity; [|by apply args_skip]. by rewrite <- !app_assoc. }
  cbn [whole rm_eo fst snd]. rewrite Hp.
  replace (pre ++ jlit "'arguments'" ++ [58; 32; 123] ++ members ++ 125 :: [125]) with
    ((pre ++ jlit "'arguments'" ++ [58; 32]) ++ (123 :: members ++ [125]) ++ [125])
    by (rewrite <- !app_assoc; cbn [app]; by rewrite <- !app_assoc).
  rewrite matched_mid.
  - rewrite (proj2 (Nat.ltb_lt _ _)); [f_equal; cbn; lia|]. cbn [length]. rewrite length_app. cbn [length]. lia.
  - rewrite !length_app, Hp. cbn. rewrite length_app. cbn. f_equal; lia.
Qed.

(** The inner searches see the name and the object, and leave in [matches] the
    end of the object in the text between the tags. *)
Lemma xml_call_text name members eo :
  plain_call name members →
  xml_call (call_text name members) eo =
  ((name, 123 :: members ++ [125]), (length (call_text name members) - 1)%nat).
Proof.
  intros Hp. unfold xml_call. rewrite name_search, args_search by done. rewrite call_text_length.
  pose proof (plain_size _ _ Hp) as Hs. rewrite call_text_length in Hs.
  by rewrite snprintf_s_id by (cbn [length]; rewrite length_app; cbn [length]; lia).
Qed.

Lemma call_text_plain name members : plain_call name members → Forall (λ b, b ≠ 60) (call_text name members).
Proof.
  intros [(_ & _ & [_ Hn]%Forall_and) (_ & [_ Hm]%Forall_and) _]. unfold call_text.
  rewrite !Forall_app. split_and!; [lit_forall | done | lit_forall | done | lit_forall].
Qed.

Definition OPEN_TAG : cstr := lit "<tool_call>".
Definition CLOSE_TAG : cstr := lit "</tool_call>".

(** What the parts of the pattern between the tags take of a text that does
    not begin with white space. *)
Lemma match_between b body tail l :
  isspace b = false → Forall (λ x, x ≠ 60) (b :: body) →
  Match (star isspace :: mk_atom (not_char 60) Plus 1 :: star isspace :: lits CLOSE_TAG) l
    ((b :: body) ++ CLOSE_TAG ++ tail) →
  ∃ n k, l = [O; n; k] ++ replicate 12 1%nat ∧ (n + k = length (b :: body))%nat.
Proof.
  intros Hb Hbody Hm. apply Match_cons_inv in Hm as (n0 & l0 & -> & _ & Hf0 & _ & Hm0).
  destruct n0 as [|n0]; [|cbn [app take] in Hf0; inversion Hf0; cbn in *; congruence].
  rewrite drop_0 in Hm0. apply Match_cons_inv in Hm0 as (n & l1 & -> & Hn & Hf & _ & Hm1).
  apply Match_cons_inv in Hm1 as (k & l2 & -> & Hk & Hfk & _ & Hm2). rewrite <- (app_nil_r (lits CLOSE_TAG)) in Hm2.
  apply Match_lits in Hm2 as (s' & l3 & Hs & -> & Hm3). inversion Hm3; subst. rewrite app_nil_r.
  exists n, k. split; [done|]. rewrite drop_drop in Hs. cbn [a_class] in *.
  set (v := b :: body) in *. apply Nat.le_antisymm; apply Nat.nlt_ge; intros Hlt.
  - assert (60 ∈ take (n + k) (v ++ CLOSE_TAG ++ tail)) as Hin.
    { rewrite take_app_ge by lia. apply elem_of_app. right.
      destruct (n + k - length v)%nat as [|j] eqn:E; [lia|]. by left. }
    rewrite <- take_take_drop in Hin. rewrite elem_of_app in Hin. rewrite Forall_forall in Hf, Hfk.
    destruct Hin as [Hin|Hin]; [by apply Hf in Hin | by apply Hfk in Hin].
  - rewrite drop_app_le in Hs by lia. destruct (drop (n + k) v) as [|x v'] eqn:E.
    + apply (f_equal length) in E. rewrite length_drop in E. cbn [length] in E. lia.
    + injection Hs as -> _. rewrite Forall_forall in Hbody. apply (Hbody 60); [|done].
      rewrite <- (take_drop (n + k) v), E. apply elem_of_app. right. by left.
Qed.

(** The outer search finds a call behind text without a tag: its group is the
    whole text between the tags. *)
Lemma xml_search prose b body tail :
  isspace b = false → Forall (λ x, x ≠ 60) prose → Forall (λ x, x ≠ 60) (b :: body) →
  regexec xml_re (prose ++ OPEN_TAG ++ (b :: body) ++ CLOSE_TAG ++ tail) =
  Some (length prose, replicate 11 1%nat ++ [O; length (b :: body); O] ++ replicate 12 1%nat).
Proof.
  intros Hb Hp Hbody. unfold xml_re. change (lit "<tool_call>") with (60 :: lit "tool_call>").
  rewrite regexec_skip by done. change (60 :: lit "tool_call>") with OPEN_TAG.
  rewrite (regexec_here _ _ (replicate 11 1%nat ++ [O; length (b :: body); O] ++ replicate 12 1%nat)).
  { cbn [fmap option_fmap option_map fst snd]. by rewrite Nat.add_0_r. }
  split.
  - apply Match_lits. eexists _, _. split; [done|]. split; [done|].
    constructor; [lia | constructor | done |]. rewrite drop_0.
    constructor; [rewrite length_app; lia | rewrite take_app_length; by apply (Forall_class _ 60) | cbn; lia |].
    rewrite drop_app_length. constructor; [lia | constructor | done |]. rewrite drop_0.
    rewrite <- (app_nil_r (lits _)). apply Match_lits. eexists _, []. split; [done|]. split; [done | constructor].
  - intros l' (s' & l1 & Hs & -> & Hm)%Match_lits. apply app_inv_head in Hs. subst s'.
    apply match_between in Hm as (n & k & -> & Hnk); [|done|done].
    destruct k as [|k]; [left; by rewrite <- Hnk, Nat.add_0_r|]. right. right. split.
    + rewrite !sum_list_with_app. cbn. cbn in Hnk. lia.
    + cbn [length replicate OPEN_TAG app lex_lt]. cbn. cbn in Hnk. repeat (right; split; [done|]). left. lia.
Qed.

(** Behind the opening tag of the last call there is none to find. *)
Lemma xml_search_none v tail :
  Forall (λ x, x ≠ 60) v → Forall (λ x, x ≠ 60) tail → regexec xml_re (v ++ CLOSE_TAG ++ tail) = None.
Proof.
  intros Hv Ht. unfold xml_re. change (lit "<tool_call>") with (60 :: lit "tool_call>").
  rewrite regexec_skip by done. change (CLOSE_TAG ++ tail) with (60 :: lit "/tool_call>" ++ tail).
  rewrite regexec_next; [|intros l (s' & l' & Hs & _)%Match_lits; discriminate Hs].
  rewrite regexec_never; [done|]. apply Forall_app. split; [lit_forall | done].
Qed.

Lemma xml_calls_none ptr left : regexec xml_re ptr = None → xml_calls ptr left = [].
Proof. intros Hn. rewrite xml_calls_unfold. destruct ptr, left; try done. by rewrite Hn. Qed.

(** One round on a text whose first tag is that of a plain call. *)
Lemma xml_round prose name members tail left :
  Forall (λ x, x ≠ 60) prose → plain_call name members →
  let text := prose ++ OPEN_TAG ++ call_text name members ++ CLOSE_TAG ++ tail in
  xml_calls text (S left) =
  (name, 123 :: members ++ [125]) :: xml_calls (drop (length (call_text name members) - 1) text) left.
Proof.
  intros Hp Hc text. rewrite xml_calls_unfold.
  assert (∃ b t, text = b :: t) as (b & t & Hbt) by (subst text; destruct prose; eauto). rewrite Hbt. rewrite <- Hbt.
  pose proof (call_text_plain _ _ Hc) as Hb. pose proof (plain_size _ _ Hc) as Hs.
  set (body := call_text name members) in *. assert (∃ r, body = 123 :: r) as [r Hr] by (subst body; eauto).
  assert (regexec xml_re text = Some (length prose, replicate 11 1%nat ++ [O; length body; O] ++ replicate 12 1%nat)) as E.
  { subst text. rewrite Hr in Hb |- *. by apply xml_search. }
  rewrite E. cbn zeta. match goal with |- context [matched text ?m] => assert (matched text m = body) as -> end.
  { subst text. rewrite (app_assoc prose). apply matched_mid. rewrite length_app. cbn. f_equal; lia. }
  rewrite (proj2 (Nat.ltb_lt _ _)) by done. subst body. by rewrite xml_call_text.
Qed.

(** The first call of an answer is found once for every [length call - 1]
    bytes of text in front of its tag, and once more. *)
Lemma xml_calls_repeated name members tail : plain_call name members → Forall (λ x, x ≠ 60) tail →
  let k := (length (call_text name members) - 1)%nat in
  ∀ n prose left, length prose = n → Forall (λ x, x ≠ 60) prose →
  xml_calls (prose ++ OPEN_TAG ++ call_text name members ++ CLOSE_TAG ++ tail) left =
  replicate (left `min` (length prose `div` k + 1)) (name, 123 :: members ++ [125]).
Proof.
  intros Hc Ht k. pose proof (call_text_length name members) as Hlen.
  induction n as [n IH] using lt_wf_ind. intros prose [|left] Hn Hp.
  { rewrite xml_calls_unfold. by destruct (prose ++ _). }
  rewrite xml_round by done. fold k. rewrite drop_app. destruct (Nat.ltb_spec (length prose) k) as [Hlt|Hge].
  - rewrite Nat.div_small by done. rewrite (drop_ge prose) by lia. cbn [app].
    rewrite app_assoc, drop_app_le by (rewrite length_app; cbn; lia).
    rewrite xml_calls_none; [by rewrite Nat.add_1_r; destruct left|]. apply xml_search_none; [|done].
    assert (OPEN_TAG = [60] ++ lit "tool_call>") as Ho by done. rewrite Ho, <- app_assoc, drop_app.
    rewrite (drop_ge [60]) by (cbn [length]; lia). apply Forall_drop. apply Forall_app.
    split; [lit_forall | by apply call_text_plain].
  - replace (k - length prose)%nat with O by lia. rewrite drop_0.
    rewrite (IH (length (drop k prose))); [|rewrite length_drop; lia|done|by apply Forall_drop].
    rewrite length_drop. assert (length prose `div` k = S ((length prose - k) `div` k))%nat as ->; [|done].
    replace (length prose) with (length prose - k + 1 * k)%nat at 1 by lia. rewrite Nat.div_add by lia. lia.
Qed.

(** The XML dispatcher runs a call again for the prose in front of it: the
    search of the name and of the arguments overwrites the offsets of the
    outer match, so the text is searched again from an offset inside the
    call's text.  A call behind [n] bytes of prose is read
    [n / (length of the call - 1) + 1] times, up to the sixteen the array
    holds. *)
Theorem xml_call_repeated prose name members tail :
  Forall (λ x, x ≠ 60) prose → Forall (λ x, x ≠ 60) tail → plain_call name members →
  dispatcher_parse_tool_calls DISPATCHER_XML
    (prose ++ OPEN_TAG ++ call_text name members ++ CLOSE_TAG ++ tail) =
  (0, replicate (16 `min` (length prose `div` (length (call_text name members) - 1) + 1))
        (name, 123 :: members ++ [125])).
Proof.
  intros Hp Ht Hc. cbn [dispatcher_parse_tool_calls]. unfold parse_xml_tool_calls. rewrite xml_compiles. f_equal.
  by eapply xml_calls_repeated.
Qed.

(** The arguments of a call in the documented form are a JSON string, not an
    object: the native parser finds no call in it. *)
Example native_misses_string_arguments :
  parse_native_tool_calls
    (jlit "{'tool_calls':[{'id':'call_1','function':{'name':'shell','arguments':'{\'command\':\'ls\'}'}}]}") = (0, []) ∧
  parse_native_tool_calls (jlit "{'tool_calls':[{'id':'call_1','function':{'name':'shell','arguments':{'command':'ls'}}}]}") =
    (0, [(lit "shell", jlit "{'command':'ls'}")]).
Proof. split; by_eval. Qed.
