(* ===== verification/Agent.v ===== *)
(** * The agent of [src/agent/agent.c]

    Intents, the history of the conversation, the tool loop of a turn and the
    task loop around it.  The dispatcher of the tool calls is an argument: the
    static variable the code reads is [DISPATCHER_NATIVE], and the function that
    would set it has no callers.

    What is outside of the process is a world [W] that the turn passes on: the
    model behind the provider, the answers of the operating system, the texts
    of the memory, the runtime monitor and the RAG index.

    The loop guard and the approval context of the tools are static variables of
    the process, and the workers of the pool run turns at the same time.  What
    the other workers do to them between two uses in a turn is an argument
    [others] of the turn; a theorem that needs them to be left alone says so. *)
From S2P Require Import Prelude Floats Approval Security Tools ToolsProcess LoopGuard Providers JobWorker Dispatcher.

Inductive agent_state_t :=
  | AGENT_STATE_IDLE | AGENT_STATE_THINKING | AGENT_STATE_EXECUTING
  | AGENT_STATE_WAITING_APPROVAL | AGENT_STATE_ERROR.

Inductive intent_type_t :=
  | INTENT_GENERAL | INTENT_CODE | INTENT_SEARCH | INTENT_FILE_OP | INTENT_SHELL_CMD
  | INTENT_MEMORY | INTENT_ANALYSIS | INTENT_UNKNOWN.

Definition MAX_ITERATIONS : nat := 50.
Definition MAX_TOOL_COUNT : nat := 64.
Definition MAX_HISTORY_MESSAGES : nat := 50.
Definition COMPACTION_KEEP_RECENT : nat := 20.
Definition DEFAULT_MAX_ATTENTION_ROUNDS : Z := 5.
Definition TASK_COMPLETE_MARKER : cstr := lit "[TASK_COMPLETE]".
Definition SYSTEM_PROMPT : cstr :=
  lit "You are Doctor Claw, an autonomous AI assistant. You can execute tools to help users. Always be helpful, honest, and safe.".

Record tool_definition_t := mk_tool_definition { td_name : cstr; td_description : cstr; td_schema : cstr }.

(** The fields the operations read or write; [last_error] is never written. *)
Record agent_t := mk_agent {
  a_tools : list tool_definition_t;
  state : agent_state_t;
  context : chat_context_t;
  session_id : cstr;
  a_name : cstr;
  description : cstr;
  started_at : Z;
  total_tokens : Z;
  tool_calls_count : Z;
  approval_manager : approval_manager_t;
  require_approval : bool;
  current_task : cstr;
  task_focus_enabled : bool;
  max_attention_rounds : Z;
  workspace_dir : cstr;
}.

Definition set_state (a : agent_t) (s : agent_state_t) : agent_t :=
  mk_agent (a_tools a) s (context a) (session_id a) (a_name a) (description a) (started_at a) (total_tokens a)
    (tool_calls_count a) (approval_manager a) (require_approval a) (current_task a) (task_focus_enabled a)
    (max_attention_rounds a) (workspace_dir a).
Definition set_context (a : agent_t) (c : chat_context_t) (tokens tool_calls : Z) : agent_t :=
  mk_agent (a_tools a) (state a) c (session_id a) (a_name a) (description a) (started_at a)
    (total_tokens a + tokens) (tool_calls_count a + tool_calls) (approval_manager a) (require_approval a)
    (current_task a) (task_focus_enabled a) (max_attention_rounds a) (workspace_dir a).
Definition set_task (a : agent_t) (s : agent_state_t) (task : cstr) (focus : bool) : agent_t :=
  mk_agent (a_tools a) s (context a) (session_id a) (a_name a) (description a) (started_at a) (total_tokens a)
    (tool_calls_count a) (approval_manager a) (require_approval a) task focus
    (max_attention_rounds a) (workspace_dir a).

(** What [agent_init] reads of the configuration. *)
Record agent_config := mk_agent_config { cfg_workspace_dir : cstr; cfg_require_approval : bool }.

(** [r1] and [r2] are the values of [rand()], [now] the time.  The workspace of
    the tools afterwards, and the agent; [None] when the system prompt does not
    fit the fresh context. *)
Definition agent_init (r1 r2 now : Z) (config : agent_config) : cstr * option agent_t :=
  (tools_set_workspace (Some (cfg_workspace_dir config)),
   c ← chat_context_add_message chat_context_init (Some (lit "system")) (Some SYSTEM_PROMPT);
   Some (mk_agent [] AGENT_STATE_IDLE c
          (snprintf_s 64 (fmt_hex false 8 (u32 r1) ++ fmt_hex false 8 (u32 r2)))
          (lit "DoctorClaw") (lit "Autonomous AI assistant") now 0 0
          approval_manager_init (cfg_require_approval config) [] false 0
          (take 511 (cfg_workspace_dir config)))).

Definition agent_add_tool (a : agent_t) (tool : tool_definition_t) : agent_t * Z :=
  if (MAX_TOOL_COUNT <=? length (a_tools a))%nat then (a, -1)
  else (mk_agent (a_tools a ++ [tool]) (state a) (context a) (session_id a) (a_name a) (description a)
          (started_at a) (total_tokens a) (tool_calls_count a) (approval_manager a) (require_approval a)
          (current_task a) (task_focus_enabled a) (max_attention_rounds a) (workspace_dir a), 0).

Definition agent_set_config (a : agent_t) (rounds : Z) : agent_t :=
  if 0 <? rounds then
    mk_agent (a_tools a) (state a) (context a) (session_id a) (a_name a) (description a)
      (started_at a) (total_tokens a) (tool_calls_count a) (approval_manager a) (require_approval a)
      (current_task a) (task_focus_enabled a) rounds (workspace_dir a)
  else a.

(** ** Intents *)

Definition any_of (s : cstr) (words : list cstr) : bool := existsb (contains s) words.

Definition agent_classify_intent (input : cstr) : intent_type_t :=
  let lower := map tolower input in
  if any_of lower [lit "code"; lit "function"; lit "class"; lit "implement"; lit "write"; lit "create"]
  then INTENT_CODE
  else if any_of lower [lit "search"; lit "find"; lit "look"] then INTENT_SEARCH
  else if any_of lower [lit "read"; lit "file"; lit "edit"; lit "delete"; lit "copy"; lit "move"]
  then INTENT_FILE_OP
  else if any_of lower [lit "run"; lit "execute"; lit "command"; lit "bash"; lit "shell"]
  then INTENT_SHELL_CMD
  else if any_of lower [lit "remember"; lit "recall"; lit "store"] then INTENT_MEMORY
  else if any_of lower [lit "analyze"; lit "explain"; lit "review"] then INTENT_ANALYSIS
  else INTENT_GENERAL.

Definition handler (i : intent_type_t) : cstr :=
  match i with
  | INTENT_CODE => lit "code"
  | INTENT_SEARCH => lit "search"
  | INTENT_FILE_OP => lit "file"
  | INTENT_SHELL_CMD => lit "shell"
  | INTENT_MEMORY => lit "memory"
  | INTENT_ANALYSIS => lit "analysis"
  | _ => lit "general"
  end.

Definition agent_dispatch (a : agent_t) (input : cstr) (response_size : nat) : agent_t * cstr :=
  (set_state (set_context a (context a) 0 1) AGENT_STATE_IDLE,
   snprintf_s response_size
     (lit "[Dispatched to " ++ handler (agent_classify_intent input) ++ lit " handler] " ++ input)).

(** ** The history *)

Definition is_system (m : message_t) : bool := streq (role m) (lit "system").

(** The copy loop over the messages from the newest to the oldest. *)
Fixpoint keep_recent (fuel : nat) (newest_first : list message_t) : list message_t :=
  match fuel, newest_first with
  | S fuel', m :: l =>
      if is_system m then keep_recent fuel l else m :: keep_recent fuel' l
  | _, _ => []
  end.

Definition agent_trim_history (c : chat_context_t) : chat_context_t :=
  let l := default [] (messages c) in
  if (length l <=? MAX_HISTORY_MESSAGES)%nat then c
  else
    let system := List.filter is_system l in
    let system_count := length system in
    if (length l - system_count <=? MAX_HISTORY_MESSAGES)%nat then c
    else
      let kept := system ++ keep_recent COMPACTION_KEEP_RECENT (reverse l) in
      mk_context (Some kept) (system_count + COMPACTION_KEEP_RECENT + 8) (length kept + 8)
        (temperature c) (max_tokens c) (stream c).

(** ** Calling a tool *)

(** [sscanf] of the opening text followed by a conversion of at most [n] bytes
    up to the next quote: the text stored and the rest of the input; [None]
    when nothing is converted. *)
Definition scan_quoted (open : cstr) (n : nat) (s : cstr) : option (cstr * cstr) :=
  if has_prefix open s then
    let v := take n (take_while (λ b, negb (b =? 34)) (drop (length open) s)) in
    match v with [] => None | _ => Some (v, drop (length open + length v) s) end
  else None.

(** The opening text of an object with the given first key. *)
Definition json_open (key : cstr) : cstr := [123; 34] ++ key ++ [34; 58; 34].

Definition RESULT_BUF : nat := Z.to_nat 8192.

(** What the other workers of the process do to the statics of
    [loop_guard.c] and [tools.c] before the turn uses them next; the points are
    told apart by the world. *)
Record interference (W : Type) := mk_others {
  others_guard : W → guard_t → guard_t;
  others_tools : W → tools_t → tools_t;
}.
Arguments mk_others {W}.
Arguments others_guard {W}.
Arguments others_tools {W}.

(** No other turn runs at the same time. *)
Definition alone {W} : interference W := mk_others (λ _ g, g) (λ _ t, t).

Section agent.
Context {W : Type}.
(** [os w] answers the system calls of a tool run in world [w], [after w calls]
    is the world when it is done. *)
Context (os : W → syscall → answer) (strerror : cstr) (after : W → list syscall → W).
Context (other_tool : builtin → cstr → option outcome) (registered : cstr → option (cstr → outcome)).
Context (others : interference W).
Context (g_dispatcher_type : dispatcher_type_t).
(** The call of the provider: [provider_chat_with_tools] with the tools of the
    agent for the native dispatcher, [provider_chat_completion] for the XML
    one. *)
Context (chat : dispatcher_type_t → W → provider_type_t → cstr → cstr → chat_context_t → W * chat_response_t).
Context (getenv : cstr → option cstr).
(** The texts of [runtime_monitor_get_recent_for_agent] and of
    [agent_load_memory_context]; empty when there is none. *)
Context (alerts : W → cstr) (memory_context : W → cstr → cstr).
(** The world after the memory was searched and the message of the user was
    stored in it. *)
Context (store_message : W → cstr → W).
(** The chunks of a RAG query: index path, query and [top_k]; none when the
    index cannot be loaded. *)
Context (rag_query : W → cstr → cstr → nat → list cstr).

(** The tool and the parameters a call by the model runs, or the error text. *)
Definition tool_request (name args : cstr) : (cstr * cstr) + cstr :=
  let one key n err :=
    match scan_quoted (json_open (lit key)) n args with
    | Some (v, _) => inl (name, v)
    | None => inr (lit err)
    end in
  if streq name (lit "shell") then one "command"%string 1023%nat "Error: Could not parse shell command"%string
  else if streq name (lit "zsh") then one "command"%string 1023%nat "Error: Could not parse zsh command"%string
  else if streq name (lit "network") then one "command"%string 1023%nat "Error: Could not parse network command"%string
  else if streq name (lit "read_file") then one "path"%string 1023%nat "Error: Could not parse file path"%string
  else if streq name (lit "http_get") then one "url"%string (Z.to_nat 2047) "Error: Could not parse URL"%string
  else if streq name (lit "memory_store") then
    match scan_quoted (json_open (lit "key")) 255 args with
    | Some (key, rest) =>
        match scan_quoted ([34; 44; 34] ++ lit "value" ++ [34; 58; 34]) (Z.to_nat 4095) rest with
        | Some (value, _) =>
            inl (name, snprintf_s (Z.to_nat 4608)
                   (json_open (lit "key") ++ key ++ [34; 44; 34] ++ lit "value" ++ [34; 58; 34] ++ value ++ [34; 125]))
        | None => inr (lit "Error: Could not parse memory store args")
        end
    | None => inr (lit "Error: Could not parse memory store args")
    end
  else if streq name (lit "memory_recall") then
    one "query"%string 1023%nat "Error: Could not parse memory recall query"%string
  else inr (lit "Error: Unknown tool '" ++ name ++ lit "'").

(** The code, the result text and the system calls. *)
Definition agent_execute_tool_by_name (w : W) (t : tools_t) (name args : cstr) (result_size : nat)
    : option (Z * cstr * list syscall) :=
  match tool_request name args with
  | inr err => Some (-1, snprintf_s result_size err, [])
  | inl (tool, params) =>
      o ← tools_execute (os w) strerror other_tool registered t tool params;
      let tr := o_result o in
      let text :=
        match r_result tr, Tools.r_error tr with
        | _ :: _, _ => r_result tr
        | [], _ :: _ => lit "Error: " ++ Tools.r_error tr
        | [], [] => lit "Tool executed successfully"
        end in
      Some (0, snprintf_s result_size text, o_calls o)
  end.

(** ** A turn *)

(** The state of a turn, with the tools it ran and the system calls they
    made, newest last. *)
Record turn := mk_turn {
  t_world : W;
  t_agent : agent_t;
  t_guard : guard_t;
  t_ran : list cstr;
  t_calls : list syscall;
}.

Definition guard_text (g : guard_t) : cstr :=
  lit "Loop guard tripped: " ++
  match loop_guard_reason g 256 with [] => lit "repeated or ping-pong tool calls" | r => r end.

Definition TOOL_MSG_LEN : nat := Z.to_nat 12288.

(** The message with the result of a tool; the XML dispatcher is always told
    that the tool succeeded. *)
Definition tool_message (name result : cstr) : cstr :=
  match g_dispatcher_type with
  | DISPATCHER_XML => dispatcher_format_tool_result name result true TOOL_MSG_LEN
  | DISPATCHER_NATIVE => snprintf_s TOOL_MSG_LEN (lit "Tool '" ++ name ++ lit "' returned: " ++ result)
  end.

(** The loop over the tool calls of one answer, with the statics of the tools:
    the turn afterwards, or the response of a turn the guard has stopped. *)
Fixpoint run_tool_calls (tools : tools_t) (calls : list (cstr * cstr)) (t : turn)
    : option (turn + turn * cstr) :=
  match calls with
  | [] => Some (inl t)
  | (name, args) :: calls' =>
      let '(g, ok) := loop_guard_check (others_guard others (t_world t) (t_guard t)) (Some name) in
      if negb ok then
        let g := others_guard others (t_world t) g in
        Some (inr (mk_turn (t_world t) (t_agent t) g (t_ran t) (t_calls t), guard_text g))
      else
        let a := t_agent t in
        let tools := others_tools others (t_world t) tools in
        '(_, result, sys) ← agent_execute_tool_by_name (t_world t) tools name args RESULT_BUF;
        let msg := tool_message name result in
        c ← chat_context_add_message (context a) (Some (lit "tool")) (Some msg);
        run_tool_calls tools calls'
          (mk_turn (after (t_world t) sys) (set_context a c 0 1) g (t_ran t ++ [name]) (t_calls t ++ sys))
  end.

Definition parsed_calls (r : chat_response_t) : list (cstr * cstr) :=
  map (λ x, (snprintf_s 128 x.1, snprintf_s (Z.to_nat 4096) x.2)) (take 16 (take (call_count r) (tool_calls r))).

(** The calls of an answer: those the provider found, else those the XML
    dispatcher finds in its text. *)
Definition turn_calls (r : chat_response_t) : list parsed_tool_call_t :=
  if (0 <? call_count r)%nat then parsed_calls r
  else match g_dispatcher_type with
       | DISPATCHER_XML => (dispatcher_parse_tool_calls g_dispatcher_type (resp_content r)).2
       | DISPATCHER_NATIVE => []
       end.

(** The context handed to the provider: with the XML dispatcher a zeroed one
    that shares the messages.  The prompt with the instructions for tags that
    the code writes before is not part of it. *)
Definition turn_context (c : chat_context_t) : chat_context_t :=
  match g_dispatcher_type with
  | DISPATCHER_XML => mk_context (messages c) (allocated c) O f64_zero 0 false
  | DISPATCHER_NATIVE => c
  end.

Fixpoint think_loop (policy : option security_policy_t) (ptype : provider_type_t) (model api_key : cstr)
    (fuel : nat) (resp_size : nat) (t : turn) : option (turn * Z * cstr) :=
  match fuel with
  | O => Some (t, -1, snprintf_s resp_size (lit "Error: Max iterations (50) exceeded"))
  | S fuel' =>
      let '(w, resp) := chat g_dispatcher_type (t_world t) ptype model api_key (turn_context (context (t_agent t))) in
      let t := mk_turn w (t_agent t) (t_guard t) (t_ran t) (t_calls t) in
      match resp_content resp, turn_calls resp with
      | [], _ => Some (t, -1, snprintf_s resp_size (lit "Error: Failed to get response from provider"))
      | _, [] =>
          let response := snprintf_s resp_size (resp_content resp) in
          c ← chat_context_add_message (context (t_agent t)) (Some (lit "assistant")) (Some response);
          Some (mk_turn w (set_context (t_agent t) (agent_trim_history c) (tokens_used resp) 0)
                  (t_guard t) (t_ran t) (t_calls t), 0, response)
      | _, calls =>
          let a := t_agent t in
          let tools := tools_set_approval_context (mk_tools policy None false) (Some (approval_manager a)) (require_approval a) in
          r ← run_tool_calls tools calls t;
          match r with
          | inr (t, text) => Some (t, 0, snprintf_s resp_size text)
          | inl t =>
              think_loop policy ptype model api_key fuel' resp_size
                (mk_turn (t_world t) (set_context (t_agent t) (agent_trim_history (context (t_agent t))) 0 0)
                   (t_guard t) (t_ran t) (t_calls t))
          end
      end
  end.

Definition ENRICHED_LEN : nat := Z.to_nat 8192.

(** The message with the alerts and the memory in front of it; [None]: they
    alone are longer than the buffer, and the message is written outside. *)
Definition enrich (alert_text memory user_message : cstr) : option cstr :=
  let front :=
    (match alert_text with [] => [] | _ => alert_text ++ [10; 10] end) ++
    (match memory with [] => [] | _ => lit "Relevant memory context:" ++ [10] ++ memory ++ [10; 10] end) in
  match front with
  | [] => Some user_message
  | _ => if (ENRICHED_LEN <? length front)%nat then None else Some (snprintf_s ENRICHED_LEN (front ++ user_message))
  end.

(** Provider, model and key. *)
Definition choose_provider : option (provider_type_t * cstr * cstr) :=
  match getenv (lit "OPENROUTER_API_KEY") with
  | Some key => Some (PROVIDER_OPENROUTER, lit "openai/gpt-4o-mini", key)
  | None =>
      match getenv (lit "OPENAI_API_KEY") with
      | Some key => Some (PROVIDER_OPENAI, lit "gpt-4o-mini", key)
      | None => None
      end
  end.

Definition agent_think_with_tools (policy : option security_policy_t) (w : W) (g : guard_t) (a : agent_t)
    (user_message : cstr) (resp_size : nat) : option (turn * Z * cstr) :=
  text ← enrich (alerts w) (memory_context w user_message) user_message;
  c ← chat_context_add_message (context a) (Some (lit "user")) (Some text);
  let a := set_context a c 0 0 in
  let w := store_message w user_message in
  match choose_provider with
  | None =>
      Some (mk_turn w a g [] [], -1,
            snprintf_s resp_size
              (lit "Error: No API key configured. Set OPENROUTER_API_KEY or OPENAI_API_KEY"))
  | Some (ptype, model, key) =>
      think_loop policy ptype model key MAX_ITERATIONS resp_size (mk_turn w a (loop_guard_reset g) [] [])
  end.

(** ** Chat and tasks *)

(** The chunks of the index in a buffer of [size] bytes, as long as more than
    [reserve] bytes are left; [None]: a chunk does not fit. *)
Fixpoint rag_lines (reserve : Z) (i : nat) (chunks : list cstr) (w : writer) : option writer :=
  match chunks with
  | [] => Some w
  | c :: chunks' =>
      if reserve <? w_remaining w then
        w ← put w (lit "[" ++ fmt_dec (Z.of_nat i) ++ lit "] " ++ c ++ [10]);
        rag_lines reserve (S i) chunks' w
      else Some w
  end.

Definition rag_front (size : nat) (reserve : Z) (chunks : list cstr) : option writer :=
  w ← put (mk_writer [] (Z.of_nat size)) (lit "Relevant context from RAG:" ++ [10]);
  rag_lines reserve 1 chunks w.

Definition rag_path (a : agent_t) : cstr := snprintf_s 512 (workspace_dir a ++ lit "/rag.idx").

Definition rag_chunks (w : W) (a : agent_t) (query : cstr) (top_k : nat) : list cstr :=
  match workspace_dir a with [] => [] | _ => rag_query w (rag_path a) query top_k end.

Definition AUGMENTED_LEN : nat := Z.to_nat 8192.

Definition augment (chunks : list cstr) (message : cstr) : option cstr :=
  match chunks with
  | [] => Some message
  | _ =>
      f ← rag_front AUGMENTED_LEN 256 chunks;
      Some (snprintf_s AUGMENTED_LEN (w_text f ++ [10] ++ lit "User: " ++ message))
  end.

Definition finish (r : option (turn * Z * cstr)) (f : agent_t → agent_t) : option (turn * Z * cstr) :=
  '(t, rc, text) ← r;
  Some (mk_turn (t_world t) (f (t_agent t)) (t_guard t) (t_ran t) (t_calls t), rc, text).

Definition agent_chat (policy : option security_policy_t) (w : W) (g : guard_t) (a : agent_t)
    (message : cstr) (response_size : nat) : option (turn * Z * cstr) :=
  if (response_size =? 0)%nat then Some (mk_turn w a g [] [], -1, [])
  else
    let a := set_state a AGENT_STATE_THINKING in
    message ← augment (rag_chunks w a message 5) message;
    finish (agent_think_with_tools policy w g a message response_size) (λ a, set_state a AGENT_STATE_IDLE).

Definition agent_start (policy : option security_policy_t) (w : W) (g : guard_t) (a : agent_t)
    (message : cstr) : option (turn * Z * cstr) :=
  finish (agent_think_with_tools policy w g (set_state a AGENT_STATE_THINKING) message (Z.to_nat 16384))
    (λ a, set_state a AGENT_STATE_IDLE).

Definition TASK_LEN : nat := Z.to_nat 4096.

Definition task_instruction (task : cstr) : cstr :=
  lit "TASK (complete this fully before marking done):" ++ [10; 10] ++ task ++ [10; 10] ++
  lit "Use tools as needed. Stay focused on this task. " ++
  lit "When you have fully completed it, your final reply must include exactly " ++ TASK_COMPLETE_MARKER ++
  lit " and a brief summary. " ++ lit "Do not say " ++ TASK_COMPLETE_MARKER ++
  lit " until the task is actually done.".

Definition continue_instruction : cstr :=
  lit "Continue with the task. If you have fully completed it, respond with " ++ TASK_COMPLETE_MARKER ++
  lit " and a brief summary. " ++ lit "Otherwise continue with the next steps.".

Definition task_message (chunks : list cstr) (task : cstr) : option cstr :=
  match chunks with
  | [] => Some (snprintf_s TASK_LEN (task_instruction task))
  | _ =>
      f ← rag_front TASK_LEN 512 chunks;
      f ← put f [10];
      let rest := w_remaining f - 64 in
      if rest <? 0 then None
      else if 0 <? rest then Some (w_text f ++ snprintf_s (Z.to_nat rest) (task_instruction task))
      else Some (w_text f)
  end.

Definition response_indicates_task_complete (response : cstr) : bool := contains response TASK_COMPLETE_MARKER.

(** The rounds of a task, with the number of turns; [left] is
    [max_rounds - round]. *)
Fixpoint task_loop (policy : option security_policy_t) (left : nat) (user_msg : cstr) (response_size : nat)
    (w : W) (g : guard_t) (a : agent_t) (response : cstr) : option (turn * Z * cstr * nat) :=
  match left with
  | O => Some (mk_turn w a g [] [], 0, response, O)
  | S left' =>
      '(t, result, response) ← agent_think_with_tools policy w g a user_msg response_size;
      if negb (result =? 0) then Some (t, result, response, 1%nat)
      else if response_indicates_task_complete response then Some (t, 0, response, 1%nat)
      else
        '(t', rc, response, n) ← task_loop policy left' continue_instruction response_size
                                   (t_world t) (t_guard t) (t_agent t) response;
        Some (mk_turn (t_world t') (t_agent t') (t_guard t') (t_ran t ++ t_ran t') (t_calls t ++ t_calls t'),
              rc, response, S n)
  end.

(** [response0] is the content of the response buffer before the call. *)
Definition agent_run_task (policy : option security_policy_t) (w : W) (g : guard_t) (a : agent_t)
    (task response0 : cstr) (response_size : nat) : option (turn * Z * cstr * nat) :=
  if (response_size =? 0)%nat then Some (mk_turn w a g [] [], -1, response0, O)
  else
    let a := set_task a AGENT_STATE_THINKING (snprintf_s 1024 task) true in
    let max_rounds := if 0 <? max_attention_rounds a then max_attention_rounds a else DEFAULT_MAX_ATTENTION_ROUNDS in
    msg ← task_message (rag_chunks w a task 3) task;
    '(t, rc, response, n) ← task_loop policy (Z.to_nat max_rounds) msg response_size w g a response0;
    Some (mk_turn (t_world t) (set_task (t_agent t) AGENT_STATE_IDLE (current_task (t_agent t)) false)
            (t_guard t) (t_ran t) (t_calls t), rc, response, n).

End agent.

(** ** Trimming the history *)

Definition is_spoken (m : message_t) : bool := negb (is_system m).

Lemma keep_recent_spec n l : keep_recent n l = take n (List.filter is_spoken l).
Proof.
  revert n. induction l as [|m l IH]; intros [|n]; cbn [keep_recent List.filter]; [done..|by destruct (is_spoken m)|].
  unfold is_spoken at 1. destruct (is_system m); cbn [negb]; [apply IH|]. by rewrite IH.
Qed.

Lemma filter_split_length l :
  length l = (length (List.filter is_system l) + length (List.filter is_spoken l))%nat.
Proof.
  induction l as [|m l IH]; [done|]. cbn [List.filter length]. unfold is_spoken at 1.
  destruct (is_system m); cbn [negb length]; lia.
Qed.

Lemma lfilter_reverse (f : message_t → bool) l : List.filter f (reverse l) = reverse (List.filter f l).
Proof.
  induction l as [|m l IH]; [done|]. rewrite reverse_cons, List.filter_app, IH. cbn [List.filter].
  destruct (f m); [by rewrite reverse_cons | by rewrite app_nil_r].
Qed.

Lemma lfilter_all (f : message_t → bool) l : Forall (λ m, f m = true) l → List.filter f l = l.
Proof. induction 1 as [|m l Hm _ IH]; [done|]. cbn [List.filter]. by rewrite Hm, IH. Qed.

Lemma lfilter_none (f : message_t → bool) l : Forall (λ m, f m = false) l → List.filter f l = [].
Proof. induction 1 as [|m l Hm _ IH]; [done|]. cbn [List.filter]. by rewrite Hm, IH. Qed.

Lemma lfilter_Forall (f : message_t → bool) l : Forall (λ m, f m = true) (List.filter f l).
Proof.
  apply Forall_forall. intros m Hm%list_elem_of_In. by apply List.filter_In in Hm as [_ ?].
Qed.

Lemma lfilter_sub (P : message_t → Prop) f l : Forall P l → Forall P (List.filter f l).
Proof. induction 1 as [|m l Hm _ IH]; [done|]. cbn [List.filter]. destruct (f m); [by constructor | done]. Qed.

(** The two outcomes of trimming. *)
Lemma trim_cases c l :
  messages c = Some l →
  ((length (List.filter is_spoken l) ≤ 50)%nat ∧ agent_trim_history c = c) ∨
  ((50 < length (List.filter is_spoken l))%nat ∧
   messages (agent_trim_history c) =
     Some (List.filter is_system l ++ take 20 (reverse (List.filter is_spoken l))) ∧
   allocated (agent_trim_history c) = (length (List.filter is_system l) + 28)%nat ∧
   message_capacity (agent_trim_history c) = (length (List.filter is_system l) + 28)%nat).
Proof.
  intros Hl. unfold agent_trim_history, MAX_HISTORY_MESSAGES, COMPACTION_KEEP_RECENT.
  rewrite Hl. cbn [default from_option id]. pose proof (filter_split_length l) as Hs.
  destruct (length l <=? 50)%nat eqn:E1; bsplit; [left; split; [lia | done]|].
  destruct (length l - length (List.filter is_system l) <=? 50)%nat eqn:E2; bsplit; [left; split; [lia | done]|].
  right. cbn [messages allocated message_capacity]. rewrite keep_recent_spec, lfilter_reverse.
  rewrite length_app, length_take, length_reverse. split_and!; [lia | done | lia | lia].
Qed.

Lemma trim_inv c : chat_inv c → chat_inv (agent_trim_history c).
Proof.
  intros H. destruct (messages c) as [l|] eqn:Hl.
  2: { unfold agent_trim_history. by rewrite Hl. }
  destruct (trim_cases c l Hl) as [[_ ->]|(Hn & Hm & Ha & Hc)]; [done|].
  split; rewrite ?Ha, ?Hc; unfold message_count; rewrite ?Hm; cbn [default from_option id]; [lia| |lia|].
  - rewrite length_app, length_take. lia.
  - destruct H as [_ _ _ Hw]. rewrite Hl in Hw. cbn [default from_option id] in Hw.
    apply Forall_app. split; [by apply lfilter_sub|]. apply Forall_take, Forall_reverse. by apply lfilter_sub.
Qed.

Lemma trim_some c : messages c ≠ None → messages (agent_trim_history c) ≠ None.
Proof.
  intros H. destruct (messages c) as [l|] eqn:Hl; [|done].
  destruct (trim_cases c l Hl) as [[_ ->]|(_ & Hm & _)]; congruence.
Qed.

(** Trimming keeps a history of at most fifty messages of the
    conversation as it is; a longer one loses all but its twenty newest
    messages, and these come out in reverse order, the newest first.  The
    system messages are all kept, in order, and the new allocation has the
    room its capacity says. *)
Theorem trim_history_spec c l :
  chat_inv c → messages c = Some l →
  chat_inv (agent_trim_history c) ∧
  ∃ l', messages (agent_trim_history c) = Some l' ∧
    List.filter is_system l' = List.filter is_system l ∧
    (if (length (List.filter is_spoken l) <=? 50)%nat then l' = l
     else List.filter is_spoken l' = reverse (last_n 20 (List.filter is_spoken l))).
Proof.
  intros Hinv Hl. split; [by apply trim_inv|].
  destruct (trim_cases c l Hl) as [[Hn ->]|(Hn & Hm & _)].
  - exists l. rewrite (proj2 (Nat.leb_le _ _)) by done. done.
  - eexists. split; [exact Hm|]. rewrite (proj2 (Nat.leb_gt _ _)) by done.
    rewrite !List.filter_app, reverse_last_n.
    assert (Forall (λ m, is_spoken m = true) (take 20 (reverse (List.filter is_spoken l)))) as Hs
      by (apply Forall_take, Forall_reverse, lfilter_Forall).
    split.
    + rewrite (lfilter_all is_system (List.filter is_system l)) by apply lfilter_Forall.
      rewrite (lfilter_none is_system (take _ _)); [by rewrite app_nil_r|].
      eapply Forall_impl; [exact Hs|]. intros m Hm'. unfold is_spoken in Hm'. by apply negb_true_iff in Hm'.
    + rewrite (lfilter_all is_spoken (take _ _)) by done. rewrite (lfilter_none is_spoken (List.filter is_system l)); [done|].
      eapply Forall_impl; [apply lfilter_Forall|]. intros m Hm'. unfold is_spoken.
      cbn beta in Hm'. by rewrite Hm'.
Qed.

Definition history_ex : list message_t :=
  fmt_message (lit "system") (lit "p") ::
  map (λ i, fmt_message (lit "user") (fmt_dec (Z.of_nat i))) (seq 0 60).

Lemma trim_history_spec_witness :
  ∃ l', messages (agent_trim_history (mk_context (Some history_ex) 64 64 (f64_const 7 10) 4096 false)) = Some l' ∧
    List.filter is_system l' = List.filter is_system history_ex ∧
    (if (length (List.filter is_spoken history_ex) <=? 50)%nat then l' = history_ex
     else List.filter is_spoken l' = reverse (last_n 20 (List.filter is_spoken history_ex))).
Proof.
  apply (trim_history_spec (mk_context (Some history_ex) 64 64 (f64_const 7 10) 4096 false) history_ex); [|done].
  split; [vm_compute; lia | vm_compute; lia | intros _; vm_compute; lia |].
  apply Forall_forall. intros m Hm. apply list_elem_of_In in Hm.
  destruct Hm as [<-|Hm]; [apply fmt_message_wf|]. apply in_map_iff in Hm as (i & <- & _). apply fmt_message_wf.
Defined.

(** ** What a turn does to the context *)

Definition ctx_ok (c : chat_context_t) : Prop := chat_inv c ∧ messages c ≠ None.

(** The operations a turn applies to the context. *)
Inductive chat_reach (c : chat_context_t) : chat_context_t → Prop :=
  | reach_refl : chat_reach c c
  | reach_add c1 c2 r t :
      chat_reach c c1 → chat_context_add_message c1 (Some r) (Some t) = Some c2 → chat_reach c c2
  | reach_trim c1 : chat_reach c c1 → chat_reach c (agent_trim_history c1).

Lemma add_message_total c r t :
  ctx_ok c → ∃ c', chat_context_add_message c (Some r) (Some t) = Some c' ∧ ctx_ok c'.
Proof.
  intros [Hi Hm]. destruct (messages c) as [l|] eqn:Hl; [|done].
  destruct (add_message_ok c l r t Hi Hl) as (c' & Hc & Hi' & Hl'). exists c'. split; [done|].
  split; [done | congruence].
Qed.

Lemma chat_reach_ok c c' : ctx_ok c → chat_reach c c' → ctx_ok c'.
Proof.
  intros Hok. induction 1 as [|c1 c2 r t _ IH Ha|c1 _ [Hi Hm]]; [done| |].
  - destruct (add_message_total c1 r t IH) as (c' & Hc & Hok'). congruence.
  - split; [by apply trim_inv | by apply trim_some].
Qed.
#[export] Hint Constructors chat_reach : claw.

Section turns.
Context {W : Type} (os : W → syscall → answer) (strerror : cstr) (after : W → list syscall → W).
Context (other_tool : builtin → cstr → option outcome) (registered : cstr → option (cstr → outcome)).
Context (others : interference W) (dispatcher : dispatcher_type_t) (chat : dispatcher_type_t → W → provider_type_t → cstr → cstr → chat_context_t → W * chat_response_t).
Context (getenv : cstr → option cstr) (alerts : W → cstr) (memory_context : W → cstr → cstr) (store_message : W → cstr → W).
Context (policy : option security_policy_t).

#[local] Abbreviation exec := (agent_execute_tool_by_name os strerror other_tool registered).
#[local] Abbreviation run_calls := (run_tool_calls os strerror after other_tool registered others dispatcher).
#[local] Abbreviation loop := (think_loop os strerror after other_tool registered others dispatcher chat policy).
#[local] Abbreviation think :=
  (agent_think_with_tools os strerror after other_tool registered others dispatcher chat getenv alerts memory_context store_message policy).

(** The statics of the tools when a turn has set them for its agent. *)
Definition tools_of (a : agent_t) : tools_t :=
  tools_set_approval_context (mk_tools policy None false) (Some (approval_manager a)) (require_approval a).

(** ... and what they may be at a call. *)
Inductive reached_tools (a : agent_t) : tools_t → Prop :=
  | rt_set : reached_tools a (tools_of a)
  | rt_others w t : reached_tools a t → reached_tools a (others_tools others w t).

Lemma reached_context a c k n t : reached_tools a t → reached_tools (set_context a c k n) t.
Proof. induction 1 as [|w t _ IH]; [exact (rt_set (set_context a c k n)) | by apply rt_others]. Qed.

(** A property of turns that every step of the loop preserves. *)
Record turn_invariant (P : @turn W → Prop) : Prop := {
  ti_world : ∀ t w, P t → P (mk_turn w (t_agent t) (t_guard t) (t_ran t) (t_calls t));
  ti_refused : ∀ t name g,
    P t → loop_guard_check (others_guard others (t_world t) (t_guard t)) (Some name) = (g, false) →
    P (mk_turn (t_world t) (t_agent t) (others_guard others (t_world t) g) (t_ran t) (t_calls t));
  ti_ran : ∀ t tools name args g rc result sys,
    P t → reached_tools (t_agent t) tools →
    loop_guard_check (others_guard others (t_world t) (t_guard t)) (Some name) = (g, true) →
    exec (t_world t) tools name args RESULT_BUF = Some (rc, result, sys) →
    P (mk_turn (t_world t) (t_agent t) g (t_ran t ++ [name]) (t_calls t ++ sys));
  ti_context : ∀ t c k n,
    P t → chat_reach (context (t_agent t)) c →
    P (mk_turn (t_world t) (set_context (t_agent t) c k n) (t_guard t) (t_ran t) (t_calls t));
}.

Lemma run_calls_invariant P calls : turn_invariant P → ∀ tools t r,
  P t → reached_tools (t_agent t) tools → run_calls tools calls t = Some r →
  match r with inl t' => P t' | inr (t', _) => P t' end.
Proof.
  intros HP. induction calls as [|[name args] calls IH]; intros tools t r Ht Htools.
  - by intros [= <-].
  - cbn [run_tool_calls]. destruct (loop_guard_check _ (Some name)) as [g []] eqn:Eg; cbn [negb].
    2: { intros [= <-]. by eapply ti_refused. }
    cbn zeta. apply (rt_others _ (t_world t)) in Htools. set (tools' := others_tools others (t_world t) tools) in *.
    destruct (exec (t_world t) tools' name args RESULT_BUF) as [[[rc result] sys]|] eqn:Ee; [|done].
    cbn [mbind option_bind].
    destruct (chat_context_add_message _ _ _) as [c|] eqn:Ec; [|done]. cbn [mbind option_bind].
    apply IH; [|by apply reached_context].
    eapply ti_ran in Ee; [|done..]. apply (ti_world _ HP _ (after (t_world t) sys)) in Ee.
    eapply (ti_context _ HP _ c 0 1) in Ee; [exact Ee|]. cbn [t_agent]. eauto with claw.
Qed.

Lemma loop_invariant P ptype model key n : turn_invariant P → ∀ fuel t t' rc text,
  P t → loop ptype model key fuel n t = Some (t', rc, text) → P t'.
Proof.
  intros HP. induction fuel as [|fuel IH]; intros t t' rc text Ht; cbn [think_loop].
  - by intros [= <- _ _].
  - destruct (chat _ _ _ _ _ _) as [w resp]. apply (ti_world _ HP _ w) in Ht. cbn zeta.
    destruct (resp_content resp) as [|b0 s0]; [by intros [= <- _ _]|].
    destruct (turn_calls dispatcher resp) as [|x calls].
    + destruct (chat_context_add_message _ _ _) as [c|] eqn:Ec; [|done]. cbn [mbind option_bind].
      intros [= <- _ _]. eapply (ti_context _ HP) in Ht; [exact Ht|]. eauto with claw.
    + destruct (run_calls _ (x :: calls) _) as [r|] eqn:Er; [|done]. cbn [mbind option_bind].
      pose proof (run_calls_invariant P _ HP _ _ _ Ht (rt_set _) Er) as Hr.
      destruct r as [t1|[t1 text1]]; [|by intros [= <- _ _]]. apply IH.
      eapply (ti_context _ HP) in Hr; [exact Hr|]. eauto with claw.
Qed.

Lemma think_invariant P w g a msg n t rc text : turn_invariant P →
  (∀ w' g', (g' = g ∨ g' = loop_guard_reset g) → P (mk_turn w' a g' [] [])) →
  think w g a msg n = Some (t, rc, text) → P t.
Proof.
  intros HP H0. unfold agent_think_with_tools.
  destruct (enrich _ _ _) as [s|]; [|done]. cbn [mbind option_bind].
  destruct (chat_context_add_message _ _ _) as [c|] eqn:Ec; [|done]. cbn [mbind option_bind].
  assert (∀ w' g', (g' = g ∨ g' = loop_guard_reset g) → P (mk_turn w' (set_context a c 0 0) g' [] [])) as H1.
  { intros w' g' Hg. eapply (ti_context _ HP (mk_turn w' a g' [] [])); [by apply H0|]. cbn [t_agent]. eauto with claw. }
  destruct (choose_provider getenv) as [[[ptype model] key]|].
  - intros H. eapply loop_invariant in H; [exact H | done |]. apply H1. by right.
  - intros [= <- _ _]. apply H1. by left.
Qed.

(** ** Gated tools *)

Definition AGENT_TOOLS : list cstr :=
  [lit "shell"; lit "zsh"; lit "network"; lit "read_file"; lit "http_get"; lit "memory_store"; lit "memory_recall"].

Lemma tool_request_name name args tool params :
  tool_request name args = inl (tool, params) → tool = name ∧ name ∈ AGENT_TOOLS.
Proof.
  unfold tool_request. intros H.
  assert (∀ key n err, match scan_quoted (json_open (lit key)) n args with
    | Some (v, _) => inl (name, v) | None => inr (lit err) end = @inl (cstr * cstr) cstr (tool, params) → tool = name) as H1.
  { intros key n err. destruct (scan_quoted (json_open (lit key)) n args) as [[v r]|]; [congruence | done]. }
  repeat match type of H with
  | (if streq name ?l then _ else _) = _ =>
      destruct (streq name l) eqn:E; [apply streq_true in E; subst name; split;
        [first [by eapply H1 in H | idtac] | apply (bool_decide_unpack _); by vm_compute] | clear E]
  end; [|done].
  destruct (scan_quoted _ _ args) as [[k r]|]; [|done].
  destruct (scan_quoted _ _ r) as [[v r']|]; [by injection H | done].
Qed.

(** The tools ask for an approval that can be reached. *)
Definition gated_tools (t : tools_t) : Prop :=
  ∃ m, g_approval t = Some m ∧ g_require_approval t = true ∧ approval_reachable m.

(** With approval required no call by the model reaches the system. *)
Lemma exec_gated w t name args n rc text sys :
  gated_tools t →
  registered (lit "read_file") = None → registered (lit "http_get") = None →
  exec w t name args n = Some (rc, text, sys) → sys = [].
Proof.
  intros (m & Hm & Hreq & Hr) Hrf Hhg. unfold agent_execute_tool_by_name.
  destruct (tool_request name args) as [[tool params]|err] eqn:Et; [|by intros [= _ _ <-]].
  apply tool_request_name in Et as [-> Hin].
  destruct (tools_execute _ _ _ _ _ _ _) as [o|] eqn:Eo; [|done]. cbn [mbind option_bind].
  intros [= _ _ <-].
  assert (∀ b c, find_builtin name = Some b → risky_action b = Some c → o_calls o = []) as Hrisky.
  { intros b c Hb Hc. by rewrite (risky_refused _ _ _ _ _ m name params b c) in Eo; [injection Eo as <-|..]. }
  apply list_elem_of_In in Hin. cbn [AGENT_TOOLS In] in Hin.
  destruct Hin as [<-|[<-|[<-|[<-|[<-|[<-|[<-|[]]]]]]]].
  - by eapply (Hrisky T_shell).
  - by eapply (Hrisky T_zsh).
  - by eapply (Hrisky T_network).
  - unfold tools_execute in Eo. change (find_builtin (lit "read_file")) with (@None builtin) in Eo.
    cbv iota in Eo. rewrite Hrf in Eo. by injection Eo as <-.
  - unfold tools_execute in Eo. change (find_builtin (lit "http_get")) with (@None builtin) in Eo.
    cbv iota in Eo. rewrite Hhg in Eo. by injection Eo as <-.
  - change (Some (let o := tool_memory_store_execute params in mk_outcome (if o_rc o =? 0 then 0 else -1)
      (mk_result (r_result (o_result o)) (o_rc o =? 0) (Tools.r_error (o_result o))) (o_calls o)) = Some o) in Eo.
    injection Eo as <-. cbn [o_calls]. unfold tool_memory_store_execute.
    repeat destruct (parse_string_param _ _) as [? ?]. by case_if.
  - change (Some (let o := tool_memory_recall_execute params in mk_outcome (if o_rc o =? 0 then 0 else -1)
      (mk_result (r_result (o_result o)) (o_rc o =? 0) (Tools.r_error (o_result o))) (o_calls o)) = Some o) in Eo.
    injection Eo as <-. cbn [o_calls]. unfold tool_memory_recall_execute.
    repeat destruct (parse_string_param _ _) as [? ?]. by case_if.
Qed.

Record gated (t : @turn W) : Prop := {
  gt_req : require_approval (t_agent t) = true;
  gt_reach : approval_reachable (approval_manager (t_agent t));
  gt_calls : t_calls t = [];
}.

(** What C5 relies on: the other workers leave the gate closed.  A turn of
    another agent that requires approval does, [agent_free] does not. *)
Definition keeps_gate : Prop := ∀ w t, gated_tools t → gated_tools (others_tools others w t).

Lemma gated_reached a t :
  keeps_gate → require_approval a = true → approval_reachable (approval_manager a) →
  reached_tools a t → gated_tools t.
Proof. intros Hk Hq Hr. induction 1 as [|w t _ IH]; [by eexists|]. by apply Hk. Qed.

Lemma gated_invariant :
  keeps_gate → registered (lit "read_file") = None → registered (lit "http_get") = None → turn_invariant gated.
Proof.
  intros Hk Hrf Hhg. split.
  - intros t w [? ? ?]. by split.
  - intros t name g [? ? ?] _. by split.
  - intros t tools name args g rc result sys [Hq Hr Hc] Ht _ He. split; [done..|].
    cbn [t_calls]. rewrite Hc. eapply exec_gated in He; [done| |done..]. by eapply gated_reached.
  - intros t c k n [? ? ?] _. by split.
Qed.

(** C5: as long as no other worker opens the gate, which is a static variable
    (the [agent_free] of any other worker does open it), an agent that requires
    approval runs nothing on the system in a whole turn, whatever the model
    answers, if no tool is registered as read_file or http_get. *)
Theorem gated_turn_makes_no_calls w g a msg n t rc text :
  keeps_gate →
  require_approval a = true → approval_reachable (approval_manager a) →
  registered (lit "read_file") = None → registered (lit "http_get") = None →
  agent_think_with_tools os strerror after other_tool registered others dispatcher chat getenv alerts memory_context store_message policy
    w g a msg n = Some (t, rc, text) →
  t_calls t = [].
Proof.
  intros Hk Hreq Hr Hrf Hhg H. eapply (think_invariant gated) in H; [by destruct H | by apply gated_invariant |].
  intros w' g' _. by split.
Qed.

(** ** The loop guard in the turn *)

(** The guard has seen the tools the turn ran, and no five of them in a row
    were equal; once it has tripped nothing more is run. *)
Record watched (t : @turn W) : Prop := {
  wt_inv : guard_inv (t_guard t);
  wt_calls : g_tripped (t_guard t) = false →
    calls (t_guard t) = take 16 (reverse (map (snprintf_s 64) (t_ran t)));
  wt_quiet : ∀ k, five_equal (drop k (reverse (map (snprintf_s 64) (t_ran t)))) = false;
}.

Lemma five_equal_take h : five_equal (take 16 h) = five_equal h.
Proof. by destruct h as [|? [|? [|? [|? [|? ?]]]]]. Qed.

Lemma check_tripped g name : g_tripped g = true → loop_guard_check g (Some name) = (g, false).
Proof. intros H. unfold loop_guard_check. by rewrite H. Qed.

(** What C6 relies on: no other turn touches the guard. *)
Definition keeps_guard : Prop := ∀ w g, others_guard others w g = g.

Lemma watched_invariant : keeps_guard → turn_invariant watched.
Proof.
  intros Hk. split.
  - intros t w [? ? ?]. by split.
  - intros t name g [Hi Hc Hq] Hg. rewrite Hk in Hg |- *. destruct (g_tripped (t_guard t)) eqn:Et.
    + rewrite check_tripped in Hg by done. injection Hg as <-. by split; [|cbn [t_guard]; rewrite Et|].
    + pose proof (check_refines (t_guard t) name Hi Et) as H. rewrite Hg in H. destruct H as (Hi' & _ & _ & Ht).
      split; [done| |done]. cbn [t_guard]. by rewrite Ht.
  - intros t tools name args g rc result sys [Hi Hc Hq] _ Hg _. rewrite Hk in Hg. destruct (g_tripped (t_guard t)) eqn:Et.
    { by rewrite check_tripped in Hg. }
    pose proof (check_refines (t_guard t) name Hi Et) as H. rewrite Hg in H.
    destruct H as (Hi' & Hc' & Hl & Ht). rewrite (Hc eq_refl) in Hc'.
    assert (calls g = take 16 (reverse (map (snprintf_s 64) (t_ran t ++ [name])))) as Hcg.
    { rewrite Hc', map_app, reverse_app. cbn [map reverse rev_append app].
      change (reverse [snprintf_s 64 name] ++ reverse (map (snprintf_s 64) (t_ran t)))
        with (snprintf_s 64 name :: reverse (map (snprintf_s 64) (t_ran t))).
      rewrite !firstn_cons. f_equal. by rewrite take_take. }
    split; cbn [t_guard t_ran]; [done|done|]. intros [|k].
    + rewrite drop_0, <- five_equal_take, <- Hcg. symmetry in Hl. apply negb_true_iff in Hl.
      unfold loops in Hl. by apply orb_false_iff in Hl as [? _].
    + rewrite map_app, reverse_app. apply (Hq k).
  - intros t c k n [? ? ?] _. by split.
Qed.

(** C6: when no other worker uses the loop guard during the turn (the guard is a
    static variable, and every turn of the process resets and feeds it), the
    agent never runs the same tool five times in a row (names compared by their
    first 63 bytes), whatever the model asks for. *)
Theorem turn_never_repeats_five w g a msg n t rc text l1 x l2 :
  keeps_guard → guard_inv g →
  agent_think_with_tools os strerror after other_tool registered others dispatcher chat getenv alerts memory_context store_message policy
    w g a msg n = Some (t, rc, text) →
  map (snprintf_s 64) (t_ran t) = l1 ++ replicate 5 x ++ l2 → False.
Proof.
  intros Hk Hg H Heq.
  assert (P : watched t ∨ t_ran t = []).
  { destruct (choose_provider getenv) as [[[ptype model] key]|] eqn:Ep.
    - left. unfold agent_think_with_tools in H. rewrite Ep in H.
      destruct (enrich _ _ _) as [s|]; [|done]. cbn [mbind option_bind] in H.
      destruct (chat_context_add_message _ _ _) as [c|]; [|done]. cbn [mbind option_bind] in H.
      eapply loop_invariant in H; [exact H | by apply watched_invariant|].
      split; [by destruct Hg; split; cbn; [|lia] | done | by intros [|k]].
    - right. unfold agent_think_with_tools in H. rewrite Ep in H.
      destruct (enrich _ _ _) as [s|]; [|done]. cbn [mbind option_bind] in H.
      destruct (chat_context_add_message _ _ _) as [c|]; [|done]. cbn [mbind option_bind] in H.
      by injection H as <- _ _. }
  destruct P as [[_ _ Hq]|Hr].
  - specialize (Hq (length l2)). rewrite Heq, !reverse_app, <- app_assoc in Hq.
    rewrite drop_app_length' in Hq by (by rewrite length_reverse).
    rewrite reverse_replicate in Hq. cbn [replicate app five_equal] in Hq. by rewrite !streq_refl in Hq.
  - rewrite Hr in Heq. apply (f_equal length) in Heq. rewrite !length_app in Heq. cbn [map length replicate] in Heq. lia.
Qed.

(** ** Every turn ends *)

Lemma parsed_calls_length r : (length (parsed_calls r) ≤ 16)%nat.
Proof. unfold parsed_calls. rewrite length_map, length_take. lia. Qed.

Lemma turn_calls_length d r : (length (turn_calls d r) ≤ 16)%nat.
Proof.
  unfold turn_calls. case_if; [apply parsed_calls_length|]. destruct d; [cbn; lia|]. apply parse_bounds.
Qed.

(** The tools the model can ask for. *)
Lemma tool_request_plain name args tool params b :
  tool_request name args = inl (tool, params) → find_builtin tool = Some b → plain_tool b = true.
Proof.
  unfold tool_request. intros Hr.
  repeat (case_match; simplify_eq; try (match goal with E : streq _ _ = true |- _ => apply streq_true in E; subst end;
    repeat case_match; simplify_eq; vm_compute; by intros [= <-])).
Qed.

Section total.
Hypothesis Hout : ∀ w c, Z.of_nat (length (output (os w c))) < SHELL_MAX_OUTPUT - 10.

Lemma exec_total w t name args n : ∃ rc text sys, exec w t name args n = Some (rc, text, sys).
Proof.
  unfold agent_execute_tool_by_name. destruct (tool_request name args) as [[tool params]|] eqn:Er; [|by eexists _, _, _].
  destruct (tools_execute_total (os w) strerror other_tool registered t tool params) as [o ->];
    [intros b; by eapply tool_request_plain|done|by eexists _, _, _].
Qed.

Lemma run_calls_total cs : ∀ tools t, ctx_ok (context (t_agent t)) →
  ∃ r, run_calls tools cs t = Some r ∧
    match r with inl t' | inr (t', _) =>
      ctx_ok (context (t_agent t')) ∧ (length (t_ran t') ≤ length (t_ran t) + length cs)%nat end.
Proof.
  induction cs as [|[name args] cs IH]; intros tools t Hok.
  - eexists. split; [done|]. cbn [length]. split; [done | lia].
  - cbn [run_tool_calls]. destruct (loop_guard_check _ _) as [g []]; cbn [negb].
    2: { eexists. split; [done|]. cbn [t_agent t_ran]. split; [done | lia]. }
    destruct (exec_total (t_world t) (others_tools others (t_world t) tools) name args RESULT_BUF) as (rc & text & sys & ->).
    cbn [mbind option_bind].
    edestruct add_message_total as (c & -> & Hc); [exact Hok|]. cbn [mbind option_bind].
    edestruct IH as (r & -> & Hr); [|exists r; split; [done|]]; [done|].
    cbn [t_ran] in Hr. rewrite length_app in Hr. cbn [length] in *. destruct r as [t'|[t' ?]]; (split; [apply Hr | lia]).
Qed.

Lemma loop_total ptype model key n fuel : ∀ t, ctx_ok (context (t_agent t)) → (0 < n)%nat →
  ∃ t' rc text, loop ptype model key fuel n t = Some (t', rc, text) ∧ ctx_ok (context (t_agent t')) ∧
    (length text < n)%nat ∧ (length (t_ran t') ≤ length (t_ran t) + 16 * fuel)%nat.
Proof.
  induction fuel as [|fuel IH]; intros t Hok Hn; cbn [think_loop].
  - eexists _, _, _. split; [done|]. split_and!; [done | by apply snprintf_s_length | lia].
  - destruct (chat _ _ _ _ _ _) as [w resp]. cbn zeta.
    destruct (resp_content resp) as [|b0 s0].
    { eexists _, _, _. split; [done|]. cbn [t_agent t_ran]. split_and!; [done | by apply snprintf_s_length | lia]. }
    pose proof (turn_calls_length dispatcher resp) as Hl. destruct (turn_calls dispatcher resp) as [|x cs].
    + edestruct add_message_total as (c & Ec & Hc); [exact Hok|]. cbn [t_agent]. rewrite Ec. cbn [mbind option_bind].
      eexists _, _, _. split; [done|]. cbn [t_agent t_ran context set_context].
      split_and!; [eapply (chat_reach_ok c); eauto with claw | by apply snprintf_s_length | lia].
    + edestruct (run_calls_total (x :: cs) (tools_of (t_agent t))) as (r & -> & Hr); [exact Hok|]. cbn [mbind option_bind t_ran] in *.
      destruct r as [t1|[t1 text1]]; destruct Hr as [Hok1 Hl1].
      * edestruct IH as (t' & rc & text & -> & H1 & H2 & H3); [|exact Hn|].
        { cbn [t_agent context set_context]. eapply (chat_reach_ok (context (t_agent t1))); eauto with claw. }
        eexists _, _, _. split; [done|]. cbn [t_ran] in H3. split_and!; [done..|]. cbn [length] in *. lia.
      * eexists _, _, _. split; [done|]. split_and!; [done | by apply snprintf_s_length |]. cbn [length] in *. lia.
Qed.

Lemma enrich_total m u s : (length m + length u + 29 ≤ ENRICHED_LEN)%nat → ∃ text, enrich m u s = Some text.
Proof.
  intros H. unfold enrich.
  set (front := _ ++ _).
  assert (length front ≤ ENRICHED_LEN)%nat as Hf.
  { subst front. rewrite length_app. destruct m, u; rewrite ?length_app; cbn [length] in *;
      change (length (lit "Relevant memory context:")) with 24%nat; lia. }
  destruct front as [|b f]; [by eexists|]. rewrite (proj2 (Nat.ltb_ge _ _)) by done. by eexists.
Qed.

Lemma think_total w g a msg n :
  ctx_ok (context a) → (0 < n)%nat →
  (length (alerts w) + length (memory_context w msg) + 29 ≤ ENRICHED_LEN)%nat →
  ∃ t rc text, think w g a msg n = Some (t, rc, text) ∧ ctx_ok (context (t_agent t)) ∧
    (length text < n)%nat ∧ (length (t_ran t) ≤ 800)%nat.
Proof.
  intros Hok Hn He. unfold agent_think_with_tools.
  destruct (enrich_total _ _ msg He) as [s ->]. cbn [mbind option_bind].
  edestruct (add_message_total (context a)) as (c & -> & Hc); [done|]. cbn [mbind option_bind].
  destruct (choose_provider getenv) as [[[ptype model] key]|].
  - destruct (loop_total ptype model key n MAX_ITERATIONS
      (mk_turn (store_message w msg) (set_context a c 0 0) (loop_guard_reset g) [] [])) as (t & rc & text & -> & H1 & H2 & H3); [done..|].
    eexists _, _, _. split; [done|]. by split_and!.
  - eexists _, _, _. split; [done|]. cbn [t_ran length]. split_and!; [done | by apply snprintf_s_length | lia].
Qed.

(** Every turn ends: with command outputs that fit the tools' buffer and
    alerts and memory texts that together fit the message buffer, a turn
    writes no message outside the context, runs at most 800 tools, leaves the
    context in order and gives a response that fits the caller's buffer. *)
Theorem turn_completes w g a msg n :
  ctx_ok (context a) → (0 < n)%nat →
  (length (alerts w) + length (memory_context w msg) + 29 ≤ ENRICHED_LEN)%nat →
  ∃ t rc text, think w g a msg n = Some (t, rc, text) ∧ ctx_ok (context (t_agent t)) ∧
    (length text < n)%nat ∧ (length (t_ran t) ≤ 800)%nat.
Proof. apply think_total. Qed.
End total.
End turns.

(** ** A model to run against *)

(** A world that counts the calls of the model: it asks for the shell twice
    and then answers. *)
Definition chat_ex (_ : dispatcher_type_t) (w : nat) (_ : provider_type_t) (_ _ : cstr) (_ : chat_context_t) : nat * chat_response_t :=
  (S w, if (w <? 2)%nat
        then mk_chat_response (lit "working") 10 0 10 true
               [(lit "shell", json_open (lit "command") ++ lit "ls" ++ [34; 125])] 1 []
        else mk_chat_response (lit "[TASK_COMPLETE] ok") 10 0 10 true [] 0 []).
Definition getenv_ex (_ : cstr) : option cstr := Some (lit "key").
Definition os_ex (_ : nat) (_ : syscall) : answer := mk_answer 0 (lit "file.txt") false.
Definition other_ex (_ : builtin) (_ : cstr) : option outcome := Some (refuse [] []).
#[local] Abbreviation think_ex a :=
  (agent_think_with_tools os_ex [] (λ w _, w) other_ex (λ _, None) alone DISPATCHER_NATIVE chat_ex getenv_ex (λ _, []) (λ _ _, []) (λ w _, w)
    None O guard_zero a (lit "hello") 1024).
Definition agent_ex (req : bool) : agent_t :=
  default (mk_agent [] AGENT_STATE_IDLE chat_context_init [] [] [] 0 0 0 approval_manager_init req [] false 0 [])
    (agent_init 1 2 3 (mk_agent_config (lit "/ws") req)).2.

Lemma init_ctx_ok r1 r2 now cfg a : (agent_init r1 r2 now cfg).2 = Some a → ctx_ok (context a).
Proof.
  unfold agent_init. cbn [snd].
  destruct (add_message_total chat_context_init (lit "system") SYSTEM_PROMPT) as (c & -> & Hc).
  - split; [apply chat_init_inv | done].
  - cbn [mbind option_bind]. by intros [= <-].
Qed.

Lemma think_ex_some req : ∃ t rc text, think_ex (agent_ex req) = Some (t, rc, text).
Proof.
  assert (match think_ex (agent_ex req) with Some _ => true | None => false end = true) as H
    by (destruct req; vm_compute; reflexivity).
  destruct (think_ex (agent_ex req)) as [[[t rc] text]|]; [by eexists _, _, _ | done].
Qed.

(** Another worker that runs a turn of its own agent, which requires approval
    too, puts its manager into the static variable. *)
Definition others_ex : interference nat :=
  mk_others (λ _ g, g) (λ _ t, tools_set_approval_context t (Some approval_manager_init) true).

#[local] Abbreviation gated_ex :=
  (agent_think_with_tools os_ex [] (λ w _, w) other_ex (λ _, None) others_ex DISPATCHER_NATIVE chat_ex getenv_ex (λ _, []) (λ _ _, [])
    (λ w _, w) None O guard_zero (agent_ex true) (lit "hello") 1024).

Lemma gated_turn_makes_no_calls_witness :
  ∃ t rc text, gated_ex = Some (t, rc, text) ∧ t_calls t = [].
Proof.
  assert (match gated_ex with Some _ => true | None => false end = true) as H by (vm_compute; reflexivity).
  destruct gated_ex as [[[t rc] text]|] eqn:E; [|discriminate H]. exists t, rc, text. split; [reflexivity|].
  refine (gated_turn_makes_no_calls os_ex [] (λ w _, w) other_ex (λ _, None) others_ex DISPATCHER_NATIVE chat_ex getenv_ex (λ _, []) (λ _ _, [])
    (λ w _, w) None O guard_zero (agent_ex true) (lit "hello") 1024 t rc text _ _ _ _ _ E).
  - intros w tools _. exists approval_manager_init. split; [reflexivity|]. split; [reflexivity|]. apply reach_init.
  - reflexivity.
  - apply reach_init.
  - reflexivity.
  - reflexivity.
Defined.

Lemma turn_never_repeats_five_witness :
  ∃ t rc text, think_ex (agent_ex false) = Some (t, rc, text) ∧
    ∀ l1 x l2, map (snprintf_s 64) (t_ran t) = l1 ++ replicate 5 x ++ l2 → False.
Proof.
  destruct (think_ex_some false) as (t & rc & text & E). exists t, rc, text. split; [exact E|]. intros l1 x l2.
  exact (turn_never_repeats_five os_ex [] (λ w _, w) other_ex (λ _, None) alone DISPATCHER_NATIVE chat_ex getenv_ex (λ _, []) (λ _ _, []) (λ w _, w)
    None O guard_zero (agent_ex false) (lit "hello") 1024 t rc text l1 x l2 (λ _ _, eq_refl) guard_zero_inv E).
Defined.

(** A model that asks for the shell for ever. *)
Definition chat_again (_ : dispatcher_type_t) (w : nat) (_ : provider_type_t) (_ _ : cstr) (_ : chat_context_t) : nat * chat_response_t :=
  (w, mk_chat_response (lit "working") 10 0 10 true
        [(lit "shell", json_open (lit "command") ++ lit "ls" ++ [34; 125])] 1 []).

(** The guard does not hold among workers: when the turns of other workers
    reset it between the calls, the same tool runs in each of the fifty rounds
    of a turn. *)
Theorem other_turns_disarm_guard :
  (λ r, t_ran r.1.1) <$>
    agent_think_with_tools os_ex [] (λ w _, w) other_ex (λ _, None) (mk_others (λ _ g, loop_guard_reset g) (λ _ t, t))
      DISPATCHER_NATIVE chat_again getenv_ex (λ _, []) (λ _ _, []) (λ w _, w)
      None O guard_zero (agent_ex false) (lit "hello") 1024 = Some (replicate 50 (lit "shell")).
Proof. vm_compute. reflexivity. Qed.

Lemma turn_completes_witness :
  ∃ t rc text, think_ex (agent_ex false) = Some (t, rc, text) ∧ ctx_ok (context (t_agent t)) ∧
    (length text < 1024)%nat ∧ (length (t_ran t) ≤ 800)%nat.
Proof.
  apply turn_completes; [intros; vm_compute; reflexivity | | lia | vm_compute; lia].
  apply (init_ctx_ok 1 2 3 (mk_agent_config (lit "/ws") false)). vm_compute. reflexivity.
Defined.

(** ** Context from the index *)

Lemma rag_lines_fit reserve chunks : ∀ i w,
  Forall (λ c, (length c < 512)%nat) chunks → (i + length chunks ≤ 10)%nat →
  520 * Z.of_nat (length chunks) <= w_remaining w →
  ∃ w', rag_lines reserve i chunks w = Some w' ∧
        w_remaining w - 520 * Z.of_nat (length chunks) <= w_remaining w' ∧
        Z.of_nat (length (w_text w')) + w_remaining w' = Z.of_nat (length (w_text w)) + w_remaining w.
Proof.
  induction chunks as [|c chunks IH]; intros i w Hc Hi Hw; cbn [rag_lines length] in *.
  - exists w. split; [done | lia].
  - apply Forall_cons in Hc as [Hc Hcs]. case_if; [|exists w; split; [done | lia]].
    set (s := lit "[" ++ fmt_dec (Z.of_nat i) ++ lit "] " ++ c ++ [10]).
    assert (length s ≤ 520)%nat as Hs.
    { subst s. rewrite !length_app. pose proof (fmt_dec_length 1 (Z.of_nat i)) as Hd.
      cbn [length lit]. specialize (Hd ltac:(lia) ltac:(lia)). lia. }
    rewrite put_fits by lia. cbn [mbind option_bind].
    destruct (IH (S i) (mk_writer (w_text w ++ s) (w_remaining w - Z.of_nat (length s)))) as (w' & -> & H1 & H2);
      cbn [w_remaining w_text] in *; [done | lia | lia |].
    exists w'. rewrite length_app in H2. split; [done | lia].
Qed.

Lemma rag_front_fits size reserve chunks :
  Forall (λ c, (length c < 512)%nat) chunks → (length chunks ≤ 9)%nat →
  27 + 520 * Z.of_nat (length chunks) <= Z.of_nat size →
  ∃ w, rag_front size reserve chunks = Some w ∧
       Z.of_nat size - 27 - 520 * Z.of_nat (length chunks) <= w_remaining w ∧
       Z.of_nat (length (w_text w)) + w_remaining w = Z.of_nat size.
Proof.
  intros Hc Hn Hs. unfold rag_front. set (h := lit "Relevant context from RAG:" ++ [10]).
  assert (length h = 27%nat) as Hh by done. rewrite put_fits by (cbn [w_remaining]; lia).
  cbn [mbind option_bind w_text w_remaining app].
  destruct (rag_lines_fit reserve chunks 1 (mk_writer h (Z.of_nat size - Z.of_nat (length h)))) as (w & Hw & H1 & H2);
    cbn [w_remaining w_text] in *; [done | lia | lia |].
  exists w. split; [done | lia].
Qed.

(** The context from the RAG index never overruns the message buffers:
    with at most five chunks for a chat message, three for a task, and chunks
    of less than 512 bytes, the message handed to the model is built inside
    its buffer of 8192 or 4096 bytes. *)
Theorem rag_context_fits chunks message :
  Forall (λ c, (length c < 512)%nat) chunks →
  ((0 < length chunks ≤ 5)%nat → ∃ text, augment chunks message = Some text ∧ (length text < AUGMENTED_LEN)%nat) ∧
  ((length chunks ≤ 3)%nat → ∃ text, task_message chunks message = Some text ∧ (length text < TASK_LEN)%nat).
Proof.
  intros Hc. split; intros Hn.
  - unfold augment. destruct chunks as [|c chunks]; [cbn [length] in Hn; lia|].
    destruct (rag_front_fits AUGMENTED_LEN 256 (c :: chunks)) as (w & -> & _); [done | lia | unfold AUGMENTED_LEN; lia |].
    cbn [mbind option_bind]. eexists. split; [done|]. apply snprintf_s_length. unfold AUGMENTED_LEN. lia.
  - unfold task_message. destruct chunks as [|c chunks].
    { eexists. split; [done|]. apply snprintf_s_length. unfold TASK_LEN. lia. }
    destruct (rag_front_fits TASK_LEN 512 (c :: chunks)) as (w & -> & H1 & H2); [done | lia | unfold TASK_LEN; lia |].
    assert (2000 <= w_remaining w) as Hw by (unfold TASK_LEN in *; lia).
    cbn [mbind option_bind]. rewrite put_fits by (cbn [length]; lia). cbn [mbind option_bind w_remaining w_text length].
    rewrite (proj2 (Z.ltb_ge _ _)), (proj2 (Z.ltb_lt _ _)) by lia. eexists. split; [done|].
    rewrite !length_app. cbn [length].
    pose proof (snprintf_s_length (Z.to_nat (w_remaining w - Z.of_nat 1 - 64)) (task_instruction message) ltac:(lia)).
    lia.
Qed.

Lemma rag_context_fits_witness :
  ∃ text, task_message [lit "alpha"; lit "beta"] (lit "do it") = Some text ∧ (length text < TASK_LEN)%nat.
Proof. apply (rag_context_fits [lit "alpha"; lit "beta"]); [repeat constructor; vm_compute; lia | vm_compute; lia]. Defined.

(** ** Tasks *)

Section tasks.
Context {W : Type} (os : W → syscall → answer) (strerror : cstr) (after : W → list syscall → W).
Context (other_tool : builtin → cstr → option outcome) (registered : cstr → option (cstr → outcome)).
Context (others : interference W) (dispatcher : dispatcher_type_t) (chat : dispatcher_type_t → W → provider_type_t → cstr → cstr → chat_context_t → W * chat_response_t).
Context (getenv : cstr → option cstr) (alerts : W → cstr) (memory_context : W → cstr → cstr) (store_message : W → cstr → W).
Context (rag_query : W → cstr → cstr → nat → list cstr).
Context (policy : option security_policy_t).

#[local] Abbreviation think :=
  (agent_think_with_tools os strerror after other_tool registered others dispatcher chat getenv alerts memory_context store_message policy).
#[local] Abbreviation tasks :=
  (task_loop os strerror after other_tool registered others dispatcher chat getenv alerts memory_context store_message policy).
#[local] Abbreviation chat_with :=
  (agent_chat os strerror after other_tool registered others dispatcher chat getenv alerts memory_context store_message rag_query policy).
#[local] Abbreviation run_task :=
  (agent_run_task os strerror after other_tool registered others dispatcher chat getenv alerts memory_context store_message rag_query policy).

Lemma loop_fits ptype model key n fuel : ∀ t t' rc text,
  (0 < n)%nat →
  think_loop os strerror after other_tool registered others dispatcher chat policy ptype model key fuel n t = Some (t', rc, text) →
  (length text < n)%nat.
Proof.
  induction fuel as [|fuel IH]; intros t t' rc text Hn; cbn [think_loop].
  - intros [= _ _ <-]. by apply snprintf_s_length.
  - destruct (chat _ _ _ _ _ _) as [w resp]. cbn zeta.
    destruct (resp_content resp) as [|b0 s0]; [intros [= _ _ <-]; by apply snprintf_s_length|].
    destruct (turn_calls dispatcher resp) as [|x cs].
    + destruct (chat_context_add_message _ _ _); [|done]. intros [= _ _ <-]. by apply snprintf_s_length.
    + destruct (run_tool_calls _ _ _ _ _ _ _ _ _ _) as [[t1|[t1 text1]]|]; cbn [mbind option_bind]; [|intros [= _ _ <-]; by apply snprintf_s_length|done].
      by apply IH.
Qed.

Lemma think_fits w g a msg n t rc text :
  (0 < n)%nat → think w g a msg n = Some (t, rc, text) → (length text < n)%nat.
Proof.
  intros Hn. unfold agent_think_with_tools. destruct (enrich _ _ _); [|done]. cbn [mbind option_bind].
  destruct (chat_context_add_message _ _ _); [|done]. cbn [mbind option_bind].
  destruct (choose_provider getenv) as [[[? ?] ?]|]; [by apply loop_fits|].
  intros [= _ _ <-]. by apply snprintf_s_length.
Qed.

Lemma task_loop_fits left : ∀ msg n w g a r0 t rc text k,
  (length r0 < n)%nat → tasks left msg n w g a r0 = Some (t, rc, text, k) → (length text < n)%nat.
Proof.
  induction left as [|left IH]; intros msg n w g a r0 t rc text k Hr; cbn [task_loop].
  - by intros [= _ _ <- _].
  - destruct (think w g a msg n) as [[[t1 rc1] text1]|] eqn:E; [|done]. cbn [mbind option_bind].
    apply think_fits in E; [|lia]. case_if; [by intros [= _ _ <- _]|]. case_if; [by intros [= _ _ <- _]|].
    destruct (tasks _ _ _ _ _ _ _) as [[[[t2 rc2] text2] k2]|] eqn:E2; [|done]. cbn [mbind option_bind].
    intros [= _ _ <- _]. by eapply IH in E2.
Qed.

(** The agent as the worker pool sees it: it starts in a world [w], and a run
    that would leave its buffers gives no answer. *)
#[export] Instance agent_ops (r1 r2 now : Z) (w : W) : AgentOps agent_config agent_t := {|
  JobWorker.config_workspace := cfg_workspace_dir;
  JobWorker.agent_init := agent_init r1 r2 now;
  JobWorker.agent_run_task a p n :=
    match run_task w guard_zero a p [] n with Some (_, rc, text, _) => (rc, text) | None => (-1, []) end;
  JobWorker.agent_chat a p n :=
    match chat_with w guard_zero a p n with Some (_, rc, text) => (rc, text) | None => (-1, []) end;
|}.

(** The agent keeps the promise the worker pool relies on. *)
#[export] Instance agent_laws r1 r2 now w : AgentLaws (agent_ops r1 r2 now w).
Proof.
  split; [done|intros a p n Hn; cbn [JobWorker.agent_run_task JobWorker.agent_chat agent_ops]..].
  - unfold agent_run_task. rewrite (proj2 (Nat.eqb_neq _ _)) by lia. cbn zeta.
    destruct (task_message _ _) as [msg|]; cbn [mbind option_bind]; [|done].
    destruct (tasks _ _ _ _ _ _ _) as [[[[t2 rc2] text2] k2]|] eqn:E2; cbn [mbind option_bind snd]; [|done].
    by eapply task_loop_fits in E2.
  - unfold agent_chat. rewrite (proj2 (Nat.eqb_neq _ _)) by lia. cbn zeta.
    destruct (augment _ _) as [msg|]; cbn [mbind option_bind]; [|done]. unfold finish.
    destruct (think _ _ _ _ _) as [[[t1 rc1] text1]|] eqn:E; cbn [mbind option_bind snd]; [|done].
    by eapply think_fits in E.
Qed.

Hypothesis Hout : ∀ w c, Z.of_nat (length (output (os w c))) < SHELL_MAX_OUTPUT - 10.
Hypothesis Henrich : ∀ w m, (length (alerts w) + length (memory_context w m) + 29 ≤ ENRICHED_LEN)%nat.

(** A task that ends with code 0 has its marker or has used its rounds. *)
Lemma task_loop_total left : ∀ msg n w g a r0,
  ctx_ok (context a) → (0 < n)%nat →
  ∃ t rc text k, tasks left msg n w g a r0 = Some (t, rc, text, k) ∧ (k ≤ left)%nat ∧
    (rc = 0 → response_indicates_task_complete text = true ∨ k = left).
Proof.
  induction left as [|left IH]; intros msg n w g a r0 Hok Hn; cbn [task_loop].
  - eexists _, _, _, _. split; [done|]. auto.
  - destruct (think_total os strerror after other_tool registered others dispatcher chat getenv alerts memory_context store_message policy Hout
      w g a msg n Hok Hn (Henrich w msg)) as (t1 & rc1 & text1 & -> & Hok1 & _). cbn [mbind option_bind].
    case_if; [eexists _, _, _, _; split; [done|]; split; [lia|]; intros ->; done|].
    destruct (response_indicates_task_complete text1) eqn:Ec.
    { eexists _, _, _, _; split; [done|]; split; [lia|]; by left. }
    destruct (IH continue_instruction n (t_world t1) (t_guard t1) (t_agent t1) text1 Hok1 Hn)
      as (t2 & rc2 & text2 & k2 & -> & Hk & Hd). cbn [mbind option_bind].
    eexists _, _, _, _. split; [done|]. split; [lia|]. intros H0. destruct (Hd H0) as [?| ->]; auto.
Qed.

(** C7: a task ends within its configured rounds (five by default), the agent
    idle and out of task focus, with code 0 only after the marker or all
    rounds; if outputs of commands, alerts and memory text fit their buffers,
    the context is well formed and RAG gives at most k chunks below 512 bytes. *)
Theorem run_task_ends w g a task r0 n :
  ctx_ok (context a) → (0 < n)%nat →
  (∀ w path q k, Forall (λ c, (length c < 512)%nat) (rag_query w path q k) ∧ (length (rag_query w path q k) ≤ k)%nat) →
  let rounds := if 0 <? max_attention_rounds a then max_attention_rounds a else 5 in
  ∃ t rc text k, run_task w g a task r0 n = Some (t, rc, text, k) ∧ Z.of_nat k <= rounds ∧
    state (t_agent t) = AGENT_STATE_IDLE ∧ task_focus_enabled (t_agent t) = false ∧
    (rc = 0 → response_indicates_task_complete text = true ∨ Z.of_nat k = rounds).
Proof.
  intros Hok Hn Hrag rounds. unfold agent_run_task. rewrite (proj2 (Nat.eqb_neq _ _)) by lia.
  set (a' := set_task a _ _ _). cbn zeta.
  assert (∃ m, task_message (rag_chunks rag_query w a' task 3) task = Some m) as [m ->].
  { assert (Forall (λ c, (length c < 512)%nat) (rag_chunks rag_query w a' task 3) ∧
            (length (rag_chunks rag_query w a' task 3) ≤ 3)%nat) as [Hf Hl].
    { unfold rag_chunks. destruct (workspace_dir a'); [split; [constructor | cbn; lia] | apply Hrag]. }
    unfold task_message. destruct (rag_chunks rag_query w a' task 3) as [|c cs]; [by eexists|].
    destruct (rag_front_fits TASK_LEN 512 (c :: cs)) as (f & -> & H1 & H2); [done | lia | unfold TASK_LEN; lia |].
    assert (2000 <= w_remaining f) as Hw by (unfold TASK_LEN in *; lia).
    cbn [mbind option_bind]. rewrite put_fits by (cbn [length]; lia). cbn [mbind option_bind w_remaining w_text length].
    rewrite (proj2 (Z.ltb_ge _ _)), (proj2 (Z.ltb_lt _ _)) by lia. by eexists. }
  cbn [mbind option_bind].
  change (if 0 <? max_attention_rounds a' then max_attention_rounds a' else DEFAULT_MAX_ATTENTION_ROUNDS) with rounds.
  assert (0 < rounds) as Hr by (subst rounds; case_if; lia).
  destruct (task_loop_total (Z.to_nat rounds) m n w g a' r0 Hok Hn) as (t & rc & text & k & -> & Hk & Hd).
  cbn [mbind option_bind]. eexists _, _, _, _. split; [done|]. cbn [t_agent state task_focus_enabled set_task].
  split_and!; [lia | done | done |]. intros H0. destruct (Hd H0) as [?| ->]; [by left | right; lia].
Qed.
End tasks.

Lemma run_task_ends_witness :
  ∃ t rc text k,
    agent_run_task os_ex [] (λ w _, w) other_ex (λ _, None) alone DISPATCHER_NATIVE chat_ex getenv_ex (λ _, []) (λ _ _, []) (λ w _, w) (λ _ _ _ _, [])
      None O guard_zero (agent_ex false) (lit "hello") [] 1024 = Some (t, rc, text, k) ∧ Z.of_nat k <= 5 ∧
    state (t_agent t) = AGENT_STATE_IDLE ∧ task_focus_enabled (t_agent t) = false ∧
    (rc = 0 → response_indicates_task_complete text = true ∨ Z.of_nat k = 5).
Proof.
  apply (run_task_ends os_ex [] (λ w _, w) other_ex (λ _, None) alone DISPATCHER_NATIVE chat_ex getenv_ex (λ _, []) (λ _ _, []) (λ w _, w) (λ _ _ _ _, [])
    None); [intros; vm_compute; reflexivity | intros; vm_compute; lia | | lia |].
  - apply (init_ctx_ok 1 2 3 (mk_agent_config (lit "/ws") false)). vm_compute. reflexivity.
  - intros. split; [constructor | cbn; lia].
Defined.

(** ** Tools without effect *)

Lemma scan_quoted_plain key v n rest :
  v ≠ [] → (length v ≤ n)%nat → Forall (λ b, b ≠ 34) v →
  scan_quoted (json_open key) n (json_open key ++ v ++ 34 :: rest) = Some (v, 34 :: rest).
Proof.
  intros Hne Hl Hv. unfold scan_quoted.
  rewrite (proj2 (has_prefix_spec (json_open key) _)) by eauto. rewrite drop_app_length.
  rewrite take_while_app_stop; [|done|].
  2: { eapply Forall_impl; [exact Hv|]. intros b Hb. apply negb_true_iff. by apply Z.eqb_neq. }
  rewrite take_ge by done. destruct v as [|b v]; [done|]. do 2 f_equal.
  rewrite drop_app_add. by rewrite drop_app_length.
Qed.

(** The tools the agent offers for reading files and URLs do nothing: the
    names it passes on are not names of tools, so without a registered tool
    no call is made, and the model is told that the tool ran successfully. *)
Theorem read_tools_do_nothing {W} (os : W → syscall → answer) err other registered w t path n :
  registered (lit "read_file") = None → registered (lit "http_get") = None →
  path ≠ [] → (length path ≤ 1023)%nat → Forall (λ b, b ≠ 34) path →
  agent_execute_tool_by_name os err other registered w t (lit "read_file")
    (json_open (lit "path") ++ path ++ [34; 125]) n = Some (0, snprintf_s n (lit "Tool executed successfully"), []) ∧
  agent_execute_tool_by_name os err other registered w t (lit "http_get")
    (json_open (lit "url") ++ path ++ [34; 125]) n = Some (0, snprintf_s n (lit "Tool executed successfully"), []).
Proof.
  intros Hrf Hhg Hne Hl Hq. unfold agent_execute_tool_by_name. split.
  - change (tool_request (lit "read_file") (json_open (lit "path") ++ path ++ [34; 125])) with
      (match scan_quoted (json_open (lit "path")) 1023 (json_open (lit "path") ++ path ++ [34; 125]) with
       | Some (v, _) => inl (lit "read_file", v) | None => @inr (cstr * cstr) cstr (lit "Error: Could not parse file path") end).
    rewrite scan_quoted_plain by done. unfold tools_execute.
    change (find_builtin (lit "read_file")) with (@None builtin). cbv iota. by rewrite Hrf.
  - change (tool_request (lit "http_get") (json_open (lit "url") ++ path ++ [34; 125])) with
      (match scan_quoted (json_open (lit "url")) (Z.to_nat 2047) (json_open (lit "url") ++ path ++ [34; 125]) with
       | Some (v, _) => inl (lit "http_get", v) | None => @inr (cstr * cstr) cstr (lit "Error: Could not parse URL") end).
    rewrite scan_quoted_plain by (done || lia). unfold tools_execute.
    change (find_builtin (lit "http_get")) with (@None builtin). cbv iota. by rewrite Hhg.
Qed.

Lemma read_tools_do_nothing_witness :
  agent_execute_tool_by_name os_ex [] other_ex (λ _, None) O (mk_tools None None false) (lit "read_file")
    (json_open (lit "path") ++ lit "/etc/hosts" ++ [34; 125]) 100 = Some (0, snprintf_s 100 (lit "Tool executed successfully"), []).
Proof.
  apply (read_tools_do_nothing os_ex [] other_ex (λ _, None) O (mk_tools None None false) (lit "/etc/hosts") 100);
    [done | done | done | vm_compute; lia | repeat constructor; done].
Defined.
