(* ===== verification/AgentMemory.v ===== *)
(** * The agent's use of its memory and of the runtime monitor

    [agent_memory_init], [agent_load_memory_context] and
    [agent_store_in_memory] of [src/agent/agent.c], the storing of a user
    message in a turn, and the turn of [Agent] with the texts that these
    functions and the runtime monitor really produce. *)
From stdpp Require Import gmap.
From S2P Require Import Prelude Buffers Floats Sqlite Muninn Memory MemoryMap RuntimeMonitor.
From S2P Require Import Approval LoopGuard Security Tools Providers Dispatcher Agent.

Record agent_memory_t {D : Type} := mk_agent_memory { g_memory : memory_t D; g_memory_initialized : bool }.
Arguments agent_memory_t D : clear implicits.
Arguments mk_agent_memory {D}.

Definition RUNTIME_MONITOR_AGENT_BUF : nat := Z.to_nat 4096.
Definition CONTEXT_LEN : nat := Z.to_nat 4096.

Section agent_memory.
Context {D : Type} `{Sqlite D} (exp : f64 → f64).

(** The directory of the workspace is handed on as the path of the database. *)
Definition agent_memory_init (silent : bool) (g : agent_memory_t D) (workspace_dir : option cstr) : agent_memory_t D * Z :=
  if g_memory_initialized g then (g, 0)
  else
    let '(m, r) := memory_init silent MEMORY_BACKEND_SQLITE workspace_dir in
    (mk_agent_memory m (r =? 0), r).

Definition context_query (user_message : cstr) : cstr := snprintf_s 256 (lit "recent_" ++ user_message).

(** The lines for the five items of which only the first can be filled. *)
Definition context_text (size : nat) (value : cstr) : option cstr :=
  match value with
  | [] => Some []
  | _ =>
      b ← sn_append size (lit "Relevant context:" ++ [10]) sb_empty;
      b ← (if (sb_off b + length value + 10 <? size)%nat then sn_append size (lit "- " ++ value ++ [10]) b else Some b);
      Some (sb_text b)
  end.

(** The memory afterwards and the text, empty when there is none. *)
Definition agent_load_memory_context (now : Z) (g : agent_memory_t D) (user_message : cstr) (size : nat)
    : option (agent_memory_t D * cstr) :=
  if negb (g_memory_initialized g) then Some (g, [])
  else
    '(m, r, item) ← memory_recall exp now (g_memory g) (context_query user_message) item_zero;
    text ← (if r =? 0 then context_text size (mi_value item) else Some []);
    Some (mk_agent_memory m true, text).

Definition agent_store_in_memory (now : Z) (g : agent_memory_t D) (key value : cstr) : option (agent_memory_t D * Z) :=
  if negb (g_memory_initialized g) then Some (g, -1)
  else
    '(m, r) ← memory_store now (g_memory g)
      (mk_item (snprintf_s MAX_MEMORY_KEY key) (snprintf_s MAX_MEMORY_VALUE value) (u64 now) [] MEMORY_CATEGORY_SHORT_TERM);
    Some (mk_agent_memory m true, r).

(** What a turn stores: the message under the time. *)
Definition message_key (now : Z) : cstr := snprintf_s 256 (lit "user_msg_" ++ fmt_dec (u64 now)).

Definition store_user_message (now : Z) (g : agent_memory_t D) (user_message : cstr) : option (agent_memory_t D) :=
  if g_memory_initialized g
  then fst <$> agent_store_in_memory now g (message_key now) user_message else Some g.

(** ** The texts fit the message buffer *)

Lemma context_text_bound size value : (18 < size)%nat →
  ∃ text, context_text size value = Some text ∧ (length text < size)%nat.
Proof.
  intros Hs. unfold context_text. destruct value as [|c v]; [exists []; split; [done|simpl; lia]|].
  set (value := c :: v).
  destruct (sn_append_ok size (lit "Relevant context:" ++ [10]) sb_empty) as (b & -> & Hb & _);
    [by apply sb_empty_ok; lia | simpl; lia |]. cbn [mbind option_bind].
  destruct (sb_off b + length value + 10 <? size)%nat eqn:E; bsplit.
  - destruct (sn_append_ok size (lit "- " ++ value ++ [10]) b Hb) as (b' & -> & [Ho Hlt] & _);
      [rewrite !length_app; cbn [length]; change (length (lit "- ")) with 2%nat; lia|].
    cbn [mbind option_bind]. exists (sb_text b'). split; [done|]. lia.
  - cbn [mbind option_bind]. exists (sb_text b). split; [done|]. destruct Hb. lia.
Qed.

Lemma load_context_bound now g msg size :
  mem_wf (g_memory g) → (18 < size)%nat →
  ∃ g' text, agent_load_memory_context now g msg size = Some (g', text) ∧ (length text < size)%nat ∧ mem_wf (g_memory g').
Proof.
  intros Hw Hs. unfold agent_load_memory_context. case_if; [exists g, []; split_and!; [done|simpl; lia|done]|].
  destruct (memory_recall_wf exp now (g_memory g) (context_query msg) item_zero Hw) as (m' & r & item & -> & Hw').
  cbn [mbind option_bind]. destruct (r =? 0).
  - destruct (context_text_bound size (mi_value item) Hs) as (text & -> & Hl). cbn [mbind option_bind].
    by eexists _, _.
  - cbn [mbind option_bind]. eexists _, _. split; [done|]. split; [simpl; lia|done].
Qed.
End agent_memory.

(** ** A turn with its memory *)

Section turn.
Context {W D : Type} `{Sqlite D} (exp : f64 → f64).
Context (memory_of : W → agent_memory_t D) (set_memory : W → agent_memory_t D → W) (monitor_of : W → monitor_t) (now_of : W → Z) (fmt_hm : Z → cstr).
Context (os : W → syscall → answer) (strerror : cstr) (after : W → list syscall → W).
Context (other_tool : builtin → cstr → option outcome) (registered : cstr → option (cstr → outcome)).
Context (others : interference W) (dispatcher : dispatcher_type_t) (chat : dispatcher_type_t → W → provider_type_t → cstr → cstr → chat_context_t → W * chat_response_t).
Context (getenv : cstr → option cstr) (policy : option security_policy_t).

Definition turn_alerts (w : W) : cstr :=
  match runtime_monitor_get_recent_for_agent fmt_hm (monitor_of w) RUNTIME_MONITOR_AGENT_BUF with
  | Some (_, text) => text | None => [] end.

Definition turn_memory (w : W) (msg : cstr) : cstr :=
  match agent_load_memory_context exp (now_of w) (memory_of w) msg CONTEXT_LEN with
  | Some (_, text) => text | None => [] end.

(** The memory is searched, then the message is stored in it. *)
Definition turn_store (w : W) (msg : cstr) : W :=
  match (g ← fst <$> agent_load_memory_context exp (now_of w) (memory_of w) msg CONTEXT_LEN;
         store_user_message (now_of w) g msg) with
  | Some g => set_memory w g | None => w end.

(** The storing always ends, and leaves a memory in order. *)
Lemma turn_store_ok w msg :
  mem_wf (g_memory (memory_of w)) →
  ∃ g, turn_store w msg = set_memory w g ∧ mem_wf (g_memory g).
Proof.
  intros Hw. unfold turn_store.
  destruct (load_context_bound exp (now_of w) (memory_of w) msg CONTEXT_LEN Hw) as (g & text & -> & _ & Hg);
    [apply Nat.ltb_lt; by_eval|]. cbn [fmap option_fmap option_map fst mbind option_bind].
  unfold store_user_message, agent_store_in_memory. destruct (g_memory_initialized g) eqn:Ei; [|by exists g].
  cbn [negb]. destruct (memory_store_wf (now_of w) (g_memory g)
    (mk_item (snprintf_s MAX_MEMORY_KEY (message_key (now_of w))) (snprintf_s MAX_MEMORY_VALUE msg) (u64 (now_of w)) []
      MEMORY_CATEGORY_SHORT_TERM) Hg) as (m & r & -> & Hm).
  by eexists.
Qed.

Lemma turn_texts_fit w msg :
  mem_wf (g_memory (memory_of w)) → (∀ t, (length (fmt_hm t) ≤ 5)%nat) →
  Forall (λ e, (length (ev_ip e) ≤ 45)%nat) (g_events (monitor_of w)) →
  (length (turn_alerts w) + length (turn_memory w msg) + 29 ≤ ENRICHED_LEN)%nat.
Proof.
  intros Hw Hf He. unfold turn_alerts, turn_memory.
  destruct (summary_in_bounds fmt_hm (monitor_of w) RUNTIME_MONITOR_AGENT_BUF He Hf) as (r & text & -> & Hb).
  destruct (load_context_bound exp (now_of w) (memory_of w) msg CONTEXT_LEN Hw) as (g' & ctx & -> & Hl & _);
    [apply Nat.ltb_lt; by_eval|].
  assert (length text ≤ 832)%nat by (destruct Hb as [(_ & _ & ?)|[_ ->]]; [done|simpl; lia]).
  assert (CONTEXT_LEN = Z.to_nat 4096) by done. assert (ENRICHED_LEN = Z.to_nat 8192) by done. lia.
Qed.

End turn.

(** ** Messages are never found again *)

Section recall.
Context {D : Type} `{MemoryLaws D} (exp : f64 → f64).

Lemma query_not_message msg now : context_query msg ≠ message_key now.
Proof. unfold context_query, message_key, snprintf_s. simpl. done. Qed.

(** A memory that was empty when it was opened and in which turns stored their
    messages. *)
Inductive message_store : agent_memory_t D → Prop :=
  | ms_open g : g_memory_initialized g = true → represents (g_memory g) ∅ → message_store g
  | ms_turn now g msg g' : message_store g → 0 <= now < 2 ^ 63 →
      store_user_message now g msg = Some g' → message_store g'.

Definition only_messages (g : agent_memory_t D) : Prop :=
  g_memory_initialized g = true ∧
  ∃ s, represents (g_memory g) s ∧ ∀ k, is_Some (s !! k) → ∃ now, k = message_key now.

Lemma store_user_message_ok now g msg g' : only_messages g → 0 <= now < 2 ^ 63 →
  store_user_message now g msg = Some g' → only_messages g'.
Proof.
  intros (Hi & s & Hr & Hk) Hnow. unfold store_user_message, agent_store_in_memory. rewrite Hi. cbn [negb].
  assert (length (message_key now) < MAX_MEMORY_KEY)%nat as Hkl by (apply snprintf_s_length; vm_compute; lia).
  rewrite (snprintf_s_id MAX_MEMORY_KEY) by done. rewrite wrap_small by lia.
  set (item := mk_item _ _ _ _ _).
  destruct (command_refines exp (CStore item) (g_memory g) s) as (m' & Hm & Hr').
  { split; cbn [mi_key mi_value mi_metadata mi_timestamp item];
      [done | apply snprintf_s_length; apply Nat.ltb_lt; by_eval | apply Nat.ltb_lt; by_eval | lia]. }
  { done. }
  cbn [impl_command spec_command fst snd] in *.
  assert (memory_store now (g_memory g) item = memory_store 0 (g_memory g) item) as ->.
  { destruct (represents_handle _ _ Hr) as (d & Hd & _). unfold memory_store. by rewrite Hd. }
  destruct (memory_store 0 (g_memory g) item) as [[m1 rc]|]; [|done]. cbn [mbind option_bind] in *.
  cbn. intros [= <-]. simplify_eq. split; [done|]. eexists. split; [exact Hr'|].
  intros k [e He]. apply lookup_insert_Some in He as [[<- _]|[_ He]]; [by exists now|]. apply Hk. by eexists.
Qed.

Lemma message_store_only g : message_store g → only_messages g.
Proof.
  induction 1 as [g Hi Hr|now g msg g' _ IH Hnow Hs]; [|by eapply store_user_message_ok].
  split; [done|]. exists ∅. split; [done|]. intros k [e He]. by rewrite lookup_empty in He.
Qed.

(** The agent stores messages under "user_msg_<time>" and looks for them under
    "recent_<message>": however many turns stored their messages, the context
    loaded for the next one is empty. *)
Theorem messages_never_recalled now g msg : message_store g →
  ∃ g', agent_load_memory_context exp now g msg CONTEXT_LEN = Some (g', []).
Proof.
  intros (Hi & s & Hr & Hk)%message_store_only. unfold agent_load_memory_context. rewrite Hi. cbn [negb].
  destruct (represents_handle _ _ Hr) as (d & Hd & Hs & _ & Hready). unfold memory_recall. rewrite Hd. cbn [mbind option_bind].
  rewrite mlaw_prepare by (done || (unfold memory_statements; set_solver)). cbn [negb]. rewrite mlaw_select, Hs by done.
  destruct (s !! context_query msg) as [e|] eqn:E.
  - destruct (Hk (context_query msg)) as [t Ht]; [by eexists|]. by apply query_not_message in Ht.
  - cbn [mbind option_bind]. by eexists.
Qed.
End recall.

(** ** Witnesses *)

Definition opened_memory : agent_memory_t (gmap cstr entry) := mk_agent_memory MapDb.opened true.

Lemma messages_never_recalled_witness :
  ∃ g, store_user_message 1700000000 opened_memory (lit "hello") = Some g ∧
    ∃ g', agent_load_memory_context (λ x, x) 1700000001 g (lit "hello") CONTEXT_LEN = Some (g', []).
Proof.
  destruct (store_user_message 1700000000 opened_memory (lit "hello")) as [g|] eqn:E; [|vm_compute in E; discriminate E].
  exists g. split; [reflexivity|]. apply messages_never_recalled.
  apply (ms_turn 1700000000 opened_memory (lit "hello")); [|lia|exact E].
  apply ms_open; [reflexivity|apply MapDb.opened_represents].
Defined.

