(* ===== verification/AgentProviders.v ===== *)
(** * The agent and its providers

    The texts the agent sends with a turn ([g_default_tools] of
    [src/agent/agent.c]), the provider call behind a turn, and what becomes of
    the tool calls in a reply: from the text of the service through
    [src/providers/providers.c] to the tool the agent runs. *)
From S2P Require Import Prelude Floats Approval Security Tools LoopGuard Http Llama Dispatcher Providers ProviderCalls Agent.

Definition g_default_tools : cstr := jlit
"[
  {
    'type': 'function',
    'function': {
      'name': 'shell',
      'description': 'Execute a shell command and return the output (uses DOCTORCLAW_SHELL or /bin/sh)',
      'parameters': {
        'type': 'object',
        'properties': {
          'command': {'type': 'string', 'description': 'The shell command to execute'}
        },
        'required': ['command']
      }
    }
  },
  {
    'type': 'function',
    'function': {
      'name': 'zsh',
      'description': 'Execute a command in zsh (use for zsh-specific features or direct network stack control)',
      'parameters': {
        'type': 'object',
        'properties': {
          'command': {'type': 'string', 'description': 'The command to run in zsh'}
        },
        'required': ['command']
      }
    }
  },
  {
    'type': 'function',
    'function': {
      'name': 'network',
      'description': 'Run a command with direct network stack access (e.g. ip addr, ifconfig, nc, ping)',
      'parameters': {
        'type': 'object',
        'properties': {
          'command': {'type': 'string', 'description': 'Network command to run'}
        },
        'required': ['command']
      }
    }
  },
  {
    'type': 'function',
    'function': {
      'name': 'read_file',
      'description': 'Read contents of a file',
      'parameters': {
        'type': 'object',
        'properties': {
          'path': {'type': 'string', 'description': 'Path to the file to read'}
        },
        'required': ['path']
      }
    }
  },
  {
    'type': 'function',
    'function': {
      'name': 'http_get',
      'description': 'Make an HTTP GET request',
      'parameters': {
        'type': 'object',
        'properties': {
          'url': {'type': 'string', 'description': 'URL to fetch'}
        },
        'required': ['url']
      }
    }
  },
  {
    'type': 'function',
    'function': {
      'name': 'memory_store',
      'description': 'Store information in persistent memory',
      'parameters': {
        'type': 'object',
        'properties': {
          'key': {'type': 'string', 'description': 'Memory key'},
          'value': {'type': 'string', 'description': 'Value to store'}
        },
        'required': ['key', 'value']
      }
    }
  },
  {
    'type': 'function',
    'function': {
      'name': 'memory_recall',
      'description': 'Recall information from persistent memory',
      'parameters': {
        'type': 'object',
        'properties': {
          'query': {'type': 'string', 'description': 'Query to search memory'}
        },
        'required': ['query']
      }
    }
  }
]".

Section calls.
Context {W : Type} `{Curl W} `{LlamaLib W}.
Context (getenv : cstr → option cstr).

(** The readings of the clock around a call. *)
Context (clock : W → Z * Z).

(** The argument [chat] of a turn, in a world that holds the state of the
    provider library.  Where the C code leaves its arrays there is no answer,
    and the model gives the zeroed response. *)
Definition agent_provider_chat (dispatcher : dispatcher_type_t) (w : W * calls_state) (type : provider_type_t)
    (model key : cstr) (c : chat_context_t) : (W * calls_state) * chat_response_t :=
  let o :=
    match dispatcher with
    | DISPATCHER_NATIVE => provider_chat_with_tools getenv w.1 w.2 type model (Some key) c (Some g_default_tools)
    | DISPATCHER_XML =>
        provider_chat_completion getenv (clock w.1).1 (clock w.1).2 w.1 w.2 type model (Some key) c
    end in
  match o with
  | Some (w', s', r, _) => ((w', s'), r)
  | None => (w, chat_response_zero)
  end.

(** ** A call that fails *)

Context (os : W * calls_state → syscall → answer) (strerror : cstr).
Context (after : W * calls_state → list syscall → W * calls_state).
Context (other_tool : builtin → cstr → option outcome) (registered : cstr → option (cstr → outcome)).
Context (others : interference (W * calls_state)).
Context (alerts : W * calls_state → cstr) (memory_context : W * calls_state → cstr → cstr).
Context (store_message : W * calls_state → cstr → W * calls_state).
Context (policy : option security_policy_t).

(** The call of a provider in the first round of a turn on context [c]. *)
Definition first_call (dispatcher : dispatcher_type_t) (w : W) (s : calls_state) (ptype : provider_type_t)
    (model key : cstr) (c : chat_context_t) : option (W * calls_state * chat_response_t * Z) :=
  match dispatcher with
  | DISPATCHER_NATIVE => provider_chat_with_tools getenv w s ptype model (Some key) c (Some g_default_tools)
  | DISPATCHER_XML => provider_chat_completion getenv (clock w).1 (clock w).2 w s ptype model (Some key) (turn_context dispatcher c)
  end.

Lemma first_call_failed dispatcher w s ptype model key c w' s' r :
  choose_provider getenv = Some (ptype, model, key) →
  first_call dispatcher w s ptype model key c = Some (w', s', r, -1) →
  r = failed_with chat_response_zero "HTTP request failed".
Proof.
  intros Hp. assert (ptype = PROVIDER_OPENROUTER ∨ ptype = PROVIDER_OPENAI) as Ht.
  { unfold choose_provider in Hp. repeat case_match; simplify_eq; auto. }
  destruct dispatcher; cbn [first_call].
  - destruct Ht as [-> | ->]; unfold provider_chat_with_tools, provider_openai_with_tools;
      (destruct (messages_text c); [|done]); cbn [mbind option_bind];
      intros [[? _]|[_ ->]]%post_chat_cases; done.
  - unfold provider_chat_completion. cbn zeta. rewrite bool_decide_eq_false_2 by (by intros [? _]).
    destruct Ht as [-> | ->]; cbn [call_provider]; unfold provider_openai_completion;
      (destruct (messages_text _); [|done]); cbn [mbind option_bind];
      (destruct (post_chat _ _ _ _ _ _ _) as [[[[w1 s1] r1] rc1]|] eqn:E; [|done]); cbn [mbind option_bind];
      intros [= _ _ <- ->]; by apply post_chat_cases in E as [[? _]|[_ ->]].
Qed.

(** C28: A turn does not see that its provider has failed: the codes of the calls
    are dropped, so when the first call ends with -1, with either dispatcher,
    the text of the failure is the answer of a turn that returns 0, and it
    enters the history as a message of the assistant. *)
Theorem failed_call_is_answer dispatcher w0 w s g a msg n text c ptype model key w' s' r :
  ctx_ok (context a) →
  enrich (alerts w0) (memory_context w0 msg) msg = Some text →
  store_message w0 msg = (w, s) →
  chat_context_add_message (context a) (Some (lit "user")) (Some text) = Some c →
  choose_provider getenv = Some (ptype, model, key) →
  first_call dispatcher w s ptype model key c = Some (w', s', r, -1) →
  let answer := snprintf_s n (lit "HTTP request failed") in
  ∃ t c', agent_think_with_tools os strerror after other_tool registered others dispatcher agent_provider_chat getenv
            alerts memory_context store_message policy w0 g a msg n = Some (t, 0, answer) ∧ t_calls t = [] ∧
    chat_context_add_message c (Some (lit "assistant")) (Some answer) = Some c' ∧
    context (t_agent t) = agent_trim_history c'.
Proof.
  intros Hok He Hst Hc Hp Hf answer. pose proof (first_call_failed _ _ _ _ _ _ _ _ _ _ Hp Hf) as Hr.
  destruct (add_message_total _ (lit "user") text Hok) as (c0 & Hc0 & Hok0). rewrite Hc in Hc0. injection Hc0 as <-.
  destruct (add_message_total c (lit "assistant") answer Hok0) as (c' & Hc' & _).
  assert (agent_provider_chat dispatcher (w, s) ptype model key (turn_context dispatcher c) = ((w', s'), r)) as Hchat.
  { unfold agent_provider_chat. cbn [fst snd]. destruct dispatcher; cbn [first_call turn_context] in *; by rewrite Hf. }
  unfold agent_think_with_tools. rewrite He. cbn [mbind option_bind]. rewrite Hc. cbn [mbind option_bind].
  rewrite Hst, Hp. change MAX_ITERATIONS with (S 49). cbn [think_loop t_world t_agent context set_context].
  rewrite Hchat, Hr. cbn zeta.
  change (resp_content (failed_with chat_response_zero "HTTP request failed")) with (lit "HTTP request failed").
  assert (turn_calls dispatcher (failed_with chat_response_zero "HTTP request failed") = []) as ->
    by (destruct dispatcher; by_eval).
  match goal with |- context [match lit ?m with [] => _ | _ => _ end] =>
    change (lit m) with (72 :: lit "TTP request failed") at 1 end.
  cbn iota beta. fold answer. rewrite Hc'. cbn [mbind option_bind]. eexists _, c'. by split_and!.
Qed.
End calls.

(** ** Tool calls of a reply *)

Lemma parsed_calls_first r x l :
  parsed_calls r = x :: l →
  x = (snprintf_s 128 (slot_name r 0), snprintf_s (Z.to_nat 4096) (slot_args r 0)).
Proof.
  unfold parsed_calls, slot_name, slot_args. destruct (call_count r) as [|n]; [done|].
  destruct (tool_calls r) as [|[a b] cs]; [done|]. cbn [take map fst snd]. by intros [= <- _].
Qed.

Section tools.
Context {W : Type} (os : W → syscall → answer) (strerror : cstr).
Context (other_tool : builtin → cstr → option outcome) (registered : cstr → option (cstr → outcome)).

(** What the model asks for through OpenAI (or OpenRouter) is never run: the
    first call of a reply in the documented form, for any function and any
    arguments, reaches the agent under the name [name], which no tool has; the
    agent makes no system call and reports an unknown tool. *)
Theorem openai_tool_calls_unknown w t text i id f args post r r' name targs rest :
  strstr text (jlit "'tool_calls'") = Some i →
  drop i text = jlit "'tool_calls':[" ++ call_open id f ++ args ++ jlit "'}}]" ++ post →
  inert id → id ≠ lit "function" → inert f → Forall (λ b, b ≠ 93) args →
  tool_calls r = replicate MAX_TOOL_CALLS ([], []) →
  (length (call_open id f ++ args) + 5 ≤ CALL_LEN)%nat →
  openai_tool_calls text r = Some r' → parsed_calls r' = (name, targs) :: rest →
  agent_execute_tool_by_name os strerror other_tool registered w t name targs RESULT_BUF =
  Some (-1, lit "Error: Unknown tool 'name'", []).
Proof.
  intros Hi Hd Hid Hne Hf Ha Hr Hl Ho Hp.
  destruct (openai_tool_name_is_key text i id f args post r) as (r1 & Hr1 & Hn & _); [done..|].
  assert (r1 = r') as -> by congruence. apply parsed_calls_first in Hp. rewrite Hn in Hp.
  injection Hp as -> _. reflexivity.
Qed.

Definition command_body (cmd : cstr) : cstr := jlit "'command':'" ++ cmd ++ [34].

Lemma command_request cmd :
  inert cmd → cmd ≠ [] → (length cmd ≤ 1023)%nat →
  tool_request (lit "shell") (123 :: command_body cmd ++ [125]) = inl (lit "shell", cmd).
Proof.
  intros Hc Hne Hl.
  assert (123 :: command_body cmd ++ [125] = json_open (lit "command") ++ cmd ++ [34; 125]) as ->.
  { unfold command_body. rewrite <- !app_assoc. done. }
  change (tool_request (lit "shell") (json_open (lit "command") ++ cmd ++ [34; 125])) with
    (match scan_quoted (json_open (lit "command")) 1023 (json_open (lit "command") ++ cmd ++ [34; 125]) with
     | Some (v, _) => inl (lit "shell", v)
     | None => @inr (cstr * cstr) cstr (lit "Error: Could not parse shell command") end).
  by rewrite scan_quoted_plain by auto using inert_quote.
Qed.

(** What the model would ask for through Anthropic would reach the tool (no
    turn of the agent uses this provider, see [choose_provider]): a call of the
    shell with a command without quotes and brackets is the only call the agent
    sees, and it runs the shell tool on exactly this command. *)
Theorem anthropic_command_reaches_shell w t text i tid cmd post r r' :
  strstr text (jlit "'content'") = Some i →
  drop i text = jlit "'content':[" ++ tool_use tid (lit "shell") (command_body cmd) ++ lit "}]" ++ post →
  inert tid → tid ∉ [lit "name"; lit "input"] → inert cmd → cmd ≠ [] → (length cmd ≤ 1023)%nat →
  (length (tool_use tid (lit "shell") (command_body cmd)) < CALL_LEN)%nat →
  tool_calls r = replicate MAX_TOOL_CALLS ([], []) → anthropic_tool_calls text r = Some r' →
  ∃ targs, parsed_calls r' = [(lit "shell", targs)] ∧
    agent_execute_tool_by_name os strerror other_tool registered w t (lit "shell") targs RESULT_BUF =
    (o ← tools_execute (os w) strerror other_tool registered t (lit "shell") cmd;
     Some (0, snprintf_s RESULT_BUF
       match r_result (o_result o), Tools.r_error (o_result o) with
       | _ :: _, _ => r_result (o_result o)
       | [], _ :: _ => lit "Error: " ++ Tools.r_error (o_result o)
       | [], [] => lit "Tool executed successfully"
       end, o_calls o)).
Proof.
  intros Hi Hd Hid Hne Hc Hc0 Hcl Hl Hr Ha.
  assert (Forall no_bracket (command_body cmd)) as Hb.
  { unfold command_body. apply Forall_app. split; [lit_forall|].
    apply Forall_app. split; [by apply inert_bracket|lit_forall]. }
  assert (lt (length (123 :: command_body cmd ++ [125])) CALL_LEN) as Hlb.
  { rewrite tool_use_split in Hl. cbn [length] in *. rewrite !length_app in *. cbn [length] in *. rewrite length_app in *.
    cbn [length] in *. lia. }
  rewrite (anthropic_tool_call_read text i tid (lit "shell") (command_body cmd) post) in Ha;
    [|done|done|done|unfold inert; lit_forall|done|done|done|done|cbn; unfold TOOL_NAME_LEN; lia|done].
  apply (inj Some) in Ha as <-. exists (123 :: command_body cmd ++ [125]). split.
  - unfold parsed_calls. cbn [set_calls call_count tool_calls]. rewrite Hr.
    change (<[O := (lit "shell", 123 :: command_body cmd ++ [125])]> (replicate MAX_TOOL_CALLS ([], [])))
      with ((lit "shell", 123 :: command_body cmd ++ [125]) :: replicate 15 (@nil Z, @nil Z)).
    cbn [take map fst snd]. change (Z.to_nat 4096) with CALL_LEN. by rewrite (snprintf_s_id CALL_LEN) by exact Hlb.
  - unfold agent_execute_tool_by_name. by rewrite command_request.
Qed.
End tools.

(** ** A tool call of the services the agent uses *)

(** What [provider_openai_with_tools] makes of the text of a reply. *)
Definition openai_answered (text : cstr) : option chat_response_t :=
  r ← parsed_into chat_response_zero text;
  r ← openai_tool_calls text r;
  Some (openai_usage text r).

Lemma usage_calls text r : parsed_calls (openai_usage text r) = parsed_calls r.
Proof. unfold openai_usage. by case_match. Qed.

Section round.
Context {W : Type} `{Curl W} `{LlamaLib W}.
Context (getenv : cstr → option cstr) (clock : W → Z * Z).
Context (os : W * calls_state → syscall → answer) (strerror : cstr).
Context (after : W * calls_state → list syscall → W * calls_state).
Context (other_tool : builtin → cstr → option outcome) (registered : cstr → option (cstr → outcome)).
Context (others : interference (W * calls_state)) (policy : option security_policy_t).

(** C16: A tool call that OpenAI or OpenRouter, the services the agent talks
    to, sends in the documented form runs nothing: with the native dispatcher
    the round goes on to the next one having made no system call, and only
    adds to the history that the tool [name], the key in front of the
    function's name, is unknown. Conditions: a reply with a content that is
    not empty and one tool call, its id (not the word function) and function
    name without quotes and brackets, its arguments without a closing square
    bracket, the call at most 4096 bytes; the loop guard lets the call pass
    and the history is well formed. *)
Theorem openai_round_runs_nothing w s ptype model key fuel n t text i id f args post r w' s' name targs g :
  t_world t = (w, s) → ptype = PROVIDER_OPENAI ∨ ptype = PROVIDER_OPENROUTER →
  provider_chat_with_tools getenv w s ptype model (Some key) (context (t_agent t)) (Some g_default_tools) =
    Some (w', s', r, 0) →
  openai_answered text = Some r → resp_content r ≠ [] →
  strstr text (jlit "'tool_calls'") = Some i →
  drop i text = jlit "'tool_calls':[" ++ call_open id f ++ args ++ jlit "'}}]" ++ post →
  inert id → id ≠ lit "function" → inert f → Forall (λ b, b ≠ 93) args →
  (length (call_open id f ++ args) + 5 ≤ CALL_LEN)%nat →
  parsed_calls r = [(name, targs)] →
  loop_guard_check (others_guard others (w', s') (t_guard t)) (Some name) = (g, true) →
  ctx_ok (context (t_agent t)) →
  ∃ c t', chat_context_add_message (context (t_agent t)) (Some (lit "tool"))
            (Some (lit "Tool 'name' returned: Error: Unknown tool 'name'")) = Some c ∧
    think_loop os strerror after other_tool registered others DISPATCHER_NATIVE (agent_provider_chat getenv clock) policy
      ptype model key (S fuel) n t =
    think_loop os strerror after other_tool registered others DISPATCHER_NATIVE (agent_provider_chat getenv clock) policy
      ptype model key fuel n t' ∧
    context (t_agent t') = agent_trim_history c ∧ t_calls t' = t_calls t.
Proof.
  intros Hw Hp Hcall Hans Hne Hi Hd Hid Hidf Hf Ha Hl Hpc Hg Hok.
  destruct (add_message_total _ (lit "tool") (lit "Tool 'name' returned: Error: Unknown tool 'name'") Hok) as (c & Hc & _).
  exists c. unfold openai_answered in Hans.
  destruct (parsed_into chat_response_zero text) as [r1|] eqn:E1; [|done]. cbn [mbind option_bind] in Hans.
  destruct (openai_tool_calls text r1) as [r2|] eqn:E2; [|done]. cbn [mbind option_bind] in Hans.
  assert (tool_calls r1 = replicate MAX_TOOL_CALLS ([], [])) as Ht.
  { unfold parsed_into in E1. destruct (parse_response_content _ _ _) as [[x y]|]; [|done]. by injection E1 as <-. }
  injection Hans as <-. rewrite usage_calls in Hpc.
  assert (∀ tools, agent_execute_tool_by_name os strerror other_tool registered (w', s') tools name targs RESULT_BUF =
    Some (-1, lit "Error: Unknown tool 'name'", [])) as Hexec.
  { intros tools. by eapply openai_tool_calls_unknown. }
  assert (name = lit "name") as ->.
  { destruct (openai_tool_name_is_key text i id f args post r1) as (r3 & Hr3 & Hn & _); [done..|].
    assert (r3 = r2) as -> by congruence. apply parsed_calls_first in Hpc. rewrite Hn in Hpc. by injection Hpc. }
  eexists. split; [exact Hc|]. cbn [think_loop turn_context]. rewrite Hw. unfold agent_provider_chat at 1. cbn [fst snd].
  rewrite Hcall. cbn beta iota zeta. cbn [t_world t_agent t_guard t_ran t_calls].
  assert (turn_calls DISPATCHER_NATIVE (openai_usage text r2) = [(lit "name", targs)]) as ->.
  { unfold turn_calls. rewrite usage_calls, Hpc. destruct (0 <? call_count _)%nat eqn:E; [done|].
    exfalso. rewrite <- (usage_calls text) in Hpc. unfold parsed_calls in Hpc. bsplit.
    by replace (call_count (openai_usage text r2)) with O in Hpc by lia. }
  destruct (resp_content (openai_usage text r2)) as [|b0 s0]; [done|].
  cbn [run_tool_calls t_world t_agent t_guard t_ran t_calls]. rewrite Hg. cbn [negb].
  rewrite Hexec. cbn [mbind option_bind].
  change (tool_message DISPATCHER_NATIVE (lit "name") (lit "Error: Unknown tool 'name'"))
    with (lit "Tool 'name' returned: Error: Unknown tool 'name'").
  rewrite Hc. cbn [mbind option_bind]. split; [reflexivity|]. cbn [t_agent context set_context t_calls]. by rewrite app_nil_r.
Qed.
End round.

(** ** Whole turns *)

(** The agent of the examples in front of a service that asks for the shell
    and then answers. *)
Definition openai_turn : @turn (list transfer * calls_state) :=
  mk_turn (reply_with openai_reply, idle_calls) (agent_ex false) guard_zero [] [].

Lemma openai_round_runs_nothing_witness :
  ∃ c t', think_loop (λ _ _, mk_answer 0 [] false) [] (λ w _, w) other_ex (λ _, None) alone DISPATCHER_NATIVE
      (agent_provider_chat getenv_ex (λ _, (0, 0))) None PROVIDER_OPENAI (lit "gpt-4o-mini") (lit "key") 49 1024 openai_turn =
    think_loop (λ _ _, mk_answer 0 [] false) [] (λ w _, w) other_ex (λ _, None) alone DISPATCHER_NATIVE
      (agent_provider_chat getenv_ex (λ _, (0, 0))) None PROVIDER_OPENAI (lit "gpt-4o-mini") (lit "key") 48 1024 t' ∧
    context (t_agent t') = agent_trim_history c ∧ t_calls t' = [].
Proof.
  destruct (provider_chat_with_tools getenv_ex (reply_with openai_reply) idle_calls PROVIDER_OPENAI (lit "gpt-4o-mini")
    (Some (lit "key")) (context (t_agent openai_turn)) (Some g_default_tools)) as [[[[w' s'] r] rc]|] eqn:E;
    [|vm_compute in E; discriminate E].
  assert (rc = 0) as -> by (vm_compute in E; injection E; intros; subst; reflexivity).
  assert (openai_answered openai_reply = Some r) as Hr by (vm_compute in E; injection E as _ _ <-; vm_compute; reflexivity).
  assert (∃ targs, parsed_calls r = [(lit "name", targs)] ∧ resp_content r ≠ []) as (targs & Hp & Hne).
  { vm_compute in E. injection E as _ _ <-. eexists. split; [reflexivity|discriminate]. }
  destruct (openai_round_runs_nothing getenv_ex (λ _, (0, 0)) (λ _ _, mk_answer 0 [] false) [] (λ w _, w) other_ex (λ _, None) alone None
    (reply_with openai_reply) idle_calls PROVIDER_OPENAI (lit "gpt-4o-mini") (lit "key") 48 1024 openai_turn openai_reply
    (default O (strstr openai_reply (jlit "'tool_calls'"))) (lit "call_1") (lit "shell") (jlit "{\'command\':\'ls\'}")
    (jlit "}}],'usage':{'prompt_tokens':12,'completion_tokens':30,'total_tokens':42}}") r w' s' (lit "name") targs
    (loop_guard_check guard_zero (Some (lit "name"))).1) as (c & t' & _ & H1 & H2 & H3);
    [reflexivity|by left|exact E|exact Hr|exact Hne|by_eval|by_eval|unfold inert; lit_forall|done|unfold inert; lit_forall|lit_forall
    |cbn; unfold CALL_LEN; lia|exact Hp|by_eval| |exists c, t'; split; [exact H1|split; [exact H2|exact H3]]].
  apply (init_ctx_ok 1 2 3 (mk_agent_config (lit "/ws") false)). by_eval.
Defined.

Lemma openai_tool_calls_unknown_witness :
  ∃ r' targs, openai_tool_calls openai_reply chat_response_zero = Some r' ∧
    parsed_calls r' = [(lit "name", targs)] ∧
    agent_execute_tool_by_name os_ex [] other_ex (λ _, None) O (mk_tools None None false) (lit "name") targs RESULT_BUF =
    Some (-1, lit "Error: Unknown tool 'name'", []).
Proof.
  destruct (openai_tool_calls openai_reply chat_response_zero) as [r'|] eqn:E; [|by vm_compute in E].
  assert (∃ targs, parsed_calls r' = [(lit "name", targs)]) as [targs Ht].
  { vm_compute in E. injection E as <-. by eexists. }
  exists r', targs. split_and!; [done..|].
  apply (openai_tool_calls_unknown os_ex [] other_ex (λ _, None) O (mk_tools None None false) openai_reply
           (default O (strstr openai_reply (jlit "'tool_calls'"))) (lit "call_1") (lit "shell")
           (jlit "{\'command\':\'ls\'}")
           (jlit "}}],'usage':{'prompt_tokens':12,'completion_tokens':30,'total_tokens':42}}")
           chat_response_zero r' (lit "name") targs []);
    [by_eval|by_eval|unfold inert; lit_forall|done|unfold inert; lit_forall|lit_forall|done|cbn; unfold CALL_LEN; lia|exact E|exact Ht].
Defined.

Lemma anthropic_command_reaches_shell_witness :
  ∃ r' targs, anthropic_tool_calls anthropic_reply chat_response_zero = Some r' ∧
    parsed_calls r' = [(lit "shell", targs)] ∧
    agent_execute_tool_by_name os_ex [] other_ex (λ _, None) O (mk_tools None None false) (lit "shell") targs RESULT_BUF =
    Some (0, lit "file.txt", [Sys_run None (lit "ls") 60]).
Proof.
  destruct (anthropic_tool_calls anthropic_reply chat_response_zero) as [r'|] eqn:E; [|by vm_compute in E].
  destruct (anthropic_command_reaches_shell os_ex [] other_ex (λ _, None) O (mk_tools None None false) anthropic_reply
              (default O (strstr anthropic_reply (jlit "'content'"))) (lit "toolu_1") (lit "ls")
              (jlit ",'stop_reason':'tool_use'}") chat_response_zero r') as (targs & H1 & H2);
    [by_eval|by_eval|unfold inert; lit_forall|apply (bool_decide_unpack _); by_eval|unfold inert; lit_forall|done
    |cbn; lia|cbn; unfold CALL_LEN; lia|done|exact E|].
  exists r', targs. split_and!; [done..|]. rewrite H2. by_eval.
Defined.

(** ** The XML dispatcher *)

(** With the XML dispatcher, which no code of the program selects, a shell
    command in a [<tool_call>] tag would be found once for every [length of the
    call - 1] bytes of prose before it and once more, up to sixteen times: the
    parser finds the same call again, and each asks for exactly the command. *)
Theorem xml_command_runs_again r prose cmd tail :
  call_count r = O →
  resp_content r = prose ++ OPEN_TAG ++ call_text (lit "shell") (command_body cmd) ++ CLOSE_TAG ++ tail →
  Forall (λ b, b ≠ 60) prose → Forall (λ b, b ≠ 60) tail →
  inert cmd → Forall (λ b, b ≠ 60) cmd → cmd ≠ [] → (length cmd ≤ 1023)%nat →
  let k := (length (call_text (lit "shell") (command_body cmd)) - 1)%nat in
  ∃ args, turn_calls DISPATCHER_XML r = replicate (16 `min` (length prose `div` k + 1)) (lit "shell", args) ∧
    tool_request (lit "shell") args = inl (lit "shell", cmd).
Proof.
  intros H0 Hr Hp Ht Hc Hc60 Hne Hl k. exists (123 :: command_body cmd ++ [125]).
  split; [|by apply command_request].
  assert (plain_call (lit "shell") (command_body cmd)) as Hplain.
  { split.
    - split_and!; [done | vm_compute; lia | lit_forall].
    - split; [done|]. unfold command_body. rewrite !Forall_app. split_and!; [lit_forall | | lit_forall].
      apply Forall_and. split; [|done]. eapply Forall_impl; [by apply inert_bracket|]. unfold no_bracket. tauto.
    - rewrite call_text_length. unfold command_body. rewrite !length_app. change (length (lit "shell")) with 5%nat.
      change (length (jlit "'command':'")) with 11%nat. cbn [length]. unfold MAX_TOOL_ARGS. lia. }
  unfold turn_calls. rewrite H0. cbn [Nat.ltb Nat.leb]. rewrite Hr. by rewrite xml_call_repeated.
Qed.

Lemma xml_command_runs_again_witness :
  let text := lit "I will now look at the files in the directory for you: " ++ OPEN_TAG ++
    call_text (lit "shell") (command_body (lit "ls")) ++ CLOSE_TAG in
  ∃ args, turn_calls DISPATCHER_XML (set_content chat_response_zero text true) = [(lit "shell", args); (lit "shell", args)] ∧
    tool_request (lit "shell") args = inl (lit "shell", lit "ls").
Proof.
  intros text.
  destruct (xml_command_runs_again (set_content chat_response_zero text true)
    (lit "I will now look at the files in the directory for you: ") (lit "ls") []) as (args & H1 & H2);
    [done | by_eval | lit_forall | constructor | unfold inert; lit_forall | lit_forall | done | vm_compute; lia |].
  exists args. split; [exact H1 | exact H2].
Defined.

(** The agent of the examples without a network. *)
Lemma failed_call_is_answer_witness :
  ∃ t c', agent_think_with_tools (λ _ _, mk_answer 0 [] false) [] (λ w _, w) other_ex (λ _, None) alone DISPATCHER_NATIVE
      (agent_provider_chat getenv_ex (λ _, (0, 0))) getenv_ex (λ _, []) (λ _ _, []) (λ w _, w) None
      ([] : list transfer, idle_calls) guard_zero (agent_ex false) (lit "hello") 1024 =
    Some (t, 0, lit "HTTP request failed") ∧ context (t_agent t) = agent_trim_history c'.
Proof.
  destruct (chat_context_add_message (context (agent_ex false)) (Some (lit "user")) (Some (lit "hello"))) as [c|] eqn:Ec;
    [|by vm_compute in Ec].
  destruct (first_call getenv_ex (λ _, (0, 0)) DISPATCHER_NATIVE ([] : list transfer) idle_calls PROVIDER_OPENROUTER
    (lit "openai/gpt-4o-mini") (lit "key") c) as [[[[w' s'] r] rc]|] eqn:Ef;
    [|vm_compute in Ec; injection Ec as <-; by vm_compute in Ef].
  assert (rc = -1) as -> by (vm_compute in Ec; injection Ec as <-; vm_compute in Ef; congruence).
  destruct (failed_call_is_answer getenv_ex (λ _, (0, 0)) (λ _ _, mk_answer 0 [] false) [] (λ w _, w) other_ex (λ _, None)
    alone (λ _, []) (λ _ _, []) (λ w _, w) None DISPATCHER_NATIVE ([] : list transfer, idle_calls) ([] : list transfer) idle_calls guard_zero (agent_ex false) (lit "hello") 1024
    (lit "hello") c PROVIDER_OPENROUTER (lit "openai/gpt-4o-mini") (lit "key") w' s' r) as (t & c' & H1 & _ & _ & H2);
    [|reflexivity|reflexivity|exact Ec|reflexivity|exact Ef|exists t, c'; split; [exact H1 | exact H2]].
  apply (init_ctx_ok 1 2 3 (mk_agent_config (lit "/ws") false)). by_eval.
Defined.
