(* ===== verification/AgentSession.v ===== *)
(** * The rest of the agent: [src/agent/agent.c]

    The interactive loop, the prompt with the list of tools, the plain turn
    without tools, the tool call in JSON, and the operations that read or free
    the agent. *)
From S2P Require Import Prelude Approval Security Tools LoopGuard Providers Dispatcher Observability Agent.

(** ** The prompt *)

(** [offset += snprintf(prompt + offset, prompt_size - offset, s)]: [t] is all
    that was printed so far, its length is [offset].  [None]: the offset is
    behind the buffer and the size wraps around. *)
Definition append (size : nat) (t s : cstr) : option cstr := if (length t <=? size)%nat then Some (t ++ s) else None.

Definition tool_text (t : tool_definition_t) : cstr := lit "- " ++ td_name t ++ lit ": " ++ td_description t ++ [10].

Fixpoint append_tools (size : nat) (l : list tool_definition_t) (t : cstr) : option cstr :=
  match l with
  | [] => Some t
  | x :: l' => if below size 100 (length t) then t ← append size t (tool_text x); append_tools size l' t else Some t
  end.

Definition PROMPT_START : cstr := lit "You are Doctor Claw, an autonomous AI assistant." ++ [10; 10].
Definition context_part (c : cstr) : cstr := lit "Context:" ++ [10] ++ c ++ [10; 10].

Definition prompt_head (context : option cstr) : cstr :=
  PROMPT_START ++ (match context with Some c => context_part c | None => [] end).

Definition agent_build_prompt (a : agent_t) (context : option cstr) (size : nat) : option cstr :=
  t ← append size [] PROMPT_START;
  t ← (match context with Some c => append size t (context_part c) | None => Some t end);
  t ← append size t (lit "Available tools:" ++ [10]);
  t ← append_tools size (a_tools a) t;
  Some (snprintf_s size t).

(** ** A turn without tools *)

Section turn.
Context {W : Type} (getenv : cstr → option cstr).
(** [provider_chat_completion]: the response and the code. *)
Context (complete : W → provider_type_t → cstr → cstr → chat_context_t → W * chat_response_t * Z).

Definition agent_think (w : W) (a : agent_t) (user_message : cstr) (resp_size : nat) : option (W * agent_t * Z * cstr) :=
  c ← chat_context_add_message (context a) (Some (lit "user")) (Some user_message);
  let a := set_context a c 0 0 in
  let '(ptype, model, key) :=
    match getenv (lit "OPENROUTER_API_KEY") with
    | Some k => (PROVIDER_OPENROUTER, lit "openai/gpt-4o-mini", Some k)
    | None => (PROVIDER_OPENAI, lit "gpt-4o-mini", getenv (lit "OPENAI_API_KEY"))
    end in
  match key with
  | None => Some (w, a, -1, snprintf_s resp_size (lit "No API key configured. Set OPENROUTER_API_KEY or OPENAI_API_KEY"))
  | Some k =>
      let '(w, resp, rc) := complete w ptype model k (context a) in
      match (if rc =? 0 then resp_content resp else []) with
      | [] => Some (w, a, 0, snprintf_s resp_size (lit "Error: Failed to get response from provider"))
      | text =>
          let response := snprintf_s resp_size text in
          c ← chat_context_add_message (context a) (Some (lit "assistant")) (Some response);
          Some (w, set_context a c (tokens_used resp) 0, 0, response)
      end
  end.
End turn.

(** ** Tool calls *)

Section tool_calls.
Context (os : syscall → answer) (strerror : cstr).
Context (other_tool : builtin → cstr → option outcome) (registered : cstr → option (cstr → outcome)).

Definition call_params : cstr := [34; 44; 34] ++ lit "params" ++ [34; 58; 34].

(** [sscanf] with the tool and its parameters. *)
Definition parse_tool_call (json : cstr) : option (cstr * cstr) :=
  '(tool, rest) ← scan_quoted (json_open (lit "tool")) 63 json;
  '(params, _) ← scan_quoted call_params (Z.to_nat 4095) rest;
  Some (tool, params).

(** The text of the result and the system calls. *)
Definition agent_execute_tool_call (t : tools_t) (json : cstr) (result_size : nat) : option (cstr * list syscall) :=
  match parse_tool_call json with
  | None => Some (snprintf_s result_size (lit "Error: Could not parse tool call"), [])
  | Some (tool, params) =>
      o ← tools_execute os strerror other_tool registered t tool params;
      Some (snprintf_s result_size (if o_rc o =? 0 then r_result (o_result o) else lit "Error: " ++ Tools.r_error (o_result o)),
            o_calls o)
  end.

Definition agent_execute_tool (t : tools_t) (name arguments : cstr) : option outcome :=
  tools_execute os strerror other_tool registered t name arguments.
End tool_calls.

(** ** Reading and freeing *)

Definition agent_get_state (a : agent_t) : agent_state_t := state a.
Definition agent_get_stats (a : agent_t) : Z * Z := (total_tokens a, tool_calls_count a).

(** The tools lose their approval context with the agent. *)
Definition agent_free (t : tools_t) (a : agent_t) : tools_t * agent_t :=
  (tools_set_approval_context t None false,
   mk_agent [] AGENT_STATE_IDLE (chat_context_free (context a)) [] [] [] 0 0 0 (approval_manager_free (approval_manager a)) false []
     false 0 []).

(** These only print. *)
Definition agent_load_memory (a : agent_t) (id : cstr) : agent_t * cstr := (a, lit "[Agent] Loading memory: " ++ id).
Definition agent_store_memory (a : agent_t) (key value : cstr) : agent_t * cstr :=
  (a, lit "[Agent] Stored memory: " ++ key ++ lit " = " ++ value).
Definition agent_recall_memory (query : cstr) (size : nat) : cstr := snprintf_s size (lit "Recalled: " ++ query).
Definition agent_forget_memory (a : agent_t) (key : cstr) : agent_t * cstr := (a, lit "[Agent] Forgot memory: " ++ key).

(** ** The interactive loop *)

(** [input[strcspn(input, "\n")] = 0] *)
Definition input_of (piece : cstr) : cstr := take_while (λ b, negb (b =? 10)) piece.

Section session.
Context {A : Type}.
(** [agent_run_task] on a line. *)
Context (run_task : A → cstr → A).

(** [pieces] is what [fgets] reads; the pieces that are left are in the
    result. *)
Fixpoint agent_run_loop (pieces : list cstr) (a : A) : A * list cstr :=
  match pieces with
  | [] => (a, [])
  | p :: l =>
      match input_of p with
      | [] => agent_run_loop l a
      | input => if streq input (lit "exit") || streq input (lit "quit") then (a, l) else agent_run_loop l (run_task a input)
      end
  end.

Lemma run_loop_shorter pieces a : (length (agent_run_loop pieces a).2 ≤ length pieces)%nat.
Proof.
  revert a. induction pieces as [|p l IH]; intros a; [done|]. cbn [agent_run_loop length].
  destruct (input_of p) as [|b s]; [apply le_S, IH|]. destruct (_ || _); [cbn; lia|apply le_S, IH].
Qed.
End session.

(** ** Properties *)

Lemma prompt_append_fits size t s : (length t ≤ size)%nat → append size t s = Some (t ++ s).
Proof. intros Ht. unfold append. by rewrite (proj2 (Nat.leb_le _ _)). Qed.

Lemma below_spec size off : (100 ≤ size)%nat → Z.of_nat size < 2 ^ 64 → below size 100 off = (off <? size - 100)%nat.
Proof.
  intros Hs Hz. unfold below. rewrite wrap_small by lia.
  destruct (Nat.ltb_spec off (size - 100)); [apply Z.ltb_lt|apply Z.ltb_ge]; lia.
Qed.

Lemma append_tools_total size l t :
  (100 ≤ size)%nat → Z.of_nat size < 2 ^ 64 →
  ∃ k, append_tools size l t = Some (t ++ concat (map tool_text (take k l))) ∧
       (k < length l → size - 100 ≤ length (t ++ concat (map tool_text (take k l))))%nat.
Proof.
  intros Hs Hz. revert t. induction l as [|x l IH]; intros t; [exists O; cbn; rewrite app_nil_r; split; [done|lia]|].
  cbn [append_tools]. rewrite below_spec by done. destruct (Nat.ltb_spec (length t) (size - 100)) as [Ht|Ht].
  - rewrite prompt_append_fits by lia. cbn [mbind option_bind]. destruct (IH (t ++ tool_text x)) as (k & -> & Hk).
    exists (S k). cbn [take map concat]. rewrite app_assoc. split; [done|]. cbn [length]. intros H. apply Hk. lia.
  - exists O. cbn [take map concat]. rewrite app_nil_r. split; [done|lia].
Qed.

(** A context that fits gives the whole prompt up to the room: the head, the
    context and as many whole tools as start more than 100 bytes before the
    end; all of them when there is room.  Nothing is written behind the
    buffer. *)
Theorem build_prompt_exact a context size :
  (100 ≤ size)%nat → Z.of_nat size < 2 ^ 64 → (length (prompt_head context) ≤ size)%nat →
  let front := prompt_head context ++ lit "Available tools:" ++ [10] in
  ∃ k, agent_build_prompt a context size = Some (snprintf_s size (front ++ concat (map tool_text (take k (a_tools a))))) ∧
    (k < length (a_tools a) → size - 100 ≤ length (front ++ concat (map tool_text (take k (a_tools a)))))%nat.
Proof.
  intros Hs Hz Hf front.
  destruct (append_tools_total size (a_tools a) front Hs Hz) as (k & Hk & Hn). exists k. split; [|done].
  unfold agent_build_prompt. rewrite prompt_append_fits by (cbn; lia). cbn [mbind option_bind]. change ([] ++ PROMPT_START) with PROMPT_START.
  assert ((match context with Some c => append size PROMPT_START (context_part c) | None => Some PROMPT_START end) =
    Some (prompt_head context)) as ->.
  { unfold prompt_head in *. destruct context as [c|]; [|by rewrite app_nil_r]. apply prompt_append_fits. rewrite length_app in Hf. lia. }
  cbn [mbind option_bind]. rewrite prompt_append_fits by done. cbn [mbind option_bind]. fold front. by rewrite Hk.
Qed.

(** A longer context makes the writer leave the buffer. *)
Theorem long_context_overflows a c size :
  (size < length (prompt_head (Some c)))%nat → agent_build_prompt a (Some c) size = None.
Proof.
  intros Hl. unfold agent_build_prompt. rewrite prompt_append_fits by (cbn; lia). cbn [mbind option_bind].
  change ([] ++ PROMPT_START) with PROMPT_START. destruct (append size PROMPT_START (context_part c)) as [t|] eqn:E; [|done].
  unfold append in E. case_match; [|done]. injection E as <-. cbn [mbind option_bind]. unfold append.
  by rewrite (proj2 (Nat.leb_gt _ _)).
Qed.

(** The gate does not hold among workers: while a worker frees its agent the
    approval context of the process is gone, and a turn of an agent that
    requires approval runs its shell commands. *)
Theorem free_opens_gate :
  (λ r, (require_approval (t_agent r.1.1), t_calls r.1.1)) <$>
    agent_think_with_tools os_ex [] (λ w _, w) other_ex (λ _, None)
      (mk_others (λ _ g, g) (λ _ t, (agent_free t (agent_ex true)).1))
      DISPATCHER_NATIVE Agent.chat_ex getenv_ex (λ _, []) (λ _ _, []) (λ w _, w)
      None O guard_zero (agent_ex true) (lit "hello") 1024 =
  Some (true, [Sys_run None (lit "ls") 60; Sys_run None (lit "ls") 60]).
Proof. vm_compute. reflexivity. Qed.

(** A provider that fails is not an error of the turn: the code is 0 and the
    message stands in the answer, while the history keeps the question. *)
Theorem think_hides_failure {W} getenv complete (w : W) a msg n c k :
  getenv (lit "OPENROUTER_API_KEY") = Some k →
  chat_context_add_message (context a) (Some (lit "user")) (Some msg) = Some c →
  (complete w PROVIDER_OPENROUTER (lit "openai/gpt-4o-mini") k c).2 ≠ 0 →
  ∃ w', agent_think getenv complete w a msg n =
    Some (w', set_context a c 0 0, 0, snprintf_s n (lit "Error: Failed to get response from provider")).
Proof.
  intros Hk Hc Hr. unfold agent_think. rewrite Hc. cbn [mbind option_bind]. rewrite Hk. cbn zeta.
  change (context (set_context a c 0 0)) with c. destruct (complete w _ _ k c) as [[w' resp] rc]. cbn in Hr.
  rewrite (proj2 (Z.eqb_neq rc 0)) by done. by exists w'.
Qed.

(** A session runs each line that is not empty as a task, once and in order, up
    to the first [exit] or [quit]; the rest of the input is left to the
    caller. *)
Theorem run_loop_runs_lines {A} (run_task : A → cstr → A) ls stop rest a :
  Forall (λ l, l ≠ [] ∧ Forall (λ b, b ≠ 10) l ∧ streq l (lit "exit") = false ∧ streq l (lit "quit") = false) ls →
  stop = lit "exit" ∨ stop = lit "quit" →
  agent_run_loop run_task (map (λ l, l ++ [10]) (ls ++ [stop]) ++ rest) a = (foldl run_task a ls, rest).
Proof.
  assert (∀ l, Forall (λ b, b ≠ 10) l → input_of (l ++ [10]) = l) as Hi.
  { intros l Hn. unfold input_of. induction Hn as [|b l Hb _ IH]; [done|]. cbn. rewrite (proj2 (Z.eqb_neq b 10)) by done.
    cbn [negb]. by rewrite IH. }
  intros Hl Hs. revert a. induction Hl as [|l ls (Hne & Hn & He & Hq) _ IH]; intros a.
  - cbn [app map agent_run_loop]. rewrite Hi by (destruct Hs as [->| ->]; by apply (bool_decide_unpack _); vm_compute).
    by destruct Hs as [->| ->].
  - cbn [app map agent_run_loop foldl]. rewrite Hi by done. destruct l as [|b l]; [done|]. rewrite He, Hq. apply IH.
Qed.

(** ** Witnesses *)

Lemma build_prompt_exact_witness : ∃ t, agent_build_prompt (agent_ex false) (Some (lit "notes")) 200 = Some t.
Proof.
  destruct (build_prompt_exact (agent_ex false) (Some (lit "notes")) 200) as (k & H & _); [lia|lia|vm_compute; lia|]. eexists. exact H.
Defined.

Lemma long_context_overflows_witness : agent_build_prompt (agent_ex false) (Some (replicate 200 65)) 200 = None.
Proof. apply long_context_overflows. vm_compute. lia. Defined.

Lemma think_hides_failure_witness :
  ∃ r, agent_think (λ _, Some (lit "key")) (λ w _ _ _ _, (w, chat_response_zero, -1)) 0 (agent_ex false) (lit "hi") 100 = Some r ∧ r.1.2 = 0.
Proof.
  destruct (chat_context_add_message (context (agent_ex false)) (Some (lit "user")) (Some (lit "hi"))) as [c|] eqn:E.
  - destruct (think_hides_failure (λ _, Some (lit "key")) (λ w _ _ _ _, (w, chat_response_zero, -1)) 0 (agent_ex false) (lit "hi") 100 c (lit "key"))
      as (w' & H); [done|exact E|done|]. eexists. split; [exact H|done].
  - exfalso. revert E. by vm_compute.
Defined.

Lemma run_loop_runs_lines_witness :
  agent_run_loop (λ l x, l ++ [x]) [lit "one" ++ [10]; lit "two" ++ [10]; lit "quit" ++ [10]; lit "rest" ++ [10]] [] =
  ([lit "one"; lit "two"], [lit "rest" ++ [10]]).
Proof.
  apply (run_loop_runs_lines (λ l x, l ++ [x]) [lit "one"; lit "two"] (lit "quit") [lit "rest" ++ [10]] []); [|by right].
  apply (bool_decide_unpack _). by vm_compute.
Defined.
