(* ===== verification/Gateway.v ===== *)
(** * The gateway of [src/gateway/gateway.c]

    Parsing of requests, the checks in front of the handlers, the handlers,
    and the WebSocket frames.  A request is the bytes of one [recv]; what a
    connection does with its socket is a list of operations.  The agent is used through the
    interface of the worker pool, the job queue through [submit]. *)
From S2P Require Import Prelude Security SecurityMonitor Ids RuntimeMonitor Ring JobCache JobWorker.

Definition MAX_REQUEST_SIZE : nat := Z.to_nat 65536.
Definition MAX_RESPONSE_SIZE : nat := Z.to_nat 65536.
Definition SECMON_REASON_MAX : nat := 128.
Definition IDS_REASON_MAX : nat := 128.
Definition CRLF : cstr := [13; 10].

(** ** Requests *)

Record http_request_t := mk_request {
  method : cstr;
  path : cstr;
  body : list Z;
  headers : list cstr;
}.

Definition body_size (r : http_request_t) : nat := length (body r).
Definition request_zero : http_request_t := mk_request [] [] [] [].

(** [%<n>s] of [sscanf]: the word and the rest of the input. *)
Definition scan_word (n : nat) (s : cstr) : cstr * cstr :=
  let s := skip_while isspace s in
  let w := take n (take_while (λ b, negb (isspace b)) s) in
  (w, drop (length w) s).

(** The loop over the lines of the header part.  The text after the last line
    end is not a line for it. *)
Fixpoint header_lines (fuel : nat) (s : cstr) (acc : list cstr) : list cstr :=
  match fuel with
  | O => acc
  | S fuel' =>
      match strstr s CRLF with
      | None => acc
      | Some n =>
          let acc := if (n <? 512)%nat && (length acc <? 32)%nat then acc ++ [take n s] else acc in
          header_lines fuel' (drop (n + 2) s) acc
      end
  end.

(** The comparison [header_line < body_start] of pointers into two arrays is
    taken to hold. *)
Definition parse_http_request (raw : list Z) : http_request_t :=
  match strstr (until_nul raw) (CRLF ++ CRLF) with
  | None => request_zero
  | Some header_len =>
      let b := take (MAX_REQUEST_SIZE - 1) (drop (header_len + 4) raw) in
      let header_part := take (Nat.min header_len (Z.to_nat 4095)) raw in
      let '(m, rest) := scan_word 15 header_part in
      let '(p, _) := scan_word 255 rest in
      let '(m, p) := match m, p with _ :: _, _ :: _ => (m, p) | _, _ => ([], []) end in
      mk_request m p b (header_lines (length header_part) header_part [])
  end.

Fixpoint find_header (hs : list cstr) (name : cstr) : option cstr :=
  match hs with
  | [] => None
  | h :: hs' =>
      if strneq (length name) h name && (nth (length name) h 0 =? 58)
      then Some (skip_while (λ b, b =? 32) (drop (length name + 1) h))
      else find_header hs' name
  end.

Definition get_header (r : http_request_t) (name : cstr) : option cstr := find_header (headers r) name.

(** ** JSON texts *)

Definition gateway_escape_char (b : Z) : cstr :=
  if (b =? 34) || (b =? 92) then [92; b]
  else if b =? 10 then [92; 110] else if b =? 13 then [92; 114] else [b].

(** [j] is the number of bytes written. *)
Fixpoint json_escape_from (j : nat) (s : cstr) (out_size : nat) : cstr :=
  match s with
  | [] => []
  | b :: s' =>
      if (j + 2 <? out_size)%nat then
        let e := gateway_escape_char b in e ++ json_escape_from (j + length e) s' out_size
      else []
  end.
Definition json_escape (s : cstr) (out_size : nat) : cstr := json_escape_from 0 s out_size.

(** The text of a JSON string up to its closing quote, in [room] bytes; only
    escaped quotes and backslashes are undone. *)
Fixpoint unescape (room : nat) (s : cstr) : cstr :=
  match room, s with
  | S room', b :: s' =>
      match s' with
      | c :: s'' =>
          if (b =? 92) && ((c =? 34) || (c =? 92)) then c :: unescape room' s''
          else if b =? 34 then [] else b :: unescape room' s'
      | [] => if b =? 34 then [] else [b]
      end
  | _, _ => []
  end.

Definition jquote (s : cstr) : cstr := [34] ++ s ++ [34].

Definition parse_json_prompt (b : list Z) (prompt_size : nat) : option cstr :=
  let s := until_nul b in
  i ← strstr s (jquote (lit "prompt"));
  j ← strchr (drop (i + 7) s) 58;
  match skip_while (λ b, (b =? 32) || (b =? 9)) (drop (j + 1) (drop (i + 7) s)) with
  | 34 :: s' => Some (unescape (prompt_size - 1) s')
  | _ => None
  end.

Definition json_pair (key : cstr) : cstr := jquote key ++ [58; 34].

Definition parse_slack_challenge (b : list Z) (out_size : nat) : option cstr :=
  let s := until_nul b in
  if negb (contains s (jquote (lit "type") ++ [58] ++ jquote (lit "url_verification")))
     && negb (contains s (jquote (lit "type") ++ [58; 32] ++ jquote (lit "url_verification")))
  then None
  else
    i ← strstr s (json_pair (lit "challenge"));
    Some (take (out_size - 1) (take_while (λ b, negb (b =? 34)) (drop (i + 13) s))).

Definition webhook_keys : list cstr :=
  [json_pair (lit "text"); json_pair (lit "content"); json_pair (lit "message");
   jquote (lit "message") ++ [58; 123] ++ json_pair (lit "text")].

Fixpoint first_message (keys : list cstr) (s : cstr) (size : nat) : option cstr :=
  match keys with
  | [] => None
  | k :: keys' =>
      match strstr s k with
      | None => first_message keys' s size
      | Some i =>
          match unescape (size - 1) (drop (i + length k) s) with
          | [] => first_message keys' s size
          | m => Some m
          end
      end
  end.
Definition parse_json_webhook_message (b : list Z) (message_size : nat) : option cstr :=
  first_message webhook_keys (until_nul b) message_size.

(** ** Responses *)

Record gateway_response_t := mk_gresponse {
  status_code : Z;
  status_text : cstr;
  content_type : cstr;
  resp_body : cstr;
}.

Definition html_page : cstr :=
  lit "<!DOCTYPE html>" ++ [10] ++ lit "<html><head><title>Doctor Claw</title></head>" ++ [10] ++
  lit "<body><h1>Doctor Claw Gateway</h1>" ++ [10] ++ lit "<p>Version: 0.1.0</p>" ++ [10] ++
  lit "<p>Status: Running</p>" ++ [10] ++
  lit "<p><a href=" ++ jquote (lit "/webhooks") ++ lit ">Webhooks</a> | <a href=" ++ jquote (lit "/health") ++
  lit ">Health</a></p>" ++ [10] ++ lit "</body></html>" ++ [10].

Definition response_head (r : gateway_response_t) : cstr :=
  lit "HTTP/1.1 " ++ fmt_dec (status_code r) ++ [32] ++ status_text r ++ CRLF ++
  lit "Content-Type: " ++ content_type r ++ CRLF ++
  lit "Content-Length: " ++ fmt_dec (Z.of_nat (length (resp_body r))) ++ CRLF ++
  lit "Connection: close" ++ CRLF ++ lit "Access-Control-Allow-Origin: *" ++ CRLF ++
  lit "X-Content-Type-Options: nosniff" ++ CRLF ++ lit "X-Frame-Options: DENY" ++ CRLF ++ CRLF.

Definition build_http_response (r : gateway_response_t) (out_size : nat) : cstr :=
  let head := snprintf_s out_size (response_head r) in
  if (length head + length (resp_body r) <? out_size)%nat then head ++ resp_body r else head.

(** An object with one string field. *)
Definition json_object (key value : cstr) : cstr := [123] ++ json_pair key ++ value ++ [34; 125].
Definition json_error (e : cstr) : cstr := json_object (lit "error") e.

Definition in_body (s : cstr) : cstr := snprintf_s MAX_RESPONSE_SIZE s.
Definition json_ok (s : cstr) : gateway_response_t := mk_gresponse 200 (lit "OK") (lit "application/json") (in_body s).

(** ** Jobs *)

(** [agent_response_cb]: the buffer the handler finds. *)
Definition agent_response_cb (result : cstr) (error : Z) : cstr :=
  let s := snprintf_s (Z.to_nat 16384) result in
  if negb (error =? 0) && streq s [] then lit "error=" ++ fmt_dec error else s.

(** A job of the gateway; the payload is NUL-padded to the size of its field. *)
Definition gateway_job (text : cstr) : job_t :=
  let text := take (JOB_PAYLOAD_LEN - 1) text in
  mk_job JOB_AGENT_CHAT (lit "default") (text ++ replicate (JOB_PAYLOAD_LEN - length text) 0) (length text)
    (Some 0) 0.

Definition chat_job (task_focus : bool) (prompt : cstr) : job_t :=
  gateway_job (if task_focus then lit "task_focus=1" ++ [10] ++ prompt else prompt).

Section handlers.
Context {config_t agent_t : Type} {ops : AgentOps config_t agent_t}.
(** With a job queue, [submit] gives the buffer a job's callback has filled
    ([None] when the push fails). *)
Context (submit : option (job_t → option cstr)) (config : option config_t).
Context (metrics : option cstr) (health_secret : option cstr).

Definition PROMPT_LEN : nat := Z.to_nat 4096.
Definition ANSWER_LEN : nat := Z.to_nat 16384.
Definition ESCAPED_LEN : nat := Z.to_nat 32768.

Definition answer_body (s : cstr) : cstr :=
  in_body (json_object (lit "response") (json_escape s ESCAPED_LEN)).

(** The text of the response to a message, and the jobs pushed.  The workspace
    of the tools that [agent_init] sets is not a result of a handler. *)
Definition ask_agent (task_focus : bool) (failed : cstr) (message : cstr) : cstr * list job_t :=
  match submit with
  | Some push =>
      let job := chat_job task_focus message in
      (match push job with
       | Some (b :: s) => answer_body (b :: s)
       | Some [] => in_body (json_error (lit "Agent failed"))
       | None => in_body (json_error (lit "Job queue full"))
       end, [job])
  | None =>
      (match config ≫= (λ c, (agent_init c).2) with
       | Some agent =>
           let '(rc, text) :=
             if task_focus then agent_run_task agent message ANSWER_LEN else agent_chat agent message ANSWER_LEN in
           match text with
           | b :: s => if rc =? 0 then answer_body text else in_body (json_error text)
           | [] => in_body (json_error failed)
           end
       | None => in_body (json_error (lit "Agent init failed"))
       end, [])
  end.

Definition health_full (r : http_request_t) : bool :=
  match health_secret with
  | Some ((_ :: _) as secret) =>
      match get_header r (lit "Authorization") with
      | Some auth =>
          if strneq 7 auth (lit "Bearer ") && streq (drop 7 auth) secret then true
          else
            match strstr (path r) (lit "full=") with
            | Some i => streq (take 127 (take_while (λ b, negb (b =? 38)) (drop (i + 5) (path r)))) secret
            | None => false
            end
      | None =>
          match strstr (path r) (lit "full=") with
          | Some i => streq (take 127 (take_while (λ b, negb (b =? 38)) (drop (i + 5) (path r)))) secret
          | None => false
          end
      end
  | _ => false
  end.

Definition handle_webhook (r : http_request_t) : gateway_response_t * list job_t :=
  match (if strneq 6 (path r) (lit "/slack") then parse_slack_challenge (body r) 512 else None) with
  | Some c => (json_ok (json_object (lit "challenge") c), [])
  | None =>
      match parse_json_webhook_message (body r) PROMPT_LEN with
      | Some m => let '(text, jobs) := ask_agent false (lit "Agent failed") m in (json_ok text, jobs)
      | None => (json_ok (json_error (lit "No message in body")), [])
      end
  end.

Definition handle_chat (r : http_request_t) : gateway_response_t * list job_t :=
  match parse_json_prompt (body r) PROMPT_LEN with
  | Some ((_ :: _) as prompt) =>
      let s := until_nul (body r) in
      let task_focus := contains s (jquote (lit "task_focus") ++ lit ":true")
                        || contains s (jquote (lit "task_focus") ++ lit ": true") in
      let '(text, jobs) := ask_agent task_focus (lit "Agent chat failed") prompt in (json_ok text, jobs)
  | _ => (json_ok (json_error (lit "No prompt provided")), [])
  end.

Definition handle_request (r : http_request_t) : gateway_response_t * list job_t :=
  let p := path r in
  if streq p (lit "/metrics") then
    (match metrics with
     | Some buf => mk_gresponse 200 (lit "OK") (lit "text/plain; version=0.0.4") (in_body buf)
     | None => mk_gresponse 500 [] [] (lit "metrics error")
     end, [])
  else if streq p (lit "/") || streq p (lit "/index.html") then
    (mk_gresponse 200 (lit "OK") (lit "text/html") html_page, [])
  else if streq p (lit "/health") || strneq 7 p (lit "/health") then
    (json_ok (if health_full r
              then [123] ++ json_pair (lit "status") ++ lit "healthy" ++ [34; 44] ++ json_pair (lit "version")
                   ++ lit "0.1.0" ++ [34; 125]
              else json_object (lit "status") (lit "ok")), [])
  else if streq p (lit "/webhook") || streq p (lit "/webhooks") then
    (json_ok ([123] ++ json_pair (lit "message") ++ lit "Webhook endpoint ready" ++ [34; 44] ++ jquote (lit "paths")
              ++ [58; 91] ++ jquote (lit "/telegram") ++ [44] ++ jquote (lit "/discord") ++ [44]
              ++ jquote (lit "/slack") ++ [93; 125]), [])
  else if strneq 9 p (lit "/telegram") || strneq 8 p (lit "/discord") || strneq 6 p (lit "/slack") then
    handle_webhook r
  else if streq p (lit "/agent/chat") && ((nth 0 (method r) 0 =? 80) || (nth 0 (method r) 0 =? 112)) then
    handle_chat r
  else (mk_gresponse 404 (lit "Not Found") (lit "application/json") (json_error (lit "Not found")), []).
End handlers.

(** ** The checks in front of the handlers *)

Record gateway_t := mk_gateway {
  gw_secmon : secmon_t;
  gw_audit : audit_t;
  gw_ids : ids_t;
  gw_monitor : monitor_t;
}.

Definition reject_event (r : security_monitor_result_t) : runtime_event_type_t :=
  match r with
  | SECMON_RATE_LIMITED => RUNTIME_EVENT_RATE_LIMIT
  | SECMON_INJECTION_SUSPECTED => RUNTIME_EVENT_INJECTION
  | SECMON_PATH_TRAVERSAL => RUNTIME_EVENT_PATH_TRAVERSAL
  | _ => RUNTIME_EVENT_SECURITY_REJECT
  end.

Definition or_text (s dflt : cstr) : cstr := match s with [] => dflt | _ => s end.

(** The arrow between path and reason is U+2192 in UTF-8. *)
Definition detail_text (prefix : cstr) (r : http_request_t) (reason dflt : cstr) : cstr :=
  snprintf_s 256 (prefix ++ method r ++ [32] ++ path r ++ [32; 226; 134; 146; 32] ++ or_text reason dflt).

Definition reject_body (reason dflt : cstr) : cstr :=
  [123] ++ json_pair (lit "error") ++ lit "Request rejected" ++ [34; 44] ++ json_pair (lit "reason")
  ++ or_text reason dflt ++ [34; 125].

(** The connection is recorded and the request checked: the gateway
    afterwards, and the response that rejects the request, if any. *)
Definition gateway_check (now : Z) (malloc_ok : bool) (g : gateway_t) (client_ip : cstr) (r : http_request_t)
    : gateway_t * option gateway_response_t :=
  let mon := runtime_monitor_connection now (gw_monitor g) (Some client_ip) in
  let '(sec, result, reason) :=
    security_monitor_check_request now malloc_ok (gw_secmon g) (Some client_ip) (Some (method r)) (Some (path r))
      (Some (body r)) (body_size r) SECMON_REASON_MAX in
  if negb (bool_decide (result = SECMON_OK)) then
    let resp :=
      if bool_decide (result = SECMON_RATE_LIMITED)
      then mk_gresponse 429 (lit "Too Many Requests") (lit "application/json") (json_error (lit "Rate limit exceeded"))
      else mk_gresponse 400 (lit "Bad Request") (lit "application/json") (reject_body reason (lit "security")) in
    (mk_gateway sec
       (security_monitor_audit_reject now (gw_audit g) result (Some client_ip) (Some (method r)) (Some (path r)) (Some reason))
       (gw_ids g)
       (runtime_monitor_event now mon (reject_event result) (Some (lit "gateway")) (Some client_ip)
          (Some (detail_text [] r reason (lit "rejected")))),
     Some resp)
  else
    let '(alert, reason) := ids_check (gw_ids g) (Some (path r)) (Some (body r)) (body_size r) IDS_REASON_MAX in
    if negb (bool_decide (alert = IDS_OK)) then
      (mk_gateway sec
         (security_monitor_audit_reject now (gw_audit g) SECMON_INJECTION_SUSPECTED (Some client_ip) (Some (method r))
            (Some (path r)) (Some reason))
         (gw_ids g)
         (runtime_monitor_event now mon RUNTIME_EVENT_OTHER (Some (lit "gateway")) (Some client_ip)
            (Some (detail_text (lit "IDS ") r reason (lit "alert")))),
       Some (mk_gresponse 400 (lit "Bad Request") (lit "application/json") (reject_body reason (lit "ids"))))
    else (mk_gateway sec (gw_audit g) (gw_ids g) mon, None).

(** ** WebSocket frames *)

Definition WS_MAX_MESSAGE_SIZE : Z := 65536.
Definition WS_MAX_CLIENTS : nat := 32.

(** Big-endian value of a list of bytes. *)
Definition be_value (l : list Z) : Z := foldl (λ a b, u64 (Z.shiftl a 8) + b) 0 l.

Definition ws_header (len : nat) (binary : bool) : list Z :=
  let n := Z.of_nat len in
  (if binary then 130 else 129) ::
  (if (len <? 126)%nat then [n]
   else if n <? 65536 then [126; Z.land (Z.shiftr n 8) 255; Z.land n 255]
   else 127 :: map (λ i, Z.land (Z.shiftr n (8 * Z.of_nat i)) 255) (seq 0 8)).

Definition ws_build_frame (message : list Z) (binary : bool) : list Z :=
  ws_header (length message) binary ++ message.

Definition WS_FRAME_LEN : Z := WS_MAX_MESSAGE_SIZE + 14.

(** The frame in the local array of the functions that send one; [None]: it is
    written past the end of the array. *)
Definition local_frame (message : list Z) (binary : bool) : option (list Z) :=
  let f := ws_build_frame message binary in
  if WS_FRAME_LEN <? Z.of_nat (length f) then None else Some f.

(** [sent] is the result of [send]; the frame it was given, and the code. *)
Definition ws_send_to_fd (sent : Z) (client_fd : Z) (message : list Z) (binary : bool) : option (option (list Z) * Z) :=
  if client_fd <? 0 then Some (None, -1)
  else f ← local_frame message binary; Some (Some f, if sent =? Z.of_nat (length f) then 0 else -1).

Fixpoint unmask (i : nat) (key : list Z) (l : list Z) : list Z :=
  match l with
  | [] => []
  | b :: l' => Z.lxor b (nth (i mod 4) key 0) :: unmask (S i) key l'
  end.

Inductive ws_frame :=
  | WsShort                                              (** return -1 *)
  | WsMessage (fin : Z) (message : list Z) (binary : bool)
  | WsUnsafe.                  (** bytes are read or written outside the buffers *)

(** The caller passes a length of 0, so that the bound of the copy loop is the
    largest [size_t]; [capacity] is the size of the caller's buffer. *)
Definition ws_parse_frame (data : list Z) (capacity : Z) : ws_frame :=
  match data with
  | b0 :: b1 :: rest =>
      let len := Z.of_nat (length data) in
      let masked := negb (Z.land b1 128 =? 0) in
      let len7 := Z.land b1 127 in
      if (len7 =? 126) && (len <? 4) then WsShort
      else if (len7 =? 127) && (len <? 10) then WsShort
      else
        let '(payload_len, rest) :=
          if len7 =? 126 then (be_value (take 2 rest), drop 2 rest)
          else if len7 =? 127 then (be_value (take 8 rest), drop 8 rest)
          else (len7, rest) in
        let offset := len - Z.of_nat (length rest) in
        if len <? u64 (offset + (if masked then 4 else 0) + payload_len) then WsShort
        else
          let key := if masked then take 4 rest else [0; 0; 0; 0] in
          let payload := if masked then drop 4 rest else rest in
          if (Z.of_nat (length payload) <? payload_len) || (capacity <=? payload_len) then WsUnsafe
          else
            let p := take (Z.to_nat payload_len) payload in
            WsMessage (Z.land (Z.shiftr b0 7) 1) (if masked then unmask 0 key p else p) (Z.land b0 15 =? 2)
  | _ => WsShort
  end.

(** One round of the WebSocket loop: the frame sent back, and whether the
    loop goes on; [None] when the parser left its buffers. *)
Definition ws_round (data : list Z) : option (option (list Z) * bool) :=
  let running := negb (nth 0 data 0 =? 8) in
  match ws_parse_frame data WS_MAX_MESSAGE_SIZE with
  | WsUnsafe => None
  | WsShort => Some (None, running)
  | WsMessage _ [] _ => Some (None, running)
  | WsMessage _ m _ =>
      f ← local_frame (snprintf_s (Z.to_nat WS_MAX_MESSAGE_SIZE) (lit "Echo: " ++ until_nul m)) false;
      Some (Some f, running)
  end.

(** ** The handshake *)

Definition rotl (n x : Z) : Z := Z.lor (u32 (Z.shiftl x n)) (Z.shiftr x (32 - n)).

Fixpoint words (l : list Z) : list Z :=
  match l with
  | a :: b :: c :: d :: l' =>
      Z.lor (Z.lor (Z.shiftl a 24) (Z.shiftl b 16)) (Z.lor (Z.shiftl c 8) d) :: words l'
  | _ => []
  end.

(** The message schedule, newest word first. *)
Fixpoint schedule (n : nat) (w : list Z) : list Z :=
  match n with
  | O => w
  | S n' =>
      schedule n' (rotl 1 (Z.lxor (Z.lxor (nth 2 w 0) (nth 7 w 0)) (Z.lxor (nth 13 w 0) (nth 15 w 0))) :: w)
  end.

Definition sha1_round (h : Z * Z * Z * Z * Z) (iw : nat * Z) : Z * Z * Z * Z * Z :=
  let '(a, b, c, d, e) := h in
  let '(i, w) := iw in
  let '(f, k) :=
    if (i <? 20)%nat then (Z.lor (Z.land b c) (Z.land (Z.lxor b 0xFFFFFFFF) d), 0x5A827999)
    else if (i <? 40)%nat then (Z.lxor (Z.lxor b c) d, 0x6ED9EBA1)
    else if (i <? 60)%nat then (Z.lor (Z.lor (Z.land b c) (Z.land b d)) (Z.land c d), 0x8F1BBCDC)
    else (Z.lxor (Z.lxor b c) d, 0xCA62C1D6) in
  (u32 (rotl 5 a + f + e + k + w), a, rotl 30 b, c, d).

Definition sha1_chunk (h : Z * Z * Z * Z * Z) (chunk : list Z) : Z * Z * Z * Z * Z :=
  let w := reverse (schedule 64 (reverse (words chunk))) in
  let '(a, b, c, d, e) := foldl sha1_round h (zip (seq 0 80) w) in
  let '(h0, h1, h2, h3, h4) := h in
  (u32 (h0 + a), u32 (h1 + b), u32 (h2 + c), u32 (h3 + d), u32 (h4 + e)).

(** [None]: the padded message does not fit its buffer of 128 bytes. *)
Definition sha1_hash (input : cstr) : option cstr :=
  let len := length input in
  if (120 <=? len)%nat then None
  else
    let pad_len := if (len <? 56)%nat then (56 - len - 1)%nat else (120 - len - 1)%nat in
    let bits := map (λ i, Z.land (Z.shiftr (Z.of_nat len * 8) (56 - Z.of_nat i * 8)) 255) (seq 0 8) in
    let msg := input ++ [128] ++ replicate pad_len 0 ++ bits in
    let h := (0x67452301, 0xEFCDAB89, 0x98BADCFE, 0x10325476, 0xC3D2E1F0) in
    let h := sha1_chunk h (take 64 msg) in
    let '(h0, h1, h2, h3, h4) := if (64 <? length msg)%nat then sha1_chunk h (drop 64 msg) else h in
    Some (fmt_hex false 8 h0 ++ fmt_hex false 8 h1 ++ fmt_hex false 8 h2 ++ fmt_hex false 8 h3 ++ fmt_hex false 8 h4).

Definition WS_GUID : cstr := lit "258EAFA5-E914-47DA-95CA-C5AB0DC85B11".

Definition ws_handshake (key : cstr) : option cstr :=
  hash ← sha1_hash (snprintf_s 256 (key ++ WS_GUID));
  Some (snprintf_s 512
    (lit "HTTP/1.1 101 Switching Protocols" ++ CRLF ++ lit "Upgrade: websocket" ++ CRLF ++
     lit "Connection: Upgrade" ++ CRLF ++ lit "Sec-WebSocket-Accept: " ++ hash ++ CRLF ++ CRLF)).

(** The bytes sent; [None] as in [sha1_hash]. *)
Definition handle_ws_request (r : http_request_t) : option (list (list Z)) :=
  match get_header r (lit "Upgrade"), get_header r (lit "Connection"), get_header r (lit "Sec-WebSocket-Key") with
  | Some _, Some connection, Some ws_key =>
      if negb (contains connection (lit "Upgrade")) || negb (contains ws_key (lit "==")) then Some []
      else resp ← ws_handshake ws_key; Some [resp]
  | _, _, _ => Some []
  end.

(** The loop over the frames received until the connection ends. *)
Fixpoint ws_loop (frames : list (list Z)) : option (list (list Z)) :=
  match frames with
  | [] => Some []
  | f :: frames' =>
      '(out, running) ← ws_round f;
      rest ← (if (running : bool) then ws_loop frames' else Some []);
      Some (match out with Some o => o :: rest | None => rest end)
  end.

(** ** A connection *)

(** What the thread of a connection does with its socket. *)
Inductive sock_op := SockSend (data : list Z) | SockClose.

(** The data of the operations that send. *)
Definition sent_data (ops : list sock_op) : list (list Z) :=
  flat_map (λ o, match o with SockSend d => [d] | SockClose => [] end) ops.

(** [buffer] is the first [recv], [None] when it gives nothing, [frames] the
    later ones of a WebSocket: the gateway afterwards, the operations on the
    socket and the jobs pushed; [None] when a buffer is left. *)
Definition gateway_worker {config_t agent_t} {ops : AgentOps config_t agent_t}
    (submit : option (job_t → option cstr)) (config : option config_t) (metrics health_secret : option cstr)
    (now : Z) (malloc_ok : bool) (g : gateway_t) (client_ip : cstr) (buffer : option (list Z)) (frames : list (list Z))
    : option (gateway_t * list sock_op * list job_t) :=
  match buffer with
  | None => Some (g, [SockClose], [])
  | Some buffer =>
      let r := parse_http_request buffer in
      let size := (MAX_REQUEST_SIZE + MAX_RESPONSE_SIZE)%nat in
      match gateway_check now malloc_ok g (snprintf_s 64 client_ip) r with
      | (g, Some resp) => Some (g, [SockSend (build_http_response resp size); SockClose], [])
      | (g, None) =>
          '(g, sends, jobs) ←
            (if bool_decide (get_header r (lit "Upgrade") = Some (lit "websocket")) then
               hello ← handle_ws_request r;
               sent ← ws_loop frames;
               Some (g, map SockSend (hello ++ sent), [])
             else
               let '(resp, jobs) := handle_request submit config metrics health_secret r in
               Some (g, [SockSend (build_http_response resp size)], jobs));
          Some (g, sends ++ [SockClose], jobs)
      end
  end.

(** ** WebSocket clients *)

Record ws_client_t := mk_client { c_fd : Z; c_ip : cstr; c_connected_at : Z; c_authenticated : bool; c_user_id : cstr }.

Record ws_server_t := mk_server { ws_clients : list ws_client_t; ws_count : nat }.

Definition client_zero : ws_client_t := mk_client 0 [] 0 false [].
Definition ws_init : ws_server_t := mk_server (replicate WS_MAX_CLIENTS client_zero) 0.

(** The slot keeps the user name it had. *)
Definition ws_add_client (now : Z) (s : ws_server_t) (fd : Z) (ip : cstr) : ws_server_t * Z :=
  if fd <? 0 then (s, -1)
  else if (WS_MAX_CLIENTS <=? ws_count s)%nat then (s, -1)
  else
    match ws_clients s !! ws_count s with
    | Some old =>
        (mk_server (<[ws_count s := mk_client fd (snprintf_s 64 ip) now false (c_user_id old)]> (ws_clients s))
           (S (ws_count s)), 0)
    | None => (s, -1)
    end.

Definition ws_remove_client (s : ws_server_t) (fd : Z) : ws_server_t * Z :=
  match find_idx (λ c, c_fd c =? fd) (take (ws_count s) (ws_clients s)) with
  | Some i => (mk_server (shift_left i (ws_count s) (ws_clients s)) (ws_count s - 1), 0)
  | None => (s, -1)
  end.

(** The sockets a broadcast writes the frame to, in order; [None]: the frame
    leaves its array. *)
Definition ws_broadcast (s : ws_server_t) (message : list Z) (binary : bool) : option (list (Z * list Z)) :=
  f ← local_frame message binary; Some (map (λ c, (c_fd c, f)) (take (ws_count s) (ws_clients s))).

(** The frame is built before the client is looked for. *)
Definition ws_send (s : ws_server_t) (fd : Z) (message : list Z) (binary : bool) : option (option (Z * list Z)) :=
  f ← local_frame message binary;
  Some (match find_idx (λ c, c_fd c =? fd) (take (ws_count s) (ws_clients s)) with
        | Some _ => Some (fd, f)
        | None => None
        end).

(** The zeroed server and the descriptors closed: descriptor 0 stays open. *)
Definition ws_free (s : ws_server_t) : ws_server_t * list Z :=
  (ws_init, List.filter (λ fd, 0 <? fd) (map c_fd (take (ws_count s) (ws_clients s)))).

(** ** Escapes *)

Definition escaped (s : cstr) : cstr := flat_map gateway_escape_char s.

(** A text the parser gives back: no NUL and no line ends. *)
Definition one_line (s : cstr) : Prop := Forall (λ b, 0 < b < 256 ∧ b ≠ 10 ∧ b ≠ 13) s.

Lemma json_escape_fits s : ∀ j n,
  (j + 2 * length s < n)%nat → json_escape_from j s n = escaped s.
Proof.
  induction s as [|b s IH]; intros j n H; [done|]. cbn [json_escape_from length escaped flat_map] in *.
  rewrite (proj2 (Nat.ltb_lt _ _)) by lia. f_equal. apply IH.
  assert (length (gateway_escape_char b) ≤ 2)%nat by (unfold gateway_escape_char; repeat case_if; cbn; lia). lia.
Qed.

Lemma unescape_escaped s : ∀ room rest,
  one_line s → (length s ≤ room)%nat → unescape room (escaped s ++ 34 :: rest) = s.
Proof.
  induction s as [|b s IH]; intros room rest Hs Hl.
  - destruct room as [|room]; [done|]. cbn [escaped flat_map app unescape].
    by destruct rest as [|c rest].
  - apply Forall_cons in Hs as [(Hb & H10 & H13) Hs]. cbn [length] in Hl. destruct room as [|room]; [lia|].
    cbn [escaped flat_map]. change (flat_map gateway_escape_char s) with (escaped s).
    unfold gateway_escape_char. destruct ((b =? 34) || (b =? 92)) eqn:E.
    + cbn [app unescape]. rewrite E. change (92 =? 92) with true. cbn [andb]. f_equal. apply IH; [done | lia].
    + rewrite !(proj2 (Z.eqb_neq _ _)) by done. cbn [app unescape].
      destruct (escaped s ++ 34 :: rest) as [|c t] eqn:Et; [by destruct (escaped s)|].
      apply orb_false_iff in E as [E34 E92]. rewrite E34, E92. cbn [andb]. f_equal.
      rewrite <- Et. apply IH; [done | lia].
Qed.

(** The body a client sends for a prompt, with or without the wish that it is
    run as a task. *)
Definition focus_field (tf : bool) : cstr := if tf then [44] ++ jquote (lit "task_focus") ++ lit ":true" else [].
Definition prompt_body (tf : bool) (p : cstr) : cstr :=
  [123] ++ jquote (lit "prompt") ++ [58; 34] ++ escaped p ++ [34] ++ focus_field tf ++ [125].

Lemma escaped_bytes s : Forall (λ b, b ≠ 0) s → Forall (λ b, b ≠ 0) (escaped s).
Proof.
  induction 1 as [|b s Hb _ IH]; [done|]. cbn [escaped flat_map]. apply Forall_app. split; [|done].
  unfold gateway_escape_char. repeat case_if; repeat constructor; lia.
Qed.

Lemma one_line_nonzero s : one_line s → Forall (λ b, b ≠ 0) s.
Proof. intros H. eapply Forall_impl; [exact H|]. intros b (? & ? & ?). lia. Qed.

Lemma prompt_body_bytes tf p : one_line p → Forall (λ b, b ≠ 0) (prompt_body tf p).
Proof.
  intros Hp. unfold prompt_body. rewrite !Forall_app.
  split_and!; [by repeat constructor..| |by repeat constructor|by destruct tf; repeat constructor|by repeat constructor].
  by apply escaped_bytes, one_line_nonzero.
Qed.

Lemma prompt_body_no_nul tf p : one_line p → until_nul (prompt_body tf p) = prompt_body tf p.
Proof. intros Hp. by apply until_nul_id, prompt_body_bytes. Qed.

Lemma parse_prompt_body tf p n :
  one_line p → (length p < n)%nat → parse_json_prompt (prompt_body tf p) n = Some p.
Proof.
  intros Hp Hn. unfold parse_json_prompt. rewrite prompt_body_no_nul by done. unfold prompt_body.
  set (tl := focus_field tf ++ [125]).
  change (strstr ([123] ++ jquote (lit "prompt") ++ [58; 34] ++ escaped p ++ [34] ++ tl) (jquote (lit "prompt")))
    with (Some 1%nat). cbn [mbind option_bind].
  change (drop (1 + 7) ([123] ++ jquote (lit "prompt") ++ [58; 34] ++ escaped p ++ [34] ++ tl))
    with ([34; 58; 34] ++ escaped p ++ [34] ++ tl).
  change (strchr ([34; 58; 34] ++ escaped p ++ [34] ++ tl) 58) with (Some 1%nat). cbn [mbind option_bind].
  change (drop (1 + 1) ([34; 58; 34] ++ escaped p ++ [34] ++ tl)) with (34 :: escaped p ++ [34] ++ tl).
  cbn [skip_while]. change ((34 =? 32) || (34 =? 9)) with false. cbv iota.
  f_equal. apply (unescape_escaped p (n - 1) tl); [done | lia].
Qed.

(** The wish is read off the body as it was written: an escaped prompt cannot
    fake it, since a quote in it follows a backslash. *)
Fixpoint key_end (s : cstr) : bool :=
  match s with
  | b :: s' => match s' with c :: d :: _ => (b =? 115) && (c =? 34) && (d =? 58) | _ => false end || key_end s'
  | [] => false
  end.

Lemma key_end_app a t : key_end (a ++ [115; 34; 58] ++ t) = true.
Proof. induction a as [|b a IH]; [done|]. cbn [app key_end]. apply orb_true_iff. right. exact IH. Qed.

Lemma key_end_skip v s : Forall (λ b, b ≠ 115) v → key_end (v ++ s) = key_end s.
Proof.
  induction 1 as [|b v Hb _ IH]; [done|]. cbn [app key_end]. rewrite IH, (proj2 (Z.eqb_neq b 115)) by done.
  cbn [andb]. by destruct (v ++ s) as [|? [|? ?]].
Qed.

Lemma key_end_escaped p : ∀ c, key_end (c :: escaped p ++ [34; 125]) = false.
Proof.
  assert (∀ c b t, b ≠ 34 → key_end (b :: t) = false → key_end (c :: b :: t) = false) as Hstep.
  { intros c b t Hb Ht. change (key_end (c :: b :: t)) with
      (match t with d :: _ => (c =? 115) && (b =? 34) && (d =? 58) | _ => false end || key_end (b :: t)).
    rewrite Ht, (proj2 (Z.eqb_neq b 34)) by done. destruct t; [done|]. by rewrite andb_false_r. }
  induction p as [|b p IH]; intros c.
  - cbn. by rewrite !andb_false_r.
  - cbn [escaped flat_map]. change (flat_map gateway_escape_char p) with (escaped p). unfold gateway_escape_char.
    assert (∀ x, key_end (92 :: x :: escaped p ++ [34; 125]) = false) as H92.
    { intros x. change (key_end (92 :: x :: escaped p ++ [34; 125])) with
        (match escaped p ++ [34; 125] with d :: _ => false | _ => false end || key_end (x :: escaped p ++ [34; 125])).
      rewrite (IH x). by destruct (escaped p ++ [34; 125]). }
    repeat case_if; cbn [app]; (apply Hstep; [lia|]); first [apply H92 | apply IH].
Qed.

Lemma body_focus tf p :
  contains (prompt_body tf p) (jquote (lit "task_focus") ++ lit ":true")
  || contains (prompt_body tf p) (jquote (lit "task_focus") ++ lit ": true") = tf.
Proof.
  destruct tf.
  - apply orb_true_iff. left. apply contains_spec.
    exists ([123] ++ jquote (lit "prompt") ++ [58; 34] ++ escaped p ++ [34; 44]), [125].
    unfold prompt_body, focus_field. rewrite <- !app_assoc. done.
  - assert (key_end (prompt_body false p) = false) as Hk.
    { change (prompt_body false p) with (([123] ++ jquote (lit "prompt") ++ [58]) ++ 34 :: escaped p ++ [34; 125]).
      rewrite key_end_skip by lit_forall. apply key_end_escaped. }
    apply orb_false_iff. split; apply not_true_iff_false; intros (a & t & Ht)%contains_spec; rewrite Ht in Hk.
    + change (jquote (lit "task_focus") ++ lit ":true") with ((34 :: lit "task_focu") ++ [115; 34; 58] ++ lit "true") in Hk.
      rewrite <- !app_assoc, app_assoc in Hk. by rewrite key_end_app in Hk.
    + change (jquote (lit "task_focus") ++ lit ": true") with ((34 :: lit "task_focu") ++ [115; 34; 58] ++ lit " true") in Hk.
      rewrite <- !app_assoc, app_assoc in Hk. by rewrite key_end_app in Hk.
Qed.

(** Prompts round trip: what [json_escape] writes into a request body the
    parser of the gateway gives back, for texts of one line. *)
Theorem prompt_roundtrip p n m :
  one_line p → (length p < n)%nat → (2 * length p < m)%nat →
  parse_json_prompt ([123] ++ jquote (lit "prompt") ++ [58; 34] ++ json_escape p m ++ [34; 125]) n = Some p.
Proof.
  intros Hp Hn Hm. unfold json_escape. rewrite json_escape_fits by lia. by apply (parse_prompt_body false).
Qed.

Lemma prompt_roundtrip_witness :
  parse_json_prompt ([123] ++ jquote (lit "prompt") ++ [58; 34] ++ json_escape [97; 34; 92; 98] 100 ++ [34; 125]) 64 =
  Some [97; 34; 92; 98].
Proof. apply prompt_roundtrip; [repeat constructor; lia | vm_compute; lia | vm_compute; lia]. Defined.

(** ** From a request to the agent and back *)

(** A push to the queue [c] and the worker that takes the next job off it, with
    the callback that wakes the handler.  [None]: there is no room, and the push
    waits. *)
Definition worker_submit {config_t agent_t} {ops : AgentOps config_t agent_t} (system : cstr → Z)
    (config : config_t) (c : jobcache_t) (job : job_t) : option cstr :=
  c ← push_section c job;
  match pop_section c 1000 with
  | PopDone _ job =>
      let '(text, err, _) := dispatch_job system job config RESULT_SIZE in
      Some (agent_response_cb text err)
  | _ => None
  end.

(** A queue without jobs. *)
Definition idle_queue (c : jobcache_t) : Prop := cache_inv c ∧ contents c = [].

Lemma idle_push_pop c job : idle_queue c →
  ∃ c1 c2, push_section c job = Some c1 ∧ pop_section c1 1000 = PopDone c2 (store_job job).
Proof.
  intros [Hc He]. destruct (push_section c job) as [c1|] eqn:Ep.
  - destruct (push_contents _ _ _ Hc Ep) as (Hc1 & Hcont & _ & Hcnt). rewrite He in Hcont.
    destruct (pop_section c1 1000) as [c2 j| |] eqn:Eo.
    + destruct (pop_contents _ _ _ _ Hc1 Eo) as (_ & Hj & _). rewrite Hcont in Hj. injection Hj as -> _. by exists c1, c2.
    + destruct (pop_fail _ _ Hc1 Eo). lia.
    + destruct (pop_wait _ _ Hc1 Eo). lia.
  - apply push_full in Ep. destruct Hc. apply (f_equal length) in He. unfold contents in He.
    rewrite ring_length in He by lia. cbn [length] in He. lia.
Qed.

Lemma padded_text s n : Forall (λ b, b ≠ 0) s → until_nul (s ++ replicate (S n) 0) = s.
Proof. induction 1 as [|b s Hb _ IH]; [done|]. cbn [app until_nul]. by rewrite (proj2 (Z.eqb_neq _ _)), IH. Qed.

Lemma gateway_job_text s :
  Forall (λ b, b ≠ 0) s → (length s < JOB_PAYLOAD_LEN)%nat →
  until_nul (payload (store_job (gateway_job s))) = s ∧ payload_len (store_job (gateway_job s)) = length s.
Proof.
  intros Hs Hl. unfold gateway_job. rewrite take_ge by lia. unfold store_job. cbn [payload_len].
  rewrite (proj2 (Nat.ltb_lt _ _)) by done. cbn [payload payload_len]. split; [|done].
  replace (JOB_PAYLOAD_LEN - length s)%nat with (S (JOB_PAYLOAD_LEN - length s - 1)) by lia.
  rewrite insert_app_r_alt by lia. rewrite Nat.sub_diag. cbn [replicate list_insert insert].
  apply (padded_text s). done.
Qed.

(** A prompt that survives the way to the worker. *)
Record sendable (p : cstr) : Prop := {
  sp_line : one_line p;
  sp_len : (length p < PROMPT_LEN)%nat;
  sp_nonempty : p ≠ [];
  sp_plain : strneq 12 p (lit "task_focus=1") = false;
}.

Lemma chat_job_prompt tf p : sendable p → job_prompt (store_job (chat_job tf p)) = (tf, p).
Proof.
  intros [Hp Hl Hne Hpl]. unfold job_prompt, chat_job.
  assert (PROMPT_LEN + 20 < JOB_PAYLOAD_LEN)%nat as Hbig by (unfold PROMPT_LEN, JOB_PAYLOAD_LEN; lia).
  destruct tf.
  - destruct (gateway_job_text (lit "task_focus=1" ++ [10] ++ p)) as [-> ->].
    { apply Forall_app. split; [by repeat constructor|]. apply Forall_app.
      split; [by repeat constructor | by apply one_line_nonzero]. }
    { rewrite !length_app. change (length (lit "task_focus=1")) with 12%nat. cbn [length]. lia. }
    rewrite (proj2 (Nat.leb_le _ _)) by (rewrite length_app; change (length (lit "task_focus=1")) with 12%nat; lia).
    assert (strneq 12 (lit "task_focus=1" ++ [10] ++ p) (lit "task_focus=1") = true) as -> by (by apply bool_decide_eq_true).
    cbn [andb]. f_equal. change (drop 12 (lit "task_focus=1" ++ [10] ++ p)) with (10 :: p). cbn [skip_while].
    change ((10 =? 10) || (10 =? 13)) with true. cbv iota. destruct p as [|b p]; [done|].
    apply Forall_cons in Hp as [(_ & H10 & H13) _]. cbn [skip_while].
    by rewrite !(proj2 (Z.eqb_neq _ _)).
  - destruct (gateway_job_text p) as [-> ->]; [by apply one_line_nonzero | lia |].
    rewrite Hpl, andb_false_r. done.
Qed.

Lemma worker_answers {config_t agent_t} {ops : AgentOps config_t agent_t} (system : cstr → Z) (config : config_t) c
    ws (a : agent_t) (tf : bool) p answer :
  idle_queue c → agent_init config = (ws, Some a) → sendable p → (length answer < RESULT_SIZE)%nat →
  (if tf then agent_run_task a p RESULT_SIZE else agent_chat a p RESULT_SIZE) = (0, answer) →
  worker_submit system config c (chat_job tf p) = Some answer.
Proof.
  intros Hc Ha Hs Hfit Hans. unfold worker_submit, dispatch_job.
  destruct (idle_push_pop c (chat_job tf p) Hc) as (c1 & c2 & -> & Hpop). cbn [mbind option_bind]. rewrite Hpop.
  assert (type (store_job (chat_job tf p)) = JOB_AGENT_CHAT) as ->
    by (unfold store_job, chat_job, gateway_job; by case_if).
  rewrite chat_job_prompt, Ha by done. rewrite Hans. change (negb (0 =? 0)) with false. cbn [andb].
  unfold agent_response_cb. rewrite snprintf_s_id by exact Hfit.
  change (negb (0 =? 0)) with false. reflexivity.
Qed.

(** The request as it arrives: headers [hs] and the body. *)
Definition header_text (hs : list cstr) : cstr := flat_map (λ h, CRLF ++ h) hs.
Definition chat_request (hs : list cstr) (tf : bool) (p : cstr) : list Z :=
  lit "POST /agent/chat HTTP/1.1" ++ header_text hs ++ CRLF ++ CRLF ++ prompt_body tf p.

Definition header_ok (h : cstr) : Prop := h ≠ [] ∧ Forall (λ b, b ≠ 13 ∧ b ≠ 0) h.

Lemma strstr_line_end b t : b ≠ 13 →
  strstr (13 :: 10 :: b :: t) [13; 10; 13; 10] = (λ i, S (S i)) <$> strstr (b :: t) [13; 10; 13; 10].
Proof.
  intros Hb. cbn [strstr has_prefix]. rewrite (proj2 (Z.eqb_neq 13 b)) by done.
  change (13 =? 13) with true. change (10 =? 10) with true. change (13 =? 10) with false. cbn [andb].
  by destruct (strstr t _).
Qed.

Lemma find_blank_line hs rest : Forall header_ok hs → ∀ l, Forall (λ b, b ≠ 13) l →
  strstr (l ++ header_text hs ++ CRLF ++ CRLF ++ rest) [13; 10; 13; 10] = Some (length l + length (header_text hs))%nat.
Proof.
  induction 1 as [|h hs [Hne Hh] _ IH]; intros l Hl; rewrite strstr_skip by done; [done|].
  destruct h as [|b h]; [done|]. apply Forall_cons in Hh as Hh'. destruct Hh' as [[Hb _] _].
  specialize (IH (b :: h)). set (tl := CRLF ++ CRLF ++ rest) in *.
  change (header_text ((b :: h) :: hs)) with (13 :: 10 :: (b :: h) ++ header_text hs).
  cbn [app]. rewrite <- app_assoc. change (b :: h ++ header_text hs ++ tl) with ((b :: h) ++ header_text hs ++ tl).
  set (u := (b :: h) ++ header_text hs ++ tl) in *.
  assert (strstr (13 :: 10 :: u) [13; 10; 13; 10] = (λ i, S (S i)) <$> strstr u [13; 10; 13; 10]) as ->
    by (by apply strstr_line_end).
  rewrite IH by (eapply Forall_impl; [exact Hh|]; by intros ? [? _]).
  cbn [fmap option_fmap option_map length]. rewrite length_app. cbn [length]. done.
Qed.

Lemma parse_chat_request hs tf p :
  Forall header_ok hs → sendable p →
  ∃ lines, parse_http_request (chat_request hs tf p) = mk_request (lit "POST") (lit "/agent/chat") (prompt_body tf p) lines.
Proof.
  intros Hh [Hp Hlen _ _]. set (first := lit "POST /agent/chat HTTP/1.1").
  assert (Forall (λ b, b ≠ 0) (header_text hs)) as Hz.
  { unfold header_text. induction Hh as [|h hs [_ H] _ IH]; [done|]. cbn [flat_map]. rewrite !Forall_app.
    split_and!; [by repeat constructor| |done]. eapply Forall_impl; [exact H|]. by intros ? [_ ?]. }
  unfold parse_http_request.
  rewrite until_nul_id by (unfold chat_request; rewrite !Forall_app; split_and!; [lit_forall|done|lit_forall..|by apply prompt_body_bytes]).
  change (CRLF ++ CRLF) with [13; 10; 13; 10] at 1. unfold chat_request. rewrite find_blank_line by (done || lit_forall). fold first.
  assert (drop (length first + length (header_text hs) + 4) (first ++ header_text hs ++ CRLF ++ CRLF ++ prompt_body tf p) =
          prompt_body tf p) as ->.
  { rewrite <- Nat.add_assoc, drop_app_add, drop_app_add. done. }
  rewrite (take_ge (prompt_body tf p)).
  2: { unfold prompt_body. rewrite !length_app. change (length (jquote (lit "prompt"))) with 8%nat. cbn [length].
    assert (length (focus_field tf) ≤ 18)%nat by (destruct tf; vm_compute; lia).
    assert (length (escaped p) ≤ 2 * length p)%nat.
    { clear. induction p as [|b p IH]; [done|]. cbn [escaped flat_map length]. rewrite length_app.
      change (flat_map gateway_escape_char p) with (escaped p).
      assert (length (gateway_escape_char b) ≤ 2)%nat by (unfold gateway_escape_char; repeat case_if; cbn; lia). lia. }
    unfold PROMPT_LEN in Hlen. unfold MAX_REQUEST_SIZE. lia. }
  set (n := Nat.min _ _).
  assert (∃ m t, n = (25 + m)%nat ∧ take n (first ++ header_text hs ++ CRLF ++ CRLF ++ prompt_body tf p) = first ++ t) as (m & t & _ & ->).
  { assert (25 ≤ n)%nat as Hn by (subst n; change (length first) with 25%nat; lia).
    exists (n - 25)%nat. eexists. split; [lia|]. by rewrite take_app, take_ge by (change (length first) with 25%nat; lia). }
  change (scan_word 15 (first ++ t)) with (lit "POST", lit " /agent/chat HTTP/1.1" ++ t). cbv beta iota.
  change (scan_word 255 (lit " /agent/chat HTTP/1.1" ++ t)) with (lit "/agent/chat", lit " HTTP/1.1" ++ t). cbv beta iota.
  by eexists.
Qed.


Lemma check_accepts now malloc_ok g ip r g' :
  gateway_check now malloc_ok g ip r = (g', None) →
  (∃ m' why, security_monitor_check_request now malloc_ok (gw_secmon g) (Some ip) (Some (method r)) (Some (path r))
     (Some (body r)) (body_size r) SECMON_REASON_MAX = (m', SECMON_OK, why)) ∧
  (ids_check (gw_ids g) (Some (path r)) (Some (body r)) (body_size r) IDS_REASON_MAX).1 = IDS_OK ∧
  gw_audit g' = gw_audit g.
Proof.
  unfold gateway_check. destruct (security_monitor_check_request _ _ _ _ _ _ _ _ _) as [[m' res] why].
  destruct (decide (res = SECMON_OK)) as [->|Hne].
  2: { rewrite bool_decide_false by done. done. }
  rewrite bool_decide_true by done. cbn [negb].
  destruct (ids_check _ _ _ _ _) as [al why']. destruct (decide (al = IDS_OK)) as [->|Hne].
  2: { rewrite bool_decide_false by done. done. }
  rewrite bool_decide_true by done. cbn [negb]. intros [= <-]. split_and!; eauto.
Qed.

(** C9: With the traversal and injection checks on, a connection makes the
    gateway push a job only if its method is allowed, its path has none of the
    five spellings of ".." the monitor looks for (not %2E%2E), its scanned body
    no injection pattern (when the scan got memory for its copy) and the
    request no IDS alert; the audit log is as before. *)
Theorem jobs_come_from_checked_requests {config_t agent_t} {ops : AgentOps config_t agent_t}
    submit (config : option config_t) metrics secret now malloc_ok g ip buffer frames g' out jobs :
  gateway_worker submit config metrics secret now malloc_ok g ip (Some buffer) frames = Some (g', out, jobs) → jobs ≠ [] →
  path_traversal_check (SecurityMonitor.g_config (gw_secmon g)) = true →
  injection_scan_enabled (SecurityMonitor.g_config (gw_secmon g)) = true →
  let r := parse_http_request buffer in
  map tolower (method r) ∈ http_methods ∧
  Forall (λ t, contains (path r) t = false) traversal_spellings ∧
  (malloc_ok = true → Forall (λ p, contains (scanned_text (body r)) p = false ∨ body r = []) g_injection_patterns) ∧
  (ids_check (gw_ids g) (Some (path r)) (Some (body r)) (body_size r) IDS_REASON_MAX).1 = IDS_OK ∧
  gw_audit g' = gw_audit g.
Proof.
  unfold gateway_worker. set (r := parse_http_request buffer).
  destruct (gateway_check now malloc_ok g (snprintf_s 64 ip) r) as [g1 [resp|]] eqn:Ec.
  { intros H Hj. apply (f_equal (option_map snd)) in H. cbn [option_map snd] in H. congruence. }
  intros H Hj Hp Hi. assert (g' = g1) as ->.
  { destruct (bool_decide _).
    - destruct (handle_ws_request r); [|discriminate]. destruct (ws_loop frames); [|discriminate].
      apply (f_equal (option_map (fst ∘ fst))) in H. cbn [option_map compose fst mbind option_bind] in H. congruence.
    - destruct (handle_request submit config metrics secret r) as [resp js].
      apply (f_equal (option_map (fst ∘ fst))) in H. cbn [option_map compose fst mbind option_bind] in H. congruence. }
  apply check_accepts in Ec as ((m' & why & Hsec) & Hids & Haud).
  apply accepted_request in Hsec as (Hm & Ht & _ & Hinj); [|done..]. cbv zeta. by split_and!.
Qed.

Definition request_ex : list Z := chat_request [lit "Host: claw"] false (lit "hello").
Definition queue_ex : jobcache_t := mk_cache (replicate 4 (gateway_job [])) 4 1 1 0.

Definition gateway_ex : gateway_t := mk_gateway secmon_ex audit_zero (ids_init ids_zero None).1 monitor_zero.

Lemma queue_ex_idle : idle_queue queue_ex.
Proof. split; [|done]. split; simpl; lia. Qed.


#[local] Abbreviation worker_ex :=
  (gateway_worker (Some (worker_submit (λ _, 0) 5 queue_ex)) None None None 1000 true gateway_ex (lit "10.0.0.1") (Some request_ex) []).

Lemma worker_ex_jobs : ∃ g out, worker_ex = Some (g, out, [chat_job false (lit "hello")]).
Proof.
  assert (snd <$> worker_ex = Some [chat_job false (lit "hello")]) as H by (vm_compute; reflexivity).
  destruct worker_ex as [[[g out] jobs]|]; [|discriminate]. cbn in H. injection H as ->. eauto.
Qed.

Lemma jobs_come_from_checked_requests_witness :
  ∃ g' out, worker_ex = Some (g', out, [chat_job false (lit "hello")]) ∧
  map tolower (method (parse_http_request request_ex)) ∈ http_methods ∧ gw_audit g' = gw_audit gateway_ex.
Proof.
  destruct worker_ex_jobs as (g' & out & H).
  destruct (jobs_come_from_checked_requests _ _ _ _ _ _ _ _ _ _ _ _ _ H) as (H1 & _ & _ & _ & H5).
  - discriminate.
  - vm_compute. reflexivity.
  - vm_compute. reflexivity.
  - exact (ex_intro _ g' (ex_intro _ out (conj H (conj H1 H5)))).
Defined.

(** ** Frames *)

Lemma unmask_involutive key l : ∀ i, unmask i key (unmask i key l) = l.
Proof.
  induction l as [|b l IH]; intros i; [done|]. cbn [unmask]. rewrite IH. f_equal.
  rewrite Z.lxor_assoc, Z.lxor_nilpotent. apply Z.lxor_0_r.
Qed.

Lemma unmask_length key l : ∀ i, length (unmask i key l) = length l.
Proof. induction l as [|b l IH]; intros i; [done|]. cbn [unmask length]. by rewrite IH. Qed.

(** The frame of a client: with a mask, the bit 128 of the second byte is
    set, and the key and the masked payload follow the length. *)
Definition client_frame (mask : option (list Z)) (m : list Z) (binary : bool) : list Z :=
  match ws_header (length m) binary, mask with
  | b0 :: b1 :: ext, Some key => b0 :: (b1 + 128) :: ext ++ key ++ unmask 0 key m
  | h, _ => h ++ m
  end.

Lemma land_128_low b : 0 <= b < 128 →
  Z.land b 128 = 0 ∧ Z.land b 127 = b ∧ Z.land (b + 128) 128 = 128 ∧ Z.land (b + 128) 127 = b.
Proof.
  intros Hb.
  assert (is_byte b) as Hbyte by (unfold is_byte; lia).
  pose proof (byte_forall (λ b, negb (b <? 128) || (Z.land b 128 =? 0) && (Z.land b 127 =? b) &&
    (Z.land (b + 128) 128 =? 128) && (Z.land (b + 128) 127 =? b)) eq_refl b Hbyte) as H.
  cbn beta in H. rewrite (proj2 (Z.ltb_lt _ _)) in H by lia. cbn [negb orb] in H. bsplit. done.
Qed.

Lemma be_two n : 0 <= n < 65536 → be_value [Z.land (Z.shiftr n 8) 255; Z.land n 255] = n.
Proof.
  intros Hn. unfold be_value. cbn [foldl]. change 255 with (Z.ones 8).
  rewrite !Z.land_ones, !Z.shiftr_div_pow2, !Z.shiftl_mul_pow2 by lia. change (2 ^ 8) with 256.
  rewrite (Z.mod_small (n / 256)) by (split; [apply Z.div_pos; lia | apply Z.div_lt_upper_bound; lia]).
  rewrite Z.mul_0_l. change (u64 0) with 0. rewrite Z.add_0_l.
  rewrite wrap_small; [pose proof (Z.div_mod n 256); lia|].
  assert (0 <= n / 256 < 256) by (split; [apply Z.div_pos; lia | apply Z.div_lt_upper_bound; lia]). lia.
Qed.

(** The parser on a header whose length fields agree with the payload. *)
Lemma ws_parse_spec b0 b1 ext (mask : option (list Z)) m cap :
  0 <= b1 < 128 → Z.of_nat (length m) < cap → cap <= 65536 →
  (b1 < 126 ∧ ext = [] ∧ b1 = Z.of_nat (length m) ∨
   b1 = 126 ∧ length ext = 2%nat ∧ be_value ext = Z.of_nat (length m)) →
  (∀ key, mask = Some key → length key = 4%nat) →
  ws_parse_frame
    (b0 :: (match mask with Some _ => b1 + 128 | None => b1 end) :: ext ++
     match mask with Some key => key ++ unmask 0 key m | None => m end) cap =
  WsMessage (Z.land (Z.shiftr b0 7) 1) m (Z.land b0 15 =? 2).
Proof.
  intros Hb1 Hcap Hcap2 Hlen Hkey. unfold ws_parse_frame.
  destruct (land_128_low b1 Hb1) as (L1 & L2 & L3 & L4).
  set (tl := match mask with Some key => key ++ unmask 0 key m | None => m end).
  assert (Z.land (match mask with Some _ => b1 + 128 | None => b1 end) 127 = b1) as -> by (by destruct mask).
  assert (negb (Z.land (match mask with Some _ => b1 + 128 | None => b1 end) 128 =? 0) =
          match mask with Some _ => true | None => false end) as -> by (destruct mask; [by rewrite L3 | by rewrite L1]).
  assert (length tl = (match mask with Some _ => 4 | None => 0 end + length m)%nat) as Htl.
  { subst tl. destruct mask as [key|]; [|done]. by rewrite length_app, unmask_length, (Hkey key). }
  assert ((b1 =? 127) = false) as -> by (apply Z.eqb_neq; destruct Hlen as [(? & _)|(? & _)]; lia). cbn [andb].
  assert ((b1 =? 126) && (Z.of_nat (length (b0 :: (match mask with Some _ => b1 + 128 | None => b1 end) :: ext ++ tl)) <? 4) = false) as ->.
  { destruct Hlen as [(? & _)|(_ & He & _)]; [by rewrite (proj2 (Z.eqb_neq _ _)) by lia|].
    apply andb_false_iff. right. apply Z.ltb_ge. cbn [length]. rewrite length_app. lia. }
  assert ((if b1 =? 126 then (be_value (take 2 (ext ++ tl)), drop 2 (ext ++ tl)) else (b1, ext ++ tl)) =
          (Z.of_nat (length m), tl)) as ->.
  { destruct Hlen as [(? & -> & ->)|(-> & He & Hv)].
    - by rewrite (proj2 (Z.eqb_neq _ _)) by lia.
    - change (126 =? 126) with true. cbv iota. by rewrite take_app_length', drop_app_length', Hv. }
  cbv iota beta zeta. cbn [length]. rewrite length_app.
  rewrite (proj2 (Z.ltb_ge _ _)).
  2: { rewrite wrap_small; rewrite Htl; destruct mask, Hlen as [(? & -> & ?)|(? & ? & ?)]; cbn [length]; lia. }
  assert ((Z.of_nat (length (match mask with Some _ => drop 4 tl | None => tl end)) <? Z.of_nat (length m)) = false) as Hpl.
  { apply Z.ltb_ge. destruct mask; rewrite ?length_drop, Htl; lia. }
  destruct mask as [key|].
  - rewrite Hpl, (proj2 (Z.leb_gt _ _)) by done. cbn [orb]. subst tl.
    rewrite take_app_length', drop_app_length' by (by rewrite (Hkey key)).
    rewrite Nat2Z.id, take_ge by (rewrite unmask_length; lia). by rewrite unmask_involutive.
  - rewrite Hpl, (proj2 (Z.leb_gt _ _)) by done. cbn [orb]. by rewrite Nat2Z.id, take_ge by lia.
Qed.

Lemma client_frame_parses mk m binary :
  (length m < Z.to_nat 65536)%nat → (∀ key, mk = Some key → length key = 4%nat) →
  ws_parse_frame (client_frame mk m binary) 65536 = WsMessage 1 m binary.
Proof.
  intros Hm Hk. unfold client_frame, ws_header.
  assert (∀ b1 ext, ws_parse_frame
    (match (if binary then 130 else 129) :: b1 :: ext, mk with
     | b0 :: b1 :: ext, Some key => b0 :: (b1 + 128) :: ext ++ key ++ unmask 0 key m
     | h, _ => h ++ m end) 65536 =
    ws_parse_frame ((if binary then 130 else 129) :: (match mk with Some _ => b1 + 128 | None => b1 end) :: ext ++
      match mk with Some key => key ++ unmask 0 key m | None => m end) 65536) as Heq by (intros; by destruct mk).
  destruct (length m <? 126)%nat eqn:E1; [|rewrite (proj2 (Z.ltb_lt _ _)) by lia]; rewrite Heq, ws_parse_spec;
    try (by destruct binary); bsplit; try lia; try done.
  - left. split_and!; [lia | done | done].
  - right. split_and!; [done | done | apply be_two; lia].
Qed.

(** C29: Frames round trip: a message of less than 65536 bytes, masked with any key
    of four bytes or not masked, is given back by the parser with its kind,
    and the final bit is set. *)
Theorem ws_frame_roundtrip mask m binary :
  (length m < Z.to_nat 65536)%nat → (∀ key, mask = Some key → length key = 4%nat) →
  ws_parse_frame (client_frame mask m binary) 65536 = WsMessage 1 m binary ∧
  ws_parse_frame (ws_build_frame m binary) 65536 = WsMessage 1 m binary.
Proof.
  intros Hm Hkey. split; [by apply client_frame_parses|]. rewrite <- (client_frame_parses None) by done.
  unfold ws_build_frame, client_frame. by destruct (ws_header (length m) binary) as [|? [|? ?]].
Qed.

Lemma ws_header_length len binary : (length (ws_header len binary) ≤ 10)%nat.
Proof. unfold ws_header. repeat case_if; cbn [length]; rewrite ?length_map, ?length_seq; lia. Qed.

Lemma ws_header_first mask m binary : ∃ b t, client_frame mask m binary = b :: t ∧ b ≠ 8.
Proof.
  unfold client_frame, ws_header. destruct (length m <? 126)%nat, (Z.of_nat (length m) <? 65536), mask;
    (eexists _, _; split; [reflexivity | by destruct binary]).
Qed.

(** The array of a frame holds every message of up to 65540 bytes, and a
    longer one is written past it. *)
Theorem local_frame_fits m binary :
  local_frame m binary = if (length m <=? Z.to_nat 65540)%nat then Some (ws_build_frame m binary) else None.
Proof.
  unfold local_frame, ws_build_frame, WS_FRAME_LEN, WS_MAX_MESSAGE_SIZE. rewrite length_app.
  pose proof (ws_header_length (length m) binary). destruct (Nat.leb_spec (length m) (Z.to_nat 65540)).
  - by rewrite (proj2 (Z.ltb_ge _ _)) by lia.
  - rewrite (proj2 (Z.ltb_lt _ _)); [done|]. unfold ws_header. destruct (Nat.ltb_spec (length m) 126); [lia|].
    destruct (Z.ltb_spec (Z.of_nat (length m)) 65536); [lia|]. cbn [length map seq]. lia.
Qed.

(** A session over a WebSocket: the messages of the client come back in order,
    each behind [Echo: ], as long as they fit with it. *)
Theorem ws_session_echoes mask binary ms :
  (∀ key, mask = Some key → length key = 4%nat) →
  Forall (λ m, m ≠ [] ∧ wf_cstr m ∧ (length m + 6 < Z.to_nat 65536)%nat) ms →
  ws_loop (map (λ m, client_frame mask m binary) ms) = Some (map (λ m, ws_build_frame (lit "Echo: " ++ m) false) ms).
Proof.
  intros Hk. induction 1 as [|m ms (Hne & Hwf & Hl) _ IH]; [done|]. cbn [map ws_loop].
  assert (ws_round (client_frame mask m binary) = Some (Some (ws_build_frame (lit "Echo: " ++ m) false), true)) as ->.
  { unfold ws_round. change WS_MAX_MESSAGE_SIZE with 65536. rewrite client_frame_parses by (done || lia).
    destruct (ws_header_first mask m binary) as (b & t & -> & Hb). cbn [nth]. rewrite (proj2 (Z.eqb_neq b 8)) by done.
    destruct m as [|c m]; [done|]. rewrite until_nul_id by (eapply Forall_impl; [exact Hwf|]; cbn; lia).
    assert (length (lit "Echo: " ++ c :: m) = (6 + length (c :: m))%nat) as He by by rewrite length_app.
    rewrite snprintf_s_id by lia. rewrite local_frame_fits, (proj2 (Nat.leb_le _ _)) by lia. done. }
  cbn [mbind option_bind]. by rewrite IH.
Qed.

Lemma ws_session_echoes_witness :
  ws_loop (map (λ m, client_frame (Some [9; 8; 7; 6]) m false) [lit "one"; lit "two"]) =
  Some [ws_build_frame (lit "Echo: one") false; ws_build_frame (lit "Echo: two") false].
Proof.
  apply (ws_session_echoes (Some [9; 8; 7; 6]) false [lit "one"; lit "two"]); [by intros ? [= <-]|].
  repeat (constructor; [split_and!; [done | unfold wf_cstr; lit_forall | 
    match goal with |- (length ?l + 6 < _)%nat => change (length l) with 3%nat; lia end]|]). constructor.
Defined.

Lemma ws_frame_roundtrip_witness :
  ws_parse_frame (client_frame (Some [1; 2; 3; 4]) (lit "hello") false) 65536 = WsMessage 1 (lit "hello") false ∧
  ws_parse_frame (ws_build_frame (lit "hello") false) 65536 = WsMessage 1 (lit "hello") false.
Proof. apply ws_frame_roundtrip; [change (length (lit "hello")) with 5%nat; lia | by intros ? [= <-]]. Defined.

(** A frame that announces a payload of 65536 bytes or more, and has it, makes
    the parser write outside the buffer of its caller; so does one whose
    announced length wraps the sum of the sizes around. *)
Theorem ws_large_frame_unsafe b0 ext payload :
  length ext = 8%nat →
  (be_value ext = Z.of_nat (length payload) ∧ 65536 <= Z.of_nat (length payload) < 2 ^ 32 ∨
   be_value ext = 2 ^ 64 - 1 ∧ 0 <= Z.of_nat (length payload) < 2 ^ 32) →
  ws_parse_frame (b0 :: 127 :: ext ++ payload) 65536 = WsUnsafe.
Proof.
  intros He Hv. unfold ws_parse_frame. change (Z.land 127 128) with 0. change (Z.land 127 127) with 127.
  change (negb (0 =? 0)) with false. change (127 =? 126) with false. change (127 =? 127) with true. cbn [andb].
  cbn [length]. rewrite length_app, He. rewrite (proj2 (Z.ltb_ge _ 10)) by lia.
  rewrite take_app_length', drop_app_length' by done. cbv iota beta zeta.
  rewrite (proj2 (Z.ltb_ge _ (u64 _))).
  - assert ((65536 <=? be_value ext) = true) as -> by (apply Z.leb_le; lia). by rewrite orb_true_r.
  - destruct Hv as [[-> ?]|[-> ?]]; [rewrite wrap_small; lia|].
    replace (u64 _) with 9; [lia|]. unfold wrap. apply Z.mod_unique with 1; lia.
Qed.

Lemma ws_large_frame_unsafe_witness :
  ws_parse_frame (129 :: 127 :: [255; 255; 255; 255; 255; 255; 255; 255] ++ lit "x") 65536 = WsUnsafe.
Proof. apply ws_large_frame_unsafe; [done|]. right. split; [vm_compute; reflexivity | vm_compute; split; [discriminate | reflexivity]]. Defined.

(** ** Header lines *)

Fixpoint join_lines (ls : list cstr) (last_line : cstr) : cstr :=
  match ls with
  | [] => last_line
  | l :: ls' => l ++ CRLF ++ join_lines ls' last_line
  end.

Definition no_cr (s : cstr) : Prop := Forall (λ b, b ≠ 13) s.

Lemma strstr_crlf l rest : no_cr l → strstr (l ++ CRLF ++ rest) CRLF = Some (length l).
Proof.
  induction 1 as [|b l Hb _ IH]; [done|]. cbn [app strstr has_prefix CRLF length].
  rewrite (proj2 (Z.eqb_neq 13 b)) by done. cbn [andb]. change (13 :: 10 :: rest) with (CRLF ++ rest). by rewrite IH.
Qed.

Lemma strstr_no_crlf l : no_cr l → strstr l CRLF = None.
Proof.
  induction 1 as [|b l Hb _ IH]; [done|]. cbn [strstr has_prefix CRLF]. rewrite (proj2 (Z.eqb_neq 13 b)) by done.
  cbn [andb]. by rewrite IH.
Qed.

Lemma header_lines_spec ls last_line : ∀ fuel acc,
  Forall (λ l, no_cr l ∧ (length l < 512)%nat) ls → no_cr last_line →
  (length acc + length ls ≤ 32)%nat → (length ls < fuel)%nat →
  header_lines fuel (join_lines ls last_line) acc = acc ++ ls.
Proof.
  induction ls as [|l ls IH]; intros [|fuel] acc Hls Hlast Hn Hf; cbn [length] in *; try lia; cbn [header_lines join_lines].
  - rewrite strstr_no_crlf by done. by rewrite app_nil_r.
  - apply Forall_cons in Hls as [[Hl Hlen] Hls]. rewrite strstr_crlf by done.
    rewrite (proj2 (Nat.ltb_lt (length l) 512)), (proj2 (Nat.ltb_lt (length acc) 32)) by lia. cbn [andb].
    rewrite take_app_length. rewrite drop_app_add. change (drop 2 (CRLF ++ join_lines ls last_line)) with (join_lines ls last_line).
    rewrite IH; [by rewrite <- app_assoc | done | done | rewrite length_app; cbn [length]; lia | lia].
Qed.

(** The last header of a request is lost: of the lines in front of the empty
    line (the request line and the headers) all but the last are recorded,
    so a request with one header has none. *)
Theorem last_header_lost ls last_line fuel :
  Forall (λ l, no_cr l ∧ (length l < 512)%nat) ls → no_cr last_line →
  (length ls ≤ 32)%nat → (length ls < fuel)%nat →
  header_lines fuel (join_lines ls last_line) [] = ls.
Proof. intros. by apply (header_lines_spec ls last_line fuel []). Qed.

Lemma last_header_lost_witness :
  header_lines 100 (join_lines [lit "GET / HTTP/1.1"; lit "Host: claw"] (lit "Upgrade: websocket")) [] =
  [lit "GET / HTTP/1.1"; lit "Host: claw"].
Proof.
  apply last_header_lost; [|apply (bool_decide_unpack _); by vm_compute | cbn; lia | cbn; lia].
  repeat apply Forall_cons_2; try apply Forall_nil_2; (split; [apply (bool_decide_unpack _); by vm_compute | vm_compute; lia]).
Defined.

(** ** Clients *)

Record server_inv (s : ws_server_t) : Prop := {
  si_slots : length (ws_clients s) = WS_MAX_CLIENTS;
  si_count : (ws_count s ≤ WS_MAX_CLIENTS)%nat;
}.

Definition connected (s : ws_server_t) : list ws_client_t := take (ws_count s) (ws_clients s).

(** The table of clients is a bounded list: adding a client appends it unless
    the table is full, removing one deletes its first entry and keeps the
    order of the others, and both keep the table in its bounds. *)
Theorem ws_clients_spec now s fd ip :
  server_inv s → 0 <= fd →
  (let '(s', rc) := ws_add_client now s fd ip in
   server_inv s' ∧
   if (ws_count s <? WS_MAX_CLIENTS)%nat
   then rc = 0 ∧ map c_fd (connected s') = map c_fd (connected s) ++ [fd]
   else rc = -1 ∧ s' = s) ∧
  (let '(s', rc) := ws_remove_client s fd in
   server_inv s' ∧
   match find_idx (λ c, c_fd c =? fd) (connected s) with
   | Some i => rc = 0 ∧ connected s' = delete i (connected s)
   | None => rc = -1 ∧ s' = s
   end).
Proof.
  intros [Hs Hc] Hfd. split.
  - unfold ws_add_client. rewrite (proj2 (Z.ltb_ge _ _)) by done.
    destruct (WS_MAX_CLIENTS <=? ws_count s)%nat eqn:E; bsplit.
    { rewrite (proj2 (Nat.ltb_ge _ _)) by done. by split. }
    rewrite (proj2 (Nat.ltb_lt _ _)) by done.
    destruct (lookup_lt_is_Some_2 (ws_clients s) (ws_count s)) as [old ->]; [lia|].
    split; [split; cbn [ws_clients ws_count]; [by rewrite length_insert | lia]|]. split; [done|].
    unfold connected. cbn [ws_clients ws_count]. rewrite take_insert_push by lia. by rewrite map_app.
  - unfold ws_remove_client. fold (connected s). destruct (find_idx _ (connected s)) as [i|] eqn:E; [|by split].
    apply find_idx_lt in E. unfold connected in E. rewrite length_take in E.
    split; [split; cbn [ws_clients ws_count]; [by rewrite shift_left_length | lia]|]. split; [done|].
    unfold connected. cbn [ws_clients ws_count]. apply shift_left_delete; lia.
Qed.

Lemma ws_clients_spec_witness :
  let s := (ws_add_client 5 (ws_add_client 5 ws_init 7 (lit "a")).1 9 (lit "b")).1 in
  let '(s', rc) := ws_remove_client s 7 in
  server_inv s' ∧
  match find_idx (λ c, c_fd c =? 7) (connected s) with
  | Some i => rc = 0 ∧ connected s' = delete i (connected s)
  | None => rc = -1 ∧ s' = s
  end.
Proof. intros s. apply (ws_clients_spec 5 s 7 (lit "a")); [split; vm_compute; lia | lia]. Defined.

(** ** The handshake *)

(** The digest is that of SHA-1: for the sample key of RFC 6455 it is the
    digest given there.  But the header wants it in base64, and the response
    has it in hexadecimal. *)
Example handshake_sample :
  sha1_hash (lit "dGhlIHNhbXBsZSBub25jZQ==" ++ WS_GUID) = Some (lit "b37a4f2cc0624f1690f64606cf385945b2bec4ea").
Proof. vm_compute. reflexivity. Qed.
