(* ===== verification/Config.v ===== *)
(** * The configuration of [src/config/config.c]

    Defaults, the INI reader, the environment and the writer.  Of the structs
    in [config.h] the fields these functions touch are kept.  [double] is a
    parameter with [atof] and ["%f"]. *)
From S2P Require Import Prelude Floats.

Definition MAX_PATH_LEN : nat := Z.to_nat 4096.
Definition MAX_PROVIDER_NAME_LEN : nat := 64.
Definition MAX_MODEL_NAME_LEN : nat := 128.
Definition MAX_API_KEY_LEN : nat := 256.

Inductive autonomy_level_t :=
  | AUTONOMY_LEVEL_FULL | AUTONOMY_LEVEL_SUPERVISED | AUTONOMY_LEVEL_RESTRICTED | AUTONOMY_LEVEL_NONE.

Record config_paths_t := mk_paths { workspace_dir : cstr; config_path : cstr; state_dir : cstr; data_dir : cstr }.

Record provider_config_t (D : Type) := mk_provider {
  p_provider : cstr;
  p_model : cstr;
  p_temperature : D;
  p_max_tokens : Z;
  p_api_key : cstr;
  p_ollama_host : cstr;
  p_llama_model_path : cstr;
}.
Arguments mk_provider {D}.
Arguments p_provider {D}.
Arguments p_model {D}.
Arguments p_temperature {D}.
Arguments p_max_tokens {D}.
Arguments p_api_key {D}.
Arguments p_ollama_host {D}.
Arguments p_llama_model_path {D}.

Record memory_config_t := mk_memory {
  m_backend : cstr; m_auto_save : bool; m_storage_provider : cstr; m_chunk_size : Z; m_snapshot_enabled : bool }.

Record observability_config_t := mk_obs {
  o_backend : cstr; o_otel_endpoint : cstr; o_otel_service_name : cstr; o_verbose : bool }.

Record autonomy_config_t := mk_autonomy {
  au_enabled : bool; au_level : autonomy_level_t; au_level_str : cstr; au_workspace_only : bool;
  au_max_actions_per_hour : Z; au_max_cost_per_day_cents : Z; au_require_approval : bool }.

Record gateway_config_t := mk_gwcfg { gw_host : cstr; gw_port : Z }.

Record agent_config_t := mk_agentcfg {
  ag_enabled : bool; ag_max_history_messages : Z; ag_max_tool_iterations : Z; ag_tool_dispatcher : cstr;
  ag_compact_threshold : Z; ag_auto_save : bool }.

Record config_t (D : Type) := mk_config_t {
  c_paths : config_paths_t;
  c_provider : provider_config_t D;
  c_memory : memory_config_t;
  c_heartbeat_enabled : bool;
  c_heartbeat_interval : Z;
  c_observability : observability_config_t;
  c_autonomy : autonomy_config_t;
  c_gateway : gateway_config_t;
  c_secrets_encrypt : bool;
  c_agent : agent_config_t;
}.
Arguments mk_config_t {D}.
Arguments c_paths {D}.
Arguments c_provider {D}.
Arguments c_memory {D}.
Arguments c_heartbeat_enabled {D}.
Arguments c_heartbeat_interval {D}.
Arguments c_observability {D}.
Arguments c_autonomy {D}.
Arguments c_gateway {D}.
Arguments c_secrets_encrypt {D}.
Arguments c_agent {D}.

(** ** Lines *)

Definition trim (s : cstr) : cstr := rstrip isspace (skip_while isspace s).

(** The text between quotes; [None] when the scan runs past the terminator
    behind a final backslash. *)
Fixpoint quoted_text (s : cstr) : option cstr :=
  match s with
  | [] => Some []
  | b :: s' =>
      if b =? 34 then Some []
      else if b =? 92 then
        match s' with
        | [] => None
        | c :: s'' => t ← quoted_text s''; Some (b :: c :: t)
        end
      else t ← quoted_text s'; Some (b :: t)
  end.

(** The section afterwards, and key and value (empty unless the line has
    them). *)
Definition parse_ini_line (line section : cstr) : option (Z * cstr * cstr * cstr) :=
  let line := skip_while isspace line in
  match line with
  | [] => Some (0, section, [], [])
  | b :: rest =>
      if (b =? 35) || (b =? 59) then Some (0, section, [], [])
      else if b =? 91 then
        Some (0, match strchr line 93 with
                 | Some e => trim (take (Nat.min (e - 1) 63) rest)
                 | None => section
                 end, [], [])
      else
        match strchr line 61 with
        | None => Some (0, section, [], [])
        | Some e =>
            let key := trim (take (Nat.min e 127) line) in
            let val := skip_while isspace (drop (S e) line) in
            match val with
            | 34 :: v => t ← quoted_text v; Some (1, section, key, take 1023 t)
            | _ => Some (1, section, key, trim (take 1023 val))
            end
        end
  end.

Definition is_set (v : cstr) : bool := streq v (lit "true") || streq v (lit "1").

Section config.
Context {D : Type} (default_temperature : D) (atof : cstr → D) (fmt_f : D → cstr).
Context (getenv : cstr → option cstr).

(** ** Defaults *)

Definition dir (base sub : cstr) : cstr := snprintf_s MAX_PATH_LEN (base ++ sub).

Definition config_init_defaults : config_t D :=
  let base := match getenv (lit "HOME") with
              | Some ((_ :: _) as home) => home ++ lit "/.doctorclaw"
              | _ => lit ".doctorclaw"
              end in
  mk_config_t
    (mk_paths (dir base []) [] (dir base (lit "/state")) (dir base (lit "/data")))
    (mk_provider (lit "openrouter") [] default_temperature 4096 [] [] [])
    (mk_memory (lit "sqlite") true (lit "sqlite") 0 false)
    false 5
    (mk_obs (lit "log") [] [] false)
    (mk_autonomy true AUTONOMY_LEVEL_SUPERVISED (lit "supervised") true 100 10000 false)
    (mk_gwcfg (lit "0.0.0.0") 8080)
    true
    (mk_agentcfg false 0 0 [] 0 false).

Definition with_paths (c : config_t D) (p : config_paths_t) : config_t D :=
  mk_config_t p (c_provider c) (c_memory c) (c_heartbeat_enabled c) (c_heartbeat_interval c) (c_observability c)
    (c_autonomy c) (c_gateway c) (c_secrets_encrypt c) (c_agent c).
Definition with_provider (c : config_t D) (p : provider_config_t D) : config_t D :=
  mk_config_t (c_paths c) p (c_memory c) (c_heartbeat_enabled c) (c_heartbeat_interval c) (c_observability c)
    (c_autonomy c) (c_gateway c) (c_secrets_encrypt c) (c_agent c).
Definition with_memory (c : config_t D) (m : memory_config_t) : config_t D :=
  mk_config_t (c_paths c) (c_provider c) m (c_heartbeat_enabled c) (c_heartbeat_interval c) (c_observability c)
    (c_autonomy c) (c_gateway c) (c_secrets_encrypt c) (c_agent c).
Definition with_obs (c : config_t D) (o : observability_config_t) : config_t D :=
  mk_config_t (c_paths c) (c_provider c) (c_memory c) (c_heartbeat_enabled c) (c_heartbeat_interval c) o
    (c_autonomy c) (c_gateway c) (c_secrets_encrypt c) (c_agent c).
Definition with_autonomy (c : config_t D) (a : autonomy_config_t) : config_t D :=
  mk_config_t (c_paths c) (c_provider c) (c_memory c) (c_heartbeat_enabled c) (c_heartbeat_interval c)
    (c_observability c) a (c_gateway c) (c_secrets_encrypt c) (c_agent c).
Definition with_gateway (c : config_t D) (g : gateway_config_t) : config_t D :=
  mk_config_t (c_paths c) (c_provider c) (c_memory c) (c_heartbeat_enabled c) (c_heartbeat_interval c)
    (c_observability c) (c_autonomy c) g (c_secrets_encrypt c) (c_agent c).
Definition with_agent (c : config_t D) (a : agent_config_t) : config_t D :=
  mk_config_t (c_paths c) (c_provider c) (c_memory c) (c_heartbeat_enabled c) (c_heartbeat_interval c)
    (c_observability c) (c_autonomy c) (c_gateway c) (c_secrets_encrypt c) a.

(** ** One setting of the file *)

Definition set_paths (p : config_paths_t) (key v : cstr) : config_paths_t :=
  if streq key (lit "workspace_dir") then mk_paths (snprintf_s MAX_PATH_LEN v) (config_path p) (state_dir p) (data_dir p)
  else if streq key (lit "state_dir") then mk_paths (workspace_dir p) (config_path p) (snprintf_s MAX_PATH_LEN v) (data_dir p)
  else if streq key (lit "data_dir") then mk_paths (workspace_dir p) (config_path p) (state_dir p) (snprintf_s MAX_PATH_LEN v)
  else p.

Definition set_provider (p : provider_config_t D) (key v : cstr) : provider_config_t D :=
  let mk pr mo te tok := mk_provider pr mo te tok (p_api_key p) (p_ollama_host p) (p_llama_model_path p) in
  if streq key (lit "provider") then
    mk (snprintf_s MAX_PROVIDER_NAME_LEN v) (p_model p) (p_temperature p) (p_max_tokens p)
  else if streq key (lit "model") then
    mk (p_provider p) (snprintf_s MAX_MODEL_NAME_LEN v) (p_temperature p) (p_max_tokens p)
  else if streq key (lit "temperature") then mk (p_provider p) (p_model p) (atof v) (p_max_tokens p)
  else if streq key (lit "max_tokens") then mk (p_provider p) (p_model p) (p_temperature p) (u64 (atoi v))
  else p.

Definition set_gateway (g : gateway_config_t) (key v : cstr) : gateway_config_t :=
  if streq key (lit "host") then mk_gwcfg (snprintf_s 256 v) (gw_port g)
  else if streq key (lit "port") then mk_gwcfg (gw_host g) (u16 (atoi v))
  else g.

Definition set_memory (m : memory_config_t) (key v : cstr) : memory_config_t :=
  if streq key (lit "backend") then
    mk_memory (snprintf_s 32 v) (m_auto_save m) (m_storage_provider m) (m_chunk_size m) (m_snapshot_enabled m)
  else if streq key (lit "auto_save") then
    mk_memory (m_backend m) (is_set v) (m_storage_provider m) (m_chunk_size m) (m_snapshot_enabled m)
  else if streq key (lit "chunk_size") then
    mk_memory (m_backend m) (m_auto_save m) (m_storage_provider m) (u64 (atoi v)) (m_snapshot_enabled m)
  else if streq key (lit "snapshot_enabled") then
    mk_memory (m_backend m) (m_auto_save m) (m_storage_provider m) (m_chunk_size m) (is_set v)
  else m.

Definition level_of (v : cstr) : autonomy_level_t :=
  if streq v (lit "full") then AUTONOMY_LEVEL_FULL
  else if streq v (lit "restricted") then AUTONOMY_LEVEL_RESTRICTED
  else if streq v (lit "none") then AUTONOMY_LEVEL_NONE
  else AUTONOMY_LEVEL_SUPERVISED.

Definition set_autonomy (a : autonomy_config_t) (key v : cstr) : autonomy_config_t :=
  let 'mk_autonomy en lv ls wo ma mc ra := a in
  if streq key (lit "enabled") then mk_autonomy (is_set v) lv ls wo ma mc ra
  else if streq key (lit "level") then mk_autonomy en (level_of v) (snprintf_s 16 v) wo ma mc ra
  else if streq key (lit "workspace_only") then mk_autonomy en lv ls (is_set v) ma mc ra
  else if streq key (lit "max_actions_per_hour") then mk_autonomy en lv ls wo (u32 (atoi v)) mc ra
  else if streq key (lit "max_cost_per_day_cents") then mk_autonomy en lv ls wo ma (u32 (atoi v)) ra
  else if streq key (lit "require_approval") then mk_autonomy en lv ls wo ma mc (is_set v)
  else a.

Definition set_obs (o : observability_config_t) (key v : cstr) : observability_config_t :=
  let 'mk_obs be en sn ve := o in
  if streq key (lit "backend") then mk_obs (snprintf_s 32 v) en sn ve
  else if streq key (lit "verbose") then mk_obs be en sn (is_set v)
  else if streq key (lit "otel_endpoint") then mk_obs be (snprintf_s 256 v) sn ve
  else if streq key (lit "otel_service_name") then mk_obs be en (snprintf_s 128 v) ve
  else o.

Definition set_agent (a : agent_config_t) (key v : cstr) : agent_config_t :=
  let 'mk_agentcfg en mh mi td ct au := a in
  if streq key (lit "enabled") then mk_agentcfg (is_set v) mh mi td ct au
  else if streq key (lit "max_history_messages") then mk_agentcfg en (u32 (atoi v)) mi td ct au
  else if streq key (lit "max_tool_iterations") then mk_agentcfg en mh (u32 (atoi v)) td ct au
  else if streq key (lit "compact_threshold") then mk_agentcfg en mh mi td (u32 (atoi v)) au
  else if streq key (lit "auto_save") then mk_agentcfg en mh mi td ct (is_set v)
  else if streq key (lit "tool_dispatcher") then mk_agentcfg en mh mi (snprintf_s 32 v) ct au
  else a.

Definition apply_setting (c : config_t D) (section key v : cstr) : config_t D :=
  if streq section (lit "paths") then with_paths c (set_paths (c_paths c) key v)
  else if streq section (lit "provider") then with_provider c (set_provider (c_provider c) key v)
  else if streq section (lit "gateway") then with_gateway c (set_gateway (c_gateway c) key v)
  else if streq section (lit "memory") then with_memory c (set_memory (c_memory c) key v)
  else if streq section (lit "autonomy") then with_autonomy c (set_autonomy (c_autonomy c) key v)
  else if streq section (lit "observability") then with_obs c (set_obs (c_observability c) key v)
  else if streq section (lit "agent") then with_agent c (set_agent (c_agent c) key v)
  else c.

(** The loop over the lines of the file. *)
Fixpoint load_lines (lines : list cstr) (section : cstr) (c : config_t D) : option (config_t D) :=
  match lines with
  | [] => Some c
  | line :: lines' =>
      '(_, section, key, v) ← parse_ini_line line section;
      load_lines lines' section (match key with [] => c | _ => apply_setting c section key v end)
  end.

(** ** The environment *)

Definition env (name : string) (f : cstr → config_t D → config_t D) (c : config_t D) : config_t D :=
  match getenv (lit name) with
  | Some ((_ :: _) as v) => f v c
  | _ => c
  end.

Definition set_key (prov : cstr) (v : cstr) (c : config_t D) : config_t D :=
  let p := c_provider c in
  with_provider c
    (mk_provider (match p_provider p with [] => prov | s => s end) (p_model p) (p_temperature p) (p_max_tokens p)
       (snprintf_s MAX_API_KEY_LEN v) (p_ollama_host p) (p_llama_model_path p)).

(** A key is only taken when there is none yet. *)
Definition env_key (name : string) (prov : cstr) (c : config_t D) : config_t D :=
  match p_api_key (c_provider c) with [] => env name (set_key prov) c | _ => c end.

Definition upd_provider (f : provider_config_t D → provider_config_t D) (c : config_t D) : config_t D :=
  with_provider c (f (c_provider c)).

Definition config_load_from_env (c : config_t D) : config_t D :=
  let c := env "DOCTORCLAW_WORKSPACE" (λ v c,
    with_paths c (mk_paths (dir v []) (config_path (c_paths c)) (dir v (lit "/state")) (dir v (lit "/data")))) c in
  let c := env "DOCTORCLAW_CONFIG" (λ v c,
    with_paths c (mk_paths (workspace_dir (c_paths c)) (dir v []) (state_dir (c_paths c)) (data_dir (c_paths c)))) c in
  let c := env "OPENROUTER_API_KEY" (set_key (lit "openrouter")) c in
  let c := env_key "OPENAI_API_KEY" (lit "openai") c in
  let c := env_key "ANTHROPIC_API_KEY" (lit "anthropic") c in
  let c := env_key "GEMINI_API_KEY" (lit "gemini") c in
  let c := env "DOCTORCLAW_PROVIDER" (λ v, upd_provider (λ p, set_provider p (lit "provider") v)) c in
  let c := env "DOCTORCLAW_MODEL" (λ v, upd_provider (λ p, set_provider p (lit "model") v)) c in
  let c := env "DOCTORCLAW_GATEWAY_PORT" (λ v c, with_gateway c (set_gateway (c_gateway c) (lit "port") v)) c in
  let c := env "DOCTORCLAW_GATEWAY_HOST" (λ v c, with_gateway c (set_gateway (c_gateway c) (lit "host") v)) c in
  let c := env "OLLAMA_HOST" (λ v, upd_provider (λ p,
    mk_provider (p_provider p) (p_model p) (p_temperature p) (p_max_tokens p) (p_api_key p) (snprintf_s 256 v)
      (p_llama_model_path p))) c in
  env "DOCTORCLAW_LLAMA_MODEL" (λ v, upd_provider (λ p,
    mk_provider (p_provider p) (p_model p) (p_temperature p) (p_max_tokens p) (p_api_key p) (p_ollama_host p)
      (snprintf_s MAX_PATH_LEN v))) c.

(** ** Loading and saving *)

Definition resolve_path (path : option cstr) : cstr :=
  snprintf_s MAX_PATH_LEN
    (match path with
     | Some ((_ :: _) as p) => p
     | _ =>
         match getenv (lit "DOCTORCLAW_CONFIG") with
         | Some ((_ :: _) as e) => e
         | _ =>
             match getenv (lit "HOME") with
             | Some home => home ++ lit "/.doctorclaw/config.toml"
             | None => lit ".doctorclaw/config.toml"
             end
         end
     end).

(** [read p] is the content of a file; [None] as a result: the parser ran
    past the end of a line. *)
Definition config_load (read : cstr → option cstr) (path : option cstr) : option (config_t D) :=
  let c := config_init_defaults in
  let rp := resolve_path path in
  let c := with_paths c (mk_paths (workspace_dir (c_paths c)) rp (state_dir (c_paths c)) (data_dir (c_paths c))) in
  c ← (match read rp with Some text => load_lines (fgets_lines 1024 text) [] c | None => Some c end);
  Some (config_load_from_env c).

(** The lines of the file, without their line ends. *)
Definition setting (key : string) (v : cstr) : cstr := lit key ++ lit " = " ++ v.

Definition save_lines (c : config_t D) : list cstr :=
  [ lit "# Doctor Claw Configuration"; lit "# Version 0.1.0"; []; lit "[paths]";
    setting "workspace_dir" (workspace_dir (c_paths c));
    setting "state_dir" (state_dir (c_paths c));
    setting "data_dir" (data_dir (c_paths c)); [];
    lit "[provider]";
    setting "provider" (p_provider (c_provider c));
    setting "model" (p_model (c_provider c));
    setting "temperature" (fmt_f (p_temperature (c_provider c))); [];
    lit "[gateway]";
    setting "host" (gw_host (c_gateway c));
    setting "port" (fmt_dec (gw_port (c_gateway c))); [] ].

Definition config_save (c : config_t D) : cstr := flat_map (λ l, l ++ [10]) (save_lines c).
End config.

(** ** Reading what was written *)

(** A value the reader gives back unchanged. *)
Record value_ok (v : cstr) : Prop := {
  vo_len : (length v < 900)%nat;
  vo_line : Forall (λ b, b ≠ 10) v;
  vo_first : ∀ b s, v = b :: s → isspace b = false ∧ b ≠ 34;
  vo_last : ∀ b s, v = s ++ [b] → isspace b = false;
}.

Lemma rstrip_nl v : (∀ b s, v = s ++ [b] → isspace b = false) → rstrip isspace (v ++ [10]) = v.
Proof.
  intros Hl. unfold rstrip. rewrite reverse_app. change (reverse [10] ++ reverse v) with (10 :: reverse v).
  cbn [skip_while]. change (isspace 10) with true. cbv iota.
  destruct v as [|b s _] using rev_ind; [done|]. rewrite reverse_app.
  change (reverse [b] ++ reverse s) with (b :: reverse s). cbn [skip_while].
  rewrite (Hl b s eq_refl). by rewrite reverse_cons, reverse_involutive.
Qed.

Lemma trim_value v : value_ok v → trim (take 1023 (skip_while isspace (v ++ [10]))) = v.
Proof.
  intros [Hlen _ Hf Hl]. destruct v as [|b s]; [done|].
  destruct (Hf b s eq_refl) as [Hb _]. cbn [app skip_while]. rewrite Hb.
  change (b :: s ++ [10]) with ((b :: s) ++ [10]). rewrite take_ge by (rewrite length_app; cbn [length] in *; lia).
  unfold trim. cbn [app skip_while]. rewrite Hb. change (b :: s ++ [10]) with ((b :: s) ++ [10]).
  by rewrite rstrip_nl.
Qed.

(** Keys: letters and underscores. *)
Definition key_ok (k : cstr) : bool :=
  forallb (λ b, negb (isspace b) && negb (b =? 61) && negb (b =? 35) && negb (b =? 59) && negb (b =? 91)) k
  && (0 <? length k)%nat && (length k <? 100)%nat.

Lemma strchr_skip a c b : forallb (λ x, negb (x =? c)) a = true → strchr (a ++ c :: b) c = Some (length a).
Proof.
  induction a as [|x a IH]; cbn [forallb app strchr]; [by rewrite Z.eqb_refl|]. intros [Hx Ha]%andb_true_iff.
  apply negb_true_iff in Hx. rewrite Hx, IH by done. done.
Qed.

Lemma rstrip_space k : forallb (λ b, negb (isspace b)) k = true → rstrip isspace (k ++ [32]) = k.
Proof.
  intros Hk. unfold rstrip. rewrite reverse_app. change (reverse [32] ++ reverse k) with (32 :: reverse k).
  cbn [skip_while]. change (isspace 32) with true. cbv iota.
  destruct k as [|b s _] using rev_ind; [done|]. rewrite reverse_app.
  change (reverse [b] ++ reverse s) with (b :: reverse s). cbn [skip_while].
  rewrite forallb_app in Hk. apply andb_true_iff in Hk as [_ Hb]. cbn [forallb] in Hb.
  rewrite andb_true_r in Hb. apply negb_true_iff in Hb. rewrite Hb. by rewrite reverse_cons, reverse_involutive.
Qed.

Lemma parse_setting key v sec :
  key_ok (lit key) = true → value_ok v →
  parse_ini_line (setting key v ++ [10]) sec = Some (1, sec, lit key, v).
Proof.
  intros Hk Hv. unfold key_ok in Hk. apply andb_true_iff in Hk as [Hk Hk2]. apply andb_true_iff in Hk as [Hk Hk1].
  apply Nat.ltb_lt in Hk1, Hk2. unfold setting. generalize dependent (lit key). intros k Hk Hk1 Hk2.
  assert (forallb (λ b, negb (isspace b)) k = true ∧ forallb (λ b, negb (b =? 61)) k = true) as [Hs He].
  { rewrite !forallb_forall in *. split; intros b Hb; specialize (Hk b Hb); bsplit; apply negb_true_iff; (done || by apply Z.eqb_neq). }
  assert (∃ b s, k = b :: s ∧ isspace b = false ∧ (b =? 35) || (b =? 59) = false ∧ (b =? 91) = false) as (b & s & Hb).
  { destruct k as [|b s]; [cbn in Hk1; lia|]. exists b, s. cbn [forallb] in Hk. apply andb_true_iff in Hk as [Hb _].
    repeat (apply andb_true_iff in Hb as [Hb ?]). repeat match goal with H : negb _ = true |- _ => apply negb_true_iff in H end.
    split_and!; [done | done | by apply orb_false_iff | done]. }
  destruct Hb as (Hk' & Hb1 & Hb2 & Hb3).
  unfold parse_ini_line.
  assert (skip_while isspace ((k ++ lit " = " ++ v) ++ [10]) = (k ++ lit " = " ++ v) ++ [10]) as ->
    by (rewrite Hk'; cbn [app skip_while]; by rewrite Hb1).
  set (line := (k ++ lit " = " ++ v) ++ [10]).
  assert (line = b :: (s ++ lit " = " ++ v) ++ [10]) as Hline by (subst line; by rewrite Hk').
  rewrite Hline at 1. rewrite Hb2, Hb3.
  assert (line = (k ++ [32]) ++ 61 :: ([32] ++ v ++ [10])) as Hl2
    by (subst line; rewrite <- !app_assoc; done).
  rewrite Hl2, strchr_skip by (rewrite forallb_app, He; done).
  rewrite (Nat.min_l (length (k ++ [32%Z])) 127) by (rewrite length_app; cbn [length]; lia).
  rewrite take_app_length.
  replace (S (length (k ++ [32%Z]))) with (length (k ++ [32%Z]) + 1)%nat by lia. rewrite drop_app_add.
  change (drop 1 (61 :: [32] ++ v ++ [10])) with (32 :: v ++ [10]). cbn [skip_while]. change (isspace 32) with true. cbv iota.
  assert (trim (k ++ [32]) = k) as ->.
  { unfold trim. replace (skip_while isspace (k ++ [32])) with (k ++ [32])
      by (rewrite Hk'; cbn [app skip_while]; by rewrite Hb1). by apply rstrip_space. }
  pose proof (trim_value v Hv) as Ht.
  destruct (skip_while isspace (v ++ [10])) as [|x t] eqn:Ex; [by rewrite Ht|].
  assert (x ≠ 34) as Hx.
  { destruct v as [|b' s']; [by vm_compute in Ex|]. destruct (vo_first _ Hv b' s' eq_refl) as [Hsp Hq].
    cbn [app skip_while] in Ex. rewrite Hsp in Ex. by injection Ex as <- _. }
  rewrite Ht. destruct x as [|x|x]; try done. do 7 (destruct x as [x|x|]; try done).
Qed.

Section roundtrip.
Context {D : Type} (dt : D) (atof : cstr → D) (fmt_f : D → cstr).

Lemma load_setting key v sec ls (c : config_t D) :
  key_ok (lit key) = true → value_ok v →
  load_lines atof ((setting key v ++ [10]) :: ls) sec c = load_lines atof ls sec (apply_setting atof c sec (lit key) v).
Proof.
  intros Hk Hv. cbn [load_lines]. rewrite parse_setting by done. cbn [mbind option_bind].
  destruct (lit key) eqn:E; [|done]. by destruct key.
Qed.

Lemma fgets_save ls :
  Forall (λ l, Forall (λ b, b ≠ 10) l ∧ (length l < 1000)%nat) ls →
  fgets_lines 1024 (flat_map (λ l, l ++ [10]) ls) = map (λ l, l ++ [10]) ls.
Proof.
  induction 1 as [|l ls [Hl Hn] _ IH]; [done|]. cbn [flat_map map]. rewrite <- app_assoc.
  change ([10] ++ flat_map (λ l, l ++ [10]) ls) with (10 :: flat_map (λ l, l ++ [10]) ls).
  rewrite fgets_lines_line by (done || lia). by rewrite IH.
Qed.

(** A configuration whose saved values survive the file. *)
Record saveable (c : config_t D) : Prop := {
  sv_ws : value_ok (workspace_dir (c_paths c));
  sv_st : value_ok (state_dir (c_paths c));
  sv_da : value_ok (data_dir (c_paths c));
  sv_pr : value_ok (p_provider (c_provider c));
  sv_prl : (length (p_provider (c_provider c)) < MAX_PROVIDER_NAME_LEN)%nat;
  sv_mo : value_ok (p_model (c_provider c));
  sv_mol : (length (p_model (c_provider c)) < MAX_MODEL_NAME_LEN)%nat;
  sv_te : value_ok (fmt_f (p_temperature (c_provider c)));
  sv_ho : value_ok (gw_host (c_gateway c));
  sv_hol : (length (gw_host (c_gateway c)) < 256)%nat;
  sv_po : 0 <= gw_port (c_gateway c) < 65536;
}.

Lemma digits_ok z : Forall (λ b, b = 45 ∨ 48 <= b <= 57) z → (length z < 900)%nat → value_ok z.
Proof.
  intros Hz Hl. assert (∀ b, b = 45 ∨ 48 <= b <= 57 → isspace b = false ∧ b ≠ 34 ∧ b ≠ 10) as Hd.
  { intros b Hb. unfold isspace. split; [|lia]. apply orb_false_iff. split; [apply Z.eqb_neq; lia|].
    apply andb_false_iff. destruct (decide (b <= 13)); [left; apply Z.leb_gt; lia | right; apply Z.leb_gt; lia]. }
  split; [done| | |].
  - eapply Forall_impl; [exact Hz|]. intros b Hb. by apply Hd.
  - intros b s ->. apply Forall_cons in Hz as [Hb _]. apply Hd in Hb. by split; apply Hb.
  - intros b s ->. apply Forall_app in Hz as [_ Hz]. apply Forall_cons in Hz as [Hb _]. apply Hd in Hb as (? & _). done.
Qed.

Lemma port_ok p : 0 <= p < 65536 → value_ok (fmt_dec p) ∧ u16 (atoi (fmt_dec p)) = p.
Proof.
  intros Hp. split.
  - apply digits_ok; [apply fmt_dec_bytes|]. pose proof (fmt_dec_length 5 p ltac:(lia) ltac:(lia)). lia.
  - rewrite <- (app_nil_r (fmt_dec p)). rewrite atoi_fmt_dec by (try done; lia). apply wrap_small. lia.
Qed.

Lemma setting_line key v :
  Forall (λ b, b ≠ 10) (lit key) → (length (lit key) < 50)%nat → value_ok v →
  Forall (λ b, b ≠ 10) (setting key v) ∧ (length (setting key v) < 1000)%nat.
Proof.
  intros Hk Hl [Hv1 Hv2 _ _]. unfold setting. rewrite !Forall_app, !length_app.
  change (length (lit " = ")) with 3%nat. split; [|lia]. split; [done|]. split; [by repeat constructor | done].
Qed.

Lemma save_lines_ok c : saveable c →
  Forall (λ l, Forall (λ b, b ≠ 10) l ∧ (length l < 1000)%nat) (save_lines fmt_f c).
Proof.
  intros H. destruct (port_ok _ (sv_po c H)) as [Hp _].
  assert (∀ s : string, bool_decide (Forall (λ b, b ≠ 10) (lit s)) && (length (lit s) <? 50)%nat = true →
    Forall (λ b, b ≠ 10) (lit s) ∧ (length (lit s) < 1000)%nat) as Hlit.
  { intros s [Hs Hl]%andb_true_iff. apply bool_decide_eq_true in Hs. apply Nat.ltb_lt in Hl. split; [done | lia]. }
  assert (∀ (s : string) v, bool_decide (Forall (λ b, b ≠ 10) (lit s)) && (length (lit s) <? 50)%nat = true → value_ok v →
    Forall (λ b, b ≠ 10) (setting s v) ∧ (length (setting s v) < 1000)%nat) as Hset.
  { intros s v [Hs Hl]%andb_true_iff Hv. apply bool_decide_eq_true in Hs. apply Nat.ltb_lt in Hl. by apply setting_line. }
  unfold save_lines. destruct H.
  repeat (apply Forall_cons_2; [first [by apply Hlit | apply Hset; [reflexivity | done]
    | split; [constructor | cbn; lia]]|]). constructor.
Qed.

(** What loading a saved file changes in a configuration.  The temperature is
    what [atof] reads in the six decimals that were printed. *)
Definition restored (c base : config_t D) : config_t D :=
  with_gateway
    (with_provider
       (with_paths base (mk_paths (workspace_dir (c_paths c)) (config_path (c_paths base)) (state_dir (c_paths c))
                           (data_dir (c_paths c))))
       (mk_provider (p_provider (c_provider c)) (p_model (c_provider c)) (atof (fmt_f (p_temperature (c_provider c))))
          (p_max_tokens (c_provider base)) (p_api_key (c_provider base)) (p_ollama_host (c_provider base))
          (p_llama_model_path (c_provider base))))
    (c_gateway c).

Lemma load_saved_config c base : saveable c →
  load_lines atof (map (λ l, l ++ [10]) (save_lines fmt_f c)) [] base = Some (restored c base).
Proof.
  intros H. destruct (port_ok _ (sv_po c H)) as [Hp Hpv]. destruct H. unfold save_lines. cbn [map].
  change (load_lines atof ((lit "# Doctor Claw Configuration" ++ [10]) :: (lit "# Version 0.1.0" ++ [10]) ::
    ([] ++ [10]) :: (lit "[paths]" ++ [10]) :: ?ls) [] base) with (load_lines atof ls (lit "paths") base).
  rewrite !load_setting by (reflexivity || done).
  change (load_lines atof (([] ++ [10]) :: (lit "[provider]" ++ [10]) :: ?ls) (lit "paths") ?b)
    with (load_lines atof ls (lit "provider") b).
  rewrite !load_setting by (reflexivity || done).
  change (load_lines atof (([] ++ [10]) :: (lit "[gateway]" ++ [10]) :: ?ls) (lit "provider") ?b)
    with (load_lines atof ls (lit "gateway") b).
  rewrite !load_setting by (reflexivity || done).
  change (load_lines atof [[] ++ [10]] (lit "gateway") ?b) with (Some b). f_equal.
  assert (∀ (b : config_t D) k v, apply_setting atof b (lit "paths") k v = with_paths b (set_paths (c_paths b) k v)) as A1 by done.
  assert (∀ (b : config_t D) k v, apply_setting atof b (lit "provider") k v = with_provider b (set_provider atof (c_provider b) k v)) as A2 by done.
  assert (∀ (b : config_t D) k v, apply_setting atof b (lit "gateway") k v = with_gateway b (set_gateway (c_gateway b) k v)) as A3 by done.
  rewrite !A1, !A2, !A3.
  change (set_gateway ?g (lit "port") ?v) with (mk_gwcfg (gw_host g) (u16 (atoi v))).
  change (set_gateway ?g (lit "host") ?v) with (mk_gwcfg (snprintf_s 256 v) (gw_port g)).
  change (set_provider atof ?p (lit "provider") ?v) with
    (mk_provider (snprintf_s MAX_PROVIDER_NAME_LEN v) (p_model p) (p_temperature p) (p_max_tokens p) (p_api_key p) (p_ollama_host p) (p_llama_model_path p)).
  change (set_provider atof ?p (lit "model") ?v) with
    (mk_provider (p_provider p) (snprintf_s MAX_MODEL_NAME_LEN v) (p_temperature p) (p_max_tokens p) (p_api_key p) (p_ollama_host p) (p_llama_model_path p)).
  change (set_provider atof ?p (lit "temperature") ?v) with
    (mk_provider (p_provider p) (p_model p) (atof v) (p_max_tokens p) (p_api_key p) (p_ollama_host p) (p_llama_model_path p)).
  change (set_paths ?p (lit "workspace_dir") ?v) with (mk_paths (snprintf_s MAX_PATH_LEN v) (config_path p) (state_dir p) (data_dir p)).
  change (set_paths ?p (lit "state_dir") ?v) with (mk_paths (workspace_dir p) (config_path p) (snprintf_s MAX_PATH_LEN v) (data_dir p)).
  change (set_paths ?p (lit "data_dir") ?v) with (mk_paths (workspace_dir p) (config_path p) (state_dir p) (snprintf_s MAX_PATH_LEN v)).
  rewrite Hpv. rewrite !(snprintf_s_id MAX_PATH_LEN) by (unfold MAX_PATH_LEN;
    first [pose proof (vo_len _ sv_ws0) | idtac]; pose proof (vo_len _ sv_st0); pose proof (vo_len _ sv_da0); lia).
  rewrite !snprintf_s_id by done. unfold restored. by destruct (c_gateway c).
Qed.
End roundtrip.

Lemma env_autonomy {D} (getenv : cstr → option cstr) name f (c : config_t D) :
  (∀ v c, c_autonomy (f v c) = c_autonomy c) → c_autonomy (env getenv name f c) = c_autonomy c.
Proof. intros H. unfold env. destruct (getenv (lit name)) as [[|b s]|]; [done | apply H | done]. Qed.

Lemma load_env_autonomy {D} (atof : cstr → D) getenv c :
  c_autonomy (config_load_from_env atof getenv c) = c_autonomy c.
Proof.
  unfold config_load_from_env. cbv zeta.
  repeat first [rewrite env_autonomy by done
    | unfold env_key at 1; match goal with |- c_autonomy (match ?x with [] => _ | _ => _ end) = _ => destruct x end].
  all: done.
Qed.

(** C26: Loading what [config_save] wrote gives, before the environment is
    applied, the defaults with the paths, provider, model and gateway address
    that were saved, and the temperature that [atof] reads from the text %f
    printed, which keeps six decimals; require_approval is always lost.
    Conditions: each of these texts is one line below 900 bytes and below its
    field, with no blank at an end and no quote at its start, and the port is
    below 65536. *)
Theorem config_roundtrip {D} (dt : D) atof fmt_f getenv read path c :
  saveable fmt_f c →
  read (resolve_path getenv path) = Some (config_save fmt_f c) →
  let base := config_init_defaults dt getenv in
  let base := with_paths base (mk_paths (workspace_dir (c_paths base)) (resolve_path getenv path)
                                 (state_dir (c_paths base)) (data_dir (c_paths base))) in
  ∃ c', config_load dt atof getenv read path = Some c' ∧
        c' = config_load_from_env atof getenv (restored atof fmt_f c base) ∧
        au_require_approval (c_autonomy c') = false.
Proof.
  intros Hs Hr base0 base. unfold config_load. cbv zeta. rewrite Hr. unfold config_save.
  rewrite fgets_save by (by eapply save_lines_ok). rewrite load_saved_config by done. cbn [mbind option_bind].
  eexists. split; [done|]. split; [done|]. by rewrite load_env_autonomy.
Qed.

Definition config_ex : config_t Z :=
  mk_config_t (mk_paths (lit "/w") [] (lit "/w/state") (lit "/w/data")) (mk_provider (lit "ollama") [] 7 100 [] [] [])
    (mk_memory [] false [] 0 false) false 0 (mk_obs [] [] [] false)
    (mk_autonomy true AUTONOMY_LEVEL_NONE [] true 1 1 true) (mk_gwcfg (lit "127.0.0.1") 9000) true
    (mk_agentcfg false 0 0 [] 0 false).

(** A decidable form of [value_ok]. *)
Lemma value_ok_dec v :
  (length v <? 900)%nat && forallb (λ b, negb (b =? 10)) v
  && match v with b :: _ => negb (isspace b) && negb (b =? 34) | [] => true end
  && match reverse v with b :: _ => negb (isspace b) | [] => true end = true → value_ok v.
Proof.
  intros H. repeat (apply andb_true_iff in H as [H ?]). apply Nat.ltb_lt in H. split; [done| | |].
  - apply Forall_forall. intros b Hb%list_elem_of_In. rewrite forallb_forall in H2. specialize (H2 b Hb). bsplit. done.
  - intros b s ->. bsplit. done.
  - intros b s ->. rewrite reverse_app in *. cbn in *. by apply negb_true_iff.
Qed.

(** [atof] on what %f prints of a number that is not negative. *)
Definition read_fixed (s : cstr) : f64 := f64_const (strtol10 (List.filter (λ b, negb (b =? 46)) s)) (10 ^ 6).

(** A configuration with the temperature 0.7. *)
Definition config_warm : config_t f64 :=
  mk_config_t (mk_paths (lit "/w") [] (lit "/w/state") (lit "/w/data")) (mk_provider (lit "ollama") [] (f64_const 7 10) 100 [] [] [])
    (mk_memory [] false [] 0 false) false 0 (mk_obs [] [] [] false)
    (mk_autonomy true AUTONOMY_LEVEL_NONE [] true 1 1 true) (mk_gwcfg (lit "127.0.0.1") 9000) true
    (mk_agentcfg false 0 0 [] 0 false).

Lemma config_roundtrip_witness :
  let read := λ _ : cstr, Some (config_save (fmt_fixed 6) config_warm) in
  ∃ c', config_load f64_zero read_fixed (λ _, None) read (Some (lit "f")) = Some c' ∧
        p_temperature (c_provider c') = f64_const 7 10 ∧ p_provider (c_provider c') = lit "ollama" ∧
        au_require_approval (c_autonomy c') = false.
Proof.
  intros read.
  destruct (config_roundtrip f64_zero read_fixed (fmt_fixed 6) (λ _, None) read (Some (lit "f")) config_warm)
    as (c' & H1 & H2 & H3); [|reflexivity|].
  - split; try (apply value_ok_dec; by vm_compute); try (vm_compute; lia); by vm_compute.
  - exists c'. split; [exact H1|]. rewrite H2. split; [vm_compute; reflexivity|]. split; vm_compute; reflexivity.
Defined.

(** The first variable of the list that is set and not empty. *)
Fixpoint first_set (getenv : cstr → option cstr) (names : list cstr) : option cstr :=
  match names with
  | [] => None
  | n :: names' => match getenv n with Some ((_ :: _) as v) => Some v | _ => first_set getenv names' end
  end.

(** The API key is the first of the four provider keys in the environment,
    in the order OpenRouter, OpenAI, Anthropic, Gemini, cut to 255 bytes; the
    later variables do not change it. *)
Theorem api_key_precedence {D} (atof : cstr → D) getenv c :
  p_api_key (c_provider c) = [] →
  p_api_key (c_provider (config_load_from_env atof getenv c)) =
  match first_set getenv [lit "OPENROUTER_API_KEY"; lit "OPENAI_API_KEY"; lit "ANTHROPIC_API_KEY"; lit "GEMINI_API_KEY"] with
  | Some v => snprintf_s MAX_API_KEY_LEN v
  | None => []
  end.
Proof.
  intros Hk.
  assert (∀ name f c, (∀ v c, p_api_key (c_provider (f v c)) = p_api_key (c_provider c)) →
    p_api_key (c_provider (@env D getenv name f c)) = p_api_key (c_provider c)) as Hkeep.
  { intros name f c0 H. unfold env. destruct (getenv (lit name)) as [[|b s]|]; [done | apply H | done]. }
  assert (∀ (p : provider_config_t D) v, p_api_key (set_provider atof p (lit "provider") v) = p_api_key p) as HP by done.
  assert (∀ (p : provider_config_t D) v, p_api_key (set_provider atof p (lit "model") v) = p_api_key p) as HM by done.
  unfold config_load_from_env. cbv zeta. rewrite !Hkeep by done.
  set (c0 := env getenv "DOCTORCLAW_CONFIG" _ _).
  assert (p_api_key (c_provider c0) = []) as H0 by (subst c0; by rewrite !Hkeep).
  cbn [first_set]. unfold env_key, env.
  destruct (getenv (lit "OPENROUTER_API_KEY")) as [[|b s]|]; [| cbn; done |]; rewrite H0;
  (destruct (getenv (lit "OPENAI_API_KEY")) as [[|b s]|]; [| cbn; done |]; rewrite ?H0);
  (destruct (getenv (lit "ANTHROPIC_API_KEY")) as [[|b s]|]; [| cbn; done |]; rewrite ?H0);
  (destruct (getenv (lit "GEMINI_API_KEY")) as [[|b s]|]; [done | cbn; done | done]).
Qed.

Lemma api_key_precedence_witness :
  let getenv := λ n, if streq n (lit "ANTHROPIC_API_KEY") then Some (lit "k") else None in
  p_api_key (c_provider (config_load_from_env atoi getenv config_ex)) = snprintf_s MAX_API_KEY_LEN (lit "k").
Proof.
  intros getenv. apply (api_key_precedence atoi getenv config_ex). reflexivity.
Defined.

(** ** The environment in words *)

Definition ENV_VAR_NAMES : list cstr := map lit
  ["DOCTORCLAW_WORKSPACE"; "DOCTORCLAW_CONFIG"; "DOCTORCLAW_PROVIDER"; "DOCTORCLAW_MODEL"; "DOCTORCLAW_GATEWAY_PORT";
   "DOCTORCLAW_GATEWAY_HOST"; "DOCTORCLAW_LLAMA_MODEL"; "DOCTORCLAW_LOG_FILE"; "DOCTORCLAW_RUN_STARTUP_TESTS";
   "DOCTORCLAW_TEST_BIN"; "DOCTORCLAW_HEALTH_SECRET"; "DOCTORCLAW_SHELL"; "OPENROUTER_API_KEY"; "OPENAI_API_KEY";
   "ANTHROPIC_API_KEY"; "GEMINI_API_KEY"; "GITHUB_TOKEN"; "OLLAMA_HOST"; "JIRA_API_TOKEN"; "NOTION_API_KEY"; "HOME";
   "USER"; "HTTP_PROXY"; "HTTPS_PROXY"; "NO_PROXY"]%string.

Definition config_env_var_count : Z := Z.of_nat (length ENV_VAR_NAMES).

Definition config_env_var_name (i : Z) : option cstr :=
  if (i <? 0) || (config_env_var_count <=? i) then None else ENV_VAR_NAMES !! Z.to_nat i.

Definition env_mark (getenv : cstr → option cstr) (name : cstr) : cstr :=
  match getenv name with Some (_ :: _) => lit "(set)" | _ => [] end.

(** The loop over the names from the [i]-th on; [text] stands in the buffer,
    its length is [off]. *)
Fixpoint summary_loop (getenv : cstr → option cstr) (size i : nat) (names : list cstr) (text : cstr) : cstr :=
  match names with
  | [] => text
  | n :: names' =>
      if (length text <? size - 2)%nat then
        let piece := (if (i =? 0)%nat then [] else lit " ") ++ n ++ env_mark getenv n in
        if (length piece <? size - length text)%nat then summary_loop getenv size (S i) names' (text ++ piece)
        else text ++ take (size - length text - 1) piece
      else text
  end.

Definition config_env_summary (getenv : cstr → option cstr) (size : nat) : cstr := summary_loop getenv size 0 ENV_VAR_NAMES [].

(** The words a summary of these names consists of. *)
Fixpoint summary_words (getenv : cstr → option cstr) (i : nat) (names : list cstr) : cstr :=
  match names with
  | [] => []
  | n :: names' => (if (i =? 0)%nat then [] else lit " ") ++ n ++ env_mark getenv n ++ summary_words getenv (S i) names'
  end.

Lemma summary_words_length getenv i names :
  (length (summary_words getenv i names) ≤ length (summary_words (λ _, Some [49%Z]) i names))%nat.
Proof.
  revert i. induction names as [|n names IH]; intros i; [done|]. cbn [summary_words]. rewrite !length_app.
  specialize (IH (S i)). assert (length (env_mark getenv n) ≤ 5)%nat.
  { unfold env_mark. repeat case_match; cbn; lia. }
  change (length (env_mark (λ _, Some [49%Z]) n)) with 5%nat. lia.
Qed.

Lemma summary_loop_fits getenv size i names text :
  (length text + length (summary_words getenv i names) < size - 2)%nat →
  summary_loop getenv size i names text = text ++ summary_words getenv i names.
Proof.
  revert i text. induction names as [|n names IH]; intros i text Hl; cbn [summary_loop summary_words] in *; [by rewrite app_nil_r|].
  rewrite !length_app in Hl. rewrite (proj2 (Nat.ltb_lt (length text) _)) by lia.
  rewrite (proj2 (Nat.ltb_lt _ _)) by (rewrite !length_app; lia). rewrite IH by (rewrite !length_app; lia).
  by rewrite <- !app_assoc.
Qed.

(** In a buffer of 1024 bytes the summary is complete: every name, with a mark
    behind those that are set, and nothing of any value, whatever the
    environment. *)
Theorem env_summary_complete getenv : config_env_summary getenv (Z.to_nat 1024) = summary_words getenv 0 ENV_VAR_NAMES.
Proof.
  unfold config_env_summary. rewrite summary_loop_fits; [done|].
  eapply Nat.le_lt_trans; [apply Nat.add_le_mono_l, summary_words_length|]. apply Nat.ltb_lt. by vm_compute.
Qed.
