(* ===== verification/Channels.v ===== *)
(** * Messaging channels ([src/channels/channels.c])

    The table of channels and its file, the senders of the services with the
    splitting of long messages, replies to webhooks, alerts, and the Telegram
    poller that turns updates into jobs.  [None] is a read or a write outside
    an array.  Output to the console is left out. *)
From S2P Require Import Prelude Http JobCache.

Definition MAX_CHANNELS : nat := 32.
Definition MAX_CHANNEL_NAME : nat := 64.
Definition MAX_CHANNEL_TOKEN : nat := 512.
Definition MAX_MESSAGE_CONTENT : nat := Z.to_nat 16384.
Definition MAX_MESSAGE_LENGTH : nat := Z.to_nat 4096.
Definition CHAN_BODY : nat := Z.to_nat 8192.
Definition URL_BUF : nat := 512.

Inductive channel_type_t :=
  | CHANNEL_TELEGRAM | CHANNEL_DISCORD | CHANNEL_SLACK | CHANNEL_WHATSAPP | CHANNEL_SIGNAL | CHANNEL_MATRIX
  | CHANNEL_IRC | CHANNEL_EMAIL | CHANNEL_DINGTALK | CHANNEL_LARK | CHANNEL_MATTERMOST | CHANNEL_QQ
  | CHANNEL_WEBHOOK | CHANNEL_IMESSAGE | CHANNEL_CLI | CHANNEL_UNKNOWN.

#[global] Instance channel_type_eq : EqDecision channel_type_t.
Proof. solve_decision. Defined.

Definition channel_get_name (t : channel_type_t) : cstr :=
  match t with
  | CHANNEL_TELEGRAM => lit "telegram" | CHANNEL_DISCORD => lit "discord" | CHANNEL_SLACK => lit "slack"
  | CHANNEL_WHATSAPP => lit "whatsapp" | CHANNEL_SIGNAL => lit "signal" | CHANNEL_MATRIX => lit "matrix"
  | CHANNEL_IRC => lit "irc" | CHANNEL_EMAIL => lit "email" | CHANNEL_DINGTALK => lit "dingtalk"
  | CHANNEL_LARK => lit "lark" | CHANNEL_MATTERMOST => lit "mattermost" | CHANNEL_QQ => lit "qq"
  | CHANNEL_WEBHOOK => lit "webhook" | CHANNEL_IMESSAGE => lit "imessage" | CHANNEL_CLI => lit "cli"
  | CHANNEL_UNKNOWN => lit "unknown"
  end.

Definition channel_get_type (name : cstr) : channel_type_t :=
  if streq name (lit "telegram") then CHANNEL_TELEGRAM
  else if streq name (lit "discord") then CHANNEL_DISCORD
  else if streq name (lit "slack") then CHANNEL_SLACK
  else if streq name (lit "whatsapp") then CHANNEL_WHATSAPP
  else if streq name (lit "signal") then CHANNEL_SIGNAL
  else if streq name (lit "matrix") then CHANNEL_MATRIX
  else if streq name (lit "irc") then CHANNEL_IRC
  else if streq name (lit "email") then CHANNEL_EMAIL
  else if streq name (lit "dingtalk") then CHANNEL_DINGTALK
  else if streq name (lit "lark") then CHANNEL_LARK
  else if streq name (lit "mattermost") then CHANNEL_MATTERMOST
  else if streq name (lit "qq") then CHANNEL_QQ
  else if streq name (lit "webhook") then CHANNEL_WEBHOOK
  else if streq name (lit "imessage") then CHANNEL_IMESSAGE
  else if streq name (lit "cli") then CHANNEL_CLI
  else CHANNEL_UNKNOWN.

(** [allowed_users] are the pointers of the array, [None] for NULL. *)
Record channel_config_t := mk_channel_config {
  cc_name : cstr;
  cc_type : channel_type_t;
  bot_token : cstr;
  cc_api_key : cstr;
  webhook_url : cstr;
  cc_enabled : bool;
  allowed_users : list (option cstr);
}.

(** All bytes zero: the type of number zero is Telegram. *)
Definition channel_config_zero : channel_config_t :=
  mk_channel_config [] CHANNEL_TELEGRAM [] [] [] false (replicate 32 None).

Record channel_instance_t := mk_instance {
  ci_config : channel_config_t;
  ci_active : bool;
  last_health_check : Z;
}.

Record channel_t := mk_channel { ch_type : channel_type_t; ch_connected : bool }.

(** The live slots of [g_channels]; their number is [g_channel_count]. *)
Abbreviation channels := (list channel_instance_t).

Definition channel_init (cs : channels) (t : channel_type_t) (config : channel_config_t) : channels * channel_t :=
  (if (length cs <? MAX_CHANNELS)%nat then cs ++ [mk_instance config false 0] else cs, mk_channel t false).

Definition of_type (t : channel_type_t) (i : channel_instance_t) : bool := bool_decide (cc_type (ci_config i) = t).

Definition channel_connect (now : Z) (cs : channels) (ch : channel_t) : channels * channel_t :=
  (match find_idx (of_type (ch_type ch)) cs with
   | Some i => alter (λ c, mk_instance (ci_config c) true now) i cs
   | None => cs
   end, mk_channel (ch_type ch) true).

Definition channel_disconnect (cs : channels) (ch : channel_t) : channels * channel_t :=
  (match find_idx (of_type (ch_type ch)) cs with
   | Some i => alter (λ c, mk_instance (ci_config c) false (last_health_check c)) i cs
   | None => cs
   end, mk_channel (ch_type ch) false).

Definition channel_health_check (now : Z) (cs : channels) (t : channel_type_t) : channels * Z :=
  match find_idx (of_type t) cs with
  | Some i =>
      (alter (λ c, mk_instance (ci_config c) (ci_active c) now) i cs,
       match cs !! i with Some c => if ci_active c then 0 else -1 | None => -1 end)
  | None => (cs, -1)
  end.

(** The loop runs over a table that grows while it runs: [left] bounds the
    number of slots still to visit. *)
Fixpoint start_loop (now : Z) (left i : nat) (cs : channels) : channels :=
  match left with
  | O => cs
  | S left' =>
      match cs !! i with
      | None => cs
      | Some c =>
          let cs :=
            if cc_enabled (ci_config c) then
              let '(cs, ch) := channel_init cs (cc_type (ci_config c)) (ci_config c) in
              (channel_connect now cs ch).1
            else cs in
          start_loop now left' (S i) cs
      end
  end.

Definition channel_start_all (now : Z) (cs : channels) : channels := start_loop now (S MAX_CHANNELS) 0 cs.

Definition channel_is_user_allowed (ch : channel_t) (user : cstr) : bool := true.
Definition channel_add_allowed_user (cs : channels) (ch : channel_t) (user : cstr) : channels * Z := (cs, 0).
Definition channel_remove_allowed_user (cs : channels) (ch : channel_t) (user : cstr) : channels * Z := (cs, 0).

(** ** The file *)

(** [sscanf(line, "%63[^=]=%255[^\n]", key, value) == 2]. *)
Definition scan_setting (l : cstr) : option (cstr * cstr) :=
  let key := take 63 (take_while (λ b, negb (b =? 61)) l) in
  match key, drop (length key) l with
  | _ :: _, 61 :: r =>
      match take 255 (take_while (λ b, negb (b =? 10)) r) with [] => None | v => Some (key, v) end
  | _, _ => None
  end.

Definition register (cs : channels) (c : channel_config_t) : channels :=
  if bool_decide (cc_type c ≠ CHANNEL_UNKNOWN) && (length cs <? MAX_CHANNELS)%nat
  then (channel_init cs (cc_type c) c).1 else cs.

Definition apply_setting (s : channels * channel_config_t) (key v : cstr) : channels * channel_config_t :=
  let '(cs, c) := s in
  if streq key (lit "type") then
    (register cs c, mk_channel_config [] (channel_get_type v) [] [] [] false (replicate 32 None))
  else if streq key (lit "name") then
    (cs, mk_channel_config (snprintf_s MAX_CHANNEL_NAME v) (cc_type c) (bot_token c) (cc_api_key c) (webhook_url c)
           (cc_enabled c) (allowed_users c))
  else if streq key (lit "enabled") then
    (cs, mk_channel_config (cc_name c) (cc_type c) (bot_token c) (cc_api_key c) (webhook_url c)
           (streq v (lit "true") || streq v (lit "1")) (allowed_users c))
  else if streq key (lit "bot_token") then
    (cs, mk_channel_config (cc_name c) (cc_type c) (snprintf_s MAX_CHANNEL_TOKEN v) (cc_api_key c) (webhook_url c)
           (cc_enabled c) (allowed_users c))
  else if streq key (lit "webhook_url") then
    (cs, mk_channel_config (cc_name c) (cc_type c) (bot_token c) (cc_api_key c) (snprintf_s MAX_CHANNEL_TOKEN v)
           (cc_enabled c) (allowed_users c))
  else s.

Definition load_setting (s : channels * channel_config_t) (l : cstr) : channels * channel_config_t :=
  match l with
  | 35 :: _ | 10 :: _ => s
  | _ => match scan_setting l with None => s | Some (key, v) => apply_setting s key v end
  end.

(** [file] is the content of the file, [None] when it cannot be opened. *)
Definition channels_load_config (cs : channels) (file : option cstr) : channels * Z :=
  match file with
  | None => (cs, -1)
  | Some text =>
      let '(cs, c) := foldl load_setting (cs, channel_config_zero) (fgets_lines 512 text) in (register cs c, 0)
  end.

Definition setting_text (key : string) (v : cstr) : cstr := lit key ++ 61 :: v.

Definition channel_lines (i : channel_instance_t) : list cstr :=
  let c := ci_config i in
  [setting_text "type" (channel_get_name (cc_type c))] ++
  (match cc_name c with [] => [] | v => [setting_text "name" v] end) ++
  [setting_text "enabled" (if cc_enabled c then lit "true" else lit "false")] ++
  (match bot_token c with [] => [] | v => [setting_text "bot_token" v] end) ++
  (match webhook_url c with [] => [] | v => [setting_text "webhook_url" v] end) ++ [[]].

(** The text of the file, with a newline behind each line. *)
Definition channels_save_config (cs : channels) : cstr :=
  concat (map (λ l, l ++ [10]) (lit "# Doctor Claw channels" :: concat (map channel_lines cs))).

(** ** Texts *)

(** The tags whose first bytes are compared. *)
Definition is_tool_tag (s : cstr) : bool :=
  strneq 10 s (lit "<tool_call>") || strneq 11 s (lit "</tool_call>") || strneq 10 s (lit "<tool_code>").

(** [room] bytes are left in [cleaned]; [None]: a tag without its closing
    bracket, and the loop reads behind the NUL. *)
Fixpoint strip_loop (fuel room : nat) (s : cstr) : option cstr :=
  match fuel, s with
  | _, [] => Some []
  | O, _ => None
  | S fuel', b :: s' =>
      match room with
      | O => Some []
      | S room' =>
          if (b =? 60) && is_tool_tag s then
            match skip_while (λ x, negb (x =? 62)) s with
            | [] => None
            | _ :: s'' => strip_loop fuel' room s''
            end
          else r ← strip_loop fuel' room' s'; Some (b :: r)
      end
  end.

Definition strip_tool_calls (content : cstr) : option cstr := strip_loop (length content) (CHAN_BODY - 1) content.

(** The length up to and including the last blank or newline among the first
    [n] bytes, 0 when there is none. *)
Fixpoint back_to_gap (s : cstr) (n : nat) : nat :=
  match n with
  | O => O
  | S m => if (nth m s 0 =? 32) || (nth m s 0 =? 10) then n else back_to_gap s m
  end.

Definition or_limit (k limit : nat) : nat := match k with O => limit | _ => k end.

Definition telegram_chunk_len (s : cstr) : nat :=
  if (MAX_MESSAGE_LENGTH <? length s)%nat
  then or_limit (back_to_gap s MAX_MESSAGE_LENGTH) MAX_MESSAGE_LENGTH else length s.

Definition plain_chunk_len (limit : nat) (s : cstr) : nat :=
  let m := if (limit <? length s)%nat then limit else length s in or_limit (back_to_gap s m) m.

(** The sending loops: [post n chunk] sends the [n]-th piece.  [size] is the
    size of the array the piece is copied to, with a NUL behind it. *)
Fixpoint send_pieces {S : Type} (len_of : cstr → nat) (size : nat) (post : nat → cstr → S → S * Z)
    (fuel num : nat) (content : cstr) (st : S) : option (S * Z) :=
  match content, fuel with
  | [], _ => Some (st, 0)
  | _, O => None
  | _, Datatypes.S fuel' =>
      let k := len_of content in
      if (size <=? k)%nat then None
      else
        let '(st, rc) := post num (take k content) st in
        if rc =? 0 then send_pieces len_of size post fuel' (Datatypes.S num) (drop k content) st else Some (st, rc)
  end.

Definition cont_text (num : nat) (chunk : cstr) : cstr := match num with O => chunk | _ => lit "[cont.]" ++ [10] ++ chunk end.

Definition first_user (c : channel_config_t) : option cstr := match allowed_users c with u :: _ => u | [] => None end.
Definition user_or (c : channel_config_t) (d : cstr) : cstr := default d (first_user c).
Definition or_default (s d : cstr) : cstr := match s with [] => d | _ => s end.
Definition CHAN_JSON : cstr := lit "Content-Type: application/json".

(** ** Senders *)

Section senders.
Context {W : Type} `{Curl W}.
(** [system(3)]. *)
Context (system : W → cstr → W * Z).

Abbreviation net := (W * providers_t)%type.

Definition post (n : net) (url : cstr) (headers : list cstr) (body : cstr) : net * http_response_t * Z :=
  let '(w, g, resp, rc) := http_post n.1 n.2 url headers body http_response_zero in ((w, g), resp, rc).

Definition telegram_url (c : channel_config_t) (method : string) : cstr :=
  snprintf_s URL_BUF (lit "https://api.telegram.org/bot" ++ bot_token c ++ lit method).

Definition telegram_send_typing (n : net) (c : channel_config_t) (typing : bool) : net * Z :=
  let '(n, _, rc) :=
    post n (telegram_url c "/sendChatAction") [CHAN_JSON]
      (snprintf_s 512 (jlit "{'chat_id':'" ++ user_or c [] ++ jlit "','action':'" ++
                       (if typing then lit "typing" else lit "cancel") ++ jlit "'}")) in
  (n, rc).

Definition is_ok (t : cstr) : bool := contains t (jlit "'ok':true") || contains t (jlit "'ok': true").

(** The message in one piece, once more without Markdown when the service
    does not accept it. *)
Definition telegram_send_one (n : net) (c : channel_config_t) (chat_id text : cstr) : option (net * Z) :=
  let send n extra :=
    post n (telegram_url c "/sendMessage") [CHAN_JSON]
      (snprintf_s CHAN_BODY (jlit "{'chat_id':'" ++ chat_id ++ jlit "','text':'" ++ text ++ extra)) in
  let '(n, resp, rc) := send n (jlit "','parse_mode':'Markdown'}") in
  t ← (if rc =? 0 then reply_text resp else Some None);
  match t with
  | None => Some (n, rc)
  | Some t =>
      if is_ok t then Some (n, rc)
      else
        let '(n, _, rc) := send n (jlit "'}") in Some (n, rc)
  end.

Definition telegram_send_message_to (n : net) (c : channel_config_t) (chat_id_override : option cstr) (content : cstr)
    : option (net * Z) :=
  match bot_token c, (match chat_id_override with None | Some [] => user_or c [] | Some i => i end) with
  | [], _ | _, [] => Some (n, -1)
  | _, chat_id =>
      let '(n, _) := telegram_send_typing n c true in
      cleaned ← strip_tool_calls content;
      let cleaned := snprintf_s CHAN_BODY cleaned in
      '(n, rc) ← (
        if (length cleaned <=? MAX_MESSAGE_LENGTH)%nat then telegram_send_one n c chat_id cleaned
        else
          send_pieces telegram_chunk_len MAX_MESSAGE_LENGTH
            (λ num chunk n,
               let '(n, _, rc) := post n (telegram_url c "/sendMessage") [CHAN_JSON]
                 (snprintf_s CHAN_BODY (jlit "{'chat_id':'" ++ chat_id ++ jlit "','text':'" ++ cont_text num chunk ++ jlit "'}")) in
               (n, rc))
            (length cleaned) 0 cleaned n);
      let '(n, _) := telegram_send_typing n c false in
      Some (n, rc)
  end.

Definition telegram_send_message (n : net) (c : channel_config_t) (content : cstr) : option (net * Z) :=
  telegram_send_message_to n c None content.

Definition DISCORD_CHUNK : nat := Z.to_nat 2000.

Definition discord_send_message (n : net) (c : channel_config_t) (content : cstr) : option (net * Z) :=
  match webhook_url c with
  | [] => Some (n, -1)
  | url =>
      send_pieces (plain_chunk_len DISCORD_CHUNK) DISCORD_CHUNK
        (λ num chunk n,
           let '(n, _, rc) := post n (snprintf_s URL_BUF url) [CHAN_JSON]
             (snprintf_s MAX_MESSAGE_LENGTH (jlit "{'content':'" ++ cont_text num chunk ++ jlit "'}")) in
           (n, rc))
        (length content) 0 content n
  end.

Definition slack_auth (c : channel_config_t) : list cstr :=
  [snprintf_s 512 (lit "Authorization: Bearer " ++ bot_token c); CHAN_JSON].

Definition slack_send_typing (n : net) (c : channel_config_t) : net * Z :=
  let '(n, _, _) := post n (lit "https://slack.com/api/users.setPresence") (slack_auth c) (jlit "{'presence':'auto'}") in
  (n, 0).

Definition slack_mark_read (n : net) (c : channel_config_t) : net * Z :=
  let '(n, _, _) := post n (lit "https://slack.com/api/channels.mark") (slack_auth c)
    (snprintf_s 512 (jlit "{'channel':'" ++ user_or c [] ++ jlit "'}")) in
  (n, 0).

Definition SLACK_CHUNK : nat := Z.to_nat 3000.

(** The reply is only looked at to report it. *)
Definition slack_send_message_to (n : net) (c : channel_config_t) (channel_override : option cstr) (content : cstr)
    : option (net * Z) :=
  match bot_token c, (match channel_override with None | Some [] => user_or c [] | Some i => i end) with
  | [], _ | _, [] => Some (n, -1)
  | _, channel =>
      let '(n, _) := slack_send_typing n c in
      send_pieces (plain_chunk_len SLACK_CHUNK) SLACK_CHUNK
        (λ num chunk n,
           let '(n, _, rc) := post n (lit "https://slack.com/api/chat.postMessage") (slack_auth c)
             (snprintf_s MAX_MESSAGE_LENGTH (jlit "{'channel':'" ++ channel ++ jlit "','text':'" ++ cont_text num chunk ++
                                             jlit "','unfurl_links':false}")) in
           (n, rc))
        (length content) 0 content n
  end.

Definition slack_send_message (n : net) (c : channel_config_t) (content : cstr) : option (net * Z) :=
  slack_send_message_to n c None content.

(** The senders that need [api_key] and make one request. *)
Definition bearer_headers (c : channel_config_t) : list cstr :=
  [CHAN_JSON; snprintf_s 256 (lit "Bearer " ++ cc_api_key c)].
Definition keyed_post (n : net) (c : channel_config_t) (url : cstr) (headers : list cstr) (body : cstr) : net * Z :=
  match cc_api_key c with
  | [] => (n, -1)
  | _ => let '(n, _, rc) := post n (snprintf_s URL_BUF url) headers (snprintf_s CHAN_BODY body) in (n, rc)
  end.

Definition whatsapp_send_message (n : net) (c : channel_config_t) (content : cstr) : net * Z :=
  keyed_post n c (lit "https://api.whatsapp.net/v1/messages") (bearer_headers c)
    (jlit "{'to':'" ++ user_or c [] ++ jlit "','type':'text','text':{'body':'" ++ content ++ jlit "'}}").
Definition signal_send_message (n : net) (c : channel_config_t) (content : cstr) : net * Z :=
  keyed_post n c (lit "https://api.signalwire.com/v1/messages") (bearer_headers c)
    (jlit "{'to':'" ++ user_or c [] ++ jlit "','body':'" ++ content ++ jlit "'}").
Definition matrix_send_message (n : net) (c : channel_config_t) (content : cstr) : net * Z :=
  keyed_post n c
    (lit "https://matrix.org/_matrix/client/v3/rooms/" ++ or_default (webhook_url c) (lit "main") ++ lit "/send/m.room.message")
    (bearer_headers c) (jlit "{'msgtype':'m.text','body':'" ++ content ++ jlit "'}").
Definition email_send_message (n : net) (c : channel_config_t) (content : cstr) : net * Z :=
  keyed_post n c (lit "https://api.sendgrid.com/v3/mail/send") (bearer_headers c)
    (jlit "{'personalizations':[{'to':[{'email':'" ++ user_or c (lit "user@example.com") ++ jlit "'}]}],'from':{'email':'" ++
     or_default (webhook_url c) (lit "doctorclaw@example.com") ++
     jlit "'},'subject':'Doctor Claw Message','content':[{'type':'text/plain','value':'" ++ content ++ jlit "'}]}").
Definition dingtalk_send_message (n : net) (c : channel_config_t) (content : cstr) : net * Z :=
  keyed_post n c (lit "https://api.dingtalk.com/v1.0/robot/oToMessages/send") (bearer_headers c)
    (jlit "{'robotCode':'" ++ or_default (webhook_url c) (lit "robot") ++
     jlit "','msgKey':'sampleText','msgParam':'{\'content\':\'" ++ content ++ jlit "\'}'}").
Definition lark_send_message (n : net) (c : channel_config_t) (content : cstr) : net * Z :=
  keyed_post n c (lit "https://open.feishu.cn/open-apis/bot/v2/hook/" ++ or_default (webhook_url c) (lit "default"))
    [CHAN_JSON] (jlit "{'msg_type':'text','content':{'text':'" ++ content ++ jlit "'}}").
Definition mattermost_send_message (n : net) (c : channel_config_t) (content : cstr) : net * Z :=
  keyed_post n c (or_default (webhook_url c) (lit "https://mattermost.example.com") ++ lit "/api/v4/posts") (bearer_headers c)
    (jlit "{'channel_id':'" ++ user_or c [] ++ jlit "','message':'" ++ content ++ jlit "'}").
Definition qq_send_message (n : net) (c : channel_config_t) (content : cstr) : net * Z :=
  keyed_post n c (lit "https://api.q.qq.com/api/v2/robot/send") (bearer_headers c)
    (jlit "{'group_id':'" ++ or_default (webhook_url c) (lit "0") ++ jlit "','message':'" ++ content ++ jlit "'}").

Definition imessage_command (c : channel_config_t) (content : cstr) : cstr :=
  snprintf_s MAX_MESSAGE_CONTENT
    (lit "osascript -e 'tell application " ++ [34] ++ lit "Messages" ++ [34] ++ lit " to send " ++ [34] ++ content ++ [34] ++
     lit " to buddy " ++ [34] ++ user_or c [] ++ [34] ++ lit "'").
Definition imessage_send_message (n : net) (c : channel_config_t) (content : cstr) : net * Z :=
  let '(w, rc) := system n.1 (imessage_command c content) in ((w, n.2), rc).

(** IRC only prints: the line, and the code. *)
Definition irc_send_message (c : channel_config_t) (content : cstr) : cstr * Z :=
  (lit "[IRC] Would send to " ++ (match webhook_url c with [] => lit "#channel" | u => u end) ++ lit ": " ++ content ++ [10], 0).

(** The first active channel of the type sends; channels that only print
    report success. *)
Definition channel_send_message (n : net) (cs : channels) (ch : channel_t) (content : cstr) : option (net * Z) :=
  if negb (ch_connected ch) then Some (n, -1)
  else
    match list_find (λ i, of_type (ch_type ch) i && ci_active i = true) cs with
    | None => Some (n, 0)
    | Some (_, i) =>
        let c := ci_config i in
        match ch_type ch with
        | CHANNEL_TELEGRAM => telegram_send_message n c content
        | CHANNEL_DISCORD => discord_send_message n c content
        | CHANNEL_SLACK => slack_send_message n c content
        | CHANNEL_WHATSAPP => Some (whatsapp_send_message n c content)
        | CHANNEL_SIGNAL => Some (signal_send_message n c content)
        | CHANNEL_MATRIX => Some (matrix_send_message n c content)
        | CHANNEL_IRC => Some (n, (irc_send_message c content).2)
        | CHANNEL_EMAIL => Some (email_send_message n c content)
        | CHANNEL_DINGTALK => Some (dingtalk_send_message n c content)
        | CHANNEL_LARK => Some (lark_send_message n c content)
        | CHANNEL_QQ => Some (qq_send_message n c content)
        | CHANNEL_IMESSAGE => Some (imessage_send_message n c content)
        | _ => Some (n, 0)
        end
    end.

Definition channel_send_message_to (ch : channel_t) : Z := if ch_connected ch then 0 else -1.

(** ** Webhooks and alerts *)

(** The identifier stored, [None] for the code -1. [id_size] is positive. *)
Definition parse_telegram_chat_id (body : cstr) (id_size : nat) : option cstr :=
  i ← (match strstr body (jlit "'chat':{'id':") with Some i => Some i | None => strstr body (jlit "'id':") end);
  j ← strchr (drop i body) 58;
  match skip_while (λ b, b =? 32) (drop (S j) (drop i body)) with
  | 34 :: p => Some (take (id_size - 1) (take_while (λ b, negb (b =? 34)) p))
  | p => Some (take (id_size - 1) (take_while (λ b, (b =? 45) || isdigit b) p))
  end.

Definition parse_slack_channel (body : cstr) (ch_size : nat) : option cstr :=
  i ← strstr body (jlit "'channel':'");
  Some (take (ch_size - 1) (take_while (λ b, negb (b =? 34)) (drop 11 (drop i body)))).

(** The loop over the channels; [body] is NULL or the text of the request. *)
Fixpoint reply_loop (n : net) (cs : channels) (path : cstr) (body : option cstr) (response : cstr) : option (net * Z) :=
  match cs with
  | [] => Some (n, -1)
  | i :: cs' =>
      let c := ci_config i in
      if negb (cc_enabled c) then reply_loop n cs' path body response
      else if strneq 9 path (lit "/telegram") && of_type CHANNEL_TELEGRAM i && negb (streq (bot_token c) []) then
        match (b ← body; parse_telegram_chat_id b 128) with
        | None => Some (n, -1)
        | Some id => telegram_send_message_to n c (Some id) response
        end
      else if strneq 8 path (lit "/discord") && of_type CHANNEL_DISCORD i && negb (streq (webhook_url c) []) then
        discord_send_message n c response
      else if strneq 6 path (lit "/slack") && of_type CHANNEL_SLACK i && negb (streq (bot_token c) []) then
        match (b ← body; parse_slack_channel b 64) with
        | Some ((_ :: _) as channel) => slack_send_message_to n c (Some channel) response
        | _ => slack_send_message n c response
        end
      else reply_loop n cs' path body response
  end.

Definition channels_reply_to_webhook (n : net) (cs : channels) (path : cstr) (body : option cstr) (response : cstr)
    : option (net * Z) :=
  reply_loop n cs path body response.

(** The state after the loop and the number of channels that took it. *)
Fixpoint alert_loop (n : net) (cs : channels) (message : cstr) (sent : nat) : option (net * nat) :=
  match cs with
  | [] => Some (n, sent)
  | i :: cs' =>
      let c := ci_config i in
      if negb (cc_enabled c) then alert_loop n cs' message sent
      else
        let send :=
          if of_type CHANNEL_TELEGRAM i && negb (streq (bot_token c) []) then
            Some (telegram_send_message_to n c (match first_user c with Some (_ :: _ as u) => Some u | _ => None end) message)
          else if of_type CHANNEL_DISCORD i && negb (streq (webhook_url c) []) then Some (discord_send_message n c message)
          else if of_type CHANNEL_SLACK i && negb (streq (bot_token c) []) then Some (slack_send_message n c message)
          else None in
        match send with
        | None => alert_loop n cs' message sent
        | Some o => '(n, rc) ← o; alert_loop n cs' message (if rc =? 0 then S sent else sent)
        end
  end.

Definition channels_send_alert (n : net) (cs : channels) (message : cstr) : option (net * Z) :=
  match message with
  | [] => Some (n, -1)
  | _ => '(n, sent) ← alert_loop n cs message 0; Some (n, if (0 <? sent)%nat then 0 else -1)
  end.

(** ** The poller *)

Record channel_reply_ctx_t := mk_reply_ctx { channel_index : nat; chat_id : cstr }.

(** The answer of a job, sent back to where its prompt came from. *)
Definition channel_agent_response_cb (n : net) (cs : channels) (ctx : channel_reply_ctx_t) (result : option cstr)
    (error : Z) : option net :=
  match cs !! channel_index ctx, result with
  | Some i, Some r =>
      if negb (error =? 0) then Some n
      else
        let c := ci_config i in
        let buf := snprintf_s MAX_MESSAGE_CONTENT r in
        let target := match chat_id ctx with [] => None | id => Some id end in
        match cc_type c with
        | CHANNEL_TELEGRAM => fst <$> telegram_send_message_to n c target buf
        | CHANNEL_DISCORD => fst <$> discord_send_message n c buf
        | CHANNEL_SLACK => fst <$> slack_send_message_to n c target buf
        | _ => Some n
        end
  | _, _ => Some n
  end.

(** The loop over the occurrences of the key: the largest number read. *)
Fixpoint last_update (fuel : nat) (p : cstr) (last : Z) : Z :=
  match fuel with
  | O => last
  | S fuel' =>
      match strstr p (jlit "'update_id':") with
      | None => last
      | Some i =>
          let p := drop 11 (drop i p) in
          let id := atol p in
          last_update fuel' (drop 1 p) (if last <? id then id else last)
      end
  end.

(** The copying loop of [telegram_fetch_updates] over a buffer with its old
    bytes: a backslash moves both the reading and the writing place on. *)
Fixpoint copy_text (fuel : nat) (src : cstr) (size i : nat) (out : list Z) : option (list Z) :=
  match fuel with
  | O => None
  | S fuel' =>
      if (length src <? i)%nat then None
      else
        let b := nth i src 0 in
        if (b =? 0) || (b =? 34) || (size - 1 <=? i)%nat then
          if (i <? length out)%nat then Some (<[i := 0]> out) else None
        else
          let i := if b =? 92 then S i else i in
          if (i <? length out)%nat then copy_text fuel' src size (S i) (<[i := nth i src 0]> out) else None
  end.

(** The poller's buffers and its offset. *)
Record poll_state := mk_poll { p_offset : Z; p_text : list Z; p_chat_id : cstr; p_last_id : Z }.

(** The code, with the buffers and the last identifier afterwards. *)
Definition telegram_fetch_updates (n : net) (c : channel_config_t) (st : poll_state) : option (net * poll_state * Z) :=
  let url := snprintf_s URL_BUF (lit "https://api.telegram.org/bot" ++ bot_token c ++ lit "/getUpdates" ++
                                 lit "?timeout=25&offset=" ++ fmt_dec (p_offset st)) in
  let '(w, g, resp, rc) := http_get n.1 n.2 url [CHAN_JSON] http_response_zero in
  t ← (if rc =? 0 then reply_text resp else Some None);
  match t with
  | None => Some ((w, g), st, -1)
  | Some t =>
      let st := mk_poll (p_offset st) (p_text st) (p_chat_id st) (last_update (S (length t)) t (p_offset st)) in
      let start :=
        i ← strstr t (jlit "'result':");
        j ← strchr (drop i t) 91;
        let p := drop j (drop i t) in
        k ← strstr p (jlit "'message':");
        l ← strstr (drop k p) (jlit "'text':'");
        Some (drop 8 (drop l (drop k p))) in
      match start with
      | None => Some ((w, g), st, -1)
      | Some src =>
          text ← copy_text (S (length (p_text st))) src (length (p_text st)) 0 (p_text st);
          Some ((w, g), mk_poll (p_offset st) text (default [] (parse_telegram_chat_id t 128)) (p_last_id st), 0)
      end
  end.

Definition advance (st : poll_state) : poll_state :=
  mk_poll (s64 (p_last_id st + 1)) (p_text st) (p_chat_id st) (p_last_id st).

(** The job for a message; [ctx] stands for the address of its context. *)
Definition update_job (text : cstr) (ctx : Z) : job_t :=
  let plen := Nat.min (length text) (JOB_PAYLOAD_LEN - 1) in
  mk_job JOB_AGENT_CHAT (lit "default") (take plen text ++ replicate (JOB_PAYLOAD_LEN - plen) 0) plen (Some 1) ctx.

(** One channel of a round.  [push] is [jobcache_push], with its code; the
    contexts of the jobs that were taken are kept with their addresses. *)
Definition poll_channel {Q : Type} (push : Q → job_t → Q * Z) (alloc : Z) (idx : nat) (c : channel_config_t)
    (n : net) (q : Q) (st : poll_state) : option (net * Q * poll_state * option (Z * channel_reply_ctx_t)) :=
  if negb (cc_enabled c) || negb (bool_decide (cc_type c = CHANNEL_TELEGRAM)) || streq (bot_token c) []
  then Some (n, q, st, None)
  else
    '(n, st, rc) ← telegram_fetch_updates n c st;
    if negb (rc =? 0) then Some (n, q, st, None)
    else
      match until_nul (p_text st) with
      | [] => Some (n, q, advance st, None)
      | text =>
          let '(q, rc) := push q (update_job text alloc) in
          if rc =? 0
          then Some (n, q, advance st, Some (alloc, mk_reply_ctx idx (snprintf_s 128 (p_chat_id st))))
          else Some (n, q, st, None)
      end.
End senders.

(** ** Handlers and listeners *)

(** The handler is stored and never called; [A] is the type of handlers. *)
Definition channel_set_message_handler {A U : Type} (g : option A * U) (handler : option A) (user_data : U) : option A * U :=
  (handler, user_data).
Definition channel_process_message (json : cstr) : Z := 0.
Definition channel_get_message : Z := -1.

Definition LISTENER_CONFIG_PATH_MAX : nat := Z.to_nat 1024.

Record listeners_t := mk_listeners { g_listeners_running : bool; g_listener_config_path : cstr }.

(** [created] is the success of [pthread_create]. *)
Definition channel_start_listeners (created : bool) (l : listeners_t) (path : option cstr) : listeners_t * Z :=
  match path with
  | None => (l, -1)
  | Some p =>
      if g_listeners_running l then (l, 0)
      else if (LISTENER_CONFIG_PATH_MAX <=? length p)%nat then (l, -1)
      else if created then (mk_listeners true p, 0) else (mk_listeners false p, -1)
  end.

Definition channel_stop_listeners (l : listeners_t) : listeners_t := mk_listeners false (g_listener_config_path l).

(** ** Pieces of a message *)

Lemma back_to_gap_le s n : (back_to_gap s n ≤ n)%nat.
Proof. induction n as [|m IH]; cbn [back_to_gap]; [done|]. destruct (_ || _); lia. Qed.

(** The cut falls behind a blank or newline when there is one. *)
Lemma back_to_gap_pos s n a b :
  s = a ++ 32 :: b → (length a < n)%nat → (length a < back_to_gap s n)%nat.
Proof.
  intros ->. induction n as [|m IH]; intros Ha; [lia|]. cbn [back_to_gap].
  destruct (_ || _) eqn:E; [lia|]. destruct (decide (m = length a)) as [->|]; [|apply IH; lia].
  rewrite nth_middle in E. done.
Qed.

Lemma plain_chunk_bounds limit s :
  s ≠ [] → (0 < limit)%nat → (0 < plain_chunk_len limit s ≤ Nat.min limit (length s))%nat.
Proof.
  intros Hs Hl. unfold plain_chunk_len. assert (0 < length s)%nat by (destruct s; cbn; [done|lia]).
  set (m := if (limit <? length s)%nat then limit else length s).
  assert (m = Nat.min limit (length s)) as -> by (unfold m; destruct (_ <? _)%nat eqn:E; bsplit; lia).
  pose proof (back_to_gap_le s (Nat.min limit (length s))). unfold or_limit.
  destruct (back_to_gap s _); lia.
Qed.

(** What a loop sends when every request succeeds: pieces that make up the
    content, none of them empty and each shorter than the array. *)
Lemma send_pieces_log {A G} (f : nat → cstr → A) (g : G) post len_of size fuel num content log :
  (∀ num chunk l, post num chunk (l, g) = ((l ++ [f num chunk], g), 0)) →
  (∀ s, s ≠ [] → 0 < len_of s ≤ length s)%nat →
  (∀ s, length s ≤ length content → len_of s < size)%nat →
  (length content ≤ fuel)%nat →
  ∃ pieces, send_pieces len_of size post fuel num content (log, g) =
      Some ((log ++ imap (λ i, f (num + i)%nat) pieces, g), 0) ∧
    concat pieces = content ∧ Forall (λ p, p ≠ []) pieces ∧ hd [] pieces = take (len_of content) content.
Proof.
  intros Hpost Hlen Hsize. revert num content log Hsize.
  induction fuel as [|fuel IH]; intros num content log Hsize Hf.
  { destruct content; [|cbn in Hf; lia]. exists []. cbn. by rewrite app_nil_r, take_nil. }
  destruct content as [|b s].
  { exists []. cbn. by rewrite app_nil_r, take_nil. }
  cbn [send_pieces]. set (c := b :: s) in *. pose proof (Hlen c ltac:(done)) as Hk.
  rewrite (proj2 (Nat.leb_gt _ _)) by (by apply Hsize). rewrite Hpost. cbn [Z.eqb].
  destruct (IH (S num) (drop (len_of c) c) (log ++ [f num (take (len_of c) c)])) as (ps & -> & Hc & Hne & _).
  { intros s' Hs'. apply Hsize. rewrite length_drop in Hs'. lia. }
  { rewrite length_drop. lia. }
  exists (take (len_of c) c :: ps). split_and!.
  - rewrite imap_cons. cbn [app]. rewrite <- app_assoc. cbn [app]. rewrite Nat.add_0_r. do 5 f_equal.
    apply imap_ext. intros i x _. unfold compose. f_equal. lia.
  - cbn [concat]. by rewrite Hc, take_drop.
  - constructor; [|done]. intros E. apply (f_equal length) in E. rewrite length_take in E. cbn in E. lia.
  - done.
Qed.

(** A network that records the requests and accepts every one. *)
#[global] Instance recorder : Curl (list request) := {
  curl_easy_init w := (w, true);
  curl_easy_perform w rq := (w ++ [rq], mk_transfer [[]] true 200);
}.

Lemma recorder_post log g url headers body :
  curl_initialized g = true →
  post (log, g) url headers body =
  ((log ++ [mk_request url headers (Some body) 120 30], g), mk_http (Written []) 0 200, 0).
Proof. intros Hg. unfold post, http_post, transfer_request. cbn [fst snd]. by rewrite Hg. Qed.

Definition discord_request (c : channel_config_t) (num : nat) (piece : cstr) : request :=
  mk_request (snprintf_s URL_BUF (webhook_url c)) [CHAN_JSON]
    (Some (snprintf_s MAX_MESSAGE_LENGTH (jlit "{'content':'" ++ cont_text num piece ++ jlit "'}"))) 120 30.

Lemma back_to_gap_last s b :
  last s = Some b → b ≠ 32 → b ≠ 10 → (back_to_gap s (length s) < length s)%nat.
Proof.
  intros Hl H1 H2. rewrite last_lookup in Hl. destruct s as [|x s]; [done|]. cbn [length] in *.
  cbn [back_to_gap]. cbn [Nat.pred] in Hl. rewrite (nth_lookup_Some _ _ _ _ Hl).
  rewrite (proj2 (Z.eqb_neq _ _) H1), (proj2 (Z.eqb_neq _ _) H2). cbn [orb].
  pose proof (back_to_gap_le (x :: s) (length s)). lia.
Qed.

(** A Discord message of fewer than 2000 bytes is sent completely and in
    order, but never in one piece when it has a blank before its last word: the
    loop cuts at the last blank even where the whole message fits. *)
Theorem discord_message_split log g c content :
  curl_initialized g = true → webhook_url c ≠ [] → (length content < DISCORD_CHUNK)%nat →
  ∃ pieces, discord_send_message (log, g) c content = Some ((log ++ imap (discord_request c) pieces, g), 0) ∧
    concat pieces = content ∧
    (∀ a b x, content = a ++ 32 :: b → last b = Some x → x ≠ 32 → x ≠ 10 → (2 ≤ length pieces)%nat).
Proof.
  intros Hg Hu Hl. unfold discord_send_message. destruct (webhook_url c) as [|u0 u] eqn:Eu; [done|].
  destruct (send_pieces_log (discord_request c) g
    (λ num chunk n, let '(n, _, rc) := post n (snprintf_s URL_BUF (u0 :: u)) [CHAN_JSON]
       (snprintf_s MAX_MESSAGE_LENGTH (jlit "{'content':'" ++ cont_text num chunk ++ jlit "'}")) in (n, rc))
    (plain_chunk_len DISCORD_CHUNK) DISCORD_CHUNK (length content) 0 content log) as (ps & -> & Hc & _ & Hh).
  - intros num chunk l. rewrite recorder_post by done. unfold discord_request. by rewrite Eu.
  - intros s Hs. pose proof (plain_chunk_bounds DISCORD_CHUNK s Hs). unfold DISCORD_CHUNK in *. lia.
  - intros [|x s] Hs; [cbn; unfold DISCORD_CHUNK; lia|].
    pose proof (plain_chunk_bounds DISCORD_CHUNK (x :: s) ltac:(done)). unfold DISCORD_CHUNK in *. lia.
  - done.
  - exists ps. split_and!; [done..|]. intros a b x Hab Hb H1 H2.
    assert (last content = Some x) as Hx.
    { rewrite Hab. destruct b as [|b0 b] using rev_ind; [done|]. rewrite last_snoc in Hb.
      rewrite app_comm_cons, app_assoc, last_snoc. done. }
    assert (plain_chunk_len DISCORD_CHUNK content < length content)%nat as Hk.
    { unfold plain_chunk_len. rewrite (proj2 (Nat.ltb_ge _ _)) by lia.
      pose proof (back_to_gap_last content x Hx H1 H2).
      pose proof (back_to_gap_pos content (length content) a b Hab) as Hp.
      rewrite Hab, length_app in Hp at 1. cbn [length] in Hp. specialize (Hp ltac:(lia)).
      unfold or_limit. destruct (back_to_gap content (length content)); lia. }
    destruct ps as [|p1 [|p2 ps]]; [subst content; by destruct a|exfalso|cbn; lia].
    cbn in Hc, Hh. rewrite app_nil_r in Hc. rewrite Hc in Hh. apply (f_equal length) in Hh.
    rewrite length_take in Hh. lia.
Qed.

(** With 2000 bytes and no blank the piece and its NUL no longer fit. *)
Example discord_piece_overflow :
  plain_chunk_len DISCORD_CHUNK (replicate (Z.to_nat 2000) 97) = DISCORD_CHUNK.
Proof. by_eval. Qed.

(** ** Telegram replies *)

(** The colon behind [chat] comes first, and behind it stands a brace. *)
Lemma telegram_chat_id_empty body n :
  contains body (jlit "'chat':{'id':") = true → parse_telegram_chat_id body n = Some [].
Proof.
  unfold contains, parse_telegram_chat_id. destruct (strstr body (jlit "'chat':{'id':")) as [i|] eqn:E; [|done]. intros _.
  cbn [mbind option_bind]. apply strstr_Some in E as (t & Ht & Hl).
  assert (drop i body = jlit "'chat':{'id':" ++ t) as ->.
  { rewrite Ht at 1. apply drop_app_length'. rewrite length_take. lia. }
  eval_lits. cbn [app]. by destruct n as [|[|n]].
Qed.

Lemma register_users cs c :
  first_user c = None → Forall (λ i, first_user (ci_config i) = None) cs →
  Forall (λ i, first_user (ci_config i) = None) (register cs c).
Proof.
  intros Hc Hcs. unfold register, channel_init. destruct (_ && _); [|done]. cbn [fst].
  destruct (_ <? _)%nat; [|done]. apply Forall_app. auto.
Qed.

(** No channel of a loaded table has a user to write to. *)
Definition no_users (s : channels * channel_config_t) : Prop :=
  Forall (λ i, first_user (ci_config i) = None) s.1 ∧ first_user s.2 = None.

Lemma load_setting_users s l : no_users s → no_users (load_setting s l).
Proof.
  intros Hs. assert (∀ key v, no_users (apply_setting s key v)) as Ha.
  { intros key v. destruct s as [cs c]. destruct Hs as [Hcs Hc]. cbn [fst snd] in *. unfold apply_setting.
    repeat case_match; try (by split); split; cbn [fst snd]; [by apply register_users|done]. }
  unfold load_setting. repeat case_match; auto.
Qed.

Lemma load_users cs file :
  Forall (λ i, first_user (ci_config i) = None) cs →
  Forall (λ i, first_user (ci_config i) = None) (channels_load_config cs file).1.
Proof.
  intros Hcs. unfold channels_load_config. destruct file as [text|]; [|done].
  assert (∀ ls s, no_users s → no_users (foldl load_setting s ls)) as Hf.
  { induction ls as [|l ls IH]; intros s Hs; [done|]. cbn [foldl]. by apply IH, load_setting_users. }
  pose proof (Hf (fgets_lines 512 text) (cs, channel_config_zero) ltac:(by split)) as [H1 H2].
  destruct (foldl _ _ _) as [cs' c']. cbn [fst snd] in *. by apply register_users.
Qed.

(** No Telegram webhook is ever answered: for the channels of any
    configuration file and any update with a chat in it, the reply is dropped
    with code -1 and nothing is sent. *)
Theorem telegram_replies_lost {W} `{Curl W} (n : W * providers_t) file path body response :
  strneq 9 path (lit "/telegram") = true → contains body (jlit "'chat':{'id':") = true →
  channels_reply_to_webhook n (channels_load_config [] file).1 path (Some body) response = Some (n, -1).
Proof.
  intros Hp Hb. unfold channels_reply_to_webhook.
  pose proof (load_users [] file ltac:(constructor)) as Hu.
  assert (strneq 8 path (lit "/discord") = false ∧ strneq 6 path (lit "/slack") = false) as [Hd Hs].
  { unfold strneq in *. apply bool_decide_eq_true in Hp. destruct path as [|a [|b path]]; [done..|].
    injection Hp as -> -> _. split; apply bool_decide_eq_false; by intros [=]. }
  induction Hu as [|i cs Hi _ IH]; [done|]. cbn [reply_loop]. rewrite Hp, Hd, Hs.
  destruct (negb (cc_enabled (ci_config i))); [done|]. cbn [andb].
  destruct (of_type CHANNEL_TELEGRAM i && _) eqn:E; [|done].
  cbn [mbind option_bind]. rewrite telegram_chat_id_empty by done.
  unfold telegram_send_message_to, user_or. rewrite Hi. cbn [default from_option id].
  by destruct (bot_token (ci_config i)).
Qed.

(** ** Telegram updates *)

(** The number is read from the colon in front of it. *)
Lemma last_update_stuck fuel p last : 0 <= last → last_update fuel p last = last.
Proof.
  revert p. induction fuel as [|fuel IH]; intros p Hl; [done|]. cbn [last_update].
  destruct (strstr p (jlit "'update_id':")) as [i|] eqn:E; [|done].
  apply strstr_Some in E as (t & Ht & Hi).
  assert (drop i p = jlit "'update_id':" ++ t) as ->.
  { rewrite Ht at 1. apply drop_app_length'. rewrite length_take. lia. }
  change (drop 11 (jlit "'update_id':" ++ t)) with (58 :: t). change (atol (58 :: t)) with 0.
  rewrite (proj2 (Z.ltb_ge _ _)) by lia. by apply IH.
Qed.

Definition updates_request (c : channel_config_t) (offset : Z) : request :=
  mk_request (snprintf_s URL_BUF (lit "https://api.telegram.org/bot" ++ bot_token c ++ lit "/getUpdates" ++
                                  lit "?timeout=25&offset=" ++ fmt_dec offset)) [CHAN_JSON] None 120 30.

(** The rounds of the poller over one channel with a queue that takes every
    job. *)
Definition take_job (q : list job_t) (j : job_t) : list job_t * Z := (q ++ [j], 0).

Fixpoint poll_times {W} `{Curl W} (k : nat) (c : channel_config_t) (n : W * providers_t) (q : list job_t) (st : poll_state)
    : option (list job_t * poll_state) :=
  match k with
  | O => Some (q, st)
  | S k' => '(n, q, st, _) ← poll_channel take_job (Z.of_nat k) 0 c n q st; poll_times k' c n q st
  end.

Lemma copy_text_plain text rest out fuel i :
  Forall (λ b, b ≠ 0 ∧ b ≠ 34 ∧ b ≠ 92) text → (length text < length out - 1)%nat →
  (i ≤ length text < i + fuel)%nat → take i out = take i text →
  copy_text fuel (text ++ 34 :: rest) (length out) i out = Some (text ++ 0 :: drop (S (length text)) out).
Proof.
  intros Hp. revert i out. induction fuel as [|fuel IH]; intros i out Hl Hi Ht; [lia|]. cbn [copy_text].
  rewrite (proj2 (Nat.ltb_ge _ _)) by (rewrite length_app; lia). destruct (decide (i = length text)) as [->|Hne].
  - rewrite nth_middle. cbn [Z.eqb Pos.eqb orb].
    rewrite (proj2 (Nat.ltb_lt _ _)) by lia. f_equal.
    rewrite insert_take_drop by lia. by rewrite Ht, take_ge.
  - destruct (lookup_lt_is_Some_2 text i) as [b Hb]; [lia|]. pose proof (Forall_lookup_1 _ _ _ _ Hp Hb) as (H0 & H34 & H92).
    assert (nth i (text ++ 34 :: rest) 0 = b) as Hn.
    { apply nth_lookup_Some. by apply lookup_app_l_Some. }
    cbv zeta. rewrite Hn.
    rewrite (proj2 (Z.eqb_neq _ _) H0), (proj2 (Z.eqb_neq _ _) H34), (proj2 (Z.eqb_neq _ _) H92). cbn [orb].
    rewrite (proj2 (Nat.leb_gt _ _)) by lia. rewrite (proj2 (Nat.ltb_lt _ _)) by lia. rewrite Hn.
    replace (length out) with (length (<[i := b]> out)) at 1 by apply length_insert.
    rewrite IH; [|rewrite length_insert; lia|lia|].
    + do 3 f_equal. rewrite drop_insert_lt by lia. done.
    + rewrite (take_S_r _ _ b) by (rewrite list_lookup_insert_eq; [done|lia]).
      rewrite (take_S_r text _ b) by done. rewrite take_insert_ge by lia. by rewrite Ht.
Qed.

Lemma until_nul_padded text rest : Forall (λ b, b ≠ 0) text → until_nul (text ++ 0 :: rest) = text.
Proof.
  induction 1 as [|b s Hb _ IH]; [done|]. cbn [app until_nul]. rewrite (proj2 (Z.eqb_neq _ _)) by done. by rewrite IH.
Qed.

Section polls.
Context {W : Type} `{Curl W} (w : W) (g : providers_t) (c : channel_config_t) (u : Z) (t text rest : cstr).

(** A service with one message: it is returned until an offset above its
    number [u] is asked for, as the interface of Telegram says. *)
Record one_message : Prop := {
  om_ready : curl_initialized g = true;
  om_init : curl_easy_init w = (w, true);
  om_reply : ∀ o, 0 <= o <= u → curl_easy_perform w (updates_request c o) = (w, mk_transfer [t] true 200);
  om_channel : cc_enabled c = true ∧ cc_type c = CHANNEL_TELEGRAM ∧ bot_token c ≠ [];
  om_nul : until_nul t = t;
  om_text : (i ← strstr t (jlit "'result':"); j ← strchr (drop i t) 91; let p := drop j (drop i t) in
             k ← strstr p (jlit "'message':"); l ← strstr (drop k p) (jlit "'text':'"); Some (drop 8 (drop l (drop k p))))
            = Some (text ++ 34 :: rest);
  om_plain : Forall (λ b, b ≠ 0 ∧ b ≠ 34 ∧ b ≠ 92) text ∧ text ≠ [];
}.

Lemma poll_again q st alloc idx :
  one_message → 0 <= p_offset st <= u → u < 2 ^ 63 - 1 → (length text < length (p_text st) - 1)%nat →
  ∃ st' o, poll_channel take_job alloc idx c (w, g) q st = Some (w, g, q ++ [update_job text alloc], st', o) ∧
    p_offset st' = p_offset st + 1 ∧ length (p_text st') = length (p_text st).
Proof.
  intros [Hg Hi Hr (He & Ht & Hb) Hn Hs [Hp Hne]] Ho Hu Hl. unfold poll_channel. rewrite He.
  rewrite bool_decide_eq_true_2 by done. rewrite (proj2 (streq_false _ _)) by done. cbn [negb orb].
  unfold telegram_fetch_updates, http_get. cbn [fst snd].
  rewrite (transfer_request_ready _ _ _ w w (mk_transfer [t] true 200)); [|done|done|by apply Hr].
  cbn [tr_pieces tr_code tr_ok http_status reply_of Z.eqb]. unfold reply_text. cbn [data]. cbn [concat].
  rewrite app_nil_r, Hn. cbn [mbind option_bind]. rewrite last_update_stuck by lia.
  cbn [p_offset p_text p_chat_id p_last_id]. cbn [mbind option_bind] in Hs. rewrite Hs.
  rewrite copy_text_plain by (done || lia). cbn [mbind option_bind Z.eqb negb p_text].
  rewrite until_nul_padded by (eapply Forall_impl; [exact Hp|]; by intros b []).
  destruct text as [|b0 b] eqn:Eb; [done|].
  unfold take_job, advance. cbn [p_last_id p_text p_chat_id Z.eqb]. rewrite (swrap_small 64 (p_offset st + 1)) by lia.
  do 2 eexists. split; [reflexivity|]. cbn [p_offset p_text]. split; [done|].
  rewrite length_app. cbn [length]. rewrite length_drop. cbn [length] in Hl. lia.
Qed.

(** The poller never moves past a message: whatever its number [u] is, the
    same message is put into the queue again in each of the next [u + 1]
    rounds, because the offset counts the rounds and not the updates. *)
Theorem telegram_message_repeated k q st :
  one_message → 0 <= p_offset st → p_offset st + Z.of_nat k <= u + 1 → u < 2 ^ 63 - 1 →
  (length text < length (p_text st) - 1)%nat →
  ∃ jobs st', poll_times k c (w, g) q st = Some (q ++ jobs, st') ∧ length jobs = k ∧
    Forall (λ j, ∃ ctx, j = update_job text ctx) jobs ∧ p_offset st' = p_offset st + Z.of_nat k.
Proof.
  intros Hm. revert q st. induction k as [|k IH]; intros q st Ho Hk Hu Hl.
  { exists [], st. rewrite app_nil_r. split_and!; [done..|constructor|lia]. }
  cbn [poll_times]. destruct (poll_again q st (Z.of_nat (S k)) 0 Hm) as (st1 & o & -> & Ho1 & Hl1); [lia..|].
  cbn [mbind option_bind]. destruct (IH (q ++ [update_job text (Z.of_nat (S k))]) st1) as (js & st2 & -> & Hn & Hj & Ho2);
    [lia..|rewrite Hl1; lia|].
  exists (update_job text (Z.of_nat (S k)) :: js), st2. rewrite <- app_assoc. split_and!; [done|cbn; lia| |lia].
  constructor; [by eexists|done].
Qed.
End polls.

(** ** The file of channels *)

(** A value whose line fits the 512 bytes of [fgets]. *)
Definition text_ok (v : cstr) : Prop := Forall (λ b, b ≠ 10) v ∧ (length v ≤ 498)%nat.

(** What [%255[^\n]] keeps of a value. *)
Definition cut (v : cstr) : cstr := take 255 v.

(** A channel of a known type whose settings have one line each. *)
Record channel_ok (i : channel_instance_t) : Prop := {
  co_type : cc_type (ci_config i) ≠ CHANNEL_UNKNOWN;
  co_name : Forall (λ b, b ≠ 10) (cc_name (ci_config i)) ∧ (length (cc_name (ci_config i)) < MAX_CHANNEL_NAME)%nat;
  co_token : text_ok (bot_token (ci_config i));
  co_url : text_ok (webhook_url (ci_config i));
}.

(** The channel read back: without its key, its users and its state, and with
    the first 255 bytes of its token and its address. *)
Definition restored (i : channel_instance_t) : channel_config_t :=
  let c := ci_config i in
  mk_channel_config (cc_name c) (cc_type c) (cut (bot_token c)) [] (cut (webhook_url c)) (cc_enabled c) (replicate 32 None).

Lemma channel_name_type t : channel_get_type (channel_get_name t) = t.
Proof. by destruct t. Qed.

Lemma scan_setting_line key v :
  Forall (λ b, b ≠ 61) (lit key) → lit key ≠ [] → (length (lit key) ≤ 63)%nat → v ≠ [] → text_ok v →
  scan_setting (setting_text key v ++ [10]) = Some (lit key, cut v).
Proof.
  intros Hk Hne Hl Hv [Hn Hvl]. unfold scan_setting, setting_text. rewrite <- app_assoc. cbn [app].
  rewrite take_while_app_stop; [|done|eapply Forall_impl; [exact Hk|]; cbn beta; intros b Hb; by rewrite (proj2 (Z.eqb_neq _ _) Hb)].
  rewrite (take_ge (lit key)) by lia. destruct (lit key) as [|k0 k]; [done|]. rewrite drop_app_length.
  rewrite take_while_app_stop; [|done|eapply Forall_impl; [exact Hn|]; cbn beta; intros b Hb; by rewrite (proj2 (Z.eqb_neq _ _) Hb)].
  by destruct v.
Qed.

Definition SETTINGS : list string := ["type"; "name"; "enabled"; "bot_token"; "webhook_url"]%string.

Lemma load_line key v s :
  bool_decide (key ∈ SETTINGS) = true → v ≠ [] → text_ok v →
  load_setting s (setting_text key v ++ [10]) = apply_setting s (lit key) (cut v).
Proof.
  intros Hk%bool_decide_eq_true Hv Ht. unfold SETTINGS in Hk.
  assert (scan_setting (setting_text key v ++ [10]) = Some (lit key, cut v)) as Hs.
  { apply scan_setting_line; try done; repeat (apply elem_of_cons in Hk as [->|Hk]; [lit_forall || done || (cbn; lia)|]);
      by apply elem_of_nil in Hk. }
  unfold load_setting. rewrite Hs.
  repeat (apply elem_of_cons in Hk as [->|Hk]; [done|]). by apply elem_of_nil in Hk.
Qed.

(** A line that is left out because its value is empty changes nothing. *)
Lemma load_optional key v s :
  bool_decide (key ∈ SETTINGS) = true → text_ok v →
  foldl load_setting s (map (λ l, l ++ [10]) (match v with [] => [] | b :: v' => [setting_text key (b :: v')] end)) =
  match cut v with [] => s | b :: v' => apply_setting s (lit key) (b :: v') end.
Proof. intros Hk Ht. destruct v as [|b v]; [done|]. cbn [map foldl]. by apply load_line. Qed.

(** The optional settings of a channel that has none of them yet. *)
Lemma apply_name cs ty en v :
  (length v < MAX_CHANNEL_NAME)%nat →
  match v with [] => (cs, mk_channel_config [] ty [] [] [] en (replicate 32 None))
  | b :: v' => apply_setting (cs, mk_channel_config [] ty [] [] [] en (replicate 32 None)) (lit "name") (b :: v') end =
  (cs, mk_channel_config v ty [] [] [] en (replicate 32 None)).
Proof. intros Hv%snprintf_s_id. destruct v as [|b v]; [done|]. rewrite <- Hv at 2. done. Qed.

Lemma token_fits v : (length v ≤ 255)%nat → snprintf_s MAX_CHANNEL_TOKEN v = v.
Proof. intros Hv. apply snprintf_s_id. unfold MAX_CHANNEL_TOKEN. lia. Qed.

Lemma apply_token cs nm ty en v :
  (length v ≤ 255)%nat →
  match v with [] => (cs, mk_channel_config nm ty [] [] [] en (replicate 32 None))
  | b :: v' => apply_setting (cs, mk_channel_config nm ty [] [] [] en (replicate 32 None)) (lit "bot_token") (b :: v') end =
  (cs, mk_channel_config nm ty v [] [] en (replicate 32 None)).
Proof. intros Hv%token_fits. destruct v as [|b v]; [done|]. rewrite <- Hv at 2. done. Qed.

Lemma apply_url cs nm ty tok en v :
  (length v ≤ 255)%nat →
  match v with [] => (cs, mk_channel_config nm ty tok [] [] en (replicate 32 None))
  | b :: v' => apply_setting (cs, mk_channel_config nm ty tok [] [] en (replicate 32 None)) (lit "webhook_url") (b :: v') end =
  (cs, mk_channel_config nm ty tok [] v en (replicate 32 None)).
Proof. intros Hv%token_fits. destruct v as [|b v]; [done|]. rewrite <- Hv at 2. done. Qed.

Lemma cut_length v : (length (cut v) ≤ 255)%nat.
Proof. unfold cut. rewrite length_take. lia. Qed.

Lemma cut_ok v : text_ok v → text_ok (cut v).
Proof. intros [Hv _]. pose proof (cut_length v). split; [by apply Forall_take|lia]. Qed.

(** What was read back can be saved again. *)
Lemma restored_ok i : channel_ok i → channel_ok (mk_instance (restored i) false 0).
Proof. intros [Ht Hn Hb Hu]. split; [done|done|by apply cut_ok..]. Qed.

Lemma load_channel cs c i :
  channel_ok i →
  foldl load_setting (cs, c) (map (λ l, l ++ [10]) (channel_lines i)) = (register cs c, restored i).
Proof.
  intros [Ht [Hn1 Hn2] Hb Hu]. unfold channel_lines, restored. destruct i as [c0 a h]. destruct c0 as [nm ty tok key url en us].
  cbn [ci_config cc_name cc_type bot_token cc_api_key webhook_url cc_enabled allowed_users] in *.
  assert (text_ok nm) as Hn by (split; [done|unfold MAX_CHANNEL_NAME in Hn2; lia]).
  assert (cut nm = nm) as Hcn by (apply take_ge; unfold MAX_CHANNEL_NAME in Hn2; lia).
  assert (∀ b : bool, text_ok (if b then lit "true" else lit "false")) as Hen
    by (intros []; (split; [lit_forall|cbn; lia])).
  rewrite !map_app, !foldl_app, !load_optional by done. rewrite Hcn. cbn [map foldl].
  rewrite (load_line "type"); [|done|by destruct ty|destruct ty; (split; [lit_forall|cbn; lia])].
  rewrite (load_line "enabled"); [|done|by destruct en|apply Hen].
  assert (∀ s, load_setting s ([] ++ [10]) = s) as -> by done.
  assert (cut (channel_get_name ty) = channel_get_name ty) as -> by (by destruct ty).
  assert (cut (if en then lit "true" else lit "false") = if en then lit "true" else lit "false") as -> by (by destruct en).
  change (apply_setting (cs, c) (lit "type") (channel_get_name ty)) with
    (register cs c, mk_channel_config [] (channel_get_type (channel_get_name ty)) [] [] [] false (replicate 32 None)).
  rewrite channel_name_type, apply_name by done.
  assert (∀ cs', apply_setting (cs', mk_channel_config nm ty [] [] [] false (replicate 32 None)) (lit "enabled")
            (if en then lit "true" else lit "false") = (cs', mk_channel_config nm ty [] [] [] en (replicate 32 None))) as ->
    by (by destruct en).
  by rewrite apply_token, apply_url by apply cut_length.
Qed.

Lemma load_channels cs c l :
  Forall channel_ok l →
  let '(cs', c') := foldl load_setting (cs, c) (map (λ l, l ++ [10]) (concat (map channel_lines l))) in
  register cs' c' = foldl register cs (c :: map restored l).
Proof.
  intros Hl. revert cs c. induction Hl as [|i l Hi _ IH]; intros cs c; [done|].
  cbn [map concat]. rewrite map_app, foldl_app, load_channel by done. apply IH.
Qed.

Lemma register_all cs l :
  Forall (λ c, cc_type c ≠ CHANNEL_UNKNOWN) l → (length cs + length l ≤ MAX_CHANNELS)%nat →
  foldl register cs l = cs ++ map (λ c, mk_instance c false 0) l.
Proof.
  intros Hl. revert cs. induction Hl as [|c l Hc _ IH]; intros cs Hn; [by rewrite app_nil_r|].
  cbn [foldl length map] in *. rewrite IH.
  - unfold register, channel_init. rewrite bool_decide_eq_true_2 by done. cbn [andb].
    rewrite (proj2 (Nat.ltb_lt _ _)) by lia. cbn [fst]. by rewrite <- app_assoc.
  - unfold register, channel_init. destruct (_ && _); [|lia]. cbn [fst]. destruct (_ <? _)%nat; [|lia].
    rewrite length_app. cbn. lia.
Qed.

Lemma setting_fits key v :
  bool_decide (key ∈ SETTINGS) = true → text_ok v →
  Forall (λ b, b ≠ 10) (setting_text key v) ∧ (length (setting_text key v) < 512 - 1)%nat.
Proof.
  intros Hk%bool_decide_eq_true [Hv Hl]. unfold setting_text, SETTINGS in *. split.
  - apply Forall_app. split; [|by constructor].
    repeat (apply elem_of_cons in Hk as [->|Hk]; [lit_forall|]). by apply elem_of_nil in Hk.
  - rewrite length_app. cbn [length].
    assert (length (lit key) ≤ 11)%nat; [|lia].
    repeat (apply elem_of_cons in Hk as [->|Hk]; [cbn; lia|]). by apply elem_of_nil in Hk.
Qed.

Lemma channel_lines_fit i :
  channel_ok i → Forall (λ l, Forall (λ b, b ≠ 10) l ∧ (length l < 512 - 1)%nat) (channel_lines i).
Proof.
  intros [Ht [Hn1 Hn2] Hb Hu]. unfold channel_lines. unfold MAX_CHANNEL_NAME in Hn2.
  assert (text_ok (cc_name (ci_config i))) as Hn by (split; [done|lia]).
  assert (∀ key v, bool_decide (key ∈ SETTINGS) = true → text_ok v →
    Forall (λ l, Forall (λ b, b ≠ 10) l ∧ (length l < 512 - 1)%nat)
      (match v with [] => [] | b :: v' => [setting_text key (b :: v')] end)) as Hopt.
  { intros key [|b v] Hk Hv; [constructor|]. apply Forall_singleton. by apply setting_fits. }
  apply Forall_app. split.
  { apply Forall_singleton, setting_fits; [done|]. destruct (cc_type (ci_config i)); (split; [lit_forall|cbn; lia]). }
  apply Forall_app. split; [by apply Hopt|]. apply Forall_app. split.
  { apply Forall_singleton, setting_fits; [done|]. destruct (cc_enabled (ci_config i)); (split; [lit_forall|cbn; lia]). }
  apply Forall_app. split; [by apply Hopt|]. apply Forall_app. split; [by apply Hopt|].
  apply Forall_singleton. split; [constructor|cbn; lia].
Qed.

Lemma saved_channels_load cs :
  Forall channel_ok cs → (length cs < MAX_CHANNELS)%nat →
  channels_load_config [] (Some (channels_save_config cs)) =
  (mk_instance channel_config_zero false 0 :: map (λ i, mk_instance (restored i) false 0) cs, 0).
Proof.
  intros Hok Hn. unfold channels_load_config, channels_save_config. rewrite fgets_lines_all.
  2:{ constructor; [split; [lit_forall|cbn; lia]|]. apply Forall_concat, Forall_map.
      eapply Forall_impl; [exact Hok|]. intros i Hi. by apply channel_lines_fit. }
  cbn [map foldl]. assert (∀ s, load_setting s (lit "# Doctor Claw channels" ++ [10]) = s) as -> by done.
  pose proof (load_channels [] channel_config_zero cs Hok) as Hl. destruct (foldl _ _ _) as [cs' c']. rewrite Hl.
  rewrite register_all.
  - cbn [map app]. by rewrite map_map.
  - constructor; [done|]. apply Forall_map. eapply Forall_impl; [exact Hok|]. by intros i [? _ _ _].
  - cbn [length]. rewrite length_map. lia.
Qed.

(** C36: Saving and loading up to 31 channels of a known type, with a name in
    its buffer, no line end in a setting and no token or address over 498 bytes
    (their buffers hold 511): every channel comes back with its type, name and
    switch, the token and the address cut to 255 bytes, and without its key and
    users, but behind a Telegram channel without settings that was never saved. *)
Theorem channels_file_roundtrip cs :
  Forall channel_ok cs → (length cs < MAX_CHANNELS)%nat →
  channels_load_config [] (Some (channels_save_config cs)) =
  (mk_instance channel_config_zero false 0 :: map (λ i, mk_instance (restored i) false 0) cs, 0).
Proof. apply saved_channels_load. Qed.

(** ** Starting the channels *)

Lemma connect_shape now cs ch :
  length (channel_connect now cs ch).1 = length cs ∧
  map ci_config (channel_connect now cs ch).1 = map ci_config cs.
Proof.
  unfold channel_connect. cbn [fst]. destruct (find_idx _ cs) as [i|]; [|done].
  split; [apply length_alter|]. apply list_eq. intros j. rewrite !list_lookup_fmap.
  destruct (decide (i = j)) as [->|Hne]; [rewrite list_lookup_alter_eq|rewrite list_lookup_alter_ne by done];
    by destruct (cs !! j).
Qed.

(** One visit of the loop to an enabled slot appends a copy of it while there
    is room. *)
Lemma start_visit now cs c :
  let cs' := (channel_connect now (channel_init cs (cc_type (ci_config c)) (ci_config c)).1
                (channel_init cs (cc_type (ci_config c)) (ci_config c)).2).1 in
  map ci_config cs' = map ci_config cs ++ (if (length cs <? MAX_CHANNELS)%nat then [ci_config c] else []).
Proof.
  cbv zeta. rewrite (proj2 (connect_shape _ _ _)). unfold channel_init. cbn [fst].
  destruct (_ <? _)%nat; [by rewrite map_app|by rewrite app_nil_r].
Qed.

(** The slots the loop adds are enabled copies of slots of the table, and once
    an enabled slot is ahead it runs until the table is full. *)
Lemma start_loop_fills now left i cs :
  (MAX_CHANNELS < left + i)%nat → (length cs ≤ MAX_CHANNELS)%nat →
  let cs' := start_loop now left i cs in
  (∃ added, map ci_config cs' = map ci_config cs ++ added ∧
     Forall (λ c, cc_enabled c = true ∧ c ∈ map ci_config cs) added) ∧
  ((∃ j c, (i ≤ j)%nat ∧ map ci_config cs !! j = Some c ∧ cc_enabled c = true) ∨ length cs = MAX_CHANNELS →
   length cs' = MAX_CHANNELS).
Proof.
  revert i cs. induction left as [|left IH]; intros i cs Hf Hl; cbn [start_loop].
  { split; [exists []; by rewrite app_nil_r|]. intros [(j & c & Hj & Hc%lookup_lt_Some & _)|Hn]; [|done].
    rewrite length_map in Hc. lia. }
  destruct (cs !! i) as [c|] eqn:Ei.
  2:{ split; [exists []; by rewrite app_nil_r|]. intros [(j & c & Hj & Hc%lookup_lt_Some & _)|Hn]; [|done].
      rewrite length_map in Hc. apply lookup_ge_None in Ei. lia. }
  assert (map ci_config cs !! i = Some (ci_config c)) as Hi by (by rewrite list_lookup_fmap, Ei).
  destruct (cc_enabled (ci_config c)) eqn:Ee.
  - destruct (channel_init cs (cc_type (ci_config c)) (ci_config c)) as [cs1 ch] eqn:E1.
    pose proof (start_visit now cs c) as Hv. rewrite E1 in Hv. cbn [fst snd] in Hv.
    set (cs2 := (channel_connect now cs1 ch).1) in *.
    assert (length cs2 = length cs + (if (length cs <? MAX_CHANNELS)%nat then 1 else 0))%nat as Hlen.
    { rewrite <- (length_map ci_config cs2), Hv, length_app, length_map. by destruct (_ <? _)%nat. }
    destruct (IH (S i) cs2) as [(added & Ha & Hadd) Hfull]; [lia|destruct (_ <? _)%nat eqn:E; bsplit; lia|].
    split.
    + exists ((if (length cs <? MAX_CHANNELS)%nat then [ci_config c] else []) ++ added).
      rewrite Ha, Hv, <- app_assoc. split; [done|]. apply Forall_app. split.
      * destruct (_ <? _)%nat; repeat constructor; [done|]. by eapply list_elem_of_lookup_2.
      * eapply Forall_impl; [exact Hadd|]. cbn beta. intros x [Hx Hin]. split; [done|].
        rewrite Hv in Hin. apply elem_of_app in Hin as [?|Hin]; [done|].
        destruct (_ <? _)%nat; [|by apply elem_of_nil in Hin]. apply list_elem_of_singleton in Hin as ->.
        by eapply list_elem_of_lookup_2.
    + intros _. apply Hfull. destruct (length cs <? MAX_CHANNELS)%nat eqn:E; bsplit; [left|right; lia].
      exists (length cs), (ci_config c). split; [apply lookup_lt_Some in Ei; lia|]. split; [|done].
      rewrite Hv. by rewrite <- (length_map ci_config cs), list_lookup_middle.
  - destruct (IH (S i) cs) as [Hadd Hfull]; [lia|done|]. split; [done|]. intros Hor. apply Hfull.
    destruct Hor as [(j & c' & Hj & Hc' & He')|]; [left|by right]. exists j, c'. split; [|done].
    destruct (decide (i = j)) as [<-|]; [congruence|lia].
Qed.

(** Starting the channels registers them again and again: as soon as one
    channel is enabled the table is full afterwards, its first slots are the
    channels there were, and all others are enabled copies of them, so that an
    alert goes out many times. *)
Theorem start_all_fills_table now cs c :
  (length cs ≤ MAX_CHANNELS)%nat → c ∈ map ci_config cs → cc_enabled c = true →
  ∃ added, map ci_config (channel_start_all now cs) = map ci_config cs ++ added ∧
    (length cs + length added = MAX_CHANNELS)%nat ∧
    Forall (λ c, cc_enabled c = true ∧ c ∈ map ci_config cs) added.
Proof.
  intros Hl [j Hj]%list_elem_of_lookup_1 Hc. unfold channel_start_all.
  destruct (start_loop_fills now (S MAX_CHANNELS) 0 cs) as [(added & Ha & Hadd) Hfull]; [lia|done|].
  exists added. split_and!; [done| |done].
  rewrite <- Hfull by (left; exists j, c; split; [lia|done]).
  rewrite <- (length_map ci_config (start_loop _ _ _ _)), Ha, length_app, length_map. done.
Qed.

(** ** A configured table *)

Definition telegram_ex : channel_config_t :=
  mk_channel_config (lit "bot") CHANNEL_TELEGRAM (lit "123:abc") [] [] true (replicate 32 None).
Definition discord_ex : channel_config_t :=
  mk_channel_config (lit "team") CHANNEL_DISCORD [] [] (lit "https://discord.com/hook") true (replicate 32 None).
Definition channels_ex : channels := [mk_instance telegram_ex false 0; mk_instance discord_ex false 0].

Lemma discord_message_split_witness :
  ∃ pieces, discord_send_message ([] : list request, ready) discord_ex (lit "hello world") =
      Some ((imap (discord_request discord_ex) pieces, ready), 0) ∧
    concat pieces = lit "hello world" ∧ (2 ≤ length pieces)%nat.
Proof.
  destruct (discord_message_split [] ready discord_ex (lit "hello world")) as (ps & H1 & H2 & H3);
    [done|done|cbn; unfold DISCORD_CHUNK; lia|].
  exists ps. split_and!; [done..|]. by eapply (H3 (lit "hello") (lit "world") 100).
Defined.

Lemma telegram_replies_lost_witness :
  channels_reply_to_webhook ([] : list request, ready) (channels_load_config [] (Some (channels_save_config channels_ex))).1
    (lit "/telegram/hook") (Some (jlit "{'message':{'chat':{'id':42},'text':'hi'}}")) (lit "hello") = Some (([], ready), -1).
Proof. apply (telegram_replies_lost ([] : list request, ready)); by_eval. Defined.

(** A channel whose token is longer than what the loader keeps of a line. *)
Definition long_token_ex : channel_instance_t :=
  mk_instance (mk_channel_config (lit "long") CHANNEL_SLACK (replicate 300 97) (lit "key") [] true (replicate 32 None)) true 5.

Lemma channels_file_roundtrip_witness :
  map (λ i, (cc_name (ci_config i), length (bot_token (ci_config i))))
    (channels_load_config [] (Some (channels_save_config (channels_ex ++ [long_token_ex])))).1 =
  [([], O); (lit "bot", length (bot_token (ci_config (nth 0 channels_ex long_token_ex))));
   (lit "team", length (bot_token (ci_config (nth 1 channels_ex long_token_ex)))); (lit "long", 255%nat)].
Proof.
  rewrite (channels_file_roundtrip (channels_ex ++ [long_token_ex])); [by_eval| |cbn; unfold MAX_CHANNELS; lia].
  repeat constructor; try done; try lit_forall; cbn; unfold MAX_CHANNEL_NAME; lia.
Defined.

Lemma start_all_fills_table_witness :
  ∃ added, map ci_config (channel_start_all 0 channels_ex) = map ci_config channels_ex ++ added ∧
    (2 + length added = MAX_CHANNELS)%nat ∧
    Forall (λ c, cc_enabled c = true ∧ c ∈ map ci_config channels_ex) added.
Proof.
  apply (start_all_fills_table 0 channels_ex telegram_ex); [cbn; unfold MAX_CHANNELS; lia|by left|done].
Defined.

(** A service that returns the same update to every request. *)
Inductive stale_service := Stale (reply : cstr).
#[global] Instance stale_curl : Curl stale_service := {
  curl_easy_init w := (w, true);
  curl_easy_perform w _ := (w, match w with Stale t => mk_transfer [t] true 200 end);
}.

Definition update_ex : cstr :=
  jlit "{'ok':true,'result':[{'update_id':731,'message':{'chat':{'id':42},'text':'hi'}}]}".

Lemma telegram_message_repeated_witness :
  ∃ jobs st', poll_times 700 telegram_ex (Stale update_ex, ready) [] (mk_poll 0 (replicate 64 0) [] 0) = Some (jobs, st') ∧
    length jobs = 700%nat ∧ Forall (λ j, ∃ ctx, j = update_job (lit "hi") ctx) jobs ∧ p_offset st' = 700.
Proof.
  apply (telegram_message_repeated (Stale update_ex) ready telegram_ex 731 update_ex (lit "hi") (lit "}}]}") 700 []
           (mk_poll 0 (replicate 64 0) [] 0)); [|cbn; lia..].
  split; [done|done|done|done|by_eval|by_eval|split; [repeat constructor; done|done]].
Defined.
