(* ===== verification/Integrations.v ===== *)
(** * The integrations of [src/integrations/integrations.c]

    The table of configured services, and the requests to GitHub, Jira and
    Notion with the scanners that read their replies.  Requests go through the
    class [Curl] of [Http]; this file has its own reply buffer, which is NULL
    until a first piece arrives.  The scanners write into [char] arrays; where
    an array keeps bytes it had before, the model keeps them too, and [None] is
    a store or a read outside of one. *)
From S2P Require Import Prelude Http.

Inductive integration_type_t :=
  | INTEGRATION_GITHUB | INTEGRATION_JIRA | INTEGRATION_NOTION | INTEGRATION_SLACK | INTEGRATION_GITLAB
  | INTEGRATION_AWS | INTEGRATION_HEROKU | INTEGRATION_DIGITALOCEAN | INTEGRATION_UNKNOWN.

#[global] Instance integration_type_eq_dec : EqDecision integration_type_t.
Proof. solve_decision. Defined.

Definition MAX_INTEGRATION_NAME : nat := 64.
Definition MAX_INTEGRATIONS : nat := 32.

Record integration_t := mk_integration {
  in_name : cstr;
  in_enabled : bool;
  in_config : cstr;
  in_api_key : cstr;
  in_api_url : cstr;
  in_type : integration_type_t;
}.

Definition integration_zero : integration_t := mk_integration [] false [] [] [] INTEGRATION_GITHUB.

Record integrations_manager_t := mk_manager {
  integrations : list integration_t;
  in_count : nat;
  github_token : cstr;
  jira_token : cstr;
  slack_token : cstr;
  notion_token : cstr;
}.

Definition manager_zero : integrations_manager_t :=
  mk_manager (replicate MAX_INTEGRATIONS integration_zero) 0 [] [] [] [].

Definition set_rows (g : integrations_manager_t) (rows : list integration_t) (n : nat) : integrations_manager_t :=
  mk_manager rows n (github_token g) (jira_token g) (slack_token g) (notion_token g).

(** ** The table *)

Definition integrations_init (getenv : cstr → option cstr) : integrations_manager_t :=
  let token name := match getenv (lit name) with Some v => snprintf_s 256 v | None => [] end in
  mk_manager (replicate MAX_INTEGRATIONS integration_zero) 0 (token "GITHUB_TOKEN"%string)
    (token "JIRA_API_TOKEN"%string) [] (token "NOTION_API_KEY"%string).

Definition integrations_add (g : integrations_manager_t) (name : cstr) (config : option cstr) : integrations_manager_t * Z :=
  if (MAX_INTEGRATIONS <=? in_count g)%nat then (g, -1)
  else
    let old := nth (in_count g) (integrations g) integration_zero in
    let row :=
      mk_integration (snprintf_s MAX_INTEGRATION_NAME name) false
        (match config with Some c => snprintf_s 512 c | None => in_config old end) (in_api_key old) (in_api_url old)
        INTEGRATION_UNKNOWN in
    (set_rows g (<[in_count g := row]> (integrations g)) (S (in_count g)), 0).

Definition default_url (type : integration_type_t) (old : cstr) : cstr :=
  match type with
  | INTEGRATION_GITHUB => lit "https://api.github.com"
  | INTEGRATION_JIRA => lit "https://api.atlassian.com"
  | INTEGRATION_NOTION => lit "https://api.notion.com/v1"
  | _ => old
  end.

Definition integrations_add_type (g : integrations_manager_t) (name : cstr) (type : integration_type_t)
    (api_key : option cstr) : integrations_manager_t * Z :=
  if (MAX_INTEGRATIONS <=? in_count g)%nat then (g, -1)
  else
    let old := nth (in_count g) (integrations g) integration_zero in
    let row :=
      mk_integration (snprintf_s MAX_INTEGRATION_NAME name) false (in_config old)
        (match api_key with Some k => snprintf_s 256 k | None => in_api_key old end) (default_url type (in_api_url old)) type in
    (set_rows g (<[in_count g := row]> (integrations g)) (S (in_count g)), 0).

Definition named (name : cstr) (r : integration_t) : bool := streq (in_name r) name.

Definition set_enabled (e : bool) (r : integration_t) : integration_t :=
  mk_integration (in_name r) e (in_config r) (in_api_key r) (in_api_url r) (in_type r).

Definition switch (e : bool) (g : integrations_manager_t) (name : cstr) : integrations_manager_t * Z :=
  match find_idx (named name) (take (in_count g) (integrations g)) with
  | Some i => (set_rows g (alter (set_enabled e) i (integrations g)) (in_count g), 0)
  | None => (g, -1)
  end.

Definition integrations_enable : integrations_manager_t → cstr → integrations_manager_t * Z := switch true.
Definition integrations_disable : integrations_manager_t → cstr → integrations_manager_t * Z := switch false.

Definition integrations_list (g : integrations_manager_t) : list integration_t := take (in_count g) (integrations g).

Definition integrations_get (g : integrations_manager_t) (name : cstr) : option integration_t :=
  List.find (named name) (take (in_count g) (integrations g)).

Definition integrations_free (g : integrations_manager_t) : integrations_manager_t := manager_zero.

(** ** Requests *)

Section net.
Context {W : Type} `{Curl W}.

Definition write_callback : curl_response_t → list Z → curl_response_t := append_piece.

(** The transfer of one request with a time limit of 30 seconds; the inner
    option is [rsp.data], the outer one fails without a handle. *)
Definition perform (w : W) (url : cstr) (headers : list cstr) (body : option cstr)
    : W * option (bool * option (list Z) * Z) :=
  let '(w, ok) := curl_easy_init w in
  if negb ok then (w, None)
  else
    let '(w, tr) := curl_easy_perform w (mk_request url headers body 30 300) in
    (w, Some (tr_ok tr, cr_data (foldl write_callback curl_response_zero (tr_pieces tr)), tr_code tr)).

Definition bearer (n : nat) (token : cstr) : cstr := snprintf_s n (lit "Authorization: Bearer " ++ token).

Definition github_headers (token : cstr) : list cstr :=
  [lit "Accept: application/vnd.github+json"; lit "User-Agent: DoctorClaw/0.1"; bearer 256 token].

(** ** GitHub *)

Record github_repo_t := mk_repo { repo_name : cstr; repo_full_name : cstr }.
Definition repo_zero : github_repo_t := mk_repo [] [].

(** The first rows of a search result, its [repo_count] and [total_count]. *)
Record github_search_result_t := mk_search { repos : list github_repo_t; repo_count : nat; total_count : Z }.
Definition search_zero : github_search_result_t := mk_search [] 0 0.

Definition github_search_repos (w : W) (token query : cstr) (limit : Z) (result : github_search_result_t)
    : W * github_search_result_t * Z :=
  let url := snprintf_s 512 (lit "https://api.github.com/search/repositories?q=" ++ query ++
                             lit "&sort=stars&order=desc&per_page=" ++ fmt_dec limit) in
  match perform w url (github_headers token) None with
  | (w, None) => (w, result, -1)
  | (w, Some (true, Some _, _)) =>
      (w, mk_search [mk_repo (snprintf_s 256 query) (snprintf_s 512 (lit "search/" ++ query))] 1 limit, 0)
  | (w, Some _) => (w, search_zero, 0)
  end.

Definition github_list_user_repos (w : W) (token username : cstr) (limit : Z) (result : github_search_result_t)
    : W * github_search_result_t * Z :=
  let url := snprintf_s 512 (lit "https://api.github.com/users/" ++ username ++ lit "/repos?sort=updated&per_page=" ++
                             fmt_dec limit) in
  match perform w url (github_headers token) None with
  | (w, None) => (w, result, -1)
  | (w, Some _) => (w, search_zero, 0)
  end.

Definition github_get_repo (w : W) (token owner repo : cstr) (out : github_repo_t) : W * github_repo_t * Z :=
  let url := snprintf_s 512 (lit "https://api.github.com/repos/" ++ owner ++ lit "/" ++ repo) in
  match perform w url (github_headers token) None with
  | (w, None) => (w, out, -1)
  | (w, Some (true, Some _, _)) =>
      (w, mk_repo (snprintf_s 256 repo) (snprintf_s 512 (owner ++ lit "/" ++ repo)), 0)
  | (w, Some _) => (w, repo_zero, 0)
  end.

(** The text that is left in [out_url], of [url_size] bytes. *)
Definition github_create_issue (w : W) (token owner repo title : cstr) (body : option cstr) (out_url : cstr)
    (url_size : nat) : W * cstr * Z :=
  let url := snprintf_s 512 (lit "https://api.github.com/repos/" ++ owner ++ lit "/" ++ repo ++ lit "/issues") in
  let headers :=
    [lit "Accept: application/vnd.github+json"; lit "User-Agent: DoctorClaw/0.1"; lit "Content-Type: application/json";
     bearer 256 token] in
  let post_data := snprintf_s (Z.to_nat 4096) (jlit "{'title':'" ++ title ++ jlit "','body':'" ++ default [] body ++ jlit "'}") in
  match perform w url headers (Some post_data) with
  | (w, None) => (w, out_url, -1)
  | (w, Some (true, Some _, _)) => (w, snprintf_s url_size (lit "Issue created"), 0)
  | (w, Some _) => (w, snprintf_s url_size (lit "Failed to create issue"), 0)
  end.

Definition github_list_issues (w : W) (token owner repo : cstr) (limit : Z) (out_json : cstr) (out_size : nat)
    : W * cstr * Z :=
  let url := snprintf_s 512 (lit "https://api.github.com/repos/" ++ owner ++ lit "/" ++ repo ++
                             lit "/issues?state=open&per_page=" ++ fmt_dec limit) in
  match perform w url (github_headers token) None with
  | (w, None) => (w, out_json, -1)
  | (w, Some (true, Some b, _)) => (w, if (length b <? out_size)%nat then until_nul b else [], 0)
  | (w, Some _) => (w, [], 0)
  end.
End net.

(** ** Scanners *)

(** Copies a value behind a match into the [char] array [out]; a backslash
    moves the place in both texts on. *)
Fixpoint copy_value (fuel : nat) (src : cstr) (i : nat) (out : list Z) : option (list Z) :=
  match fuel with
  | O => None
  | S fuel' =>
      if (length src <? i)%nat then None
      else
        let b := nth i src 0 in
        if (b =? 0) || (b =? 34) || (length out - 1 <=? i)%nat then
          if (i <? length out)%nat then Some (<[i := 0]> out) else None
        else
          let i := if b =? 92 then S i else i in
          copy_value fuel' src (S i) (if nth i src 0 =? 0 then out else <[i := nth i src 0]> out)
  end.

(** [snprintf(out, sizeof(out), "%s", s)] on an array with its old bytes. *)
Definition store_text (s : cstr) (out : list Z) : list Z :=
  match out with
  | [] => []
  | _ => let t := snprintf_s (length out) s ++ [0] in t ++ drop (length t) out
  end.

(** The code and the array; [out] is taken by its size. *)
Definition parse_json_string (json key : cstr) (out : list Z) : option (Z * list Z) :=
  let needle := snprintf_s 128 ([34] ++ key ++ jlit "':'") in
  match strstr json needle with
  | None => Some (-1, out)
  | Some i => out ← copy_value (S (length out)) (drop (i + length needle) json) 0 out; Some (0, out)
  end.

(** The escape of one byte; [dst_size - 1 - j] is the room left. *)
Definition escape_byte (c : Z) : cstr := if (c =? 34) || (c =? 92) then [92; c] else if c =? 10 then [92; 110] else [c].

Fixpoint json_escape_from (j dst_size : nat) (src : cstr) : cstr :=
  match src with
  | [] => []
  | c :: s =>
      if (j <? dst_size - 1)%nat then
        let e := escape_byte c in
        if (1 <? length e)%nat && negb (j <? dst_size - 2)%nat then json_escape_from j dst_size s
        else e ++ json_escape_from (j + length e) dst_size s
      else []
  end.

Definition json_escape_str (src : cstr) (dst_size : nat) : cstr := json_escape_from 0 dst_size src.

(** ** Jira *)

(** The fields that a search fills; [None] is a summary left as it was. *)
Record jira_issue_t := mk_issue { ji_key : cstr; ji_summary : option cstr }.

Definition quoted (n : nat) (s : cstr) : cstr := take (n - 1) (take_while (λ b, negb (b =? 34)) s).

(** The loop over the array of issues, [room] rows at most. *)
Fixpoint issue_loop (fuel room : nat) (cur : cstr) : list jira_issue_t :=
  match fuel, room, cur with
  | S fuel', S room', _ :: _ =>
      match strstr cur (jlit "'key':'"), strchr cur 125 with
      | Some k, Some e =>
          if (e <? k)%nat then []
          else
            let summary :=
              match strstr cur (jlit "'summary':'") with Some s => Some (quoted 256 (drop (s + 10) cur)) | None => None end in
            let next := drop (S e) cur in
            let next := match next with 44 :: n => n | _ => next end in
            mk_issue (quoted 64 (drop (k + 7) cur)) summary :: issue_loop fuel' room' next
      | _, _ => []
      end
  | _, _, _ => []
  end.

Definition jira_issues (json : cstr) (limit : nat) : list jira_issue_t :=
  match strstr json (jlit "'issues':") with
  | None => []
  | Some i =>
      match strchr (drop i json) 91 with
      | None => []
      | Some j => let cur := drop (S j) (drop i json) in issue_loop (S (length cur)) limit cur
      end
  end.

Section jira.
Context {W : Type} `{Curl W}.
(** [curl_easy_escape]. *)
Context (escape : cstr → option cstr).

(** The issues written to the array of the caller; [None] on failure. *)
Definition jira_search_issues (w : W) (token base_url : cstr) (jql : option cstr) (limit : Z)
    : W * option (list jira_issue_t) :=
  let limit := if limit <=? 0 then 10 else limit in
  let jql_val := match jql with Some (c :: s) => c :: s | _ => lit "order by created DESC" end in
  let url :=
    snprintf_s 1024
      (match escape jql_val with
       | Some e => base_url ++ lit "/rest/api/3/search?jql=" ++ e ++ lit "&maxResults=" ++ fmt_dec limit
       | None => base_url ++ lit "/rest/api/3/search?maxResults=" ++ fmt_dec limit
       end) in
  match perform w url [lit "Accept: application/json"; bearer 320 token] None with
  | (w, Some (true, Some b, _)) => (w, Some (jira_issues (until_nul b) (Z.to_nat limit)))
  | (w, _) => (w, None)
  end.

Definition jira_body (project summary : cstr) (description : option cstr) : cstr :=
  snprintf_s (Z.to_nat 2048)
    (jlit "{'fields':{'project':{'key':'" ++ project ++ jlit "'},'summary':'" ++ json_escape_str summary 512 ++
     jlit "','description':{'type':'doc','version':1,'content':[{'type':'paragraph','content':[{'type':'text','text':{'content':'" ++
     json_escape_str (default [] description) 1024 ++ jlit "'}}]}]}}}").

(** The array [out_key] afterwards, and the code. *)
Definition jira_create_issue (w : W) (token base_url project summary : cstr) (description : option cstr)
    (out_key : list Z) : option (W * list Z * Z) :=
  let url := snprintf_s 512 (base_url ++ lit "/rest/api/3/issue") in
  match perform w url [lit "Content-Type: application/json"; lit "Accept: application/json"; bearer 320 token]
          (Some (jira_body project summary description)) with
  | (w, None) => Some (w, out_key, -1)
  | (w, Some (ok, data, _)) =>
      match data with
      | None => Some (w, out_key, -1)
      | Some b =>
          if negb ok then Some (w, store_text (lit "error") out_key, -1)
          else
            '(rc, k) ← parse_json_string (until_nul b) (lit "key") out_key;
            if rc =? 0 then Some (w, k, 0) else Some (w, store_text (lit "error") k, -1)
      end
  end.

Definition jira_transition_issue (w : W) (token base_url issue_key transition_id : cstr) : W * Z :=
  let url := snprintf_s 512 (base_url ++ lit "/rest/api/3/issue/" ++ issue_key ++ lit "/transitions") in
  let body := snprintf_s 128 (jlit "{'transition':{'id':'" ++ transition_id ++ jlit "'}}") in
  match perform w url [lit "Content-Type: application/json"; bearer 320 token] (Some body) with
  | (w, None) => (w, -1)
  | (w, Some (ok, _, status)) => (w, if ok && (200 <=? status) && (status <? 300) then 0 else -1)
  end.
End jira.

(** ** Notion *)

(** The arrays of a page; [memset] has cleared them. *)
Record notion_page_t := mk_page { pg_id : list Z; pg_title : list Z; pg_url : list Z }.
Definition page_zero : notion_page_t := mk_page (replicate 64 0) (replicate 256 0) (replicate 512 0).

(** The loop that copies a title: as [copy_value], but it does not step over
    the end, and the NUL is stored by one of its two users only ([close]). *)
Fixpoint copy_title (close : bool) (fuel : nat) (src : cstr) (k : nat) (out : list Z) : option (list Z) :=
  match fuel with
  | O => None
  | S fuel' =>
      let b := nth k src 0 in
      if (b =? 0) || (b =? 34) || (length out - 1 <=? k)%nat then
        if negb close then Some out
        else if (k <? length out)%nat then Some (<[k := 0]> out) else None
      else
        let k := if (b =? 92) && negb (nth (S k) src 0 =? 0) then S k else k in
        copy_title close fuel' src (S k) (<[k := nth k src 0]> out)
  end.

Definition title_of (close : bool) (text : cstr) (title : list Z) : option (list Z) :=
  match strstr text (jlit "'plain_text':'") with
  | None => Some title
  | Some i => copy_title close (S (length title)) (drop (i + 14) text) 0 title
  end.

(** The loop over the results, [room] pages at most. *)
Fixpoint page_loop (fuel room : nat) (results : cstr) : option (list notion_page_t) :=
  match fuel, room with
  | S fuel', S room' =>
      match strstr results (jlit "'id':'") with
      | None => Some []
      | Some i =>
          let id_start := drop (i + 6) results in
          let id := store_text (quoted 64 id_start) (pg_id page_zero) in
          let url :=
            match strstr id_start (jlit "'url':'") with
            | Some u => store_text (quoted 512 (drop (u + 7) id_start)) (pg_url page_zero)
            | None => pg_url page_zero
            end in
          title ← title_of true results (pg_title page_zero);
          let next :=
            e ← strchr id_start 125;
            o ← strchr (drop (S e) id_start) 123;
            Some (drop o (drop (S e) id_start)) in
          rest ← (match next with Some r => page_loop fuel' room' r | None => Some [] end);
          Some (mk_page id title url :: rest)
      end
  | _, _ => Some []
  end.

Definition notion_pages (json : cstr) (limit : nat) : option (list notion_page_t) :=
  match strstr json (jlit "'results':") with
  | None => Some []
  | Some i =>
      match strchr (drop i json) 91 with
      | None => Some []
      | Some j => let r := drop (S j) (drop i json) in page_loop (S (length r)) limit r
      end
  end.

Section notion.
Context {W : Type} `{Curl W}.

Definition notion_headers (token : cstr) : list cstr :=
  [lit "Content-Type: application/json"; lit "Notion-Version: 2022-06-28"; bearer 256 token].

(** A negative limit is a very large [size_t]. *)
Definition page_limit (limit : Z) (json : cstr) : nat := if limit <? 0 then S (length json) else Z.to_nat limit.

(** The pages written to the array of the caller; [Some None] on failure. *)
Definition notion_search (w : W) (token query : cstr) (limit : Z) : option (W * option (list notion_page_t)) :=
  let body := snprintf_s 512 (jlit "{'query':'" ++ query ++ jlit "','page_size':" ++ fmt_dec limit ++ lit "}") in
  match perform w (lit "https://api.notion.com/v1/search") (notion_headers token) (Some body) with
  | (w, Some (true, Some b, _)) =>
      pages ← notion_pages (until_nul b) (page_limit limit (until_nul b)); Some (w, Some pages)
  | (w, _) => Some (w, None)
  end.

Definition notion_get_page (w : W) (token page_id : cstr) : option (W * notion_page_t * Z) :=
  let page := mk_page (store_text page_id (pg_id page_zero)) (pg_title page_zero) (pg_url page_zero) in
  let url := snprintf_s 320 (lit "https://api.notion.com/v1/pages/" ++ page_id) in
  match perform w url (notion_headers token) None with
  | (w, None) => Some (w, page, -1)
  | (w, Some (true, Some b, _)) =>
      let json := until_nul b in
      '(_, id) ← parse_json_string json (lit "id") (pg_id page);
      '(_, u) ← parse_json_string json (lit "url") (pg_url page);
      title ← title_of false json (pg_title page);
      Some (w, mk_page id title u, 0)
  | (w, Some (ok, _, _)) => Some (w, page, if ok then 0 else -1)
  end.

Definition notion_create_page (w : W) (token : cstr) (parent_id : option cstr) (title : cstr) (out_id : list Z)
    : option (W * list Z * Z) :=
  let post_data :=
    snprintf_s (Z.to_nat 4096)
      (match parent_id with
       | Some p =>
           jlit "{'parent':{'page_id':'" ++ p ++ jlit "'},'properties':{'title':{'title':[{'text':{'content':'" ++ title ++
           jlit "'}}]}}}"
       | None =>
           jlit "{'parent':{'database_id':'database'},'properties':{'Name':{'title':[{'text':{'content':'" ++ title ++
           jlit "'}}]}}}"
       end) in
  match perform w (lit "https://api.notion.com/v1/pages") (notion_headers token) (Some post_data) with
  | (w, Some (true, Some b, _)) =>
      '(rc, id) ← parse_json_string (until_nul b) (lit "id") out_id; Some (w, id, if rc =? 0 then 0 else -1)
  | (w, _) => Some (w, out_id, -1)
  end.
End notion.

(** ** The table as a map *)

Definition manager_ok (g : integrations_manager_t) : Prop :=
  length (integrations g) = MAX_INTEGRATIONS ∧ (in_count g ≤ MAX_INTEGRATIONS)%nat.

Lemma init_ok getenv : manager_ok (integrations_init getenv).
Proof. split; [apply length_replicate|cbn; lia]. Qed.

Lemma add_live g row :
  manager_ok g → (in_count g < MAX_INTEGRATIONS)%nat →
  let g' := set_rows g (<[in_count g := row]> (integrations g)) (S (in_count g)) in
  manager_ok g' ∧ integrations_list g' = integrations_list g ++ [row].
Proof.
  intros [Hl Hc] Hn. split; [split; cbn [integrations in_count set_rows]; [by rewrite length_insert|done]|]. unfold integrations_list, set_rows. cbn [in_count integrations].
  by rewrite take_insert_push by lia.
Qed.

(** A service that is added is the one found under its name, with the address
    of its type and switched off, unless the name was taken: then the entry
    before it hides it. *)
Theorem added_service_found g name type key :
  manager_ok g → (in_count g < MAX_INTEGRATIONS)%nat → (length name < MAX_INTEGRATION_NAME)%nat →
  let g' := (integrations_add_type g name type key).1 in
  manager_ok g' ∧ (integrations_add_type g name type key).2 = 0 ∧
  match integrations_get g name with
  | Some r => integrations_get g' name = Some r
  | None => ∃ r, integrations_get g' name = Some r ∧ in_type r = type ∧ in_enabled r = false
  end.
Proof.
  intros Hok Hn Hl. unfold integrations_add_type. rewrite (proj2 (Nat.leb_gt _ _)) by done. cbn [fst snd].
  set (row := mk_integration _ _ _ _ _ _). destruct (add_live g row Hok Hn) as [Hok' Hlive]. split_and!; [done..|].
  unfold integrations_get. unfold integrations_list in Hlive. rewrite Hlive.
  assert (∀ l, List.find (named name) (l ++ [row]) = match List.find (named name) l with Some r => Some r | None => Some row end) as Hf.
  { induction l as [|x l IH]; cbn [app List.find]; [|by destruct (named name x)].
    unfold named. subst row. cbn [in_name]. by rewrite snprintf_s_id, streq_refl by done. }
  rewrite Hf. destruct (List.find _ _); [done|]. by exists row.
Qed.

Lemma find_switch e name l i :
  find_idx (named name) l = Some i →
  List.find (named name) (alter (set_enabled e) i l) = set_enabled e <$> List.find (named name) l ∧
  (∀ other, other ≠ name → List.find (named other) (alter (set_enabled e) i l) = List.find (named other) l) ∧
  is_Some (List.find (named name) l).
Proof.
  revert i. induction l as [|x l IH]; intros i; cbn [find_idx]; [done|]. destruct (named name x) eqn:En.
  - intros [= <-]. cbn [alter list_alter List.find]. change (named name (set_enabled e x)) with (named name x). rewrite En.
    split_and!; [done| |eauto]. intros other Ho. change (named other (set_enabled e x)) with (named other x).
    assert (named other x = false) as ->; [|done]. apply streq_true in En. apply streq_false. congruence.
  - intros (k & Hk & ->)%fmap_Some. destruct (IH k Hk) as (H1 & H2 & H3).
    change (alter (set_enabled e) (S k) (x :: l)) with (x :: alter (set_enabled e) k l). cbn [List.find]. rewrite En.
    split_and!; [done| |done]. intros other Ho. by rewrite H2.
Qed.

(** Switching a service changes its own state and no other entry. *)
Theorem switch_found e g name : manager_ok g →
  let g' := (switch e g name).1 in
  manager_ok g' ∧ integrations_get g' name = set_enabled e <$> integrations_get g name ∧
  (∀ other, other ≠ name → integrations_get g' other = integrations_get g other) ∧
  ((switch e g name).2 = 0 ↔ is_Some (integrations_get g name)).
Proof.
  intros [Hl Hc]. unfold switch, integrations_get. set (live := take (in_count g) (integrations g)).
  destruct (find_idx (named name) live) as [i|] eqn:Ei; cbn [fst snd integrations in_count set_rows].
  - pose proof (find_idx_lt _ _ _ Ei) as Hi. unfold live in Hi. rewrite length_take in Hi.
    rewrite take_alter_lt by lia. fold live.
    destruct (find_switch e name live i Ei) as (H1 & H2 & H3).
    split_and!; [split; [by etrans; [apply length_alter|]|done]|done|done|by split].
  - apply find_idx_None in Ei. assert (List.find (named name) live = None) as Hnone.
    { induction Ei as [|x l Hx _ IH]; [done|]. cbn [List.find]. by rewrite Hx. }
    cbn zeta. fold live. rewrite Hnone. split_and!; [by split|done|done|]. split; [done|by intros []].
Qed.

(** ** What is read from replies *)

(** No issue found by a search has a summary: the text is read from its opening
    quote on, which ends it. *)
Theorem jira_summaries_empty json limit :
  Forall (λ i, ji_summary i = None ∨ ji_summary i = Some []) (jira_issues json limit).
Proof.
  assert (∀ fuel room cur, Forall (λ i, ji_summary i = None ∨ ji_summary i = Some []) (issue_loop fuel room cur)) as Hloop.
  { induction fuel as [|fuel IH]; intros room cur; [done|]. cbn [issue_loop].
    destruct room as [|room], cur as [|c cur]; [done..|]. set (t := c :: cur) in *.
    destruct (strstr t (jlit "'key':'")) as [k|], (strchr t 125) as [e|]; [|done..]. case_if; [done|].
    constructor; [|apply IH]. cbn [ji_summary]. destruct (strstr t (jlit "'summary':'")) as [i|] eqn:Es; [right|by left].
    apply strstr_Some in Es as (r & Hr & Hi). rewrite Hr.
    assert (length (take i t) = i) as Hti by (rewrite length_take; lia).
    rewrite <- Hti at 1. rewrite drop_app_add. done. }
  unfold jira_issues. destruct (strstr json _) as [i|]; [|done]. destruct (strchr _ _) as [j|]; [|done]. apply Hloop.
Qed.

(** A title without a quote or a backslash that fits is read as it is; the
    rest of the array stays. *)
Lemma copy_title_plain close a rest : ∀ fuel done k (out : list Z),
  Forall (λ b, b ≠ 0 ∧ b ≠ 34 ∧ b ≠ 92) a → k = length done → (k + length a < length out)%nat →
  copy_title close (length a + fuel) (done ++ a ++ rest) k out =
  copy_title close fuel (done ++ a ++ rest) (k + length a)
    (take k out ++ a ++ drop (k + length a) out).
Proof.
  induction a as [|b a IH]; intros fuel done k out Ha Hk Hl; cbn [length Nat.add app].
  { rewrite Nat.add_0_r. cbn [app]. by rewrite take_drop. }
  apply Forall_cons in Ha as [(H0 & H34 & H92) Ha]. cbn [length] in Hl. cbn [copy_title].
  assert (nth k (done ++ b :: a ++ rest) 0 = b) as Hb by (subst k; rewrite app_nth2, Nat.sub_diag by lia; done).
  rewrite Hb, (proj2 (Z.eqb_neq b 0) H0), (proj2 (Z.eqb_neq b 34) H34), (proj2 (Z.eqb_neq b 92) H92).
  rewrite (proj2 (Nat.leb_gt _ _)) by lia. cbn [orb andb]. rewrite Hb.
  replace (done ++ b :: a ++ rest) with ((done ++ [b]) ++ a ++ rest) by (by rewrite <- app_assoc).
  rewrite (IH fuel (done ++ [b]) (S k)); [|done|rewrite length_app; cbn [length]; lia|by rewrite length_insert; lia].
  replace (S k + length a)%nat with (k + S (length a))%nat by lia. f_equal.
  rewrite take_insert_push by lia. rewrite drop_insert_lt by lia. by rewrite <- app_assoc.
Qed.

Lemma copy_title_above close src : ∀ fuel k out t, copy_title close fuel src k out = Some t → take k t = take k out.
Proof.
  induction fuel as [|fuel IH]; intros k out t; cbn [copy_title]; [done|]. case_if.
  { destruct close; cbn [negb]; [|by intros [= <-]]. case_if; [|done]. intros [= <-]. by apply take_insert_ge. }
  set (k' := if _ && _ then S k else k). intros Ht%IH. assert (k ≤ k')%nat by (subst k'; case_if; lia).
  apply (f_equal (take k)) in Ht. rewrite !take_take in Ht. replace (k `min` S k')%nat with k in Ht by lia.
  rewrite Ht. by apply take_insert_ge.
Qed.

(** A title is cut at its first escaped character: the byte in the place of
    the backslash stays NUL. *)
Theorem title_cut_at_escape text i a c d rest :
  strstr text (jlit "'plain_text':'") = Some i → drop (i + 14) text = a ++ 92 :: c :: d ++ 34 :: rest →
  Forall (λ b, b ≠ 0 ∧ b ≠ 34 ∧ b ≠ 92) a → Forall (λ b, b ≠ 0 ∧ b ≠ 34 ∧ b ≠ 92) d → c ≠ 0 →
  (length a + length d + 2 < 255)%nat →
  ∃ t, title_of true text (pg_title page_zero) = Some t ∧ until_nul t = a.
Proof.
  intros Hi Hs Ha Hd Hc Hl. unfold title_of. rewrite Hi, Hs. cbn [pg_title page_zero]. rewrite length_replicate.
  replace 257%nat with (length a + S (length d + S (255 - length a - length d)))%nat by lia.
  rewrite (copy_title_plain true a (92 :: c :: d ++ 34 :: rest) _ [] 0) by (rewrite ?length_replicate; done || lia).
  set (out1 := take 0 _ ++ _). set (src := [] ++ a ++ _).
  assert (length out1 = 256%nat) as Hlen by (subst out1; rewrite !length_app, length_take, length_drop, length_replicate; lia).
  assert (∀ j x, nth (length a + j) src x = nth j (92 :: c :: d ++ 34 :: rest) x) as Hnth.
  { intros j x. subst src. cbn [app]. rewrite app_nth2 by lia. f_equal. lia. }
  cbn [Nat.add copy_title]. pose proof (Hnth 0%nat 0) as H0. rewrite Nat.add_0_r in H0. rewrite H0. cbn [nth Z.eqb Pos.eqb orb].
  rewrite (proj2 (Nat.leb_gt _ _)) by lia. replace (S (length a)) with (length a + 1)%nat by lia. rewrite Hnth. cbn [nth].
  rewrite (proj2 (Z.eqb_neq c 0) Hc). cbn [negb andb]. rewrite Hnth. cbn [nth].
  set (out2 := <[_ := c]> out1). replace (S (length a + 1)) with (length (a ++ [92; c])) by (rewrite length_app; cbn [length]; lia).
  replace src with ((a ++ [92; c]) ++ d ++ 34 :: rest) in * by (subst src; cbn [app]; by rewrite <- app_assoc).
  assert (length out2 = 256%nat) as Hlen2 by (subst out2; by rewrite length_insert).
  assert (length (a ++ [92; c]) = (length a + 2)%nat) as Hpos by (by rewrite length_app).
  set (n := length (a ++ [92; c])) in *.
  rewrite (copy_title_plain true d (34 :: rest)) by (done || (rewrite Hlen2, Hpos; lia)).
  set (out3 := take _ out2 ++ _). cbn [copy_title].
  assert (nth (n + length d) ((a ++ [92; c]) ++ d ++ 34 :: rest) 0 = 34) as ->.
  { subst n. rewrite app_assoc, <- length_app, app_nth2, Nat.sub_diag by lia. done. }
  cbn [Z.eqb Pos.eqb orb negb]. rewrite (proj2 (Nat.ltb_lt _ _)).
  2:{ subst out3. rewrite !Hpos, !length_app, length_take, length_drop, Hlen2. lia. }
  eexists. split; [done|].
  assert (take (length a + 1) (<[(n + length d)%nat := 0]> out3) = a ++ [0]) as Htake.
  { rewrite take_insert_ge by lia. subst out3. rewrite take_app_le by (rewrite length_take, Hlen2, Hpos; lia).
    rewrite take_take. rewrite Hpos. replace ((length a + 1) `min` (length a + 2))%nat with (length a + 1)%nat by lia.
    subst out2. rewrite take_insert_ge by lia. subst out1. rewrite take_0. cbn [app Nat.add]. rewrite take_app_add. f_equal.
    rewrite drop_replicate. by destruct (256 - length a)%nat eqn:E; [lia|]. }
  rewrite <- (take_drop (length a + 1) (<[_ := 0]> out3)), Htake, <- app_assoc. cbn [app].
  apply until_nul_stop. eapply Forall_impl; [exact Ha|]. by intros b [? _].
Qed.

Lemma title_cut_at_escape_witness :
  ∃ t, title_of true (jlit "{'plain_text':'Say \'hi' now'}") (pg_title page_zero) = Some t ∧ until_nul t = lit "Say ".
Proof.
  apply (title_cut_at_escape _ 1 (lit "Say ") 34 (lit "hi") (jlit " now'}"));
    [by_eval|by_eval|lit_forall || by repeat constructor|by repeat constructor|done|cbn; lia].
Defined.

(** The text that is written for a summary or description stays inside its
    array and is made of whole escapes of characters of the source, in their
    order: an escape is never cut in half, and nothing is lost when all fit. *)
Theorem json_escape_whole src n :
  (0 < n)%nat →
  (∃ kept, sublist kept src ∧ json_escape_str src n = concat (escape_byte <$> kept)) ∧
  (length (json_escape_str src n) < n)%nat ∧
  ((length (concat (escape_byte <$> src)) < n)%nat → json_escape_str src n = concat (escape_byte <$> src)).
Proof.
  intros Hn. unfold json_escape_str.
  assert (∀ c, length (escape_byte c) = 1 ∨ length (escape_byte c) = 2)%nat as He.
  { intros c. unfold escape_byte. repeat case_if; auto. }
  assert (∀ j, (j < n)%nat →
    (∃ kept, sublist kept src ∧ json_escape_from j n src = concat (escape_byte <$> kept)) ∧
    (j + length (json_escape_from j n src) < n)%nat ∧
    ((j + length (concat (escape_byte <$> src)) < n)%nat → json_escape_from j n src = concat (escape_byte <$> src))) as Hgen;
    [|destruct (Hgen 0%nat) as (? & ? & ?); auto].
  induction src as [|c s IH]; intros j Hj; cbn [json_escape_from fmap list_fmap concat].
  { split_and!; [by exists []|cbn [length]; lia|done]. }
  rewrite length_app. destruct (Nat.ltb_spec j (n - 1)) as [Hlt|Hge].
  2:{ split_and!; [exists []; split; [apply sublist_nil_l|done]|cbn [length]; lia|]. destruct (He c); lia. }
  destruct ((1 <? length (escape_byte c))%nat && negb (j <? n - 2)%nat) eqn:Eskip.
  - destruct (IH j Hj) as ((kept & Hk & Heq) & Hb & _). split_and!; [|done|].
    + exists kept. split; [by apply sublist_cons|done].
    + apply andb_true_iff in Eskip as [E1%Nat.ltb_lt E2%negb_true_iff%Nat.ltb_ge]. lia.
  - assert (j + length (escape_byte c) < n)%nat as Hj'.
    { destruct (He c) as [E|E]; rewrite E in *; [lia|]. cbn [Nat.ltb Nat.leb andb] in Eskip.
      apply negb_false_iff, Nat.ltb_lt in Eskip. lia. }
    destruct (IH (j + length (escape_byte c))%nat Hj') as ((kept & Hk & Heq) & Hb & Hall). split_and!.
    + exists (c :: kept). split; [by apply sublist_skip|]. cbn [fmap list_fmap concat]. by rewrite Heq.
    + rewrite length_app. lia.
    + intros Hfit. f_equal. apply Hall. lia.
Qed.

(** A value with a backslash in the last place but one is written past its
    array. *)
Example parse_overflow : parse_json_string (jlit "{'key':'ab\cd'}") (lit "key") (replicate 4 0) = None.
Proof. by_eval. Qed.

(** A search on GitHub answers with the query itself, whatever the service
    replies. *)
Lemma github_search_invents {W} `{Curl W} (w w1 w2 : W) token query limit result tr p ps :
  curl_easy_init w = (w1, true) →
  (∀ rq, curl_easy_perform w1 rq = (w2, tr)) → tr_ok tr = true → tr_pieces tr = p :: ps →
  github_search_repos w token query limit result =
  (w2, mk_search [mk_repo (snprintf_s 256 query) (snprintf_s 512 (lit "search/" ++ query))] 1 limit, 0).
Proof. intros Hi Hp Ht Hps. unfold github_search_repos, perform. change write_callback with append_piece. by rewrite Hi, Hp, pieces_collected, Ht, Hps. Qed.

(** ** Examples *)

Definition manager_ex : integrations_manager_t :=
  (integrations_add_type (integrations_init (λ _, None)) (lit "work") INTEGRATION_JIRA (Some (lit "k"))).1.

Lemma manager_ex_ok : manager_ok manager_ex.
Proof. split; [reflexivity|vm_compute; lia]. Qed.

Lemma added_service_found_witness :
  ∃ r, integrations_get (integrations_add_type manager_ex (lit "home") INTEGRATION_GITHUB None).1 (lit "home") = Some r ∧
       in_type r = INTEGRATION_GITHUB ∧ in_enabled r = false.
Proof.
  destruct (added_service_found manager_ex (lit "home") INTEGRATION_GITHUB None manager_ex_ok) as (_ & _ & Hm);
    [vm_compute; lia|vm_compute; lia|]. exact Hm.
Defined.

Lemma switch_found_witness :
  integrations_get (integrations_enable manager_ex (lit "work")).1 (lit "work") =
  set_enabled true <$> integrations_get manager_ex (lit "work").
Proof. by apply (switch_found true manager_ex (lit "work") manager_ex_ok). Defined.

Lemma json_escape_whole_witness :
  (∃ kept, sublist kept (lit "a" ++ [10] ++ lit "bc") ∧
     json_escape_str (lit "a" ++ [10] ++ lit "bc") 3 = concat (escape_byte <$> kept)) ∧
  (length (json_escape_str (lit "a" ++ [10%Z] ++ lit "bc") 3) < 3)%nat.
Proof. destruct (json_escape_whole (lit "a" ++ [10] ++ lit "bc") 3) as (H1 & H2 & _); [lia|by split]. Defined.
