(* ===== verification/Tunnel.v ===== *)
(** * The tunnels of [src/tunnel/tunnel.c]

    The tunnel programs are started with [system]; their addresses are read
    with [popen] into static buffers.  What a function does to the machine is
    the list of its actions, [system] and the own process number are
    arguments. *)
From S2P Require Import Prelude.

Definition MAX_TUNNEL_URL : nat := 256.

Inductive tunnel_type_t :=
  | TUNNEL_TYPE_NONE | TUNNEL_TYPE_TAILSCALE | TUNNEL_TYPE_NGROK | TUNNEL_TYPE_CLOUDFLARE | TUNNEL_TYPE_CUSTOM
  | TUNNEL_TYPE_SSH.

Record tunnel_config_t := mk_tunnel_config {
  tc_type : tunnel_type_t;
  tc_auth_token : cstr;
  tc_connected : bool;
  tc_local_port : Z;
  tc_remote_port : Z;
  tc_pid : Z;
}.

Definition tunnel_config_init : tunnel_config_t := mk_tunnel_config TUNNEL_TYPE_NONE [] false 8080 80 0.
Definition tunnel_config_free (c : tunnel_config_t) : tunnel_config_t := mk_tunnel_config TUNNEL_TYPE_NONE [] false 0 0 0.

Record tunnel_t := mk_tunnel { tn_connected : bool; tn_local : cstr; tn_remote : cstr }.

Definition tunnel_init : tunnel_t := mk_tunnel false [] [].

Definition tunnel_connect (t : tunnel_t) (host : cstr) (port : Z) : tunnel_t * Z :=
  (mk_tunnel true (snprintf_s 64 (lit "localhost:" ++ fmt_dec port)) (snprintf_s 64 (host ++ lit ":" ++ fmt_dec port)), 0).

Definition tunnel_disconnect (t : tunnel_t) : tunnel_t * Z := (mk_tunnel false [] [], 0).
Definition tunnel_is_connected (t : tunnel_t) : bool := tn_connected t.

Inductive action := Run (command : cstr) | Kill (pid : Z) (signal : Z).

Definition SIGTERM : Z := 15.

Section tunnel.
Context (system : cstr → Z) (getpid : Z).

Definition started (c : tunnel_config_t) (port : option Z) : tunnel_config_t :=
  mk_tunnel_config (tc_type c) (tc_auth_token c) true (default (tc_local_port c) port) (tc_remote_port c) getpid.
Definition stopped (c : tunnel_config_t) : tunnel_config_t :=
  mk_tunnel_config (tc_type c) (tc_auth_token c) false (tc_local_port c) (tc_remote_port c) (tc_pid c).

(** The configuration, the code and the actions. *)
Definition result : Type := tunnel_config_t * Z * list action.

Definition tunnel_ngrok_start (c : tunnel_config_t) (port : Z) : result :=
  let cmd :=
    snprintf_s 512
      (match tc_auth_token c with
       | [] => lit "ngrok http " ++ fmt_dec port ++ lit " 2>/dev/null &"
       | t => lit "ngrok http " ++ fmt_dec port ++ lit " --authtoken " ++ t ++ lit " 2>/dev/null &"
       end) in
  let ret := system cmd in
  (if ret =? 0 then started c (Some port) else c, ret, [Run cmd]).

Definition tunnel_ngrok_stop (c : tunnel_config_t) : result :=
  (stopped c, 0, [Run (lit "pkill -f 'ngrok http' 2>/dev/null")]).

Definition tunnel_tailscale_start (c : tunnel_config_t) : result :=
  let cmd :=
    snprintf_s 512
      (match tc_auth_token c with
       | [] => lit "tailscale up --ssh --exit-node 2>/dev/null &"
       | t => lit "tailscale up --authkey=" ++ t ++ lit " --ssh --exit-node 2>/dev/null &"
       end) in
  let ret := system cmd in
  (if (ret =? 0) || (ret =? 256) then started c None else c, ret, [Run cmd]).

Definition tunnel_tailscale_stop (c : tunnel_config_t) : result := (stopped c, 0, [Run (lit "tailscale down 2>/dev/null")]).

Definition tunnel_cloudflare_start (c : tunnel_config_t) (port : Z) : result :=
  let cmd :=
    snprintf_s 512
      (match tc_auth_token c with
       | [] => lit "cloudflared tunnel --url http://localhost:" ++ fmt_dec port ++ lit " 2>/dev/null &"
       | t => lit "cloudflared tunnel --url http://localhost:" ++ fmt_dec port ++ lit " token=" ++ t ++ lit " 2>/dev/null &"
       end) in
  let ret := system cmd in
  (if ret =? 0 then started c (Some port) else c, ret, [Run cmd]).

Definition tunnel_cloudflare_stop (c : tunnel_config_t) : result :=
  (stopped c, 0, [Run (lit "pkill -f 'cloudflared tunnel' 2>/dev/null")]).

Definition tunnel_custom_start (c : tunnel_config_t) (command : cstr) : result :=
  let ret := system command in
  (if ret =? 0 then started c None else c, ret, [Run command]).

Definition tunnel_custom_stop (c : tunnel_config_t) : result :=
  (stopped c, 0, if 0 <? tc_pid c then [Kill (tc_pid c) SIGTERM] else []).

Definition tunnel_none_start (c : tunnel_config_t) : result := (stopped c, 0, []).
Definition tunnel_none_stop (c : tunnel_config_t) : result := (stopped c, 0, []).

(** ** Addresses *)

(** The static buffer after a call that reads the first line of [output]; it
    keeps its text when nothing is read. *)
Definition get_url (fallback : cstr) (output : option (list Z)) (url : cstr) : cstr :=
  let url :=
    match output with
    | Some out =>
        match fgets_lines MAX_TUNNEL_URL out with
        | l :: _ => until_nul (take_while (λ b, negb (b =? 10)) l)
        | [] => url
        end
    | None => url
    end in
  match url with [] => fallback | _ => url end.

Definition tunnel_ngrok_get_url : option (list Z) → cstr → cstr := get_url (lit "https://your-ngrok-url.ngrok.io").
Definition tunnel_tailscale_get_url : option (list Z) → cstr → cstr := get_url (lit "100.x.x.x").
Definition tunnel_cloudflare_get_url : option (list Z) → cstr → cstr := get_url (lit "https://your-tunnel.cfcd.io").

(** ** What stopping stops *)

(** The number that is kept for a tunnel is that of the assistant itself:
    stopping a tunnel of its own command ends the assistant and not the
    tunnel. *)
Theorem custom_stop_kills_assistant c command c' acts :
  0 < getpid → tunnel_custom_start c command = (c', 0, acts) →
  tunnel_custom_stop c' = (stopped c', 0, [Kill getpid SIGTERM]) ∧ tc_connected c' = true.
Proof.
  unfold tunnel_custom_start, tunnel_custom_stop. intros Hp [= <- Hret _]. rewrite Hret. cbn [Z.eqb started tc_pid tc_connected].
  by rewrite (proj2 (Z.ltb_lt _ _) Hp).
Qed.
End tunnel.

(** An address that was read once is given again when the program no longer
    answers, and a made-up one when it never did. *)
Theorem tunnel_url_never_empty fallback outputs :
  fallback ≠ [] →
  ∀ url, foldl (λ u o, get_url fallback o u) url outputs ≠ [] ∨ outputs = [].
Proof.
  intros Hf. induction outputs as [|o outputs IH] using rev_ind; intros url; [by right|]. left.
  rewrite foldl_app. cbn [foldl]. unfold get_url at 1. by destruct (match o with Some _ => _ | None => _ end).
Qed.

Lemma custom_stop_kills_assistant_witness :
  tunnel_custom_stop (tunnel_custom_start (λ _, 0) 4242 tunnel_config_init (lit "ssh -R 80:x:80 h")).1.1 =
  (stopped (tunnel_custom_start (λ _, 0) 4242 tunnel_config_init (lit "ssh -R 80:x:80 h")).1.1, 0, [Kill 4242 SIGTERM]).
Proof.
  by apply (custom_stop_kills_assistant (λ _, 0) 4242 tunnel_config_init (lit "ssh -R 80:x:80 h") _
    [Run (lit "ssh -R 80:x:80 h")]).
Defined.

Lemma tunnel_url_never_empty_witness :
  foldl (λ u o, get_url (lit "100.x.x.x") o u) [] [Some (lit "100.1.2.3" ++ [10]); None] ≠ [].
Proof.
  by destruct (tunnel_url_never_empty (lit "100.x.x.x") [Some (lit "100.1.2.3" ++ [10]); None] ltac:(done) []).
Defined.
