(* ===== verification/Runtime.v ===== *)
(** * The runtime of [src/runtime/runtime.c]

    The life cycle of the runtime (idle, running, paused, stopped) with its
    clock, and the command lines for containers.  [system], [popen],
    [realpath] and the process number are arguments; [None] is a store behind
    the end of the command buffer. *)
From S2P Require Import Prelude Buffers Floats.

Inductive runtime_state_t := RUNTIME_STATE_IDLE | RUNTIME_STATE_RUNNING | RUNTIME_STATE_PAUSED | RUNTIME_STATE_STOPPED.

#[global] Instance runtime_state_eq_dec : EqDecision runtime_state_t.
Proof. solve_decision. Defined.

Record runtime_info_t := mk_info { rt_state : runtime_state_t; started_at : Z; uptime_seconds : Z }.

Record runtime_config_t := mk_runtime_config {
  rc_image : cstr;
  rc_working_dir : cstr;
  network_enabled : bool;
  privileged : bool;
  memory_limit : Z;
  cpu_limit : Z;
}.

Definition runtime_config_zero : runtime_config_t := mk_runtime_config [] [] false false 0 0.

(** The static variables, and the commands run so far. *)
Record runtime_t := mk_runtime {
  g_runtime : runtime_info_t;
  g_runtime_config : runtime_config_t;
  g_container_id : cstr;
  rt_commands : list cstr;
}.

Definition with_info (r : runtime_t) (i : runtime_info_t) : runtime_t :=
  mk_runtime i (g_runtime_config r) (g_container_id r) (rt_commands r).

(** ** Life cycle *)

Definition runtime_init (r : runtime_t) : runtime_t :=
  mk_runtime (mk_info RUNTIME_STATE_IDLE 0 0) runtime_config_zero (g_container_id r) (rt_commands r).

Definition runtime_start (now : Z) (r : runtime_t) : runtime_t :=
  with_info r (mk_info RUNTIME_STATE_RUNNING (u64 now) (uptime_seconds (g_runtime r))).

Definition runtime_docker_cleanup (r : runtime_t) : runtime_t :=
  match g_container_id r with
  | [] => r
  | id =>
      mk_runtime (g_runtime r) (g_runtime_config r) []
        (rt_commands r ++ [snprintf_s 128 (lit "docker rm -f " ++ id ++ lit " 2>/dev/null")])
  end.

Definition runtime_stop (now : Z) (r : runtime_t) : runtime_t :=
  let i := g_runtime r in
  runtime_docker_cleanup
    (with_info r (mk_info RUNTIME_STATE_STOPPED (started_at i)
       (if 0 <? started_at i then u64 (u64 now - started_at i) else uptime_seconds i))).

Definition set_state (r : runtime_t) (s : runtime_state_t) : runtime_t :=
  with_info r (mk_info s (started_at (g_runtime r)) (uptime_seconds (g_runtime r))).

Definition runtime_pause (r : runtime_t) : runtime_t * Z :=
  if bool_decide (rt_state (g_runtime r) = RUNTIME_STATE_RUNNING) then (set_state r RUNTIME_STATE_PAUSED, 0) else (r, -1).

Definition runtime_resume (r : runtime_t) : runtime_t * Z :=
  if bool_decide (rt_state (g_runtime r) = RUNTIME_STATE_PAUSED) then (set_state r RUNTIME_STATE_RUNNING, 0) else (r, -1).

Definition runtime_get_info (now : Z) (r : runtime_t) : runtime_info_t :=
  let i := g_runtime r in
  if (0 <? started_at i) && bool_decide (rt_state i = RUNTIME_STATE_RUNNING)
  then mk_info (rt_state i) (started_at i) (u64 (u64 now - started_at i)) else i.

Definition runtime_shutdown (now : Z) (r : runtime_t) : runtime_t := runtime_stop now r.

(** ** Containers *)

Definition validate_workspace_path (realpath : cstr → option cstr) (workspace : cstr) : Z :=
  match realpath workspace with
  | None => -1
  | Some p => if streq p (lit "/") || streq p (lit "/root") || streq p (lit "/home") then -1 else 0
  end.

Definition logged (r : runtime_t) (cmd : cstr) : runtime_t :=
  mk_runtime (g_runtime r) (g_runtime_config r) (g_container_id r) (rt_commands r ++ [cmd]).

Section docker.
Context (system : cstr → Z) (popen : cstr → option (list Z * Z)) (realpath : cstr → option cstr) (getpid : Z).

Definition runtime_docker_init (r : runtime_t) (config : runtime_config_t) : runtime_t * Z :=
  let cmd := lit "docker --version >/dev/null 2>&1" in
  let r := logged (mk_runtime (g_runtime r) config (g_container_id r) (rt_commands r)) cmd in
  if negb (system cmd =? 0) then (r, -1)
  else
    match rc_image config with
    | [] => (r, 0)
    | _ =>
        if negb (validate_workspace_path realpath (rc_working_dir config) =? 0) then (r, -1)
        else (mk_runtime (g_runtime r) config (snprintf_s 64 (lit "doctorclaw-" ++ fmt_dec getpid)) (rt_commands r), 0)
    end.

(** The pieces of the command, in their order. *)
Definition docker_pieces (c : runtime_config_t) (id command : cstr) : list cstr :=
  [lit "docker run --rm --name " ++ id] ++
  (if network_enabled c then [] else [lit " --network none"]) ++
  (if 0 <? memory_limit c then [lit " --memory=" ++ fmt_dec (memory_limit c / (1024 * 1024)) ++ lit "m"] else []) ++
  (if 0 <? cpu_limit c then [lit " --cpus=" ++ fmt_fixed 6 (f64_div (f64_of_Z (cpu_limit c)) (f64_of_Z 100))] else []) ++
  (if privileged c then [lit " --privileged"] else []) ++
  (match rc_working_dir c with
   | [] => []
   | d => if streq d (lit "/") then [] else [lit " -v " ++ d ++ lit ":" ++ d ++ lit ":ro"; lit " -w " ++ d]
   end) ++
  [lit " " ++ (match rc_image c with [] => lit "alpine" | i => i end) ++ lit " /bin/sh -c '" ++ command ++ lit "' 2>&1"].

Definition DOCKER_CMD : nat := Z.to_nat 4096.

Definition docker_command (c : runtime_config_t) (id command : cstr) : option cstr :=
  b ← sn_appends DOCKER_CMD (docker_pieces c id command) sb_empty; Some (sb_text b).

(** The code and the output. *)
Definition runtime_docker_run (r : runtime_t) (command : cstr) (output_size : nat) : option (runtime_t * Z * cstr) :=
  cmd ← docker_command (g_runtime_config r) (g_container_id r) command;
  let r := logged r cmd in
  Some (match popen cmd with
        | None => (r, -1, snprintf_s output_size (lit "Failed to run docker command"))
        | Some (out, status) =>
            (r, Z.land (Z.shiftr status 8) 255, collect_lines output_size (until_nul <$> fgets_lines 1024 out) [])
        end).

Definition runtime_docker_stop (r : runtime_t) : runtime_t * Z :=
  match g_container_id r with
  | [] => (r, 0)
  | id => let cmd := snprintf_s 128 (lit "docker stop " ++ id ++ lit " 2>/dev/null") in (logged r cmd, system cmd)
  end.

Definition runtime_docker_build (r : runtime_t) (dockerfile tag : cstr) : runtime_t * Z :=
  let cmd := snprintf_s 1024 (lit "docker build -f " ++ dockerfile ++ lit " -t " ++ tag ++ lit " .") in (logged r cmd, system cmd).

Definition runtime_docker_pull (r : runtime_t) (image : cstr) : runtime_t * Z :=
  let cmd := snprintf_s 512 (lit "docker pull " ++ image) in (logged r cmd, system cmd).

Definition runtime_docker_list (r : runtime_t) (output_size : nat) : runtime_t * Z * option cstr :=
  let cmd := lit "docker ps -a --format '{{.ID}} {{.Image}} {{.Status}}'" in
  match popen cmd with
  | None => (logged r cmd, -1, None)
  | Some (out, _) => (logged r cmd, 0, Some (collect_lines output_size (until_nul <$> fgets_lines 256 out) []))
  end.

Definition runtime_docker_remove (r : runtime_t) (container_id : cstr) : runtime_t * Z :=
  let cmd := snprintf_s 128 (lit "docker rm -f " ++ container_id) in (logged r cmd, system cmd).
End docker.

(** ** WASM and WASI, which only answer *)

Definition runtime_wasm_init (r : runtime_t) (config : runtime_config_t) : runtime_t * Z :=
  (mk_runtime (g_runtime r) config (g_container_id r) (rt_commands r), 0).
(** The functions that only print: their text and their code. *)
Definition runtime_wasm_load (size : Z) : cstr * Z :=
  (lit "[Runtime] WASM module loaded: " ++ fmt_dec size ++ lit " bytes" ++ [10], 0).
Definition runtime_wasm_cleanup : cstr * Z := (lit "[Runtime] WASM runtime cleaned up" ++ [10], 0).
Definition runtime_wasi_init (wasm_path : cstr) : cstr * Z :=
  (lit "[Runtime] WASI runtime initialized with: " ++ wasm_path ++ [10], 0).
Definition runtime_wasi_cleanup : cstr * Z := (lit "[Runtime] WASI runtime cleaned up" ++ [10], 0).
Definition runtime_wasm_run (function : cstr) (output_size : nat) : Z * cstr :=
  (0, snprintf_s output_size (lit "WASM function '" ++ function ++ lit "' executed")).
Definition runtime_wasi_run (output_size : nat) : Z * cstr :=
  (0, snprintf_s output_size (lit "WASI runtime executed (args count not tracked)")).

(** ** Properties *)


(** Pausing and resuming, in any order. *)
Definition switches (l : list bool) (r : runtime_t) : runtime_t :=
  foldl (λ r (pause : bool), fst (if pause then runtime_pause r else runtime_resume r)) r l.

Lemma switches_keep l r :
  started_at (g_runtime (switches l r)) = started_at (g_runtime r) ∧
  g_container_id (switches l r) = g_container_id r.
Proof.
  revert r. induction l as [|b l IH]; intros r; [done|]. cbn [switches foldl].
  destruct (IH (fst (if b then runtime_pause r else runtime_resume r))) as [H1 H2]. unfold switches in *.
  rewrite H1, H2. unfold runtime_pause, runtime_resume. destruct b; by case_bool_decide.
Qed.

(** The uptime of a run that is stopped is the time from its start, pauses
    included, in whatever order they came. *)
Theorem uptime_counts_pauses l r start now :
  0 < start ≤ now → now < 2 ^ 64 →
  let r' := runtime_stop now (switches l (runtime_start start r)) in
  uptime_seconds (g_runtime r') = now - start ∧ rt_state (g_runtime r') = RUNTIME_STATE_STOPPED ∧ g_container_id r' = [].
Proof.
  intros Hs Hn r'. subst r'. set (q := switches l _).
  assert (Hq : started_at (g_runtime q) = start).
  { unfold q. rewrite (proj1 (switches_keep _ _)). cbn [runtime_start with_info g_runtime started_at].
    unfold u64. rewrite Z.mod_small; lia. }
  unfold runtime_stop, runtime_docker_cleanup. rewrite Hq, (proj2 (Z.ltb_lt 0 start)) by lia.
  unfold u64. rewrite (Z.mod_small now), Z.mod_small by lia. by destruct (g_container_id _) eqn:E.
Qed.

(** Pausing succeeds from the running state only and resuming from the
    paused one only; a resumed run is the run that was paused. *)
Theorem pause_resume r :
  rt_state (g_runtime r) = RUNTIME_STATE_RUNNING →
  snd (runtime_resume r) = -1 ∧ snd (runtime_pause r) = 0 ∧
  snd (runtime_pause (fst (runtime_pause r))) = -1 ∧
  runtime_resume (fst (runtime_pause r)) = (r, 0).
Proof.
  destruct r as [[st sa up] c id cmds]. cbn. intros ->. by cbn.
Qed.

(** Stopping removes the container once, however often it is repeated. *)
Theorem container_removed_once r t1 t2 :
  rt_commands (runtime_stop t2 (runtime_stop t1 r)) = rt_commands (runtime_stop t1 r).
Proof. unfold runtime_stop, runtime_docker_cleanup, with_info. by destruct (g_container_id r). Qed.

(** A container command that fits its buffer is the pieces in their order, and
    has the network switched off unless the configuration allows it. *)
Theorem docker_command_exact c id command :
  (length (concat (docker_pieces c id command)) < DOCKER_CMD)%nat →
  docker_command c id command = Some (concat (docker_pieces c id command)) ∧
  (network_enabled c = false → ∃ rest,
     concat (docker_pieces c id command) = lit "docker run --rm --name " ++ id ++ lit " --network none" ++ rest).
Proof.
  intros H. split.
  - unfold docker_command. destruct (sn_appends_fits DOCKER_CMD (docker_pieces c id command) sb_empty) as (b & -> & _ & Hb).
    + split; [done|]. unfold DOCKER_CMD. cbn. lia.
    + done.
    + cbn. by rewrite Hb.
  - intros Hn. unfold docker_pieces. rewrite Hn. cbn [app concat]. eexists. by rewrite <- !app_assoc.
Qed.

(** Without a container name, which only an image sets and every stop clears,
    the word after [--name] is the option that switches the network off. *)
Theorem nameless_container_takes_option config r :
  rc_image config = [] → network_enabled config = false → g_container_id r = [] →
  ∀ system realpath pid command,
  let r' := fst (runtime_docker_init system realpath pid r config) in
  ∃ rest, concat (docker_pieces (g_runtime_config r') (g_container_id r') command)
          = lit "docker run --rm --name  --network none" ++ rest.
Proof.
  intros Hi Hn Hc system realpath pid command r'. subst r'.
  unfold runtime_docker_init. rewrite Hi.
  destruct (negb _); cbn; rewrite Hc; unfold docker_pieces; rewrite Hn; eexists; cbn; done.
Qed.

(** ** Witnesses *)

Definition runtime_new : runtime_t := mk_runtime (mk_info RUNTIME_STATE_IDLE 0 0) runtime_config_zero [] [].

Lemma uptime_counts_pauses_witness :
  uptime_seconds (g_runtime (runtime_stop 150 (switches [true; false; true] (runtime_start 100 runtime_new)))) = 50.
Proof. apply (uptime_counts_pauses [true; false; true] runtime_new 100 150); lia. Defined.

Lemma pause_resume_witness : runtime_resume (fst (runtime_pause (runtime_start 100 runtime_new))) = (runtime_start 100 runtime_new, 0).
Proof. apply (pause_resume (runtime_start 100 runtime_new)). reflexivity. Defined.

Definition demo_config : runtime_config_t := mk_runtime_config (lit "debian") (lit "/work") false false (64 * 1024 * 1024) 0.

Lemma docker_command_exact_witness :
  docker_command demo_config (lit "doctorclaw-7") (lit "ls") =
  Some (lit "docker run --rm --name doctorclaw-7 --network none --memory=64m -v /work:/work:ro -w /work debian /bin/sh -c 'ls' 2>&1").
Proof.
  rewrite (proj1 (docker_command_exact demo_config (lit "doctorclaw-7") (lit "ls") ltac:(vm_compute; lia))).
  vm_compute. reflexivity.
Defined.

Lemma nameless_container_takes_option_witness :
  ∃ rest, concat (docker_pieces runtime_config_zero [] (lit "ls")) = lit "docker run --rm --name  --network none" ++ rest.
Proof.
  apply (nameless_container_takes_option runtime_config_zero runtime_new eq_refl eq_refl eq_refl (λ _, 0) (λ _, None) 7 (lit "ls")).
Defined.
