(* ===== verification/Daemon.v ===== *)
(** * The daemon of [src/daemon/daemon.c]

    The table of components with their states, starting, stopping, restarting
    and the main loop.  [clock n] is the [n]-th reading of the clock in a call;
    the calls into other components are recorded. *)
From S2P Require Import Prelude Config.

Inductive daemon_state_t :=
  DAEMON_STATE_STOPPED | DAEMON_STATE_STARTING | DAEMON_STATE_RUNNING | DAEMON_STATE_STOPPING | DAEMON_STATE_FAILED.

#[global] Instance daemon_state_eq_dec : EqDecision daemon_state_t.
Proof. solve_decision. Defined.

Definition MAX_DAEMON_COMPONENTS : nat := 16.

Record daemon_component_t := mk_component {
  dc_name : cstr;
  dc_state : daemon_state_t;
  dc_started_at : Z;
  dc_last_heartbeat : Z;
  dc_healthy : bool;
  dc_error : cstr;
}.

Definition component_zero : daemon_component_t := mk_component [] DAEMON_STATE_STOPPED 0 0 false [].

Record daemon_context_t := mk_daemon {
  d_state : daemon_state_t;
  components : list daemon_component_t;
  component_count : nat;
  d_started_at : Z;
  d_uptime : Z;
}.

Definition daemon_init : daemon_context_t :=
  mk_daemon DAEMON_STATE_STOPPED (replicate MAX_DAEMON_COMPONENTS component_zero) 0 0 0.

Definition daemon_free (d : daemon_context_t) : daemon_context_t := daemon_init.

Definition daemon_get_state (d : option daemon_context_t) : daemon_state_t :=
  match d with None => DAEMON_STATE_FAILED | Some d => d_state d end.

Definition set_state (s : daemon_state_t) (d : daemon_context_t) : daemon_context_t :=
  mk_daemon s (components d) (component_count d) (d_started_at d) (d_uptime d).

Definition set_rows (rows : list daemon_component_t) (count : nat) (d : daemon_context_t) : daemon_context_t :=
  mk_daemon (d_state d) rows count (d_started_at d) (d_uptime d).

(** ** Components *)

Definition daemon_register_component (name : cstr) (d : daemon_context_t) : daemon_context_t * Z :=
  if (MAX_DAEMON_COMPONENTS <=? component_count d)%nat then (d, -1)
  else
    let c := mk_component (snprintf_s 64 name) DAEMON_STATE_STOPPED 0 0 false [] in
    (set_rows (<[component_count d := c]> (components d)) (S (component_count d)) d, 0).

Definition updated (now : Z) (state : daemon_state_t) (healthy : bool) (error : option cstr) (c : daemon_component_t)
    : daemon_component_t :=
  let beat := u64 now in
  mk_component (dc_name c) state
    (if bool_decide (state = DAEMON_STATE_RUNNING) && (dc_started_at c =? 0) then beat else dc_started_at c)
    beat healthy (match error with Some e => snprintf_s 256 e | None => dc_error c end).

Definition live (d : daemon_context_t) : list daemon_component_t := take (component_count d) (components d).

Definition daemon_update_component (now : Z) (name : cstr) (state : daemon_state_t) (healthy : bool)
    (error : option cstr) (d : daemon_context_t) : daemon_context_t * Z :=
  match find_idx (λ c, streq (dc_name c) name) (live d) with
  | Some i => (set_rows (alter (updated now state healthy error) i (components d)) (component_count d) d, 0)
  | None => (d, -1)
  end.

(** ** Starting and stopping *)

Inductive call := Providers_init | Memory_init (path : cstr) | Providers_shutdown.

Definition register (name : string) (d : daemon_context_t) : daemon_context_t := (daemon_register_component (lit name) d).1.
Definition running (now : Z) (name : string) (d : daemon_context_t) : daemon_context_t :=
  (daemon_update_component now (lit name) DAEMON_STATE_RUNNING true None d).1.

Definition daemon_start {D} (clock : nat → Z) (config : option (config_t D)) (d : daemon_context_t)
    : daemon_context_t * Z * list call :=
  match config with
  | None => (d, -1, [])
  | Some c =>
      let d := mk_daemon DAEMON_STATE_STARTING (components d) (component_count d) (u64 (clock 0%nat)) (d_uptime d) in
      let d := register "channels" (register "gateway" (register "memory" (register "providers" d))) in
      let d := running (clock 1%nat) "providers" d in
      let init :=
        match m_backend (c_memory c) with
        | [] => []
        | _ => [Memory_init (snprintf_s 512 (data_dir (c_paths c) ++ lit "/memory.db"))]
        end in
      let d := running (clock 2%nat) "memory" d in
      let d := running (clock 3%nat) "gateway" d in
      let d := running (clock 4%nat) "channels" d in
      (set_state DAEMON_STATE_RUNNING d, 0, Providers_init :: init)
  end.

Definition with_state (s : daemon_state_t) (c : daemon_component_t) : daemon_component_t :=
  mk_component (dc_name c) s (dc_started_at c) (dc_last_heartbeat c) (dc_healthy c) (dc_error c).

(** [for (i = 0; i < component_count; i++) components[i].state = s] *)
Definition mark_all (s : daemon_state_t) (d : daemon_context_t) : daemon_context_t :=
  set_rows (for_ 0 (component_count d) (λ i, alter (with_state s) i) (components d)) (component_count d) d.

Definition daemon_stop (d : daemon_context_t) : daemon_context_t * Z * list call :=
  let d := mark_all DAEMON_STATE_STOPPING (set_state DAEMON_STATE_STOPPING d) in
  let d := mark_all DAEMON_STATE_STOPPED d in
  (set_state DAEMON_STATE_STOPPED d, 0, [Providers_shutdown]).

(** The restart passes no configuration. *)
Definition daemon_restart (clock : nat → Z) (d : daemon_context_t) : daemon_context_t * Z * list call :=
  let '(d, _, l1) := daemon_stop d in
  let '(d, rc, l2) := daemon_start (D := unit) clock None d in
  (d, rc, l1 ++ l2).

(** ** What [daemon_status] prints *)

Definition state_name (s : daemon_state_t) : cstr :=
  match s with
  | DAEMON_STATE_STOPPED => lit "Stopped"
  | DAEMON_STATE_STARTING => lit "Starting"
  | DAEMON_STATE_RUNNING => lit "Running"
  | DAEMON_STATE_STOPPING => lit "Stopping"
  | DAEMON_STATE_FAILED => lit "Failed"
  end.

Definition component_line (c : daemon_component_t) : cstr :=
  lit "  " ++ pad 15 (dc_name c) ++ lit " " ++
  pad 10 (match dc_state c with
          | DAEMON_STATE_RUNNING => lit "running"
          | DAEMON_STATE_STOPPING => lit "stopping"
          | _ => lit "stopped"
          end) ++ lit " " ++ (if dc_healthy c then lit "[OK]" else lit "[FAILED]").

Definition daemon_status (now : Z) (d : daemon_context_t) : list cstr :=
  let uptime :=
    if bool_decide (d_state d = DAEMON_STATE_RUNNING) && (0 <? d_started_at d) then u64 (u64 now - d_started_at d) else 0 in
  [ lit "Doctor Claw Daemon Status"; lit "========================="; []; lit "State: " ++ state_name (d_state d);
    lit "Uptime: " ++ fmt_dec uptime ++ lit " seconds"; []; lit "Components (" ++ fmt_dec (Z.of_nat (component_count d)) ++ lit "):" ]
  ++ map component_line (live d).

(** ** The main loop *)

(** One second of the loop: whether a signal came in while it slept, and the
    clock after it. *)
Record second := mk_second { signalled : bool; at_ : Z }.

Definition signal_handler (d : daemon_context_t) : daemon_context_t := set_state DAEMON_STATE_STOPPING d.

(** The loop over the seconds it lives through; [None] when it is still running
    after the last of them.  [running] is [g_running]. *)
Fixpoint daemon_loop (running : bool) (l : list second) (d : daemon_context_t) : option daemon_context_t :=
  if negb (running && bool_decide (d_state d = DAEMON_STATE_RUNNING)) then Some d
  else
    match l with
    | [] => None
    | s :: l' =>
        let d := if signalled s then signal_handler d else d in
        let d := mk_daemon (d_state d) (components d) (component_count d) (d_started_at d) (u64 (u64 (at_ s) - d_started_at d)) in
        daemon_loop (running && negb (signalled s)) l' d
    end.

(** [during] tells whether a signal came in while [gateway_run] was serving. *)
Definition daemon_run {D} (clock : nat → Z) (config : config_t D) (during : bool) (l : list second)
    : option (daemon_context_t * Z * list call) :=
  let '(d, _, l1) := daemon_start clock (Some config) daemon_init in
  let d := if during then signal_handler d else d in
  d ← daemon_loop (negb during) l d;
  let '(d, _, l2) := daemon_stop d in
  Some (daemon_free d, 0, l1 ++ l2).

(** ** Properties *)

Definition daemon_ok (d : daemon_context_t) : Prop :=
  length (components d) = MAX_DAEMON_COMPONENTS ∧ (component_count d ≤ MAX_DAEMON_COMPONENTS)%nat.

Lemma alter_all {A} (f : A → A) n (a : list A) :
  (n ≤ length a)%nat → for_ 0 n (λ i, alter f i) a = map f (take n a) ++ drop n a.
Proof.
  induction n as [|n IH]; intros Hn; [done|]. rewrite for_snoc, IH by lia.
  destruct (lookup_lt_is_Some_2 a n) as [x Hx]; [lia|].
  rewrite (take_S_r _ _ _ Hx), map_app, <- app_assoc, (drop_S _ _ _ Hx). cbn [map app].
  assert (length (map f (take n a)) = n) as Hl by (rewrite length_map, length_take; lia).
  rewrite alter_app_r_alt by lia. by rewrite Hl, Nat.sub_diag.
Qed.

Lemma mark_all_live s d : daemon_ok d → live (mark_all s d) = map (with_state s) (live d) ∧ daemon_ok (mark_all s d).
Proof.
  intros [Hl Hc]. unfold live, mark_all. cbn [components component_count set_rows]. rewrite alter_all by lia.
  split; [|split; cbn [components component_count set_rows]; [|done]].
  - rewrite take_app_length'; [done|]. rewrite length_map, length_take. lia.
  - rewrite length_app, length_map, length_take, length_drop. lia.
Qed.

(** Stopping leaves every component stopped. *)
Lemma stop_live d : daemon_ok d →
  let '(d', _, _) := daemon_stop d in
  d_state d' = DAEMON_STATE_STOPPED ∧ live d' = map (with_state DAEMON_STATE_STOPPED) (live d) ∧ daemon_ok d'.
Proof.
  intros Hd. unfold daemon_stop.
  destruct (mark_all_live DAEMON_STATE_STOPPING (set_state DAEMON_STATE_STOPPING d)) as [E1 H1]; [exact Hd|].
  destruct (mark_all_live DAEMON_STATE_STOPPED _ H1) as [E2 H2]. split; [done|]. split; [|exact H2].
  change (live (set_state DAEMON_STATE_STOPPED ?x)) with (live x). rewrite E2, E1, map_map. done.
Qed.

(** A restart stops the daemon and does not start it again: it fails, and what
    it leaves is a stopped daemon with all of its components stopped. *)
Theorem restart_only_stops clock d : daemon_ok d →
  let '(d', rc, calls) := daemon_restart clock d in
  rc = -1 ∧ calls = [Providers_shutdown] ∧ d_state d' = DAEMON_STATE_STOPPED ∧
  Forall (λ c, dc_state c = DAEMON_STATE_STOPPED) (live d') ∧ map dc_name (live d') = map dc_name (live d).
Proof.
  intros Hd. unfold daemon_restart. pose proof (stop_live d Hd) as H. destruct (daemon_stop d) as [[d' rc] l] eqn:E.
  unfold daemon_stop in E. simplify_eq. cbn [daemon_start]. destruct H as (H1 & H2 & _).
  split_and!; [done..| |]; rewrite H2.
  - by apply Forall_map, Forall_true.
  - by rewrite map_map.
Qed.

(** What a start makes of the table, as name, state and health. *)
Definition row (c : daemon_component_t) : cstr * daemon_state_t * bool := (dc_name c, dc_state c, dc_healthy c).

Definition component_names : list cstr := [lit "providers"; lit "memory"; lit "gateway"; lit "channels"].

(** A first start has the four components running and healthy, whatever
    becomes of the memory it opens. *)
Theorem start_reports_healthy {D} clock (c : config_t D) :
  let '(d, rc, _) := daemon_start clock (Some c) daemon_init in
  rc = 0 ∧ d_state d = DAEMON_STATE_RUNNING ∧
  map row (live d) = map (λ n, (n, DAEMON_STATE_RUNNING, true)) component_names.
Proof. vm_compute. by split_and!. Qed.

(** A second start registers the components again; the new rows stay stopped
    and unhealthy. *)
Theorem second_start_doubles_components {D} clock clock' (c : config_t D) :
  let '(d, _, _) := daemon_start clock (Some c) daemon_init in
  let '(d, _, _) := daemon_stop d in
  let '(d, rc, _) := daemon_start clock' (Some c) d in
  rc = 0 ∧ map row (live d) =
    map (λ n, (n, DAEMON_STATE_RUNNING, true)) component_names ++
    map (λ n, (n, DAEMON_STATE_STOPPED, false)) component_names.
Proof. vm_compute. by split_and!. Qed.

Lemma loop_signal l s l' d :
  d_state d = DAEMON_STATE_RUNNING → Forall (λ s, signalled s = false) l → signalled s = true →
  ∃ d', daemon_loop true (l ++ s :: l') d = Some d' ∧ d_state d' = DAEMON_STATE_STOPPING ∧
        components d' = components d ∧ component_count d' = component_count d ∧
        d_uptime d' = u64 (u64 (at_ s) - d_started_at d).
Proof.
  intros Hd Hl Hs. revert d Hd. induction Hl as [|x l Hx _ IH]; intros d Hd.
  - cbn [app daemon_loop]. rewrite Hd. cbn [negb andb bool_decide]. rewrite bool_decide_eq_true_2 by done. cbn [negb].
    rewrite Hs. destruct l'; eexists; split; try reflexivity; by split_and!.
  - cbn [app daemon_loop]. rewrite Hd, bool_decide_eq_true_2 by done. cbn [negb andb]. rewrite Hx. cbn [negb].
    set (e := mk_daemon _ _ _ _ _). destruct (IH e) as (d' & H); [done|]. by exists d'.
Qed.

(** The daemon runs until the first signal, however long that takes, and then
    shuts down: the providers are released, everything is stopped, and the call
    succeeds.  Without a signal it goes on. *)
Theorem daemon_runs_until_signal {D} clock (c : config_t D) l :
  Forall (λ s, signalled s = false) l →
  daemon_run clock c false l = None ∧
  ∀ s l', signalled s = true →
    ∃ calls, daemon_run clock c false (l ++ s :: l') = Some (daemon_init, 0, calls) ∧
      last calls = Some Providers_shutdown ∧ Providers_init ∈ calls.
Proof.
  intros Hl. unfold daemon_run. pose proof (start_reports_healthy clock c) as Hst.
  destruct (daemon_start clock (Some c) daemon_init) as [[d rc] l1] eqn:E. destruct Hst as (_ & Hd & _).
  cbn [negb]. split.
  - clear E. assert (daemon_loop true l d = None) as ->; [|done]. revert d Hd. induction Hl as [|x l Hx _ IH]; intros d Hd.
    + cbn. by rewrite Hd.
    + cbn [daemon_loop]. rewrite Hd, bool_decide_eq_true_2 by done. cbn [negb andb]. rewrite Hx. by apply IH.
  - intros s l' Hs. destruct (loop_signal l s l' d Hd Hl Hs) as (d' & -> & _). cbn [mbind option_bind].
    unfold daemon_stop. eexists. split; [done|]. split; [apply last_snoc|].
    unfold daemon_start in E. simplify_eq. rewrite elem_of_app. left. by left.
Qed.

(** ** Witnesses *)

Lemma restart_only_stops_witness : snd (fst (daemon_restart (λ _, 5) daemon_init)) = -1.
Proof.
  pose proof (restart_only_stops (λ _, 5) daemon_init ltac:(split; vm_compute; [reflexivity|lia])) as H.
  destruct (daemon_restart (λ _, 5) daemon_init) as [[d rc] l]. apply H.
Defined.

Definition daemon_config_ex : config_t Z := config_init_defaults 7 (λ _, None).

Lemma daemon_runs_until_signal_witness :
  ∃ calls, daemon_run (λ _, 100) daemon_config_ex false ([mk_second false 101] ++ [mk_second true 102]) =
           Some (daemon_init, 0, calls).
Proof.
  destruct (daemon_runs_until_signal (λ _, 100) daemon_config_ex [mk_second false 101] ltac:(repeat constructor)) as [_ H].
  destruct (H (mk_second true 102) [] eq_refl) as (calls & Hc & _). by exists calls.
Defined.
