(* ===== verification/Devices.v ===== *)
(** * Devices: [src/hardware/hardware.c] and [src/peripherals/peripherals.c]

    The table of devices found under [/dev], and boards with their pins.  The
    names in a directory are an argument, [None] when it cannot be opened; so
    are [open] and [system]. *)
From S2P Require Import Prelude.

(** ** The hardware table *)

Module Hardware.

Inductive device_type_t :=
  DEVICE_TYPE_USB | DEVICE_TYPE_SERIAL | DEVICE_TYPE_BLUETOOTH | DEVICE_TYPE_NETWORK | DEVICE_TYPE_UNKNOWN.

Definition MAX_DEVICE_NAME : nat := 128.
Definition MAX_DEVICE_PATH : nat := 256.
Definition MAX_DEVICES : nat := 32.

(** The vendor and product numbers, which nothing sets, are left out. *)
Record hardware_device_t := mk_device { dv_name : cstr; dv_path : cstr; dv_type : device_type_t; dv_connected : bool }.

Definition device_zero : hardware_device_t := mk_device [] [] DEVICE_TYPE_USB false.

Record hardware_manager_t := mk_hardware { devices : list hardware_device_t; device_count : nat }.

Definition hardware_init : hardware_manager_t := mk_hardware (replicate MAX_DEVICES device_zero) 0.
Definition hardware_free (m : hardware_manager_t) : hardware_manager_t := hardware_init.

Definition hardware_add_device (m : hardware_manager_t) (name path : cstr) (type : device_type_t) : hardware_manager_t :=
  if (MAX_DEVICES <=? device_count m)%nat then m
  else
    mk_hardware (<[device_count m := mk_device (snprintf_s MAX_DEVICE_NAME name) (snprintf_s MAX_DEVICE_PATH path) type true]>
                   (devices m)) (S (device_count m)).

Definition dev_path (name : cstr) : cstr := snprintf_s 512 (lit "/dev/" ++ name).

Definition scan_prefix (prefix : cstr) (type : device_type_t) (m : hardware_manager_t) (names : list cstr)
    : hardware_manager_t :=
  foldl (λ m name, if strneq 3 name prefix then hardware_add_device m name (dev_path name) type else m) m names.

Definition hardware_scan_usb (dev : option (list cstr)) (m : hardware_manager_t) : hardware_manager_t * Z :=
  match dev with
  | None => (m, -1)
  | Some names => (scan_prefix (lit "usb") DEVICE_TYPE_USB m names, 0)
  end.

Definition hardware_scan_serial (dev : option (list cstr)) (m : hardware_manager_t) : hardware_manager_t * Z :=
  match dev with
  | None => (m, -1)
  | Some names => (scan_prefix (lit "cu.") DEVICE_TYPE_SERIAL m names, 0)
  end.

(** The directory is opened for each of the two scans. *)
Definition hardware_scan (dev1 dev2 : option (list cstr)) (m : hardware_manager_t) : hardware_manager_t * Z :=
  let m := mk_hardware (devices m) 0 in
  ((hardware_scan_serial dev2 (hardware_scan_usb dev1 m).1).1, 0).

Definition hardware_list (m : hardware_manager_t) : list hardware_device_t := take (device_count m) (devices m).

Definition hardware_find (m : hardware_manager_t) (name : cstr) : option hardware_device_t :=
  List.find (λ d, streq (dv_name d) name) (hardware_list m).

(** *** Properties *)

Definition ok (m : hardware_manager_t) : Prop :=
  length (devices m) = MAX_DEVICES ∧ (device_count m ≤ MAX_DEVICES)%nat.

Definition device_of (type : device_type_t) (name : cstr) : hardware_device_t :=
  mk_device (snprintf_s MAX_DEVICE_NAME name) (snprintf_s MAX_DEVICE_PATH (dev_path name)) type true.

Definition found (prefix : cstr) (type : device_type_t) (dev : option (list cstr)) : list hardware_device_t :=
  map (device_of type) (List.filter (λ n, strneq 3 n prefix) (default [] dev)).

Lemma add_device_list m name type :
  ok m → let m' := hardware_add_device m name (dev_path name) type in
  ok m' ∧ hardware_list m' = take MAX_DEVICES (hardware_list m ++ [device_of type name]).
Proof.
  intros [Hl Hc]. unfold hardware_add_device, hardware_list.
  assert (length (take (device_count m) (devices m)) = device_count m) as Ht by (rewrite length_take; lia).
  destruct (Nat.leb_spec MAX_DEVICES (device_count m)) as [H|H]; cbn [devices device_count].
  - split; [done|]. rewrite take_app_le by lia. by rewrite (take_ge (take _ _)) by lia.
  - split; [split; cbn [devices device_count]; [by rewrite length_insert|lia]|].
    rewrite take_insert_push by lia. rewrite (take_ge (_ ++ _)); [done|]. rewrite length_app. cbn [length]. lia.
Qed.

Lemma take_take_app {A} n (l k : list A) : take n (take n l ++ k) = take n (l ++ k).
Proof.
  rewrite !take_app, take_take, Nat.min_id, length_take. by replace (n - n `min` length l)%nat with (n - length l)%nat by lia.
Qed.

Lemma list_bounded m : ok m → take MAX_DEVICES (hardware_list m) = hardware_list m.
Proof. intros [Hl Hc]. apply take_ge. unfold hardware_list. rewrite length_take. lia. Qed.

Lemma scan_prefix_list prefix type names m :
  ok m → ok (scan_prefix prefix type m names) ∧
  hardware_list (scan_prefix prefix type m names) =
    take MAX_DEVICES (hardware_list m ++ found prefix type (Some names)).
Proof.
  revert m. induction names as [|n names IH]; intros m Hm; unfold scan_prefix in *; cbn [foldl].
  - split; [done|]. unfold found. cbn [default id List.filter map]. by rewrite app_nil_r, list_bounded.
  - unfold found in *. cbn [default id List.filter] in *. destruct (strneq 3 n prefix) eqn:E; [|by apply IH].
    destruct (add_device_list m n type Hm) as [Hm' Hl]. destruct (IH _ Hm') as [H1 H2]. split; [done|].
    rewrite H2, Hl, take_take_app, <- app_assoc. done.
Qed.

(** A scan gives the USB devices in the order of the directory, then the serial
    ones, the first 32 of them, whatever was in the table before. *)
Theorem scan_exact dev1 dev2 m :
  ok m → let m' := (hardware_scan dev1 dev2 m).1 in
  ok m' ∧ hardware_list m' =
    take MAX_DEVICES (found (lit "usb") DEVICE_TYPE_USB dev1 ++ found (lit "cu.") DEVICE_TYPE_SERIAL dev2).
Proof.
  intros [Hl _]. cbv zeta. unfold hardware_scan. cbn [fst].
  assert (∀ prefix type dev m, ok m →
    let m' := match dev with Some n => scan_prefix prefix type m n | None => m end in
    ok m' ∧ hardware_list m' = take MAX_DEVICES (hardware_list m ++ found prefix type dev)) as H.
  { intros prefix type [n|] m' Hm; [by apply scan_prefix_list|]. cbv zeta. split; [done|].
    unfold found. cbn [default id List.filter map]. by rewrite app_nil_r, list_bounded. }
  destruct (H (lit "usb") DEVICE_TYPE_USB dev1 (mk_hardware (devices m) 0)) as [H1 E1]; [split; cbn; [done|lia]|].
  destruct (H (lit "cu.") DEVICE_TYPE_SERIAL dev2 _ H1) as [H2 E2]. rewrite E1 in E2.
  unfold hardware_scan_usb, hardware_scan_serial. rewrite take_take_app in E2. destruct dev1, dev2; done.
Qed.

Lemma scan_exact_witness :
  map dv_path (hardware_list (hardware_scan (Some [lit "tty0"; lit "usbmon0"]) (Some [lit "cu.wlan"]) hardware_init).1) =
  [lit "/dev/usbmon0"; lit "/dev/cu.wlan"].
Proof.
  destruct (scan_exact (Some [lit "tty0"; lit "usbmon0"]) (Some [lit "cu.wlan"]) hardware_init) as [_ ->];
    [split; vm_compute; [reflexivity|lia]|by_eval].
Defined.
End Hardware.

(** ** Boards *)

Module Peripherals.

Inductive peripheral_type_t :=
  PERIPHERAL_NUCLEO_F401RE | PERIPHERAL_RPI_GPIO | PERIPHERAL_ARDUINO | PERIPHERAL_ESP32 | PERIPHERAL_UNKNOWN.

Inductive pin_mode_t := PIN_MODE_INPUT | PIN_MODE_OUTPUT | PIN_MODE_PWM.

Definition MAX_BOARD_NAME : nat := 64.
Definition PERIPHERAL_PATH : nat := 256.
Definition MAX_GPIO_PINS : nat := 32.
Definition MAX_PERIPHERALS : nat := 16.

Record gpio_pin_t := mk_pin { pin : Z; pin_mode : pin_mode_t; pin_value : bool }.

Definition pin_zero : gpio_pin_t := mk_pin 0 PIN_MODE_INPUT false.

Record peripheral_t := mk_peripheral {
  pe_name : cstr;
  pe_type : peripheral_type_t;
  device_path : cstr;
  pins : list gpio_pin_t;
  pe_connected : bool;
}.

Definition peripheral_zero : peripheral_t :=
  mk_peripheral [] PERIPHERAL_NUCLEO_F401RE [] (replicate MAX_GPIO_PINS pin_zero) false.

Definition board_name (t : peripheral_type_t) : cstr :=
  match t with
  | PERIPHERAL_NUCLEO_F401RE => lit "NUCLEO-F401RE"
  | PERIPHERAL_RPI_GPIO => lit "Raspberry Pi GPIO"
  | PERIPHERAL_ARDUINO => lit "Arduino"
  | PERIPHERAL_ESP32 => lit "ESP32"
  | PERIPHERAL_UNKNOWN => lit "Unknown"
  end.

Definition peripheral_init (type : peripheral_type_t) (path : option cstr) : peripheral_t :=
  mk_peripheral (snprintf_s MAX_BOARD_NAME (board_name type)) type
    (match path with Some p => snprintf_s PERIPHERAL_PATH p | None => [] end) (replicate MAX_GPIO_PINS pin_zero) false.

Definition set_connected (b : bool) (p : peripheral_t) : peripheral_t :=
  mk_peripheral (pe_name p) (pe_type p) (device_path p) (pins p) b.

(** [opens path] tells whether the device can be opened; the line settings it
    gets are left out, the device is closed again at once. *)
Definition peripheral_connect (opens : cstr → bool) (p : peripheral_t) : peripheral_t * Z :=
  match device_path p with
  | [] => (p, -1)
  | path => if opens path then (set_connected true p, 0) else (p, -1)
  end.

Definition peripheral_disconnect (p : peripheral_t) : peripheral_t * Z := (set_connected false p, 0).

Definition set_pin (i : nat) (f : gpio_pin_t → gpio_pin_t) (p : peripheral_t) : peripheral_t :=
  mk_peripheral (pe_name p) (pe_type p) (device_path p) (alter f i (pins p)) (pe_connected p).

Definition usable (n : Z) (p : peripheral_t) : bool := pe_connected p && (n <? Z.of_nat MAX_GPIO_PINS).

Definition peripheral_gpio_set_mode (n : Z) (mode : pin_mode_t) (p : peripheral_t) : peripheral_t * Z :=
  if usable n p then (set_pin (Z.to_nat n) (λ q, mk_pin n mode (pin_value q)) p, 0) else (p, -1).

Definition peripheral_gpio_write (n : Z) (v : bool) (p : peripheral_t) : peripheral_t * Z :=
  if usable n p then (set_pin (Z.to_nat n) (λ q, mk_pin (pin q) (pin_mode q) v) p, 0) else (p, -1).

Definition peripheral_gpio_read (n : Z) (p : peripheral_t) : option bool :=
  if usable n p then Some (pin_value (nth (Z.to_nat n) (pins p) pin_zero)) else None.

Definition peripheral_free (p : peripheral_t) : peripheral_t := peripheral_zero.

Definition CMD_LEN : nat := Z.to_nat 1024.

Definition flash_command (p : peripheral_t) (firmware : cstr) : cstr :=
  snprintf_s CMD_LEN
    (match pe_type p with
     | PERIPHERAL_ARDUINO =>
         lit "arduino-cli upload -p " ++ device_path p ++ lit " --fqbn arduino:avr:uno " ++ firmware ++
         lit " 2>/dev/null || echo 'arduino-cli not found'"
     | PERIPHERAL_NUCLEO_F401RE =>
         lit "stm32flash -w " ++ firmware ++ lit " -v -g 0x08000000 " ++ device_path p ++
         lit " 2>/dev/null || echo 'stm32flash not found'"
     | _ => lit "echo 'No flash tool for this board type'"
     end).

Definition peripheral_flash_firmware (system : cstr → Z) (p : peripheral_t) (firmware : cstr) : Z :=
  if system (flash_command p firmware) =? 0 then 0 else -1.

(** The commands of the upload helpers. *)
Definition arduino_upload (port fqbn sketch : cstr) : cstr :=
  snprintf_s CMD_LEN (lit "arduino-cli upload -p " ++ port ++ lit " --fqbn " ++ fqbn ++ lit " " ++ sketch).
Definition arduino_compile (fqbn sketch output : cstr) : cstr :=
  snprintf_s CMD_LEN (lit "arduino-cli compile --fqbn " ++ fqbn ++ lit " " ++ sketch ++ lit " -o " ++ output).
Definition nucleo_flash (port firmware : cstr) : cstr :=
  snprintf_s CMD_LEN (lit "stm32flash -w " ++ firmware ++ lit " -v -g 0x08000000 " ++ port).

(** The functions that only print: their text and their code. *)
Definition uno_q_setup (port : cstr) : cstr * Z :=
  (lit "[Peripherals] Setting up Unoquin board on " ++ port ++ [10], 0).
Definition uno_q_bridge (port : cstr) : cstr * Z := (lit "[Peripherals] Unoquin bridge mode on " ++ port ++ [10], 0).

(** [gpio] is the output of [ls], [None] when it cannot be started. *)
Definition capabilities_discover (gpio : option cstr) : cstr * Z :=
  (lit "[Peripherals] Discovering board capabilities..." ++ [10] ++
   match gpio with
   | Some out => concat (map (λ line, lit "  GPIO: " ++ line) (fgets_lines 64 out))
   | None => []
   end, 0).

(** The static table. *)
Record peripherals_t := mk_peripherals { g_peripherals : list peripheral_t; g_peripheral_count : nat }.

Definition peripherals_zero : peripherals_t := mk_peripherals (replicate MAX_PERIPHERALS peripheral_zero) 0.

Definition USBSERIAL : cstr := lit "/dev/cu.usbserial-1410".

(** What is found is printed; the table gets one board with a fixed path. *)
Definition peripheral_hardware_discover (g : peripherals_t) : peripherals_t * Z :=
  if (g_peripheral_count g <? MAX_PERIPHERALS)%nat then
    (mk_peripherals (<[g_peripheral_count g := peripheral_init PERIPHERAL_ARDUINO (Some USBSERIAL)]> (g_peripherals g))
       (S (g_peripheral_count g)), 0)
  else (g, 0).

(** The start of the table and the number of its rows. *)
Definition peripheral_list_configured (g : peripherals_t) : list peripheral_t * nat := (g_peripherals g, g_peripheral_count g).

Definition configured (g : peripherals_t) : list peripheral_t :=
  let '(table, n) := peripheral_list_configured g in take n table.

(** *** Properties *)

(** Every entry of the GPIO directory is printed on a line of its own, in the
    order of [ls]; an entry of 63 bytes or more would be cut in two. *)
Theorem capabilities_listed names :
  Forall (λ l, Forall (λ b, b ≠ 10) l ∧ (length l < 63)%nat) names →
  (capabilities_discover (Some (concat (map (λ l, l ++ [10]) names)))).1 =
  lit "[Peripherals] Discovering board capabilities..." ++ [10] ++
  concat (map (λ l, lit "  GPIO: " ++ l ++ [10]) names).
Proof. intros Hn. unfold capabilities_discover. cbn [fst]. by rewrite fgets_lines_all, map_map. Qed.

(** A pin of a connected board reads what was last written to it, every other
    pin what it read before, and neither depends on the mode of the pin; a
    board that is not connected and a pin that does not exist refuse both. *)
Theorem gpio_write_read n m v mode p :
  0 <= n → 0 <= m → length (pins p) = MAX_GPIO_PINS →
  let p' := (peripheral_gpio_write n v p).1 in
  peripheral_gpio_read m p' = (if usable n p && (m =? n) then Some v else peripheral_gpio_read m p) ∧
  peripheral_gpio_read m (peripheral_gpio_set_mode n mode p).1 = peripheral_gpio_read m p ∧
  (usable n p = false → peripheral_gpio_write n v p = (p, -1) ∧ peripheral_gpio_read n p = None) ∧
  length (pins p') = MAX_GPIO_PINS.
Proof.
  intros Hn Hm Hl. cbv zeta. unfold peripheral_gpio_write, peripheral_gpio_read, peripheral_gpio_set_mode.
  destruct (usable n p) eqn:E; cbn [fst andb]; [|done].
  assert (∀ f, usable m (set_pin (Z.to_nat n) f p) = usable m p) as Hu by done.
  unfold usable in E. bsplit. rewrite !Hu. split_and!; [| |done|].
  - destruct (Z.eqb_spec m n) as [->|Hne].
    + assert (usable n p = true) as -> by (unfold usable; apply andb_true_iff; split; [done|by apply Z.ltb_lt]).
      f_equal. cbn [set_pin pins]. destruct (lookup_lt_is_Some_2 (pins p) (Z.to_nat n)) as [q Hq]; [lia|].
      erewrite nth_lookup_Some; [|by rewrite list_lookup_alter_eq, Hq]. done.
    + destruct (usable m p); [|done]. f_equal. f_equal. cbn [set_pin pins]. rewrite !nth_lookup.
      by rewrite list_lookup_alter_ne by lia.
  - destruct (usable m p); [|done]. f_equal. cbn [set_pin pins]. rewrite !nth_lookup.
    destruct (decide (Z.to_nat n = Z.to_nat m)) as [->|Hne]; [|by rewrite list_lookup_alter_ne].
    rewrite list_lookup_alter_eq. by destruct (pins p !! Z.to_nat m).
  - cbn [set_pin pins]. etrans; [apply length_alter|done].
Qed.

(** Flashing reports success whatever the flashing program does, because the
    message behind [||] ends well, and for boards without such a program. *)
Theorem flash_always_succeeds system p firmware :
  (∀ c text, system (c ++ lit " || echo '" ++ text ++ lit "'") = 0) → system (lit "echo 'No flash tool for this board type'") = 0 →
  (length (device_path p) + length firmware < 900)%nat → peripheral_flash_firmware system p firmware = 0.
Proof.
  intros Hs He Hl. unfold peripheral_flash_firmware, flash_command, snprintf_s.
  rewrite take_ge by (destruct (pe_type p); rewrite ?length_app; vm_compute (length (lit _)); unfold CMD_LEN; lia).
  assert (∀ a b c d x, system (a ++ b ++ c ++ d ++ lit x) = system ((a ++ b ++ c ++ d) ++ lit x)) as Ha.
  { intros. by rewrite <- !app_assoc. }
  assert (∀ c t, system (c ++ lit (" 2>/dev/null || echo '" +:+ t +:+ "'")) = 0) as Ht.
  { intros c t. rewrite !lit_app. change (lit " 2>/dev/null || echo '") with (lit " 2>/dev/null" ++ lit " || echo '").
    rewrite <- app_assoc, app_assoc. apply Hs. }
  destruct (pe_type p); rewrite ?He; [|done| |done|done]; rewrite Ha.
  - by rewrite (Ht _ "stm32flash not found"%string).
  - by rewrite (Ht _ "arduino-cli not found"%string).
Qed.

Definition discover_times (n : nat) : peripherals_t :=
  Nat.iter n (λ g, (peripheral_hardware_discover g).1) peripherals_zero.

(** Discovery adds the same board every time, whatever is plugged in, until the
    table of sixteen is full. *)
Theorem discover_repeats n :
  configured (discover_times n) =
  replicate (n `min` MAX_PERIPHERALS) (peripheral_init PERIPHERAL_ARDUINO (Some USBSERIAL)).
Proof.
  assert (g_peripheral_count (discover_times n) = (n `min` MAX_PERIPHERALS)%nat ∧
          length (g_peripherals (discover_times n)) = MAX_PERIPHERALS ∧
          configured (discover_times n) =
            replicate (n `min` MAX_PERIPHERALS) (peripheral_init PERIPHERAL_ARDUINO (Some USBSERIAL))) as (_ & _ & H); [|done].
  induction n as [|n (Hc & Hl & IH)]; [done|]. change (discover_times (S n)) with (peripheral_hardware_discover (discover_times n)).1.
  unfold peripheral_hardware_discover, configured, peripheral_list_configured in *.
  destruct (Nat.ltb_spec (g_peripheral_count (discover_times n)) MAX_PERIPHERALS) as [H|H];
    cbn [fst g_peripherals g_peripheral_count].
  - rewrite length_insert, take_insert_push, IH, Hc by lia.
    replace (S n `min` MAX_PERIPHERALS)%nat with (S (n `min` MAX_PERIPHERALS)) by lia.
    split_and!; [done..|]. by rewrite replicate_S_end.
  - replace (S n `min` MAX_PERIPHERALS)%nat with (n `min` MAX_PERIPHERALS)%nat by lia. by split_and!.
Qed.

(** *** Witnesses *)

Definition board_ex : peripheral_t := (peripheral_connect (λ _, true) (peripheral_init PERIPHERAL_ARDUINO (Some USBSERIAL))).1.

Lemma gpio_write_read_witness :
  peripheral_gpio_read 13 (peripheral_gpio_write 13 true board_ex).1 = Some true.
Proof.
  destruct (gpio_write_read 13 13 true PIN_MODE_INPUT board_ex) as [-> _]; [lia|lia|by vm_compute|by vm_compute].
Defined.

Lemma flash_always_succeeds_witness : peripheral_flash_firmware (λ _, 0) board_ex (lit "fw.hex") = 0.
Proof. apply (flash_always_succeeds (λ _, 0)); [done|done|vm_compute; lia]. Defined.
End Peripherals.
