(* ===== verification/Migration.v ===== *)
(** * Migrations of [src/migration/migration.c]

    The table of migrations, the reader of exported JSON files, whose pairs go
    into the memory of [memory.c], the copying of directories and the
    rollback.  The disk is the map of its regular files; the names in a
    directory are an argument. *)
From stdpp Require Import gmap.
From S2P Require Import Prelude Floats Sqlite Muninn Memory MemoryMap.

Inductive migration_source_t :=
  MIGRATION_SOURCE_CLAUDE | MIGRATION_SOURCE_OPENAI | MIGRATION_SOURCE_OLLAMA | MIGRATION_SOURCE_LLAMACPP |
  MIGRATION_SOURCE_GENERIC | MIGRATION_SOURCE_NONE.

Inductive migration_state_t :=
  MIGRATION_STATE_PENDING | MIGRATION_STATE_SCANNING | MIGRATION_STATE_MIGRATING | MIGRATION_STATE_COMPLETED |
  MIGRATION_STATE_FAILED.

#[global] Instance migration_source_eq_dec : EqDecision migration_source_t.
Proof. solve_decision. Defined.

#[export] Instance migration_state_eq : EqDecision migration_state_t.
Proof. solve_decision. Defined.

Definition MAX_MIGRATION_PATH : nat := 512.
Definition MAX_MIGRATIONS : nat := 16.

Record migration_t := mk_migration {
  mg_source : migration_source_t;
  mg_state : migration_state_t;
  source_path : cstr;
  dest_path : cstr;
  items_scanned : nat;
  items_migrated : nat;
  items_failed : nat;
  mg_error : cstr;
}.

Definition migration_zero : migration_t := mk_migration MIGRATION_SOURCE_CLAUDE MIGRATION_STATE_PENDING [] [] 0 0 0 [].

Record migration_manager_t := mk_migrations { migrations : list migration_t; migration_count : nat }.

Definition migration_manager_init : migration_manager_t := mk_migrations (replicate MAX_MIGRATIONS migration_zero) 0.
Definition migration_manager_free (g : migration_manager_t) : migration_manager_t := migration_manager_init.

(** ** Names *)

Definition source_names : list (cstr * migration_source_t) :=
  [(lit "claude", MIGRATION_SOURCE_CLAUDE); (lit "openai", MIGRATION_SOURCE_OPENAI); (lit "ollama", MIGRATION_SOURCE_OLLAMA);
   (lit "llamacpp", MIGRATION_SOURCE_LLAMACPP); (lit "generic", MIGRATION_SOURCE_GENERIC)].

Definition migration_source_name (s : migration_source_t) : cstr :=
  match s with
  | MIGRATION_SOURCE_CLAUDE => lit "claude"
  | MIGRATION_SOURCE_OPENAI => lit "openai"
  | MIGRATION_SOURCE_OLLAMA => lit "ollama"
  | MIGRATION_SOURCE_LLAMACPP => lit "llamacpp"
  | MIGRATION_SOURCE_GENERIC => lit "generic"
  | MIGRATION_SOURCE_NONE => lit "unknown"
  end.

Definition migration_source_from_name (name : option cstr) : migration_source_t :=
  match name with
  | None => MIGRATION_SOURCE_NONE
  | Some n => match List.find (λ p, streq n p.1) source_names with Some p => p.2 | None => MIGRATION_SOURCE_NONE end
  end.

Definition migration_state_name (s : migration_state_t) : cstr :=
  match s with
  | MIGRATION_STATE_PENDING => lit "pending"
  | MIGRATION_STATE_SCANNING => lit "scanning"
  | MIGRATION_STATE_MIGRATING => lit "migrating"
  | MIGRATION_STATE_COMPLETED => lit "completed"
  | MIGRATION_STATE_FAILED => lit "failed"
  end.

(** ** The table *)

Definition migration_add (g : migration_manager_t) (source : migration_source_t) (src dst : cstr) : migration_manager_t * Z :=
  if (MAX_MIGRATIONS <=? migration_count g)%nat then (g, -1)
  else
    let m := mk_migration source MIGRATION_STATE_PENDING (snprintf_s MAX_MIGRATION_PATH src) (snprintf_s MAX_MIGRATION_PATH dst)
               0 0 0 [] in
    (mk_migrations (<[migration_count g := m]> (migrations g)) (S (migration_count g)), 0).

Definition migration_list (g : migration_manager_t) : list migration_t := take (migration_count g) (migrations g).

(** [strncmp(path, name, strlen(name)) == 0] *)
Definition source_starts (name : cstr) (m : migration_t) : bool := has_prefix name (source_path m).
Definition either_starts (name : cstr) (m : migration_t) : bool :=
  has_prefix name (source_path m) || has_prefix name (dest_path m).

Definition migration_status (g : migration_manager_t) (name : cstr) : option migration_t :=
  List.find (source_starts name) (migration_list g).

Definition set_state (s : migration_state_t) (m : migration_t) : migration_t :=
  mk_migration (mg_source m) s (source_path m) (dest_path m) (items_scanned m) (items_migrated m) (items_failed m) (mg_error m).

Definition set_counts (scanned migrated failed : nat) (m : migration_t) : migration_t :=
  mk_migration (mg_source m) (mg_state m) (source_path m) (dest_path m) scanned migrated failed (mg_error m).

Definition failed (text : string) (m : migration_t) : migration_t :=
  mk_migration (mg_source m) MIGRATION_STATE_FAILED (source_path m) (dest_path m) (items_scanned m) (items_migrated m)
    (items_failed m) (lit text).

(** ** The JSON reader *)

(** [room] is the number of bytes left in front of the terminator; the result
    is what was stored and where the scan stands. *)
Fixpoint scan_key (room : nat) (s : cstr) : cstr * cstr :=
  match room with
  | O => ([], s)
  | S r =>
      match s with
      | [] | 34 :: _ => ([], s)
      | 92 :: t =>
          match t with
          | [] => ([], [])
          | c :: t' => let '(k, rest) := scan_key r t' in (c :: k, rest)
          end
      | c :: t => let '(k, rest) := scan_key r t in (c :: k, rest)
      end
  end.

Fixpoint scan_value (room : nat) (s : cstr) : cstr * cstr :=
  match room with
  | O => ([], s)
  | S r =>
      match s with
      | [] | 34 :: _ => ([], s)
      | 92 :: ((34 | 92) as c) :: t => let '(v, rest) := scan_value r t in (c :: v, rest)
      | c :: t => let '(v, rest) := scan_value r t in (c :: v, rest)
      end
  end.

Definition between (b : Z) : bool :=
  (b =? 32) || (b =? 9) || (b =? 10) || (b =? 44) || (b =? 123) || (b =? 125).
Definition before_value (b : Z) : bool := (b =? 32) || (b =? 9) || (b =? 58).

Definition KEY_LEN : nat := 256.
Definition VALUE_LEN : nat := Z.to_nat 16384.

(** The reader stands at a quote, and steps over it. *)
Definition at_quote (s : cstr) : option cstr := match s with 34 :: t => Some t | _ => None end.

Definition parse_one_kv (s : cstr) : option (cstr * cstr * cstr) :=
  s ← at_quote (skip_while between s);
  let '(key, s) := scan_key (KEY_LEN - 1) s in
  s ← at_quote s;
  s ← at_quote (skip_while before_value s);
  let '(value, s) := scan_value (VALUE_LEN - 1) s in
  Some (key, value, default s (at_quote s)).

(** The pairs of a text, in their order; every pair takes up part of the text,
    so its length is fuel enough. *)
Fixpoint parse_pairs (fuel : nat) (s : cstr) : list (cstr * cstr) :=
  match fuel with
  | O => []
  | S f => match parse_one_kv s with Some (k, v, rest) => (k, v) :: parse_pairs f rest | None => [] end
  end.

Definition parse_all (s : cstr) : list (cstr * cstr) := parse_pairs (S (length s)) s.

(** ** Importing a file *)

Section import.
Context {D : Type} `{Sqlite D}.

Definition import_item (now : Z) (kv : cstr * cstr) : memory_item_t :=
  mk_item (snprintf_s MAX_MEMORY_KEY kv.1) (snprintf_s MAX_MEMORY_VALUE kv.2) (u64 now) [] MEMORY_CATEGORY_LONG_TERM.

(** The loop over the pairs; [clock n] is the time of the [n]-th item. *)
Fixpoint import_pairs (clock : nat → Z) (n : nat) (l : list (cstr * cstr)) (mem : memory_t D) (m : migration_t)
    : option (memory_t D * migration_t) :=
  match l with
  | [] => Some (mem, m)
  | kv :: l' =>
      '(mem, rc) ← memory_store (clock n) mem (import_item (clock n) kv);
      import_pairs clock (S n) l' mem
        (if rc =? 0 then set_counts (S (items_scanned m)) (S (items_migrated m)) (items_failed m) m
         else set_counts (S (items_scanned m)) (items_migrated m) (S (items_failed m)) m)
  end.

Definition MAX_JSON : nat := Z.to_nat (1024 * 1024).

Definition memory_path (m : migration_t) : cstr := snprintf_s MAX_MIGRATION_PATH (dest_path m ++ lit "/memory.db").

(** The migration, the code and the memory as it is before it is closed. *)
Definition migration_import_generic_json (clock : nat → Z) (file : option (list Z)) (m : migration_t)
    : option (migration_t * Z * option (memory_t D)) :=
  match file with
  | None => Some (failed "Cannot open JSON file" m, -1, None)
  | Some bytes =>
      if (length bytes =? 0)%nat || (MAX_JSON <? length bytes)%nat then Some (failed "Invalid file size" m, -1, None)
      else
        let '(mem, rc) := memory_init true MEMORY_BACKEND_SQLITE (Some (memory_path m)) in
        if negb (rc =? 0) then Some (failed "Memory init failed" m, -1, None)
        else
          '(mem, m) ← import_pairs clock 0 (parse_all (until_nul bytes)) mem m;
          _ ← memory_free mem;
          Some (m, 0, Some mem)
  end.

(** ** Copying a directory *)

Record disk_t := mk_disk { files : gmap cstr (list Z); listing : cstr → option (list cstr);
                           readable : cstr → bool; writable : cstr → bool }.

Definition set_files (d : disk_t) (f : gmap cstr (list Z)) : disk_t := mk_disk f (listing d) (readable d) (writable d).

Definition hidden (name : cstr) : bool := match name with 46 :: _ => true | _ => false end.

Definition migration_scan_directory (d : disk_t) (m : migration_t) : migration_t * Z :=
  match listing d (source_path m) with
  | None => (failed "Cannot open source directory" m, -1)
  | Some names =>
      (set_counts (items_scanned m + length (List.filter (λ n, negb (hidden n)) names)) (items_migrated m) (items_failed m) m, 0)
  end.

Definition FILE_LEN : nat := Z.to_nat 1024.
Definition file_in (dir name : cstr) : cstr := snprintf_s FILE_LEN (dir ++ lit "/" ++ name).

(** Opening the copy for writing empties it before anything is read. *)
Definition copy_file (src dst : cstr) (s : disk_t * nat) : disk_t * nat :=
  let '(d, n) := s in
  match files d !! src with
  | None => (d, n)
  | Some _ =>
      let d1 := if writable d dst then set_files d (<[dst := []]> (files d)) else d in
      if readable d src && writable d dst then (set_files d1 (<[dst := default [] (files d1 !! src)]> (files d1)), S n)
      else (d1, n)
  end.

Definition migration_copy_files (d : disk_t) (m : migration_t) : disk_t * migration_t * Z :=
  match listing d (source_path m) with
  | None => (d, m, -1)
  | Some names =>
      let '(d, n) := foldl (λ s name, if hidden name then s
                                      else copy_file (file_in (source_path m) name) (file_in (dest_path m) name) s)
                       (d, items_migrated m) names in
      (d, set_counts (items_scanned m) n (items_failed m) m, 0)
  end.

(** ** Running a migration *)

Definition is_json (path : cstr) : bool :=
  (5 <=? length path)%nat && streq (drop (length path - 5) path) (lit ".json").

Definition imports_json (m : migration_t) : bool :=
  (bool_decide (mg_source m = MIGRATION_SOURCE_GENERIC) || bool_decide (mg_source m = MIGRATION_SOURCE_OLLAMA) ||
   bool_decide (mg_source m = MIGRATION_SOURCE_CLAUDE) || bool_decide (mg_source m = MIGRATION_SOURCE_OPENAI)) &&
  is_json (source_path m).

Definition execute_one (clock : nat → Z) (d : disk_t) (m : migration_t) : option (disk_t * migration_t * Z * option (memory_t D)) :=
  if imports_json m then
    let m := set_state MIGRATION_STATE_MIGRATING (set_counts 0 0 0 m) in
    let file := if readable d (source_path m) then files d !! source_path m else None in
    '(m, rc, mem) ← migration_import_generic_json clock file m;
    Some (if negb (rc =? 0) then (d, m, -1, mem) else (d, set_state MIGRATION_STATE_COMPLETED m, 0, mem))
  else
    let '(m, rc) := migration_scan_directory d (set_state MIGRATION_STATE_SCANNING m) in
    if negb (rc =? 0) then Some (d, m, -1, None)
    else
      let '(d, m, _) := migration_copy_files d (set_state MIGRATION_STATE_MIGRATING m) in
      Some (d, set_state MIGRATION_STATE_COMPLETED m, 0, None).

Definition migration_execute (clock : nat → Z) (d : disk_t) (g : migration_manager_t) (name : cstr)
    : option (disk_t * migration_manager_t * Z * option (memory_t D)) :=
  match find_idx (either_starts name) (migration_list g) with
  | None => Some (d, g, -1, None)
  | Some i =>
      '(d, m, rc, mem) ← execute_one clock d (nth i (migrations g) migration_zero);
      Some (d, mk_migrations (<[i := m]> (migrations g)) (migration_count g), rc, mem)
  end.

(** Also the paths that were handed to [remove]. *)
Definition migration_rollback (d : disk_t) (g : migration_manager_t) (name : cstr) : migration_manager_t * Z * list cstr :=
  match find_idx (source_starts name) (migration_list g) with
  | None => (g, -1, [])
  | Some i =>
      let m := nth i (migrations g) migration_zero in
      match listing d (dest_path m) with
      | None => (g, -1, [])
      | Some names =>
          (mk_migrations (<[i := set_state MIGRATION_STATE_PENDING (set_counts (items_scanned m) 0 (items_failed m) m)]> (migrations g))
             (migration_count g), 0,
           map (file_in (dest_path m)) (List.filter (λ n, negb (hidden n)) names))
      end
  end.
End import.

(** ** What is exported comes back *)

Definition escape (s : cstr) : cstr := concat (map (λ b, if (b =? 34) || (b =? 92) then [92; b] else [b]) s).
Definition quote (s : cstr) : cstr := [34] ++ escape s ++ [34].
Definition print_pair (kv : cstr * cstr) : cstr := quote kv.1 ++ lit ": " ++ quote kv.2.

Definition pair_line (kv : cstr * cstr) : cstr := [10] ++ print_pair kv ++ lit ",".

(** A JSON object of strings, a line for each pair, commas between them. *)
Fixpoint print_members (l : list (cstr * cstr)) : cstr :=
  match l with
  | [] => []
  | [kv] => [10] ++ print_pair kv
  | kv :: l' => pair_line kv ++ print_members l'
  end.
Definition print_pairs (l : list (cstr * cstr)) : cstr := lit "{" ++ print_members l ++ [10] ++ lit "}".

Ltac by_byte c := destruct c as [|p|p]; try done; do 7 (destruct p as [p|p|]; try done).

Lemma at_quote_ne c t : c ≠ 34 → at_quote (c :: t) = None.
Proof. intros Hc. by_byte c. Qed.

Lemma scan_key_cons r c t :
  scan_key (S r) (c :: t) =
  if c =? 34 then ([], c :: t)
  else if c =? 92 then match t with [] => ([], []) | x :: t' => let '(k, rest) := scan_key r t' in (x :: k, rest) end
  else let '(k, rest) := scan_key r t in (c :: k, rest).
Proof. by_byte c. Qed.

Lemma scan_value_cons r c t :
  scan_value (S r) (c :: t) =
  if c =? 34 then ([], c :: t)
  else match (if c =? 92 then match t with x :: t' => if (x =? 34) || (x =? 92) then Some (x, t') else None | [] => None end
              else None) with
       | Some (x, t') => let '(v, rest) := scan_value r t' in (x :: v, rest)
       | None => let '(v, rest) := scan_value r t in (c :: v, rest)
       end.
Proof. by_byte c. destruct t as [|x t]; [done|]. by_byte x. Qed.

Lemma scan_key_escaped k rest room : (length k ≤ room)%nat → scan_key room (escape k ++ 34 :: rest) = (k, 34 :: rest).
Proof.
  revert room. induction k as [|b k IH]; intros room Hr; [by destruct room|].
  destruct room as [|r]; [cbn in Hr; lia|]. cbn [length] in Hr. unfold escape in *. cbn [map concat].
  destruct (Z.eqb_spec b 34) as [->|H1]; [cbn [orb app]; rewrite scan_key_cons; cbn [Z.eqb Pos.eqb]; by rewrite IH by lia|].
  destruct (Z.eqb_spec b 92) as [->|H2]; [cbn [orb app]; rewrite scan_key_cons; cbn [Z.eqb Pos.eqb]; by rewrite IH by lia|].
  cbn [orb app]. rewrite scan_key_cons, (proj2 (Z.eqb_neq b 34)), (proj2 (Z.eqb_neq b 92)) by done. by rewrite IH by lia.
Qed.

Lemma scan_value_escaped v rest room : (length v ≤ room)%nat → scan_value room (escape v ++ 34 :: rest) = (v, 34 :: rest).
Proof.
  revert room. induction v as [|b v IH]; intros room Hr; [by destruct room|].
  destruct room as [|r]; [cbn in Hr; lia|]. cbn [length] in Hr. unfold escape in *. cbn [map concat].
  destruct (Z.eqb_spec b 34) as [->|H1]; [cbn [orb app]; rewrite scan_value_cons; cbn [Z.eqb Pos.eqb orb]; by rewrite IH by lia|].
  destruct (Z.eqb_spec b 92) as [->|H2]; [cbn [orb app]; rewrite scan_value_cons; cbn [Z.eqb Pos.eqb orb]; by rewrite IH by lia|].
  cbn [orb app]. rewrite scan_value_cons, (proj2 (Z.eqb_neq b 34)), (proj2 (Z.eqb_neq b 92)) by done. by rewrite IH by lia.
Qed.

(** A pair that fits the buffers of the reader. *)
Definition pair_fits (kv : cstr * cstr) : Prop := (length kv.1 < KEY_LEN)%nat ∧ (length kv.2 < VALUE_LEN)%nat.

#[global] Instance pair_fits_dec kv : Decision (pair_fits kv).
Proof. unfold pair_fits. apply _. Defined.

Lemma parse_pair kv before rest :
  pair_fits kv → Forall (λ b, between b = true) before →
  parse_one_kv (before ++ print_pair kv ++ rest) = Some (kv.1, kv.2, rest).
Proof.
  intros [Hk Hv] Hb. unfold parse_one_kv.
  assert (skip_while between (before ++ print_pair kv ++ rest) = print_pair kv ++ rest) as ->.
  { induction Hb as [|b bs Hb _ IH]; [done|]. cbn [app skip_while]. by rewrite Hb. }
  unfold print_pair, quote. rewrite <- !app_assoc. cbn [app at_quote mbind option_bind].
  rewrite (scan_key_escaped kv.1) by lia. cbn [at_quote mbind option_bind lit app skip_while].
  change (before_value (ch ":")) with true. change (before_value (ch " ")) with true. cbn iota.
  change (before_value 34) with false. cbn iota. cbn [at_quote mbind option_bind].
  by rewrite (scan_value_escaped kv.2) by lia.
Qed.

Lemma parse_pairs_printed l before rest fuel :
  Forall pair_fits l → Forall (λ b, between b = true) before → (length l < fuel)%nat →
  (∀ bs, Forall (λ b, between b = true) bs → parse_one_kv (bs ++ rest) = None) →
  parse_pairs fuel (before ++ concat (map pair_line l) ++ rest) = l.
Proof.
  intros Hl. revert before fuel. induction Hl as [|kv l Hkv _ IH]; intros before fuel Hb Hf Hn.
  - destruct fuel as [|f]; [lia|]. cbn [map concat app parse_pairs]. by rewrite Hn.
  - destruct fuel as [|f]; [cbn in Hf; lia|]. cbn [length] in Hf. cbn [map concat parse_pairs]. unfold pair_line at 1.
    rewrite <- !app_assoc, (app_assoc before), parse_pair; [|done|apply Forall_app; by repeat constructor].
    destruct kv as [k v]. cbn [fst snd]. f_equal. apply (IH (lit ",")); [by repeat constructor|lia|done].
Qed.

(** Every pair takes up at least as much of the text as one unit of fuel. *)
Lemma pairs_length l : (length l ≤ length (concat (map pair_line l)))%nat.
Proof. induction l as [|kv l IH]; [done|]. cbn [map concat]. rewrite length_app. cbn. lia. Qed.

Lemma parse_all_printed l rest :
  Forall pair_fits l → (∀ bs, Forall (λ b, between b = true) bs → parse_one_kv (bs ++ rest) = None) →
  parse_all (lit "{" ++ concat (map pair_line l) ++ rest) = l.
Proof.
  intros Hl Hr. apply parse_pairs_printed; [done|by repeat constructor| |done].
  rewrite !length_app. pose proof (pairs_length l). lia.
Qed.

Lemma skip_between bs s : Forall (λ b, between b = true) bs → skip_while between (bs ++ s) = skip_while between s.
Proof. intros Hb. induction Hb as [|b bs Hb _ IH]; [done|]. cbn [app skip_while]. by rewrite Hb. Qed.

Lemma print_members_cons kv kv' l : print_members (kv :: kv' :: l) = pair_line kv ++ print_members (kv' :: l).
Proof. done. Qed.

Lemma parse_members l rest : Forall pair_fits l →
  (∀ bs, Forall (λ b, between b = true) bs → parse_one_kv (bs ++ rest) = None) →
  ∀ before fuel, Forall (λ b, between b = true) before → (length l < fuel)%nat →
  parse_pairs fuel (before ++ print_members l ++ rest) = l.
Proof.
  intros Hl Hn. induction Hl as [|kv l Hkv _ IH]; intros before fuel Hb Hf.
  { destruct fuel as [|f]; [lia|]. cbn [print_members app parse_pairs]. by rewrite Hn. }
  destruct fuel as [|f]; [cbn in Hf; lia|]. cbn [length] in Hf. destruct l as [|kv' l].
  - cbn [print_members]. rewrite <- !app_assoc, (app_assoc before). cbn [parse_pairs].
    rewrite parse_pair; [|done|apply Forall_app; by repeat constructor].
    destruct kv as [k v]. cbn [fst snd]. f_equal. destruct f as [|f]; [done|]. cbn [parse_pairs].
    change rest with ([] ++ rest). by rewrite Hn.
  - rewrite print_members_cons. unfold pair_line. cbn [parse_pairs].
    rewrite <- !app_assoc, (app_assoc before), parse_pair; [|done|apply Forall_app; by repeat constructor].
    destruct kv as [k v]. cbn [fst snd]. f_equal. apply (IH (lit ",")); [by repeat constructor|lia].
Qed.

Lemma members_length l : (length l ≤ length (print_members l))%nat.
Proof.
  induction l as [|kv l IH]; [done|]. destruct l as [|kv' l]; [cbn; lia|].
  rewrite print_members_cons, length_app. cbn [length] in *. unfold pair_line. rewrite length_app. cbn [length]. lia.
Qed.

(** An object of strings is read back pair by pair, quotes and backslashes
    included. *)
Theorem export_comes_back l : Forall pair_fits l → parse_all (print_pairs l) = l.
Proof.
  intros Hl. unfold parse_all, print_pairs. apply parse_members; [done| |by repeat constructor|].
  - intros bs Hb. unfold parse_one_kv. by rewrite skip_between.
  - rewrite !length_app. pose proof (members_length l). cbn [length]. lia.
Qed.

(** Other escapes come back changed: a line end written as \n stays a backslash
    and an n in a value, and becomes an n in a key. *)
Theorem import_changes_escapes : parse_all (jlit "{'a\nb': 'one\ntwo'}") = [(lit "anb", lit "one\ntwo")].
Proof. vm_compute. reflexivity. Qed.

(** The reader stops at the first value that is not a string: what follows is
    lost, and nobody is told. *)
Theorem import_stops_at_other_values l k c rest :
  Forall pair_fits l → (length k < KEY_LEN)%nat → c ≠ 34 → before_value c = false →
  parse_all (lit "{" ++ concat (map pair_line l) ++ [10] ++ quote k ++ lit ": " ++ c :: rest) = l.
Proof.
  intros Hl Hk Hc Hb. apply parse_all_printed; [done|]. intros bs Hbs. unfold parse_one_kv.
  rewrite skip_between by done. change ([10] ++ ?x) with (10 :: x). cbn [skip_while]. change (between 10) with true. cbn iota.
  unfold quote. rewrite <- !app_assoc. cbn [app skip_while]. change (between 34) with false. cbn iota.
  cbn [at_quote mbind option_bind]. rewrite (scan_key_escaped k) by lia. cbn [at_quote mbind option_bind lit app skip_while].
  change (before_value (ch ":")) with true. change (before_value (ch " ")) with true. cbn iota. rewrite Hb.
  by rewrite at_quote_ne.
Qed.

Section import_map.
Context {D : Type} `{MemoryLaws D}.

(** The map after an import: later pairs replace earlier ones. *)
Fixpoint imported (clock : nat → Z) (n : nat) (l : list (cstr * cstr)) (s : gmap cstr entry) : gmap cstr entry :=
  match l with
  | [] => s
  | kv :: l' => imported clock (S n) l' (<[kv.1 := (kv.2, clock n, [])]> s)
  end.

Lemma import_pairs_map clock l n (mem : memory_t D) m s :
  (∀ n, 0 <= clock n < 2 ^ 63) → Forall pair_fits l → represents mem s →
  ∃ mem', import_pairs clock n l mem m =
    Some (mem', set_counts (items_scanned m + length l) (items_migrated m + length l) (items_failed m) m) ∧
    represents mem' (imported clock n l s).
Proof.
  intros Hc Hl. revert n mem m s. induction Hl as [|kv l [Hk Hv] _ IH]; intros n mem m s Hr.
  - exists mem. cbn [import_pairs imported length]. rewrite !Nat.add_0_r. by destruct m.
  - cbn [import_pairs imported]. pose proof (Hc n) as Hn.
    assert (import_item (clock n) kv = mk_item kv.1 kv.2 (clock n) [] MEMORY_CATEGORY_LONG_TERM) as Hi.
    { unfold import_item. rewrite !snprintf_s_id by done. by rewrite wrap_small by lia. }
    destruct (command_refines (D := D) (λ x, x) (CStore (import_item (clock n) kv)) mem s) as (mem1 & Hs & Hr1); [|done|].
    { rewrite Hi. split; try done. cbn. unfold METADATA_LEN. lia. }
    cbn [impl_command spec_command fst snd] in Hs, Hr1. rewrite Hi in *. cbn [mi_key mi_value mi_timestamp mi_metadata] in Hr1.
    destruct (memory_store 0 mem _) as [[mem2 rc]|] eqn:Es; [|done]. cbn [mbind option_bind] in Hs.
    destruct (rc =? 0) eqn:Erc; [|done]. simplify_eq.
    assert (memory_store (clock n) mem (mk_item kv.1 kv.2 (clock n) [] MEMORY_CATEGORY_LONG_TERM) = Some (mem1, rc)) as ->.
    { rewrite <- Es. destruct (represents_handle mem s Hr) as (d & Hh & _). unfold memory_store. by rewrite Hh. }
    cbn [mbind option_bind]. rewrite Erc. destruct (IH (S n) mem1 (set_counts (S (items_scanned m)) (S (items_migrated m)) (items_failed m) m) _ Hr1)
      as (mem' & -> & Hr'). exists mem'. split; [|done]. do 2 f_equal. unfold set_counts. cbn. f_equal; lia.
Qed.

Lemma print_no_nul l :
  Forall (λ kv, Forall (λ b, b ≠ 0) kv.1 ∧ Forall (λ b, b ≠ 0) kv.2) l → Forall (λ b, b ≠ 0) (print_pairs l).
Proof.
  assert (∀ s, Forall (λ b, b ≠ 0) s → Forall (λ b, b ≠ 0) (quote s)) as Hq.
  { intros s Hs. unfold quote. apply Forall_app. split; [by repeat constructor|]. apply Forall_app. split; [|by repeat constructor].
    apply Forall_concat, Forall_map. eapply Forall_impl; [exact Hs|]. intros b Hb. case_if; by repeat constructor. }
  intros Hl. unfold print_pairs. rewrite !Forall_app. split_and!; [by repeat constructor| |by repeat constructor..].
  induction Hl as [|kv l [Hk Hv] _ IH]; [done|].
  assert (Forall (λ b, b ≠ 0) (print_pair kv)) as Hp
    by (unfold print_pair; rewrite !Forall_app; split_and!; auto; by repeat constructor).
  destruct l as [|kv' l]; [cbn [print_members]; apply Forall_app; split; [by repeat constructor|done]|].
  rewrite print_members_cons. unfold pair_line. rewrite !Forall_app. split_and!; auto; by repeat constructor.
Qed.

(** A migration whose source is an exported object of strings runs to its end:
    every pair is counted as scanned and as migrated, none as failed, and the
    memory then is the map it was with the pairs put in, one after the other,
    each under its key. *)
Theorem json_migration_stores_all clock l d m s :
  imports_json m = true → readable d (source_path m) = true → files d !! source_path m = Some (print_pairs l) →
  (length (print_pairs l) ≤ MAX_JSON)%nat → Forall pair_fits l →
  Forall (λ kv, Forall (λ b, b ≠ 0) kv.1 ∧ Forall (λ b, b ≠ 0) kv.2) l → (∀ n, 0 <= clock n < 2 ^ 63) →
  represents (memory_init (D := D) true MEMORY_BACKEND_SQLITE (Some (memory_path m))).1 s →
  ∃ mem, execute_one clock d m =
    Some (d, set_state MIGRATION_STATE_COMPLETED (set_counts (length l) (length l) 0 m), 0, Some mem) ∧
    represents mem (imported clock 0 l s).
Proof.
  intros Hj Hr Hf Hsz Hl Hz Hc Hm. unfold execute_one. rewrite Hj. cbn [set_state set_counts source_path]. rewrite Hr, Hf.
  unfold migration_import_generic_json.
  assert ((length (print_pairs l) =? 0)%nat = false) as -> by done. rewrite (proj2 (Nat.ltb_ge MAX_JSON _)) by lia. cbn [orb].
  change (memory_path (set_state ?a (set_counts ?b ?c ?e m))) with (memory_path m).
  assert ((memory_init (D := D) true MEMORY_BACKEND_SQLITE (Some (memory_path m))).2 = 0) as Hrc.
  { unfold memory_init. by destruct (db_open _). }
  destruct (memory_init true MEMORY_BACKEND_SQLITE _) as [mem0 rc]. cbn [fst snd] in *. subst rc. cbn [Z.eqb negb].
  rewrite until_nul_id by (by apply print_no_nul). rewrite export_comes_back by done.
  destruct (import_pairs_map clock l 0 mem0 (set_state MIGRATION_STATE_MIGRATING (set_counts 0 0 0 m)) s Hc Hl Hm)
    as (mem & -> & Hmem). cbn [mbind option_bind].
  assert (∃ mem', memory_free mem = Some mem') as [mem' ->].
  { destruct Hmem as [Hb (dd & Hh & _) _]. unfold memory_free, muninn_handle. rewrite Hb, Hh. cbn. by eexists. }
  cbn. by exists mem.
Qed.
End import_map.

(** ** Directories *)

Section directories.
Context (src dst : cstr).

(** The names that are copied, and the state of the disk for them. *)
Record copyable (d : disk_t) (names : list cstr) : Prop := {
  cp_visible : Forall (λ n, hidden n = false) names;
  cp_there : Forall (λ n, is_Some (files d !! file_in src n) ∧ readable d (file_in src n) = true) names;
  cp_writable : Forall (λ n, writable d (file_in dst n) = true) names;
  cp_distinct : NoDup (map (file_in dst) names);
  cp_apart : ∀ n m, n ∈ names → m ∈ names → file_in src n ≠ file_in dst m;
}.

Definition copy_names (names : list cstr) (s : disk_t * nat) : disk_t * nat :=
  foldl (λ s name, if hidden name then s else copy_file (file_in src name) (file_in dst name) s) s names.

(** Copying leaves every file outside the copies as it is. *)
Lemma copy_others names d n p :
  p ∉ map (file_in dst) names → files (copy_names names (d, n)).1 !! p = files d !! p.
Proof.
  revert d n. induction names as [|x names IH]; intros d n Hp; [done|]. cbn [map] in Hp.
  apply not_elem_of_cons in Hp as [Hx Hp]. cbn [copy_names foldl]. destruct (hidden x); [by apply IH|].
  unfold copy_file at 2. destruct (files d !! file_in src x); [|by apply IH].
  destruct (writable d (file_in dst x)); cbn [andb];
    [|rewrite andb_false_r; by apply IH]. rewrite andb_true_r.
  destruct (readable d (file_in src x)); unfold copy_names in IH; rewrite IH by done; cbn [files set_files];
    by rewrite !lookup_insert_ne by done.
Qed.

Lemma copy_names_exact names d n :
  copyable d names →
  (copy_names names (d, n)).2 = (n + length names)%nat ∧
  ∀ x, x ∈ names → files (copy_names names (d, n)).1 !! file_in dst x = files d !! file_in src x.
Proof.
  revert d n. induction names as [|x names IH]; intros d n Hc; [split; [cbn; lia|]; intros x Hx; by apply not_elem_of_nil in Hx|].
  destruct Hc as [Hv Ht Hw Hn Ha]. apply Forall_cons in Hv as [Hvx Hv]. apply Forall_cons in Ht as [[[c Hx] Hrx] Ht].
  apply Forall_cons in Hw as [Hwx Hw]. cbn [map] in Hn. apply NoDup_cons in Hn as [Hnx Hn].
  assert (copy_names (x :: names) (d, n) = copy_names names (set_files d (<[file_in dst x := c]> (files d)), S n)) as ->.
  { cbn [copy_names foldl]. rewrite Hvx. unfold copy_file at 2. rewrite Hx, Hrx, Hwx. cbn [andb files set_files].
    rewrite lookup_insert_ne by (intros E; apply (Ha x x); [by left|by left|done]). rewrite Hx. cbn [default id].
    by rewrite insert_insert_eq. }
  set (d' := set_files d _).
  assert (copyable d' names) as Hc'.
  { split; [done| |done|done|intros; by apply Ha; right]. apply Forall_forall. intros y Hy. rewrite Forall_forall in Ht.
    destruct (Ht y Hy) as [? ?]. split; [|done]. cbn [d' files set_files].
    rewrite lookup_insert_ne; [done|]. intros E. apply (Ha y x); [by right|by left|done]. }
  destruct (IH d' (S n) Hc') as [H1 H2]. split; [rewrite H1; cbn; lia|]. intros y Hy. apply elem_of_cons in Hy as [->|Hy].
  - rewrite copy_others by done. cbn [d' files set_files]. by rewrite lookup_insert_eq.
  - rewrite H2 by done. cbn [d' files set_files]. rewrite lookup_insert_ne; [done|].
    intros E. apply (Ha y x); [by right|by left|done].
Qed.
End directories.

(** A migration of a directory copies every file of it byte for byte, counts
    them, and leaves all other files as they are. *)
Theorem directory_migration_copies {D} `{Sqlite D} clock d m names :
  imports_json m = false → listing d (source_path m) = Some names →
  copyable (source_path m) (dest_path m) d names →
  ∃ d', execute_one (D := D) clock d m =
    Some (d', set_state MIGRATION_STATE_COMPLETED
                (set_counts (items_scanned m + length names) (items_migrated m + length names) (items_failed m) m), 0, None) ∧
    (∀ n, n ∈ names → files d' !! file_in (dest_path m) n = files d !! file_in (source_path m) n) ∧
    (∀ p, p ∉ map (file_in (dest_path m)) names → files d' !! p = files d !! p).
Proof.
  intros Hj Hd Hc. unfold execute_one. rewrite Hj. unfold migration_scan_directory. cbn [set_state source_path]. rewrite Hd.
  cbn [Z.eqb negb]. unfold migration_copy_files. cbn [set_state set_counts source_path dest_path items_migrated items_scanned items_failed].
  rewrite Hd. assert (List.filter (λ n, negb (hidden n)) names = names) as ->.
  { pose proof (cp_visible _ _ _ _ Hc) as Hv. clear -Hv. induction Hv as [|x l Hx _ IH]; [done|]. cbn. rewrite Hx. cbn. by rewrite IH. }
  destruct (copy_names_exact _ _ names d (items_migrated m) Hc) as [H1 H2].
  pose proof (copy_others (source_path m) (dest_path m) names d (items_migrated m)) as H3. unfold copy_names in *.
  destruct (foldl _ (d, items_migrated m) names) as [d' n]. cbn [fst snd] in *. subst n. exists d'. by split_and!.
Qed.

(** A directory copied onto itself is emptied: each file is truncated before
    it is read. *)
Theorem self_migration_empties_file p d n :
  is_Some (files d !! p) → readable d p = true → writable d p = true →
  files (copy_file p p (d, n)).1 !! p = Some [].
Proof.
  intros [c Hc] Hr Hw. unfold copy_file. rewrite Hc, Hr, Hw. cbn [andb fst files set_files].
  by rewrite !lookup_insert_eq.
Qed.

(** A rollback removes every visible file of the destination, whether the
    migration brought it there or not. *)
Theorem rollback_removes_everything d g name i names :
  find_idx (source_starts name) (migration_list g) = Some i →
  listing d (dest_path (nth i (migrations g) migration_zero)) = Some names →
  let '(_, rc, removed) := migration_rollback d g name in
  rc = 0 ∧ ∀ n, n ∈ names → hidden n = false → file_in (dest_path (nth i (migrations g) migration_zero)) n ∈ removed.
Proof.
  intros Hi Hl. unfold migration_rollback. rewrite Hi, Hl. split; [done|]. intros n Hn Hh. apply list_elem_of_fmap.
  exists n. split; [done|]. apply list_elem_of_In, List.filter_In. split; [by apply list_elem_of_In|by rewrite Hh].
Qed.

(** ** Witnesses *)

Definition pairs_ex : list (cstr * cstr) := [(lit "name", jlit "a 'quoted' word"); (lit "path", lit "c:\temp")].

Lemma export_comes_back_witness : parse_all (print_pairs pairs_ex) = pairs_ex.
Proof. apply export_comes_back. by apply (bool_decide_unpack _); vm_compute. Defined.

Lemma import_stops_at_other_values_witness : parse_all (jlit "{
'a': 'b',
'n': 5, 'lost': 'x'}") = [(lit "a", lit "b")].
Proof.
  apply (import_stops_at_other_values [(lit "a", lit "b")] (lit "n") 53 (jlit ", 'lost': 'x'}"));
    [by apply (bool_decide_unpack _); vm_compute|vm_compute; lia|done|done].
Defined.

Definition migration_ex : migration_t :=
  mk_migration MIGRATION_SOURCE_GENERIC MIGRATION_STATE_PENDING (lit "/tmp/export.json") (lit "/work") 0 0 0 [].

Definition disk_ex : disk_t :=
  mk_disk {[ lit "/tmp/export.json" := print_pairs pairs_ex; lit "/old/a.txt" := lit "text" ]}
    (λ p, if streq p (lit "/old") then Some [lit "a.txt"] else None) (λ _, true) (λ _, true).

Lemma json_migration_stores_all_witness :
  ∃ mem : memory_t (gmap cstr entry), execute_one (λ _, 100) disk_ex migration_ex =
    Some (disk_ex, set_state MIGRATION_STATE_COMPLETED (set_counts 2 2 0 migration_ex), 0, Some mem).
Proof.
  destruct (json_migration_stores_all (D := gmap cstr entry) (λ _, 100) pairs_ex disk_ex migration_ex ∅) as (mem & H & _);
    [by vm_compute|done|by vm_compute|apply Nat.leb_le; by vm_compute|by apply (bool_decide_unpack _); vm_compute
    |by apply (bool_decide_unpack _); vm_compute|lia
    |split; [done|eexists; split; [reflexivity|split; [by vm_compute|exact I]]|apply map_Forall_empty]|].
  exists mem. exact H.
Defined.

Definition directory_ex : migration_t :=
  mk_migration MIGRATION_SOURCE_LLAMACPP MIGRATION_STATE_PENDING (lit "/old") (lit "/new") 0 0 0 [].

Lemma directory_migration_copies_witness :
  ∃ d' r, execute_one (D := gmap cstr entry) (λ _, 100) disk_ex directory_ex = Some (d', r, 0, None) ∧
    files d' !! lit "/new/a.txt" = Some (lit "text").
Proof.
  destruct (directory_migration_copies (D := gmap cstr entry) (λ _, 100) disk_ex directory_ex [lit "a.txt"])
    as (d' & He & Hf & _); [by vm_compute|by vm_compute| |].
  { split; [by apply Forall_singleton|apply Forall_singleton; split; [eexists; by vm_compute|done]|by apply Forall_singleton
    |apply NoDup_singleton|intros n m Hn%list_elem_of_singleton Hm%list_elem_of_singleton; subst; by vm_compute]. }
  eexists d', _. split; [exact He|]. exact (Hf (lit "a.txt") ltac:(by left)).
Defined.

Lemma self_migration_empties_file_witness : files (copy_file (lit "/old/a.txt") (lit "/old/a.txt") (disk_ex, O)).1 !! lit "/old/a.txt" = Some [].
Proof. apply self_migration_empties_file; [by vm_compute; eexists|done|done]. Defined.

Definition migrations_ex : migration_manager_t :=
  (migration_add migration_manager_init MIGRATION_SOURCE_LLAMACPP (lit "/src") (lit "/old")).1.

Lemma rollback_removes_everything_witness :
  lit "/old/a.txt" ∈ snd (migration_rollback disk_ex migrations_ex (lit "/src")).
Proof.
  pose proof (rollback_removes_everything disk_ex migrations_ex (lit "/src") 0 [lit "a.txt"]
    ltac:(by vm_compute) ltac:(by vm_compute)) as H.
  destruct (migration_rollback disk_ex migrations_ex (lit "/src")) as [[g rc] removed].
  exact (proj2 H (lit "a.txt") ltac:(by left) eq_refl).
Defined.
