(* ===== verification/SkillForge.v ===== *)
(** * The skill forge of [src/skillforge/skillforge.c]

    The scores of a candidate, the removal of duplicates, the search on GitHub
    and the run over all sources.  [None] is a read through a null pointer or
    past the end of an array. *)
From S2P Require Import Prelude Floats Http.

Record scout_result_t := mk_scout {
  sr_name : cstr;
  sr_url : cstr;
  sr_description : cstr;
  stars : Z;
  language : option cstr;
  has_license : bool;
}.

Record skillforge_scores_t := mk_scores { compatibility : f64; quality : f64; security : f64 }.

Inductive recommendation_t := RECOMMENDATION_AUTO | RECOMMENDATION_MANUAL | RECOMMENDATION_SKIP.

Record eval_result_t := mk_eval {
  candidate : scout_result_t;
  scores : skillforge_scores_t;
  total_score : f64;
  recommendation : recommendation_t;
}.

Record skillforge_config_t := mk_forge_config {
  enabled : bool;
  auto_integrate : bool;
  sources : list cstr;
  scan_interval_hours : Z;
  cfg_min_score : f64;
  github_token : option cstr;
  output_dir : cstr;
}.

Definition skillforge_config_init : skillforge_config_t :=
  mk_forge_config false true [lit "github"; lit "clawhub"] 24 (f64_const 7 10) None (lit "./skills").

(** The configuration, with the copies of the score and the directory that the
    evaluator and the integrator keep. *)
Record skillforge_t := mk_forge { config : skillforge_config_t; min_score : f64; integrator_dir : cstr }.

Definition skillforge_init (c : skillforge_config_t) : skillforge_t := mk_forge c (cfg_min_score c) (output_dir c).

(** ** Scores *)

Definition skillforge_scores_total (s : skillforge_scores_t) : f64 :=
  f64_add (f64_add (f64_mul (compatibility s) (f64_const 30 100)) (f64_mul (quality s) (f64_const 35 100)))
    (f64_mul (security s) (f64_const 35 100)).

(** Eight patterns are declared and seven given: the last is a null pointer. *)
Definition BAD_PATTERNS : list (option cstr) :=
  [Some (lit "malware"); Some (lit "exploit"); Some (lit "hack"); Some (lit "crack"); Some (lit "keygen");
   Some (lit "ransomware"); Some (lit "trojan"); None].

Definition is_alnum (b : Z) : bool :=
  ((97 <=? b) && (b <=? 122)) || ((65 <=? b) && (b <=? 90)) || ((48 <=? b) && (b <=? 57)).

(** The test of the loop body at offset [i]. *)
Definition word_at (h w : cstr) (i : nat) : bool :=
  ((i =? 0)%nat || negb (is_alnum (nth (i - 1) h 0))) &&
  ((length h <=? i + length w)%nat || negb (is_alnum (nth (i + length w) h 0))) &&
  has_prefix w (drop i h).

(** The last offset is the difference of two sizes: where the text is shorter
    than the word it wraps around and the loop runs out of the array. *)
Definition contains_word (h w : cstr) : option bool :=
  if (length h <? length w)%nat then None else Some (existsb (word_at h w) (seq 0 (S (length h - length w)))).

Fixpoint bad_word (patterns : list (option cstr)) (name desc : cstr) : option bool :=
  match patterns with
  | [] => Some false
  | None :: _ => None
  | Some w :: ps =>
      a ← contains_word name w;
      if (a : bool) then Some true
      else
        b ← contains_word desc w;
        if (b : bool) then Some true else bad_word ps name desc
  end.

Definition compatibility_of (l : option cstr) : f64 :=
  match l with
  | None => f64_const 2 10
  | Some l =>
      if streq l (lit "Rust") then f64_of_Z 1
      else if streq l (lit "Python") || streq l (lit "TypeScript") || streq l (lit "JavaScript") then f64_const 6 10
      else f64_const 3 10
  end.

Definition quality_of (stars : Z) : f64 :=
  let q := f64_div (f64_add (f64_of_Z stars) (f64_of_Z 1)) (f64_of_Z 1024) in
  if f64_ltb (f64_of_Z 1) q then f64_of_Z 1 else q.

Definition security_of (license bad : bool) : f64 :=
  let s := f64_const 5 10 in
  let s := if license then f64_add s (f64_const 3 10) else s in
  let s := if bad then f64_sub s (f64_const 5 10) else s in
  let s := if f64_ltb s f64_zero then f64_zero else s in
  if f64_ltb (f64_of_Z 1) s then f64_of_Z 1 else s.

Definition recommend (min total : f64) : recommendation_t :=
  if SFleb min total then RECOMMENDATION_AUTO
  else if SFleb (f64_const 4 10) total then RECOMMENDATION_MANUAL else RECOMMENDATION_SKIP.

Definition skillforge_evaluate (sf : skillforge_t) (c : scout_result_t) : option eval_result_t :=
  bad ← bad_word BAD_PATTERNS (map tolower (take 255 (sr_name c))) (map tolower (take 2047 (sr_description c)));
  let s := mk_scores (compatibility_of (language c)) (quality_of (stars c)) (security_of (has_license c) bad) in
  let total := skillforge_scores_total s in
  Some (mk_eval c s total (recommend (min_score sf) total)).

(** ** Duplicates *)

Definition url_at (l : list scout_result_t) (i : nat) : option cstr := sr_url <$> l !! i.

(** [for (j = i + 1; j < count; j++) if (same url) seen[j] = 1] *)
Definition mark_same (l : list scout_result_t) (i : nat) (seen : list bool) : list bool :=
  for_ (S i) (length l) (λ j seen, if bool_decide (url_at l i = url_at l j) then <[j := true]> seen else seen) seen.

Definition mark_seen (l : list scout_result_t) : list bool :=
  for_ 0 (length l) (λ i seen, if nth i seen false then seen else mark_same l i seen) (replicate (length l) false).

(** The array and the new count; [results] is [None] for a null pointer. *)
Definition skillforge_scout_dedup (results : option (list scout_result_t)) (count : nat)
    : option (option (list scout_result_t) * nat) :=
  match results with
  | None => if (count <=? 1)%nat then Some (None, count) else None
  | Some l =>
      let l := take count l in
      let seen := mark_seen l in
      let '(a, n) := for_ 0 (length l) (λ i '(a, n), if nth i seen false then (a, n) else (arr_copy n i a, S n)) (l, O) in
      Some (Some a, n)
  end.

(** ** The search and the run *)

Section forge.
Context {W : Type} `{Curl W}.

Definition scout_queries : list cstr := [lit "zeroclaw+skill"; lit "ai+agent+skill"].

Definition scout_request (sf : skillforge_t) (query : cstr) : request :=
  mk_request (snprintf_s 512 (lit "https://api.github.com/search/repositories?q=" ++ query ++ lit "&sort=stars&order=desc&per_page=30"))
    ([lit "Accept: application/vnd.github+json"; lit "User-Agent: DoctorClaw-SkillForge/0.1"] ++
     match github_token (config sf) with Some t => [snprintf_s 256 (lit "Authorization: Bearer " ++ t)] | None => [] end)
    None 30 300.

Definition github_write_callback : curl_response_t → list Z → curl_response_t := append_piece.

(** Nothing of the reply is read: only the count goes up. *)
Definition scout_query (sf : skillforge_t) (s : W * nat) (query : cstr) : W * nat :=
  let '(w, tr) := curl_easy_perform (fst s) (scout_request sf query) in
  let response := foldl github_write_callback curl_response_zero (tr_pieces tr) in
  (w, if tr_ok tr && match cr_data response with Some _ => true | None => false end then S (snd s) else snd s).

Definition skillforge_scout_github (sf : skillforge_t) (w : W) (results : option (list scout_result_t)) (count : nat)
    : W * option (list scout_result_t) * nat * Z :=
  let '(w, ok) := curl_easy_init w in
  if negb ok then (w, results, count, -1)
  else let '(w, n) := foldl (scout_query sf) (w, O) scout_queries in (w, None, n, 0).

Record forge_report_t := mk_report {
  discovered : nat;
  evaluated : nat;
  auto_integrated : nat;
  manual_review : nat;
  skipped : nat;
  results : list eval_result_t;
}.

Definition report_zero : forge_report_t := mk_report 0 0 0 0 0 [].

Definition count_result (auto : bool) (r : forge_report_t) (e : eval_result_t) : forge_report_t :=
  let '(a, m, s) :=
    match recommendation e with
    | RECOMMENDATION_AUTO => if auto then (1, 0, 0)%nat else (0, 1, 0)%nat
    | RECOMMENDATION_MANUAL => (0, 1, 0)%nat
    | RECOMMENDATION_SKIP => (0, 0, 1)%nat
    end in
  mk_report (discovered r) (evaluated r) (auto_integrated r + a) (manual_review r + m) (skipped r + s) (results r ++ [e]).

(** The loop over the candidates: reading one of a null array fails. *)
Fixpoint evaluate_all (sf : skillforge_t) (cs : list (option scout_result_t)) (r : forge_report_t) : option forge_report_t :=
  match cs with
  | [] => Some r
  | c :: cs' =>
      c ← c;
      e ← skillforge_evaluate sf c;
      evaluate_all sf cs' (count_result (auto_integrate (config sf)) r e)
  end.

Definition scout_all (sf : skillforge_t) (w : W) : W * option (list scout_result_t) * nat :=
  foldl (λ '(w, res, n) s,
    if streq s (lit "github") then let '(w, res, n, _) := skillforge_scout_github sf w res n in (w, res, n) else (w, res, n))
    (w, None, O) (sources (config sf)).

Definition skillforge_run (sf : skillforge_t) (w : W) : option (W * forge_report_t * Z) :=
  if negb (enabled (config sf)) then Some (w, report_zero, 0)
  else
    let '(w, res, n) := scout_all sf w in
    '(res, n) ← skillforge_scout_dedup res n;
    let cs := match res with None => replicate n None | Some l => map Some (take n l) end in
    r ← evaluate_all sf cs (mk_report n 0 0 0 0 []);
    Some (w, mk_report (discovered r) (length (results r)) (auto_integrated r) (manual_review r) (skipped r) (results r), 0).
End forge.

(** ** Words *)

Definition boundary_before (a : cstr) : Prop := match last a with Some b => is_alnum b = false | None => True end.
Definition boundary_after (b : cstr) : Prop := match b with c :: _ => is_alnum c = false | [] => True end.

Lemma word_at_spec h w i :
  (i + length w ≤ length h)%nat →
  word_at h w i = true ↔
  ∃ b, h = take i h ++ w ++ b ∧ boundary_before (take i h) ∧ boundary_after b.
Proof.
  intros Hi. unfold word_at. rewrite !andb_true_iff, !orb_true_iff, !negb_true_iff, Nat.eqb_eq, Nat.leb_le, has_prefix_spec.
  assert (∀ b, drop i h = w ++ b → nth (i + length w) h 0 = nth 0 b 0 ∧ length h = (i + length w + length b)%nat) as Hd.
  { intros b Hb. assert (h = take i h ++ w ++ b) as Hh by (by rewrite <- Hb, take_drop).
    assert (length (take i h) = i) as Ht by (rewrite length_take; lia). clear Hb.
    set (t := take i h) in *. clearbody t. subst h. rewrite !length_app, Ht. split; [|lia].
    rewrite app_nth2, Ht by lia. replace (i + length w - i)%nat with (length w) by lia.
    by rewrite app_nth2, Nat.sub_diag by lia. }
  assert ((i = 0%nat ∨ is_alnum (nth (i - 1) h 0) = false) ↔ boundary_before (take i h)) as Hb.
  { unfold boundary_before. destruct i as [|i]; [by split; [|left]|].
    destruct (lookup_lt_is_Some_2 h i) as [x Hx]; [lia|]. rewrite (take_S_r _ _ _ Hx), last_snoc.
    replace (S i - 1)%nat with i by lia. rewrite (nth_lookup_Some _ _ _ _ Hx). split; [intros [?|?]; done|by right]. }
  rewrite Hb. split.
  - intros [[H1 H2] [b E]]. exists b. destruct (Hd b E) as [Hn Hl]. split_and!; [by rewrite <- E, take_drop|done|].
    destruct b as [|c b]; [done|]. cbn [boundary_after]. cbn [nth length] in *. rewrite Hn in H2. destruct H2; [lia|done].
  - intros (b & E & H1 & H2). assert (drop i h = w ++ b) as Ed.
    { rewrite E at 1. rewrite drop_app_length'; [done|]. rewrite length_take. lia. }
    destruct (Hd b Ed) as [Hn Hl]. split_and!; [done| |by exists b]. rewrite Hn. destruct b; [left; cbn in *; lia|by right].
Qed.

(** The loop finds a word exactly where it stands alone, between characters
    that are neither letters nor digits or at an end of the text. *)
Theorem contains_word_spec h w : (length w ≤ length h)%nat →
  (contains_word h w = Some true ↔ ∃ a b, h = a ++ w ++ b ∧ boundary_before a ∧ boundary_after b).
Proof.
  intros Hl. unfold contains_word. rewrite (proj2 (Nat.ltb_ge _ _)) by lia. rewrite (inj_iff Some), existsb_exists. split.
  - intros (i & Hi & Hw). apply in_seq in Hi. apply word_at_spec in Hw as (b & E & ? & ?); [|lia]. by exists (take i h), b.
  - intros (a & b & -> & Ha & Hb). exists (length a). rewrite !length_app in *. split; [apply in_seq; lia|].
    apply word_at_spec; [rewrite !length_app; lia|]. rewrite take_app_length. by exists b.
Qed.

Lemma bad_word_true patterns name desc bad :
  bad_word patterns name desc = Some bad → None ∈ patterns →
  bad = true ∧ ∃ w, Some w ∈ patterns ∧ (contains_word name w = Some true ∨ contains_word desc w = Some true).
Proof.
  induction patterns as [|[w|] ps IH]; cbn [bad_word]; intros Hb Hn; [by apply not_elem_of_nil in Hn| |done].
  apply elem_of_cons in Hn as [?|Hn]; [done|].
  destruct (contains_word name w) as [[]|] eqn:E1; cbn in Hb; [| |done].
  { simplify_eq. split; [done|]. exists w. split; [by left|by left]. }
  destruct (contains_word desc w) as [[]|] eqn:E2; cbn in Hb; [| |done].
  { simplify_eq. split; [done|]. exists w. split; [by left|by right]. }
  destruct (IH Hb Hn) as (-> & v & ? & ?). split; [done|]. exists v. split; [by right|done].
Qed.

(** Only candidates that are suspected can be evaluated: for all others the
    loop over the patterns reaches its null pointer.  And the suspicion costs
    them a part of the security score only. *)
Theorem only_suspects_evaluated sf c r :
  skillforge_evaluate sf c = Some r →
  security (scores r) = security_of (has_license c) true ∧
  ∃ w, Some w ∈ BAD_PATTERNS ∧
    (contains_word (map tolower (take 255 (sr_name c))) w = Some true ∨
     contains_word (map tolower (take 2047 (sr_description c))) w = Some true).
Proof.
  unfold skillforge_evaluate. destruct (bad_word _ _ _) as [bad|] eqn:E; [|done]. cbn. intros [= <-].
  apply bad_word_true in E as (-> & w & ? & ?); [|by apply (bool_decide_unpack _); vm_compute].
  split; [done|]. by exists w.
Qed.

Definition forge_ex : skillforge_t := skillforge_init skillforge_config_init.

Definition hack_tool : scout_result_t :=
  mk_scout (lit "hack-tool") (lit "https://x.org/hack-tool") (lit "a tool to break into systems") 5000 (Some (lit "Rust")) true.

(** A suspect with enough stars is recommended for automatic integration. *)
Example suspect_integrated : recommendation <$> skillforge_evaluate forge_ex hack_tool = Some RECOMMENDATION_AUTO.
Proof. by_eval. Qed.

Lemma only_suspects_evaluated_witness : ∃ r, skillforge_evaluate forge_ex hack_tool = Some r ∧
  security (scores r) = security_of true true.
Proof.
  destruct (skillforge_evaluate forge_ex hack_tool) as [r|] eqn:E; [|by vm_compute in E].
  exists r. split; [done|]. apply (only_suspects_evaluated forge_ex hack_tool r E).
Defined.

Lemma contains_word_spec_witness : contains_word (lit "a hack!") (lit "hack") = Some true.
Proof.
  apply contains_word_spec; [vm_compute; lia|]. exists (lit "a "), (lit "!"). split_and!; by vm_compute.
Defined.

(** ** Duplicates are dropped, the first of them stays *)

(** The candidates whose address none before them has. *)
Fixpoint keep_first (seen : list cstr) (l : list scout_result_t) : list scout_result_t :=
  match l with
  | [] => []
  | x :: l' => if bool_decide (sr_url x ∈ seen) then keep_first seen l' else x :: keep_first (sr_url x :: seen) l'
  end.

Lemma keep_first_snoc seen l x :
  keep_first seen (l ++ [x]) =
  keep_first seen l ++ (if bool_decide (sr_url x ∈ seen ++ map sr_url l) then [] else [x]).
Proof.
  revert seen. induction l as [|y l IH]; intros seen; cbn [app keep_first map].
  - rewrite app_nil_r. by case_bool_decide.
  - case_bool_decide as Hy; rewrite IH; cbn [app]; f_equal; [|f_equal];
      (erewrite bool_decide_ext; [done|]); rewrite !elem_of_app, !elem_of_cons, ?elem_of_app; [|tauto].
    split; [tauto|]. intros [?|[Hx|?]]; [tauto|rewrite Hx; tauto|tauto].
Qed.

Lemma keep_first_nodup seen l : NoDup (map sr_url (keep_first seen l)) ∧ Forall (λ x, sr_url x ∉ seen) (keep_first seen l).
Proof.
  revert seen. induction l as [|x l IH]; intros seen; cbn [keep_first]; [by repeat constructor|].
  case_bool_decide as Hx; [apply IH|]. destruct (IH (sr_url x :: seen)) as [Hn Hf]. cbn [map]. split.
  - constructor; [|done]. intros Hin. apply list_elem_of_fmap in Hin as (y & Hy & Hin).
    rewrite Forall_forall in Hf. apply (Hf y Hin). rewrite Hy. by left.
  - constructor; [done|]. eapply Forall_impl; [exact Hf|]. intros y Hy Hin. apply Hy. by right.
Qed.

Lemma mark_same_spec l i seen :
  (i < length l)%nat → length seen = length l →
  length (mark_same l i seen) = length l ∧
  ∀ j, (j < length l)%nat →
    mark_same l i seen !! j = Some true ↔ seen !! j = Some true ∨ (i < j)%nat ∧ url_at l i = url_at l j.
Proof.
  intros Hi Hs. unfold mark_same.
  assert (∀ m, (S i ≤ m ≤ length l)%nat →
    let s := for_ (S i) m (λ j seen, if bool_decide (url_at l i = url_at l j) then <[j := true]> seen else seen) seen in
    length s = length l ∧
    ∀ j, (j < length l)%nat → s !! j = Some true ↔ seen !! j = Some true ∨ (i < j < m)%nat ∧ url_at l i = url_at l j) as H.
  { induction m as [|m IH]; [lia|]. intros Hm. destruct (decide (m = i)) as [->|Hne].
    { rewrite for_nil. split; [done|]. intros j _. split; [by left|]. intros [?|[? _]]; [done|lia]. }
    rewrite for_snoc by lia. destruct IH as [IHl IHj]; [lia|]. cbv zeta in *. case_bool_decide as Hu.
    - split; [by rewrite length_insert|]. intros j Hj. destruct (decide (j = m)) as [->|Hjm].
      + rewrite list_lookup_insert_eq by lia. split; [right; split; [lia|done]|done].
      + rewrite list_lookup_insert_ne by done. rewrite IHj by done. split; intros [?|[? ?]]; (by left) || (right; split; [lia|done]).
    - split; [done|]. intros j Hj. rewrite IHj by done.
      split; intros [?|[? He]]; try (by left); right; split; try done; try lia.
      destruct (decide (j = m)) as [->|]; [done|lia]. }
  destruct (H (length l)) as [H1 H2]; [lia|]. split; [done|]. intros j Hj. rewrite H2 by done.
  split; intros [?|[? ?]]; (by left) || (right; split; [lia|done]).
Qed.

Lemma mark_seen_spec l :
  length (mark_seen l) = length l ∧
  ∀ j, (j < length l)%nat → mark_seen l !! j = Some true ↔ ∃ i, (i < j)%nat ∧ url_at l i = url_at l j.
Proof.
  unfold mark_seen.
  assert (∀ k, (k ≤ length l)%nat →
    let s := for_ 0 k (λ i seen, if nth i seen false then seen else mark_same l i seen) (replicate (length l) false) in
    length s = length l ∧
    ∀ j, (j < length l)%nat → s !! j = Some true ↔ ∃ i, (i < k)%nat ∧ (i < j)%nat ∧ url_at l i = url_at l j) as H.
  { induction k as [|k IH]; intros Hk.
    { rewrite for_nil. split; [apply length_replicate|]. intros j Hj. rewrite lookup_replicate_2 by done.
      split; [done|]. intros (i & ? & _). lia. }
    rewrite for_snoc by lia. destruct IH as [IHl IHj]; [lia|]. cbv zeta in *.
    set (s := for_ 0 k _ _) in *. destruct (lookup_lt_is_Some_2 s k) as [b Hb]; [lia|].
    rewrite (nth_lookup_Some _ _ _ _ Hb). destruct b.
    - split; [done|]. intros j Hj. rewrite IHj by done. split; [intros (i & ? & ? & ?); exists i; split_and!; [lia|lia|done]|].
      intros (i & Hi & Hij & Hu). destruct (decide (i = k)) as [->|]; [|exists i; split_and!; [lia|lia|done]].
      apply IHj in Hb as (i' & ? & ? & Hu'); [|lia]. exists i'. split_and!; [lia|lia|congruence].
    - destruct (mark_same_spec l k s) as [H1 H2]; [lia|done|]. split; [done|]. intros j Hj. rewrite H2, IHj by done. split.
      + intros [(i & ? & ? & ?)|[? ?]]; [exists i; split_and!; [lia|lia|done]|exists k; split_and!; [lia|lia|done]].
      + intros (i & Hi & Hij & Hu). destruct (decide (i = k)) as [->|]; [by right|]. left. exists i. split_and!; [lia|lia|done]. }
  destruct (H (length l) (Nat.le_refl _)) as [H1 H2]. split; [done|]. intros j Hj. rewrite H2 by done.
  split; intros (i & Hi); exists i; destruct_and!; split_and!; (done || lia).
Qed.

(** What is left is the list without the candidates whose address occurred
    before, in the same order; its addresses are all different. *)
Theorem dedup_keeps_first l count :
  ∃ a n, skillforge_scout_dedup (Some l) count = Some (Some a, n) ∧
    take n a = keep_first [] (take count l) ∧ NoDup (map sr_url (take n a)).
Proof.
  unfold skillforge_scout_dedup. set (m := take count l). clearbody m. clear l count.
  destruct (mark_seen_spec m) as [Hl Hs]. set (seen := mark_seen m) in *.
  assert (∀ k, (k ≤ length m)%nat →
    let '(a, n) := for_ 0 k (λ i '(a, n), if nth i seen false then (a, n) else (arr_copy n i a, S n)) (m, O) in
    length a = length m ∧ (n ≤ k)%nat ∧ take n a = keep_first [] (take k m) ∧ drop k a = drop k m) as H.
  { induction k as [|k IH]; intros Hk; [by rewrite for_nil|]. rewrite for_snoc by lia.
    specialize (IH ltac:(lia)). destruct (for_ 0 k _ _) as [a n]. destruct IH as (Ha & Hn & Ht & Hd).
    destruct (lookup_lt_is_Some_2 m k) as [x Hx]; [lia|].
    assert (a !! k = Some x) as Hax by (rewrite <- Hx, <- (Nat.add_0_r k), <- !lookup_drop, Hd; done).
    rewrite (take_S_r _ _ _ Hx), keep_first_snoc, app_nil_l, <- Ht.
    assert (drop (S k) a = drop (S k) m) as Hd'.
    { apply (f_equal (drop 1)) in Hd. rewrite !drop_drop in Hd. by replace (S k) with (k + 1)%nat by lia. }
    assert (seen !! k = Some true ↔ sr_url x ∈ map sr_url (take k m)) as Hseen.
    { rewrite Hs by lia. unfold url_at. rewrite Hx. cbn. rewrite list_elem_of_fmap. split.
      - intros (i & Hi & Hu). destruct (m !! i) as [y|] eqn:Ey; [|done]. cbn in Hu. simplify_eq. exists y. split; [done|].
        apply list_elem_of_lookup. exists i. by rewrite lookup_take_lt.
      - intros (y & Hu & [i Hi]%list_elem_of_lookup). apply lookup_take_Some in Hi as [Hi ?].
        exists i. rewrite Hi. cbn. by rewrite Hu. }
    destruct (lookup_lt_is_Some_2 seen k) as [b Hb]; [lia|]. rewrite (nth_lookup_Some _ _ _ _ Hb). destruct b.
    - rewrite bool_decide_eq_true_2 by (by apply Hseen). rewrite app_nil_r. split_and!; (done || lia).
    - rewrite bool_decide_eq_false_2 by (rewrite <- Hseen; congruence). unfold arr_copy. rewrite Hax.
      split_and!; [by rewrite length_insert|lia|by rewrite take_insert_push by lia|by rewrite drop_insert_lt by lia]. }
  specialize (H (length m) (Nat.le_refl _)). destruct (for_ 0 (length m) _ _) as [a n].
  destruct H as (_ & _ & Ht & _). rewrite (take_ge m) in Ht by done. exists a, n. split_and!; [done|done|].
  rewrite Ht. apply keep_first_nodup.
Qed.

(** ** A run finds nothing *)

Section run.
Context {W : Type} `{Curl W}.

Lemma scout_all_none sf (w : W) : (scout_all sf w).1.2 = None.
Proof.
  unfold scout_all. assert (∀ s : W * option (list scout_result_t) * nat, s.1.2 = None →
    (foldl (λ '(w, res, n) s, if streq s (lit "github")
       then let '(w, res, n, _) := skillforge_scout_github sf w res n in (w, res, n) else (w, res, n)) s (sources (config sf))).1.2 = None) as Hg;
    [|by apply Hg].
  induction (sources (config sf)) as [|x l IH]; intros [[w' res] n] Hs; [done|]. cbn [foldl]. apply IH.
  cbn in Hs. subst res. destruct (streq x _); [|done]. unfold skillforge_scout_github.
  destruct (curl_easy_init w') as [w2 []]; cbn; [|done]. by destruct (scout_query _ _ _) as [??].
Qed.

(** The search counts replies and keeps no candidates.  So a run that returns
    has discovered and evaluated nothing: with a single reply it follows a
    null pointer. *)
Theorem forge_run_finds_nothing sf (w : W) w' r rc :
  skillforge_run sf w = Some (w', r, rc) → discovered r = O ∧ results r = [] ∧ auto_integrated r = O.
Proof.
  unfold skillforge_run. destruct (enabled (config sf)); cbn [negb]; [|intros [= <- <- <-]; done].
  pose proof (scout_all_none sf w) as Hn. destruct (scout_all sf w) as [[w2 res] n]. cbn in Hn. subst res.
  cbn [skillforge_scout_dedup]. case_if; [|done]. cbn [mbind option_bind].
  destruct n as [|n]; [|done]. cbn. by intros [= <- <- <-].
Qed.
End run.

Definition forge_on : skillforge_t :=
  skillforge_init (mk_forge_config true true [lit "github"] 24 (f64_const 7 10) None (lit "./skills")).

Lemma forge_run_finds_nothing_witness :
  ∃ w' r rc, skillforge_run forge_on ([] : list transfer) = Some (w', r, rc) ∧ discovered r = O.
Proof.
  destruct (skillforge_run forge_on ([] : list transfer)) as [[[w' r] rc]|] eqn:E; [|by vm_compute in E].
  exists w', r, rc. split; [done|]. apply (forge_run_finds_nothing forge_on [] w' r rc E).
Defined.

(** With a reply the run does not return. *)
Example reply_crashes_forge :
  skillforge_run forge_on [mk_transfer [lit "{}"] true 200; mk_transfer [] false 0] = None.
Proof. by_eval. Qed.
