(* ===== verification/Log.v ===== *)
(** * The log of [src/log/log.c]

    The threshold, the log file and its export.  The files of the disk are a
    map; [opens] tells which paths can be opened for writing.  The console
    gets the same lines. *)
From stdpp Require Import gmap.
From S2P Require Import Prelude.

Inductive log_level_t := LOG_LEVEL_DEBUG | LOG_LEVEL_INFO | LOG_LEVEL_WARN | LOG_LEVEL_ERROR.

Definition level_value (l : log_level_t) : Z :=
  match l with LOG_LEVEL_DEBUG => 0 | LOG_LEVEL_INFO => 1 | LOG_LEVEL_WARN => 2 | LOG_LEVEL_ERROR => 3 end.

Definition level_tag (l : log_level_t) : cstr :=
  match l with
  | LOG_LEVEL_DEBUG => lit "DEBUG"
  | LOG_LEVEL_INFO => lit "INFO"
  | LOG_LEVEL_WARN => lit "WARN"
  | LOG_LEVEL_ERROR => lit "ERROR"
  end.

Definition PATH_LEN : nat := Z.to_nat 4096.

(** The static variables, [g_log_file] as the path it was opened with, the
    files of the disk and the lines of the console. *)
Record log_t := mk_log {
  g_log_level : log_level_t;
  g_log_file : option cstr;
  g_log_file_path : cstr;
  disk : gmap cstr (list Z);
  console : list cstr;
}.

Definition log_set_level (l : log_level_t) (g : log_t) : log_t :=
  mk_log l (g_log_file g) (g_log_file_path g) (disk g) (console g).

Section log.
Context (opens : cstr → bool).

(** Opening for appending creates a file that is not there. *)
Definition log_set_file (path : option cstr) (g : log_t) : log_t * Z :=
  match path with
  | Some ((_ :: _) as p) =>
      if opens p then
        (mk_log (g_log_level g) (Some p) (snprintf_s PATH_LEN p)
           (match disk g !! p with Some _ => disk g | None => <[p := []]> (disk g) end) (console g), 0)
      else (mk_log (g_log_level g) None [] (disk g) (console g), -1)
  | _ => (mk_log (g_log_level g) None [] (disk g) (console g), 0)
  end.

Definition log_get_file_path (g : log_t) : option cstr :=
  match g_log_file_path g with [] => None | p => Some p end.

(** The source is open when the destination is emptied. *)
Definition log_export (dest : option cstr) (g : log_t) : log_t * Z :=
  match dest, g_log_file_path g with
  | Some ((_ :: _) as p), (_ :: _) as src =>
      match disk g !! src with
      | None => (g, -1)
      | Some _ =>
          if opens p then
            let d := <[p := []]> (disk g) in
            (mk_log (g_log_level g) (g_log_file g) src (<[p := default [] (d !! src)]> d) (console g), 0)
          else (g, -1)
      end
  | _, _ => (g, -1)
  end.

(** The line of a message: [tbuf] is the time, [text] the formatted message. *)
Definition log_line (tbuf : cstr) (level : log_level_t) (text : cstr) : cstr :=
  lit "[" ++ tbuf ++ lit "] " ++ level_tag level ++ lit " " ++ snprintf_s (Z.to_nat 2048) text ++ [10].

Definition log_write (tbuf : cstr) (level : log_level_t) (text : cstr) (g : log_t) : log_t :=
  if level_value level <? level_value (g_log_level g) then g
  else
    let l := log_line tbuf level text in
    mk_log (g_log_level g) (g_log_file g) (g_log_file_path g)
      (match g_log_file g with Some p => alter (λ c, c ++ l) p (disk g) | None => disk g end) (console g ++ [l]).

Definition log_debug (tbuf text : cstr) : log_t → log_t := log_write tbuf LOG_LEVEL_DEBUG text.
Definition log_info (tbuf text : cstr) : log_t → log_t := log_write tbuf LOG_LEVEL_INFO text.
Definition log_warn (tbuf text : cstr) : log_t → log_t := log_write tbuf LOG_LEVEL_WARN text.
Definition log_error (tbuf text : cstr) : log_t → log_t := log_write tbuf LOG_LEVEL_ERROR text.

(** ** Properties *)

Record message := mk_message { ms_time : cstr; ms_level : log_level_t; ms_text : cstr }.

Definition write_all (l : list message) (g : log_t) : log_t :=
  foldl (λ g m, log_write (ms_time m) (ms_level m) (ms_text m) g) g l.

Definition shown (t : log_level_t) (m : message) : bool := negb (level_value (ms_level m) <? level_value t).

Definition lines_of (t : log_level_t) (l : list message) : list cstr :=
  map (λ m, log_line (ms_time m) (ms_level m) (ms_text m)) (List.filter (shown t) l).

Lemma write_all_spec l g :
  let g' := write_all l g in
  g_log_level g' = g_log_level g ∧ g_log_file g' = g_log_file g ∧ g_log_file_path g' = g_log_file_path g ∧
  console g' = console g ++ lines_of (g_log_level g) l ∧
  disk g' = match g_log_file g with
            | Some p => alter (λ c, c ++ concat (lines_of (g_log_level g) l)) p (disk g)
            | None => disk g
            end.
Proof.
  revert g. induction l as [|m l IH]; intros g; cbn [write_all foldl].
  - unfold lines_of. cbn. rewrite app_nil_r. split_and!; try done. destruct (g_log_file g) as [p|]; [|done].
    apply map_eq. intros k. rewrite lookup_alter. case_decide; [|done]. subst.
    destruct (disk g !! k); cbn; [by rewrite app_nil_r|done].
  - destruct (IH (log_write (ms_time m) (ms_level m) (ms_text m) g)) as (H1 & H2 & H3 & H4 & H5).
    unfold write_all in *. rewrite H1, H2, H3, H4, H5. unfold log_write, lines_of. cbn [List.filter].
    destruct (shown (g_log_level g) m) eqn:Es; unfold shown in Es; bsplit;
      [rewrite (proj2 (Z.ltb_ge _ _)) by lia|rewrite (proj2 (Z.ltb_lt _ _)) by lia; done].
    cbn [g_log_level g_log_file g_log_file_path console disk map concat]. split_and!; try done.
    + by rewrite <- app_assoc.
    + destruct (g_log_file g) as [p|]; [|done]. apply map_eq. intros k. rewrite !lookup_alter.
      case_decide; [|done]. rewrite decide_True by done. destruct (disk g !! p); cbn; [by rewrite <- app_assoc|done].
Qed.

Lemma log_set_file_opened p g : p ≠ [] → opens p = true → (length p < PATH_LEN)%nat →
  log_set_file (Some p) g =
  (mk_log (g_log_level g) (Some p) p (match disk g !! p with Some _ => disk g | None => <[p := []]> (disk g) end) (console g), 0).
Proof. intros Hp Ho Hl. destruct p as [|b p]; [done|]. unfold log_set_file. by rewrite Ho, snprintf_s_id. Qed.

Lemma log_export_opened p src g : g_log_file_path g = src → src ≠ [] → p ≠ [] → is_Some (disk g !! src) → opens p = true →
  ∃ g', log_export (Some p) g = (g', 0) ∧ disk g' = <[p := default [] (<[p := []]> (disk g) !! src)]> (<[p := []]> (disk g)).
Proof.
  intros Hg Hs Hp [c Hc] Ho. destruct p as [|b p]; [done|]. destruct src as [|x src]; [done|]. unfold log_export.
  rewrite Hg, Hc, Ho. by eexists.
Qed.

(** The log file is its old content followed by the lines of the messages at
    or above the threshold, each complete and in the order they were given;
    the export of it is the same text. *)
Theorem log_file_and_export p dest l g :
  p ≠ [] → opens p = true → (length p < PATH_LEN)%nat → dest ≠ p → dest ≠ [] → opens dest = true →
  let text := default [] (disk g !! p) ++ concat (lines_of (g_log_level g) l) in
  let g' := write_all l (log_set_file (Some p) g).1 in
  disk g' !! p = Some text ∧
  ∃ g'', log_export (Some dest) g' = (g'', 0) ∧ disk g'' !! dest = Some text ∧ disk g'' !! p = Some text.
Proof.
  intros Hp Ho Hl Hd Hne Hod text g'. subst g'. rewrite log_set_file_opened by done. cbn [fst].
  set (g0 := mk_log _ _ _ _ _). destruct (write_all_spec l g0) as (_ & _ & H3 & _ & H5).
  assert (disk (write_all l g0) !! p = Some text) as Ht.
  { rewrite H5. cbn [g0 g_log_file g_log_level disk]. rewrite lookup_alter_eq. unfold text.
    destruct (disk g !! p) eqn:E; [by rewrite E|by rewrite lookup_insert_eq]. }
  split; [done|]. destruct (log_export_opened dest p (write_all l g0)) as (g'' & He & Hg); [done|done|done|by rewrite Ht|done|].
  exists g''. split; [done|]. rewrite Hg, (lookup_insert_ne _ _ p), Ht by done. cbn [default id].
  by rewrite lookup_insert_eq, !lookup_insert_ne.
Qed.

(** An export onto the log file itself empties it. *)
Theorem export_onto_itself p g :
  g_log_file_path g = p → p ≠ [] → is_Some (disk g !! p) → opens p = true →
  disk (log_export (Some p) g).1 !! p = Some [].
Proof.
  intros Hg Hp Hc Ho. destruct (log_export_opened p p g) as (g' & -> & Hd); [done..|]. cbn [fst].
  by rewrite Hd, !lookup_insert_eq.
Qed.
End log.

(** ** Witnesses *)

Definition log_ex : log_t := mk_log LOG_LEVEL_INFO None [] ∅ [].

Lemma log_file_and_export_witness :
  disk (write_all [mk_message [] LOG_LEVEL_WARN (lit "hot")] (log_set_file (λ _, true) (Some (lit "a.log")) log_ex).1)
    !! lit "a.log" = Some (lit "[] WARN hot" ++ [10]).
Proof.
  apply (log_file_and_export (λ _, true) (lit "a.log") (lit "b.log") [mk_message [] LOG_LEVEL_WARN (lit "hot")] log_ex);
    [done|done|apply Nat.ltb_lt; by vm_compute|done|done|done].
Defined.

Lemma export_onto_itself_witness :
  disk (log_export (λ _, true) (Some (lit "a.log")) (log_set_file (λ _, true) (Some (lit "a.log")) log_ex).1).1
    !! lit "a.log" = Some [].
Proof. apply export_onto_itself; [by vm_compute|done|by vm_compute; eexists|done]. Defined.
