(* ===== verification/Doctor.v ===== *)
(** * The diagnostics of [src/doctor/doctor.c]

    The report with its checks and counters.  The environment, the files that
    exist, the libraries that load and the programs that can be run are
    arguments. *)
From S2P Require Import Prelude Config.

Inductive doctor_check_result_t := DOCTOR_CHECK_OK | DOCTOR_CHECK_WARNING | DOCTOR_CHECK_ERROR | DOCTOR_CHECK_SKIP.

#[global] Instance check_result_eq_dec : EqDecision doctor_check_result_t.
Proof. solve_decision. Defined.

Definition MAX_DOCTOR_CHECKS : nat := 32.

Record doctor_check_t := mk_check { ck_name : cstr; ck_description : cstr; ck_result : doctor_check_result_t; ck_message : cstr }.

Definition check_zero : doctor_check_t := mk_check [] [] DOCTOR_CHECK_OK [].

Record doctor_report_t := mk_doctor { checks : list doctor_check_t; check_count : nat; passed : Z; warnings : Z; errors : Z }.

Definition doctor_init : doctor_report_t := mk_doctor (replicate MAX_DOCTOR_CHECKS check_zero) 0 0 0 0.
Definition doctor_free (r : doctor_report_t) : doctor_report_t := doctor_init.

Definition is_result (x : doctor_check_result_t) (y : doctor_check_result_t) : Z := if bool_decide (x = y) then 1 else 0.

Definition doctor_add_check (name description : cstr) (result : doctor_check_result_t) (message : cstr) (r : doctor_report_t)
    : doctor_report_t :=
  if (MAX_DOCTOR_CHECKS <=? check_count r)%nat then r
  else
    let c := mk_check (snprintf_s 128 name) (snprintf_s 256 description) result (snprintf_s 512 message) in
    mk_doctor (<[check_count r := c]> (checks r)) (S (check_count r))
      (passed r + is_result DOCTOR_CHECK_OK result) (warnings r + is_result DOCTOR_CHECK_WARNING result)
      (errors r + is_result DOCTOR_CHECK_ERROR result).

Definition add (name description : string) (result : doctor_check_result_t) (message : string) : doctor_report_t → doctor_report_t :=
  doctor_add_check (lit name) (lit description) result (lit message).

Section doctor.
Context (getenv : cstr → option cstr) (exists_ : cstr → bool) (dlopen : cstr → bool) (runnable : cstr → bool).

Definition HOME_LEN : nat := Z.to_nat 1024.

Definition home : cstr :=
  snprintf_s HOME_LEN
    (match getenv (lit "HOME") with
     | Some h => h
     | None => match getenv (lit "USER") with Some ((_ :: _) as u) => lit "/Users/" ++ u | _ => lit "." end
     end).

Definition home_file (name : string) : cstr := snprintf_s HOME_LEN (home ++ lit name).

Definition doctor_check_config (r : doctor_report_t) : doctor_report_t :=
  if exists_ (home_file "/.doctorclaw/config.toml")
  then add "config" "Configuration file exists" DOCTOR_CHECK_OK "Found at ~/.doctorclaw/config.toml" r
  else add "config" "Configuration file exists" DOCTOR_CHECK_WARNING "Not found - run 'doctorclaw onboard' first" r.

Definition is_set (name : string) : bool := match getenv (lit name) with Some _ => true | None => false end.

Definition doctor_check_auth (r : doctor_report_t) : doctor_report_t :=
  if exists_ (home_file "/.doctorclaw/auth.toml") then
    let r := add "auth" "Authentication profiles configured" DOCTOR_CHECK_OK "Auth file found" r in
    let r :=
      if is_set "OPENAI_API_KEY" || is_set "ANTHROPIC_API_KEY" || is_set "OPENROUTER_API_KEY"
      then add "api_keys" "API keys present in environment" DOCTOR_CHECK_OK "At least one API key found" r
      else add "api_keys" "API keys present in environment" DOCTOR_CHECK_WARNING "No API keys found in environment" r in
    match config_env_summary getenv HOME_LEN with
    | [] => r
    | s => doctor_add_check (lit "env") (lit "Environment variables detected") DOCTOR_CHECK_OK s r
    end
  else add "auth" "Authentication profiles configured" DOCTOR_CHECK_WARNING "No auth file - run 'doctorclaw onboard' first" r.

Definition doctor_check_providers (r : doctor_report_t) : doctor_report_t :=
  let r :=
    if dlopen (lit "libcurl.dylib") then add "libcurl" "libcurl available" DOCTOR_CHECK_OK "HTTP client library found" r
    else add "libcurl" "libcurl available" DOCTOR_CHECK_ERROR "libcurl not found" r in
  if dlopen (lit "libsqlite3.dylib") then add "libsqlite3" "SQLite3 available" DOCTOR_CHECK_OK "Database library found" r
  else add "libsqlite3" "SQLite3 available" DOCTOR_CHECK_ERROR "libsqlite3 not found" r.

Definition doctor_check_memory (r : doctor_report_t) : doctor_report_t :=
  if exists_ (home_file "/.doctorclaw/memory.db")
  then add "memory" "Memory database exists" DOCTOR_CHECK_OK "SQLite database found" r
  else add "memory" "Memory database exists" DOCTOR_CHECK_WARNING "No database yet - memory will be created on first use" r.

Definition doctor_check_channels (r : doctor_report_t) : doctor_report_t :=
  if exists_ (home_file "/.doctorclaw/channels/config.toml")
  then add "channels" "Channel configuration exists" DOCTOR_CHECK_OK "Channels config found" r
  else add "channels" "Channel configuration exists" DOCTOR_CHECK_WARNING "No channels configured yet" r.

Definition doctor_check_dependencies (r : doctor_report_t) : doctor_report_t :=
  if runnable (lit "/usr/bin/clang")
  then add "clang" "Clang compiler available" DOCTOR_CHECK_OK "Found at /usr/bin/clang" r
  else add "clang" "Clang compiler available" DOCTOR_CHECK_ERROR "Clang not found" r.

Definition doctor_run_checks (r : doctor_report_t) : doctor_report_t :=
  doctor_check_dependencies (doctor_check_channels (doctor_check_memory (doctor_check_providers
    (doctor_check_auth (doctor_check_config r))))).
End doctor.

(** ** The printed report *)

Definition result_string (r : doctor_check_result_t) : cstr :=
  match r with
  | DOCTOR_CHECK_OK => lit "OK"
  | DOCTOR_CHECK_WARNING => lit "WARNING"
  | DOCTOR_CHECK_ERROR => lit "ERROR"
  | DOCTOR_CHECK_SKIP => lit "SKIP"
  end.

(** The check mark and the cross are three bytes of UTF-8. *)
Definition symbol (r : doctor_check_result_t) : cstr :=
  match r with
  | DOCTOR_CHECK_OK => [91; 226; 156; 147; 93]
  | DOCTOR_CHECK_WARNING => lit "[!]"
  | DOCTOR_CHECK_ERROR => [91; 226; 156; 151; 93]
  | DOCTOR_CHECK_SKIP => lit "[-]"
  end.

Definition check_lines (c : doctor_check_t) : list cstr :=
  (lit "  " ++ symbol (ck_result c) ++ lit " " ++ pad 12 (result_string (ck_result c)) ++ lit " " ++ ck_name c) ::
  match ck_message c with [] => [] | m => [lit "                " ++ m] end.

Definition listed (r : doctor_report_t) : list doctor_check_t := take (check_count r) (checks r).

Definition status_line (r : doctor_report_t) : cstr :=
  if 0 <? errors r then lit "Status: FAILED - Please fix the errors above"
  else if 0 <? warnings r then lit "Status: WARNING - Some issues need attention"
  else lit "Status: OK - Everything looks good!".

Definition doctor_print_report (r : doctor_report_t) : list cstr :=
  [lit "DoctorClaw Diagnostics Report"; lit "============================="; []] ++
  concat (map check_lines (listed r)) ++
  [ []; lit "-----------------------------";
    lit "Summary: " ++ fmt_dec (passed r) ++ lit " passed, " ++ fmt_dec (warnings r) ++ lit " warnings, " ++
    fmt_dec (errors r) ++ lit " errors"; []; status_line r ].

(** ** Properties *)

Definition count (x : doctor_check_result_t) (l : list doctor_check_t) : Z :=
  Z.of_nat (length (List.filter (λ c, bool_decide (ck_result c = x)) l)).

(** The counters are those of the checks. *)
Record report_ok (r : doctor_report_t) : Prop := {
  ro_rows : length (checks r) = MAX_DOCTOR_CHECKS;
  ro_count : (check_count r ≤ MAX_DOCTOR_CHECKS)%nat;
  ro_passed : passed r = count DOCTOR_CHECK_OK (listed r);
  ro_warnings : warnings r = count DOCTOR_CHECK_WARNING (listed r);
  ro_errors : errors r = count DOCTOR_CHECK_ERROR (listed r);
}.

Lemma doctor_init_ok : report_ok doctor_init.
Proof. split; try done. vm_compute. lia. Qed.

Lemma count_cons x l c : count x (c :: l) = is_result x (ck_result c) + count x l.
Proof.
  unfold count, is_result. cbn [List.filter]. rewrite (bool_decide_ext (ck_result c = x) (x = ck_result c)) by done.
  case_bool_decide; cbn [length]; lia.
Qed.

Lemma count_snoc x l c : count x (l ++ [c]) = count x l + is_result x (ck_result c).
Proof.
  unfold count, is_result. rewrite List.filter_app, length_app. cbn [List.filter].
  rewrite (bool_decide_ext (ck_result c = x) (x = ck_result c)) by done. case_bool_decide; cbn [length]; lia.
Qed.

Lemma add_ok name d res m r : report_ok r → report_ok (doctor_add_check name d res m r).
Proof.
  intros [H1 H2 H3 H4 H5]. unfold doctor_add_check. destruct (Nat.leb_spec MAX_DOCTOR_CHECKS (check_count r)); [done|].
  assert (∀ c, take (S (check_count r)) (<[check_count r := c]> (checks r)) = listed r ++ [c]) as Hl.
  { intros c. by rewrite take_insert_push by lia. }
  split; unfold listed; cbn [checks check_count passed warnings errors]; [by rewrite length_insert|lia|..];
    by rewrite Hl, count_snoc; f_equal.
Qed.

#[local] Hint Resolve add_ok : claw.

(** Names and results of the checks, in their order: the specification of a
    run. *)
Definition row (c : doctor_check_t) : cstr * doctor_check_result_t := (ck_name c, ck_result c).

Definition verdict (b : bool) (bad : doctor_check_result_t) : doctor_check_result_t := if b then DOCTOR_CHECK_OK else bad.

Section properties.
Context (getenv : cstr → option cstr) (exists_ : cstr → bool) (dlopen : cstr → bool) (runnable : cstr → bool).

Definition expected_rows : list (cstr * doctor_check_result_t) :=
  [(lit "config", verdict (exists_ (home_file getenv "/.doctorclaw/config.toml")) DOCTOR_CHECK_WARNING)] ++
  (if exists_ (home_file getenv "/.doctorclaw/auth.toml") then
     [(lit "auth", DOCTOR_CHECK_OK);
      (lit "api_keys", verdict (is_set getenv "OPENAI_API_KEY" || is_set getenv "ANTHROPIC_API_KEY" ||
                                is_set getenv "OPENROUTER_API_KEY") DOCTOR_CHECK_WARNING);
      (lit "env", DOCTOR_CHECK_OK)]
   else [(lit "auth", DOCTOR_CHECK_WARNING)]) ++
  [(lit "libcurl", verdict (dlopen (lit "libcurl.dylib")) DOCTOR_CHECK_ERROR);
   (lit "libsqlite3", verdict (dlopen (lit "libsqlite3.dylib")) DOCTOR_CHECK_ERROR);
   (lit "memory", verdict (exists_ (home_file getenv "/.doctorclaw/memory.db")) DOCTOR_CHECK_WARNING);
   (lit "channels", verdict (exists_ (home_file getenv "/.doctorclaw/channels/config.toml")) DOCTOR_CHECK_WARNING);
   (lit "clang", verdict (runnable (lit "/usr/bin/clang")) DOCTOR_CHECK_ERROR)].

Let run : doctor_report_t := doctor_run_checks getenv exists_ dlopen runnable doctor_init.

Lemma run_ok : report_ok run.
Proof.
  unfold run, doctor_run_checks, doctor_check_dependencies, doctor_check_channels, doctor_check_memory, doctor_check_providers,
    doctor_check_auth, doctor_check_config, add. pose proof doctor_init_ok. repeat case_match; eauto 12 with claw.
Qed.

(** The rows of a report that is not full. *)
Definition rows_are (r : doctor_report_t) (l : list (cstr * doctor_check_result_t)) : Prop :=
  map row (listed r) = l ∧ check_count r = length l ∧ length (checks r) = MAX_DOCTOR_CHECKS.

Lemma rows_add name d res m r l :
  rows_are r l → (length l <? MAX_DOCTOR_CHECKS)%nat = true → (length name <? 128)%nat = true →
  rows_are (doctor_add_check name d res m r) (l ++ [(name, res)]).
Proof.
  intros (Hr & Hc & Hl) Hb Hn. bsplit. unfold doctor_add_check. rewrite (proj2 (Nat.leb_gt _ _)) by lia.
  unfold rows_are, listed. cbn [checks check_count]. rewrite length_insert, take_insert_push, map_app, length_app by lia.
  unfold listed in Hr. rewrite Hr, Hc. split_and!; [|cbn; lia|done]. cbn [map row ck_name ck_result].
  by rewrite snprintf_s_id.
Qed.

Lemma rows_verdict r l b name d bad m1 m2 :
  rows_are r l → (length l <? MAX_DOCTOR_CHECKS)%nat = true → (length (lit name) <? 128)%nat = true →
  rows_are (if b : bool then add name d DOCTOR_CHECK_OK m1 r else add name d bad m2 r) (l ++ [(lit name, verdict b bad)]).
Proof. intros. destruct b; by apply rows_add. Qed.

Lemma run_rows : rows_are run expected_rows.
Proof.
  unfold run, doctor_run_checks.
  assert (rows_are doctor_init []) as H0 by done.
  pose proof (rows_verdict _ _ (exists_ (home_file getenv "/.doctorclaw/config.toml")) "config" "Configuration file exists"
    DOCTOR_CHECK_WARNING "Found at ~/.doctorclaw/config.toml" "Not found - run 'doctorclaw onboard' first" H0 eq_refl eq_refl) as H1.
  change (rows_are (doctor_check_config getenv exists_ doctor_init)
    [(lit "config", verdict (exists_ (home_file getenv "/.doctorclaw/config.toml")) DOCTOR_CHECK_WARNING)]) in H1.
  set (r1 := doctor_check_config getenv exists_ doctor_init) in *. clearbody r1.
  assert (∃ auth, rows_are (doctor_check_auth getenv exists_ r1)
    ((lit "config", verdict (exists_ (home_file getenv "/.doctorclaw/config.toml")) DOCTOR_CHECK_WARNING) :: auth) ∧
    auth = (if exists_ (home_file getenv "/.doctorclaw/auth.toml") then
     [(lit "auth", DOCTOR_CHECK_OK);
      (lit "api_keys", verdict (is_set getenv "OPENAI_API_KEY" || is_set getenv "ANTHROPIC_API_KEY" ||
                                is_set getenv "OPENROUTER_API_KEY") DOCTOR_CHECK_WARNING);
      (lit "env", DOCTOR_CHECK_OK)]
     else [(lit "auth", DOCTOR_CHECK_WARNING)]) ∧ (length auth ≤ 3)%nat) as (auth & H2 & Ha & Hl).
  { eexists. split_and!; [|done|by case_match; cbn; lia]. unfold doctor_check_auth. destruct (exists_ (home_file getenv "/.doctorclaw/auth.toml")).
    - unfold HOME_LEN. rewrite env_summary_complete. cbn [summary_words ENV_VAR_NAMES map].
      change (if (0 =? 0)%nat then [] else lit " ") with (@nil Z). cbn [app lit].
      apply (rows_add (lit "env") _ _ _ _ [_; _; _]); [|done|done].
      apply (rows_verdict _ [_; _]); [|done|done]. by apply (rows_add (lit "auth") _ _ _ _ [_]).
    - by apply (rows_add (lit "auth") _ _ _ _ [_]). }
  unfold expected_rows. rewrite <- Ha. clear Ha H1. set (r2 := doctor_check_auth getenv exists_ r1) in *. clearbody r2.
  unfold doctor_check_providers, doctor_check_memory, doctor_check_channels, doctor_check_dependencies.
  rewrite (app_assoc [_] auth). set (l0 := [_] ++ auth) in *.
  assert (length l0 ≤ 4)%nat as Hl0 by (cbn; lia). change (rows_are r2 l0) in H2. clearbody l0.
  change ([?a; ?b; ?c; ?d; ?e]) with ([a] ++ [b] ++ [c] ++ [d] ++ [e]).
  rewrite !app_assoc. repeat (apply rows_verdict; [|apply Nat.ltb_lt; rewrite ?length_app; unfold MAX_DOCTOR_CHECKS; cbn [length]; lia|by vm_compute]).
  done.
Qed.

(** The report has one check for each thing examined, in order, with its
    verdict, and its counters are exact: the diagnosis fails exactly when one
    of the two libraries or the compiler is missing, and is all well when
    nothing is missing at all. *)
Theorem doctor_report_exact :
  map row (listed run) = expected_rows ∧ report_ok run ∧
  (errors run = 0 ↔ dlopen (lit "libcurl.dylib") && dlopen (lit "libsqlite3.dylib") && runnable (lit "/usr/bin/clang") = true) ∧
  passed run + warnings run + errors run = Z.of_nat (check_count run).
Proof.
  destruct run_rows as (Hr & Hc & _). pose proof run_ok as Hok. split_and!; [done|done| |].
  - rewrite (ro_errors _ Hok).
    assert (∀ x l, count x l = Z.of_nat (length (List.filter (λ p, bool_decide (p.2 = x)) (map row l)))) as Hcount.
    { intros x l. unfold count. f_equal. induction l as [|c l IH]; [done|]. cbn [map List.filter row snd].
      case_bool_decide; cbn [length]; by rewrite IH. }
    rewrite Hcount, Hr. unfold expected_rows, verdict.
    destruct (exists_ (home_file getenv "/.doctorclaw/auth.toml")), (dlopen (lit "libcurl.dylib")), (dlopen (lit "libsqlite3.dylib")), (runnable (lit "/usr/bin/clang"));
      repeat case_match; by vm_compute.
  - rewrite (ro_errors _ Hok), (ro_warnings _ Hok), (ro_passed _ Hok).
    assert (Forall (λ p, p.2 ≠ DOCTOR_CHECK_SKIP) expected_rows) as Hs.
    { unfold expected_rows, verdict. repeat case_match; by repeat constructor. }
    rewrite <- Hr in Hs. rewrite Hc, <- Hr, length_map. revert Hs. generalize (listed run) as l. intros l Hs.
    induction l as [|c l IH]; [done|]. cbn [map] in Hs. apply Forall_cons in Hs as [Hs1 Hs]. specialize (IH Hs).
    rewrite !count_cons. cbn [row snd length] in *. destruct (ck_result c); [..|done];
      repeat match goal with |- context [is_result ?a ?b] => let v := eval vm_compute in (is_result a b) in change (is_result a b) with v end;
      lia.
Qed.
End properties.
