(* ===== verification/Onboard.v ===== *)
(** * Onboarding: [src/onboard/onboard.c]

    The five steps that set up a workspace.  The disk is a set of directories
    and a map of files, each under the path the program uses; a file or a
    directory can be made in a directory that is there. *)
From stdpp Require Import gmap.
From S2P Require Import Prelude KeyFile Auth Config.

Inductive onboard_state_t :=
  ONBOARD_STATE_NOT_STARTED | ONBOARD_STATE_IN_PROGRESS | ONBOARD_STATE_COMPLETED | ONBOARD_STATE_FAILED.

Definition MAX_WORKSPACE_PATH : nat := 512.

Record onboard_t := mk_onboard {
  workspace_path : cstr;
  ob_state : onboard_state_t;
  config_created : bool;
  auth_configured : bool;
  channels_configured : bool;
  skills_loaded : bool;
  steps_completed : Z;
  total_steps : Z;
  ob_error : cstr;
}.

Definition onboard_init : onboard_t := mk_onboard [] ONBOARD_STATE_NOT_STARTED false false false false 0 5 [].
Definition onboard_reset (o : onboard_t) : onboard_t := onboard_init.
Definition onboard_free (o : onboard_t) : onboard_t := mk_onboard [] ONBOARD_STATE_NOT_STARTED false false false false 0 0 [].
Definition onboard_status (o : onboard_t) : onboard_state_t := ob_state o.

Definition onboard_state_name (s : onboard_state_t) : cstr :=
  match s with
  | ONBOARD_STATE_NOT_STARTED => lit "not_started"
  | ONBOARD_STATE_IN_PROGRESS => lit "in_progress"
  | ONBOARD_STATE_COMPLETED => lit "completed"
  | ONBOARD_STATE_FAILED => lit "failed"
  end.

(** ** The disk *)

Record disk_t := mk_disk { dirs : gset cstr; files : gmap cstr cstr }.

(** The path before the last slash. *)
Definition dir_of (p : cstr) : cstr :=
  match strchr (reverse p) 47 with Some i => reverse (drop (S i) (reverse p)) | None => lit "." end.

Definition mkdir (p : cstr) (d : disk_t) : disk_t :=
  if bool_decide (dir_of p ∈ dirs d) then mk_disk ({[p]} ∪ dirs d) (files d) else d.

(** [fopen(p, "w")], the text and [fclose]. *)
Definition write_file (p text : cstr) (d : disk_t) : option disk_t :=
  if bool_decide (dir_of p ∈ dirs d) then Some (mk_disk (dirs d) (<[p := text]> (files d))) else None.

(** ** The steps *)

Definition PATH_LEN : nat := Z.to_nat 1024.
Definition in_workspace (o : onboard_t) (sub : string) : cstr := snprintf_s PATH_LEN (workspace_path o ++ lit sub).

Definition quoted (v : cstr) : cstr := [34] ++ v ++ [34].

Definition config_lines (ws : cstr) : list cstr :=
  [ lit "# DoctorClaw Configuration"; []; lit "[doctorclaw]"; lit "version = " ++ quoted (lit "0.1.0");
    lit "workspace = " ++ quoted ws; []; lit "[providers]"; lit "default = " ++ quoted (lit "openrouter"); [];
    lit "[memory]"; lit "backend = " ++ quoted (lit "sqlite"); lit "path = " ++ quoted (ws ++ lit "/memory.db"); [] ].

Definition auth_lines : list cstr :=
  [ lit "# DoctorClaw Authentication Profiles"; []; lit "# Add your API keys below:"; lit "# Example:"; lit "# [profile]";
    lit "# name = " ++ quoted (lit "openai"); lit "# provider = " ++ quoted (lit "openai");
    lit "# api_key = " ++ quoted (lit "sk-..."); [] ].

Definition channel_lines : list cstr :=
  [ lit "# DoctorClaw Channel Configuration"; []; lit "# Uncomment and configure your channels:"; [];
    lit "# [telegram]"; lit "# enabled = false"; lit "# bot_token = " ++ quoted []; [];
    lit "# [discord]"; lit "# enabled = false"; lit "# bot_token = " ++ quoted []; [];
    lit "# [slack]"; lit "# enabled = false"; lit "# bot_token = " ++ quoted [] ].

Definition file_text (l : list cstr) : cstr := concat (map line l).

Definition step (o : onboard_t) : onboard_t :=
  mk_onboard (workspace_path o) (ob_state o) (config_created o) (auth_configured o) (channels_configured o) (skills_loaded o)
    (steps_completed o + 1) (total_steps o) (ob_error o).

Definition onboard_create_directories (o : onboard_t) (d : disk_t) : onboard_t * disk_t * Z :=
  let d := mkdir (in_workspace o "/.doctorclaw") d in
  let d := mkdir (in_workspace o "/.doctorclaw/channels") d in
  let d := mkdir (in_workspace o "/.doctorclaw/skills") d in
  (step o, d, 0).

Definition onboard_create_config (o : onboard_t) (d : disk_t) : onboard_t * disk_t * Z :=
  match write_file (in_workspace o "/config.toml") (file_text (config_lines (workspace_path o))) d with
  | None => (o, d, -1)
  | Some d =>
      (step (mk_onboard (workspace_path o) (ob_state o) true (auth_configured o) (channels_configured o) (skills_loaded o)
               (steps_completed o) (total_steps o) (ob_error o)), d, 0)
  end.

Definition onboard_setup_auth (o : onboard_t) (d : disk_t) : onboard_t * disk_t * Z :=
  match write_file (in_workspace o "/.doctorclaw/auth.toml") (file_text auth_lines) d with
  | None => (o, d, -1)
  | Some d =>
      (step (mk_onboard (workspace_path o) (ob_state o) (config_created o) true (channels_configured o) (skills_loaded o)
               (steps_completed o) (total_steps o) (ob_error o)), d, 0)
  end.

Definition onboard_setup_channels (o : onboard_t) (d : disk_t) : onboard_t * disk_t * Z :=
  match write_file (in_workspace o "/.doctorclaw/channels/config.toml") (file_text channel_lines) d with
  | None => (o, d, -1)
  | Some d =>
      (step (mk_onboard (workspace_path o) (ob_state o) (config_created o) (auth_configured o) true (skills_loaded o)
               (steps_completed o) (total_steps o) (ob_error o)), d, 0)
  end.

Definition onboard_load_skills (o : onboard_t) (d : disk_t) : onboard_t * disk_t * Z :=
  (step (mk_onboard (workspace_path o) (ob_state o) (config_created o) (auth_configured o) (channels_configured o) true
           (steps_completed o) (total_steps o) (ob_error o)), d, 0).

Definition set_state (s : onboard_state_t) (e : cstr) (o : onboard_t) : onboard_t :=
  mk_onboard (workspace_path o) s (config_created o) (auth_configured o) (channels_configured o) (skills_loaded o)
    (steps_completed o) (total_steps o) e.

(** The steps in their order, with the message for each failure. *)
Fixpoint run_steps (l : list ((onboard_t → disk_t → onboard_t * disk_t * Z) * string)) (o : onboard_t) (d : disk_t)
    : onboard_t * disk_t * Z :=
  match l with
  | [] => (set_state ONBOARD_STATE_COMPLETED (ob_error o) o, d, 0)
  | (f, message) :: l' =>
      let '(o, d, rc) := f o d in
      if negb (rc =? 0) then (set_state ONBOARD_STATE_FAILED (lit message) o, d, -1) else run_steps l' o d
  end.

Definition onboard_steps : list ((onboard_t → disk_t → onboard_t * disk_t * Z) * string) :=
  [ (onboard_create_directories, "Failed to create directories"); (onboard_create_config, "Failed to create config");
    (onboard_setup_auth, "Failed to setup auth"); (onboard_setup_channels, "Failed to setup channels");
    (onboard_load_skills, "Failed to load skills") ]%string.

Definition onboard_execute (o : onboard_t) (d : disk_t) (path : cstr) : onboard_t * disk_t * Z :=
  run_steps onboard_steps
    (mk_onboard (snprintf_s MAX_WORKSPACE_PATH path) ONBOARD_STATE_IN_PROGRESS (config_created o) (auth_configured o)
       (channels_configured o) (skills_loaded o) (steps_completed o) (total_steps o) (ob_error o)) d.

(** ** Properties *)

Lemma dir_of_app a name : Forall (λ x, x ≠ 47) name → dir_of (a ++ 47 :: name) = a.
Proof.
  intros Hn. unfold dir_of. rewrite reverse_app, reverse_cons, <- app_assoc. cbn [app].
  rewrite strchr_app by (by apply Forall_reverse).
  change (47 :: reverse a) with ([47] ++ reverse a). rewrite app_assoc, drop_app_length'; [by rewrite reverse_involutive|].
  rewrite length_app. cbn. lia.
Qed.

Lemma in_workspace_short o sub :
  (length (workspace_path o) < 512)%nat → (length (lit sub) <? 500)%nat = true → in_workspace o sub = workspace_path o ++ lit sub.
Proof. intros Hw Hs. bsplit. unfold in_workspace. rewrite snprintf_s_id; [done|]. rewrite length_app. unfold PATH_LEN. lia. Qed.

Lemma mkdir_other p q d : q ≠ p → q ∈ dirs (mkdir p d) ↔ q ∈ dirs d.
Proof. intros Hq. unfold mkdir. case_bool_decide; [|done]. cbn [dirs]. set_solver. Qed.

Lemma mkdir_there p a name d : p = a ++ 47 :: name → Forall (λ x, x ≠ 47) name → a ∈ dirs d →
  p ∈ dirs (mkdir p d) ∧ ∀ q, q ∈ dirs d → q ∈ dirs (mkdir p d).
Proof. intros -> Hn Ha. unfold mkdir. rewrite dir_of_app, bool_decide_eq_true_2 by done. cbn [dirs]. set_solver. Qed.

Lemma mkdir_files p d : files (mkdir p d) = files d.
Proof. unfold mkdir. by case_bool_decide. Qed.

Lemma write_there p a name text d : p = a ++ 47 :: name → Forall (λ x, x ≠ 47) name → a ∈ dirs d →
  write_file p text d = Some (mk_disk (dirs d) (<[p := text]> (files d))).
Proof. intros -> Hn Ha. unfold write_file. by rewrite dir_of_app, bool_decide_eq_true_2. Qed.

Lemma longer_path (p : cstr) (sub : string) : p ≠ p ++ lit (String "/" sub).
Proof. intros H. apply (f_equal length) in H. rewrite length_app in H. cbn in H. lia. Qed.

(** A workspace that is not there is not created: onboarding fails at the
    second step, with the default [.doctorclaw] in a fresh directory as well,
    and no file is written. *)
Theorem onboard_needs_workspace o d p :
  (length p < MAX_WORKSPACE_PATH)%nat → p ∉ dirs d →
  ∃ o' d', onboard_execute o d p = (o', d', -1) ∧ ob_state o' = ONBOARD_STATE_FAILED ∧
    ob_error o' = lit "Failed to create config" ∧ files d' = files d ∧ steps_completed o' = steps_completed o + 1.
Proof.
  intros Hl Hp. unfold onboard_execute. rewrite snprintf_s_id by done. set (o1 := mk_onboard p _ _ _ _ _ _ _ _).
  cbn [run_steps onboard_steps onboard_create_directories]. cbn [Z.eqb negb].
  rewrite !(in_workspace_short o1) by done. change (workspace_path o1) with p.
  set (d1 := mkdir _ (mkdir _ (mkdir _ d))).
  assert (p ∉ dirs d1) as Hd1 by (unfold d1; rewrite !mkdir_other by apply longer_path; done).
  unfold onboard_create_config. rewrite (in_workspace_short (step o1)) by done. change (workspace_path (step o1)) with p.
  unfold write_file. change (lit "/config.toml") with (47 :: lit "config.toml").
  rewrite dir_of_app, bool_decide_eq_false_2 by (done || by apply (bool_decide_unpack _); vm_compute).
  cbn [Z.eqb negb]. eexists _, _. split; [done|]. split_and!; [done|done| |done]. unfold d1. by rewrite !mkdir_files.
Qed.

(** In a workspace that is there all five steps succeed, and exactly the three
    files are written. *)
Theorem onboard_completes o d p :
  (length p < MAX_WORKSPACE_PATH)%nat → p ∈ dirs d →
  ∃ o' d', onboard_execute o d p = (o', d', 0) ∧ ob_state o' = ONBOARD_STATE_COMPLETED ∧
    steps_completed o' = steps_completed o + 5 ∧
    config_created o' && auth_configured o' && channels_configured o' && skills_loaded o' = true ∧
    files d' = <[p ++ lit "/.doctorclaw/channels/config.toml" := file_text channel_lines]>
              (<[p ++ lit "/.doctorclaw/auth.toml" := file_text auth_lines]>
              (<[p ++ lit "/config.toml" := file_text (config_lines p)]> (files d))).
Proof.
  intros Hl Hp. unfold onboard_execute. rewrite snprintf_s_id by done. set (o1 := mk_onboard p _ _ _ _ _ _ _ _).
  cbn [run_steps onboard_steps onboard_create_directories]. cbn [Z.eqb negb].
  assert (∀ n, n ∈ map lit [".doctorclaw"; "channels"; "skills"; "config.toml"; "auth.toml"]%string →
    Forall (λ x, x ≠ 47) n) as Hn by (intros n; revert n; apply Forall_forall; by apply (bool_decide_unpack _); vm_compute).
  rewrite !(in_workspace_short o1) by done. change (workspace_path o1) with p.
  destruct (mkdir_there (p ++ lit "/.doctorclaw") p (lit ".doctorclaw") d) as [H1 K1]; [done|apply Hn; set_solver|done|].
  set (d1 := mkdir (p ++ lit "/.doctorclaw") d) in *.
  assert (∀ n, p ++ lit "/.doctorclaw" ++ n = (p ++ lit "/.doctorclaw") ++ n) as Ha by (intros; apply app_assoc).
  destruct (mkdir_there (p ++ lit "/.doctorclaw/channels") (p ++ lit "/.doctorclaw") (lit "channels") d1) as [H2 K2];
    [by rewrite <- app_assoc|apply Hn; set_solver|done|]. set (d2 := mkdir (p ++ lit "/.doctorclaw/channels") d1) in *.
  destruct (mkdir_there (p ++ lit "/.doctorclaw/skills") (p ++ lit "/.doctorclaw") (lit "skills") d2) as [_ K3];
    [by rewrite <- app_assoc|apply Hn; set_solver|by apply K2|]. set (d3 := mkdir (p ++ lit "/.doctorclaw/skills") d2) in *.
  assert (files d3 = files d) as Hf by (unfold d3, d2, d1; by rewrite !mkdir_files).
  unfold onboard_create_config. rewrite (in_workspace_short (step o1)) by done. change (workspace_path (step o1)) with p.
  rewrite (write_there (p ++ lit "/config.toml") p (lit "config.toml")); [|done|apply Hn; set_solver|by apply K3, K2, K1].
  cbn [Z.eqb negb]. unfold onboard_setup_auth. rewrite in_workspace_short by done. cbn [step workspace_path o1].
  rewrite (write_there (p ++ lit "/.doctorclaw/auth.toml") (p ++ lit "/.doctorclaw") (lit "auth.toml"));
    [|by rewrite <- app_assoc|apply Hn; set_solver|by apply K3, K2]. cbn [Z.eqb negb].
  unfold onboard_setup_channels. rewrite in_workspace_short by done. cbn [step workspace_path o1].
  rewrite (write_there (p ++ lit "/.doctorclaw/channels/config.toml") (p ++ lit "/.doctorclaw/channels") (lit "config.toml"));
    [|by rewrite <- app_assoc|apply Hn; set_solver|by apply K3]. cbn [Z.eqb negb].
  eexists _, _. split; [done|]. split_and!; [done|cbn; lia|done|]. cbn [files]. by rewrite Hf.
Qed.

(** The file of profiles it writes has no profile in it: reading it changes
    nothing. *)
Theorem onboard_auth_is_empty a : auth_load a (Some (file_text auth_lines)) = (a, 0).
Proof.
  unfold auth_load. assert (∀ s, foldl load_line s (fgets_lines (Z.to_nat 1024) (file_text auth_lines)) = s) as ->.
  { intros s. by_eval. }
  cbn. by destruct a.
Qed.

(** ** Witnesses *)

Lemma onboard_needs_workspace_witness :
  (onboard_execute onboard_init (mk_disk {[ lit "." ]} ∅) (lit ".doctorclaw")).2 = -1.
Proof.
  destruct (onboard_needs_workspace onboard_init (mk_disk {[ lit "." ]} ∅) (lit ".doctorclaw")) as (o' & d' & -> & _);
    [vm_compute; lia|set_solver|done].
Defined.

Lemma onboard_completes_witness :
  (onboard_execute onboard_init (mk_disk {[ lit "/w" ]} ∅) (lit "/w")).2 = 0.
Proof.
  destruct (onboard_completes onboard_init (mk_disk {[ lit "/w" ]} ∅) (lit "/w")) as (o' & d' & -> & _);
    [vm_compute; lia|set_solver|done].
Defined.
