(* ===== verification/GatewayRun.v ===== *)
(** * The server loop of [src/gateway/gateway.c]

    [gateway_run] and [gateway_request_shutdown]: the listening socket, the
    loop that accepts connections, one thread for each of them, and the
    shutdown from another thread.  A step is one of the moments at which the
    threads meet: a connection or an error from [accept], the end of a worker,
    a request to shut down.  The descriptors that are open are recorded, and so
    is every use of one that is not. *)
From S2P Require Import Prelude Security SecurityMonitor Ids RuntimeMonitor JobCache JobWorker Config Channels Gateway.

Record server_t := mk_server_t {
  sv_gateway : gateway_t;
  sv_shutdown : bool;               (* g_gateway_shutdown *)
  sv_listen : option Z;             (* g_gateway_listen_fd *)
  sv_open : list Z;                 (* the descriptors that are open *)
  sv_pending : list (Z * cstr);     (* the connections with a worker *)
  sv_looping : bool;                (* the listener is in its loop *)
  sv_jobs : list job_t;
  sv_bad : list Z;                  (* the descriptors used when they were not open *)
}.

Definition set_fds (s : server_t) (open bad : list Z) : server_t :=
  mk_server_t (sv_gateway s) (sv_shutdown s) (sv_listen s) open (sv_pending s) (sv_looping s) (sv_jobs s) bad.

Definition use_fd (fd : Z) (s : server_t) : server_t :=
  if bool_decide (fd ∈ sv_open s) then s else set_fds s (sv_open s) (fd :: sv_bad s).

Definition close_fd (fd : Z) (s : server_t) : server_t :=
  let s := use_fd fd s in set_fds s (without fd (sv_open s)) (sv_bad s).

(** The operations of a worker on its socket. *)
Definition sock_step (fd : Z) (s : server_t) (o : sock_op) : server_t :=
  match o with SockSend _ => use_fd fd s | SockClose => close_fd fd s end.
Definition run_ops (fd : Z) (ops : list sock_op) (s : server_t) : server_t := foldl (sock_step fd) s ops.

Definition gateway_request_shutdown (s : server_t) : server_t :=
  match sv_listen s with
  | Some fd =>
      let s := close_fd fd s in
      mk_server_t (sv_gateway s) true None (sv_open s) (sv_pending s) (sv_looping s) (sv_jobs s) (sv_bad s)
  | None => mk_server_t (sv_gateway s) true None (sv_open s) (sv_pending s) (sv_looping s) (sv_jobs s) (sv_bad s)
  end.

(** ** Starting *)

Definition channels_path {D} (c : config_t D) : option cstr :=
  match workspace_dir (c_paths c) with
  | [] => None
  | ws => Some (snprintf_s (Z.to_nat 4096) (ws ++ lit "/channels/config.toml"))
  end.

(** The components are initialised once; [read] gives the channels file. *)
Definition start_components {D} (read : cstr → option cstr) (c : option (config_t D)) (cs : channels) (g : gateway_t)
    : channels * gateway_t :=
  (match c ≫= channels_path with Some p => (channels_load_config cs (read p)).1 | None => cs end,
   mk_gateway (security_monitor_init (gw_secmon g) None).1 (gw_audit g)
     (ids_init (gw_ids g) (Some ids_config_defaults)).1 (runtime_monitor_init (gw_monitor g)).1).

(** [socket] is its result, [bind] and [listen] tell whether they succeed: the
    server in front of its loop, or the one whose start failed and the code.
    The flag may have been set before. *)
Definition gateway_listen (socket : Z) (bind listen : bool) (s : server_t) : server_t + server_t * Z :=
  if socket <? 0 then inr (s, -1)
  else
    let s := set_fds s (socket :: sv_open s) (sv_bad s) in
    if negb bind then inr (close_fd socket s, -1)
    else if negb listen then inr (close_fd socket s, -1)
    else
      inl (mk_server_t (sv_gateway s) (sv_shutdown s) (Some socket) (sv_open s) (sv_pending s)
             (negb (sv_shutdown s)) (sv_jobs s) (sv_bad s)).

(** After the loop.  [sockfd] is the local variable. *)
Definition finish (sockfd : Z) (s : server_t) : server_t :=
  let s := if negb (sv_shutdown s) then close_fd sockfd s else s in
  mk_server_t (sv_gateway s) (sv_shutdown s) None (sv_open s) (sv_pending s) false (sv_jobs s) (sv_bad s).

(** ** Steps *)

Inductive event :=
  | Accepted (fd : Z) (ip : cstr) (allocated thread : bool)
  | AcceptFailed
  | Shutdown
  | Served (fd now : Z) (malloc_ok : bool) (buffer : option (list Z)) (frames : list (list Z)).

Section steps.
Context {config_t agent_t : Type} {ops : AgentOps config_t agent_t}.
Context (submit : option (job_t → option cstr)) (config : option config_t) (metrics health_secret : option cstr).
Context (sockfd : Z).

(** [while (!g_gateway_shutdown)] *)
Definition loop_test (s : server_t) : server_t := if sv_shutdown s then finish sockfd s else s.

Definition accept_connection (fd : Z) (ip : cstr) (allocated thread : bool) (s : server_t) : server_t :=
  let s := set_fds s (fd :: sv_open s) (sv_bad s) in
  if negb allocated then close_fd fd s
  else if negb thread then close_fd fd s
  else
    mk_server_t (sv_gateway s) (sv_shutdown s) (sv_listen s) (sv_open s) (sv_pending s ++ [(fd, snprintf_s 64 ip)])
      (sv_looping s) (sv_jobs s) (sv_bad s).

Definition server_step (e : event) (s : server_t) : option server_t :=
  match e with
  | Accepted fd ip allocated thread =>
      if sv_looping s then Some (loop_test (accept_connection fd ip allocated thread s)) else Some s
  | AcceptFailed => if sv_looping s then Some (if sv_shutdown s then finish sockfd s else s) else Some s
  | Shutdown => Some (gateway_request_shutdown s)
  | Served fd now malloc_ok buffer frames =>
      match List.find (λ c, fst c =? fd) (sv_pending s) with
      | None => Some s
      | Some (_, ip) =>
          '(g, acts, jobs) ← gateway_worker submit config metrics health_secret now malloc_ok (sv_gateway s) ip buffer frames;
          let s := run_ops fd acts s in
          Some (mk_server_t g (sv_shutdown s) (sv_listen s) (sv_open s)
                  (List.filter (λ c, negb (fst c =? fd)) (sv_pending s)) (sv_looping s) (sv_jobs s ++ jobs) (sv_bad s))
      end
  end.

(** [accept] gives a descriptor that is not open. *)
Definition os_ok (e : event) (s : server_t) : Prop :=
  match e with Accepted fd _ _ _ => fd ∉ sv_open s | _ => True end.

Inductive reachable : server_t → Prop :=
  | reach_start bind listen s s' :
      gateway_listen sockfd bind listen s = inl s' → sv_shutdown s = false → sv_open s = [] →
      sv_pending s = [] → sv_bad s = [] → reachable s'
  | reach_step e s s' : reachable s → os_ok e s → server_step e s = Some s' → reachable s'.

(** ** No descriptor is lost *)

Record inv (s : server_t) : Prop := {
  inv_open : sv_open s ≡ₚ (if sv_shutdown s then [] else [sockfd]) ++ map fst (sv_pending s);
  inv_nodup : NoDup (sv_open s);
  inv_bad : sv_bad s = [];
  inv_listen : sv_shutdown s = false → sv_listen s = Some sockfd;
  inv_closed : sv_shutdown s = true → sv_listen s = None;
}.

Lemma close_open fd s : fd ∈ sv_open s → close_fd fd s = set_fds s (without fd (sv_open s)) (sv_bad s).
Proof. intros Hf. unfold close_fd, use_fd. by rewrite bool_decide_eq_true_2. Qed.

(** Every path through a worker ends with one close of its socket, and nothing
    is sent after it. *)
Lemma worker_closes_once now m g ip buffer frames g' acts jobs :
  gateway_worker submit config metrics health_secret now m g ip buffer frames = Some (g', acts, jobs) →
  ∃ ds, acts = map SockSend ds ++ [SockClose].
Proof.
  unfold gateway_worker. destruct buffer as [b|]; [|intros [= _ <- _]; by exists []]. cbv zeta.
  generalize (MAX_REQUEST_SIZE + MAX_RESPONSE_SIZE)%nat. intros size.
  destruct (gateway_check _ _ _ _ _) as [g1 [resp|]]; [intros [= _ <- _]; by exists [build_http_response resp size]|].
  destruct (bool_decide _).
  - destruct (handle_ws_request _) as [hello|]; [|done]. destruct (ws_loop frames) as [sent|]; [|done].
    cbn [mbind option_bind]. intros [= _ <- _]. by eexists.
  - destruct (handle_request _ _ _ _ _) as [resp js]. cbn [mbind option_bind]. intros [= _ <- _].
    by exists [build_http_response resp size].
Qed.

Lemma run_ops_closes fd ds s :
  fd ∈ sv_open s → run_ops fd (map SockSend ds ++ [SockClose]) s = set_fds s (without fd (sv_open s)) (sv_bad s).
Proof.
  intros Hf. unfold run_ops. induction ds as [|d ds IH]; cbn [map app foldl sock_step]; [by apply close_open|].
  unfold use_fd. by rewrite bool_decide_eq_true_2.
Qed.

Lemma server_close_perm fd s l :
  inv s → sv_open s ≡ₚ fd :: l → sv_open (close_fd fd s) ≡ₚ l ∧ NoDup (sv_open (close_fd fd s)) ∧ sv_bad (close_fd fd s) = [].
Proof.
  intros [_ Hn Hb _ _] Hp. rewrite close_open by (rewrite Hp; by left).
  split_and!; [by apply without_perm|by apply NoDup_without|done].
Qed.

Lemma server_start_inv bind listen s s' :
  gateway_listen sockfd bind listen s = inl s' → sv_shutdown s = false → sv_open s = [] → sv_pending s = [] → sv_bad s = [] → inv s'.
Proof.
  unfold gateway_listen. intros Hs Hd Ho Hp Hb. repeat case_match; simplify_eq. split; cbn; rewrite ?Hd, ?Ho, ?Hp; try done.
  apply NoDup_singleton.
Qed.

Lemma server_finish_inv s : inv s → sv_shutdown s = true → inv (finish sockfd s).
Proof. intros [? ? ? ? ?] Hs. unfold finish. rewrite Hs. cbn [negb]. split; cbn; rewrite ?Hs in *; done. Qed.

Lemma server_shutdown_inv s : inv s → inv (gateway_request_shutdown s).
Proof.
  intros Hi. pose proof Hi as [Ho Hn Hb Hl Hc]. unfold gateway_request_shutdown. destruct (sv_shutdown s) eqn:E.
  - rewrite Hc by done. split; cbn; done.
  - rewrite Hl by done. destruct (server_close_perm sockfd s (map fst (sv_pending s)) Hi Ho) as (H1 & H2 & H3).
    rewrite close_open in * by (rewrite Ho; by left). by split.
Qed.

Lemma server_accept_inv fd ip allocated thread s : inv s → fd ∉ sv_open s → inv (accept_connection fd ip allocated thread s).
Proof.
  intros [Ho Hn Hb Hl Hc] Hf. unfold accept_connection.
  assert (inv (close_fd fd (set_fds s (fd :: sv_open s) (sv_bad s)))) as Hclosed.
  { rewrite close_open by (by left). split; cbn; rewrite ?Z.eqb_refl; cbn [negb]; try done;
      fold (without fd (sv_open s)); by rewrite without_id. }
  destruct (negb allocated); [done|]. destruct (negb thread); [done|]. split; cbn; try done.
  - rewrite Ho, map_app. cbn. rewrite app_assoc. apply Permutation_cons_append.
  - by constructor.
Qed.

Lemma pending_open fd ip s : inv s → List.find (λ c, fst c =? fd) (sv_pending s) = Some (fd, ip) → fd ∈ sv_open s.
Proof.
  intros [Ho _ _ _ _] [Hin _]%List.find_some. rewrite Ho. apply elem_of_app. right.
  apply list_elem_of_In, (in_map fst _ _ Hin).
Qed.

Lemma without_Permutation fd l l' : l ≡ₚ l' → without fd l ≡ₚ without fd l'.
Proof. intros Hp. induction Hp; cbn; repeat case_match; try constructor; try done; by etrans. Qed.

Lemma server_served_inv fd ip s g jobs :
  inv s → List.find (λ c, fst c =? fd) (sv_pending s) = Some (fd, ip) →
  inv (mk_server_t g (sv_shutdown s) (sv_listen s) (without fd (sv_open s))
         (List.filter (λ c, negb (fst c =? fd)) (sv_pending s)) (sv_looping s) jobs (sv_bad s)).
Proof.
  intros [Ho Hn Hb Hl Hc] Hf. apply List.find_some in Hf as [Hin _].
  assert (map fst (List.filter (λ c : Z * cstr, negb (fst c =? fd)) (sv_pending s)) = without fd (map fst (sv_pending s))) as Hm.
  { clear. induction (sv_pending s) as [|[x i] l IH]; [done|]. cbn. destruct (x =? fd); cbn; by rewrite IH. }
  rewrite Ho in Hn. apply NoDup_app in Hn as (_ & Hd & Hnp).
  assert (fd ∈ map fst (sv_pending s)) as Hfd by (apply list_elem_of_In, (in_map fst _ _ Hin)).
  split; cbn [sv_open sv_pending sv_shutdown sv_listen sv_bad]; try done;
    [|apply NoDup_without; rewrite Ho; apply NoDup_app; split_and!; try done].
  - rewrite Hm, (without_Permutation _ _ _ Ho). unfold without at 1. rewrite List.filter_app. fold (without fd). f_equiv.
    rewrite without_id; [done|]. intros H. by apply (Hd fd H).
  - destruct (sv_shutdown s); [constructor|apply NoDup_singleton].
Qed.

Lemma server_step_inv e s s' : inv s → os_ok e s → server_step e s = Some s' → inv s'.
Proof.
  intros Hi Ho Hs. destruct e as [fd ip al th| | |fd now mo buf fr]; cbn [server_step os_ok] in *.
  - destruct (sv_looping s); [|by simplify_eq]. injection Hs as <-. pose proof (server_accept_inv fd ip al th s Hi Ho) as H.
    unfold loop_test. destruct (sv_shutdown (accept_connection fd ip al th s)) eqn:E; [by apply server_finish_inv|done].
  - destruct (sv_looping s); [|by simplify_eq]. injection Hs as <-. destruct (sv_shutdown s) eqn:E; [by apply server_finish_inv|done].
  - injection Hs as <-. by apply server_shutdown_inv.
  - destruct (List.find _ _) as [[x ip]|] eqn:Ef; [|by simplify_eq].
    assert (x = fd) as -> by (apply List.find_some in Ef as [_ Ef]; by apply Z.eqb_eq).
    destruct (gateway_worker _ _ _ _ _ _ _ _ _ _) as [[[g acts] jobs]|] eqn:Ew; [|done]. cbn [mbind option_bind] in Hs.
    apply worker_closes_once in Ew as [ds ->]. rewrite run_ops_closes in Hs by (by eapply pending_open).
    injection Hs as <-. by eapply server_served_inv.
Qed.

Lemma server_reachable_inv s : reachable s → inv s.
Proof. induction 1; [by eapply server_start_inv|by eapply server_step_inv]. Qed.

(** C10: In every state of a server that started, whatever connections, errors and
    shutdowns came in whatever order, the open descriptors are the listening
    one, until a shutdown, and one for each connection being served; no
    descriptor was closed or written to when it was not open. *)
Theorem descriptors_accounted s :
  reachable s →
  sv_open s ≡ₚ (if sv_shutdown s then [] else [sockfd]) ++ map fst (sv_pending s) ∧ NoDup (sv_open s) ∧ sv_bad s = [].
Proof. intros [? ? ? _ _]%server_reachable_inv. done. Qed.

(** A server that was asked to shut down leaves its loop with the next result
    of [accept], and never accepts again. *)
Theorem shutdown_ends_loop s e fd ip al th :
  sv_shutdown s = true → e = AcceptFailed ∨ e = Accepted fd ip al th →
  ∃ s', server_step e s = Some s' ∧ sv_looping s' = false ∧ sv_shutdown s' = true ∧
        ∀ e', (∀ fd ip al th, e' = Accepted fd ip al th → server_step e' s' = Some s').
Proof.
  intros Hs He. assert (∃ s', server_step e s = Some s' ∧ sv_looping s' = false ∧ sv_shutdown s' = true) as (s' & H1 & H2 & H3).
  { destruct (sv_looping s) eqn:El.
    - destruct He as [->| ->]; cbn [server_step]; rewrite El, ?Hs.
      + eexists. split; [done|]. unfold finish. rewrite Hs. cbn. by rewrite Hs.
      + eexists. split; [done|]. unfold loop_test.
        assert (sv_shutdown (accept_connection fd ip al th s) = true) as E
          by (unfold accept_connection, close_fd, use_fd; repeat case_match; done).
        rewrite E. unfold finish. rewrite E. cbn. by rewrite E.
    - exists s. destruct He as [->| ->]; cbn [server_step]; by rewrite El. }
  exists s'. split_and!; try done. intros e' fd' ip' al' th' ->. cbn [server_step]. by rewrite H2.
Qed.
End steps.

(** A shutdown that comes before the socket listens is not lost, but the socket
    is: the loop is not entered, and nobody closes it. *)
Theorem early_shutdown_leaks_socket sockfd s :
  0 <= sockfd → sv_shutdown s = true →
  ∃ s', gateway_listen sockfd true true s = inl s' ∧ sv_looping s' = false ∧ sockfd ∈ sv_open (finish sockfd s').
Proof.
  intros Hf Hs. unfold gateway_listen. rewrite (proj2 (Z.ltb_ge sockfd 0)) by lia. cbn [negb orb]. eexists. split; [done|].
  cbn [set_fds sv_shutdown sv_looping]. rewrite Hs. split; [done|]. unfold finish. cbn [sv_shutdown negb sv_open set_fds]. by left.
Qed.

(** ** Witnesses *)

Definition server_zero : server_t := mk_server_t gateway_ex false None [] [] false [] [].
Definition server_ex : server_t := mk_server_t gateway_ex false (Some 3) [3] [] true [] [].

(** Two connections, of which the first is served, one that could not be given
    a thread, and a shutdown. *)
Definition events_ex : list event :=
  [Accepted 5 (lit "10.0.0.1") true true; Accepted 6 (lit "10.0.0.2") true true; Served 5 1000 true (Some request_ex) [];
   Accepted 5 (lit "10.0.0.3") true false; Shutdown; AcceptFailed].

Definition step_ex (s : server_t) (e : event) : server_t :=
  default s (server_step (Some (worker_submit (λ _, 0) 5 queue_ex)) None None None 3 e s).
Definition server_late : server_t := foldl step_ex server_ex events_ex.

#[local] Instance os_ok_dec e s : Decision (os_ok e s).
Proof. destruct e; apply _. Defined.

Lemma step_ex_reachable s e :
  reachable (Some (worker_submit (λ _, 0) 5 queue_ex)) None None None 3 s → os_ok e s →
  reachable (Some (worker_submit (λ _, 0) 5 queue_ex)) None None None 3 (step_ex s e).
Proof.
  intros Hr Ho. unfold step_ex. destruct (server_step _ _ _ _ _ _ _) as [s'|] eqn:E; [|done]. by eapply reach_step.
Qed.

Lemma descriptors_accounted_witness :
  sv_open server_late = [6] ∧ sv_jobs server_late = [chat_job false (lit "hello")] ∧
  NoDup (sv_open server_late) ∧ sv_bad server_late = [].
Proof.
  split; [vm_compute; reflexivity|]. split; [vm_compute; reflexivity|].
  eapply (descriptors_accounted (Some (worker_submit (λ _, 0) 5 queue_ex)) None None None 3).
  unfold server_late, events_ex. cbn [foldl].
  repeat (apply step_ex_reachable; [|by apply (bool_decide_unpack _); vm_compute]).
  by apply (reach_start _ None None None 3 true true server_zero server_ex).
Defined.

Lemma shutdown_ends_loop_witness :
  ∃ s', server_step None None None None 3 AcceptFailed (gateway_request_shutdown server_ex) = Some s' ∧ sv_looping s' = false.
Proof.
  destruct (shutdown_ends_loop None None None None 3 (gateway_request_shutdown server_ex) AcceptFailed 0 [] true true)
    as (s' & H1 & H2 & _); [done|by left|]. by exists s'.
Defined.

Lemma early_shutdown_leaks_socket_witness :
  ∃ s', gateway_listen 3 true true (gateway_request_shutdown server_zero) = inl s' ∧ 3 ∈ sv_open (finish 3 s').
Proof.
  destruct (early_shutdown_leaks_socket 3 (gateway_request_shutdown server_zero)) as (s' & H1 & _ & H3); [lia|done|]. by exists s'.
Defined.
