(* ===== verification/Commands.v ===== *)
(** * The commands over tables and files of [src/main.c]

    [cmd_auth], [cmd_service], [cmd_skills], [cmd_channel], [cmd_cron] and
    [cmd_migrate]: what a run of the program with such a command prints, what it
    leaves on the disk, and its code.  A run starts with the static variables at
    zero, so the disk is all that one command hands to the next.  [args] are
    the words behind the command; the lines that are printed come without their
    line ends. *)
From stdpp Require Import gmap.
From S2P Require Import Prelude KeyFile Config Cron Floats Sqlite Muninn Memory MemoryMap Channels Migration Skills Service Auth.

(** The files, by path, and the paths that can be opened for writing. *)
Record disk := mk_disk { texts : gmap cstr cstr; may_write : cstr → bool }.

Definition put (p text : cstr) (d : disk) : disk :=
  if may_write d p then mk_disk (<[p := text]> (texts d)) (may_write d) else d.

Lemma texts_put p q t d : texts (put p t d) !! q = if may_write d p && bool_decide (p = q) then Some t else texts d !! q.
Proof.
  unfold put. destruct (may_write d p); cbn [andb]; [|done]. case_bool_decide; subst; cbn;
    [by rewrite lookup_insert_eq|by rewrite lookup_insert_ne].
Qed.

Lemma may_write_put p t d : may_write (put p t d) = may_write d.
Proof. unfold put. by destruct (may_write d p). Qed.

Definition word (args : list cstr) (i : nat) : cstr := nth i args [].
Definition is_command (args : list cstr) (c : string) (n : nat) : bool := streq (word args 0) (lit c) && (n <=? length args)%nat.

Definition lines (l : list string) : list cstr := map lit l.

Section commands.
Context (getenv : cstr → option cstr).

(** ** Profiles *)

Definition auth_path : cstr :=
  snprintf_s 512 (default (lit ".") (getenv (lit "HOME")) ++ lit "/.doctorclaw/auth.toml").

Definition auth_banner : list cstr := lines ["[DoctorClaw] Authentication profiles"; "==============================="; ""].

Definition profile_row (p : auth_profile_t) : cstr :=
  lit "  " ++ pad 15 (name p) ++ lit " " ++ pad 15 (auth_provider_name (provider p)) ++ lit " " ++
  (if Auth.active p then lit "[active]" else []).

Definition profile_rows (a : auth_t) : list cstr :=
  let '(table, n) := auth_list_profiles a in map profile_row (take n table).

Definition auth_usage : list cstr := lines
  ["Usage: doctorclaw auth <command> [args]"; "Commands:"; "  list              List profiles";
   "  add <name> <provider> <key>  Add profile"; "  remove <name>     Remove profile"; "  active <name>    Set active profile"].

Definition cmd_auth (args : list cstr) (d : disk) : disk * list cstr * Z :=
  let a := (auth_load auth_init (texts d !! auth_path)).1 in
  let '(d, out) :=
    match args with
    | [] => (d, auth_usage ++ [[]; lit "Profiles (" ++ fmt_dec (Z.of_nat (profile_count a)) ++ lit "):"] ++ profile_rows a)
    | _ =>
        let n := word args 1 in
        if is_command args "list" 1 then (d, profile_rows a)
        else if is_command args "add" 4 then
          let a := (auth_add_profile a (Some n) (auth_provider_from_name (Some (word args 2))) (Some (word args 3))).1 in
          (put auth_path (auth_save a) d, [lit "Profile '" ++ n ++ lit "' added"])
        else if is_command args "active" 2 then
          let a := (auth_set_active a (Some n)).1 in
          (put auth_path (auth_save a) d, [lit "Profile '" ++ n ++ lit "' is now active"])
        else if is_command args "remove" 2 then
          let '(a, rc) := auth_remove_profile a (Some n) in
          if rc =? 0 then (put auth_path (auth_save a) d, [lit "Profile '" ++ n ++ lit "' removed"])
          else (d, [lit "Profile '" ++ n ++ lit "' not found"])
        else (d, [])
    end in
  (d, auth_banner ++ out, 0).

(** ** Services *)

Definition service_banner : list cstr := lines ["[DoctorClaw] Service management"; "==========================="; ""].

Definition service_usage : list cstr := lines
  ["Usage: doctorclaw service <command> [args]"; "Commands:"; "  list                List all services";
   "  register <name> <path>   Register a service"; "  start <name>        Start a service";
   "  stop <name>         Stop a service"; "  enable <name>      Enable auto-start"; "  disable <name>     Disable auto-start"].

Definition service_row (s : service_t) : cstr :=
  lit "  " ++ pad 20 (sv_name s) ++ lit " " ++ service_state_name (sv_state s) ++ lit " (pid: " ++ fmt_dec (sv_pid s) ++ lit ")".

(** [fork], [wait] and [now] are what the system answers; the calls made of it
    are in the result. *)
Definition cmd_service (wait : Z → option Z) (fork now : Z) (args : list cstr) : option (list act * list cstr * Z) :=
  let g := service_manager_init in
  match args with
  | [] => Some ([], service_banner ++ service_usage, 0)
  | _ =>
      let n := word args 1 in
      let told (text : cstr) := lit "Service '" ++ n ++ lit "' " ++ text in
      '(g, calls, out) ←
        (if is_command args "list" 1 then
          Some (g, [], (lit "Services (" ++ fmt_dec (Z.of_nat (service_count g)) ++ lit " registered):") :: map service_row (service_list g))
        else if is_command args "register" 3 then
          Some ((service_register g n (word args 2) None).1, [], [told (lit "registered at " ++ word args 2)])
        else if is_command args "start" 2 then
          let '(g, rc, l) := service_start fork now g n in
          Some (g, l, [told (if rc =? 0 then lit "started" else lit "not found")])
        else if is_command args "stop" 2 then
          '(g, rc, l) ← service_stop wait now g n;
          Some (g, l, [told (if rc =? 0 then lit "stopped" else lit "not found")])
        else if is_command args "enable" 2 then Some ((service_enable g n).1, [], [told (lit "enabled")])
        else if is_command args "disable" 2 then Some ((service_disable g n).1, [], [told (lit "disabled")])
        else Some (g, [], []));
      let '(_, killed) := service_manager_free g in
      Some (calls ++ killed, service_banner ++ out, 0)
  end.

(** ** Skills *)

Definition skills_banner : list cstr := lines ["[DoctorClaw] Skills management"; "==========================="; ""].

Definition skills_usage : list cstr := lines
  ["Usage: doctorclaw skills <command> [args]"; "Commands:"; "  list              List available skills";
   "  add <name> <path> Add a skill"; "  run <name>        Run a skill"; "  enable <name>     Enable a skill";
   "  disable <name>    Disable a skill"].

Definition skill_row (s : skill_t) : cstr :=
  lit "  " ++ pad 20 (sk_name s) ++ lit " " ++ (if sk_enabled s then lit "enabled" else lit "disabled").

Definition skill_rows (head : string) (g : skills_manager_t) : list cstr :=
  (lit head ++ lit " (" ++ fmt_dec (Z.of_nat (skill_count g)) ++ lit "):") :: map skill_row (skills_list g).

Definition cmd_skills (run : cstr → option cstr → option Z) (args : list cstr) : list cstr * Z :=
  let g := skills_manager_init in
  let n := word args 1 in
  let '(g, out) :=
    match args with
    | [] => (g, skills_usage ++ [[]] ++ skill_rows "Installed skills" g)
    | _ =>
        if is_command args "list" 1 then (g, skill_rows "Skills" g)
        else if is_command args "add" 3 then
          ((skills_add g n (Some (lit "User-defined skill")) SKILL_TYPE_TOOL (word args 2)).1, [lit "Skill '" ++ n ++ lit "' added"])
        else if is_command args "run" 2 then (g, [default [] (skills_execute run g n None (Z.to_nat 1024)).2])
        else if is_command args "enable" 2 then ((skills_enable g n).1, [])
        else if is_command args "disable" 2 then ((skills_disable g n).1, [])
        else (g, [])
    end in
  let _ := skills_manager_free g in
  (skills_banner ++ out, 0).

(** ** Channels *)

Definition channels_conf : cstr :=
  snprintf_s (Z.to_nat 1024)
    ((match getenv (lit "HOME") with Some ((_ :: _) as h) => h | _ => lit "." end) ++ lit "/.doctorclaw/channels.conf").

Definition channel_banner : list cstr := lines ["[DoctorClaw] Channel management"; "==========================="; ""].

Definition channel_usage : list cstr := lines
  ["Usage: doctorclaw channel <command> [args]"; "Commands:"; "  list              List configured channels";
   "  add <type>        Add a channel (telegram, discord, slack)"; "  remove <name>     Remove a channel";
   "  start [name]      Start channel listener(s)"; "  stop <name>       Stop a channel listener"].

Definition channel_row (c : channel_config_t) : cstr :=
  lit "  " ++ pad 12 (match cc_name c with [] => channel_get_name (cc_type c) | n => n end) ++ lit " " ++
  channel_get_name (cc_type c) ++ lit " (enabled=" ++ fmt_dec (if cc_enabled c then 1 else 0) ++ lit ")".

(** [channel_list_configured] gives a pointer into the table of instances as
    if it were a table of configurations: only its first row is where the
    caller looks for it.  [None]: the caller reads between the rows. *)
Definition channel_list_configured (cs : channels) : option (list channel_config_t) :=
  match cs with
  | [] => Some []
  | [i] => Some [ci_config i]
  | _ => None
  end.

Definition added_channel (type_name : cstr) : channel_config_t :=
  mk_channel_config (snprintf_s MAX_CHANNEL_NAME type_name) (channel_get_type type_name) [] [] [] false (replicate 32 None).

Definition cmd_channel (now : Z) (args : list cstr) (d : disk) : option (disk * list cstr * Z) :=
  let cs := (channels_load_config [] (texts d !! channels_conf)).1 in
  let n := word args 1 in
  match args with
  | [] => Some (d, channel_banner ++ channel_usage, 0)
  | _ =>
      if is_command args "list" 1 then
        rows ← channel_list_configured cs;
        Some (d, channel_banner ++ (lit "Configured channels (" ++ fmt_dec (Z.of_nat (length cs)) ++ lit "):") :: map channel_row rows, 0)
      else if is_command args "add" 2 then
        if bool_decide (channel_get_type n = CHANNEL_UNKNOWN) then
          Some (d, channel_banner ++ lines ["Unknown channel type. Use: telegram, discord, slack."], -1)
        else
          let cs := (channel_init cs (channel_get_type n) (added_channel n)).1 in
          if may_write d channels_conf then
            Some (put channels_conf (channels_save_config cs) d,
                  channel_banner ++ [lit "Added channel '" ++ n ++ lit "'. Edit " ++ channels_conf ++
                                     lit " to set bot_token or webhook_url, then 'channel start'."], 0)
          else Some (d, channel_banner ++ lines ["Failed to add channel or save config."], -1)
      else if is_command args "start" 1 then
        let cs := channel_start_all now cs in
        Some (d, channel_banner ++ [lit "[Channels] Started " ++ fmt_dec (Z.of_nat (length cs)) ++ lit " channels";
                                    lit "Channel listeners started."], 0)
      else Some (d, channel_banner, 0)
  end.

(** ** Tasks *)

(** [g_cron_state_dir] as [cron_set_workspace] leaves it. *)
Definition cron_set_workspace (state_dir : cstr) : cstr := take (512 - 1) state_dir.

(** The path of the task file. *)
Definition cron_db_path (g_cron_state_dir : cstr) : cstr :=
  match g_cron_state_dir with
  | [] => snprintf_s 512 (default (lit ".") (getenv (lit "HOME")) ++ lit "/" ++ lit ".doctorclaw/cron.db")
  | dir => snprintf_s 512 (dir ++ lit "/cron.db")
  end.

(** The scheduler on the task file at [p], and the disk it leaves. *)
Definition cron_at (p : cstr) (d : disk) : cron_t := mk_cron [] (texts d !! p) (may_write d p).
Definition cron_left (p : cstr) (c : cron_t) (d : disk) : disk :=
  match Cron.db c with Some text => put p text d | None => d end.

Definition cron_banner : list cstr := lines ["[DoctorClaw] Cron scheduler"; "======================="; ""].

Definition cron_usage : list cstr := lines
  ["Usage: doctorclaw cron <command> [args]"; "Commands:"; "  list                    List scheduled tasks"] ++
  [jlit "  add <id> <expr> <cmd>   Add a cron task (e.g. add job1 '* * * * *' 'echo hi')"] ++
  lines ["  remove <id>             Remove a task by id"].

Definition cron_started (c : cron_t) : cstr :=
  lit "[Cron] Scheduler initialized with " ++ fmt_dec (Z.of_nat (length (g_tasks c))) ++ lit " tasks".

(** [strftime] is the text of a time. *)
Definition task_row (strftime : Z → cstr) (t : cron_task_t) : cstr :=
  lit "  [" ++ t_id t ++ lit "] " ++ t_expression t ++ lit " -> " ++ t_command t ++ lit " (enabled=" ++
  (if t_enabled t then lit "yes" else lit "no") ++ lit ", next=" ++ (if 0 <? t_next_run t then strftime (t_next_run t) else []) ++
  lit ", runs=" ++ fmt_dec (t_run_count t) ++ lit ", fails=" ++ fmt_dec (t_fail_count t) ++ lit ")".

Definition cron_list_tasks (strftime : Z → cstr) (c : cron_t) : list cstr :=
  (lit "Cron Tasks (" ++ fmt_dec (Z.of_nat (length (g_tasks c))) ++ lit "):") :: map (task_row strftime) (g_tasks c).

Definition cron_ended : cstr := lit "[Cron] Scheduler shut down".

Definition cmd_cron (now : Z) (strftime : Z → cstr) (args : list cstr) (d : disk) : disk * list cstr * Z :=
  let p := cron_db_path [] in
  let c := cron_init now (cron_at p d) in
  let id := word args 1 in
  match args with
  | [] => (d, cron_banner ++ cron_usage, 0)
  | _ =>
      if is_command args "list" 1 then
        (cron_left p (cron_shutdown c) d, cron_banner ++ cron_started c :: cron_list_tasks strftime c ++ [cron_ended], 0)
      else if is_command args "add" 4 then
        let '(c', rc) := cron_add_task now c id (word args 2) (word args 3) in
        (cron_left p (cron_shutdown c') d,
         cron_banner ++ cron_started c ::
           (if rc =? 0 then [lit "[Cron] Added task: " ++ id ++ lit " (" ++ word args 2 ++ lit ") -> " ++ word args 3; cron_ended]
            else cron_ended :: lines ["Failed to add task (duplicate id or max tasks)"]),
         if rc =? 0 then 0 else -1)
      else if is_command args "remove" 2 then
        let '(c', rc) := cron_remove_task c id in
        (cron_left p (cron_shutdown c') d,
         cron_banner ++ cron_started c ::
           (if rc =? 0 then [lit "[Cron] Removed task: " ++ id; cron_ended] else [cron_ended; lit "Task '" ++ id ++ lit "' not found"]),
         if rc =? 0 then 0 else -1)
      else if streq (word args 0) (lit "add") || streq (word args 0) (lit "remove") then
        (d, cron_banner ++ lines ["Usage: cron add <id> <expression> <command>"; "       cron remove <id>"], -1)
      else (d, cron_banner, 0)
  end.

(** ** Migrations *)

Definition migrate_banner : list cstr := lines ["[DoctorClaw] Migration"; "===================="; ""].

Definition migrate_usage : list cstr := lines
  ["Usage: doctorclaw migrate <command> [args]"; "Commands:"; "  list              List migration sources";
   "  run <source>      Run migration from source"; "  sources           Show available sources"].

Definition migrate_sources : list cstr := lines
  ["Available migration sources:"; "  claude      - Claude Code"; "  openai      - OpenAI"; "  ollama      - Ollama";
   "  llamacpp    - llama.cpp"; "  generic     - Generic JSON export (usage: migrate run generic <path-to.json>)"].

(** What is printed of the first migration in the list. *)
Definition migrated_lines (l : list migration_t) : list cstr :=
  match l with
  | [] => []
  | m :: _ =>
      if bool_decide (mg_state m = MIGRATION_STATE_COMPLETED) then
        [lit "Migrated " ++ fmt_dec (Z.of_nat (items_migrated m)) ++ lit " items" ++
         (if (0 <? items_failed m)%nat then lit ", " ++ fmt_dec (Z.of_nat (items_failed m)) ++ lit " failed" else []) ++ lit "."]
      else match mg_error m with [] => [] | e => [lit "Migration failed: " ++ e] end
  end.

(** [workspace] is the directory of the loaded configuration; the memory is the
    one the import filled. *)
Definition cmd_migrate {D} `{Sqlite D} (clock : nat → Z) (workspace : cstr) (args : list cstr) (d : Migration.disk_t)
    : option (Migration.disk_t * option (memory_t D) * list cstr * Z) :=
  let source_name := word args 1 in
  let path := word args 2 in
  match args with
  | [] => Some (d, None, migrate_banner ++ migrate_usage, 0)
  | _ =>
      if is_command args "list" 1 || is_command args "sources" 1 then Some (d, None, migrate_banner ++ migrate_sources, 0)
      else if is_command args "run" 3 then
        let src := migration_source_from_name (Some source_name) in
        if bool_decide (src = MIGRATION_SOURCE_NONE) then
          Some (d, None, migrate_banner ++ [lit "Unknown source '" ++ source_name ++
                                            lit "'. Use: generic, claude, openai, ollama, llamacpp."], -1)
        else if negb (bool_decide (src = MIGRATION_SOURCE_GENERIC)) then
          Some (d, None, migrate_banner ++ lines
            ["Only 'generic' migration is implemented. Use: doctorclaw migrate run generic <path-to.json>"], -1)
        else
          let '(g, rc) := migration_add migration_manager_init src path workspace in
          if negb (rc =? 0) then Some (d, None, migrate_banner ++ lines ["Failed to add migration."], -1)
          else
            '(d, g, rc, mem) ← migration_execute clock d g path;
            Some (d, mem,
                  migrate_banner ++ [lit "Running migration from '" ++ path ++ lit "' -> " ++ workspace] ++
                    migrated_lines (migration_list g),
                  if negb (rc =? 0) then -1 else 0)
      else if streq (word args 0) (lit "run") then
        Some (d, None, migrate_banner ++ lines
          ["Usage: doctorclaw migrate run <source> <path>"; "  e.g. migrate run generic /path/to/export.json"], -1)
      else Some (d, None, migrate_banner, 0)
  end.
End commands.

(** ** Profiles are forgotten *)

Definition auth_file_ok (file : option cstr) : Prop :=
  match file with
  | None => True
  | Some text => ∃ a, clean a ∧ (profile_count a ≤ 1)%nat ∧ text = auth_save a
  end.

Lemma auth_file_empty file : auth_file_ok file → (auth_load auth_init file).1 = auth_init.
Proof. destruct file as [t|]; [|done]. intros (a & Hc & _ & ->). by rewrite saved_profiles_are_not_loaded. Qed.

Lemma take_no_newline n s : no_newline s → no_newline (take n s).
Proof. apply Forall_take. Qed.

Lemma added_clean n p k :
  no_newline n → no_newline k →
  clean (auth_add_profile auth_init (Some n) p (Some k)).1 ∧
  profile_count (auth_add_profile auth_init (Some n) p (Some k)).1 = 1%nat.
Proof.
  intros Hn Hk. split; [|done]. split; [constructor|]. split; [cbn; lia|]. apply Forall_singleton.
  unfold clean_profile, snprintf_s. cbn [name api_key endpoint]. rewrite !length_take.
  split_and!; try (by apply take_no_newline); try (by constructor); unfold MAX_PROFILE_NAME, MAX_API_KEY; cbn [length]; lia.
Qed.

Lemma init_clean : clean auth_init ∧ profile_count auth_init = O.
Proof. split; [|done]. split; [constructor|]. split; [cbn; lia|constructor]. Qed.

Lemma word_plain args i : Forall no_newline args → no_newline (word args i).
Proof.
  intros Ha. unfold word. destruct (nth_in_or_default i args []) as [H|H]; [|rewrite H; constructor].
  rewrite Forall_forall in Ha. apply Ha. by apply list_elem_of_In.
Qed.

Lemma auth_step_ok getenv args d :
  auth_file_ok (texts d !! auth_path getenv) → Forall no_newline args →
  auth_file_ok (texts (cmd_auth getenv args d).1.1 !! auth_path getenv).
Proof.
  intros Hf Ha. unfold cmd_auth. cbv zeta. rewrite auth_file_empty by done.
  assert (∀ a, clean a → (profile_count a ≤ 1)%nat → auth_file_ok (texts (put (auth_path getenv) (auth_save a) d) !! auth_path getenv)) as Hput.
  { intros a Hc Hn. rewrite texts_put, bool_decide_eq_true_2, andb_true_r by done. destruct (may_write d _); [|done]. by exists a. }
  assert (∀ i, no_newline (word args i)) as Hw by (intros; by apply word_plain).
  destruct args as [|w args]; [done|].
  destruct (is_command _ "list" 1); [done|]. destruct (is_command _ "add" 4); [|destruct (is_command _ "active" 2)].
  - destruct (added_clean (word (w :: args) 1) (auth_provider_from_name (Some (word (w :: args) 2))) (word (w :: args) 3));
      [apply Hw..|]. apply Hput; [done|lia].
  - apply Hput; apply init_clean || (cbn; lia).
  - by destruct (is_command _ "remove" 2).
Qed.

(** Whatever sequence of [auth] commands ran since the file was made, the
    next [auth list] shows no profile, [auth remove] finds none, and the file
    holds at most the one that was added last: what a command saves no
    command reads. *)
Theorem auth_commands_forget getenv cmds d n :
  texts d !! auth_path getenv = None → Forall (Forall no_newline) cmds →
  let d' := foldl (λ d args, (cmd_auth getenv args d).1.1) d cmds in
  cmd_auth getenv [lit "list"] d' = (d', auth_banner, 0) ∧
  cmd_auth getenv [lit "remove"; n] d' = (d', auth_banner ++ [lit "Profile '" ++ n ++ lit "' not found"], 0) ∧
  auth_file_ok (texts d' !! auth_path getenv).
Proof.
  intros Hd Hc. cbv zeta.
  assert (auth_file_ok (texts (foldl (λ d args, (cmd_auth getenv args d).1.1) d cmds) !! auth_path getenv)) as Hok.
  { assert (auth_file_ok (texts d !! auth_path getenv)) as H0 by (by rewrite Hd). clear Hd. revert d H0.
    induction Hc as [|args cmds Ha _ IH]; intros d H0; [done|]. cbn [foldl]. apply IH. by apply auth_step_ok. }
  split_and!; [| |done]; unfold cmd_auth; cbv zeta; by rewrite auth_file_empty.
Qed.

(** ** Commands on a table that is always new *)

Lemma command_once c c' n n' args :
  bool_decide (lit c = lit c') = false → is_command args c n = true → is_command args c' n' = false.
Proof.
  intros Hc H. unfold is_command, streq in *. bsplit. apply andb_false_iff. left.
  case_bool_decide as H'; [|done]. congruence.
Qed.

(** No [service] command ever starts, stops or signals a process, and every
    start and stop reports that there is no such service, whatever was
    registered before: the table is new in every run and never read. *)
Theorem service_commands_inert wait fork now args :
  ∃ out, cmd_service wait fork now args = Some ([], service_banner ++ out, 0) ∧
    (is_command args "start" 2 = true ∨ is_command args "stop" 2 = true →
     out = [lit "Service '" ++ word args 1 ++ lit "' not found"]).
Proof.
  unfold cmd_service. destruct args as [|w args]; [eexists; split; [done|]; intros [?|?]; done|]. cbv zeta.
  destruct (is_command _ "list" 1) eqn:E1;
    [eexists; split; [done|]; intros [H|H]; rewrite (command_once "list" _ 1) in H; done|].
  destruct (is_command _ "register" 3) eqn:E2;
    [eexists; split; [done|]; intros [H|H]; rewrite (command_once "register" _ 3) in H; done|].
  destruct (is_command _ "start" 2) eqn:E3; [by eexists|].
  destruct (is_command _ "stop" 2) eqn:E4; [by eexists|].
  destruct (is_command _ "enable" 2); [eexists; split; [done|]; intros [?|?]; done|].
  destruct (is_command _ "disable" 2); eexists; (split; [done|]; intros [?|?]; done).
Qed.

(** A [skills] command runs no skill: what it prints does not depend on what
    programs would do, and [skills run] prints an empty line. *)
Theorem skills_commands_inert run run' args :
  cmd_skills run args = cmd_skills run' args ∧
  (∀ n, cmd_skills run [lit "run"; n] = (skills_banner ++ [[]], 0)).
Proof. split; [|done]. unfold cmd_skills. by destruct args. Qed.

(** ** Channels that nobody added *)

Definition phantom : channel_instance_t := mk_instance channel_config_zero false 0.

Definition fresh (i : channel_instance_t) : channel_instance_t := mk_instance (Channels.restored i) false 0.

(** [channel add] on a file of channels writes them back with the new one at
    the end, and a Telegram channel without settings in front that nobody
    added; each further command adds another one.  After that [channel list]
    reads between the rows of the table. *)
Theorem channel_add_brings_phantom getenv now t cs d :
  texts d !! channels_conf getenv = Some (channels_save_config cs) → may_write d (channels_conf getenv) = true →
  Forall channel_ok cs → (length cs + 2 < MAX_CHANNELS)%nat → channel_get_type t ≠ CHANNEL_UNKNOWN →
  let cs' := phantom :: map fresh cs ++ [mk_instance (added_channel t) false 0] in
  ∃ d' out, cmd_channel getenv now [lit "add"; t] d = Some (d', out, 0) ∧
    texts d' !! channels_conf getenv = Some (channels_save_config cs') ∧
    (no_newline t → cmd_channel getenv now [lit "list"] d' = None).
Proof.
  intros Hf Hw Hok Hn Ht. cbv zeta.
  assert (channels_load_config [] (Some (channels_save_config cs)) = (phantom :: map fresh cs, 0)) as Hload.
  { apply saved_channels_load; [done|lia]. }
  assert (cmd_channel getenv now [lit "add"; t] d =
    Some (put (channels_conf getenv) (channels_save_config (phantom :: map fresh cs ++ [mk_instance (added_channel t) false 0])) d,
          channel_banner ++ [lit "Added channel '" ++ t ++ lit "'. Edit " ++ channels_conf getenv ++
                             lit " to set bot_token or webhook_url, then 'channel start'."], 0)) as ->.
  { unfold cmd_channel. rewrite Hf, Hload. cbv zeta. change (word [lit "add"; t] 1) with t.
    change (is_command [lit "add"; t] "list" 1) with false. change (is_command [lit "add"; t] "add" 2) with true. cbn iota.
    rewrite bool_decide_eq_false_2 by done. rewrite Hw. unfold channel_init. cbn [fst length]. rewrite length_map.
    by rewrite (proj2 (Nat.ltb_lt _ _)) by lia. }
  eexists _, _. split; [done|]. rewrite texts_put, Hw, bool_decide_eq_true_2 by done. split; [done|].
  intros Hnl. unfold cmd_channel. rewrite texts_put, Hw, bool_decide_eq_true_2 by done. cbn [andb].
  rewrite saved_channels_load.
  - cbv zeta. change (is_command [lit "list"] "list" 1) with true. cbn iota. cbn [fst channel_list_configured map app].
    by destruct (map _ (map fresh cs ++ _)) eqn:E; [destruct cs|].
  - constructor; [split; cbn; [done|split; [constructor|unfold MAX_CHANNEL_NAME; lia]|split; [constructor|cbn; lia]..]|].
    apply Forall_app. split.
    + apply Forall_map. eapply Forall_impl; [exact Hok|]. apply restored_ok.
    + apply Forall_singleton. split; cbn; [done|split; [by apply Forall_take|unfold snprintf_s, MAX_CHANNEL_NAME; rewrite length_take; lia]
      |split; [constructor|cbn; lia]..].
  - cbn [length]. rewrite length_app, length_map. cbn [length]. lia.
Qed.

(** ** Tasks *)

Lemma cron_left_other p q c d : p ≠ q → texts (cron_left p c d) !! q = texts d !! q.
Proof.
  intros Hpq. unfold cron_left. destruct (Cron.db c); [|done]. rewrite texts_put, bool_decide_eq_false_2 by done.
  by rewrite andb_false_r.
Qed.

Lemma cmd_cron_other getenv now strftime args d q :
  cron_db_path getenv [] ≠ q → texts (cmd_cron getenv now strftime args d).1.1 !! q = texts d !! q.
Proof. intros Hq. unfold cmd_cron. cbv zeta. repeat case_match; cbn [fst]; try done; by apply cron_left_other. Qed.

Lemma cmd_cron_may_write getenv now strftime args d : may_write (cmd_cron getenv now strftime args d).1.1 = may_write d.
Proof.
  assert (∀ p c, may_write (cron_left p c d) = may_write d) as H.
  { intros. unfold cron_left. case_match; [apply may_write_put|done]. }
  unfold cmd_cron. cbv zeta. repeat case_match; cbn [fst]; try done; apply H.
Qed.

(** The path of the daemon's task file, with the directories of a fresh
    configuration. *)
Definition daemon_cron_path {D} (dt : D) (getenv : cstr → option cstr) : cstr :=
  cron_db_path getenv (cron_set_workspace (state_dir (c_paths (config_init_defaults dt getenv)))).

Lemma daemon_path_differs {D} (dt : D) getenv h :
  getenv (lit "HOME") = Some h → h ≠ [] → (length h < 400)%nat → cron_db_path getenv [] ≠ daemon_cron_path dt getenv.
Proof.
  intros Hh Hne Hl. unfold daemon_cron_path, config_init_defaults, dir. rewrite Hh. destruct h as [|b h]; [done|].
  cbn [c_paths state_dir]. set (hh := b :: h) in *. rewrite <- (app_assoc hh).
  change (lit "/.doctorclaw" ++ lit "/state") with (lit "/.doctorclaw/state"). unfold cron_set_workspace.
  assert (length (lit "/.doctorclaw/state") = 18%nat) as H18 by done.
  rewrite (snprintf_s_id MAX_PATH_LEN) by (rewrite length_app, H18; change MAX_PATH_LEN with (Z.to_nat 4096); lia).
  rewrite take_ge by (rewrite length_app, H18; lia). unfold cron_db_path. rewrite Hh.
  change (hh ++ lit "/.doctorclaw/state") with (b :: h ++ lit "/.doctorclaw/state"). cbn [default id].
  change (b :: h ++ lit "/.doctorclaw/state") with (hh ++ lit "/.doctorclaw/state").
  assert (length (lit "/cron.db") = 8%nat) as H8 by done. assert (length (lit ".doctorclaw/cron.db") = 19%nat) as H19 by done.
  assert (length (lit "/") = 1%nat) as H1 by done.
  rewrite !snprintf_s_id by (rewrite ?length_app, ?H1, ?H8, ?H18, ?H19; lia).
  rewrite <- app_assoc. intros H%app_inv_head. discriminate H.
Qed.

(** A task that [cron add] takes is never run by the daemon: with the
    directories of a fresh configuration the command writes another file than
    the one the daemon reads, whose tasks no [cron] command changes. *)
Theorem cron_commands_miss_daemon {D} (dt : D) getenv h now t strftime args d :
  getenv (lit "HOME") = Some h → h ≠ [] → (length h < 400)%nat →
  let p := daemon_cron_path dt getenv in
  cron_init t (cron_at p (cmd_cron getenv now strftime args d).1.1) = cron_init t (cron_at p d).
Proof.
  intros Hh Hne Hl. cbv zeta. unfold cron_at. rewrite cmd_cron_may_write, cmd_cron_other; [done|]. by eapply daemon_path_differs.
Qed.

Definition added_task (now : Z) (id expr cmd : cstr) : cron_task_t :=
  mk_task id expr cmd true 0 (calculate_next_run expr now) 0 0.

Lemma cron_at_saved now p ts d :
  texts d !! p = Some (db_text ts) → Forall (clean_task now) ts → Forall (λ t, kept t = true) ts → (length ts ≤ MAX_TASKS)%nat →
  cron_init now (cron_at p d) = mk_cron ts (Some (db_text ts)) (may_write d p).
Proof.
  intros Hd Hc Hk Hl. unfold cron_init, cron_at, load_tasks_from_disk. cbn [Cron.db Cron.writable g_tasks]. rewrite Hd.
  cbn [g_tasks]. rewrite db_text_loads by done. f_equal. clear Hd Hc Hl.
  induction Hk as [|t ts Ht _ IH]; [done|]. cbn [List.filter]. by rewrite Ht, IH.
Qed.

(** C23: After [cron add] of a new id the file that the command uses,
    $HOME/.doctorclaw/cron.db (the README says it lies under state_dir), holds
    the tasks it held and the new one with its next run, and [cron list] in
    the same second shows exactly these. Conditions: the file exists, can be
    written and holds fewer than 64 tasks as a shutdown writes them, with run
    times that have not passed; every id, expression and command, also the new
    ones, is not empty, fits its field (64, 64 and 512 bytes) and has no bar
    or line end, and no id starts with '#': with a bar the task comes back
    corrupted, with '#' it is lost, see the findings. *)
Theorem cron_add_then_list getenv now strftime ts id expr cmd d :
  let p := cron_db_path getenv [] in
  texts d !! p = Some (db_text ts) → may_write d p = true →
  Forall (clean_task now) ts → Forall (λ t, kept t = true) ts → (length ts < MAX_TASKS)%nat →
  Forall (λ t, t_id t ≠ id) ts → field_ok 64 id → hd 0 id ≠ ch "#" → field_ok 64 expr → field_ok 512 cmd →
  0 <= now < 2 ^ 62 →
  let ts' := ts ++ [added_task now id expr cmd] in
  ∃ d' out, cmd_cron getenv now strftime [lit "add"; id; expr; cmd] d = (d', out, 0) ∧
    texts d' !! p = Some (db_text ts') ∧
    cmd_cron getenv now strftime [lit "list"] d' =
      (put p (db_text ts') d', cron_banner ++ cron_started (mk_cron ts' None true) ::
         (lit "Cron Tasks (" ++ fmt_dec (Z.of_nat (length ts')) ++ lit "):") :: map (task_row strftime) ts' ++ [cron_ended], 0).
Proof.
  intros p Hd Hw Hc Hk Hn Hid Hi Hi1 He Hm Hnow ts'. subst p.
  set (p := cron_db_path getenv []) in *. pose proof (cron_at_saved now p ts d Hd Hc Hk ltac:(lia)) as Hinit.
  pose proof (next_run_bounds expr now ltac:(lia)) as Hnext.
  assert (clean_task now (added_task now id expr cmd)) as Ht by (split; cbn; try done; lia).
  assert (cmd_cron getenv now strftime [lit "add"; id; expr; cmd] d =
    (put p (db_text ts') d, cron_banner ++ cron_started (mk_cron ts (Some (db_text ts)) true) ::
      [lit "[Cron] Added task: " ++ id ++ lit " (" ++ expr ++ lit ") -> " ++ cmd; cron_ended], 0)) as ->.
  { unfold cmd_cron. fold p. rewrite Hinit, Hw. cbv zeta.
    change (is_command [lit "add"; id; expr; cmd] "list" 1) with false.
    change (is_command [lit "add"; id; expr; cmd] "add" 4) with true. cbn iota.
    change (word [lit "add"; id; expr; cmd] 1) with id. change (word [lit "add"; id; expr; cmd] 2) with expr.
    change (word [lit "add"; id; expr; cmd] 3) with cmd. unfold cron_add_task. cbn [g_tasks Cron.db Cron.writable].
    rewrite (proj2 (Nat.leb_gt _ _)) by lia.
    assert (existsb (λ t, streq (t_id t) id) ts = false) as ->.
    { apply not_true_is_false. intros (t & Ht1 & Ht2)%existsb_exists. rewrite Forall_forall in Hid.
      apply bool_decide_eq_true in Ht2. by apply (Hid t); [apply list_elem_of_In|]. }
    destruct Hi as (_ & _ & Hi), He as (_ & _ & He), Hm as (_ & _ & Hm). rewrite !snprintf_s_id by done. done. }
  eexists _, _. split; [done|]. rewrite texts_put, Hw, bool_decide_eq_true_2 by done. split; [done|].
  unfold cmd_cron. fold p. rewrite (cron_at_saved now p ts').
  - cbv zeta. change (is_command [lit "list"] "list" 1) with true. cbn iota. rewrite may_write_put, Hw. done.
  - rewrite texts_put, Hw, bool_decide_eq_true_2 by done. done.
  - apply Forall_app. split; [done|by apply Forall_singleton].
  - apply Forall_app. split; [done|]. apply Forall_singleton. unfold kept. cbn. apply negb_true_iff. by apply Z.eqb_neq.
  - subst ts'. rewrite length_app. cbn [length]. lia.
Qed.

(** ** Migrations *)

Section migrate.
Context {D : Type} `{MemoryLaws D}.

Lemma first_migration path workspace :
  (length path < MAX_MIGRATION_PATH)%nat → (length workspace < MAX_MIGRATION_PATH)%nat →
  ∃ rest, migration_add migration_manager_init MIGRATION_SOURCE_GENERIC path workspace =
    (mk_migrations (mk_migration MIGRATION_SOURCE_GENERIC MIGRATION_STATE_PENDING path workspace 0 0 0 [] :: rest) 1, 0).
Proof. intros Hp Hw. unfold migration_add. cbn [migration_count]. rewrite !snprintf_s_id by done. cbn. by eexists. Qed.

End migrate.

(** ** Witnesses *)

Definition home_env (n : cstr) : option cstr := if streq n (lit "HOME") then Some (lit "/home/u") else None.
Definition disk_ex : disk := mk_disk ∅ (λ _, true).

Lemma auth_commands_forget_witness :
  let d := foldl (λ d args, (cmd_auth home_env args d).1.1) disk_ex [[lit "add"; lit "work"; lit "openai"; lit "sk-1"]] in
  cmd_auth home_env [lit "list"] d = (d, auth_banner, 0).
Proof.
  apply (auth_commands_forget home_env [[lit "add"; lit "work"; lit "openai"; lit "sk-1"]] disk_ex []); [done|].
  apply (bool_decide_unpack _). by vm_compute.
Defined.

Definition one_channel : disk := mk_disk {[ channels_conf home_env := channels_save_config [phantom] ]} (λ _, true).

Lemma channel_add_brings_phantom_witness :
  ∃ d' out, cmd_channel home_env 0 [lit "add"; lit "discord"] one_channel = Some (d', out, 0) ∧
    cmd_channel home_env 0 [lit "list"] d' = None.
Proof.
  destruct (channel_add_brings_phantom home_env 0 (lit "discord") [phantom] one_channel) as (d' & out & H1 & _ & H3);
    [by vm_compute|done| |vm_compute; lia|done|].
  { apply Forall_singleton. split; cbn; [done|split; [constructor|unfold MAX_CHANNEL_NAME; lia]|split; [constructor|cbn; lia]..]. }
  exists d', out. split; [exact H1|]. apply H3. apply (bool_decide_unpack _). by vm_compute.
Defined.

Lemma cron_commands_miss_daemon_witness :
  let p := daemon_cron_path 0 home_env in
  cron_init 1700000000 (cron_at p (cmd_cron home_env 1700000000 (λ _, []) [lit "add"; lit "j"; lit "* * * * *"; lit "ls"] disk_ex).1.1) =
  cron_init 1700000000 (cron_at p disk_ex).
Proof.
  exact (cron_commands_miss_daemon 0 home_env (lit "/home/u") 1700000000 1700000000 (λ _, [])
           [lit "add"; lit "j"; lit "* * * * *"; lit "ls"] disk_ex eq_refl ltac:(done) ltac:(vm_compute; lia)).
Defined.

Definition cron_disk : disk := mk_disk {[ cron_db_path home_env [] := db_text [task_ex] ]} (λ _, true).

Lemma cron_add_then_list_witness :
  ∃ d' out, cmd_cron home_env 1700000000 (λ _, []) [lit "add"; lit "j"; lit "* * * * *"; lit "ls"] cron_disk = (d', out, 0) ∧
    texts d' !! cron_db_path home_env [] =
      Some (db_text ([task_ex] ++ [added_task 1700000000 (lit "j") (lit "* * * * *") (lit "ls")])).
Proof.
  destruct (cron_add_then_list home_env 1700000000 (λ _, []) [task_ex] (lit "j") (lit "* * * * *") (lit "ls") cron_disk)
    as (d' & out & H1 & H2 & _).
  - by vm_compute.
  - done.
  - apply Forall_singleton. split; try (apply (bool_decide_unpack _); by vm_compute); cbn; lia.
  - apply Forall_singleton. reflexivity.
  - vm_compute; lia.
  - apply (bool_decide_unpack _). by vm_compute.
  - apply (bool_decide_unpack _). by vm_compute.
  - done.
  - apply (bool_decide_unpack _). by vm_compute.
  - apply (bool_decide_unpack _). by vm_compute.
  - lia.
  - by exists d', out.
Defined.

