(* ===== verification/Console.v ===== *)
(** * The reports and the other small commands of [src/main.c]

    [cmd_onboard], [cmd_doctor], [cmd_status], [cmd_providers], [cmd_models],
    [cmd_integrations], [cmd_hardware], [cmd_peripheral], [cmd_log] with the
    set-up of the log, and [cmd_test]: the lines each prints and its code. *)
From stdpp Require Import gmap.
From S2P Require Import Prelude KeyFile Auth Config Health Integrations Runtime Devices Log Doctor Onboard Commands.

(** ** Setting up *)

Definition onboard_workspace (args : list cstr) : cstr := match args with w :: _ => w | [] => lit ".doctorclaw" end.

(** [verbose] is [g_verbose]. *)
Definition cmd_onboard (verbose : bool) (args : list cstr) (d : Onboard.disk_t) : Onboard.disk_t * list cstr * Z :=
  let workspace := onboard_workspace args in
  let '(o, d, result) := onboard_execute onboard_init d workspace in
  (d, (if verbose then [lit "[DoctorClaw] Onboarding workspace: " ++ workspace] else []) ++
      [if result =? 0 then lit "Onboarding completed successfully!" else lit "Onboarding failed: " ++ ob_error o], result).

(** ** Reports *)

Section reports.
Context (getenv : cstr → option cstr) (exists_ dlopen runnable : cstr → bool).

Definition cmd_doctor : list cstr * Z :=
  let r := doctor_run_checks getenv exists_ dlopen runnable doctor_init in
  (lines ["[DoctorClaw] Running diagnostics..."; ""] ++ doctor_print_report r, 0).

(** [build] is the date and time of the build; the runtime is the one of a
    program that has just started. *)
Definition status_row (c : health_check_t) : cstr :=
  lit "  " ++ pad 15 (component c) ++ lit " " ++ (if bool_decide (status c = HEALTH_OK) then lit "OK" else lit "Unknown").

Definition status_monitor (now : Z) : health_monitor_t :=
  let m := (health_register now health_init (Some (lit "providers"))).1 in
  let m := (health_register now m (Some (lit "memory"))).1 in
  (health_register now m (Some (lit "channels"))).1.

Definition cmd_status (build : cstr) (now : Z) (rt : runtime_t) : list cstr * Z :=
  let i := runtime_get_info now rt in
  let '(rows, n) := health_list (status_monitor now) in
  (lines ["Doctor Claw Status"; "=================="; ""; "Version:     0.1.0"; "Platform:    C23/Clang"] ++
   [lit "Build:       " ++ build; []; lit "Runtime:";
    lit "  State:    " ++ (if bool_decide (rt_state i = RUNTIME_STATE_RUNNING) then lit "Running" else lit "Idle");
    lit "  Uptime:   " ++ fmt_dec (uptime_seconds i) ++ lit " seconds"; []; lit "Components:"] ++
   map status_row (take n rows) ++ [[]; lit "Status: Ready"], 0).

Definition cmd_models : list cstr * Z :=
  (lines ["Available Models"; "================"; ""; "OpenAI:"; "  gpt-4o           Latest GPT-4"; "  gpt-4o-mini      FastGPT-4";
          "  gpt-4-turbo      GPT-4 Turbo"; "  gpt-3.5-turbo    GPT-3.5"; ""; "Anthropic:"; "  claude-3-5-sonnet Latest Claude";
          "  claude-3-opus    Claude 3 Opus"; "  claude-3-haiku   Claude 3 Haiku"; ""; "OpenRouter:"; "  openai/gpt-4o-mini";
          "  anthropic/claude-3-haiku"; "  google/gemini-pro"; ""; "Local:"; "  llama-7b         Llama 7B (llama.cpp)";
          "  mistral-7b       Mistral 7B"], 0).

Definition env_descriptions : list (string * string) :=
  [("DOCTORCLAW_WORKSPACE", "Override workspace/state/data dirs"); ("DOCTORCLAW_CONFIG", "Config file path");
   ("DOCTORCLAW_PROVIDER", "Default provider (openrouter, openai, anthropic, gemini, llama, ollama, ...)");
   ("DOCTORCLAW_MODEL", "Default model name"); ("DOCTORCLAW_GATEWAY_PORT", "Gateway port");
   ("DOCTORCLAW_GATEWAY_HOST", "Gateway host bind"); ("DOCTORCLAW_LLAMA_MODEL", "Path to GGUF model (when provider=llama)");
   ("DOCTORCLAW_LOG_FILE", "Log file path"); ("DOCTORCLAW_RUN_STARTUP_TESTS", "Set to 1 to run tests once at daemon start");
   ("DOCTORCLAW_TEST_BIN", "Path to doctorclaw_test binary"); ("DOCTORCLAW_HEALTH_SECRET", "Optional secret for GET /health");
   ("DOCTORCLAW_SHELL", "Shell for tool execution (default /bin/sh)"); ("OPENROUTER_API_KEY", "OpenRouter API key");
   ("OPENAI_API_KEY", "OpenAI API key"); ("ANTHROPIC_API_KEY", "Anthropic API key"); ("GEMINI_API_KEY", "Google Gemini API key");
   ("GITHUB_TOKEN", "GitHub/Copilot and integrations"); ("OLLAMA_HOST", "Ollama host (default localhost:11434)");
   ("JIRA_API_TOKEN", "Jira integration (Bearer)"); ("NOTION_API_KEY", "Notion integration"); ("HOME", "User home (paths)");
   ("USER", "Username"); ("HTTP_PROXY", "HTTP proxy"); ("HTTPS_PROXY", "HTTPS proxy"); ("NO_PROXY", "No-proxy list")]%string.

Definition description_of (name : cstr) : cstr :=
  match List.find (λ p, streq (lit p.1) name) env_descriptions with Some p => lit p.2 | None => [] end.

Definition env_row (name : cstr) : cstr :=
  lit "  " ++ pad 28 name ++ lit " - " ++ description_of name ++
  (match getenv name with Some (_ :: _) => lit " (set)" | _ => [] end).

Definition env_rows : list cstr :=
  omap (λ i, env_row <$> config_env_var_name (Z.of_nat i)) (seq 0 (Z.to_nat config_env_var_count)).

Definition provider_lines : list cstr := lines
  ["Supported AI Providers"; "====================="; ""; "  openrouter       OpenRouter aggregator (default)";
   "  anthropic        Anthropic (Claude)"; "  openai           OpenAI"; "  openai-codex    OpenAI Codex";
   "  llama            llama.cpp (local GGUF models)"; "  ollama           Ollama (local)"; "  gemini           Google Gemini";
   "  glm              Zhipu GLM"; "  copilot          GitHub Copilot"; "  compatible       OpenAI-compatible API"; "";
   "Environment Variables (all keys detected at startup; config overrides from env):"].

Definition cmd_providers : list cstr * Z := (provider_lines ++ env_rows, 0).

Definition integration_row (r : integration_t) : cstr :=
  lit "  " ++ pad 15 (in_name r) ++ lit " " ++ (if in_enabled r then lit "enabled" else lit "disabled").

Definition cmd_integrations : list cstr * Z :=
  let g := foldl (λ g n, (integrations_add g (lit n) None).1) (integrations_init getenv)
             ["github"; "jira"; "notion"; "slack"]%string in
  (lines ["[DoctorClaw] Integrations"; "======================"; ""; "Available integrations:"] ++
   map integration_row (integrations_list g), 0).
End reports.

(** ** Devices *)

Definition device_code (t : Hardware.device_type_t) : Z :=
  match t with
  | Hardware.DEVICE_TYPE_USB => 0 | Hardware.DEVICE_TYPE_SERIAL => 1 | Hardware.DEVICE_TYPE_BLUETOOTH => 2
  | Hardware.DEVICE_TYPE_NETWORK => 3 | Hardware.DEVICE_TYPE_UNKNOWN => 4
  end.

Definition device_lines (d : Hardware.hardware_device_t) : list cstr :=
  [lit "  " ++ Hardware.dv_name d; lit "    Path:   " ++ Hardware.dv_path d;
   lit "    Type:   " ++ fmt_dec (device_code (Hardware.dv_type d));
   lit "    Status: " ++ (if Hardware.dv_connected d then lit "connected" else lit "disconnected"); []].

(** [dev1] and [dev2] are the names in [/dev] at the two scans. *)
Definition scanned (dev1 dev2 : option (list cstr)) : list Hardware.hardware_device_t :=
  Hardware.hardware_list (Hardware.hardware_scan dev1 dev2 Hardware.hardware_init).1.

Definition cmd_hardware (dev1 dev2 : option (list cstr)) : list cstr * Z :=
  let l := scanned dev1 dev2 in
  (lines ["[DoctorClaw] Hardware discovery"; "==========================="; ""] ++
   [lit "Found " ++ fmt_dec (Z.of_nat (length l)) ++ lit " devices:"; []] ++ concat (map device_lines l) ++
   (match l with [] => lines ["  No devices found."; "  (On macOS, check /dev/cu.* for serial devices)"] | _ => [] end), 0).

Definition cmd_peripheral (dev1 dev2 : option (list cstr)) (args : list cstr) : list cstr * Z :=
  (lines ["[DoctorClaw] Peripheral management"; "==============================="; ""] ++
   (match args with
    | [] => lines ["Usage: doctorclaw peripheral <command>"; "Commands:"; "  list              List peripherals";
                   "  scan              Scan for peripherals"]
    | _ =>
        if is_command args "list" 1 || is_command args "scan" 1 then
          [lit "Scanning for peripherals...";
           lit "Found " ++ fmt_dec (Z.of_nat (length (scanned dev1 dev2))) ++ lit " devices"]
        else []
    end), 0).

(** ** The log *)

(** The directories that [ensure_log_dirs] tries to make. *)
Definition ensure_log_dirs {D} (c : config_t D) : list cstr :=
  List.filter (λ p, match p with [] => false | _ => true end)
    [workspace_dir (c_paths c); state_dir (c_paths c); data_dir (c_paths c)].

Section log.
Context (opens : cstr → bool) (getenv : cstr → option cstr).

Definition configure_logging_default {D} (c : config_t D) (g : log_t) : log_t :=
  match getenv (lit "DOCTORCLAW_LOG_FILE") with
  | Some ((_ :: _) as p) => (log_set_file opens (Some p) g).1
  | _ =>
      match state_dir (c_paths c) with
      | [] => g
      | dir => (log_set_file opens (Some (snprintf_s MAX_PATH_LEN (dir ++ lit "/doctorclaw.log"))) g).1
      end
  end.

Definition log_usage : list cstr := lines ["Usage: doctorclaw log export <dest_path>"].

Definition cmd_log {D} (c : config_t D) (args : list cstr) (g : log_t) : log_t * list cstr * Z :=
  match args with
  | [] => (g, log_usage, 1)
  | sub :: rest =>
      if negb (streq sub (lit "export")) then (g, (lit "Unknown log command: " ++ sub) :: log_usage, 1)
      else
        match rest with
        | [] | [] :: _ => (g, log_usage, 1)
        | dest :: _ =>
            let g := configure_logging_default c g in
            let '(g, rc) := log_export opens (Some dest) g in
            if negb (rc =? 0) then
              (g, [lit "Failed to export log" ++ (match log_get_file_path g with Some p => lit " from " ++ p | None => [] end)], 1)
            else (g, [lit "Exported log to " ++ dest], 0)
        end
  end.
End log.

(** ** Tests *)

(** The program to run and whether it was found as a file; [runs] tells which
    paths are executable. *)
Definition test_binary (getenv : cstr → option cstr) (runs : cstr → bool) : cstr * bool :=
  match getenv (lit "DOCTORCLAW_TEST_BIN") with
  | Some ((_ :: _) as p) => (snprintf_s (Z.to_nat 1024) p, true)
  | _ =>
      match List.find runs [lit "bin/doctorclaw_test"; lit "./bin/doctorclaw_test"] with
      | Some p => (p, true)
      | None => (lit "doctorclaw_test", false)
      end
  end.

(** [status] is the result of the last [waitpid], 0 when it failed. *)
Definition cmd_test (fork status : Z) : Z :=
  if fork <? 0 then 1
  else if negb (Z.land status 127 =? 0) then 1
  else Z.land (Z.shiftr status 8) 255.

(** ** Properties *)

(** Every variable of the program is listed with a description, in the order
    of the table, and marked when it is set to something. *)
Theorem providers_describe_all getenv :
  env_rows getenv = map (λ p, lit "  " ++ pad 28 (lit p.1) ++ lit " - " ++ lit p.2 ++
                               (match getenv (lit p.1) with Some (_ :: _) => lit " (set)" | _ => [] end)) env_descriptions ∧
  Forall (λ p, p.2 ≠ ""%string) env_descriptions.
Proof.
  split; [|by apply (bool_decide_unpack _); vm_compute].
  assert (map (λ p, (lit p.1, lit p.2)) env_descriptions = map (λ n, (n, description_of n)) ENV_VAR_NAMES) as Ht by by_eval.
  assert (env_rows getenv = map (env_row getenv) ENV_VAR_NAMES) as -> by done.
  transitivity (map (λ q : cstr * cstr, lit "  " ++ pad 28 q.1 ++ lit " - " ++ q.2 ++
    (match getenv q.1 with Some (_ :: _) => lit " (set)" | _ => [] end)) (map (λ n, (n, description_of n)) ENV_VAR_NAMES)).
  - by rewrite map_map.
  - by rewrite <- Ht, map_map.
Qed.

(** [status] calls every component sound without looking at any of them, and
    in a program that has just started the runtime is idle. *)
Theorem status_always_ready build now rt :
  started_at (g_runtime rt) = 0 → rt_state (g_runtime rt) ≠ RUNTIME_STATE_RUNNING → uptime_seconds (g_runtime rt) = 0 →
  cmd_status build now rt =
  (lines ["Doctor Claw Status"; "=================="; ""; "Version:     0.1.0"; "Platform:    C23/Clang"] ++
   (lit "Build:       " ++ build) ::
   lines [""; "Runtime:"; "  State:    Idle"; "  Uptime:   0 seconds"; ""; "Components:"; "  providers       OK";
          "  memory          OK"; "  channels        OK"; ""; "Status: Ready"], 0).
Proof.
  intros Hs Hr Hu. unfold cmd_status, runtime_get_info. rewrite Hs. cbn [Z.ltb Z.compare andb].
  rewrite bool_decide_eq_false_2 by done. rewrite Hu. done.
Qed.

(** The report on devices counts exactly those in [/dev] whose names start as a
    USB or a serial device does, up to 32, in the order they were found. *)
Theorem hardware_report_exact dev1 dev2 :
  scanned dev1 dev2 = take Hardware.MAX_DEVICES
    (Hardware.found (lit "usb") Hardware.DEVICE_TYPE_USB dev1 ++ Hardware.found (lit "cu.") Hardware.DEVICE_TYPE_SERIAL dev2) ∧
  cmd_peripheral dev1 dev2 [lit "scan"] =
    (lines ["[DoctorClaw] Peripheral management"; "==============================="; ""] ++
     [lit "Scanning for peripherals..."; lit "Found " ++ fmt_dec (Z.of_nat (length (scanned dev1 dev2))) ++ lit " devices"], 0).
Proof.
  split; [|done]. unfold scanned.
  destruct (Hardware.scan_exact dev1 dev2 Hardware.hardware_init) as [_ ->]; [split; vm_compute; lia|done].
Qed.

(** [log export] copies the log of the directory of the configuration, as it
    was before the command, to a file that is not the log itself. *)
Theorem log_export_copies_log {D} opens getenv (c : config_t D) dest g :
  let p := snprintf_s MAX_PATH_LEN (state_dir (c_paths c) ++ lit "/doctorclaw.log") in
  getenv (lit "DOCTORCLAW_LOG_FILE") = None → state_dir (c_paths c) ≠ [] → opens p = true → dest ≠ [] → dest ≠ p →
  opens dest = true →
  ∃ g', cmd_log opens getenv c [lit "export"; dest] g = (g', [lit "Exported log to " ++ dest], 0) ∧
    Log.disk g' !! dest = Some (default [] (Log.disk g !! p)).
Proof.
  intros p He Hd Hp Hne Hdp Ho.
  assert (p ≠ [] ∧ (length p < Log.PATH_LEN)%nat) as [Hpn Hpl].
  { subst p. unfold snprintf_s. rewrite length_take. change MAX_PATH_LEN with Log.PATH_LEN. split; [|unfold Log.PATH_LEN; lia].
    by destruct (state_dir (c_paths c)). }
  assert (configure_logging_default opens getenv c g = (log_set_file opens (Some p) g).1) as Hcfg.
  { unfold configure_logging_default. rewrite He. subst p. by destruct (state_dir (c_paths c)). }
  destruct (log_file_and_export opens p dest [] g) as (_ & g'' & Hx & Hy & _); try done.
  cbn [write_all foldl lines_of List.filter map concat] in Hx, Hy. rewrite app_nil_r in Hy.
  exists g''. split; [|done]. unfold cmd_log. change (streq (lit "export") (lit "export")) with true. cbn [negb].
  destruct dest as [|b dest]; [done|]. rewrite Hcfg, Hx. done.
Qed.

(** What the tests end with is what [test] ends with; a run that was killed
    and a fork that failed end with 1. *)
Theorem test_reports_exit code sig fork :
  0 <= fork → 0 <= code < 256 → 0 < sig < 128 → cmd_test fork (code * 256) = code ∧ cmd_test fork sig = 1.
Proof.
  intros Hf Hc Hs. unfold cmd_test. rewrite (proj2 (Z.ltb_ge fork 0)) by lia.
  change 127 with (Z.ones 7). change 255 with (Z.ones 8). rewrite !Z.land_ones, Z.shiftr_div_pow2 by lia.
  change (2 ^ 7) with 128. change (2 ^ 8) with 256. rewrite (Z.mod_small sig) by lia. split.
  - replace (code * 256) with (code * 2 * 128) at 1 by lia. rewrite Z.mod_mul by lia. cbn [Z.eqb negb].
    rewrite Z.div_mul by lia. by apply Z.mod_small.
  - by rewrite (proj2 (Z.eqb_neq sig 0)) by lia.
Qed.

(** Setting up in the home directory puts the profiles and the channels where
    the program looks for them, but not the configuration: it goes to
    [$HOME/config.toml], and none is read from there. *)
Theorem onboard_at_home {D} (dt : D) getenv h d :
  getenv (lit "HOME") = Some h → getenv (lit "DOCTORCLAW_CONFIG") = None → h ≠ [] → (length h < 400)%nat →
  h ∈ Onboard.dirs d → Onboard.files d !! resolve_path getenv None = None →
  ∃ d', cmd_onboard false [h] d = (d', lines ["Onboarding completed successfully!"], 0) ∧
    Onboard.files d' !! auth_path getenv = Some (file_text auth_lines) ∧
    Onboard.files d' !! (workspace_dir (c_paths (config_init_defaults dt getenv)) ++ lit "/channels/config.toml") =
      Some (file_text Onboard.channel_lines) ∧
    Onboard.files d' !! resolve_path getenv None = None.
Proof.
  intros Hh Hc Hne Hl Hd Hf.
  destruct (onboard_completes onboard_init d h) as (o & d' & He & _ & _ & _ & Hfiles); [unfold MAX_WORKSPACE_PATH; lia|done|].
  exists d'. unfold cmd_onboard. cbn [onboard_workspace]. rewrite He. split; [done|]. rewrite Hfiles.
  assert (auth_path getenv = h ++ lit "/.doctorclaw/auth.toml") as ->.
  { unfold auth_path. rewrite Hh. cbn [default id]. apply snprintf_s_id. rewrite length_app.
    change (length (lit "/.doctorclaw/auth.toml")) with 22%nat. lia. }
  assert (workspace_dir (c_paths (config_init_defaults dt getenv)) = h ++ lit "/.doctorclaw") as ->.
  { unfold config_init_defaults, dir. rewrite Hh. destruct h as [|b h]; [done|]. cbn [c_paths workspace_dir].
    rewrite app_nil_r. apply snprintf_s_id. rewrite length_app. change (length (lit "/.doctorclaw")) with 12%nat.
    change MAX_PATH_LEN with (Z.to_nat 4096). lia. }
  assert (resolve_path getenv None = h ++ lit "/.doctorclaw/config.toml") as Hr.
  { unfold resolve_path. rewrite Hc, Hh. apply snprintf_s_id. rewrite length_app.
    change (length (lit "/.doctorclaw/config.toml")) with 24%nat. change MAX_PATH_LEN with (Z.to_nat 4096). lia. }
  rewrite <- app_assoc. change (lit "/.doctorclaw" ++ lit "/channels/config.toml") with (lit "/.doctorclaw/channels/config.toml").
  assert (∀ x y, bool_decide (x = y) = false → h ++ x ≠ h ++ y) as Hx.
  { intros x y Hxy%bool_decide_eq_false H. by apply app_inv_head in H. }
  split_and!.
  - rewrite lookup_insert_ne by (by apply Hx). apply lookup_insert_eq.
  - apply lookup_insert_eq.
  - rewrite Hr in *. by rewrite !lookup_insert_ne by (by apply Hx).
Qed.

(** ** Witnesses *)

Lemma status_always_ready_witness : (cmd_status (lit "today") 100 runtime_new).2 = 0.
Proof. by rewrite (status_always_ready (lit "today") 100 runtime_new). Defined.

Lemma log_export_copies_log_witness :
  ∃ g', cmd_log (λ _, true) (λ _, None) config_ex [lit "export"; lit "/tmp/out"] log_ex = (g', [lit "Exported log to /tmp/out"], 0).
Proof.
  destruct (log_export_copies_log (λ _, true) (λ _, None) config_ex (lit "/tmp/out") log_ex) as (g' & H & _);
    [done|by vm_compute|done|done|by vm_compute|done|]. by exists g'.
Defined.

Lemma test_reports_exit_witness : cmd_test 42 (3 * 256) = 3.
Proof. apply (test_reports_exit 3 9 42); lia. Defined.

Lemma onboard_at_home_witness :
  ∃ d', cmd_onboard false [lit "/home/u"] (Onboard.mk_disk {[ lit "/home/u" ]} ∅) = (d', lines ["Onboarding completed successfully!"], 0).
Proof.
  destruct (onboard_at_home 0 home_env (lit "/home/u") (Onboard.mk_disk {[ lit "/home/u" ]} ∅)) as (d' & H & _);
    [done|done|done|vm_compute; lia|set_solver|done|]. by exists d'.
Defined.
