(* ===== verification/DaemonCommand.v ===== *)
(** * The daemon of [src/main.c]

    [cmd_daemon] puts the components together: the runtime, the job queue and
    its workers, the instance registry, the gateway thread, the channel
    listeners and the scheduler, and takes them down again after a signal;
    [cmd_stop] sends that signal to the process in the PID file.  The state of
    every component is threaded through; what the system answers and what the
    other threads do in the meantime is given. *)
From stdpp Require Import gmap.
From S2P Require Import Prelude Config Channels Instance JobCache JobWorker Cron Runtime Gateway GatewayRun Commands.

(** ** The loop *)

(** A round: the time of it, the second of its pause in which a signal arrives,
    and what the workers and the gateway do to the queue in the meantime. *)
Record round := mk_round { rd_now : Z; rd_signal : option nat; rd_others : jobcache_t → jobcache_t }.

Definition PAUSE : nat := 10.

(** What a signal does to [g_daemon_shutdown]. *)
Definition daemon_signal_handler (g_daemon_shutdown : bool) : bool := true.

(** [for (int i = 0; i < 10 && !g_daemon_shutdown; i++) sleep(1);], with [left]
    the number of turns that are left: the seconds slept and the flag.  A signal
    comes while the second of its number is slept. *)
Fixpoint sleep_loop (left i : nat) (signal : option nat) (g_daemon_shutdown : bool) : nat * bool :=
  match left with
  | O => (i, g_daemon_shutdown)
  | S left' =>
      if g_daemon_shutdown then (i, g_daemon_shutdown)
      else
        sleep_loop left' (S i) signal
          (if bool_decide (signal = Some i) then daemon_signal_handler g_daemon_shutdown else g_daemon_shutdown)
  end.

Definition pause (r : round) : nat * bool := sleep_loop PAUSE 0 (rd_signal r) false.

(** [while (!g_daemon_shutdown)]; [None]: the daemon is still running when the
    rounds are at their end, or waits for room in the queue. *)
Fixpoint daemon_rounds (system : cstr → Z) (shutdown : bool) (l : list round) (c : cron_t) (q : jobcache_t) (slept : nat)
    : option (cron_t * jobcache_t * nat) :=
  if shutdown then Some (c, q, slept)
  else
    match l with
    | [] => None
    | r :: l' =>
        '(c, q) ← cron_run_pending (rd_now r) system c (Some q);
        let '(n, shutdown) := pause r in
        q ← q;
        daemon_rounds system shutdown l' c (rd_others r q) (slept + n)
    end.

(** ** The whole run *)

Record daemon_t {D} := mk_daemon_t {
  dm_runtime : runtime_t;
  dm_cache : option jobcache_t;
  dm_registry : registry_t (config_t := config_t D);
  dm_pool : option jobworker_pool;
  dm_cron : cron_t;
  dm_cron_queue : bool;          (* g_cron_jobcache is set *)
  dm_listeners : listeners_t;
  dm_server : server_t;
  dm_disk : disk;
}.
Arguments daemon_t : clear implicits.
Arguments mk_daemon_t {D}.

(** What the system answers: the memory of the queue and of the pool, the
    threads of the pool, the gateway and the listeners. *)
Record answers := mk_answers {
  an_cache : option (list job_t);
  an_pool : bool;
  an_workers : bool * list bool * bool;
  an_gateway : bool;
  an_listener : bool;
}.

Section daemon.
Context {D : Type} (getenv : cstr → option cstr) (zero : config_t D) (system : cstr → Z) (pid : Z).

Definition pid_path (c : config_t D) : cstr :=
  snprintf_s 512 ((match state_dir (c_paths c) with [] => lit "." | d => d end) ++ lit "/doctorclaw.pid").

Definition forget (p : cstr) (d : disk) : disk := mk_disk (delete p (texts d)) (may_write d).

(** The runtime is stopped and shut down on every way out. *)
Definition end_runtime (now : Z) (r : runtime_t) : runtime_t := runtime_shutdown now (runtime_stop now r).

(** The first part: up to the started pool.  [inr]: the state in which the
    command returns -1; [None] when a pool that could not be started is
    destroyed while its workers run, or a thread joined that was never made. *)
Definition daemon_begin (a : answers) (now : Z) (c : config_t D) (s : daemon_t D) : option (daemon_t D + daemon_t D) :=
  let rt := runtime_start now (runtime_init (dm_runtime s)) in
  let down cache reg pool :=
    mk_daemon_t (end_runtime now rt) cache reg pool (dm_cron s) (dm_cron_queue s) (dm_listeners s) (dm_server s) (dm_disk s) in
  match jobcache_create 256 (an_cache a) with
  | None => Some (inr (down None (dm_registry s) None))
  | Some q =>
      '(reg, _) ← instance_register (instance_init zero) (Some (lit "default")) (Some c);
      match (if an_pool a then jobworker_pool_create 2 16 else None) with
      | None => Some (inr (down None reg None))
      | Some p =>
          let '(m, ws, sc) := an_workers a in
          let '(p, rc) := jobworker_pool_start m ws sc p in
          if negb (rc =? 0) then
            left ← jobworker_pool_destroy (m && sc) p;
            if (left =? 0)%nat then Some (inr (down None reg None)) else None
          else Some (inl (mk_daemon_t rt (Some q) reg (Some p) (dm_cron s) true (dm_listeners s) (dm_server s) (dm_disk s)))
      end
  end.

Definition listeners_path (c : config_t D) : cstr := snprintf_s MAX_PATH_LEN (workspace_dir (c_paths c) ++ lit "/channels/config.toml").

(** The second part: listeners, scheduler, PID file. *)
Definition daemon_services (a : answers) (now : Z) (c : config_t D) (s : daemon_t D) : daemon_t D :=
  let l := match workspace_dir (c_paths c) with
           | [] => dm_listeners s
           | _ => (channel_start_listeners (an_listener a) (dm_listeners s) (Some (listeners_path c))).1
           end in
  let p := cron_db_path getenv (cron_set_workspace (state_dir (c_paths c))) in
  mk_daemon_t (dm_runtime s) (dm_cache s) (dm_registry s) (dm_pool s) (cron_init now (cron_at p (dm_disk s))) (dm_cron_queue s) l
    (dm_server s) (put (pid_path c) (fmt_dec pid ++ [10]) (dm_disk s)).

(** The last part, call by call.  What a pointer refers to is there or was
    released; to release it again is an error. *)
Definition release {A} (x : option A) : option (option A) := match x with Some _ => Some None | None => None end.

Definition with_cron (cr : cron_t) (queue : bool) (s : daemon_t D) : daemon_t D :=
  mk_daemon_t (dm_runtime s) (dm_cache s) (dm_registry s) (dm_pool s) cr queue (dm_listeners s) (dm_server s) (dm_disk s).
Definition with_pool (p : option jobworker_pool) (s : daemon_t D) : daemon_t D :=
  mk_daemon_t (dm_runtime s) (dm_cache s) (dm_registry s) p (dm_cron s) (dm_cron_queue s) (dm_listeners s) (dm_server s) (dm_disk s).
Definition with_cache (q : option jobcache_t) (s : daemon_t D) : daemon_t D :=
  mk_daemon_t (dm_runtime s) q (dm_registry s) (dm_pool s) (dm_cron s) (dm_cron_queue s) (dm_listeners s) (dm_server s) (dm_disk s).
Definition with_runtime (r : runtime_t) (s : daemon_t D) : daemon_t D :=
  mk_daemon_t r (dm_cache s) (dm_registry s) (dm_pool s) (dm_cron s) (dm_cron_queue s) (dm_listeners s) (dm_server s) (dm_disk s).
Definition with_disk (d : disk) (s : daemon_t D) : daemon_t D :=
  mk_daemon_t (dm_runtime s) (dm_cache s) (dm_registry s) (dm_pool s) (dm_cron s) (dm_cron_queue s) (dm_listeners s) (dm_server s) d.
Definition with_server (v : server_t) (s : daemon_t D) : daemon_t D :=
  mk_daemon_t (dm_runtime s) (dm_cache s) (dm_registry s) (dm_pool s) (dm_cron s) (dm_cron_queue s) (dm_listeners s) v (dm_disk s).

Definition cron_set_jobcache (q : option jobcache_t) (s : daemon_t D) : daemon_t D :=
  with_cron (dm_cron s) (bool_decide (is_Some q)) s.
Definition stop_pool (s : daemon_t D) : daemon_t D := with_pool (jobworker_pool_stop <$> dm_pool s) s.
(** [None]: workers use the pool when it is freed. *)
Definition destroy_pool (scaler : bool) (s : daemon_t D) : option (daemon_t D) :=
  p ← dm_pool s;
  left ← jobworker_pool_destroy scaler p;
  if (left =? 0)%nat then p ← release (dm_pool s); Some (with_pool p s) else None.
Definition jobcache_destroy (s : daemon_t D) : option (daemon_t D) := q ← release (dm_cache s); Some (with_cache q s).
Definition shutdown_registry (s : daemon_t D) : daemon_t D :=
  mk_daemon_t (dm_runtime s) (dm_cache s) (instance_shutdown zero (dm_registry s)) (dm_pool s) (dm_cron s) (dm_cron_queue s)
    (dm_listeners s) (dm_server s) (dm_disk s).
(** The tasks are written to the file at [p] before they are dropped. *)
Definition shutdown_cron (p : cstr) (s : daemon_t D) : daemon_t D :=
  let cron := cron_shutdown (dm_cron s) in
  with_disk (cron_left p cron (dm_disk s)) (with_cron cron (dm_cron_queue s) s).

(** [server] is the gateway when the signal is noticed.  [None]: the thread that
    is joined was never made. *)
Definition daemon_end (a : answers) (now : Z) (c : config_t D) (server : server_t) (cron : cron_t) (q : jobcache_t)
    (s : daemon_t D) : option (daemon_t D) :=
  let s := with_cache (Some q) (with_cron cron (dm_cron_queue s) s) in
  let s := with_server (gateway_request_shutdown server) s in
  if negb (an_gateway a) then None
  else
    let s := with_disk (forget (pid_path c) (dm_disk s)) s in
    let s := cron_set_jobcache None s in
    let s := stop_pool s in
    s ← destroy_pool (let '(m, _, sc) := an_workers a in m && sc) s;
    s ← jobcache_destroy s;
    let s := shutdown_registry s in
    let s := shutdown_cron (cron_db_path getenv (cron_set_workspace (state_dir (c_paths c)))) s in
    let s := with_runtime (runtime_stop now (dm_runtime s)) s in
    Some (with_runtime (runtime_shutdown now (dm_runtime s)) s).

Definition cmd_daemon (a : answers) (now later : Z) (c : config_t D) (shutdown : bool) (l : list round) (server : server_t)
    (s : daemon_t D) : option (daemon_t D * Z) :=
  b ← daemon_begin a now c s;
  match b with
  | inr s => Some (s, -1)
  | inl s =>
      let s := daemon_services a now c s in
      q ← dm_cache s;
      '(cron, q, _) ← daemon_rounds system shutdown l (dm_cron s) q 0;
      s ← daemon_end a later c server cron q s;
      Some (s, 0)
  end.

(** ** Stopping it *)

(** [fscanf(f, "%d", &pid) == 1] *)
Definition scan_int (s : cstr) : option Z :=
  let t := skip_while isspace s in
  let digits := match t with 45 :: r | 43 :: r => r | _ => t end in
  if isdigit (hd 0 digits) then Some (s32 (strtol10 s)) else None.

(** The process that is signalled, what is printed and the code; [kill] tells
    whether the signal is sent, [errno] is the text when it is not. *)
Definition cmd_stop (kill : Z → bool) (errno : cstr) (c : config_t D) (d : disk) : option Z * list cstr * Z :=
  match texts d !! pid_path c with
  | None => (None, [lit "No daemon PID file at " ++ pid_path c ++ lit " (daemon not running?)"], 1)
  | Some text =>
      match scan_int text with
      | None => (None, [lit "Invalid PID file"], 1)
      | Some p =>
          if p <=? 0 then (None, [lit "Invalid PID file"], 1)
          else if kill p then
            (Some p, [lit "Sent SIGTERM to daemon (PID " ++ fmt_dec p ++ lit "). It will shut down gracefully."], 0)
          else (Some p, [lit "Failed to send SIGTERM to PID " ++ fmt_dec p ++ lit ": " ++ errno], 1)
      end
  end.
End daemon.

(** ** The gateway alone *)

Fixpoint gateway_args (args : list cstr) (port : Z) (host : cstr) : Z * cstr :=
  match args with
  | [] => (port, host)
  | a :: rest =>
      match rest with
      | v :: rest' =>
          if streq a (lit "-p") then gateway_args rest' (atoi v) host
          else if streq a (lit "-h") then gateway_args rest' port v
          else gateway_args rest (if hd 0 a =? 45 then port else atoi a) host
      | [] => (if hd 0 a =? 45 then port else atoi a, host)
      end
  end.

(** The address and the port that [cmd_gateway] hands to [gateway_run]. *)
Definition cmd_gateway (args : list cstr) : cstr * Z :=
  let '(port, host) := gateway_args args 8080 (lit "0.0.0.0") in (host, u16 port).

(** ** What is left behind *)

Section properties.
Context {D : Type} (getenv : cstr → option cstr) (zero : config_t D) (system : cstr → Z) (pid : Z).

Lemma end_runtime_stopped now r : rt_state (g_runtime (end_runtime now r)) = RUNTIME_STATE_STOPPED.
Proof. unfold end_runtime, runtime_shutdown, runtime_stop, runtime_docker_cleanup. cbv zeta. by repeat case_match. Qed.

Lemma shutdown_flags s : sv_shutdown (gateway_request_shutdown s) = true ∧ sv_listen (gateway_request_shutdown s) = None.
Proof. unfold gateway_request_shutdown. by case_match. Qed.

Lemma pid_path_short (c : config_t D) :
  state_dir (c_paths c) ≠ [] → (length (state_dir (c_paths c)) < 400)%nat →
  pid_path c = state_dir (c_paths c) ++ lit "/doctorclaw.pid" ∧
  cron_db_path getenv (cron_set_workspace (state_dir (c_paths c))) = state_dir (c_paths c) ++ lit "/cron.db".
Proof.
  intros Hne Hl. assert (length (lit "/doctorclaw.pid") = 15%nat) as H1 by done. assert (length (lit "/cron.db") = 8%nat) as H2 by done.
  unfold pid_path, cron_db_path, cron_set_workspace. rewrite take_ge by lia. destruct (state_dir (c_paths c)) as [|b d]; [done|].
  split; apply snprintf_s_id; rewrite length_app, ?H1, ?H2; lia.
Qed.

Lemma pid_file_is_not_cron (c : config_t D) :
  state_dir (c_paths c) ≠ [] → (length (state_dir (c_paths c)) < 400)%nat →
  cron_db_path getenv (cron_set_workspace (state_dir (c_paths c))) ≠ pid_path c.
Proof. intros Hne Hl. destruct (pid_path_short c Hne Hl) as [-> ->]. intros H%app_inv_head. discriminate H. Qed.

(** The pool is down once it was released, and nothing else was touched. *)
Lemma destroy_pool_spec sc (s s' : daemon_t D) : destroy_pool sc s = Some s' → s' = with_pool None s.
Proof.
  unfold destroy_pool. destruct (dm_pool s) as [p|]; [|done]. cbn [mbind option_bind].
  destruct (jobworker_pool_destroy sc p); [|done]. cbn [mbind option_bind]. case_if; [|done]. cbn. by intros [= <-].
Qed.

(** What the calls of [daemon_end] leave, when they come to their end. *)
Lemma daemon_end_spec a now c server cron q (s s' : daemon_t D) :
  daemon_end getenv zero a now c server cron q s = Some s' →
  s' = mk_daemon_t (end_runtime now (dm_runtime s)) None (instance_shutdown zero (dm_registry s)) None (cron_shutdown cron) false
         (dm_listeners s) (gateway_request_shutdown server)
         (cron_left (cron_db_path getenv (cron_set_workspace (state_dir (c_paths c)))) (cron_shutdown cron)
            (forget (pid_path c) (dm_disk s))).
Proof.
  unfold daemon_end. destruct (an_gateway a); [|done]. cbn [negb].
  destruct (destroy_pool _ _) as [s1|] eqn:E; [|done]. apply destroy_pool_spec in E as ->. cbn. by intros [= <-].
Qed.

(** C12: When a daemon (state directory set, below 400 bytes) has returned 0,
    the calls of its shutdown have left no queue, no worker pool, no queue at
    the cron table, no registered instances, no tasks in memory and no PID
    file, a stopped runtime and a gateway told to end. Not everything is
    stopped: the poller of channels goes on, see [daemon_leaves_poller]. *)
Theorem daemon_cleans_up a now later c shutdown l server s s' :
  state_dir (c_paths c) ≠ [] → (length (state_dir (c_paths c)) < 400)%nat →
  cmd_daemon getenv zero system pid a now later c shutdown l server s = Some (s', 0) →
  dm_cache s' = None ∧ dm_pool s' = None ∧ dm_registry s' = instance_init zero ∧ g_tasks (dm_cron s') = [] ∧
  dm_cron_queue s' = false ∧ texts (dm_disk s') !! pid_path c = None ∧
  rt_state (g_runtime (dm_runtime s')) = RUNTIME_STATE_STOPPED ∧
  sv_shutdown (dm_server s') = true ∧ sv_listen (dm_server s') = None.
Proof.
  intros Hne Hl. unfold cmd_daemon. destruct (daemon_begin zero a now c s) as [[s1|s1]|]; cbn [mbind option_bind]; [|done..].
  destruct (dm_cache _) as [q|]; [|done]. cbn [mbind option_bind].
  destruct (daemon_rounds _ _ _ _ _ _) as [[[cron q'] n]|]; [|done]. cbn [mbind option_bind].
  destruct (daemon_end _ _ _ _ _ _ _ _ _) as [s2|] eqn:Ee; [|done]. apply daemon_end_spec in Ee.
  cbn [mbind option_bind]. intros [= <-]. rewrite Ee. cbn.
  pose proof (end_runtime_stopped later) as Hr. destruct (shutdown_flags server) as [Hs1 Hs2].
  split_and!; try done.
  rewrite cron_left_other by (by apply pid_file_is_not_cron). cbn. apply lookup_delete_eq.
Qed.

(** A start that fails, and does not free the pool under running workers,
    leaves nothing behind on the disk, no queue and no workers, and a stopped
    runtime. *)
Theorem failed_daemon_start a now later c shutdown l server s s' :
  cmd_daemon getenv zero system pid a now later c shutdown l server s = Some (s', -1) →
  dm_cache s' = None ∧ dm_pool s' = None ∧ dm_disk s' = dm_disk s ∧ dm_listeners s' = dm_listeners s ∧
  rt_state (g_runtime (dm_runtime s')) = RUNTIME_STATE_STOPPED.
Proof.
  unfold cmd_daemon. destruct (daemon_begin zero a now c s) as [[s1|s1]|] eqn:Eb; cbn [mbind option_bind]; [| |done].
  - destruct (dm_cache _) as [q|]; [|done]. cbn [mbind option_bind].
    destruct (daemon_rounds _ _ _ _ _ _) as [[[cron q'] n]|]; [|done]. cbn [mbind option_bind].
    destruct (daemon_end _ _ _ _ _ _ _ _ _); [|done]. cbn. done.
  - intros [= <-]. revert Eb. unfold daemon_begin. cbv zeta. pose proof (end_runtime_stopped now) as Hr.
    destruct (jobcache_create _ _); [|intros [= <-]; cbn; by split_and!].
    destruct (instance_register _ _ _) as [[reg rc]|]; [|done]. cbn [mbind option_bind].
    destruct (if an_pool a then _ else _); [|intros [= <-]; cbn; by split_and!].
    destruct (an_workers a) as [[m ws] sc]. destruct (jobworker_pool_start m ws sc _) as [p rc']. destruct (rc' =? 0); cbn [negb]; [done|].
    destruct (jobworker_pool_destroy _ _) as [left|]; [|done]. cbn [mbind option_bind].
    destruct (left =? 0)%nat; [|done]. intros [= <-]; cbn; by split_and!.
Qed.

(** When the scaler thread cannot be made after a worker was, the daemon frees
    the pool and the queue that the worker uses. *)
Theorem failed_scaler_frees_used_pool a now later c shutdown l server s q reg rc ws :
  jobcache_create 256 (an_cache a) = Some q → an_pool a = true → an_workers a = (true, true :: ws, false) →
  instance_register (instance_init zero) (Some (lit "default")) (Some c) = Some (reg, rc) →
  cmd_daemon getenv zero system pid a now later c shutdown l server s = None.
Proof.
  intros Hq Hp Hw Hr. unfold cmd_daemon, daemon_begin. cbv zeta. rewrite Hq, Hr, Hp, Hw. done.
Qed.

Lemma listeners_started (c : config_t D) l :
  (length (workspace_dir (c_paths c)) < 1000)%nat →
  g_listeners_running (channel_start_listeners true l (Some (listeners_path c))).1 = true.
Proof.
  intros Hw. unfold channel_start_listeners. destruct (g_listeners_running l) eqn:Er; [done|].
  destruct (Nat.leb_spec LISTENER_CONFIG_PATH_MAX (length (listeners_path c))) as [H|H]; [|done]. exfalso. revert H.
  unfold listeners_path, snprintf_s. rewrite length_take, length_app.
  assert (length (lit "/channels/config.toml") = 21%nat) as -> by done. unfold LISTENER_CONFIG_PATH_MAX. lia.
Qed.

(** The listeners are not among the things taken down: when the daemon has
    ended, the thread that polls Telegram still runs, with the queue it was
    given gone. *)
Theorem daemon_leaves_poller a now later c shutdown l server s s' :
  an_listener a = true → workspace_dir (c_paths c) ≠ [] → (length (workspace_dir (c_paths c)) < 1000)%nat →
  cmd_daemon getenv zero system pid a now later c shutdown l server s = Some (s', 0) →
  g_listeners_running (dm_listeners s') = true ∧ dm_cache s' = None.
Proof.
  intros Ha Hw Hlen. unfold cmd_daemon. destruct (daemon_begin zero a now c s) as [[s1|s1]|]; cbn [mbind option_bind]; [|done..].
  destruct (dm_cache _) as [q|]; [|done]. cbn [mbind option_bind].
  destruct (daemon_rounds _ _ _ _ _ _) as [[[cron q'] n]|]; [|done]. cbn [mbind option_bind].
  destruct (daemon_end _ _ _ _ _ _ _ _ _) as [s2|] eqn:Ee; [|done]. apply daemon_end_spec in Ee.
  cbn [mbind option_bind]. intros [= <-]. rewrite Ee. cbn [dm_listeners dm_cache]. split; [|done].
  unfold daemon_services. cbn [dm_listeners]. destruct (workspace_dir (c_paths c)) as [|b w] eqn:Ew; [done|].
  rewrite Ha. by apply listeners_started; rewrite Ew.
Qed.
End properties.

(** ** It ends after a signal *)

(** A queue with room for [n] jobs. *)
Definition roomy (n : nat) (q : jobcache_t) : Prop := cache_inv q ∧ (JobCache.count q + n ≤ capacity q)%nat.

(** A round after which the other threads leave room for all the tasks. *)
Record calm (n : nat) (r : round) : Prop := {
  calm_now : 0 <= rd_now r;
  calm_others : ∀ q, cache_inv q → roomy n (rd_others r q);
}.

Lemma round_runs system n r c q :
  0 <= rd_now r → roomy n q → length (g_tasks c) = n →
  ∃ c' q', cron_run_pending (rd_now r) system c (Some q) = Some (c', Some q') ∧ cache_inv q' ∧ length (g_tasks c') = n.
Proof.
  intros Hn [Hq Hr] Hc. unfold cron_run_pending. pose proof (enqueue_due_spec (rd_now r) (g_tasks c) q Hq Hn) as H.
  destruct (enqueue_due (rd_now r) q (g_tasks c)) as [[q1 ts]|]; cbn [mbind option_bind].
  - destruct H as (Hq1 & _ & _ & -> & _). eexists _, q1. split; [done|]. split; [done|]. cbn. by rewrite length_map.
  - pose proof (List.filter_length_le (due (rd_now r)) (g_tasks c)). lia.
Qed.

Lemma sleep_quiet left : ∀ i, sleep_loop left i None false = ((i + left)%nat, false).
Proof.
  induction left as [|left IH]; intros i; cbn [sleep_loop]; [by rewrite Nat.add_0_r|].
  rewrite bool_decide_eq_false_2, IH by done. f_equal. lia.
Qed.

Lemma sleep_signalled left k : ∀ i, (i ≤ k < i + left)%nat → sleep_loop left i (Some k) false = (S k, true).
Proof.
  induction left as [|left IH]; intros i Hk; [lia|]. cbn [sleep_loop]. destruct (decide (k = i)) as [->|Hne].
  - rewrite bool_decide_eq_true_2 by done. by destruct left.
  - rewrite bool_decide_eq_false_2 by congruence. apply IH. lia.
Qed.

(** C11: The daemon's loop ends in the second in which the signal comes: with
    [length l] rounds before it and the signal in second [k] of the pause of
    the next, it has slept ten seconds per round and [k + 1] more, all tasks
    kept. Conditions: the clock is not negative and, at the start of each
    round, the queue has room for every task, so that no push waits; a push on
    a full queue would delay the end. *)
Theorem daemon_stops_on_signal system n l r l' k c q :
  Forall (λ r, rd_signal r = None ∧ calm n r) l → calm n r → rd_signal r = Some k → (k < 10)%nat →
  roomy n q → length (g_tasks c) = n →
  ∃ c' q', daemon_rounds system false (l ++ r :: l') c q 0 = Some (c', q', 10 * length l + S k)%nat ∧ length (g_tasks c') = n.
Proof.
  intros Hl Hr Hs Hk. change (10 * length l + S k)%nat with (0 + PAUSE * length l + S k)%nat. generalize 0%nat as slept.
  revert c q. induction Hl as [|r0 l [H0 Hc0] _ IH]; intros c q slept Hq Hc.
  - cbn [app daemon_rounds]. destruct (round_runs system n r c q (calm_now _ _ Hr) Hq Hc) as (c' & q' & -> & Hq' & Hc').
    cbn [mbind option_bind]. unfold pause. rewrite Hs, sleep_signalled by (unfold PAUSE in *; lia).
    exists c', (rd_others r q'). cbn [length]. rewrite Nat.mul_0_r, Nat.add_0_r. by destruct l'.
  - cbn [app daemon_rounds]. destruct (round_runs system n r0 c q (calm_now _ _ Hc0) Hq Hc) as (c' & q' & -> & Hq' & Hc').
    cbn [mbind option_bind]. unfold pause. rewrite H0, sleep_quiet. cbn [Nat.add].
    destruct (IH c' (rd_others r0 q') (slept + PAUSE)%nat (calm_others _ _ Hc0 q' Hq') Hc') as (c'' & q'' & -> & H'').
    exists c'', q''. split; [|done]. do 2 f_equal. cbn [length]. lia.
Qed.

(** ** [stop] finds the daemon *)

Lemma scan_int_fmt z rest : 0 < z < 2 ^ 31 → isdigit (hd 0 rest) = false → scan_int (fmt_dec z ++ rest) = Some z.
Proof.
  intros Hz Hr. unfold scan_int. rewrite strtol10_fmt_dec by (done || lia). rewrite swrap_small by lia.
  assert (∃ b s, fmt_dec z = b :: s ∧ 48 <= b <= 57) as (b & s & -> & Hb).
  { rewrite fmt_dec_eq, (proj2 (Z.ltb_ge z 0)), (proj2 (Z.eqb_neq z 0)) by lia.
    destruct (pretty_go_head (Z.to_N (Z.abs z)) ltac:(lia)) as (b & s & -> & Hb). by exists b, s. }
  cbn [app skip_while]. assert (isspace b = false) as ->.
  { unfold isspace. apply orb_false_iff. split; [apply Z.eqb_neq; lia|]. apply andb_false_iff. right. apply Z.leb_gt. lia. }
  assert (b ∈ seqZ 48 10) as Hin by (apply elem_of_seqZ; lia).
  change (seqZ 48 10) with [48; 49; 50; 51; 52; 53; 54; 55; 56; 57] in Hin.
  by repeat (apply elem_of_cons in Hin as [->|Hin]; [done|]); apply elem_of_nil in Hin.
Qed.

(** C27: While the daemon runs, [stop] with the same configuration signals
    exactly its process; after the daemon has removed its PID file, [stop]
    signals nobody and says so. Conditions: the PID file can be written and
    the process number is positive and below 2^31. *)
Theorem stop_reaches_daemon {D} getenv pid (a : answers) now (c : config_t D) s kill errno :
  0 < pid < 2 ^ 31 → may_write (dm_disk s) (pid_path c) = true →
  let d := dm_disk (daemon_services getenv pid a now c s) in
  (cmd_stop kill errno c d).1.1 = Some pid ∧ (cmd_stop kill errno c d).2 = (if kill pid then 0 else 1) ∧
  (cmd_stop kill errno c (forget (pid_path c) d)).1.1 = None ∧ (cmd_stop kill errno c (forget (pid_path c) d)).2 = 1.
Proof.
  intros Hp Hw. cbv zeta. unfold daemon_services. cbn [dm_disk]. unfold cmd_stop at 1 2.
  rewrite texts_put, Hw, bool_decide_eq_true_2 by done. cbn [andb]. rewrite scan_int_fmt by done.
  rewrite (proj2 (Z.leb_gt pid 0)) by lia. destruct (kill pid); (split_and!; [done..| |]);
    unfold cmd_stop, forget; cbn [texts]; by rewrite lookup_delete_eq.
Qed.

(** ** Witnesses *)

Definition answers_ex (pool : bool) : answers := mk_answers (Some [job_ex 0]) pool (true, [true; true], true) true true.
Definition signalled_round : round := mk_round 1700003600 (Some 2%nat) (λ _, fresh_ex).
Definition daemon_ex : daemon_t Z :=
  mk_daemon_t runtime_new None (instance_init config_ex) None (mk_cron [] None true) false (mk_listeners false []) server_zero disk_ex.

Definition run_ex (pool : bool) : option (daemon_t Z * Z) :=
  cmd_daemon home_env config_ex (λ _, 0) 4711 (answers_ex pool) 100 200 config_ex false [signalled_round] server_ex daemon_ex.

Lemma run_ex_ends : ∃ s, run_ex true = Some (s, 0).
Proof. eexists. vm_compute. reflexivity. Qed.

Lemma daemon_cleans_up_witness : ∃ s, run_ex true = Some (s, 0) ∧ texts (dm_disk s) !! pid_path config_ex = None.
Proof.
  destruct run_ex_ends as [s Hs]. exists s. split; [exact Hs|].
  destruct (daemon_cleans_up home_env config_ex (λ _, 0) 4711 (answers_ex true) 100 200 config_ex false [signalled_round] server_ex daemon_ex s)
    as (_ & _ & _ & _ & _ & H & _); [done|vm_compute; lia|exact Hs|exact H].
Defined.

Lemma daemon_leaves_poller_witness : ∃ s, run_ex true = Some (s, 0) ∧ g_listeners_running (dm_listeners s) = true.
Proof.
  destruct run_ex_ends as [s Hs]. exists s. split; [exact Hs|].
  destruct (daemon_leaves_poller home_env config_ex (λ _, 0) 4711 (answers_ex true) 100 200 config_ex false [signalled_round] server_ex daemon_ex s)
    as [H _]; [done|done|vm_compute; lia|exact Hs|exact H].
Defined.

Lemma failed_daemon_start_witness : ∃ s, run_ex false = Some (s, -1) ∧ dm_disk s = dm_disk daemon_ex.
Proof.
  assert (∃ s, run_ex false = Some (s, -1)) as [s Hs] by (eexists; vm_compute; reflexivity). exists s. split; [exact Hs|].
  apply (failed_daemon_start home_env config_ex (λ _, 0) 4711 (answers_ex false) 100 200 config_ex false [signalled_round] server_ex daemon_ex s Hs).
Defined.

Lemma fresh_roomy : roomy 2 fresh_ex.
Proof. split; [split; vm_compute; lia|vm_compute; lia]. Qed.

Lemma daemon_stops_on_signal_witness :
  ∃ c q, daemon_rounds (λ _, 0) false [signalled_round] cron_ex fresh_ex 0 = Some (c, q, 3%nat).
Proof.
  destruct (daemon_stops_on_signal (λ _, 0) 2 [] signalled_round [] 2 cron_ex fresh_ex) as (c & q & H & _);
    [constructor|split; [cbn; lia|intros; apply fresh_roomy]|done|lia|apply fresh_roomy|done|].
  by exists c, q.
Defined.

Lemma stop_reaches_daemon_witness :
  (cmd_stop (λ _, true) [] config_ex (dm_disk (daemon_services home_env 4711 (answers_ex true) 100 config_ex daemon_ex))).1.1 = Some 4711.
Proof. apply (stop_reaches_daemon home_env 4711 (answers_ex true) 100 config_ex daemon_ex (λ _, true) []); [lia|done]. Defined.
