(* ===== verification/Main.v ===== *)
(** * The command line of [src/main.c]

    [parse_command], [main] and [cmd_agent]: which command a command line
    means, what its words are, and which prompts an interactive session hands
    to the agent. *)
From S2P Require Import Prelude Agent AgentSession Commands Onboard Console DaemonCommand.

Inductive command_t :=
  CMD_ONBOARD | CMD_AGENT | CMD_GATEWAY | CMD_DAEMON | CMD_SERVICE | CMD_DOCTOR | CMD_STATUS | CMD_CRON | CMD_MODELS |
  CMD_PROVIDERS | CMD_CHANNEL | CMD_INTEGRATIONS | CMD_SKILLS | CMD_MIGRATE | CMD_AUTH | CMD_HARDWARE | CMD_PERIPHERAL |
  CMD_VERIFY_TASK_FOCUS | CMD_LOG | CMD_PENTEST | CMD_STOP | CMD_TEST | CMD_UNKNOWN.

#[global] Instance command_eq_dec : EqDecision command_t.
Proof. solve_decision. Defined.

(** The comparisons of [parse_command], in their order. *)
Definition command_names : list (string * command_t) :=
  [("onboard", CMD_ONBOARD); ("agent", CMD_AGENT); ("gateway", CMD_GATEWAY); ("daemon", CMD_DAEMON); ("service", CMD_SERVICE);
   ("doctor", CMD_DOCTOR); ("status", CMD_STATUS); ("cron", CMD_CRON); ("models", CMD_MODELS); ("providers", CMD_PROVIDERS);
   ("channel", CMD_CHANNEL); ("integrations", CMD_INTEGRATIONS); ("skills", CMD_SKILLS); ("migrate", CMD_MIGRATE);
   ("auth", CMD_AUTH); ("hardware", CMD_HARDWARE); ("peripheral", CMD_PERIPHERAL); ("verify-task-focus", CMD_VERIFY_TASK_FOCUS);
   ("log", CMD_LOG); ("pentest", CMD_PENTEST); ("stop", CMD_STOP); ("test", CMD_TEST)]%string.

Definition parse_command (cmd : cstr) : command_t :=
  match List.find (λ p, streq cmd (lit p.1)) command_names with Some p => p.2 | None => CMD_UNKNOWN end.

Definition print_version : list cstr := lines ["Doctor Claw v0.1.0"; "Zero overhead. Zero compromise. 100% C."].

Definition print_usage (prog : cstr) : list cstr :=
  [lit "Usage: " ++ prog ++ lit " <command> [options]"; []; lit "Commands:"] ++ lines
  ["  onboard        Initialize workspace and configuration"; "  agent           Start the AI agent loop";
   "  gateway        Start the gateway server (webhooks, websockets)"; "  daemon         Start long-running autonomous runtime";
   "  service        Manage OS service lifecycle"; "  doctor         Run diagnostics"; "  status         Show system status";
   "  cron           Manage scheduled tasks"; "  models         Manage provider model catalogs";
   "  providers      List supported AI providers"; "  channel        Manage channels (telegram, discord, slack)";
   "  integrations   Browse integrations"; "  skills         Manage skills (user-defined capabilities)";
   "  migrate        Migrate data from other agent runtimes"; "  auth           Manage provider authentication profiles";
   "  hardware      Discover USB hardware"; "  peripheral     Manage hardware peripherals";
   "  verify-task-focus  Verify task-focus (attention loop) functionality"; "  log            Logging utilities (export)";
   "  pentest        Run security penetration tests against gateway";
   "  stop           Gracefully stop the running daemon (sends SIGTERM)";
   "  test           Run runtime tests (then exit; use from CLI or model)"; ""; "Options:";
   "  -h, --help     Show this help message"; "  -v, --version  Show version information";
   "  --verbose      Enable verbose logging"].

(** ** What a command line means *)

Inductive outcome :=
  | Help (code : Z)
  | Version
  | Unknown (name : cstr)
  | Run (verbose : bool) (cmd : command_t) (args : list cstr).

Definition is_help (w : cstr) : bool := streq w (lit "-h") || streq w (lit "--help").
Definition is_version (w : cstr) : bool := streq w (lit "-v") || streq w (lit "--version").

(** The loop over all words: the first of the two options ends the program,
    else the result is [g_verbose]. *)
Fixpoint scan_options (verbose : bool) (l : list cstr) : outcome + bool :=
  match l with
  | [] => inr verbose
  | w :: l' =>
      if is_help w then inl (Help 0)
      else if is_version w then inl Version
      else scan_options (verbose || streq w (lit "--verbose")) l'
  end.

(** [argv] without the name of the program. *)
Definition main_step (argv : list cstr) : outcome :=
  match argv with
  | [] => Help 1
  | name :: args =>
      match scan_options false argv with
      | inl o => o
      | inr verbose =>
          if is_help name then Help 0
          else if is_version name then Version
          else
            match parse_command name with
            | CMD_UNKNOWN => Unknown name
            | c => Run verbose c args
            end
      end
  end.

(** [main] over the commands: what is printed before one runs, and the code. *)
Definition main {W} (run : bool → command_t → list cstr → W → W * Z) (prog : cstr) (argv : list cstr) (w : W)
    : W * list cstr * Z :=
  match main_step argv with
  | Help code => (w, print_usage prog, code)
  | Version => (w, print_version, 0)
  | Unknown name => (w, (lit "Unknown command: " ++ name) :: print_usage prog, 1)
  | Run verbose c args => let '(w, code) := run verbose c args w in (w, [], code)
  end.

(** ** The agent *)

Section agent.
Context {A : Type} (agent_start : A → cstr → A * Z) (run_task : A → cstr → A).

(** The two loops read the same input: [agent_run_loop] takes the lines behind
    the one that started it.  One unit of [fuel] for each line is enough. *)
Fixpoint agent_session (fuel : nat) (pieces : list cstr) (a : A) : A :=
  match fuel, pieces with
  | S fuel', p :: l =>
      let input := input_of p in
      if streq input (lit "exit") then a
      else
        match input with
        | [] => agent_session fuel' l a
        | _ =>
            let '(a, rc) := agent_start a input in
            let '(a, l) := if rc =? 0 then agent_run_loop run_task l a else (a, l) in
            agent_session fuel' l a
        end
  | _, _ => a
  end.

(** [stdin] is all that can be read. *)
Definition cmd_agent (args : list cstr) (stdin : cstr) (a : A) : A * Z :=
  let pieces := fgets_lines (Z.to_nat 4096) stdin in
  (match args with
   | p :: _ =>
       let '(a, rc) := agent_start a p in if rc =? 0 then (agent_run_loop run_task pieces a).1 else a
   | [] => agent_session (length pieces) pieces a
   end, 0).

(** [agent_run_task] with the pointers it checks; [run] is what it does with
    both. *)
Definition checked_run_task (run : A → cstr → Z) (a : option A) (task : option cstr) : Z :=
  match a, task with Some a, Some t => run a t | _, _ => -1 end.

(** [a] is what [agent_init] makes, [None] when it fails. *)
Definition cmd_verify_task_focus (run : A → cstr → Z) (a : option A) : list cstr * Z :=
  let check (ok : bool) (good bad : cstr) := (if ok then lit "  OK: " ++ good else lit "  FAIL: " ++ bad, if ok then 0%nat else 1%nat) in
  let '(l1, f1) := check (streq TASK_COMPLETE_MARKER (lit "[TASK_COMPLETE]")) (jlit "agent_task_complete_marker() == '[TASK_COMPLETE]'")
                     (jlit "agent_task_complete_marker() should return '[TASK_COMPLETE]'") in
  let '(l2, f2) := check (checked_run_task run None (Some (lit "task")) =? -1) (lit "agent_run_task(NULL, ...) returns -1")
                     (lit "agent_run_task(NULL, ...) should return -1") in
  let front := lines ["[DoctorClaw] Verifying task-focus (attention loop) functionality..."; ""] ++ [l1; l2] in
  match a with
  | None => (front ++ lines ["  FAIL: agent_init failed"], -1)
  | Some a =>
      let '(l3, f3) := check (checked_run_task run (Some a) None =? -1) (lit "agent_run_task(agent, NULL, ...) returns -1")
                         (lit "agent_run_task(agent, NULL, ...) should return -1") in
      let r := run a (lit "Say only [TASK_COMPLETE] and nothing else.") in
      let l4 := if r =? 0 then lit "  OK: agent_run_task ran (with API would loop until [TASK_COMPLETE])"
                else lit "  OK: agent_run_task returned " ++ fmt_dec r ++ lit " (expected without API key: error)" in
      let failed := (f1 + f2 + f3)%nat in
      if (0 <? failed)%nat then
        (front ++ [l3; l4; []; lit "Verification FAILED (" ++ fmt_dec (Z.of_nat failed) ++ lit " check(s) failed)."], -1)
      else (front ++ [l3; l4; []; lit "Task-focus verification passed."], 0)
  end.
End agent.

(** ** Properties *)

Lemma scan_options_spec l v :
  (∃ o, scan_options v l = inl o ∧ (o = Help 0 ∨ o = Version) ∧ ¬ Forall (λ w, is_help w = false ∧ is_version w = false) l) ∨
  (scan_options v l = inr (v || existsb (λ w, streq w (lit "--verbose")) l) ∧
   Forall (λ w, is_help w = false ∧ is_version w = false) l).
Proof.
  revert v. induction l as [|w l IH]; intros v; [right; cbn; by rewrite orb_false_r|]. cbn [scan_options existsb].
  destruct (is_help w) eqn:Eh; [left; exists (Help 0); split_and!; [done|by left|]; intros [[? ?] ?]%Forall_cons; congruence|].
  destruct (is_version w) eqn:Ev; [left; exists Version; split_and!; [done|by right|]; intros [[? ?] ?]%Forall_cons; congruence|].
  destruct (IH (v || streq w (lit "--verbose"))) as [(o & -> & Ho & Hn)|[-> Hf]].
  - left. exists o. split_and!; [done..|]. intros [_ ?]%Forall_cons. done.
  - right. rewrite orb_assoc. by repeat constructor.
Qed.

Lemma main_runs argv verbose c args :
  main_step argv = Run verbose c args ↔
  ∃ name, argv = name :: args ∧ Forall (λ w, is_help w = false ∧ is_version w = false) argv ∧
    parse_command name = c ∧ c ≠ CMD_UNKNOWN ∧ verbose = existsb (λ w, streq w (lit "--verbose")) argv.
Proof.
  unfold main_step. split.
  - destruct argv as [|name argv]; [done|]. destruct (scan_options_spec (name :: argv) false) as [(o & -> & [->| ->] & _)|[-> Hf]]; [done..|].
    pose proof (proj1 (proj1 (Forall_cons _ _ _) Hf)) as [-> ->]. destruct (parse_command name) eqn:Ep; intros [= <- <- <-];
      (exists name; split_and!; done).
  - intros (name & -> & Hf & <- & Hc & ->). destruct (scan_options_spec (name :: args) false) as [(o & _ & _ & Hn)|[-> _]]; [done|].
    pose proof (proj1 (proj1 (Forall_cons _ _ _) Hf)) as [-> ->]. by destruct (parse_command name).
Qed.

(** The words are read as a command exactly when the first names one and none
    of them is an option for the help or the version; the command gets every
    word behind its name. *)
Theorem main_runs_exactly argv verbose c args :
  main_step argv = Run verbose c args ↔
  ∃ name, argv = name :: args ∧ Forall (λ w, is_help w = false ∧ is_version w = false) argv ∧
    parse_command name = c ∧ c ≠ CMD_UNKNOWN ∧ verbose = existsb (λ w, streq w (lit "--verbose")) argv.
Proof. apply main_runs. Qed.

(** Every command has one name, in the order of the usage text, and the name is
    read as the command. *)
Theorem commands_named c :
  c ≠ CMD_UNKNOWN →
  ∃ i name, command_names !! i = Some (name, c) ∧ parse_command (lit name) = c ∧
    has_prefix (lit "  " ++ lit name) (nth (3 + i) (print_usage []) []) = true ∧
    ∀ w, parse_command w = c → w = lit name.
Proof.
  intros Hc.
  assert (Forall (λ p, parse_command (lit p.1) = p.2) command_names) as H1 by (by apply (bool_decide_unpack _); vm_compute).
  assert (NoDup (map snd command_names)) as H2 by (by apply (bool_decide_unpack _); vm_compute).
  assert (∃ i name, command_names !! i = Some (name, c) ∧ has_prefix (lit "  " ++ lit name) (nth (3 + i) (print_usage []) []) = true)
    as (i & name & Hi & Hp).
  { destruct c; try done; match goal with |- ∃ i name, _ !! i = Some (name, ?c) ∧ _ =>
      let k := eval vm_compute in (default O (find_idx (λ p, bool_decide (p.2 = c)) command_names)) in
      exists k; eexists; split; [vm_compute; reflexivity|by vm_compute] end. }
  exists i, name. split_and!; [done| |done|].
  - rewrite Forall_lookup in H1. apply (H1 i _ Hi).
  - intros w Hw. unfold parse_command in Hw. destruct (List.find _ _) as [[n c']|] eqn:Ef; [|done]. cbn in Hw. subst c'.
    apply List.find_some in Ef as [Hin Heq]. apply list_elem_of_In, list_elem_of_lookup in Hin as [j Hj].
    assert (j = i) as ->. { eapply NoDup_lookup; [exact H2|..]; by rewrite list_lookup_fmap, ?Hj, ?Hi. }
    rewrite Hi in Hj. simplify_eq. by apply bool_decide_eq_true in Heq.
Qed.

Lemma gateway_args_host args port host : Forall (λ w, is_help w = false) args → (gateway_args args port host).2 = host.
Proof.
  revert port. induction args as [args IH] using (induction_ltof1 _ (@length cstr)). unfold ltof in IH. intros port Ha.
  destruct args as [|a [|v rest]]; [done|done|]. cbn [gateway_args].
  apply Forall_cons in Ha as [Ha Hr]. unfold is_help in Ha. bsplit.
  destruct (streq a (lit "-p")); [apply IH; [cbn; lia|by apply Forall_cons in Hr as [_ ?]]|].
  match goal with H : streq a (lit "-h") = false |- _ => rewrite H end.
  exact (IH (v :: rest) ltac:(cbn; lia) (if hd 0 a =? 45 then port else atoi a) Hr).
Qed.

(** The option for the address of the gateway cannot be given: a command line
    that holds it is answered with the help text, so a gateway that starts
    listens on all addresses. *)
Theorem gateway_listens_everywhere argv verbose args :
  main_step argv = Run verbose CMD_GATEWAY args → (cmd_gateway args).1 = lit "0.0.0.0".
Proof.
  intros (name & -> & Hf & _)%main_runs. apply Forall_cons in Hf as [_ Hf]. unfold cmd_gateway.
  pose proof (gateway_args_host args 8080 (lit "0.0.0.0")) as H. destruct (gateway_args _ _ _) as [port host]. cbn in *.
  apply H. eapply Forall_impl; [exact Hf|]. by intros w [? _].
Qed.

(** The switch for more output is a word like the others: before the command
    it is an unknown command, behind [onboard] it is the directory. *)
Theorem verbose_is_a_word c args :
  main_step (lit "--verbose" :: c :: args) ∈ [Help 0; Version; Unknown (lit "--verbose")] ∧
  main_step [lit "onboard"; lit "--verbose"] = Run true CMD_ONBOARD [lit "--verbose"] ∧
  onboard_workspace [lit "--verbose"] = lit "--verbose".
Proof.
  split; [|done]. cbn [main_step].
  destruct (scan_options_spec (lit "--verbose" :: c :: args) false) as [(o & -> & [->| ->] & _)|[-> _]]; repeat constructor.
Qed.

(** The verification of the attention loop passes whatever the loop does: the
    one task it runs cannot make it fail. *)
Theorem verification_cannot_fail {A} (run : A → cstr → Z) a :
  (cmd_verify_task_focus run (Some a)).2 = 0 ∧ last (cmd_verify_task_focus run (Some a)).1 = Some (lit "Task-focus verification passed.").
Proof. done. Qed.

(** What a line of a session does: the first one starts the agent, the ones
    behind it are tasks, up to a word that ends the inner loop. *)
Inductive call := Start (line : cstr) | Task (line : cstr).

Fixpoint transcript (inner : bool) (l : list cstr) : list call :=
  match l with
  | [] => []
  | [] :: l' => transcript inner l'
  | p :: l' =>
      if inner then if streq p (lit "exit") || streq p (lit "quit") then transcript false l' else Task p :: transcript true l'
      else if streq p (lit "exit") then [] else Start p :: transcript true l'
  end.

Definition do_call {A} (start : A → cstr → A * Z) (run_task : A → cstr → A) (a : A) (c : call) : A :=
  match c with Start p => (start a p).1 | Task p => run_task a p end.

Lemma session_transcript {A} (start : A → cstr → A * Z) run_task ls :
  (∀ a p, (start a p).2 = 0) → Forall (λ l, Forall (λ b, b ≠ 10) l) ls →
  let lines := map (λ l, l ++ [10]) ls in
  (∀ a fuel, (length ls ≤ fuel)%nat →
     agent_session start run_task fuel lines a = foldl (do_call start run_task) a (transcript false ls)) ∧
  (∀ a fuel, (length ls ≤ fuel)%nat →
     (let '(a, l) := agent_run_loop run_task lines a in agent_session start run_task fuel l a) =
     foldl (do_call start run_task) a (transcript true ls)).
Proof.
  intros Hs Hl. induction Hl as [|l ls Hn Hl IH]; cbv zeta in *; [split; intros a [|fuel] _; done|].
  destruct IH as [IH1 IH2].
  assert (input_of (l ++ [10]) = l) as Hi.
  { clear -Hn. unfold input_of. induction Hn as [|b l Hb _ IH]; [done|]. cbn. rewrite (proj2 (Z.eqb_neq b 10)) by done.
    cbn [negb]. by rewrite IH. }
  split; intros a fuel Hf.
  - destruct fuel as [|fuel]; [cbn in Hf; lia|]. cbn [map agent_session length] in *. rewrite Hi.
    destruct l as [|b l]; [apply IH1; lia|]. cbn [transcript]. destruct (streq (b :: l) (lit "exit")); [done|].
    cbn [foldl do_call]. specialize (Hs a (b :: l)). destruct (start a (b :: l)) as [a' rc]. cbn in Hs. subst rc. cbn [Z.eqb].
    specialize (IH2 a' fuel ltac:(lia)). destruct (agent_run_loop run_task _ a') as [a'' rest]. exact IH2.
  - cbn [map agent_run_loop length] in *. rewrite Hi. destruct l as [|b l]; [apply IH2; lia|]. cbn [transcript].
    destruct (_ || _); [apply IH1; lia|]. cbn [foldl do_call]. apply IH2. lia.
Qed.

(** An interactive run hands every line that is not empty to the agent once and
    in order: the first of a session starts it, the following ones are tasks,
    and after an [exit] or [quit] the next line starts it again; only a second
    [exit] ends the program. *)
Theorem session_gives_lines {A} (start : A → cstr → A * Z) run_task ls a :
  (∀ a p, (start a p).2 = 0) →
  Forall (λ l, Forall (λ b, b ≠ 10) l ∧ (length l < Z.to_nat 4096 - 1)%nat) ls →
  cmd_agent start run_task [] (concat (map (λ l, l ++ [10]) ls)) a =
  (foldl (do_call start run_task) a (transcript false ls), 0).
Proof.
  intros Hs Hl. unfold cmd_agent. rewrite fgets_lines_all by done. f_equal.
  apply (session_transcript start run_task ls Hs); [|by rewrite length_map].
  eapply Forall_impl; [exact Hl|]. by intros l [? _].
Qed.

(** ** Witnesses *)

Lemma commands_named_witness : ∃ name, parse_command (lit name) = CMD_DAEMON.
Proof. destruct (commands_named CMD_DAEMON) as (i & name & _ & H & _); [done|]. by exists name. Defined.

Lemma gateway_listens_everywhere_witness : (cmd_gateway [lit "-p"; lit "9000"]).1 = lit "0.0.0.0".
Proof. by apply (gateway_listens_everywhere [lit "gateway"; lit "-p"; lit "9000"] false). Defined.

Lemma session_gives_lines_witness :
  (cmd_agent (λ l p, (l ++ [Start p], 0)) (λ l p, l ++ [Task p]) []
     (concat (map (λ l, l ++ [10]) [lit "hi"; lit "do"; lit "exit"; []; lit "exit"; lit "no"])) []).1 = [Start (lit "hi"); Task (lit "do")].
Proof.
  rewrite (session_gives_lines (λ l p, (l ++ [Start p], 0)) (λ l p, l ++ [Task p])
             [lit "hi"; lit "do"; lit "exit"; []; lit "exit"; lit "no"] []); [done|done|].
  apply (bool_decide_unpack _). by vm_compute.
Defined.
